(* ===== verification/_CoqProject ===== *)
-Q . S2P
Prelude.v
Bytes.v
Hex.v
Keys.v
Values.v
Json.v
Checkpoint.v
Pebble.v
Store.v
Sha256.v
Types.v
Mempool.v
MempoolFacts.v
MempoolProps.v
Block.v
BlockFacts.v
BlockOps.v
BlockProps.v
Reorg.v
ReorgFacts.v
ReorgProps.v
ChainFacts.v
ReorgChain.v
Query.v
QueryFacts.v
QueryProps.v
MerkleProps.v
Server.v
ServerProps.v
Typed.v
Total.v
Steps.v
Chain.v
Follow.v
FollowProps.v
Gaps.v
GapProps.v
ChainSample.v
Ledger.v
Synced.v
Served.v
InStep.v
OneByOne.v
LedgerProps.v
LedgerSample.v
Writer.v
WriterProps.v
Zmq.v
Stream.v
StreamProps.v
GoFloat.v
Rpc.v
RpcProps.v
Conn.v
Serve.v
Config.v
ConfigProps.v
Live.v
LiveFacts.v
Requests.v
LiveProps.v
LiveSample.v
StartupProps.v
LedgerLive.v
Metrics.v
Metered.v
MeteredProps.v
NodeInfo.v
Handle.v
Main.v
MainProps.v
Pipeline.v
PipelineProps.v
ServeProps.v
Subscribe.v
