(* ===== verification/Prelude.v ===== *)
(** * electrum-go: a verification development

    electrum-go is an Electrum server: it indexes the blocks of a Bitcoin Core
    node into a Pebble database, keeps an overlay of the node's mempool, and
    answers scripthash, transaction and merkle queries from both.  This library
    models its core and proves what makes it correct.

    ** The program, and which file models which part

    - [internal/storage/keys.go], the database keys: [Keys].  Every constructor,
      parser and prefix; the eleven kinds of key as one type [db_key] with
      [encode_key] and [decode_key].
    - [internal/storage/storage.go], the stored values: [Values] (UTXO and mempool
      values, undo records, txid lists, offsets, positions) and [Json],
      [Checkpoint] (the checkpoint with [json.Marshal] and [json.Unmarshal]).
    - [internal/storage/storage.go], the methods of [storage.DB]: [Store], over the
      engine of [Pebble].
    - [internal/indexer/types.go]: [Types], with SHA-256 written out in [Sha256].
    - [internal/indexer/mempool.go], the overlay: [Mempool] (all of its methods);
      [MempoolFacts] and [MempoolProps] hold its invariant and properties.
    - [internal/indexer/block.go], [IndexBlock]: [Block]; [BlockFacts] and
      [BlockOps] compute the batch it commits, [BlockProps] states what it does.
    - [internal/indexer/reorg.go], [ReorgHandler]: [Reorg]; [ReorgFacts] and
      [ReorgProps] treat one block, [ChainFacts] and [ReorgChain] whole chains.
    - [internal/indexer/chain.go], [ChainManager]: [Chain].  [Follow] computes
      what catching up does, [Gaps] the search for missing headers and their
      repair; [FollowProps] and [GapProps] state it, [ChainSample] has the runs
      their witnesses use.
    - [internal/indexer/writer.go], [Writer]: [Writer], the jobs and the transition
      system of its goroutines; [WriterProps].
    - [internal/indexer/zmq.go], [ZMQSubscriber]: [Zmq], its messages, channels and
      counters; [Stream], the two goroutines with their sockets and reconnections
      as a transition system over it, and [testConnections]; [StreamProps].
    - [internal/electrum/scripthash.go], [merkle.go] and [getTxFromDB] of
      [handlers.go]: [Query]; [QueryFacts], [QueryProps], [MerkleProps].
    - [internal/electrum/subscriptions.go], [status_cache.go] and
      [ComputeScripthashStatusHex] of [server.go]: [Server], [ServerProps].
    - [internal/electrum/handlers.go] and [processRequest] of [server.go]: [Rpc],
      with [float64] in [GoFloat]; [RpcProps]; [Subscribe], what a subscription is
      worth afterwards.  [ConnWriter] of [server.go]: [Conn].
    - [internal/electrum/server.go], [Start], [Stop], [handleConnection] and [serve]:
      [Serve], the goroutines of the connections as a transition system;
      [ServeProps].
    - [internal/config/config.go], and the parts of [cmd/server/main.go] and
      [wire.go] before the database is opened: [Config], [ConfigProps]; the
      connection to the node and its answer to getblockchaininfo: [NodeInfo].
    - [main] of [cmd/server/main.go] as a whole, with its deferred calls: [Main],
      [MainProps]; [Handle] has [Open] and [Close] of [storage.go] and the
      [byteReader] of [chain.go].
    - [cmd/server/main.go] from the overlay on, [run.go] and [mempool.go]: [Live],
      the main loop as a function on the state [mworld] of all parts, one event a
      step ([runMainLoop] creates the tickers and enters [main_loop]); [LiveFacts] says which calls leave which data as they were; [Requests]
      is the interface for what every request keeps; [LiveProps], [LiveSample];
      [StartupProps] has [startup] as a whole.
    - The subscriber and the main loop side by side: [Pipeline], [PipelineProps].
    - [internal/metrics/metrics.go]: [Metrics]; the chain manager with the calls it
      makes on the collectors: [Metered], [MeteredProps].
    - What the index should hold, computed from the blocks alone: [Ledger], with
      [mirrors], the correspondence between a database and the ledger of a chain;
      [OneByOne] has the protocol's ledger, [Synced] and [Served] carry the
      correspondence through the chain manager and the queries, [InStep] and
      [LedgerLive] through the whole program; [LedgerProps], [LedgerSample].
    - What holds in every state the indexer can reach: [Typed] (the values have
      the types of their keys), [Total] (indexing returns), [Steps] (the step
      relation of all operations on the database).
    - [Prelude], [Bytes], [Hex]: errors, machine integers, the state monad,
      byte strings, big- and little-endian integers, [encoding/hex].

    The block indexer, the reorganisation handler and the overlay share one
    database and call each other: [IndexBlock] reads the database, removes the
    block's transactions from the overlay and commits one batch;
    [CheckAndHandle] reads the undo records [IndexBlock] wrote and empties the
    overlay; the overlay looks confirmed outputs up and persists its own under
    keys of a kind of their own.  The models compose the same way: a state
    [world] of database and overlay, [rworld] with the node's answers besides,
    [cworld] with the chain manager's tip, [wworld] with the writer's counters,
    [sworld] with the server's subscriptions and cached statuses; [mworld] has them
    all and the notifications sent, and [pipeline] the subscriber besides.  The chain
    manager calls [IndexBlock] and [CheckAndHandle]; the writer calls the chain
    manager and the overlay; a request calls the queries, the subscriptions and
    the cache.

    ** How the code is modelled

    A Go method is a function [st W A := W -> result A * W]: the new state is
    returned with the value or with the error, so what an error leaves behind is
    visible.  [error] keeps the wrapping of [%w].  Integers are [Z] with the
    wrap-around of their width ([u32], [i32], [i64]) where the code computes.
    [range] over a map takes its order from an argument ([range_order]), as does
    [sort.Slice] for equal elements ([slice_sort]).  The overlay's output records
    live in a heap of cells, since the code shares pointers to them.  A method
    that holds a lock throughout is one step; the step relations [mp_step],
    [subs_step], [cache_step] and [db_step] interleave them.  Goroutines that talk
    over channels are transition systems with one label per send, receive or
    branch of a [select] ([wstep], [cstep], [sstep], [gstep]); a run is a list of labels.
    A run-time panic is an error that no wrapping hides ([is_panic]), a call that
    has not returned within its fuel is [unreturned]; both pass through every
    caller.  A worker whose job ends so stays in it ([Busy]) or takes the process
    with it ([Crashed]); [main] ends with a panic that its deferred calls see
    ([Panicked]), or without them ([Killed]).

    ** What is a parameter

    - [Pebble]: the engine's calls.  [PebbleLaws] is what the program relies on:
      an ordered map, atomic batches, iterators over a snapshot, and that a
      failed write has either happened or not.  [PebbleHealthy] are the states in
      which no call fails.  [MemPebble] satisfies both, with a fuse after which
      every call fails.
    - [Prometheus] with [PrometheusLaws]: a registry that takes each name once
      ([NameRegistry]).
    - [Zstd] with [ZstdLaws] (decompression inverts compression; [StoredZstd]).
    - [Btcd] with [BtcdLaws]: btcd's messages, their hashes and serialisation
      ([ModelBtcd], in which a message carries its own hash).
    - [rpc_client], [node], [rpc_node]: the node, an answer for each call of an RPC;
      [serves] says that it has one chain up to a height and answers every call,
      [honest] that it tells no untruth about the chain.
    - [BtcdTx]: the fields of a transaction only verbose answers show;
      [platform]: what converting a float to an integer that cannot hold it
      gives, which Go leaves to the implementation, and the largest buffer that can
      be allocated.

    ** The theorems

    - The whole program: from the first start on, against a node that may fail any
      call but does not lie, through every event of the main loop, requests and
      restarts, the tip is a block of the node's chain and the history, unspent
      outputs and balance a client is told are those of the ledger of the blocks up
      to it ([server_serves_ledger]).  [honest] is what is asked of the node, and
      [good_chain] of its blocks: they serialise, their sizes fit [uint32], and no
      txid occurs twice.
    - The ledger: [catch_up_syncs] is the same for one catching up, across a
      reorganisation too; [process_block_syncs] for a block; the ledger
      is the one that takes the transactions one after the other as long as no block
      spends its own outputs ([clients_told_ledger]); for those that do see
      [same_block_spend_stays].
    - Keys and values: the keys of all kinds are distinct and read back
      ([Keys.encode_key_roundtrip], [parsers_exact]); undo records, UTXO values
      and the checkpoint decode to what was encoded.
    - The overlay: an invariant ties its five maps and holds in every reachable
      state ([overlay_invariant]); it never touches confirmed data; adding is all
      or nothing, removing undoes adding, a double spend is refused.
    - Blocks: [index_block_utxo_set] refines [IndexBlock] to a transition on an
      abstract UTXO set; [index_block_history] does the same for histories;
      [index_block_atomic] covers failures of the engine; the stored records read
      back ([block_records_readable], [indexed_tx_served]).
    - Reorganisations: [rollback_undoes_block] for one block, [reorg_handled] for
      [CheckAndHandle] as a whole on a chain of blocks, with the refusal of deep
      ones, the quiet case and the pruning of undo records beside it.
    - The chain manager: a new block is indexed with all that is missing below it
      ([process_block_catches_up]) and catching up crosses a reorganisation
      ([catch_up_follows_reorg]), each with the blocks indexed on the way; start-up leaves no gap or is refused
      ([GapProps.catch_up_to_tip_complete]); as a whole, from a fresh or a saved
      database, it ends with the index complete and the server's statuses current
      from then on ([startup_complete]).
    - Every reachable database: its values are typed ([stored_values_typed]), and
      indexing a well-formed block returns ([index_block_returns]).
    - The writer: every interleaving is equivalent to its accepted jobs one after
      the other ([writer_is_sequential]); its channels never block the worker
      ([writer_never_blocks]); a call returns when the jobs before it do, or at the
      shutdown, and one whose job does not return waits for it
      ([writer_calls_return]); the scripthashes reported are exact.
    - The subscriber: the main loop receives exactly the well-formed messages, in
      order, and gaps are counted as the sequence numbers say ([Zmq.zmq_streams_exact]);
      the goroutines that connect and reconnect implement this, whatever the
      sockets answer ([subscriber_run_refines]), and all end after [Stop]
      ([subscriber_stops]).  Beside the main loop: the loop handles exactly what
      arrived, and catches up with the channels in bounded steps
      ([pipeline_exact]).
    - Metrics: on one chain the blocks counted and the height shown are those
      of the tip, and on any chain after a processed block ([metrics_follow_tip]);
      the chain manager with its calls on the collectors is the one without them
      ([metrics_never_interfere]); the reorganisations counted are not those
      that happened ([duplicate_block_counts_as_reorg]); the collectors register once
      ([metrics_registered_once]).
    - Queries: the history and the unspent list are exactly what the database and
      the overlay hold; merkle proofs lead to the root.
    - Requests: each is answered in order with its id, but for the counts of headers
      that panic ([requests_answered]), none changes the index or another connection
      ([requests_only_read]); block headers are answered exactly, a subscription
      holds until its scripthash is marked dirty ([subscribe_answers_status]).  The
      messages of a connection are written in order ([conn_writer_in_order]).
    - Start-up: the configuration the program goes on with is valid
      ([startup_config_valid]); the credentials of a cookie file ([cookie_read_exactly]);
      both formats of getblockchaininfo are read ([info_both_formats]); what [main]
      opens it closes in reverse, it serves only what start-up has caught up, and
      ends as its main loop does unless a ticker cannot be created
      ([main_lifecycle]).
    - The main loop: the statuses served are current after any sequence of events
      the loop announces ([served_statuses_current]); a block is announced to
      exactly those it concerns ([block_event_announced]); what catching up indexes
      is complete but announced to nobody ([tip_check_catches_up_silently]).
    - Connections: slots, counters and subscriptions agree with the goroutines
      ([connections_accounted]); what [Stop] waits for, and the one connection that
      can be left to the accept loop when it has seen all others end
      ([server_stop_complete]).
    - Server state: the subscription maps are one relation; cached statuses are
      current when calls do not overlap.
    - Defects, each with a theorem that shows it on the model: an output spent in
      the block that creates it stays ([same_block_spend_stays]); a deep
      reorganisation of a chain indexed from its start is not refused but wipes it
      ([deep_reorg_wipes_chain], where [deep_reorg_refused] needs a stored start
      height of 2 or more); an interrupted rollback cannot be resumed
      ([rollback_not_resumable]); a rolled back txid is answered with another
      transaction ([rolled_back_tx_misread]); full indexing never starts
      ([full_index_never_starts]); repairing a gap moves the checkpoint back
      ([gap_repair_moves_checkpoint]); an abandoned tip is dropped without being
      undone ([abandoned_tip_not_undone]); a negative count of headers ends the
      process ([negative_header_count_crashes], [wrapped_header_count_crashes]), as
      does a notification that races with the end of a connection
      ([close_races_with_send]); a connection can begin after [Stop] has seen all
      others end ([starts_after_stop]); stale spending marks
      in the overlay; balances that subtract twice; merkle branches of odd levels;
      stale cached statuses; truncated undo records that decode.

    ** Bounds and fuel

    [rollback_loop] and [fork_loop] run for the number of heights between their
    bounds, computed from the loop's condition; [branch_loop] for the number of
    leaves, which is at least the height of the tree; the loops of [Chain] for the
    number of heights in their range.  [CatchUpTo] and [ProcessBlock] call
    themselves after a reorganisation or a gap, so they take fuel: the theorems
    need 1 on a chain that only grows and 2 across a reorganisation or a gap, and
    [full_index_never_starts] is a case for which none is enough.  Every other
    recursion is structural.  Sizes are bounded in theorems only where the code converts them
    to [uint32] (transactions, outputs and bytes of a block).

    ** What is not modelled

    The overlay without a database ([db] nil), which [main] never builds: adding to
    it a transaction that spends a confirmed output would dereference it.  The errors
    of the node and the engine are ordinary ones: a panic inside a library is not
    theirs to return.
    Sockets and clocks: what they answer is in the labels of [Serve] and [Stream], how
    they do it is not modelled; signals, the banner and the text for the
    operator ([recovery.go]); the HTTP handler of the metrics, the durations they
    observe, and the calls on collectors outside the chain manager; the types
    of [types.go] that nothing uses ([ProcessedBlock] and the like); the options
    the engine is opened with; the TOML decoder (a parameter of [Config]); the bytes [json.Marshal] prints for a
    response (its value is modelled).  [WriterStats.String] and all log lines
    are left out, except where they slice a string.  [server_serves_ledger] is about
    one chain of the node: across a reorganisation the tip check of [CatchUpToTip]
    drops the abandoned blocks without undoing them ([abandoned_tip_not_undone]), so
    what holds there is [catch_up_syncs], for [CatchUpTo] itself.  In [Live] the
    events of the main loop, the queued jobs and the requests of connections do
    not overlap; [Writer], [Stream], [Server] and [Conn] treat their overlapping. *)

From stdpp Require Export base option list strings gmap sorting.
From Stdlib Require Export ZArith Lia.

#[global] Open Scope Z_scope.
#[global] Open Scope list_scope.

(** ** Go errors

    [fmt.Errorf] with [%w] keeps the wrapped error reachable for
    [errors.Is]; [errors.New] and [fmt.Errorf] without [%w] make a leaf.  A
    package-level sentinel (compared by identity) is a leaf with its name. *)

Inductive error : Type :=
| ENew (msg : string)
| ESentinel (name : string) (msg : string)
| EWrap (pre : string) (e : error) (post : string).

#[export] Instance error_eq_dec : EqDecision error.
Proof. solve_decision. Defined.

(** [err.Error()]. *)
Fixpoint Error (e : error) : string :=
  match e with
  | ENew msg => msg
  | ESentinel _ msg => msg
  | EWrap pre e post => pre +:+ Error e +:+ post
  end.

(** [errors.Is(err, target)] for a sentinel target. *)
Fixpoint errors_Is (e : error) (target : string) : bool :=
  match e with
  | ENew _ => false
  | ESentinel name _ => bool_decide (name = target)
  | EWrap _ e _ => errors_Is e target
  end.

(** ** Fallible results: a Go pair [(v, err)] of which exactly one part is
    meaningful. *)

Inductive result (A : Type) : Type :=
| Ok (a : A)
| Err (e : error).
Arguments Ok {A} a.
Arguments Err {A} e.

#[export] Instance result_eq_dec {A} `{EqDecision A} : EqDecision (result A).
Proof. solve_decision. Defined.

#[export] Instance result_ret : MRet result := fun A a => Ok a.
#[export] Instance result_bind : MBind result := fun A B f m =>
  match m with Ok a => f a | Err e => Err e end.
#[export] Instance result_fmap : FMap result := fun A B f m =>
  match m with Ok a => Ok (f a) | Err e => Err e end.

(** [if err != nil { return ..., fmt.Errorf("<pre>%w", err) }] *)
Definition wrap {A} (pre : string) (m : result A) : result A :=
  match m with Ok a => Ok a | Err e => Err (EWrap pre e "") end.

Definition is_Ok {A} (m : result A) : bool :=
  match m with Ok _ => true | Err _ => false end.

Definition to_option {A} (m : result A) : option A :=
  match m with Ok a => Some a | Err _ => None end.

(** [check b e]: the guard [if !b { return e }]. *)
Definition check (b : bool) (e : error) : result unit :=
  if b then Ok () else Err e.

(** A [for] loop with early return over a slice. *)
Fixpoint foldM {A B} (f : B -> A -> result B) (b : B) (l : list A) : result B :=
  match l with
  | [] => Ok b
  | x :: l => f b x ≫= fun b => foldM f b l
  end.

Section Result.
Context {A B : Type}.

Lemma bind_Ok (m : result A) (f : A -> result B) b :
  m ≫= f = Ok b <-> exists a, m = Ok a /\ f a = Ok b.
Proof. destruct m; simpl; naive_solver. Qed.

Lemma wrap_Ok pre (m : result A) a : wrap pre m = Ok a <-> m = Ok a.
Proof. destruct m; simpl; naive_solver. Qed.

Lemma check_Ok b e u : check b e = Ok u <-> b = true.
Proof. destruct b, u; simpl; naive_solver. Qed.

Lemma foldM_app (f : B -> A -> result B) b l1 l2 :
  foldM f b (l1 ++ l2) = foldM f b l1 ≫= fun b => foldM f b l2.
Proof.
  revert b; induction l1 as [|x l1 IH]; intros b; [done|].
  simpl. destruct (f b x); simpl; auto.
Qed.
End Result.

(** An invariant of the accumulator survives a successful loop. *)
Lemma foldM_ind {A B} (P : B -> list A -> Prop) (f : B -> A -> result B) :
  forall l b b',
  P b [] ->
  (forall pre x b0 b1, P b0 pre -> f b0 x = Ok b1 -> P b1 (pre ++ [x])) ->
  foldM f b l = Ok b' -> P b' l.
Proof.
  intros l b b' H0 Hstep.
  assert (Hgen : forall pre b0, P b0 pre -> foldM f b0 l = Ok b' -> P b' (pre ++ l)).
  { clear H0. induction l as [|x l IH]; simpl; intros pre b0 HP.
    - intros [= ->]. by rewrite app_nil_r.
    - rewrite bind_Ok. intros (b1 & H1 & H2).
      specialize (IH (pre ++ [x]) b1). rewrite <- app_assoc in IH. simpl in IH. eauto. }
  apply (Hgen [] b H0).
Qed.

(** ** Stateful code: a state and an error.  The state survives an error, as
    it does in Go. *)

Definition st (W A : Type) : Type := W -> result A * W.

#[export] Instance st_ret {W} : MRet (st W) := fun A a w => (Ok a, w).
#[export] Instance st_bind {W} : MBind (st W) := fun A B f m w =>
  match m w with
  | (Ok a, w') => f a w'
  | (Err e, w') => (Err e, w')
  end.

Definition st_lift {W A} (m : result A) : st W A := fun w => (m, w).
Definition st_gets {W A} (f : W -> A) : st W A := fun w => (Ok (f w), w).
Definition st_modify {W} (f : W -> W) : st W unit := fun w => (Ok (), f w).
Definition st_fail {W A} (e : error) : st W A := fun w => (Err e, w).

(** [v, err := f(...)] where the caller inspects [err] itself. *)
Definition st_try {W A} (m : st W A) : st W (result A) := fun w =>
  let '(r, w') := m w in (Ok r, w').

(** [if err != nil { return fmt.Errorf("<pre>%w", err) }] *)
Definition st_wrap {W A} (pre : string) (m : st W A) : st W A := fun w =>
  let '(r, w') := m w in (wrap pre r, w').

Fixpoint st_foldM {W A B} (f : B -> A -> st W B) (b : B) (l : list A) : st W B :=
  match l with
  | [] => mret b
  | x :: l => f b x ≫= fun b => st_foldM f b l
  end.

(** [st_rel R m]: [m] only takes steps of the relation [R] on the state,
    whether it succeeds or fails. *)
Definition st_rel {W A} (R : relation W) (m : st W A) : Prop := forall w, R w (m w).2.

Section StRel.
Context {W : Type} (R : relation W) `{!PreOrder R}.

Lemma st_rel_ret {A} (a : A) : st_rel R (mret a).
Proof. intros w. simpl. reflexivity. Qed.

Lemma st_rel_bind {A C} (m : st W A) (f : A -> st W C) :
  st_rel R m -> (forall a, st_rel R (f a)) -> st_rel R (m ≫= f).
Proof.
  intros Hm Hf w. specialize (Hm w). unfold mbind, st_bind.
  destruct (m w) as [[a|e] w1]; simpl in *; [|done]. etrans; [exact Hm|apply Hf].
Qed.

Lemma st_rel_lift {A} (r : result A) : st_rel R (st_lift r).
Proof. intros w. simpl. reflexivity. Qed.
Lemma st_rel_gets {A} (f : W -> A) : st_rel R (st_gets f).
Proof. intros w. simpl. reflexivity. Qed.
Lemma st_rel_fail {A} e : st_rel R (@st_fail W A e).
Proof. intros w. simpl. reflexivity. Qed.

Lemma st_rel_try {A} (m : st W A) : st_rel R m -> st_rel R (st_try m).
Proof. intros Hm w. specialize (Hm w). unfold st_try. by destruct (m w). Qed.

Lemma st_rel_wrap {A} pre (m : st W A) : st_rel R m -> st_rel R (st_wrap pre m).
Proof. intros Hm w. specialize (Hm w). unfold st_wrap. by destruct (m w). Qed.

Lemma st_rel_foldM {A C} (f : C -> A -> st W C) l b :
  (forall b x, st_rel R (f b x)) -> st_rel R (st_foldM f b l).
Proof.
  intros Hf. revert b; induction l as [|x l IH]; intros b; [apply st_rel_ret|].
  apply st_rel_bind; auto.
Qed.
End StRel.

(** What a run that returned did. *)
Lemma st_bind_Ok {W A C} (m : st W A) (f : A -> st W C) w c w' :
  (m ≫= f) w = (Ok c, w') <-> exists a w1, m w = (Ok a, w1) /\ f a w1 = (Ok c, w').
Proof.
  unfold mbind, st_bind. destruct (m w) as [[a|e] w1]; [naive_solver|].
  split; [done|]. by intros (? & ? & ? & ?).
Qed.

Lemma st_bind_run {W A C} (m : st W A) (f : A -> st W C) w a w1 :
  m w = (Ok a, w1) -> (m ≫= f) w = f a w1.
Proof. unfold mbind, st_bind. by intros ->. Qed.

Lemma st_bind_err {W A C} (m : st W A) (f : A -> st W C) w e w1 :
  m w = (Err e, w1) -> (m ≫= f) w = (Err e, w1).
Proof. unfold mbind, st_bind. by intros ->. Qed.

Lemma st_try_run {W A} (m : st W A) w r w1 : m w = (r, w1) -> st_try m w = (Ok r, w1).
Proof. unfold st_try. by intros ->. Qed.

(** An invariant of a loop that returned. *)
Lemma st_foldM_ind {W A C} (I : C -> list A -> W -> Prop) (f : C -> A -> st W C) l b w b' w' :
  I b [] w ->
  (forall pre x post b0 w0 b1 w1, I b0 pre w0 -> l = pre ++ x :: post ->
     f b0 x w0 = (Ok b1, w1) ->
     I b1 (pre ++ [x]) w1) ->
  st_foldM f b l w = (Ok b', w') -> I b' l w'.
Proof.
  intros H0 Hstep.
  assert (Hgen : forall l1 pre b0 w0, l = pre ++ l1 -> I b0 pre w0 ->
    st_foldM f b0 l1 w0 = (Ok b', w') -> I b' l w').
  { induction l1 as [|x l1 IH]; intros pre b0 w0 -> HI.
    - intros [= -> ->]. by rewrite app_nil_r.
    - cbn [st_foldM]. intros (b1 & w1 & H1 & H2)%st_bind_Ok.
      eapply (IH (pre ++ [x])); [by rewrite <- app_assoc| |exact H2].
      by eapply Hstep. }
  by apply (Hgen l []).
Qed.

(** ** Options *)

Lemma Some_default {A} (d : A) (o : option A) : is_Some o -> o = Some (default d o).
Proof. by intros [x ->]. Qed.

(** ** Maps *)

Lemma map_to_list_filter `{Countable K} {V} (Q : K * V -> Prop) `{!forall kv, Decision (Q kv)}
    (m : gmap K V) : map_to_list (filter Q m) ≡ₚ filter Q (map_to_list m).
Proof.
  apply NoDup_Permutation.
  - apply NoDup_map_to_list.
  - apply NoDup_filter, NoDup_map_to_list.
  - intros [k v]. rewrite list_elem_of_filter, !elem_of_map_to_list, map_lookup_filter_Some. tauto.
Qed.

(** ** Machine integers *)

Definition u8 (z : Z) : Z := z `mod` 2 ^ 8.
Definition u32 (z : Z) : Z := z `mod` 2 ^ 32.
Definition u64 (z : Z) : Z := z `mod` 2 ^ 64.
Definition i32 (z : Z) : Z := (z + 2 ^ 31) `mod` 2 ^ 32 - 2 ^ 31.
Definition i64 (z : Z) : Z := (z + 2 ^ 63) `mod` 2 ^ 64 - 2 ^ 63.

Definition in_u32 (z : Z) : Prop := 0 <= z < 2 ^ 32.
Definition in_i32 (z : Z) : Prop := - 2 ^ 31 <= z < 2 ^ 31.
Definition in_i64 (z : Z) : Prop := - 2 ^ 63 <= z < 2 ^ 63.

#[export] Instance in_u32_dec z : Decision (in_u32 z).
Proof. unfold in_u32. apply _. Defined.
#[export] Instance in_i32_dec z : Decision (in_i32 z).
Proof. unfold in_i32. apply _. Defined.
#[export] Instance in_i64_dec z : Decision (in_i64 z).
Proof. unfold in_i64. apply _. Defined.

Lemma u32_id z : in_u32 z -> u32 z = z.
Proof. unfold in_u32, u32. intros. by apply Z.mod_small. Qed.

Lemma u32_range z : in_u32 (u32 z).
Proof. unfold in_u32, u32. apply Z.mod_pos_bound. lia. Qed.

Lemma i32_id z : in_i32 z -> i32 z = z.
Proof. unfold in_i32, i32. intros. rewrite Z.mod_small by lia. lia. Qed.

Lemma i32_range z : in_i32 (i32 z).
Proof. unfold in_i32, i32. pose proof (Z.mod_pos_bound (z + 2 ^ 31) (2 ^ 32)). lia. Qed.

Lemma i64_id z : in_i64 z -> i64 z = z.
Proof. unfold in_i64, i64. intros. rewrite Z.mod_small by lia. lia. Qed.

Lemma i64_range z : in_i64 (i64 z).
Proof. unfold in_i64, i64. pose proof (Z.mod_pos_bound (z + 2 ^ 63) (2 ^ 64)). lia. Qed.

Lemma i32_u32 z : i32 (u32 z) = i32 z.
Proof. unfold i32, u32. by rewrite Zplus_mod_idemp_l. Qed.

Lemma u32_inj h h' : in_i32 h -> in_i32 h' -> u32 h = u32 h' -> h = h'.
Proof. intros Hh Hh' E. by rewrite <- (i32_id h), <- (i32_id h'), <- (i32_u32 h), <- (i32_u32 h'), E. Qed.

Lemma i64_u64 z : i64 (u64 z) = i64 z.
Proof. unfold i64, u64. by rewrite Zplus_mod_idemp_l. Qed.

(** ** Automation *)

Create HintDb go discriminated.
#[export] Hint Resolve u32_range i32_range i64_range : go.


Create HintDb st_rel discriminated.
#[export] Hint Resolve st_rel_ret st_rel_lift st_rel_gets st_rel_fail st_rel_try st_rel_wrap : st_rel.

(** [solve_rel]: follow the structure of a computation. *)
Ltac solve_rel :=
  repeat first
    [ progress intros
    | solve [eauto 3 with st_rel typeclass_instances]
    | apply st_rel_bind; [apply _| |]
    | apply st_rel_foldM; [apply _|]
    | match goal with
      | |- st_rel _ (if ?b then _ else _) => destruct b
      | |- st_rel _ (match ?x with _ => _ end) => destruct x
      end ].

(** [go_inv]: take apart hypotheses saying that a fallible computation
    returned. *)
Ltac go_inv_1 :=
  match goal with
  | H : _ ≫= _ = Ok _ |- _ =>
      let a := fresh "v" in let H1 := fresh "H" in let H2 := fresh "H" in
      apply bind_Ok in H; destruct H as (a & H1 & H2)
  | H : wrap _ _ = Ok _ |- _ => apply wrap_Ok in H
  | H : check _ _ = Ok _ |- _ => apply check_Ok in H
  | H : mret _ = Ok _ |- _ => injection H as H
  | H : Ok _ = Ok _ |- _ => injection H as H
  | H : Err _ = Ok _ |- _ => discriminate H
  | H : Ok _ = Err _ |- _ => discriminate H
  end.
Ltac go_inv := repeat (go_inv_1; simplify_eq/=).

#[global] Arguments u8 : simpl never.
#[global] Arguments u32 : simpl never.
#[global] Arguments u64 : simpl never.
#[global] Arguments i32 : simpl never.
#[global] Arguments i64 : simpl never.
