(* ===== verification/Bytes.v ===== *)
(** * Byte strings: [encoding/binary], [encoding/hex], byte order

    The pieces of Go's standard library the program computes with: fixed-width
    little- and big-endian integers, hexadecimal text, the lexicographic order
    of [bytes.Compare] (the key order of the database), and the [copy] and
    reversal idioms.  Every later file builds on these definitions. *)

From Stdlib Require Import Strings.Byte.
From S2P Require Import Prelude.

Abbreviation byte := Byte.byte.
Abbreviation bytes := (list Byte.byte).

#[export] Instance byte_eq_dec : EqDecision byte := Byte.byte_eq_dec.
#[export] Instance byte_inhabited : Inhabited byte := populate Byte.x00.
#[export] Program Instance byte_countable : Countable byte :=
  inj_countable Byte.to_N Byte.of_N _.
Next Obligation. intros b. apply Byte.of_to_N. Qed.

(** ** Bytes and integers *)

Definition Z_of_byte (b : byte) : Z := Z.of_N (Byte.to_N b).

(** [byte(z)]: conversion wraps. *)
Definition byte_of_Z (z : Z) : byte :=
  default Byte.x00 (Byte.of_N (Z.to_N (z `mod` 256))).

Lemma Z_of_byte_range b : 0 <= Z_of_byte b < 256.
Proof. unfold Z_of_byte. pose proof (Byte.to_N_bounded b). lia. Qed.

Lemma Z_of_byte_of_Z z : Z_of_byte (byte_of_Z z) = z `mod` 256.
Proof.
  unfold Z_of_byte, byte_of_Z.
  pose proof (Z.mod_pos_bound z 256 ltac:(lia)) as Hb.
  destruct (Byte.of_N (Z.to_N (z `mod` 256))) as [b|] eqn:E; simpl.
  - apply Byte.to_of_N in E. lia.
  - apply Byte.of_N_None_iff in E. lia.
Qed.

Lemma byte_of_Z_of_byte b : byte_of_Z (Z_of_byte b) = b.
Proof.
  unfold byte_of_Z, Z_of_byte. pose proof (Byte.to_N_bounded b).
  rewrite Z.mod_small by lia. by rewrite N2Z.id, Byte.of_to_N.
Qed.

#[export] Instance Z_of_byte_inj : Inj (=) (=) Z_of_byte.
Proof. intros a b H. by rewrite <- (byte_of_Z_of_byte a), <- (byte_of_Z_of_byte b), H. Qed.

(** ** Fixed-width integers

    [le_encode n z] is [binary.LittleEndian.PutUint<8n>] of the low [8n] bits
    of [z]; [le_decode] is [binary.LittleEndian.Uint<8n>]. *)

Fixpoint le_encode (n : nat) (z : Z) : bytes :=
  match n with
  | O => []
  | S n => byte_of_Z z :: le_encode n (z / 256)
  end.

Fixpoint le_decode (bs : bytes) : Z :=
  match bs with
  | [] => 0
  | b :: bs => Z_of_byte b + 256 * le_decode bs
  end.

Definition be_encode (n : nat) (z : Z) : bytes := reverse (le_encode n z).
Definition be_decode (bs : bytes) : Z := le_decode (reverse bs).

Lemma length_le_encode n z : length (le_encode n z) = n.
Proof. revert z; induction n; intros; simpl; auto. Qed.

Lemma length_be_encode n z : length (be_encode n z) = n.
Proof. unfold be_encode. by rewrite length_reverse, length_le_encode. Qed.

Lemma le_decode_encode n z : le_decode (le_encode n z) = z `mod` 2 ^ (8 * Z.of_nat n).
Proof.
  revert z; induction n as [|n IH]; intros z; simpl le_encode; simpl le_decode.
  { by rewrite Z.mod_1_r. }
  rewrite IH, Z_of_byte_of_Z.
  replace (8 * Z.of_nat (S n)) with (8 + 8 * Z.of_nat n) by lia.
  rewrite Z.pow_add_r by lia. change (2 ^ 8) with 256.
  rewrite Z.rem_mul_r by lia. lia.
Qed.

Lemma be_decode_encode n z : be_decode (be_encode n z) = z `mod` 2 ^ (8 * Z.of_nat n).
Proof. unfold be_decode, be_encode. by rewrite reverse_involutive, le_decode_encode. Qed.

Lemma le_decode_range bs : 0 <= le_decode bs < 2 ^ (8 * Z.of_nat (length bs)).
Proof.
  induction bs as [|b bs IH]; simpl; [lia|].
  replace (8 * Z.of_nat (S (length bs))) with (8 + 8 * Z.of_nat (length bs)) by lia.
  rewrite Z.pow_add_r by lia. change (2 ^ 8) with 256.
  pose proof (Z_of_byte_range b). lia.
Qed.

Lemma be_decode_range bs : 0 <= be_decode bs < 2 ^ (8 * Z.of_nat (length bs)).
Proof. unfold be_decode. rewrite <- (length_reverse bs). apply le_decode_range. Qed.

Lemma le_encode_decode bs n : length bs = n -> le_encode n (le_decode bs) = bs.
Proof.
  intros <-. induction bs as [|b bs IH]; simpl; [done|].
  pose proof (Z_of_byte_range b).
  assert ((Z_of_byte b + 256 * le_decode bs) / 256 = le_decode bs) as ->.
  { rewrite Z.mul_comm, Z.div_add by lia. rewrite Z.div_small; lia. }
  rewrite IH. f_equal. rewrite <- (byte_of_Z_of_byte b) at 2.
  apply (inj Z_of_byte). rewrite !Z_of_byte_of_Z.
  by rewrite Z.mul_comm, Z_mod_plus_full.
Qed.

Lemma be_encode_decode bs n : length bs = n -> be_encode n (be_decode bs) = bs.
Proof.
  intros <-. unfold be_encode, be_decode.
  rewrite le_encode_decode by apply length_reverse. by rewrite reverse_involutive.
Qed.

(** The widths in use. *)
Lemma be32_decode_encode z : be_decode (be_encode 4 z) = u32 z.
Proof. apply (be_decode_encode 4). Qed.
Lemma le32_decode_encode z : le_decode (le_encode 4 z) = u32 z.
Proof. apply (le_decode_encode 4). Qed.
Lemma le64_decode_encode z : le_decode (le_encode 8 z) = u64 z.
Proof. apply (le_decode_encode 8). Qed.

Lemma be32_u32 z : be_encode 4 (u32 z) = be_encode 4 z.
Proof. by rewrite <- be32_decode_encode, be_encode_decode by apply length_be_encode. Qed.

(** Written out with shifts, as a four-byte literal. *)
Lemma be32_shifts z : be_encode 4 z =
  [byte_of_Z (Z.shiftr z 24); byte_of_Z (Z.shiftr z 16); byte_of_Z (Z.shiftr z 8); byte_of_Z z].
Proof.
  rewrite !Z.shiftr_div_pow2 by lia.
  change (2 ^ 24) with (256 * 256 * 256). change (2 ^ 16) with (256 * 256). change (2 ^ 8) with 256.
  rewrite <- !Z.div_div by lia. reflexivity.
Qed.

Lemma be32_inj a b : in_u32 a -> in_u32 b -> be_encode 4 a = be_encode 4 b -> a = b.
Proof.
  intros Ha Hb H. apply (f_equal be_decode) in H.
  rewrite !be32_decode_encode, !u32_id in H; done.
Qed.

(** ** The key order: [bytes.Compare] *)

Fixpoint bytes_compare (a b : bytes) : comparison :=
  match a, b with
  | [], [] => Eq
  | [], _ :: _ => Lt
  | _ :: _, [] => Gt
  | x :: a, y :: b =>
      match Z_of_byte x ?= Z_of_byte y with
      | Eq => bytes_compare a b
      | c => c
      end
  end.

Definition bytes_lt (a b : bytes) : Prop := bytes_compare a b = Lt.
Definition bytes_le (a b : bytes) : Prop := bytes_compare a b <> Gt.

#[export] Instance bytes_lt_dec : RelDecision bytes_lt.
Proof. intros a b. unfold bytes_lt. solve_decision. Defined.
#[export] Instance bytes_le_dec : RelDecision bytes_le.
Proof. intros a b. unfold bytes_le. solve_decision. Defined.

Lemma bytes_compare_refl a : bytes_compare a a = Eq.
Proof. induction a; simpl; [done|]. by rewrite Z.compare_refl. Qed.

Lemma bytes_compare_eq a b : bytes_compare a b = Eq <-> a = b.
Proof.
  split; [|intros ->; apply bytes_compare_refl].
  revert b; induction a as [|x a IH]; intros [|y b]; simpl; try done.
  destruct (Z.compare_spec (Z_of_byte x) (Z_of_byte y)) as [E| |]; try done.
  apply (inj Z_of_byte) in E as ->. intros H. by rewrite (IH b H).
Qed.

Lemma bytes_compare_antisym a b : bytes_compare b a = CompOpp (bytes_compare a b).
Proof.
  revert b; induction a as [|x a IH]; intros [|y b]; simpl; try done.
  rewrite (Z.compare_antisym (Z_of_byte x)).
  destruct (Z_of_byte x ?= Z_of_byte y); simpl; auto.
Qed.

Lemma bytes_lt_trans a b c : bytes_lt a b -> bytes_lt b c -> bytes_lt a c.
Proof.
  unfold bytes_lt. revert b c; induction a as [|x a IH]; intros [|y b] [|z c]; simpl; try done.
  destruct (Z.compare_spec (Z_of_byte x) (Z_of_byte y)) as [E1|E1|E1]; try done;
  destruct (Z.compare_spec (Z_of_byte y) (Z_of_byte z)) as [E2|E2|E2]; try done; intros H1 H2;
  destruct (Z.compare_spec (Z_of_byte x) (Z_of_byte z)); try done; try lia; eauto.
Qed.

Lemma bytes_lt_cons x y a b :
  bytes_lt (x :: a) (y :: b) <->
  Z_of_byte x < Z_of_byte y \/ (x = y /\ bytes_lt a b).
Proof.
  unfold bytes_lt; simpl.
  destruct (Z.compare_spec (Z_of_byte x) (Z_of_byte y)) as [E|E|E].
  - apply (inj Z_of_byte) in E as ->. split; [by right|]. intros [H|[_ H]]; [lia|done].
  - split; [by left|done].
  - split; [done|]. intros [H|[-> H]]; lia.
Qed.

Lemma bytes_le_lteq a b : bytes_le a b <-> bytes_lt a b \/ a = b.
Proof.
  unfold bytes_le, bytes_lt. rewrite <- bytes_compare_eq.
  destruct (bytes_compare a b); naive_solver.
Qed.

Lemma bytes_lt_irrefl a : ~ bytes_lt a a.
Proof. unfold bytes_lt. by rewrite bytes_compare_refl. Qed.

Lemma bytes_nlt_le a b : ~ bytes_lt a b <-> bytes_le b a.
Proof.
  unfold bytes_lt, bytes_le. rewrite (bytes_compare_antisym a b).
  destruct (bytes_compare a b); naive_solver.
Qed.

#[export] Instance bytes_le_po : PartialOrder bytes_le.
Proof.
  split; [split|].
  - intros a. rewrite bytes_le_lteq. by right.
  - intros a b c H1%bytes_le_lteq H2%bytes_le_lteq. apply bytes_le_lteq.
    destruct H1 as [H1| ->], H2 as [H2| ->]; eauto using bytes_lt_trans.
  - intros a b [H1| ->]%bytes_le_lteq [H2|E]%bytes_le_lteq; try done.
    destruct (bytes_lt_irrefl a). eauto using bytes_lt_trans.
Qed.

#[export] Instance bytes_le_total : Total bytes_le.
Proof.
  intros a b. unfold bytes_le. rewrite (bytes_compare_antisym a b).
  destruct (bytes_compare a b); naive_solver.
Qed.

Lemma bytes_lt_app_l p a b : bytes_lt (p ++ a) (p ++ b) <-> bytes_lt a b.
Proof.
  induction p as [|x p IH]; [done|]. simpl. rewrite bytes_lt_cons, IH.
  split; [intros [H|[_ H]]; [lia|done] | by right].
Qed.

(** Equal-length big-endian integers compare as integers. *)
Lemma be_decode_cons x a : be_decode (x :: a) =
  Z_of_byte x * 2 ^ (8 * Z.of_nat (length a)) + be_decode a.
Proof.
  unfold be_decode. rewrite reverse_cons.
  enough (forall l, le_decode (l ++ [x]) =
    Z_of_byte x * 2 ^ (8 * Z.of_nat (length l)) + le_decode l) as ->
    by (by rewrite length_reverse).
  induction l as [|y l IH]; simpl; [lia|]. rewrite IH.
  replace (8 * Z.of_nat (S (length l))) with (8 + 8 * Z.of_nat (length l)) by lia.
  rewrite Z.pow_add_r by lia. lia.
Qed.

Lemma bytes_lt_be_decode a b : length a = length b ->
  bytes_lt a b <-> be_decode a < be_decode b.
Proof.
  revert b; induction a as [|x a IH]; intros [|y b] Hl; simplify_eq/=.
  { split; [done|]. unfold be_decode; simpl; lia. }
  rewrite bytes_lt_cons, IH, !be_decode_cons, Hl by done.
  pose proof (be_decode_range a) as Ha. pose proof (be_decode_range b) as Hb.
  rewrite Hl in Ha. set (w := 2 ^ _) in *.
  pose proof (Z_of_byte_range x). pose proof (Z_of_byte_range y).
  split.
  - intros [H1|[-> H1]]; nia.
  - intros H1. destruct (Z.lt_trichotomy (Z_of_byte x) (Z_of_byte y)) as [?|[E|?]]; [by left| |nia].
    right. split; [by apply (inj Z_of_byte)|]. rewrite E in H1. lia.
Qed.

Lemma bytes_lt_be32 a b s t : in_u32 a -> in_u32 b ->
  bytes_lt (be_encode 4 a ++ s) (be_encode 4 b ++ t) <->
  a < b \/ (a = b /\ bytes_lt s t).
Proof.
  intros Ha Hb.
  assert (Hgen : forall (p q : bytes), length p = length q ->
    bytes_lt (p ++ s) (q ++ t) <-> bytes_lt p q \/ (p = q /\ bytes_lt s t)).
  { induction p as [|x p IH]; intros [|y q] Hl; simplify_eq/=.
    - split; [by right|]. by intros [H|[_ H]].
    - rewrite !bytes_lt_cons, IH by done. naive_solver. }
  rewrite Hgen by by rewrite !length_be_encode.
  rewrite bytes_lt_be_decode by by rewrite !length_be_encode.
  rewrite !be32_decode_encode, !u32_id by done.
  split; (intros [H|[E H]]; [by left|right]); split; try done; [by apply be32_inj|by subst].
Qed.

#[global] Arguments be_encode : simpl never.
#[global] Arguments le_encode : simpl never.
#[global] Arguments be_decode : simpl never.
#[global] Arguments le_decode : simpl never.
#[global] Arguments byte_of_Z : simpl never.
#[global] Arguments Z_of_byte : simpl never.
#[global] Opaque be_encode le_encode be_decode le_decode.
