(* ===== verification/Hex.v ===== *)
(** * Text: [encoding/hex], the [fmt] verbs in use, slices and reversal *)

From Stdlib Require Import Strings.Byte.
From S2P Require Import Prelude Bytes.

(** Go strings are byte strings; [string] and [bytes] convert losslessly. *)
Definition string_of_bytes (bs : bytes) : string := String.string_of_list_byte bs.
Definition bytes_of_string (s : string) : bytes := String.list_byte_of_string s.

Lemma bytes_of_string_of_bytes bs : bytes_of_string (string_of_bytes bs) = bs.
Proof. apply String.list_byte_of_string_of_list_byte. Qed.
Lemma string_of_bytes_of_string s : string_of_bytes (bytes_of_string s) = s.
Proof. apply String.string_of_list_byte_of_string. Qed.

#[export] Instance string_of_bytes_inj : Inj (=) (=) string_of_bytes.
Proof.
  intros a b H. by rewrite <- (bytes_of_string_of_bytes a), H, bytes_of_string_of_bytes.
Qed.

Definition newline : string := string_of_bytes [x0a].

(** [len(s)] of a string. *)
Definition slen (s : string) : nat := length (bytes_of_string s).

Lemma bytes_of_string_app s t :
  bytes_of_string (s +:+ t) = bytes_of_string s ++ bytes_of_string t.
Proof.
  unfold bytes_of_string, String.list_byte_of_string.
  induction s as [|c s IH]; simpl; [done|]. by rewrite IH.
Qed.

(** ** Decimal text: [strconv.Itoa], [strconv.ParseInt(lit, 10, 64)] *)

Definition is_digit (c : byte) : bool := let z := Z_of_byte c in (48 <=? z) && (z <=? 57).
Definition digit (d : Z) : byte := byte_of_Z (48 + d).

(** The digits of [z >= 0]; [z] has at most [fuel] of them. *)
Fixpoint digits (fuel : nat) (z : Z) : bytes :=
  match fuel with
  | O => []
  | S fuel => if z <? 10 then [digit z] else digits fuel (z / 10) ++ [digit (z `mod` 10)]
  end.

Definition itoa_bytes (z : Z) : bytes :=
  let n := Z.abs z in
  let ds := digits (S (Z.to_nat (Z.log2 n))) n in
  if z <? 0 then x2d :: ds else ds.

Definition itoa (z : Z) : string := string_of_bytes (itoa_bytes z).

Fixpoint digits_value (acc : Z) (s : bytes) : option Z :=
  match s with
  | [] => Some acc
  | c :: s => if is_digit c then digits_value (acc * 10 + (Z_of_byte c - 48)) s else None
  end.

Definition parse_int (lit : bytes) : option Z :=
  match lit with
  | [] => None
  | c :: s =>
      if decide (c = x2d) then
        match s with [] => None | _ => Z.opp <$> digits_value 0 s end
      else digits_value 0 (c :: s)
  end.

Lemma digit_facts d : 0 <= d < 10 ->
  is_digit (digit d) = true /\ Z_of_byte (digit d) - 48 = d /\ digit d <> x2d.
Proof.
  intros. assert (d = 0 \/ d = 1 \/ d = 2 \/ d = 3 \/ d = 4 \/ d = 5 \/ d = 6 \/ d = 7 \/
    d = 8 \/ d = 9) as Hd by lia.
  repeat destruct Hd as [->|Hd]; [..|subst d]; vm_compute; done.
Qed.

Lemma digits_value_snoc acc s c : is_digit c = true ->
  digits_value acc (s ++ [c]) = (fun v => v * 10 + (Z_of_byte c - 48)) <$> digits_value acc s.
Proof.
  intros Hc. revert acc; induction s as [|x s IH]; intros acc; simpl; [by rewrite Hc|].
  destruct (is_digit x); [apply IH|done].
Qed.

Lemma digits_fuel z fuel : 0 <= z -> (Z.to_nat (Z.log2 z) < fuel)%nat ->
  digits_value 0 (digits fuel z) = Some z /\
  Forall (fun c => is_digit c = true) (digits fuel z) /\
  exists c s, digits fuel z = c :: s /\ (z = 0 -> c = digit 0 /\ s = []) /\ (0 < z -> c <> digit 0).
Proof.
  revert z; induction fuel as [|fuel IH]; intros z Hz Hf; [lia|]. simpl.
  destruct (Z.ltb_spec z 10) as [Hlt|Hge].
  - destruct (digit_facts z) as (H1 & H2 & H3); [lia|].
    simpl. rewrite H1, H2. split; [done|]. split; [by repeat constructor|].
    exists (digit z), []. split; [done|]. split; [by intros ->|]. intros Hp E.
    apply (f_equal (fun c => Z_of_byte c - 48)) in E. rewrite H2 in E.
    destruct (digit_facts 0) as (_ & H5 & _); lia.
  - destruct (digit_facts (z `mod` 10)) as (H1 & H2 & H3); [apply Z.mod_pos_bound; lia|].
    assert (Hdiv : 1 <= z / 10) by (apply Z.div_le_lower_bound; lia).
    assert (Hlog : Z.log2 (z / 10) < Z.log2 z).
    { apply Z.log2_lt_pow2; [lia|]. pose proof (Z.log2_spec z ltac:(lia)) as [_ Hs].
      rewrite Z.pow_succ_r in Hs by apply Z.log2_nonneg.
      apply Z.div_lt_upper_bound; lia. }
    pose proof (Z.log2_nonneg (z / 10)).
    destruct (IH (z / 10)) as (I1 & I2 & c & s & I3 & I4 & I5); [lia|lia|].
    rewrite digits_value_snoc, I1 by done. simpl. rewrite H2.
    split; [f_equal; pose proof (Z.div_mod z 10 ltac:(lia)); lia|].
    split; [apply Forall_app; split; [done|by repeat constructor]|].
    exists c, (s ++ [digit (z `mod` 10)]). rewrite I3. split; [done|].
    split; [lia|]. intros _. apply I5. lia.
Qed.

Lemma parse_int_itoa z : parse_int (itoa_bytes z) = Some z.
Proof.
  unfold parse_int, itoa_bytes.
  destruct (digits_fuel (Z.abs z) (S (Z.to_nat (Z.log2 (Z.abs z))))) as (H1 & H2 & c & s & H3 & _);
    [lia|lia|].
  rewrite H3 in *. destruct (Z.ltb_spec z 0).
  - rewrite decide_True by done. rewrite H1. simpl. f_equal. lia.
  - rewrite decide_False; [rewrite H1; f_equal; lia|].
    intros ->. by inversion_clear H2.
Qed.

#[export] Instance itoa_inj : Inj (=) (=) itoa.
Proof.
  intros a b H%(inj string_of_bytes). apply (f_equal parse_int) in H.
  rewrite !parse_int_itoa in H. by injection H.
Qed.

(** ** Verbs *)

(** A rune below 256 in UTF-8. *)
Definition utf8_latin1 (b : byte) : bytes :=
  let z := Z_of_byte b in
  if z <? 128 then [b] else [byte_of_Z (192 + z / 64); byte_of_Z (128 + z `mod` 64)].

(** [%c] of a byte. *)
Definition fmt_c (b : byte) : string := string_of_bytes (utf8_latin1 b).
(** [%d] of an int. *)
Definition fmt_d (z : Z) : string := itoa z.
Definition fmt_len {A} (l : list A) : string := itoa (Z.of_nat (length l)).

(** ** [encoding/hex] *)

Definition hex_digit (d : Z) : byte :=
  if d <? 10 then byte_of_Z (48 + d) else byte_of_Z (87 + d).

Definition hex_val (c : byte) : option Z :=
  let z := Z_of_byte c in
  if (48 <=? z) && (z <=? 57) then Some (z - 48)
  else if (97 <=? z) && (z <=? 102) then Some (z - 87)
  else if (65 <=? z) && (z <=? 70) then Some (z - 55)
  else None.

Definition hex_encode (bs : bytes) : bytes :=
  b ← bs; [hex_digit (Z_of_byte b / 16); hex_digit (Z_of_byte b `mod` 16)].

(** [hex.EncodeToString] *)
Definition EncodeToString (bs : bytes) : string := string_of_bytes (hex_encode bs).

(** [unicode.IsPrint] below 256, for the [%#U] of [hex.InvalidByteError]. *)
Definition printable_latin1 (b : byte) : bool :=
  let z := Z_of_byte b in
  ((32 <=? z) && (z <=? 126)) || ((161 <=? z) && negb (z =? 173)).

Definition hex_upper (d : Z) : byte :=
  if d <? 10 then byte_of_Z (48 + d) else byte_of_Z (55 + d).

Definition InvalidByteError (b : byte) : error :=
  ENew ("encoding/hex: invalid byte: U+00" +:+
        string_of_bytes [hex_upper (Z_of_byte b / 16); hex_upper (Z_of_byte b `mod` 16)] +:+
        (if printable_latin1 b then " '" +:+ fmt_c b +:+ "'" else "")).

Definition ErrLength : error := ESentinel "hex.ErrLength" "encoding/hex: odd length hex string".

Fixpoint hex_decode (s : bytes) : result bytes :=
  match s with
  | [] => Ok []
  | [p] => match hex_val p with None => Err (InvalidByteError p) | Some _ => Err ErrLength end
  | p :: q :: s =>
      match hex_val p with
      | None => Err (InvalidByteError p)
      | Some a =>
          match hex_val q with
          | None => Err (InvalidByteError q)
          | Some b => bs ← hex_decode s; mret (byte_of_Z (16 * a + b) :: bs)
          end
      end
  end.

(** [hex.DecodeString] *)
Definition DecodeString (s : string) : result bytes := hex_decode (bytes_of_string s).

Lemma hex_digits_decode b :
  hex_val (hex_digit (Z_of_byte b / 16)) = Some (Z_of_byte b / 16) /\
  hex_val (hex_digit (Z_of_byte b `mod` 16)) = Some (Z_of_byte b `mod` 16) /\
  byte_of_Z (16 * (Z_of_byte b / 16) + Z_of_byte b `mod` 16) = b.
Proof. destruct b; vm_compute; auto. Qed.

Lemma hex_decode_encode bs : hex_decode (hex_encode bs) = Ok bs.
Proof.
  induction bs as [|b bs IH]; [done|].
  change (hex_encode (b :: bs)) with
    (hex_digit (Z_of_byte b / 16) :: hex_digit (Z_of_byte b `mod` 16) :: hex_encode bs).
  destruct (hex_digits_decode b) as (H1 & H2 & H3).
  simpl hex_decode. rewrite H1, H2, IH. simpl. by rewrite H3.
Qed.

Lemma DecodeString_EncodeToString bs : DecodeString (EncodeToString bs) = Ok bs.
Proof.
  unfold DecodeString, EncodeToString. by rewrite bytes_of_string_of_bytes, hex_decode_encode.
Qed.

#[export] Instance EncodeToString_inj : Inj (=) (=) EncodeToString.
Proof.
  intros a b H. apply (f_equal DecodeString) in H.
  rewrite !DecodeString_EncodeToString in H. by injection H.
Qed.

Lemma length_hex_encode bs : length (hex_encode bs) = (2 * length bs)%nat.
Proof.
  induction bs as [|b bs IH]; [done|].
  change (hex_encode (b :: bs)) with
    (hex_digit (Z_of_byte b / 16) :: hex_digit (Z_of_byte b `mod` 16) :: hex_encode bs).
  simpl length. lia.
Qed.

Lemma slen_EncodeToString bs : slen (EncodeToString bs) = (2 * length bs)%nat.
Proof. unfold slen, EncodeToString. by rewrite bytes_of_string_of_bytes, length_hex_encode. Qed.

Lemma hex_decode_length : forall s bs, hex_decode s = Ok bs -> length s = (2 * length bs)%nat.
Proof.
  fix IH 1. intros [|p [|q s]] bs; simpl.
  - by intros [= <-].
  - by destruct (hex_val p).
  - destruct (hex_val p); [|done]. destruct (hex_val q); [|done].
    intros H. go_inv. match goal with H : hex_decode s = _ |- _ => apply IH in H end. lia.
Qed.

(** Text that hex produced has only the digits [0-9a-f]. *)
Lemma hex_encode_digit c bs : c ∈ hex_encode bs -> is_Some (hex_val c).
Proof.
  unfold hex_encode. rewrite list_elem_of_bind. intros (b & Hc & _).
  destruct (hex_digits_decode b) as (H1 & H2 & _).
  set_unfold in Hc. destruct Hc as [->|[->|[]]]; eauto.
Qed.

(** ** Slices *)

(** [l[a:b]] of a slice with [a <= b <= len(l)]. *)
Definition slice {A} (a b : nat) (l : list A) : list A := take (b - a) (drop a l).

Lemma slice_app_mid {A} (p m s : list A) a b :
  a = length p -> b = (length p + length m)%nat -> slice a b (p ++ m ++ s) = m.
Proof.
  intros -> ->. unfold slice. rewrite drop_app_length.
  replace (length p + length m - length p)%nat with (length m) by lia.
  apply take_app_length.
Qed.

Lemma length_slice {A} (l : list A) a b :
  (a <= b)%nat -> (b <= length l)%nat -> length (slice a b l) = (b - a)%nat.
Proof. intros. unfold slice. rewrite length_take, length_drop. lia. Qed.

Lemma slice_split {A} (l : list A) a : (a <= length l)%nat ->
  l = take a l ++ slice a (length l) l.
Proof.
  intros. unfold slice. rewrite (take_ge (drop a l)) by (rewrite length_drop; lia).
  by rewrite take_drop.
Qed.

(** [for i := 0; i < 32; i++ { reversed[i] = l[31-i] }] *)
Definition reverse32 (l : bytes) : bytes := (fun i => l !!! (31 - i)%nat) <$> seq 0 32.

Lemma length_reverse32 l : length (reverse32 l) = 32%nat.
Proof. done. Qed.

Lemma reverse32_reverse l : length l = 32%nat -> reverse32 l = reverse l.
Proof.
  intros Hl. do 32 (destruct l as [|? l]; [done|]). by destruct l.
Qed.

Lemma reverse32_involutive l : length l = 32%nat -> reverse32 (reverse32 l) = l.
Proof.
  intros Hl. rewrite (reverse32_reverse l) by done.
  rewrite reverse32_reverse by by rewrite length_reverse. apply reverse_involutive.
Qed.

(** Slicing a concatenation of fields of known length. *)
Lemma slice_cons {A} (x : A) l a b : slice (S a) (S b) (x :: l) = slice a b l.
Proof. done. Qed.

Lemma slice_skip {A} (p l : list A) a b :
  (length p <= a)%nat -> slice a b (p ++ l) = slice (a - length p) (b - length p) l.
Proof.
  intros. unfold slice. rewrite drop_app_ge by done. f_equal. lia.
Qed.

Lemma slice_here {A} (m l : list A) b : length m = b -> slice 0 b (m ++ l) = m.
Proof. intros <-. unfold slice. simpl. rewrite Nat.sub_0_r. apply take_app_length. Qed.

Lemma slice_all {A} (m : list A) b : length m = b -> slice 0 b m = m.
Proof. intros <-. unfold slice. simpl. rewrite Nat.sub_0_r. by apply take_ge. Qed.

Create HintDb lens discriminated.
#[export] Hint Rewrite @length_app @length_cons @length_nil length_be_encode length_le_encode
  @length_reverse @length_replicate @length_take @length_drop : lens.

(** [len]: goals about lengths, with the hypotheses in the context. *)
Ltac len := autorewrite with lens in *; simpl in *; lia.

(** [slices]: evaluate every slice of a concatenation of known fields. *)
Ltac slices :=
  repeat first
    [ rewrite slice_cons
    | rewrite slice_here by len
    | rewrite slice_all by len
    | match goal with
      | |- context [slice ?a ?b (?p ++ ?l)] =>
          rewrite (slice_skip p l a b) by len;
          let n := constr:((a - length p)%nat) in
          let H := fresh in
          first [ assert (H : n = 0%nat) by len; rewrite H; clear H | idtac ];
          match goal with
          | |- context [slice 0 (b - length p) l] =>
              first
                [ rewrite (slice_all l (b - length p)) by len
                | match l with ?m ++ ?r => rewrite (slice_here m r (b - length p)) by len end ]
          | |- _ => idtac
          end
      end ].

Lemma slice_concat {A} (l : list A) a b c : (a <= b <= c)%nat ->
  slice a b l ++ slice b c l = slice a c l.
Proof.
  intros. unfold slice.
  replace (drop b l) with (drop (b - a) (drop a l)) by (rewrite drop_drop; f_equal; lia).
  replace (c - a)%nat with ((b - a) + (c - b))%nat by lia.
  by rewrite take_take_drop.
Qed.

Lemma slice_full {A} (l : list A) n : length l = n -> slice 0 n l = l.
Proof. intros <-. unfold slice. simpl. rewrite Nat.sub_0_r. by apply take_ge. Qed.
