(* ===== verification/Keys.v ===== *)
(** * Database keys: [internal/storage/keys.go]

    Every key constructor and parser, the bound of a prefix scan, and the
    abstract keyspace [db_key] the byte keys represent.  A Go byte slice is a
    [bytes]; a [uint32] is a [Z] that [be_encode 4] truncates as
    [binary.BigEndian.PutUint32] does; an [int32] is converted with [uint32(.)]
    on the way in and [i32] on the way out. *)

From Stdlib Require Import Strings.Byte.
From S2P Require Import Prelude Bytes Hex.

(** ** Constants *)

Definition PrefixUTXO : byte := x75.    (* 'u' *)
Definition PrefixHistory : byte := x68. (* 'h' *)
Definition PrefixTxIndex : byte := x74. (* 't' *)
Definition PrefixUndo : byte := x64.    (* 'd' *)
Definition PrefixHeader : byte := x62.  (* 'b' *)
Definition PrefixMempool : byte := x6d. (* 'm' *)
Definition PrefixBlockTx : byte := x78. (* 'x' *)
Definition PrefixTxPos : byte := x70.   (* 'p' *)
Definition PrefixTxBlob : byte := x72.  (* 'r' *)
Definition PrefixTxOffs : byte := x6f.  (* 'o' *)
Definition KeyCheckpoint : bytes := [x63]. (* "c" *)

Definition ScripthashLength : nat := 32.
Definition TxidLength : nat := 32.
Definition VoutLength : nat := 4.
Definition HeightLength : nat := 4.
Definition BlockHashLength : nat := 32.

(** ** The checks the constructors share *)

Definition check_len (what : string) (l : bytes) (want : nat) : result unit :=
  check (bool_decide (length l = want))
    (ENew ("invalid " +:+ what +:+ " length: got " +:+ fmt_len l +:+
           ", want " +:+ itoa (Z.of_nat want))).

Definition check_prefix (what : string) (key : bytes) (want : byte) : result unit :=
  check (bool_decide (key !!! 0%nat = want))
    (ENew ("invalid " +:+ what +:+ " prefix: got " +:+ fmt_c (key !!! 0%nat) +:+
           ", want " +:+ fmt_c want)).

Definition check_nonneg (what : string) (height : Z) : result unit :=
  check (negb (height <? 0)) (ENew (what +:+ " key height cannot be negative")).

(** ** UTXO keys: [u + scripthash(32) + txid(32) + vout(4)] *)

Definition MakeUTXOKey (scripthash txid : bytes) (vout : Z) : result bytes :=
  _ ← check_len "scripthash" scripthash ScripthashLength;
  _ ← check_len "txid" txid TxidLength;
  Ok (PrefixUTXO :: scripthash ++ txid ++ be_encode 4 vout).

Definition ParseUTXOKey (key : bytes) : result (bytes * bytes * Z) :=
  _ ← check_len "UTXO key" key (1 + ScripthashLength + TxidLength + VoutLength);
  _ ← check_prefix "UTXO key" key PrefixUTXO;
  Ok (slice 1 33 key, slice 33 65 key, be_decode (slice 65 69 key)).

Definition MakeUTXOPrefix (scripthash : bytes) : result bytes :=
  _ ← check_len "scripthash" scripthash ScripthashLength;
  Ok (PrefixUTXO :: scripthash).

(** ** History keys: [h + scripthash(32) + height(4) + txIndex(4) + index(4)] *)

Definition MakeHistoryKey (scripthash : bytes) (height txIndex index : Z) : result bytes :=
  _ ← check_len "scripthash" scripthash ScripthashLength;
  Ok (PrefixHistory :: scripthash ++ be_encode 4 (u32 height) ++
      be_encode 4 txIndex ++ be_encode 4 index).

Definition ParseHistoryKey (key : bytes) : result (bytes * Z * Z * Z) :=
  _ ← check_len "history key" key
        (1 + ScripthashLength + HeightLength + VoutLength + VoutLength);
  _ ← check_prefix "history key" key PrefixHistory;
  Ok (slice 1 33 key, i32 (be_decode (slice 33 37 key)),
      be_decode (slice 37 41 key), be_decode (slice 41 45 key)).

Definition MakeHistoryPrefix (scripthash : bytes) : result bytes :=
  _ ← check_len "scripthash" scripthash ScripthashLength;
  Ok (PrefixHistory :: scripthash).

(** ** Transaction index keys: [t + txid(32) + vout(4)] *)

Definition MakeTxIndexKey (txid : bytes) (vout : Z) : result bytes :=
  _ ← check_len "txid" txid TxidLength;
  Ok (PrefixTxIndex :: txid ++ be_encode 4 vout).

Definition ParseTxIndexKey (key : bytes) : result (bytes * Z) :=
  _ ← check_len "tx index key" key (1 + TxidLength + VoutLength);
  _ ← check_prefix "tx index key" key PrefixTxIndex;
  Ok (slice 1 33 key, be_decode (slice 33 37 key)).

(** ** Transaction position, blob and offset keys *)

Definition MakeTxPosKey (txid : bytes) : result bytes :=
  _ ← check_len "txid" txid TxidLength;
  Ok (PrefixTxPos :: txid).

Definition MakeTxBlobKey (height : Z) : result bytes :=
  _ ← check_nonneg "tx blob" height;
  Ok (PrefixTxBlob :: be_encode 4 (u32 height)).

Definition MakeTxOffsetsKey (height : Z) : result bytes :=
  _ ← check_nonneg "tx offsets" height;
  Ok (PrefixTxOffs :: be_encode 4 (u32 height)).

(** ** Undo keys: [d + height(4) + blockHash(32)] *)

Definition MakeUndoKey (height : Z) (blockHash : bytes) : result bytes :=
  _ ← check_len "block hash" blockHash BlockHashLength;
  _ ← check_nonneg "undo" height;
  Ok (PrefixUndo :: be_encode 4 (u32 height) ++ blockHash).

Definition ParseUndoKey (key : bytes) : result (Z * bytes) :=
  _ ← check_len "undo key" key (1 + HeightLength + BlockHashLength);
  _ ← check_prefix "undo key" key PrefixUndo;
  Ok (i32 (be_decode (slice 1 5 key)), slice 5 37 key).

(** ** Header keys: [b + height(4)] *)

Definition MakeHeaderKey (height : Z) : result bytes :=
  _ ← check_nonneg "header" height;
  Ok (PrefixHeader :: be_encode 4 (u32 height)).

Definition ParseHeaderKey (key : bytes) : result Z :=
  _ ← check_len "header key" key (1 + HeightLength);
  _ ← check_prefix "header key" key PrefixHeader;
  Ok (i32 (be_decode (slice 1 5 key))).

(** ** Mempool keys: [m + scripthash(32) + txid(32) + vout(4)] *)

Definition MakeMempoolKey (scripthash txid : bytes) (vout : Z) : result bytes :=
  _ ← check_len "scripthash" scripthash ScripthashLength;
  _ ← check_len "txid" txid TxidLength;
  Ok (PrefixMempool :: scripthash ++ txid ++ be_encode 4 vout).

Definition ParseMempoolKey (key : bytes) : result (bytes * bytes * Z) :=
  _ ← check_len "mempool key" key (1 + ScripthashLength + TxidLength + VoutLength);
  _ ← check_prefix "mempool key" key PrefixMempool;
  Ok (slice 1 33 key, slice 33 65 key, be_decode (slice 65 69 key)).

Definition MakeMempoolPrefix (scripthash : bytes) : result bytes :=
  _ ← check_len "scripthash" scripthash ScripthashLength;
  Ok (PrefixMempool :: scripthash).

(** ** Block txid list keys: [x + height(4)] *)

Definition MakeBlockTxidsKey (height : Z) : result bytes :=
  _ ← check_nonneg "block txids" height;
  Ok (PrefixBlockTx :: be_encode 4 (u32 height)).

Definition ParseBlockTxidsKey (key : bytes) : result Z :=
  _ ← check_len "block txids key" key (1 + HeightLength);
  _ ← check_prefix "block txids key" key PrefixBlockTx;
  Ok (i32 (be_decode (slice 1 5 key))).

(** ** The upper bound of a prefix scan *)

(** The loop from index [i-1] down: increment (wrapping), stop when no carry. *)
Fixpoint upper_bound_loop (end_ : bytes) (i : nat) : option bytes :=
  match i with
  | O => None
  | S i =>
      let end' := <[i := byte_of_Z (Z_of_byte (end_ !!! i) + 1)]> end_ in
      if decide (end' !!! i <> x00) then Some end' else upper_bound_loop end' i
  end.

(** [None] is the nil slice: no upper bound. *)
Definition PrefixUpperBound (prefix : bytes) : option bytes :=
  if decide (length prefix = 0%nat) then None
  else upper_bound_loop prefix (length prefix).

(** The keys a Pebble iterator with these bounds visits. *)
Definition in_bounds (lower : bytes) (upper : option bytes) (k : bytes) : bool :=
  bool_decide (bytes_le lower k) &&
  match upper with None => true | Some u => bool_decide (bytes_lt k u) end.

(** ** The abstract keyspace *)

Inductive db_key : Type :=
| KCheckpoint
| KUTXO (scripthash txid : bytes) (vout : Z)
| KHistory (scripthash : bytes) (height txIndex index : Z)
| KTxIndex (txid : bytes) (vout : Z)
| KTxPos (txid : bytes)
| KTxBlob (height : Z)
| KTxOffs (height : Z)
| KUndo (height : Z) (blockHash : bytes)
| KHeader (height : Z)
| KMempool (scripthash txid : bytes) (vout : Z)
| KBlockTx (height : Z).

#[export] Instance db_key_eq_dec : EqDecision db_key.
Proof. solve_decision. Defined.

Definition encode_key (k : db_key) : result bytes :=
  match k with
  | KCheckpoint => Ok KeyCheckpoint
  | KUTXO sh t v => MakeUTXOKey sh t v
  | KHistory sh h t i => MakeHistoryKey sh h t i
  | KTxIndex t v => MakeTxIndexKey t v
  | KTxPos t => MakeTxPosKey t
  | KTxBlob h => MakeTxBlobKey h
  | KTxOffs h => MakeTxOffsetsKey h
  | KUndo h b => MakeUndoKey h b
  | KHeader h => MakeHeaderKey h
  | KMempool sh t v => MakeMempoolKey sh t v
  | KBlockTx h => MakeBlockTxidsKey h
  end.

(** The arguments fit the Go types they have. *)
Definition key_typed (k : db_key) : Prop :=
  match k with
  | KCheckpoint | KTxPos _ => True
  | KUTXO _ _ v | KTxIndex _ v | KMempool _ _ v => in_u32 v
  | KHistory _ h t i => in_i32 h /\ in_u32 t /\ in_u32 i
  | KTxBlob h | KTxOffs h | KUndo h _ | KHeader h | KBlockTx h => in_i32 h
  end.

(** Reading a key back: by its first byte, with the source's parser where it
    has one. *)
Definition decode_key (bs : bytes) : option db_key :=
  match bs with
  | [] => None
  | p :: r =>
      if decide (p = PrefixUTXO) then
        (fun '(sh, t, v) => KUTXO sh t v) <$> to_option (ParseUTXOKey bs)
      else if decide (p = PrefixHistory) then
        (fun '(sh, h, t, i) => KHistory sh h t i) <$> to_option (ParseHistoryKey bs)
      else if decide (p = PrefixTxIndex) then
        (fun '(t, v) => KTxIndex t v) <$> to_option (ParseTxIndexKey bs)
      else if decide (p = PrefixUndo) then
        (fun '(h, b) => KUndo h b) <$> to_option (ParseUndoKey bs)
      else if decide (p = PrefixHeader) then KHeader <$> to_option (ParseHeaderKey bs)
      else if decide (p = PrefixMempool) then
        (fun '(sh, t, v) => KMempool sh t v) <$> to_option (ParseMempoolKey bs)
      else if decide (p = PrefixBlockTx) then KBlockTx <$> to_option (ParseBlockTxidsKey bs)
      else if decide (p = PrefixTxPos) then Some (KTxPos r)
      else if decide (p = PrefixTxBlob) then Some (KTxBlob (i32 (be_decode r)))
      else if decide (p = PrefixTxOffs) then Some (KTxOffs (i32 (be_decode r)))
      else if decide (bs = KeyCheckpoint) then Some KCheckpoint
      else None
  end.

(** ** Lemmas *)

Lemma check_len_Ok what l n u : check_len what l n = Ok u <-> length l = n.
Proof. unfold check_len. rewrite check_Ok. apply bool_decide_eq_true. Qed.

Lemma check_prefix_Ok what k p u : check_prefix what k p = Ok u <-> k !!! 0%nat = p.
Proof. unfold check_prefix. rewrite check_Ok. apply bool_decide_eq_true. Qed.

Lemma check_nonneg_Ok what h u : check_nonneg what h = Ok u <-> 0 <= h.
Proof. unfold check_nonneg. rewrite check_Ok, negb_true_iff. apply Z.ltb_ge. Qed.

Lemma check_len_true what l n : length l = n -> check_len what l n = Ok ().
Proof. intros. by apply check_len_Ok. Qed.
Lemma check_nonneg_true what h : 0 <= h -> check_nonneg what h = Ok ().
Proof. intros. by apply check_nonneg_Ok. Qed.

(** [key_inv]: a successful constructor or parser, taken apart. *)
Ltac key_inv :=
  repeat first
    [ progress go_inv
    | match goal with
      | H : check_len _ _ _ = Ok _ |- _ => apply check_len_Ok in H
      | H : check_prefix _ _ _ = Ok _ |- _ => apply check_prefix_Ok in H
      | H : check_nonneg _ _ = Ok _ |- _ => apply check_nonneg_Ok in H
      end ].

Ltac unfold_lengths :=
  unfold ScripthashLength, TxidLength, VoutLength, HeightLength, BlockHashLength in *.

Section Constructors.
Implicit Types (sh txid bh k : bytes) (v h t i : Z).

Lemma MakeUTXOKey_Ok sh txid v k : MakeUTXOKey sh txid v = Ok k <->
  length sh = 32%nat /\ length txid = 32%nat /\
  k = PrefixUTXO :: sh ++ txid ++ be_encode 4 v.
Proof.
  unfold MakeUTXOKey. split; [intros; key_inv; auto|].
  intros (H1 & H2 & ->). by rewrite !check_len_true.
Qed.

Lemma MakeMempoolKey_Ok sh txid v k : MakeMempoolKey sh txid v = Ok k <->
  length sh = 32%nat /\ length txid = 32%nat /\
  k = PrefixMempool :: sh ++ txid ++ be_encode 4 v.
Proof.
  unfold MakeMempoolKey. split; [intros; key_inv; auto|].
  intros (H1 & H2 & ->). by rewrite !check_len_true.
Qed.

Lemma MakeHistoryKey_Ok sh h t i k : MakeHistoryKey sh h t i = Ok k <->
  length sh = 32%nat /\
  k = PrefixHistory :: sh ++ be_encode 4 (u32 h) ++ be_encode 4 t ++ be_encode 4 i.
Proof.
  unfold MakeHistoryKey. split; [intros; key_inv; auto|].
  intros (H1 & ->). by rewrite !check_len_true.
Qed.

Lemma MakeTxIndexKey_Ok txid v k : MakeTxIndexKey txid v = Ok k <->
  length txid = 32%nat /\ k = PrefixTxIndex :: txid ++ be_encode 4 v.
Proof.
  unfold MakeTxIndexKey. split; [intros; key_inv; auto|].
  intros (H1 & ->). by rewrite !check_len_true.
Qed.

Lemma MakeTxPosKey_Ok txid k : MakeTxPosKey txid = Ok k <->
  length txid = 32%nat /\ k = PrefixTxPos :: txid.
Proof.
  unfold MakeTxPosKey. split; [intros; key_inv; auto|].
  intros (H1 & ->). by rewrite !check_len_true.
Qed.

Lemma MakeUndoKey_Ok h bh k : MakeUndoKey h bh = Ok k <->
  length bh = 32%nat /\ 0 <= h /\ k = PrefixUndo :: be_encode 4 (u32 h) ++ bh.
Proof.
  unfold MakeUndoKey. split; [intros; key_inv; auto|].
  intros (H1 & H2 & ->). by rewrite check_len_true, check_nonneg_true.
Qed.

Lemma MakeHeaderKey_Ok h k : MakeHeaderKey h = Ok k <->
  0 <= h /\ k = PrefixHeader :: be_encode 4 (u32 h).
Proof.
  unfold MakeHeaderKey. split; [intros; key_inv; auto|].
  intros (H & ->). by rewrite check_nonneg_true.
Qed.

Lemma MakeBlockTxidsKey_Ok h k : MakeBlockTxidsKey h = Ok k <->
  0 <= h /\ k = PrefixBlockTx :: be_encode 4 (u32 h).
Proof.
  unfold MakeBlockTxidsKey. split; [intros; key_inv; auto|].
  intros (H & ->). by rewrite check_nonneg_true.
Qed.

Lemma MakeTxBlobKey_Ok h k : MakeTxBlobKey h = Ok k <->
  0 <= h /\ k = PrefixTxBlob :: be_encode 4 (u32 h).
Proof.
  unfold MakeTxBlobKey. split; [intros; key_inv; auto|].
  intros (H & ->). by rewrite check_nonneg_true.
Qed.

Lemma MakeTxOffsetsKey_Ok h k : MakeTxOffsetsKey h = Ok k <->
  0 <= h /\ k = PrefixTxOffs :: be_encode 4 (u32 h).
Proof.
  unfold MakeTxOffsetsKey. split; [intros; key_inv; auto|].
  intros (H & ->). by rewrite check_nonneg_true.
Qed.
End Constructors.

(** An [int32] survives the trip through [uint32] and four bytes. *)
Lemma i32_be_u32 h : in_i32 h -> i32 (be_decode (be_encode 4 (u32 h))) = h.
Proof.
  intros. rewrite be32_decode_encode, (u32_id (u32 h)) by apply u32_range.
  by rewrite i32_u32, i32_id.
Qed.

Lemma be_u32 v : in_u32 v -> be_decode (be_encode 4 v) = v.
Proof. intros. by rewrite be32_decode_encode, u32_id. Qed.

(** [parse_key f]: run the parser [f] on a key laid out as its constructor
    does. *)
Ltac parse_key f :=
  unfold f, check_len, check_prefix, check; unfold_lengths;
  rewrite (bool_decide_eq_true_2 (length _ = _)) by len;
  cbn [mbind result_bind lookup_total list_lookup_total];
  rewrite bool_decide_eq_true_2 by done;
  cbn [mbind result_bind]; slices;
  rewrite ?i32_be_u32, ?be_u32 by (done || tauto); done.

Section RoundTrips.
Implicit Types (sh txid bh k : bytes) (v h t i : Z).

Lemma ParseUTXOKey_layout sh txid v :
  length sh = 32%nat -> length txid = 32%nat -> in_u32 v ->
  ParseUTXOKey (PrefixUTXO :: sh ++ txid ++ be_encode 4 v) = Ok (sh, txid, v).
Proof. intros. parse_key ParseUTXOKey. Qed.

Lemma ParseMempoolKey_layout sh txid v :
  length sh = 32%nat -> length txid = 32%nat -> in_u32 v ->
  ParseMempoolKey (PrefixMempool :: sh ++ txid ++ be_encode 4 v) = Ok (sh, txid, v).
Proof. intros. parse_key ParseMempoolKey. Qed.

Lemma ParseHistoryKey_layout sh h t i :
  length sh = 32%nat -> in_i32 h -> in_u32 t -> in_u32 i ->
  ParseHistoryKey (PrefixHistory :: sh ++ be_encode 4 (u32 h) ++
    be_encode 4 t ++ be_encode 4 i) = Ok (sh, h, t, i).
Proof. intros. parse_key ParseHistoryKey. Qed.

Lemma ParseTxIndexKey_layout txid v :
  length txid = 32%nat -> in_u32 v ->
  ParseTxIndexKey (PrefixTxIndex :: txid ++ be_encode 4 v) = Ok (txid, v).
Proof. intros. parse_key ParseTxIndexKey. Qed.

Lemma ParseUndoKey_layout h bh :
  in_i32 h -> length bh = 32%nat ->
  ParseUndoKey (PrefixUndo :: be_encode 4 (u32 h) ++ bh) = Ok (h, bh).
Proof. intros. parse_key ParseUndoKey. Qed.

Lemma ParseHeaderKey_layout h :
  in_i32 h -> ParseHeaderKey (PrefixHeader :: be_encode 4 (u32 h)) = Ok h.
Proof. intros. parse_key ParseHeaderKey. Qed.

Lemma ParseBlockTxidsKey_layout h :
  in_i32 h -> ParseBlockTxidsKey (PrefixBlockTx :: be_encode 4 (u32 h)) = Ok h.
Proof. intros. parse_key ParseBlockTxidsKey. Qed.
End RoundTrips.

(** Every key the constructors accept reads back as itself. *)
Lemma decode_encode_key k bs : key_typed k -> encode_key k = Ok bs -> decode_key bs = Some k.
Proof.
  intros Ht He. destruct k; simpl in *; destruct_and?;
  match type of He with
  | Ok _ = Ok _ => injection He as <-
  | MakeUTXOKey _ _ _ = _ => apply MakeUTXOKey_Ok in He
  | MakeMempoolKey _ _ _ = _ => apply MakeMempoolKey_Ok in He
  | MakeHistoryKey _ _ _ _ = _ => apply MakeHistoryKey_Ok in He
  | MakeTxIndexKey _ _ = _ => apply MakeTxIndexKey_Ok in He
  | MakeTxPosKey _ = _ => apply MakeTxPosKey_Ok in He
  | MakeTxBlobKey _ = _ => apply MakeTxBlobKey_Ok in He
  | MakeTxOffsetsKey _ = _ => apply MakeTxOffsetsKey_Ok in He
  | MakeUndoKey _ _ = _ => apply MakeUndoKey_Ok in He
  | MakeHeaderKey _ = _ => apply MakeHeaderKey_Ok in He
  | MakeBlockTxidsKey _ = _ => apply MakeBlockTxidsKey_Ok in He
  end; destruct_and?; subst; try done; unfold decode_key; simpl decide;
  repeat (case_decide; [try done|]; try done).
  all: rewrite ?ParseUTXOKey_layout, ?ParseMempoolKey_layout, ?ParseHistoryKey_layout,
    ?ParseTxIndexKey_layout, ?ParseUndoKey_layout, ?ParseHeaderKey_layout,
    ?ParseBlockTxidsKey_layout, ?i32_be_u32 by done; try done.
Qed.

(** ** Parsing is exact *)

Lemma key_head (k : bytes) p n : k !!! 0%nat = p -> length k = S n ->
  exists r, k = p :: r /\ length r = n.
Proof. destruct k as [|q r]; simpl; intros; simplify_eq; eauto. Qed.

(** A four-byte field of a key. *)
Lemma be_slice (r : bytes) a b : b = (a + 4)%nat -> (b <= length r)%nat ->
  be_encode 4 (be_decode (slice a b r)) = slice a b r /\
  in_u32 (be_decode (slice a b r)).
Proof.
  intros -> ?. assert (Hl : length (slice a (a + 4) r) = 4%nat) by (rewrite length_slice; lia).
  split; [by apply be_encode_decode|].
  pose proof (be_decode_range (slice a (a + 4) r)) as Hr. rewrite Hl in Hr. exact Hr.
Qed.

Lemma u32_i32 z : in_u32 z -> u32 (i32 z) = z.
Proof.
  unfold in_u32, u32, i32. intros. rewrite Zminus_mod_idemp_l, Z.add_simpl_r.
  by apply Z.mod_small.
Qed.

(** [parse_inv f]: a successful run of parser [f] gives the key's fields. *)
Ltac parse_inv f :=
  unfold f; intros; key_inv; unfold_lengths;
  match goal with
  | Hh : ?k !!! 0%nat = _, Hl : length ?k = _ |- _ =>
      let r := fresh "r" in let Hr := fresh "Hr" in
      destruct (key_head k _ _ Hh Hl) as (r & -> & Hr);
      rewrite !slice_cons in *; clear Hh Hl
  end.

Ltac be_field r a b :=
  let He := fresh "He" in let Hu := fresh "Hu" in
  destruct (be_slice r a b eq_refl ltac:(lia)) as [He Hu]; rewrite ?(u32_i32 _ Hu), He.

Section Exact.
Implicit Types (sh txid bh k : bytes) (v h t i : Z).

Lemma ParseUTXOKey_Ok k sh txid v : ParseUTXOKey k = Ok (sh, txid, v) <->
  length sh = 32%nat /\ length txid = 32%nat /\ in_u32 v /\
  k = PrefixUTXO :: sh ++ txid ++ be_encode 4 v.
Proof.
  split; [|intros (?&?&?& ->); by apply ParseUTXOKey_layout].
  parse_inv ParseUTXOKey. be_field r 64%nat 68%nat.
  rewrite !length_slice, !slice_concat by lia; rewrite ?(slice_full r _ Hr). auto.
Qed.

Lemma ParseMempoolKey_Ok k sh txid v : ParseMempoolKey k = Ok (sh, txid, v) <->
  length sh = 32%nat /\ length txid = 32%nat /\ in_u32 v /\
  k = PrefixMempool :: sh ++ txid ++ be_encode 4 v.
Proof.
  split; [|intros (?&?&?& ->); by apply ParseMempoolKey_layout].
  parse_inv ParseMempoolKey. be_field r 64%nat 68%nat.
  rewrite !length_slice, !slice_concat by lia; rewrite ?(slice_full r _ Hr). auto.
Qed.

Lemma ParseTxIndexKey_Ok k txid v : ParseTxIndexKey k = Ok (txid, v) <->
  length txid = 32%nat /\ in_u32 v /\ k = PrefixTxIndex :: txid ++ be_encode 4 v.
Proof.
  split; [|intros (?&?& ->); by apply ParseTxIndexKey_layout].
  parse_inv ParseTxIndexKey. be_field r 32%nat 36%nat.
  rewrite !length_slice, !slice_concat by lia; rewrite ?(slice_full r _ Hr). auto.
Qed.

Lemma ParseHistoryKey_Ok k sh h t i : ParseHistoryKey k = Ok (sh, h, t, i) <->
  length sh = 32%nat /\ in_i32 h /\ in_u32 t /\ in_u32 i /\
  k = PrefixHistory :: sh ++ be_encode 4 (u32 h) ++ be_encode 4 t ++ be_encode 4 i.
Proof.
  split; [|intros (?&?&?&?& ->); by apply ParseHistoryKey_layout].
  parse_inv ParseHistoryKey.
  be_field r 32%nat 36%nat. be_field r 36%nat 40%nat. be_field r 40%nat 44%nat.
  rewrite !length_slice, !slice_concat by lia; rewrite ?(slice_full r _ Hr). auto using i32_range.
Qed.

Lemma ParseUndoKey_Ok k h bh : ParseUndoKey k = Ok (h, bh) <->
  in_i32 h /\ length bh = 32%nat /\ k = PrefixUndo :: be_encode 4 (u32 h) ++ bh.
Proof.
  split; [|intros (?&?& ->); by apply ParseUndoKey_layout].
  parse_inv ParseUndoKey. be_field r 0%nat 4%nat.
  rewrite !length_slice, !slice_concat by lia; rewrite ?(slice_full r _ Hr). auto using i32_range.
Qed.

Lemma ParseHeaderKey_Ok k h : ParseHeaderKey k = Ok h <->
  in_i32 h /\ k = PrefixHeader :: be_encode 4 (u32 h).
Proof.
  split; [|intros (?& ->); by apply ParseHeaderKey_layout].
  parse_inv ParseHeaderKey. be_field r 0%nat 4%nat.
  rewrite (slice_full r _ Hr). auto using i32_range.
Qed.

Lemma ParseBlockTxidsKey_Ok k h : ParseBlockTxidsKey k = Ok h <->
  in_i32 h /\ k = PrefixBlockTx :: be_encode 4 (u32 h).
Proof.
  split; [|intros (?& ->); by apply ParseBlockTxidsKey_layout].
  parse_inv ParseBlockTxidsKey. be_field r 0%nat 4%nat.
  rewrite (slice_full r _ Hr). auto using i32_range.
Qed.
End Exact.

(** ** The order of history keys *)

Lemma history_key_lt sh h1 t1 i1 h2 t2 i2 k1 k2 :
  MakeHistoryKey sh h1 t1 i1 = Ok k1 -> MakeHistoryKey sh h2 t2 i2 = Ok k2 ->
  0 <= h1 < 2 ^ 31 -> 0 <= h2 < 2 ^ 31 ->
  in_u32 t1 -> in_u32 t2 -> in_u32 i1 -> in_u32 i2 ->
  bytes_lt k1 k2 <-> h1 < h2 \/ (h1 = h2 /\ (t1 < t2 \/ (t1 = t2 /\ i1 < i2))).
Proof.
  intros [_ ->]%MakeHistoryKey_Ok [_ ->]%MakeHistoryKey_Ok Hh1 Hh2 Ht1 Ht2 Hi1 Hi2.
  assert (in_u32 h1) by (unfold in_u32; lia). assert (in_u32 h2) by (unfold in_u32; lia).
  rewrite bytes_lt_cons, bytes_lt_app_l, !u32_id, !bytes_lt_be32 by done.
  assert (bytes_lt (be_encode 4 i1) (be_encode 4 i2) <-> i1 < i2) as ->.
  { rewrite <- (app_nil_r (be_encode 4 i1)), <- (app_nil_r (be_encode 4 i2)).
    rewrite bytes_lt_be32 by done. split; [intros [?|[_ Hn]]; done|by left]. }
  split; [intros [?|[_ Hn]]; [lia|done]|by right].
Qed.

(** ** The upper bound of a scan *)

Definition xff_tail (l : bytes) : Prop := exists n, l = replicate n xff.

Lemma upper_bound_loop_snoc p b z :
  upper_bound_loop (p ++ b :: z) (S (length p)) =
  if decide (b = xff) then upper_bound_loop (p ++ x00 :: z) (length p)
  else Some (p ++ byte_of_Z (Z_of_byte b + 1) :: z).
Proof.
  simpl. rewrite list_lookup_total_middle by done. rewrite insert_app_r_alt by lia.
  rewrite Nat.sub_diag. simpl. rewrite list_lookup_total_middle by done.
  destruct b; reflexivity.
Qed.

(** The two shapes of a prefix: all [0xff], or a byte that can be
    incremented before a tail of [0xff]. *)
Lemma ff_split (l : bytes) :
  l = replicate (length l) xff \/
  exists p b n, l = p ++ b :: replicate n xff /\ b <> xff.
Proof.
  induction l as [|x l IH]; [by left|].
  destruct IH as [E|(p & b & n & -> & Hb)]; [|right; by exists (x :: p), b, n].
  destruct (decide (x = xff)) as [->|Hx]; [left; by rewrite E at 1|].
  right. exists [], x, (length l). simpl. by rewrite <- E.
Qed.

Lemma upper_bound_loop_ff p n m :
  upper_bound_loop (p ++ replicate n xff ++ replicate m x00) (length p + n) =
  upper_bound_loop (p ++ replicate (n + m) x00) (length p).
Proof.
  revert m; induction n as [|n IH]; intros m; [by rewrite Nat.add_0_r|].
  rewrite replicate_S_end, <- app_assoc. simpl ([xff] ++ _).
  replace (length p + S n)%nat with (S (length (p ++ replicate n xff))) by len.
  rewrite app_assoc, upper_bound_loop_snoc. simpl decide.
  rewrite decide_True by done. rewrite length_app, length_replicate, <- app_assoc.
  change (x00 :: replicate m x00) with (replicate (S m) x00). rewrite IH.
  by replace (n + S m)%nat with (S n + m)%nat by lia.
Qed.

Lemma PrefixUpperBound_ff n : PrefixUpperBound (replicate n xff) = None.
Proof.
  unfold PrefixUpperBound. case_decide; [done|]. rewrite length_replicate.
  pose proof (upper_bound_loop_ff [] n 0) as Hff. simpl in Hff.
  by rewrite app_nil_r in Hff.
Qed.

Lemma PrefixUpperBound_inc p b n : b <> xff ->
  PrefixUpperBound (p ++ b :: replicate n xff) =
  Some (p ++ byte_of_Z (Z_of_byte b + 1) :: replicate n x00).
Proof.
  intros Hb. unfold PrefixUpperBound. rewrite decide_False by len.
  replace (length (p ++ b :: replicate n xff)) with (length (p ++ [b]) + n)%nat by len.
  pose proof (upper_bound_loop_ff (p ++ [b]) n 0) as Hff. simpl in Hff.
  rewrite app_nil_r, <- !app_assoc in Hff. simpl in Hff. rewrite Hff, Nat.add_0_r.
  replace (length (p ++ [b])) with (S (length p)) by len.
  rewrite upper_bound_loop_snoc. by rewrite decide_False.
Qed.

Lemma bytes_le_cons x y a b :
  bytes_le (x :: a) (y :: b) <-> Z_of_byte x < Z_of_byte y \/ (x = y /\ bytes_le a b).
Proof.
  rewrite !bytes_le_lteq, bytes_lt_cons.
  split; [intros [[?|[-> ?]]|[= -> ->]]; auto | intros [?|[-> [?| ->]]]; auto].
Qed.

Lemma Z_of_byte_ff b : Z_of_byte xff <= Z_of_byte b -> b = xff.
Proof. destruct b; vm_compute; try done; by intros []. Qed.

Lemma Z_of_byte_00 b : ~ Z_of_byte b < Z_of_byte x00.
Proof. pose proof (Z_of_byte_range b). change (Z_of_byte x00) with 0. lia. Qed.

Lemma bytes_le_ff n x : bytes_le (replicate n xff) x <-> replicate n xff `prefix_of` x.
Proof.
  revert x; induction n as [|n IH]; intros x.
  - split; [intros; apply prefix_nil|]. intros _. by destruct x.
  - destruct x as [|b x].
    { split; [by intros []|]. intros H%prefix_nil_inv. done. }
    simpl. rewrite bytes_le_cons, IH. split.
    + intros [H|[<- H]]; [|by apply prefix_cons].
      pose proof (Z_of_byte_range b). change (Z_of_byte xff) with 255 in H. lia.
    + intros H. right. split; [by apply prefix_cons_inv_1 in H|by apply prefix_cons_inv_2 in H].
Qed.

Lemma bytes_lt_00 n x :
  bytes_lt x (replicate n x00) <-> exists j, (j < n)%nat /\ x = replicate j x00.
Proof.
  revert x; induction n as [|n IH]; intros x; simpl.
  - split; [by destruct x|]. intros (j & ? & _). lia.
  - destruct x as [|b x].
    { split; [|done]. intros _. exists O. split; [lia|done]. }
    rewrite bytes_lt_cons, IH. split.
    + intros [H|[-> (j & ? & ->)]]; [by apply Z_of_byte_00 in H|].
      exists (S j). split; [lia|done].
    + intros ([|j] & ? & E); simplify_eq/=. right. split; [done|]. exists j. split; [lia|done].
Qed.

Lemma Z_of_byte_succ b : b <> xff -> Z_of_byte (byte_of_Z (Z_of_byte b + 1)) = Z_of_byte b + 1.
Proof.
  intros Hb. rewrite Z_of_byte_of_Z. pose proof (Z_of_byte_range b).
  apply Z.mod_small. split; [lia|]. destruct (decide (Z_of_byte b = 255)) as [E|]; [|lia].
  destruct Hb. apply (inj Z_of_byte). exact E.
Qed.

Lemma in_bounds_app_l p l u x :
  in_bounds (p ++ l) (Some (p ++ u)) x <->
  exists y, x = p ++ y /\ in_bounds l (Some u) y.
Proof.
  unfold in_bounds. rewrite andb_True, !bool_decide_spec.
  setoid_rewrite andb_True. setoid_rewrite bool_decide_spec.
  revert x; induction p as [|c p IH]; intros x; simpl; [naive_solver|].
  destruct x as [|d x].
  { split; [intros [[] _]; done|]. intros (y & ? & _). done. }
  rewrite bytes_le_cons, bytes_lt_cons. split.
  - intros [[?|[<- H1]] [?|[E H2]]]; subst; try lia.
    destruct (proj1 (IH x) (conj H1 H2)) as (y & -> & ?). by exists y.
  - intros (y & [= -> ->] & H). destruct (proj2 (IH (p ++ y))) as [H1 H2]; [by exists y|].
    split; right; done.
Qed.

(** The scan's key set, exactly: the keys with the prefix and, when the carry
    left a tail of zero bytes in the bound, the proper truncations of the
    bound. *)
Lemma in_bounds_prefix_inc p b n x : b <> xff ->
  let pre := p ++ b :: replicate n xff in
  in_bounds pre (PrefixUpperBound pre) x <->
  pre `prefix_of` x \/
  exists j, (j < n)%nat /\ x = p ++ byte_of_Z (Z_of_byte b + 1) :: replicate j x00.
Proof.
  intros Hb pre. unfold pre. rewrite PrefixUpperBound_inc, in_bounds_app_l by done.
  pose proof (Z_of_byte_succ b Hb) as Hs. set (b' := byte_of_Z _) in *.
  unfold in_bounds. setoid_rewrite andb_True. setoid_rewrite bool_decide_spec.
  split.
  - intros (y & -> & H1 & H2). destruct y as [|c y]; [by destruct H1|].
    rewrite bytes_le_cons in H1. rewrite bytes_lt_cons in H2.
    destruct H1 as [H1|[<- H1]].
    + destruct H2 as [H2|[-> H2]]; [lia|]. right.
      apply bytes_lt_00 in H2 as (j & ? & ->). by exists j.
    + left. apply prefix_app, prefix_cons. by apply bytes_le_ff.
  - intros [[z ->]|(j & Hj & ->)].
    + exists (b :: replicate n xff ++ z). rewrite <- app_assoc. split; [done|]. split.
      * apply bytes_le_cons. right. split; [done|]. apply bytes_le_ff. by eexists.
      * apply bytes_lt_cons. left. lia.
    + eexists (b' :: _). split; [done|]. split.
      * apply bytes_le_cons. left. lia.
      * apply bytes_lt_cons. right. split; [done|]. apply bytes_lt_00. eauto.
Qed.

Lemma in_bounds_prefix_ff n x :
  let pre := replicate n xff in
  in_bounds pre (PrefixUpperBound pre) x <-> pre `prefix_of` x.
Proof.
  intros pre. unfold pre. rewrite PrefixUpperBound_ff. unfold in_bounds.
  rewrite andb_True, bool_decide_spec, bytes_le_ff. naive_solver.
Qed.

(** No key of a length at least the prefix's is visited wrongly. *)
Lemma in_bounds_prefix_long pre x : (length pre <= length x)%nat ->
  in_bounds pre (PrefixUpperBound pre) x <-> pre `prefix_of` x.
Proof.
  intros Hl. destruct (ff_split pre) as [->|(p & b & n & -> & Hb)].
  { apply in_bounds_prefix_ff. }
  rewrite in_bounds_prefix_inc by done. split; [|by left].
  intros [?|(j & Hj & ->)]; [done|]. len.
Qed.

(** ** Properties of the keyspace *)

(** The first byte of a key tells its kind. *)
Definition key_prefix (k : db_key) : byte :=
  match k with
  | KCheckpoint => x63
  | KUTXO _ _ _ => PrefixUTXO
  | KHistory _ _ _ _ => PrefixHistory
  | KTxIndex _ _ => PrefixTxIndex
  | KTxPos _ => PrefixTxPos
  | KTxBlob _ => PrefixTxBlob
  | KTxOffs _ => PrefixTxOffs
  | KUndo _ _ => PrefixUndo
  | KHeader _ => PrefixHeader
  | KMempool _ _ _ => PrefixMempool
  | KBlockTx _ => PrefixBlockTx
  end.

(** [encode_key_inv He]: the bytes of an encoded key, field by field. *)
Ltac encode_key_inv He :=
  simpl in He;
  match type of He with
  | Ok _ = Ok _ => injection He as He; symmetry in He
  | MakeUTXOKey _ _ _ = _ => apply MakeUTXOKey_Ok in He
  | MakeMempoolKey _ _ _ = _ => apply MakeMempoolKey_Ok in He
  | MakeHistoryKey _ _ _ _ = _ => apply MakeHistoryKey_Ok in He
  | MakeTxIndexKey _ _ = _ => apply MakeTxIndexKey_Ok in He
  | MakeTxPosKey _ = _ => apply MakeTxPosKey_Ok in He
  | MakeTxBlobKey _ = _ => apply MakeTxBlobKey_Ok in He
  | MakeTxOffsetsKey _ = _ => apply MakeTxOffsetsKey_Ok in He
  | MakeUndoKey _ _ = _ => apply MakeUndoKey_Ok in He
  | MakeHeaderKey _ = _ => apply MakeHeaderKey_Ok in He
  | MakeBlockTxidsKey _ = _ => apply MakeBlockTxidsKey_Ok in He
  end; destruct_and?.

Lemma encode_key_prefix k bs : encode_key k = Ok bs -> exists r, bs = key_prefix k :: r.
Proof. intros He. destruct k; encode_key_inv He; subst; by eexists. Qed.

Definition scan_prefix (p : byte) : Prop :=
  p = PrefixUTXO \/ p = PrefixHistory \/ p = PrefixMempool.

Lemma encode_key_scan k bs : encode_key k = Ok bs ->
  scan_prefix (key_prefix k) -> (33 <= length bs)%nat.
Proof.
  intros He [Hp|[Hp|Hp]]; destruct k; try discriminate Hp;
    encode_key_inv He; subst; simpl; len.
Qed.

Lemma prefix_head (p q : byte) (a b : bytes) : (p :: a) `prefix_of` (q :: b) -> p = q.
Proof. apply prefix_cons_inv_1. Qed.

Lemma scan_prefix_succ k p : scan_prefix p ->
  key_prefix k <> byte_of_Z (Z_of_byte p + 1) /\ p <> xff.
Proof. intros [->|[-> | ->]]; (split; [destruct k|]; discriminate). Qed.

(** The truncated keys under the bound are none of the database's. *)
Lemma in_bounds_scan p sh k bs : scan_prefix p -> length sh = 32%nat -> encode_key k = Ok bs ->
  in_bounds (p :: sh) (PrefixUpperBound (p :: sh)) bs <-> (p :: sh) `prefix_of` bs.
Proof.
  intros Hp Hsh He. destruct (scan_prefix_succ k p Hp) as [Hk Hff].
  destruct (decide (key_prefix k = p)) as [Ek|Ek].
  { apply in_bounds_prefix_long. pose proof (encode_key_scan k bs He). simpl.
    rewrite Hsh. apply H. by rewrite Ek. }
  destruct (encode_key_prefix k bs He) as [r ->].
  split; [|intros Hq%prefix_head; by destruct Ek].
  destruct (ff_split sh) as [E|(q & b & n & -> & Hb)].
  - rewrite E. change (p :: replicate (length sh) xff) with ([] ++ p :: replicate (length sh) xff).
    rewrite in_bounds_prefix_inc by done.
    intros [?|(j & _ & Ej)]; [done|]. exfalso. apply Hk. by injection Ej.
  - change (p :: q ++ b :: replicate n xff) with ((p :: q) ++ b :: replicate n xff).
    rewrite in_bounds_prefix_inc by done.
    intros [?|(j & _ & Ej)]; [done|]. exfalso. apply Ek. by injection Ej.
Qed.

Lemma prefix_app_same_length (a b r : bytes) :
  length a = length b -> a `prefix_of` (b ++ r) <-> a = b.
Proof.
  intros Hl. split; [|intros ->; by eexists].
  intros [z E]. by apply app_inj_1 in E as [-> _].
Qed.

Ltac naive_scan Hex He :=
  repeat match type of Hex with
  | exists _, _ => let x := fresh "x" in destruct Hex as [x Hex]
  end; subst; encode_key_inv He; subst; apply prefix_cons; by eexists.

(** [scan_case k He]: compare a scan prefix with the keys of each kind. *)
Ltac scan_case k He :=
  rewrite in_bounds_scan by (first [done | unfold scan_prefix; tauto]);
  split;
  [ intros Hpre; destruct k; encode_key_inv He; subst;
    pose proof (prefix_head _ _ _ _ Hpre) as Hq; try discriminate Hq;
    apply prefix_cons_inv_2 in Hpre; apply prefix_app_same_length in Hpre; [|congruence];
    subst; eauto
  | intros Hex; naive_scan Hex He ].

(** C33: every key the constructors build from arguments of their Go types reads
    back as the logical key it was built from, so no two logical keys of any
    of the eleven kinds share a byte key. *)
Theorem encode_key_roundtrip (k : db_key) (bs : bytes)
    (Ht : key_typed k) (He : encode_key k = Ok bs) :
  decode_key bs = Some k /\
  forall k', key_typed k' -> encode_key k' = Ok bs -> k' = k.
Proof.
  pose proof (decode_encode_key k bs Ht He) as Hd. split; [done|].
  intros k' Ht' He'. apply decode_encode_key in He'; [|done]. congruence.
Qed.

Definition sample_hash : bytes := replicate 32 xab.

Definition sample_history_key : bytes :=
  match MakeHistoryKey sample_hash 700000 3 1 with Ok k => k | Err _ => [] end.

Lemma encode_key_roundtrip_witness :
  decode_key sample_history_key = Some (KHistory sample_hash 700000 3 1) /\
  forall k', key_typed k' -> encode_key k' = Ok sample_history_key ->
    k' = KHistory sample_hash 700000 3 1.
Proof.
  apply (encode_key_roundtrip (KHistory sample_hash 700000 3 1));
    [by vm_compute | by vm_compute].
Defined.

(** Each parser accepts exactly the keys its constructor lays out, and
    returns the fields they were laid out from; everything else is an error. *)
Theorem parsers_exact (k : bytes) :
  (forall sh txid v, ParseUTXOKey k = Ok (sh, txid, v) <->
     in_u32 v /\ MakeUTXOKey sh txid v = Ok k) /\
  (forall sh h t i, ParseHistoryKey k = Ok (sh, h, t, i) <->
     in_i32 h /\ in_u32 t /\ in_u32 i /\ MakeHistoryKey sh h t i = Ok k) /\
  (forall txid v, ParseTxIndexKey k = Ok (txid, v) <->
     in_u32 v /\ MakeTxIndexKey txid v = Ok k) /\
  (forall sh txid v, ParseMempoolKey k = Ok (sh, txid, v) <->
     in_u32 v /\ MakeMempoolKey sh txid v = Ok k) /\
  (forall h bh, 0 <= h -> ParseUndoKey k = Ok (h, bh) <-> in_i32 h /\ MakeUndoKey h bh = Ok k) /\
  (forall h, 0 <= h -> ParseHeaderKey k = Ok h <-> in_i32 h /\ MakeHeaderKey h = Ok k) /\
  (forall h, 0 <= h -> ParseBlockTxidsKey k = Ok h <-> in_i32 h /\ MakeBlockTxidsKey h = Ok k).
Proof.
  split_and!; intros;
  rewrite ?ParseUTXOKey_Ok, ?ParseHistoryKey_Ok, ?ParseTxIndexKey_Ok, ?ParseMempoolKey_Ok,
    ?ParseUndoKey_Ok, ?ParseHeaderKey_Ok, ?ParseBlockTxidsKey_Ok,
    ?MakeUTXOKey_Ok, ?MakeHistoryKey_Ok, ?MakeTxIndexKey_Ok, ?MakeMempoolKey_Ok,
    ?MakeUndoKey_Ok, ?MakeHeaderKey_Ok, ?MakeBlockTxidsKey_Ok; tauto.
Qed.

(** The keys of one scripthash sort, byte by byte, as (height, position in
    the block, entry index) do, so an iterator yields confirmed history in
    blockchain order. *)
Theorem history_scan_order sh h1 t1 i1 h2 t2 i2 k1 k2
    (H1 : MakeHistoryKey sh h1 t1 i1 = Ok k1) (H2 : MakeHistoryKey sh h2 t2 i2 = Ok k2)
    (Hh : 0 <= h1 < 2 ^ 31 /\ 0 <= h2 < 2 ^ 31)
    (Ht : in_u32 t1 /\ in_u32 t2) (Hi : in_u32 i1 /\ in_u32 i2) :
  bytes_lt k1 k2 <-> h1 < h2 \/ (h1 = h2 /\ (t1 < t2 \/ (t1 = t2 /\ i1 < i2))).
Proof. destruct Hh, Ht, Hi. by apply (history_key_lt sh). Qed.

Definition sample_history_key2 : bytes :=
  match MakeHistoryKey sample_hash 700001 1 9 with Ok k => k | Err _ => [] end.

Lemma history_scan_order_witness :
  bytes_lt sample_history_key sample_history_key2 <->
  700000 < 700001 \/ (700000 = 700001 /\ (3 < 1 \/ (3 = 1 /\ 1 < 9))).
Proof.
  apply (history_scan_order sample_hash 700000 3 1 700001 1 9); unfold in_u32;
    first [reflexivity | lia].
Defined.

(** A prefix iterator over one scripthash visits exactly that
    scripthash's entries of that kind, whatever else the database holds. *)
Theorem prefix_scan_exact sh k bs pre
    (Hsh : length sh = 32%nat) (He : encode_key k = Ok bs) :
  (MakeHistoryPrefix sh = Ok pre ->
     in_bounds pre (PrefixUpperBound pre) bs <-> exists h t i, k = KHistory sh h t i) /\
  (MakeUTXOPrefix sh = Ok pre ->
     in_bounds pre (PrefixUpperBound pre) bs <-> exists txid v, k = KUTXO sh txid v) /\
  (MakeMempoolPrefix sh = Ok pre ->
     in_bounds pre (PrefixUpperBound pre) bs <-> exists txid v, k = KMempool sh txid v).
Proof.
  split_and!; unfold MakeHistoryPrefix, MakeUTXOPrefix, MakeMempoolPrefix; intros; key_inv.
  - scan_case k He.
  - scan_case k He.
  - scan_case k He.
Qed.

Lemma prefix_scan_exact_witness :
  in_bounds (PrefixHistory :: sample_hash) (PrefixUpperBound (PrefixHistory :: sample_hash))
    sample_history_key <->
  exists h t i, KHistory sample_hash 700000 3 1 = KHistory sample_hash h t i.
Proof.
  apply (prefix_scan_exact sample_hash (KHistory sample_hash 700000 3 1) sample_history_key
    (PrefixHistory :: sample_hash)); reflexivity.
Defined.
