(* ===== verification/Values.v ===== *)
(** * Stored values: the codecs of [internal/storage/storage.go]

    The fixed-size UTXO and mempool values, the binary undo record with its
    [bytes.Reader] semantics, the txid list and the transaction offsets.  The
    class [Codec] is what the database layer relies on: what was encoded
    decodes to the same value. *)

From Stdlib Require Import Strings.Byte.
From S2P Require Import Prelude Bytes Hex Keys.

(** ** The interface of a codec *)

Class Codec (A : Type) := {
  codec_encode : A -> result bytes;
  codec_decode : bytes -> result A;
  codec_wf : A -> Prop;
  codec_roundtrip a bs :
    codec_wf a -> codec_encode a = Ok bs -> codec_decode bs = Ok a;
}.

Lemma codec_encode_inj `{Codec A} a b bs :
  codec_wf a -> codec_wf b -> codec_encode a = Ok bs -> codec_encode b = Ok bs -> a = b.
Proof.
  intros Ha Hb Ea Eb. apply codec_roundtrip in Ea, Eb; try done.
  rewrite Ea in Eb. by injection Eb.
Qed.

(** ** UTXO values *)

Record UTXOValue := mkUTXOValue {
  uv_Value : Z;
  uv_Height : Z;
  uv_BlockHash : bytes;
}.

#[export] Instance UTXOValue_eq_dec : EqDecision UTXOValue.
Proof. solve_decision. Defined.

Definition UTXOValueEncodedSize : nat := 8 + 4 + 32.

(** The buffer starts zeroed; a block hash of another length is not copied. *)
Definition EncodeUTXOValue (u : UTXOValue) : bytes :=
  le_encode 8 (u64 (uv_Value u)) ++ le_encode 4 (u32 (uv_Height u)) ++
  (if decide (length (uv_BlockHash u) = 32%nat) then uv_BlockHash u
   else replicate 32 x00).

Definition DecodeUTXOValue (data : bytes) : result UTXOValue :=
  _ ← check (bool_decide (length data = UTXOValueEncodedSize))
        (ENew ("invalid UTXO value size: got " +:+ fmt_len data +:+ ", want 44"));
  Ok {| uv_Value := i64 (le_decode (slice 0 8 data));
        uv_Height := i32 (le_decode (slice 8 12 data));
        uv_BlockHash := slice 12 44 data |}.

Definition BlockHashHex (u : UTXOValue) : string :=
  if decide (length (uv_BlockHash u) <> 32%nat) then ""
  else EncodeToString (reverse32 (uv_BlockHash u)).

(** The receiver is updated on success only. *)
Definition SetBlockHashFromHex (u : UTXOValue) (hexStr : string) : result UTXOValue :=
  _ ← check (bool_decide (slen hexStr = 64%nat)) (ENew "invalid block hash hex length");
  bs ← DecodeString hexStr;
  Ok {| uv_Value := uv_Value u; uv_Height := uv_Height u; uv_BlockHash := reverse32 bs |}.

(** ** Mempool values *)

Record MempoolValue := mkMempoolValue {
  mv_Value : Z;
  mv_FirstSeen : Z;
  mv_Fee : Z;
}.

Definition MempoolValueEncodedSize : nat := 8 + 8 + 8.

Definition EncodeMempoolValue (m : MempoolValue) : bytes :=
  le_encode 8 (u64 (mv_Value m)) ++ le_encode 8 (u64 (mv_FirstSeen m)) ++
  le_encode 8 (u64 (mv_Fee m)).

Definition DecodeMempoolValue (data : bytes) : result MempoolValue :=
  _ ← check (bool_decide (length data = MempoolValueEncodedSize))
        (ENew ("invalid mempool value size: got " +:+ fmt_len data +:+ ", want 24"));
  Ok {| mv_Value := i64 (le_decode (slice 0 8 data));
        mv_FirstSeen := i64 (le_decode (slice 8 16 data));
        mv_Fee := i64 (le_decode (slice 16 24 data)) |}.

(** ** Undo records *)

Record UndoOutput := mkUndoOutput {
  uo_Scripthash : bytes;
  uo_Txid : bytes;
  uo_Vout : Z;
  uo_Value : Z;
  uo_Height : Z;
  uo_BlockHash : bytes;
}.

Record UndoHistory := mkUndoHistory {
  uh_Scripthash : bytes;
  uh_Height : Z;
  uh_TxIndex : Z;
  uh_Index : Z;
}.

Record UndoBlock := mkUndoBlock {
  ub_Height : Z;
  ub_BlockHash : bytes;
  ub_PrevBlockHash : bytes;
  ub_SpentOutputs : list UndoOutput;
  ub_CreatedOutputs : list UndoOutput;
  ub_HistoryEntries : list UndoHistory;
}.

#[export] Instance UndoOutput_eq_dec : EqDecision UndoOutput.
Proof. solve_decision. Defined.
#[export] Instance UndoHistory_eq_dec : EqDecision UndoHistory.
Proof. solve_decision. Defined.
#[export] Instance UndoBlock_eq_dec : EqDecision UndoBlock.
Proof. solve_decision. Defined.

Definition len_is (n : nat) (l : bytes) : bool := bool_decide (length l = n).

Definition encode_output (what : string) (o : UndoOutput) : result bytes :=
  _ ← check (len_is ScripthashLength (uo_Scripthash o))
        (ENew ("invalid undo " +:+ what +:+ " scripthash length"));
  _ ← check (len_is TxidLength (uo_Txid o)) (ENew ("invalid undo " +:+ what +:+ " txid length"));
  _ ← check (len_is BlockHashLength (uo_BlockHash o))
        (ENew ("invalid undo " +:+ what +:+ " blockhash length"));
  Ok (uo_Scripthash o ++ uo_Txid o ++ le_encode 4 (u32 (uo_Vout o)) ++
      le_encode 8 (u64 (uo_Value o)) ++ le_encode 4 (u32 (uo_Height o)) ++ uo_BlockHash o).

Definition encode_history (h : UndoHistory) : result bytes :=
  _ ← check (len_is ScripthashLength (uh_Scripthash h))
        (ENew "invalid undo history scripthash length");
  Ok (uh_Scripthash h ++ le_encode 4 (u32 (uh_Height h)) ++
      le_encode 4 (u32 (uh_TxIndex h)) ++ le_encode 4 (u32 (uh_Index h))).

(** [for _, x := range l { ...; buf.Write(...) }]: append to the buffer. *)
Definition encode_all {A} (f : A -> result bytes) (buf : bytes) (l : list A) : result bytes :=
  foldM (fun buf x => bs ← f x; Ok (buf ++ bs)) buf l.

Definition EncodeUndoBlock (undo : UndoBlock) : result bytes :=
  let buf := le_encode 4 (u32 (ub_Height undo)) in
  _ ← check (len_is BlockHashLength (ub_BlockHash undo))
        (ENew ("invalid undo block hash length: " +:+ fmt_len (ub_BlockHash undo)));
  let buf := buf ++ ub_BlockHash undo in
  _ ← check (len_is BlockHashLength (ub_PrevBlockHash undo))
        (ENew ("invalid undo prev block hash length: " +:+ fmt_len (ub_PrevBlockHash undo)));
  let buf := buf ++ ub_PrevBlockHash undo in
  let buf := buf ++ le_encode 4 (u32 (Z.of_nat (length (ub_SpentOutputs undo)))) in
  let buf := buf ++ le_encode 4 (u32 (Z.of_nat (length (ub_CreatedOutputs undo)))) in
  let buf := buf ++ le_encode 4 (u32 (Z.of_nat (length (ub_HistoryEntries undo)))) in
  buf ← encode_all (encode_output "spent") buf (ub_SpentOutputs undo);
  buf ← encode_all (encode_output "created") buf (ub_CreatedOutputs undo);
  encode_all encode_history buf (ub_HistoryEntries undo).

(** *** Reading: [bytes.Reader], whose unread part is a [bytes] *)

Definition io_EOF : error := ESentinel "io.EOF" "EOF".
Definition io_ErrUnexpectedEOF : error := ESentinel "io.ErrUnexpectedEOF" "unexpected EOF".

(** [r.Read(buf)] with [buf := make([]byte, n)]: at least one byte is read
    unless the reader is exhausted; a short read leaves zeros and no error. *)
Definition reader_Read (n : nat) (r : bytes) : result (bytes * bytes) :=
  match r with
  | [] => Err io_EOF
  | _ => Ok (take n r ++ replicate (n - length r) x00, drop n r)
  end.

(** [binary.Read] of a fixed-size integer is [io.ReadFull]. *)
Definition reader_ReadFull (n : nat) (r : bytes) : result (bytes * bytes) :=
  if decide (n <= length r)%nat then Ok (take n r, drop n r)
  else match r with [] => Err io_EOF | _ => Err io_ErrUnexpectedEOF end.

Definition readU32 (r : bytes) : result (Z * bytes) :=
  '(b, r) ← reader_ReadFull 4 r; Ok (le_decode b, r).
Definition readI32 (r : bytes) : result (Z * bytes) :=
  '(b, r) ← reader_ReadFull 4 r; Ok (i32 (le_decode b), r).
Definition readI64 (r : bytes) : result (Z * bytes) :=
  '(b, r) ← reader_ReadFull 8 r; Ok (i64 (le_decode b), r).

Definition read_output (r : bytes) : result (UndoOutput * bytes) :=
  '(sh, r) ← reader_Read ScripthashLength r;
  '(txid, r) ← reader_Read TxidLength r;
  '(vout, r) ← readU32 r;
  '(value, r) ← readI64 r;
  '(h, r) ← readI32 r;
  '(bh, r) ← reader_Read BlockHashLength r;
  Ok (mkUndoOutput sh txid vout value h bh, r).

Definition read_history (r : bytes) : result (UndoHistory * bytes) :=
  '(sh, r) ← reader_Read ScripthashLength r;
  '(h, r) ← readI32 r;
  '(txIndex, r) ← readU32 r;
  '(idx, r) ← readU32 r;
  Ok (mkUndoHistory sh h txIndex idx, r).

(** [for i := uint32(0); i < n; i++ { ... }] *)
Fixpoint read_many {A} (f : bytes -> result (A * bytes)) (n : nat) (r : bytes) :
    result (list A * bytes) :=
  match n with
  | O => Ok ([], r)
  | S n => '(x, r) ← f r; '(xs, r) ← read_many f n r; Ok (x :: xs, r)
  end.

Definition DecodeUndoBlock (data : bytes) : result UndoBlock :=
  let r := data in
  '(height, r) ← readI32 r;
  '(blockHash, r) ← reader_Read BlockHashLength r;
  '(prevBlockHash, r) ← reader_Read BlockHashLength r;
  '(spentCount, r) ← readU32 r;
  '(createdCount, r) ← readU32 r;
  '(historyCount, r) ← readU32 r;
  '(spent, r) ← read_many read_output (Z.to_nat spentCount) r;
  '(created, r) ← read_many read_output (Z.to_nat createdCount) r;
  '(history, r) ← read_many read_history (Z.to_nat historyCount) r;
  Ok (mkUndoBlock height blockHash prevBlockHash spent created history).

(** ** The txid list of a block *)

(** The body of [SaveBlockTxidsInBatch]'s loop. *)
Definition encode_txids (txids : list bytes) : result bytes :=
  foldM (fun buf txid =>
    _ ← check_len "txid" txid TxidLength; Ok (buf ++ txid)) [] txids.

(** [GetBlockTxids] after the read. *)
Definition decode_txids (value : bytes) : result (list bytes) :=
  _ ← check (bool_decide ((length value `mod` TxidLength)%nat = 0%nat))
        (ENew ("invalid block txids value length: " +:+ fmt_len value));
  Ok ((fun i => slice (i * TxidLength) (i * TxidLength + TxidLength) value)
        <$> seq 0 (length value / TxidLength)).

(** ** Transaction offsets *)

Definition encode_offsets (offsets : list Z) : bytes := offsets ≫= be_encode 4.

Definition decode_offsets (value : bytes) : result (list Z) :=
  _ ← check (bool_decide ((length value `mod` 4)%nat = 0%nat))
        (ENew ("invalid tx offsets value length: " +:+ fmt_len value));
  Ok ((fun i => be_decode (slice (i * 4) ((i + 1) * 4) value)) <$> seq 0 (length value / 4)).

(** ** Transaction positions *)

Definition encode_txpos (height txIndex : Z) : bytes :=
  be_encode 4 (u32 height) ++ be_encode 4 txIndex.

Definition decode_txpos (value : bytes) : result (Z * Z) :=
  _ ← check (bool_decide (length value = 8%nat))
        (ENew ("invalid tx position value length: " +:+ fmt_len value));
  Ok (i32 (be_decode (slice 0 4 value)), be_decode (slice 4 8 value)).

(** ** Lemmas *)

Lemma le_u32_i32 h : in_i32 h -> i32 (le_decode (le_encode 4 (u32 h))) = h.
Proof.
  intros. rewrite le32_decode_encode, (u32_id (u32 h)) by apply u32_range.
  by rewrite i32_u32, i32_id.
Qed.

Lemma le_u32 v : in_u32 v -> le_decode (le_encode 4 (u32 v)) = v.
Proof. intros. rewrite le32_decode_encode, !u32_id by (done || apply u32_range). done. Qed.

Lemma le_u64_i64 v : in_i64 v -> i64 (le_decode (le_encode 8 (u64 v))) = v.
Proof.
  intros. rewrite le64_decode_encode.
  assert (u64 (u64 v) = u64 v) as -> by (unfold u64; by rewrite Zmod_mod).
  by rewrite i64_u64, i64_id.
Qed.

(** *** UTXO and mempool values *)

Definition UTXOValue_wf (u : UTXOValue) : Prop :=
  in_i64 (uv_Value u) /\ in_i32 (uv_Height u) /\ length (uv_BlockHash u) = 32%nat.

Lemma length_EncodeUTXOValue u : length (EncodeUTXOValue u) = UTXOValueEncodedSize.
Proof. unfold EncodeUTXOValue, UTXOValueEncodedSize. case_decide; len. Qed.

Lemma DecodeUTXOValue_Encode u : UTXOValue_wf u -> DecodeUTXOValue (EncodeUTXOValue u) = Ok u.
Proof.
  intros (Hv & Hh & Hb). unfold DecodeUTXOValue, check.
  rewrite bool_decide_eq_true_2 by apply length_EncodeUTXOValue.
  cbn [mbind result_bind]. unfold EncodeUTXOValue. rewrite decide_True by done.
  slices. rewrite le_u64_i64, le_u32_i32 by done. by destruct u.
Qed.

(** Every 44-byte value decodes, to a value that encodes to the same bytes. *)
Lemma EncodeUTXOValue_Decode bs u : DecodeUTXOValue bs = Ok u ->
  UTXOValue_wf u /\ EncodeUTXOValue u = bs.
Proof.
  unfold DecodeUTXOValue. intros. go_inv.
  match goal with H : bool_decide _ = true |- _ => apply bool_decide_eq_true in H; rename H into Hl end.
  unfold UTXOValueEncodedSize in Hl.
  assert (Hbh : length (slice 12 44 bs) = 32%nat) by (rewrite length_slice; lia).
  split; [unfold UTXOValue_wf; simpl; auto using i32_range, i64_range|].
  unfold EncodeUTXOValue. simpl. rewrite decide_True by done.
  assert (Hu32 : forall z, in_u32 z -> u32 (i32 z) = z) by apply u32_i32.
  assert (Hu64 : forall z, 0 <= z < 2 ^ 64 -> u64 (i64 z) = z).
  { unfold u64, i64. intros z ?. rewrite Zminus_mod_idemp_l, Z.add_simpl_r. by apply Z.mod_small. }
  pose proof (le_decode_range (slice 0 8 bs)) as R1. rewrite length_slice in R1 by lia.
  pose proof (le_decode_range (slice 8 12 bs)) as R2. rewrite length_slice in R2 by lia.
  rewrite Hu64, Hu32 by done.
  rewrite !le_encode_decode by (rewrite length_slice; lia).
  rewrite !slice_concat by lia. by apply slice_full.
Qed.

Definition MempoolValue_wf (m : MempoolValue) : Prop :=
  in_i64 (mv_Value m) /\ in_i64 (mv_FirstSeen m) /\ in_i64 (mv_Fee m).

Lemma DecodeMempoolValue_Encode m :
  MempoolValue_wf m -> DecodeMempoolValue (EncodeMempoolValue m) = Ok m.
Proof.
  intros (Hv & Hh & Hb). unfold DecodeMempoolValue, check.
  rewrite bool_decide_eq_true_2 by (unfold EncodeMempoolValue, MempoolValueEncodedSize; len).
  cbn [mbind result_bind]. unfold EncodeMempoolValue.
  slices. rewrite !le_u64_i64 by done. by destruct m.
Qed.

(** *** Reading back what was written *)

Lemma reader_Read_app n (m r : bytes) :
  length m = n -> (0 < n)%nat -> reader_Read n (m ++ r) = Ok (m, r).
Proof.
  intros Hl Hn. unfold reader_Read. destruct (m ++ r) as [|x l] eqn:E.
  { apply app_nil in E as [-> _]. simpl in Hl. lia. }
  rewrite <- E, <- Hl, take_app_length, drop_app_length.
  replace (length m - length (m ++ r))%nat with O by len. cbn [replicate].
  by rewrite app_nil_r.
Qed.

Lemma reader_ReadFull_app n (m r : bytes) :
  length m = n -> reader_ReadFull n (m ++ r) = Ok (m, r).
Proof.
  intros <-. unfold reader_ReadFull. rewrite decide_True by len.
  by rewrite take_app_length, drop_app_length.
Qed.

Lemma readU32_app v r : in_u32 v -> readU32 (le_encode 4 (u32 v) ++ r) = Ok (v, r).
Proof.
  intros. unfold readU32. rewrite reader_ReadFull_app by apply length_le_encode.
  cbn. by rewrite le_u32.
Qed.

Lemma readI32_app v r : in_i32 v -> readI32 (le_encode 4 (u32 v) ++ r) = Ok (v, r).
Proof.
  intros. unfold readI32. rewrite reader_ReadFull_app by apply length_le_encode.
  cbn. by rewrite le_u32_i32.
Qed.

Lemma readI64_app v r : in_i64 v -> readI64 (le_encode 8 (u64 v) ++ r) = Ok (v, r).
Proof.
  intros. unfold readI64. rewrite reader_ReadFull_app by apply length_le_encode.
  cbn. by rewrite le_u64_i64.
Qed.

Definition UndoOutput_wf (o : UndoOutput) : Prop :=
  in_u32 (uo_Vout o) /\ in_i64 (uo_Value o) /\ in_i32 (uo_Height o).
Definition UndoHistory_wf (h : UndoHistory) : Prop :=
  in_i32 (uh_Height h) /\ in_u32 (uh_TxIndex h) /\ in_u32 (uh_Index h).
Definition UndoBlock_wf (u : UndoBlock) : Prop :=
  in_i32 (ub_Height u) /\
  Z.of_nat (length (ub_SpentOutputs u)) < 2 ^ 32 /\
  Z.of_nat (length (ub_CreatedOutputs u)) < 2 ^ 32 /\
  Z.of_nat (length (ub_HistoryEntries u)) < 2 ^ 32 /\
  Forall UndoOutput_wf (ub_SpentOutputs u) /\
  Forall UndoOutput_wf (ub_CreatedOutputs u) /\
  Forall UndoHistory_wf (ub_HistoryEntries u).

#[export] Instance UndoOutput_wf_dec o : Decision (UndoOutput_wf o).
Proof. unfold UndoOutput_wf, in_u32. apply _. Defined.
#[export] Instance UndoHistory_wf_dec h : Decision (UndoHistory_wf h).
Proof. unfold UndoHistory_wf, in_u32. apply _. Defined.
#[export] Instance UndoBlock_wf_dec u : Decision (UndoBlock_wf u).
Proof. unfold UndoBlock_wf. apply _. Defined.

Lemma len_is_true n l : len_is n l = true <-> length l = n.
Proof. apply bool_decide_eq_true. Qed.

Lemma encode_output_Ok what o bs : encode_output what o = Ok bs <->
  length (uo_Scripthash o) = 32%nat /\ length (uo_Txid o) = 32%nat /\
  length (uo_BlockHash o) = 32%nat /\
  bs = uo_Scripthash o ++ uo_Txid o ++ le_encode 4 (u32 (uo_Vout o)) ++
      le_encode 8 (u64 (uo_Value o)) ++ le_encode 4 (u32 (uo_Height o)) ++ uo_BlockHash o.
Proof.
  unfold encode_output. split.
  - intros. go_inv. repeat match goal with H : len_is _ _ = true |- _ => apply len_is_true in H end. auto.
  - intros (H1 & H2 & H3 & ->). apply len_is_true in H1, H2, H3.
    unfold check. change ScripthashLength with 32%nat. change TxidLength with 32%nat.
    change BlockHashLength with 32%nat. by rewrite H1, H2, H3.
Qed.

Lemma encode_history_Ok h bs : encode_history h = Ok bs <->
  length (uh_Scripthash h) = 32%nat /\
  bs = uh_Scripthash h ++ le_encode 4 (u32 (uh_Height h)) ++
      le_encode 4 (u32 (uh_TxIndex h)) ++ le_encode 4 (u32 (uh_Index h)).
Proof.
  unfold encode_history. split.
  - intros. go_inv. match goal with H : len_is _ _ = true |- _ => apply len_is_true in H end. auto.
  - intros (H1 & ->). apply len_is_true in H1. unfold check.
    change ScripthashLength with 32%nat. by rewrite H1.
Qed.

Lemma read_output_encode what o bs r :
  UndoOutput_wf o -> encode_output what o = Ok bs -> read_output (bs ++ r) = Ok (o, r).
Proof.
  intros (Hv & Hw & Hh) (H1 & H2 & H3 & ->)%encode_output_Ok. unfold read_output.
  rewrite <- !app_assoc. unfold_lengths.
  rewrite reader_Read_app by (done || lia). cbn [mbind result_bind].
  rewrite reader_Read_app by (done || lia). cbn [mbind result_bind].
  rewrite readU32_app by done. cbn [mbind result_bind].
  rewrite readI64_app by done. cbn [mbind result_bind].
  rewrite readI32_app by done. cbn [mbind result_bind].
  rewrite reader_Read_app by (done || lia). cbn [mbind result_bind]. by destruct o.
Qed.

Lemma read_history_encode h bs r :
  UndoHistory_wf h -> encode_history h = Ok bs -> read_history (bs ++ r) = Ok (h, r).
Proof.
  intros (Hv & Hw & Hh) (H1 & ->)%encode_history_Ok. unfold read_history.
  rewrite <- !app_assoc. unfold_lengths.
  rewrite reader_Read_app by (done || lia). cbn [mbind result_bind].
  rewrite readI32_app by done. cbn [mbind result_bind].
  rewrite !readU32_app by done. cbn [mbind result_bind].
  rewrite readU32_app by done. cbn [mbind result_bind]. by destruct h.
Qed.

(** A loop of writes is read back by the loop of reads. *)
Section EncodeAll.
Context {A} (enc : A -> result bytes) (rd : bytes -> result (A * bytes)) (wf : A -> Prop).
Hypothesis Hrd : forall x bs r, wf x -> enc x = Ok bs -> rd (bs ++ r) = Ok (x, r).

Lemma encode_all_Ok buf l out : encode_all enc buf l = Ok out ->
  exists body, out = buf ++ body /\
    forall r, Forall wf l -> read_many rd (length l) (body ++ r) = Ok (l, r).
Proof.
  unfold encode_all. revert buf; induction l as [|x l IH]; intros buf; simpl.
  - intros [= ->]. exists []. rewrite app_nil_r. auto.
  - intros H. apply bind_Ok in H as (b1 & H1 & H2). apply bind_Ok in H1 as (bs & Hx & E).
    injection E as <-. apply IH in H2 as (body & -> & Hbody).
    exists (bs ++ body). rewrite <- app_assoc. split; [done|].
    intros r [Hw Hl]%Forall_cons. rewrite <- app_assoc, (Hrd x bs) by done.
    cbn [mbind result_bind]. by rewrite Hbody.
Qed.

Lemma encode_all_success (shape : A -> Prop) :
  (forall x, (exists bs, enc x = Ok bs) <-> shape x) ->
  forall l buf, (exists out, encode_all enc buf l = Ok out) <-> Forall shape l.
Proof.
  intros Hshape. unfold encode_all. induction l as [|x l IH]; intros buf; simpl.
  - split; eauto.
  - rewrite Forall_cons, <- Hshape. split.
    + intros (out & H). apply bind_Ok in H as (b1 & H1 & H2).
      apply bind_Ok in H1 as (bs & Hx & E). split; [eauto|]. eapply IH; eauto.
    + intros ((bs & ->) & Hl). simpl. by apply IH.
Qed.
End EncodeAll.

Lemma DecodeUndoBlock_Encode u bs :
  UndoBlock_wf u -> EncodeUndoBlock u = Ok bs -> DecodeUndoBlock bs = Ok u.
Proof.
  intros (Hh & Hls & Hlc & Hlh & Hs & Hc & Hhist) He. unfold EncodeUndoBlock in He.
  go_inv. repeat match goal with H : len_is _ _ = true |- _ => apply len_is_true in H end.
  match goal with
  | H1 : encode_all _ _ (ub_SpentOutputs u) = _, H2 : encode_all _ _ (ub_CreatedOutputs u) = _,
    H3 : encode_all _ _ (ub_HistoryEntries u) = _ |- _ =>
      apply (encode_all_Ok _ read_output UndoOutput_wf (read_output_encode _)) in H1 as (b1 & -> & R1);
      apply (encode_all_Ok _ read_output UndoOutput_wf (read_output_encode _)) in H2 as (b2 & -> & R2);
      apply (encode_all_Ok _ read_history UndoHistory_wf read_history_encode) in H3 as (b3 & -> & R3)
  end.
  unfold DecodeUndoBlock. rewrite <- !app_assoc. unfold_lengths.
  rewrite readI32_app by done. cbn [mbind result_bind].
  rewrite reader_Read_app by (done || lia). cbn [mbind result_bind].
  rewrite reader_Read_app by (done || lia). cbn [mbind result_bind].
  do 3 (rewrite readU32_app by (unfold in_u32; lia); cbn [mbind result_bind]).
  rewrite !Nat2Z.id, R1 by done. cbn [mbind result_bind].
  rewrite R2 by done. cbn [mbind result_bind].
  rewrite <- (app_nil_r b3), R3 by done. cbn [mbind result_bind]. by destruct u.
Qed.

(** The encoder fails exactly on a slice of the wrong length. *)
Definition UndoOutput_shape (o : UndoOutput) : Prop :=
  length (uo_Scripthash o) = 32%nat /\ length (uo_Txid o) = 32%nat /\
  length (uo_BlockHash o) = 32%nat.
Definition UndoHistory_shape (h : UndoHistory) : Prop := length (uh_Scripthash h) = 32%nat.
Definition UndoBlock_shape (u : UndoBlock) : Prop :=
  length (ub_BlockHash u) = 32%nat /\ length (ub_PrevBlockHash u) = 32%nat /\
  Forall UndoOutput_shape (ub_SpentOutputs u) /\
  Forall UndoOutput_shape (ub_CreatedOutputs u) /\
  Forall UndoHistory_shape (ub_HistoryEntries u).

Lemma encode_output_shape what o : (exists bs, encode_output what o = Ok bs) <-> UndoOutput_shape o.
Proof. setoid_rewrite encode_output_Ok. unfold UndoOutput_shape. naive_solver. Qed.

Lemma encode_history_shape h : (exists bs, encode_history h = Ok bs) <-> UndoHistory_shape h.
Proof. setoid_rewrite encode_history_Ok. unfold UndoHistory_shape. naive_solver. Qed.

Lemma EncodeUndoBlock_shape u : (exists bs, EncodeUndoBlock u = Ok bs) <-> UndoBlock_shape u.
Proof.
  unfold EncodeUndoBlock, UndoBlock_shape. split.
  - intros (bs & H). go_inv.
    repeat match goal with H : len_is _ _ = true |- _ => apply len_is_true in H end.
    repeat split; try done;
      (eapply encode_all_success; [|eauto]);
      first [apply encode_output_shape | apply encode_history_shape].
  - intros (H1 & H2 & H3 & H4 & H5). apply len_is_true in H1, H2. unfold check. unfold_lengths.
    rewrite H1, H2. cbn [mbind result_bind].
    match goal with |- context [encode_all _ ?b (ub_SpentOutputs u)] =>
      destruct (proj2 (encode_all_success _ _ (encode_output_shape "spent") _ b) H3) as [b1 ->] end.
    cbn [mbind result_bind].
    destruct (proj2 (encode_all_success _ _ (encode_output_shape "created") _ b1) H4) as [b2 ->].
    cbn [mbind result_bind].
    apply (encode_all_success _ _ encode_history_shape). done.
Qed.

(** *** Lists of fixed-size records *)

Lemma concat_slices {A B} (w : nat) (f : A -> list B) (l : list A) :
  (forall x, x ∈ l -> length (f x) = w) ->
  forall i x, l !! i = Some x -> slice (i * w) (i * w + w) (l ≫= f) = f x.
Proof.
  induction l as [|y l IH]; intros Hw i x Hi; [done|].
  assert (Hy : length (f y) = w) by (apply Hw; set_solver).
  rewrite bind_cons. destruct i as [|i]; simpl in *.
  - injection Hi as ->. by rewrite slice_here.
  - rewrite slice_skip by lia.
    replace (w + i * w - length (f y))%nat with (i * w)%nat by lia.
    replace (w + i * w + w - length (f y))%nat with (i * w + w)%nat by lia.
    apply IH; [|done]. intros. apply Hw. set_solver.
Qed.

Lemma length_concat_fixed {A B} (w : nat) (f : A -> list B) (l : list A) :
  (forall x, x ∈ l -> length (f x) = w) -> length (l ≫= f) = (length l * w)%nat.
Proof.
  induction l as [|y l IH]; intros Hw; [done|].
  rewrite bind_cons, length_app, IH, Hw by set_solver. simpl. lia.
Qed.

Lemma chunks_roundtrip {A B} (w : nat) (f : A -> list B) (g : list B -> A) (l : list A) :
  (0 < w)%nat -> (forall x, x ∈ l -> length (f x) = w /\ g (f x) = x) ->
  (length (l ≫= f) `mod` w)%nat = 0%nat /\
  (fun i => g (slice (i * w) (i * w + w) (l ≫= f))) <$> seq 0 (length (l ≫= f) / w) = l.
Proof.
  intros Hw Hf. assert (Hlen : forall x, x ∈ l -> length (f x) = w) by apply Hf.
  rewrite (length_concat_fixed w) by done.
  rewrite Nat.Div0.mod_mul, Nat.div_mul by lia. split; [done|].
  apply list_eq. intros i. rewrite list_lookup_fmap.
  destruct (l !! i) as [x|] eqn:E.
  - pose proof (lookup_lt_Some _ _ _ E). rewrite lookup_seq_lt by done. simpl.
    rewrite (concat_slices w f l Hlen i x E). f_equal. apply Hf. by eapply list_elem_of_lookup_2.
  - apply lookup_ge_None in E. rewrite lookup_seq_ge by done. done.
Qed.

Lemma encode_txids_Ok txids bs : encode_txids txids = Ok bs <->
  Forall (fun t => length t = 32%nat) txids /\ bs = txids ≫= id.
Proof.
  unfold encode_txids. change (txids ≫= id) with ([] ++ (txids ≫= id)).
  generalize (@nil byte). induction txids as [|t txids IH]; intros buf; simpl.
  - rewrite app_nil_r. naive_solver.
  - rewrite bind_Ok. setoid_rewrite bind_Ok. setoid_rewrite check_len_Ok.
    setoid_rewrite IH. rewrite Forall_cons. unfold id at 2.
    split.
    + intros (b1 & (u & Ht & [= <-]) & Hl & ->). by rewrite <- app_assoc.
    + intros ((Ht & Hl) & ->). exists (buf ++ t). split; [by exists ()|].
      by rewrite <- app_assoc.
Qed.

Lemma decode_txids_encode txids bs : encode_txids txids = Ok bs -> decode_txids bs = Ok txids.
Proof.
  intros [Hl ->]%encode_txids_Ok.
  destruct (chunks_roundtrip 32 id id txids) as [Hm He]; [lia| |].
  { intros x Hx. rewrite Forall_forall in Hl. split; [by apply Hl|done]. }
  unfold decode_txids, check. unfold_lengths.
  rewrite bool_decide_eq_true_2 by done. cbn [mbind result_bind]. f_equal. exact He.
Qed.

Lemma decode_offsets_encode offsets :
  Forall in_u32 offsets -> decode_offsets (encode_offsets offsets) = Ok offsets.
Proof.
  intros Hl. destruct (chunks_roundtrip 4 (be_encode 4) be_decode offsets) as [Hm He]; [lia| |].
  { intros x Hx. rewrite Forall_forall in Hl. split; [apply length_be_encode|]. by apply be_u32, Hl. }
  unfold decode_offsets, encode_offsets, check.
  rewrite bool_decide_eq_true_2 by done. cbn [mbind result_bind]. f_equal.
  rewrite <- He at 2. apply list_fmap_ext. intros _ i _. do 3 f_equal. lia.
Qed.

Lemma decode_txpos_encode h t : in_i32 h -> in_u32 t -> decode_txpos (encode_txpos h t) = Ok (h, t).
Proof.
  intros. unfold decode_txpos, encode_txpos, check.
  rewrite bool_decide_eq_true_2 by len. cbn [mbind result_bind]. slices.
  by rewrite i32_be_u32, be_u32.
Qed.

(** *** The codecs as instances *)

#[export, refine] Instance UTXOValue_codec : Codec UTXOValue := {
  codec_encode u := Ok (EncodeUTXOValue u);
  codec_decode := DecodeUTXOValue;
  codec_wf := UTXOValue_wf;
}.
Proof. intros a bs Ha [= <-]. by apply DecodeUTXOValue_Encode. Defined.

#[export, refine] Instance MempoolValue_codec : Codec MempoolValue := {
  codec_encode m := Ok (EncodeMempoolValue m);
  codec_decode := DecodeMempoolValue;
  codec_wf := MempoolValue_wf;
}.
Proof. intros a bs Ha [= <-]. by apply DecodeMempoolValue_Encode. Defined.

#[export] Instance UndoBlock_codec : Codec UndoBlock := {
  codec_encode := EncodeUndoBlock;
  codec_decode := DecodeUndoBlock;
  codec_wf := UndoBlock_wf;
  codec_roundtrip := DecodeUndoBlock_Encode;
}.

#[export, refine] Instance txids_codec : Codec (list bytes) := {
  codec_encode := encode_txids;
  codec_decode := decode_txids;
  codec_wf _ := True;
}.
Proof. intros a bs _. apply decode_txids_encode. Defined.

#[export, refine] Instance offsets_codec : Codec (list Z) := {
  codec_encode l := Ok (encode_offsets l);
  codec_decode := decode_offsets;
  codec_wf := Forall in_u32;
}.
Proof. intros a bs Ha [= <-]. by apply decode_offsets_encode. Defined.

(** ** Properties of the stored values *)

(** C34: undo records: encoding succeeds exactly when every hash has its
    32-byte length, and what it wrote decodes to the same record. *)
Theorem undo_record_roundtrip (u : UndoBlock) (Hu : UndoBlock_wf u) :
  (UndoBlock_shape u <-> is_Ok (EncodeUndoBlock u) = true) /\
  forall bs, EncodeUndoBlock u = Ok bs -> DecodeUndoBlock bs = Ok u.
Proof.
  split; [|intros bs; by apply DecodeUndoBlock_Encode].
  rewrite <- EncodeUndoBlock_shape. destruct (EncodeUndoBlock u); simpl; naive_solver.
Qed.

Definition sample_undo : UndoBlock :=
  let h := replicate 32 x11 in
  mkUndoBlock 800000 h (replicate 32 x22)
    [mkUndoOutput h (replicate 32 x33) 7 (-1) 799999 h] []
    [mkUndoHistory h 800000 4294967295 1].

Lemma undo_record_roundtrip_witness :
  (UndoBlock_shape sample_undo <-> is_Ok (EncodeUndoBlock sample_undo) = true) /\
  forall bs, EncodeUndoBlock sample_undo = Ok bs -> DecodeUndoBlock bs = Ok sample_undo.
Proof.
  apply (undo_record_roundtrip sample_undo).
  apply (bool_decide_eq_true_1 _). vm_compute. reflexivity.
Defined.

(** The UTXO value codec is a bijection between the values with a 32-byte
    block hash and the 44-byte strings; any other string is rejected. *)
Theorem utxo_value_bijection :
  (forall u, UTXOValue_wf u -> DecodeUTXOValue (EncodeUTXOValue u) = Ok u) /\
  (forall bs u, DecodeUTXOValue bs = Ok u -> UTXOValue_wf u /\ EncodeUTXOValue u = bs) /\
  (forall bs, is_Ok (DecodeUTXOValue bs) = true <-> length bs = 44%nat).
Proof.
  split_and!; [apply DecodeUTXOValue_Encode | apply EncodeUTXOValue_Decode |].
  intros bs. unfold DecodeUTXOValue, check, UTXOValueEncodedSize.
  case_bool_decide; simpl in *; [done|]. by split.
Qed.

(** A record whose last 32-byte field was cut short. *)
Definition truncated_undo : result UndoBlock :=
  bs ← EncodeUndoBlock (mkUndoBlock 1 (replicate 32 x11) (replicate 32 x22)
         [mkUndoOutput (replicate 32 x33) (replicate 32 x44) 0 5 0 (replicate 32 xff)] [] []);
  DecodeUndoBlock (take (length bs - 31) bs).

(** [bytes.Reader.Read] may return fewer bytes than asked for without an
    error, and the decoder does not look at the count: a record cut in its
    last hash decodes successfully, with zeros in place of the bytes lost. *)
Theorem truncated_undo_accepted :
  (ub_SpentOutputs <$> truncated_undo) =
  Ok [mkUndoOutput (replicate 32 x33) (replicate 32 x44) 0 5 0 (xff :: replicate 31 x00)].
Proof. vm_compute. reflexivity. Qed.

(** The lists a block stores (txids, transaction offsets) and transaction
    positions decode to what was encoded; the txid list is refused exactly
    when some txid is not 32 bytes long. *)
Theorem block_lists_roundtrip (txids : list bytes) (offsets : list Z) (h t : Z)
    (Ho : Forall in_u32 offsets) (Hh : in_i32 h) (Ht : in_u32 t) :
  (is_Ok (encode_txids txids) = true <-> Forall (fun t => length t = 32%nat) txids) /\
  (forall bs, encode_txids txids = Ok bs -> decode_txids bs = Ok txids) /\
  decode_offsets (encode_offsets offsets) = Ok offsets /\
  decode_txpos (encode_txpos h t) = Ok (h, t).
Proof.
  split_and!; [|apply decode_txids_encode|by apply decode_offsets_encode|by apply decode_txpos_encode].
  split.
  - destruct (encode_txids txids) eqn:E; [|done]. by apply encode_txids_Ok in E as [].
  - intros Hl. destruct (encode_txids txids) eqn:E; [done|].
    by rewrite (proj2 (encode_txids_Ok txids (txids ≫= id)) (conj Hl eq_refl)) in E.
Qed.

Lemma block_lists_roundtrip_witness :
  (is_Ok (encode_txids [replicate 32 x01]) = true <->
     Forall (fun t => length t = 32%nat) [replicate 32 x01]) /\
  (forall bs, encode_txids [replicate 32 x01] = Ok bs ->
     decode_txids bs = Ok [replicate 32 x01]) /\
  decode_offsets (encode_offsets [80; 4294967295]) = Ok [80; 4294967295] /\
  decode_txpos (encode_txpos 840000 2) = Ok (840000, 2).
Proof.
  apply (block_lists_roundtrip [replicate 32 x01] [80; 4294967295] 840000 2);
    apply (bool_decide_eq_true_1 _); vm_compute; reflexivity.
Defined.

(** The display form of a block hash, reversed hexadecimal, reads back as
    the same hash. *)
Theorem block_hash_hex_roundtrip (u v : UTXOValue) (Hl : length (uv_BlockHash u) = 32%nat) :
  SetBlockHashFromHex v (BlockHashHex u) =
  Ok {| uv_Value := uv_Value v; uv_Height := uv_Height v; uv_BlockHash := uv_BlockHash u |}.
Proof.
  unfold SetBlockHashFromHex, BlockHashHex. rewrite decide_False by auto.
  unfold check. rewrite bool_decide_eq_true_2
    by (rewrite slen_EncodeToString, length_reverse32; done).
  cbn [mbind result_bind]. rewrite DecodeString_EncodeToString. cbn [mbind result_bind].
  by rewrite reverse32_involutive.
Qed.

Lemma block_hash_hex_roundtrip_witness :
  SetBlockHashFromHex (mkUTXOValue 1 2 []) (BlockHashHex (mkUTXOValue 0 0 sample_hash)) =
  Ok (mkUTXOValue 1 2 sample_hash).
Proof.
  apply (block_hash_hex_roundtrip (mkUTXOValue 0 0 sample_hash) (mkUTXOValue 1 2 [])).
  reflexivity.
Defined.
