(* ===== verification/Json.v ===== *)
(** * JSON: the part of [encoding/json] the program uses

    A lexer and a stack parser for JSON texts (one pass over the bytes, one
    over the tokens, so neither needs fuel), string quoting and unquoting with
    Go's UTF-8 rules, and decimal numbers.  A syntax error carries no message
    text here; which inputs are syntax errors is modelled. *)

From Stdlib Require Import Strings.Byte.
From S2P Require Import Prelude Bytes Hex.

Inductive json : Type :=
| JNull
| JBool (b : bool)
| JNum (lit : bytes)
| JStr (s : bytes)
| JArr (l : list json)
| JObj (l : list (bytes * json)).

Definition JsonSyntaxError : error := ESentinel "json.SyntaxError" "".
Definition JsonTypeError : error := ESentinel "json.UnmarshalTypeError" "".

(** ** UTF-8 *)

(** [utf8.DecodeRune] on a non-empty string: the rune and its width, [None]
    for an invalid encoding (width 1). *)
Definition cont (b : byte) : option Z :=
  let z := Z_of_byte b in if (128 <=? z) && (z <=? 191) then Some (z - 128) else None.

Definition utf8_decode (s : bytes) : option (Z * nat) :=
  match s with
  | [] => None
  | b0 :: s1 =>
      let z0 := Z_of_byte b0 in
      if z0 <? 128 then Some (z0, 1%nat)
      else if (194 <=? z0) && (z0 <=? 223) then
        match s1 with
        | b1 :: _ => c1 ← cont b1; Some ((z0 - 192) * 64 + c1, 2%nat)
        | _ => None
        end
      else if (224 <=? z0) && (z0 <=? 239) then
        match s1 with
        | b1 :: b2 :: _ =>
            c1 ← cont b1; c2 ← cont b2;
            let r := ((z0 - 224) * 64 + c1) * 64 + c2 in
            if (r <? 2048) || ((55296 <=? r) && (r <=? 57343)) then None else Some (r, 3%nat)
        | _ => None
        end
      else if (240 <=? z0) && (z0 <=? 244) then
        match s1 with
        | b1 :: b2 :: b3 :: _ =>
            c1 ← cont b1; c2 ← cont b2; c3 ← cont b3;
            let r := (((z0 - 240) * 64 + c1) * 64 + c2) * 64 + c3 in
            if (r <? 65536) || (1114111 <? r) then None else Some (r, 4%nat)
        | _ => None
        end
      else None
  end.

Definition rune_error : bytes := [xef; xbf; xbd].

(** [utf8.AppendRune]; surrogates and out-of-range runes become U+FFFD. *)
Definition utf8_encode (r : Z) : bytes :=
  if (r <? 0) || (1114111 <? r) || ((55296 <=? r) && (r <=? 57343)) then rune_error
  else if r <? 128 then [byte_of_Z r]
  else if r <? 2048 then [byte_of_Z (192 + r / 64); byte_of_Z (128 + r `mod` 64)]
  else if r <? 65536 then
    [byte_of_Z (224 + r / 4096); byte_of_Z (128 + (r / 64) `mod` 64); byte_of_Z (128 + r `mod` 64)]
  else [byte_of_Z (240 + r / 262144); byte_of_Z (128 + (r / 4096) `mod` 64);
        byte_of_Z (128 + (r / 64) `mod` 64); byte_of_Z (128 + r `mod` 64)].

(** ** Quoting: [json.Marshal] of a string, HTML escaping on *)

Definition quote_byte (b : byte) : bytes :=
  let z := Z_of_byte b in
  if (z =? 34) || (z =? 92) then [x5c; b]
  else if z =? 8 then [x5c; x62]
  else if z =? 12 then [x5c; x66]
  else if z =? 10 then [x5c; x6e]
  else if z =? 13 then [x5c; x72]
  else if z =? 9 then [x5c; x74]
  else if (z <? 32) || (z =? 60) || (z =? 62) || (z =? 38) then
    [x5c; x75; x30; x30; hex_digit (z / 16); hex_digit (z `mod` 16)]
  else [b].

(** [skip] bytes of a multi-byte rune were already copied. *)
Fixpoint quote_body (s : bytes) (skip : nat) : bytes :=
  match s with
  | [] => []
  | b :: s' =>
      match skip with
      | S skip => b :: quote_body s' skip
      | O =>
          if Z_of_byte b <? 128 then quote_byte b ++ quote_body s' 0
          else
            match utf8_decode s with
            | None => [x5c; x75; x66; x66; x66; x64] ++ quote_body s' 0
            | Some (r, n) =>
                if (r =? 8232) || (r =? 8233) then
                  [x5c; x75; x32; x30; x32; hex_digit (r `mod` 16)] ++
                    match s' with _ :: _ :: s'' => quote_body s'' 0 | _ => [] end
                else b :: quote_body s' (n - 1)
            end
      end
  end.

Definition json_quote (s : bytes) : bytes := x22 :: quote_body s 0 ++ [x22].

(** ** Unquoting: the bytes between the quotes, already validated *)

Definition hex4 (a b c d : byte) : Z :=
  match hex_val a, hex_val b, hex_val c, hex_val d with
  | Some a, Some b, Some c, Some d => ((a * 16 + b) * 16 + c) * 16 + d
  | _, _, _, _ => -1
  end.

Definition unescape_byte (c : byte) : byte :=
  let z := Z_of_byte c in
  if z =? 98 then x08 else if z =? 102 then x0c else if z =? 110 then x0a
  else if z =? 114 then x0d else if z =? 116 then x09 else c.

Fixpoint unquote (s : bytes) (skip : nat) : bytes :=
  match s with
  | [] => []
  | b :: s' =>
      match skip with
      | S skip => b :: unquote s' skip
      | O =>
          if decide (b = x5c) then
            match s' with
            | [] => []
            | c :: s1 =>
                if decide (c = x75) then
                  match s1 with
                  | a1 :: a2 :: a3 :: a4 :: s2 =>
                      let r := hex4 a1 a2 a3 a4 in
                      if (55296 <=? r) && (r <=? 56319) then
                        match s2 with
                        | e :: u :: b1 :: b2 :: b3 :: b4 :: s3 =>
                            let r2 := hex4 b1 b2 b3 b4 in
                            if bool_decide (e = x5c /\ u = x75) && (56320 <=? r2) && (r2 <=? 57343)
                            then utf8_encode ((r - 55296) * 1024 + (r2 - 56320) + 65536) ++
                                 unquote s3 0
                            else rune_error ++ unquote s2 0
                        | _ => rune_error ++ unquote s2 0
                        end
                      else utf8_encode r ++ unquote s2 0
                  | _ => []
                  end
                else unescape_byte c :: unquote s1 0
            end
          else if Z_of_byte b <? 128 then b :: unquote s' 0
          else
            match utf8_decode s with
            | None => rune_error ++ unquote s' 0
            | Some (_, n) => b :: unquote s' (n - 1)
            end
      end
  end.

(** ** The lexer *)

Inductive token : Type :=
| TObjOpen | TObjClose | TArrOpen | TArrClose | TColon | TComma
| TStr (raw : bytes) | TNum (lit : bytes) | TTrue | TFalse | TNull.

(** Positions inside a number, after Go's scanner states. *)
Inductive num_state : Type := NNeg | N0 | N1 | NDot | NDot0 | NE | NESign | NE0.

Inductive lex_state : Type :=
| LStart
| LStr (acc : bytes)                       (* inside a string; [acc] reversed *)
| LEsc (acc : bytes)                       (* after a backslash *)
| LHex (acc : bytes) (n : nat)             (* [n] more hex digits *)
| LNum (acc : bytes) (st : num_state)
| LLit (rest : bytes) (tok : token).       (* inside true, false, null *)

Definition is_space (c : byte) : bool :=
  let z := Z_of_byte c in (z =? 32) || (z =? 9) || (z =? 13) || (z =? 10).

Definition num_done (st : num_state) : bool :=
  match st with N0 | N1 | NDot0 | NE0 => true | _ => false end.

Definition num_step (st : num_state) (c : byte) : option num_state :=
  let z := Z_of_byte c in
  match st with
  | NNeg => if z =? 48 then Some N0 else if is_digit c then Some N1 else None
  | N0 => if z =? 46 then Some NDot else if (z =? 101) || (z =? 69) then Some NE else None
  | N1 => if is_digit c then Some N1 else if z =? 46 then Some NDot
          else if (z =? 101) || (z =? 69) then Some NE else None
  | NDot => if is_digit c then Some NDot0 else None
  | NDot0 => if is_digit c then Some NDot0 else if (z =? 101) || (z =? 69) then Some NE else None
  | NE => if (z =? 43) || (z =? 45) then Some NESign else if is_digit c then Some NE0 else None
  | NESign => if is_digit c then Some NE0 else None
  | NE0 => if is_digit c then Some NE0 else None
  end.

(** One byte where a token may begin: a token at once, or a state. *)
Definition lex_start (c : byte) : option (option token * lex_state) :=
  let z := Z_of_byte c in
  if is_space c then Some (None, LStart)
  else if z =? 123 then Some (Some TObjOpen, LStart)
  else if z =? 125 then Some (Some TObjClose, LStart)
  else if z =? 91 then Some (Some TArrOpen, LStart)
  else if z =? 93 then Some (Some TArrClose, LStart)
  else if z =? 58 then Some (Some TColon, LStart)
  else if z =? 44 then Some (Some TComma, LStart)
  else if z =? 34 then Some (None, LStr [])
  else if z =? 45 then Some (None, LNum [c] NNeg)
  else if z =? 48 then Some (None, LNum [c] N0)
  else if is_digit c then Some (None, LNum [c] N1)
  else if z =? 116 then Some (None, LLit [x72; x75; x65] TTrue)
  else if z =? 102 then Some (None, LLit [x61; x6c; x73; x65] TFalse)
  else if z =? 110 then Some (None, LLit [x75; x6c; x6c] TNull)
  else None.

Definition lex_step (st : lex_state) (c : byte) : option (list token * lex_state) :=
  let z := Z_of_byte c in
  match st with
  | LStart => '(t, st) ← lex_start c; Some (option_list t, st)
  | LStr acc =>
      if z =? 34 then Some ([TStr (reverse acc)], LStart)
      else if z =? 92 then Some ([], LEsc (c :: acc))
      else if z <? 32 then None
      else Some ([], LStr (c :: acc))
  | LEsc acc =>
      if z =? 117 then Some ([], LHex (c :: acc) 4)
      else if bool_decide (c ∈ [x62; x66; x6e; x72; x74; x5c; x2f; x22])
      then Some ([], LStr (c :: acc))
      else None
  | LHex acc n =>
      match hex_val c with
      | None => None
      | Some _ =>
          match n with
          | S (S n) => Some ([], LHex (c :: acc) (S n))
          | _ => Some ([], LStr (c :: acc))
          end
      end
  | LNum acc ns =>
      match num_step ns c with
      | Some ns => Some ([], LNum (c :: acc) ns)
      | None =>
          if num_done ns then
            '(t, st) ← lex_start c; Some (TNum (reverse acc) :: option_list t, st)
          else None
      end
  | LLit rest tok =>
      match rest with
      | [] => None
      | x :: rest =>
          if decide (c = x) then
            Some (match rest with [] => ([tok], LStart) | _ => ([], LLit rest tok) end)
          else None
      end
  end.

Fixpoint lex (st : lex_state) (s : bytes) : option (list token) :=
  match s with
  | [] =>
      match st with
      | LStart => Some []
      | LNum acc ns => if num_done ns then Some [TNum (reverse acc)] else None
      | _ => None
      end
  | c :: s =>
      '(ts, st) ← lex_step st c; rest ← lex st s; Some (ts ++ rest)
  end.

(** ** The parser: a stack of open arrays and objects *)

Inductive frame : Type :=
| FArr (acc : list json)
| FObj (acc : list (bytes * json)) (key : bytes).

Inductive expect : Type :=
| EValue                                  (* a value *)
| EFirst                                  (* a value or [']'] *)
| EKey (acc : list (bytes * json))        (* a key *)
| EKeyFirst                               (* a key or ['}'] *)
| EColon (acc : list (bytes * json)) (key : bytes)
| ENext (v : json).                       (* [v] is complete: [','] or a close *)

Definition maxNestingDepth : Z := 10000.

Definition open_ok (stack : list frame) : bool :=
  Z.of_nat (length stack) <? maxNestingDepth.

Definition parse_step (ex : expect) (stack : list frame) (t : token) :
    option (expect * list frame) :=
  let value stack :=
    match t with
    | TNull => Some (ENext JNull, stack)
    | TTrue => Some (ENext (JBool true), stack)
    | TFalse => Some (ENext (JBool false), stack)
    | TNum l => Some (ENext (JNum l), stack)
    | TStr r => Some (ENext (JStr (unquote r 0)), stack)
    | TArrOpen => if open_ok stack then Some (EFirst, FArr [] :: stack) else None
    | TObjOpen => if open_ok stack then Some (EKeyFirst, FObj [] [] :: stack) else None
    | _ => None
    end in
  match ex with
  | EValue => value stack
  | EFirst =>
      match t, stack with
      | TArrClose, FArr _ :: stack => Some (ENext (JArr []), stack)
      | _, _ => value stack
      end
  | EKeyFirst =>
      match t, stack with
      | TObjClose, FObj _ _ :: stack => Some (ENext (JObj []), stack)
      | TStr r, FObj _ _ :: stack => Some (EColon [] (unquote r 0), stack)
      | _, _ => None
      end
  | EKey acc =>
      match t with TStr r => Some (EColon acc (unquote r 0), stack) | _ => None end
  | EColon acc key =>
      match t with TColon => Some (EValue, FObj acc key :: stack) | _ => None end
  | ENext v =>
      match stack, t with
      | FArr acc :: stack, TComma => Some (EValue, FArr (v :: acc) :: stack)
      | FArr acc :: stack, TArrClose => Some (ENext (JArr (reverse (v :: acc))), stack)
      | FObj acc key :: stack, TComma => Some (EKey ((key, v) :: acc), stack)
      | FObj acc key :: stack, TObjClose => Some (ENext (JObj (reverse ((key, v) :: acc))), stack)
      | _, _ => None
      end
  end.

Fixpoint parse_tokens (ex : expect) (stack : list frame) (ts : list token) : option json :=
  match ts with
  | [] => match ex, stack with ENext v, [] => Some v | _, _ => None end
  | t :: ts => '(ex, stack) ← parse_step ex stack t; parse_tokens ex stack ts
  end.

Definition json_parse (s : bytes) : result json :=
  match ts ← lex LStart s; parse_tokens EValue [] ts with
  | Some v => Ok v
  | None => Err JsonSyntaxError
  end.

(** JSON text for the examples, with ['] for the double quote. *)
Definition text (s : string) : bytes :=
  (fun b => if decide (b = x27) then x22 else b) <$> bytes_of_string s.

Example json_parse_ex :
  json_parse (text "{ 'a' : [1, -2.5e3, true], 'b\u0041': null }")
  = Ok (JObj [(text "a", JArr [JNum (text "1"); JNum (text "-2.5e3"); JBool true]);
              (text "bA", JNull)]).
Proof. vm_compute. reflexivity. Qed.

Example json_parse_ex_bad :
  json_parse (text "[01]") = Err JsonSyntaxError /\
  json_parse (text "{'a' 1}") = Err JsonSyntaxError /\
  json_parse (text "") = Err JsonSyntaxError.
Proof. vm_compute. done. Qed.
