(* ===== verification/Checkpoint.v ===== *)
(** * The checkpoint record and its JSON form

    [storage.Checkpoint] with its struct tags, [json.Marshal] and
    [json.Unmarshal] of it: field matching up to case folding, the integer
    range check, errors that leave the other fields decoded. *)

From Stdlib Require Import Strings.Byte.
From S2P Require Import Prelude Bytes Hex Json.

Record Checkpoint := mkCheckpoint {
  cp_Height : Z;          (* json:"height" *)
  cp_BlockHash : string;  (* json:"block_hash" *)
  cp_StartHeight : Z;     (* json:"start_height,omitempty" *)
}.

#[export] Instance Checkpoint_eq_dec : EqDecision Checkpoint.
Proof. solve_decision. Defined.

Definition zeroCheckpoint : Checkpoint := mkCheckpoint 0 "" 0.

Definition name_height : bytes := bytes_of_string "height".
Definition name_block_hash : bytes := bytes_of_string "block_hash".
Definition name_start_height : bytes := bytes_of_string "start_height".

Definition marshal_field (name value : bytes) : bytes :=
  x22 :: name ++ [x22; x3a] ++ value.

Definition json_Marshal (c : Checkpoint) : bytes :=
  [x7b] ++ marshal_field name_height (itoa_bytes (cp_Height c)) ++
  [x2c] ++ marshal_field name_block_hash (json_quote (bytes_of_string (cp_BlockHash c))) ++
  (if cp_StartHeight c =? 0 then []
   else [x2c] ++ marshal_field name_start_height (itoa_bytes (cp_StartHeight c))) ++
  [x7d].

(** [foldName]: ASCII letters to upper case, and the two other runes that fold
    to an ASCII letter, U+212A (Kelvin sign) and U+017F (long s). *)
Fixpoint fold_name (s : bytes) : bytes :=
  match s with
  | [] => []
  | b :: s1 =>
      let z := Z_of_byte b in
      if (97 <=? z) && (z <=? 122) then byte_of_Z (z - 32) :: fold_name s1
      else
        match s1 with
        | b1 :: s2 =>
            if bool_decide (b = xc5 /\ b1 = xbf) then x53 :: fold_name s2
            else
              match s2 with
              | b2 :: s3 =>
                  if bool_decide (b = xe2 /\ b1 = x84 /\ b2 = xaa) then x4b :: fold_name s3
                  else b :: fold_name s1
              | [] => b :: fold_name s1
              end
        | [] => b :: fold_name s1
        end
  end.

(** A number into an [int32] field. *)
Definition decode_int32 (old : Z) (v : json) : Z * option error :=
  match v with
  | JNull => (old, None)
  | JNum lit =>
      match parse_int lit with
      | Some z => if decide (in_i32 z) then (z, None) else (old, Some JsonTypeError)
      | None => (old, Some JsonTypeError)
      end
  | _ => (old, Some JsonTypeError)
  end.

Definition decode_string (old : string) (v : json) : string * option error :=
  match v with
  | JNull => (old, None)
  | JStr s => (string_of_bytes s, None)
  | _ => (old, Some JsonTypeError)
  end.

(** The first error is kept; decoding goes on. *)
Definition save_error (e e' : option error) : option error :=
  match e with Some _ => e | None => e' end.

Definition decode_field (st : Checkpoint * option error) (kv : bytes * json) :
    Checkpoint * option error :=
  let '(c, e) := st in
  let '(k, v) := kv in
  let k := fold_name k in
  if decide (k = fold_name name_height) then
    let '(h, e') := decode_int32 (cp_Height c) v in
    (mkCheckpoint h (cp_BlockHash c) (cp_StartHeight c), save_error e e')
  else if decide (k = fold_name name_block_hash) then
    let '(b, e') := decode_string (cp_BlockHash c) v in
    (mkCheckpoint (cp_Height c) b (cp_StartHeight c), save_error e e')
  else if decide (k = fold_name name_start_height) then
    let '(s, e') := decode_int32 (cp_StartHeight c) v in
    (mkCheckpoint (cp_Height c) (cp_BlockHash c) s, save_error e e')
  else st.

(** [json.Unmarshal(data, &c)]: the text is checked before anything is
    stored. *)
Definition json_Unmarshal (data : bytes) (c : Checkpoint) : Checkpoint * option error :=
  match json_parse data with
  | Err e => (c, Some e)
  | Ok JNull => (c, None)
  | Ok (JObj l) => foldl decode_field (c, None) l
  | Ok _ => (c, Some JsonTypeError)
  end.

(** ** Lemmas: the round trip *)

Definition plain_byte (b : byte) : bool :=
  let z := Z_of_byte b in
  (32 <=? z) && (z <? 128) && negb (existsb (Z.eqb z) [34; 92; 60; 62; 38]).

Definition plain (s : bytes) : Prop := Forall (fun b => plain_byte b = true) s.

Lemma plain_facts b : plain_byte b = true ->
  quote_byte b = [b] /\ Z_of_byte b <? 128 = true /\ b <> x5c /\
  lex_step (LStr []) b = Some ([], LStr [b]) /\
  (forall acc, lex_step (LStr acc) b = Some ([], LStr (b :: acc))).
Proof. destruct b; intros H; try discriminate H; repeat split; try reflexivity; try discriminate. Qed.

Lemma quote_plain s : plain s -> quote_body s 0 = s.
Proof.
  induction 1 as [|b s Hb _ IH]; [done|].
  destruct (plain_facts b Hb) as (H1 & H2 & _). simpl. by rewrite H1, H2, IH.
Qed.

Lemma unquote_plain s : plain s -> unquote s 0 = s.
Proof.
  induction 1 as [|b s Hb _ IH]; [done|].
  destruct (plain_facts b Hb) as (H1 & H2 & H3 & _). simpl.
  rewrite decide_False by done. by rewrite H2, IH.
Qed.

Lemma lex_cons st c s : lex st (c :: s) =
  '(ts, st) ← lex_step st c; rest ← lex st s; Some (ts ++ rest).
Proof. done. Qed.

#[local] Arguments lex : simpl never.

Lemma lex_close : lex LStart [x7d] = Some [TObjClose].
Proof. reflexivity. Qed.

Lemma lex_plain acc s r : plain s ->
  lex (LStr acc) (s ++ x22 :: r) =
  rest ← lex LStart r; Some (TStr (reverse acc ++ s) :: rest).
Proof.
  intros Hs. revert acc; induction Hs as [|b s Hb _ IH]; intros acc.
  - simpl app. rewrite lex_cons. simpl. rewrite app_nil_r. by destruct (lex LStart r).
  - destruct (plain_facts b Hb) as (_ & _ & _ & _ & H).
    simpl app. rewrite lex_cons, H. simpl. rewrite IH, reverse_cons, <- app_assoc.
    by destruct (lex LStart r).
Qed.

Lemma lex_string s r : plain s ->
  lex LStart (x22 :: s ++ x22 :: r) = rest ← lex LStart r; Some (TStr s :: rest).
Proof.
  intros. rewrite lex_cons. simpl. rewrite (lex_plain []) by done. simpl.
  by destruct (lex LStart r).
Qed.

(** A byte that ends a number. *)
Definition num_end (c : byte) : bool := bool_decide (c = x2c \/ c = x7d).

Definition end_token (c : byte) : token := if decide (c = x2c) then TComma else TObjClose.

Lemma lex_end c : num_end c = true ->
  lex_step LStart c = Some ([end_token c], LStart) /\
  forall acc st, st = N0 \/ st = N1 ->
    lex_step (LNum acc st) c = Some ([TNum (reverse acc); end_token c], LStart).
Proof.
  unfold num_end. rewrite bool_decide_eq_true. intros [-> | ->];
    (split; [vm_compute; reflexivity|]; intros acc st [-> | ->]; vm_compute; reflexivity).
Qed.

Lemma lex_num_end acc c r st : num_end c = true -> st = N0 \/ st = N1 ->
  lex (LNum acc st) (c :: r) = rest ← lex LStart (c :: r); Some (TNum (reverse acc) :: rest).
Proof.
  intros Hc Hst. destruct (lex_end c Hc) as [H1 H2].
  rewrite !lex_cons, H1, H2 by done. simpl. by destruct (lex LStart r).
Qed.

Lemma lex_digits acc s c r : num_end c = true -> Forall (fun d => is_digit d = true) s ->
  lex (LNum acc N1) (s ++ c :: r) =
  rest ← lex LStart (c :: r); Some (TNum (reverse acc ++ s) :: rest).
Proof.
  intros Hc Hs. revert acc; induction Hs as [|d s Hd _ IH]; intros acc.
  - simpl app. rewrite app_nil_r. by apply lex_num_end; auto.
  - simpl app. rewrite lex_cons.
    assert (lex_step (LNum acc N1) d = Some ([], LNum (d :: acc) N1)) as ->
      by (destruct d; try discriminate Hd; reflexivity).
    simpl. rewrite IH, reverse_cons, <- app_assoc. simpl. by destruct (lex LStart (c :: r)).
Qed.

Lemma lex_nonzero_digit d st : is_digit d = true -> d <> digit 0 ->
  (st = LStart -> lex_step st d = Some ([], LNum [d] N1)) /\
  (forall acc, st = LNum acc NNeg -> lex_step st d = Some ([], LNum (d :: acc) N1)).
Proof.
  intros Hd H0. split; [intros ->|intros acc ->];
    destruct d; try discriminate Hd; try reflexivity; by destruct H0.
Qed.

Lemma lex_itoa z c r : num_end c = true ->
  lex LStart (itoa_bytes z ++ c :: r) =
  rest ← lex LStart (c :: r); Some (TNum (itoa_bytes z) :: rest).
Proof.
  intros Hc. unfold itoa_bytes.
  destruct (digits_fuel (Z.abs z) (S (Z.to_nat (Z.log2 (Z.abs z)))))
    as (_ & Hall & d & s & E & H0 & Hp); [lia|lia|].
  rewrite E in *. clear E. apply Forall_cons in Hall as [Hd Hs].
  destruct (Z.ltb_spec z 0) as [Hneg|Hpos].
  - simpl app. rewrite (lex_cons LStart x2d).
    change (lex_step LStart x2d) with (Some (@nil token, LNum [x2d] NNeg)).
    cbn [mbind option_bind]. rewrite lex_cons.
    destruct (lex_nonzero_digit d (LNum [x2d] NNeg) Hd) as [_ Hstep]; [by apply Hp; lia|].
    rewrite (Hstep [x2d] eq_refl). cbn [mbind option_bind]. rewrite lex_digits by done.
    destruct (lex LStart (c :: r)); reflexivity.
  - destruct (decide (z = 0)) as [-> |Hz].
    + destruct (H0 eq_refl) as [-> ->]. simpl app. rewrite lex_cons.
      change (lex_step LStart (digit 0)) with (Some (@nil token, LNum [digit 0] N0)).
      simpl. rewrite lex_num_end by auto. by destruct (lex LStart (c :: r)).
    + simpl app. rewrite lex_cons.
      destruct (lex_nonzero_digit d LStart Hd) as [Hstep _]; [by apply Hp; lia|].
      rewrite Hstep by done. simpl. rewrite lex_digits by done.
      by destruct (lex LStart (c :: r)).
Qed.

Lemma lex_itoa_app z c r : num_end c = true ->
  lex LStart (itoa_bytes z ++ [c] ++ r) =
  rest ← lex LStart ([c] ++ r); Some (TNum (itoa_bytes z) :: rest).
Proof. apply lex_itoa. Qed.

Lemma lex_field name v : plain name ->
  lex LStart (marshal_field name v) =
  rest ← lex LStart v; Some (TStr name :: TColon :: rest).
Proof.
  intros. unfold marshal_field. simpl app. rewrite lex_string by done.
  rewrite lex_cons. change (lex_step LStart x3a) with (Some ([TColon], LStart)).
  simpl. by destruct (lex LStart v).
Qed.

Lemma lex_byte c t s : lex_step LStart c = Some ([t], LStart) ->
  lex LStart ([c] ++ s) = rest ← lex LStart s; Some (t :: rest).
Proof. intros H. change ([c] ++ s) with (c :: s). by rewrite lex_cons, H. Qed.

Lemma lex_quoted s r : plain s ->
  lex LStart ((x22 :: s ++ [x22]) ++ r) = rest ← lex LStart r; Some (TStr s :: rest).
Proof.
  intros. rewrite <- lex_string by done. f_equal. simpl. by rewrite <- app_assoc.
Qed.

Lemma marshal_field_app name v r : marshal_field name v ++ r = marshal_field name (v ++ r).
Proof. unfold marshal_field. simpl. by rewrite <- !app_assoc. Qed.

#[local] Arguments marshal_field : simpl never.
#[local] Arguments itoa_bytes : simpl never.

Ltac solve_plain := by repeat constructor.

Definition json_wf (c : Checkpoint) : Prop :=
  in_i32 (cp_Height c) /\ in_i32 (cp_StartHeight c) /\
  plain (bytes_of_string (cp_BlockHash c)).

Lemma json_parse_Marshal c : plain (bytes_of_string (cp_BlockHash c)) ->
  json_parse (json_Marshal c) = Ok (JObj (
    [(name_height, JNum (itoa_bytes (cp_Height c)));
     (name_block_hash, JStr (bytes_of_string (cp_BlockHash c)))] ++
    (if cp_StartHeight c =? 0 then []
     else [(name_start_height, JNum (itoa_bytes (cp_StartHeight c)))]))).
Proof.
  intros Hp. unfold json_parse, json_Marshal.
  rewrite (lex_byte x7b TObjOpen), marshal_field_app, lex_field by (done || solve_plain).
  rewrite (lex_itoa_app _ x2c) by done.
  rewrite (lex_byte x2c TComma), marshal_field_app, lex_field by (done || solve_plain).
  unfold json_quote. rewrite quote_plain by done.
  rewrite lex_quoted by done.
  destruct (cp_StartHeight c =? 0).
  - rewrite app_nil_l, lex_close. simpl. by rewrite !unquote_plain by (done || solve_plain).
  - rewrite <- app_assoc, (lex_byte x2c TComma), marshal_field_app, lex_field
      by (done || solve_plain).
    rewrite (lex_itoa _ x7d) by done. rewrite lex_close.
    simpl. by rewrite !unquote_plain by (done || solve_plain).
Qed.

Lemma decode_field_height c z : in_i32 z ->
  decode_field (c, None) (name_height, JNum (itoa_bytes z)) =
  (mkCheckpoint z (cp_BlockHash c) (cp_StartHeight c), None).
Proof.
  intros. unfold decode_field. rewrite decide_True by done. unfold decode_int32.
  by rewrite parse_int_itoa, decide_True.
Qed.

Lemma decode_field_block_hash c s :
  decode_field (c, None) (name_block_hash, JStr (bytes_of_string s)) =
  (mkCheckpoint (cp_Height c) s (cp_StartHeight c), None).
Proof.
  unfold decode_field. rewrite decide_False by done. rewrite decide_True by done.
  simpl. by rewrite string_of_bytes_of_string.
Qed.

Lemma decode_field_start_height c z : in_i32 z ->
  decode_field (c, None) (name_start_height, JNum (itoa_bytes z)) =
  (mkCheckpoint (cp_Height c) (cp_BlockHash c) z, None).
Proof.
  intros. unfold decode_field. do 2 rewrite decide_False by done.
  rewrite decide_True by done. unfold decode_int32.
  by rewrite parse_int_itoa, decide_True.
Qed.

Lemma json_Unmarshal_Marshal c : json_wf c ->
  json_Unmarshal (json_Marshal c) zeroCheckpoint = (c, None).
Proof.
  intros (Hh & Hs & Hp). unfold json_Unmarshal. rewrite json_parse_Marshal by done.
  rewrite foldl_app. cbn [foldl].
  rewrite decode_field_height, decode_field_block_hash by done.
  destruct (Z.eqb_spec (cp_StartHeight c) 0) as [E|E]; cbn [foldl].
  - destruct c; simpl in *. by subst.
  - rewrite decode_field_start_height by done. by destruct c.
Qed.

(** Hexadecimal text needs no escape. *)
Lemma plain_hex bs : plain (hex_encode bs).
Proof.
  unfold hex_encode, plain. induction bs as [|b bs IH]; [constructor|].
  rewrite bind_cons. apply Forall_app. split; [|done].
  destruct b; repeat constructor.
Qed.

Lemma plain_EncodeToString bs : plain (bytes_of_string (EncodeToString bs)).
Proof. unfold EncodeToString. rewrite bytes_of_string_of_bytes. apply plain_hex. Qed.

(** Unmarshalling leaves [int32] values in the integer fields. *)
Lemma decode_int32_range old v : in_i32 old -> in_i32 (decode_int32 old v).1.
Proof.
  intros Ho. unfold decode_int32. destruct v; try done. destruct (parse_int _); [|done].
  by case_decide.
Qed.

Lemma json_Unmarshal_i32 data c : in_i32 (cp_Height c) -> in_i32 (cp_StartHeight c) ->
  in_i32 (cp_Height (json_Unmarshal data c).1) /\ in_i32 (cp_StartHeight (json_Unmarshal data c).1).
Proof.
  intros Hh Hs. unfold json_Unmarshal. destruct (json_parse data) as [[| | | | |l]|]; try done.
  change c with (c, @None error).1 in Hh, Hs. revert Hh Hs. generalize (c, @None error).
  induction l as [|[k v] l IH]; intros [c1 e1]; [done|]. intros Hh Hs. cbn [foldl]. apply IH.
  all: unfold decode_field; cbn [fst] in *.
  all: pose proof (decode_int32_range (cp_Height c1) v Hh).
  all: pose proof (decode_int32_range (cp_StartHeight c1) v Hs).
  all: repeat case_decide; destruct (decode_int32 (cp_Height c1) v), (decode_string (cp_BlockHash c1) v),
    (decode_int32 (cp_StartHeight c1) v); done.
Qed.
