(* ===== verification/Pebble.v ===== *)
(** * The storage engine as the program relies on it

    [github.com/cockroachdb/pebble] is a library the sources call: the class
    [Pebble] lists the calls they make, [PebbleLaws] the documented behaviour
    they rely on (an ordered map of byte keys, atomic batches, iterators over
    a snapshot), [PebbleHealthy] the states in which no call fails.  [MemPebble]
    is a model of all three, an in-memory map with a fuse after which every
    call fails, so the laws are satisfiable with and without faults. *)

From Stdlib Require Import Strings.Byte.
From S2P Require Import Prelude Bytes Hex Keys.

Inductive batch_op : Type :=
| BSet (k v : bytes)
| BDelete (k : bytes).

Definition apply_op (m : gmap bytes bytes) (o : batch_op) : gmap bytes bytes :=
  match o with BSet k v => <[k := v]> m | BDelete k => delete k m end.

Definition apply_ops (ops : list batch_op) (m : gmap bytes bytes) : gmap bytes bytes :=
  foldl apply_op m ops.

(** The entries an iterator with these bounds visits, in key order. *)
Definition entry_le (a b : bytes * bytes) : Prop := bytes_le a.1 b.1.

#[export] Instance entry_le_dec a b : Decision (entry_le a b).
Proof. unfold entry_le. apply _. Defined.

Definition entries_in (lower : bytes) (upper : option bytes) (m : gmap bytes bytes) :
    list (bytes * bytes) :=
  merge_sort entry_le (filter (fun kv => in_bounds lower upper kv.1 = true) (map_to_list m)).

Definition pebble_ErrNotFound : error := ESentinel "pebble.ErrNotFound" "pebble: not found".

(** An iterator used as the sources do, [for iter.First(); iter.Valid();
    iter.Next()] followed by [iter.Error()]. *)
Record iterator := mkIterator {
  it_entries : list (bytes * bytes);
  it_Error : option error;
}.

Class Pebble := {
  pdb : Type;
  pbatch : Type;
  pebble_Get : bytes -> st pdb bytes;
  pebble_Set : bytes -> bytes -> st pdb unit;
  pebble_NewIter : bytes -> option bytes -> st pdb iterator;
  pebble_NewBatch : pbatch;
  batch_Set : pbatch -> bytes -> bytes -> result pbatch;
  batch_Delete : pbatch -> bytes -> result pbatch;
  batch_Commit : pbatch -> st pdb unit;
}.

Class PebbleLaws (P : Pebble) := {
  contents : pdb -> gmap bytes bytes;
  batch_ops : pbatch -> list batch_op;
  get_contents k w : contents (pebble_Get k w).2 = contents w;
  get_Ok k w v : (pebble_Get k w).1 = Ok v -> contents w !! k = Some v;
  get_NotFound k w : (pebble_Get k w).1 = Err pebble_ErrNotFound -> contents w !! k = None;
  set_Ok k v w : (pebble_Set k v w).1 = Ok () ->
    contents (pebble_Set k v w).2 = <[k := v]> (contents w);
  set_Err k v w : is_Ok (pebble_Set k v w).1 = false ->
    contents (pebble_Set k v w).2 = contents w \/
    contents (pebble_Set k v w).2 = <[k := v]> (contents w);
  iter_contents lo hi w : contents (pebble_NewIter lo hi w).2 = contents w;
  iter_entries_prefix lo hi w it : (pebble_NewIter lo hi w).1 = Ok it ->
    it_entries it `prefix_of` entries_in lo hi (contents w);
  iter_entries_all lo hi w it : (pebble_NewIter lo hi w).1 = Ok it ->
    it_Error it = None -> it_entries it = entries_in lo hi (contents w);
  batch_new : batch_ops pebble_NewBatch = [];
  batch_Set_Ok b k v b' : batch_Set b k v = Ok b' -> batch_ops b' = batch_ops b ++ [BSet k v];
  batch_Delete_Ok b k b' : batch_Delete b k = Ok b' -> batch_ops b' = batch_ops b ++ [BDelete k];
  commit_Ok b w : (batch_Commit b w).1 = Ok () ->
    contents (batch_Commit b w).2 = apply_ops (batch_ops b) (contents w);
  commit_Err b w : is_Ok (batch_Commit b w).1 = false ->
    contents (batch_Commit b w).2 = contents w \/
    contents (batch_Commit b w).2 = apply_ops (batch_ops b) (contents w);
}.

(** No call fails, except to say that a key is absent. *)
Class PebbleHealthy (P : Pebble) (L : PebbleLaws P) := {
  healthy : pdb -> Prop;
  healthy_get k w : healthy w -> healthy (pebble_Get k w).2 /\
    (pebble_Get k w).1 =
      match contents w !! k with Some v => Ok v | None => Err pebble_ErrNotFound end;
  healthy_set k v w : healthy w ->
    healthy (pebble_Set k v w).2 /\ (pebble_Set k v w).1 = Ok ();
  healthy_iter lo hi w : healthy w -> healthy (pebble_NewIter lo hi w).2 /\
    exists it, (pebble_NewIter lo hi w).1 = Ok it /\ it_Error it = None;
  healthy_commit b w : healthy w ->
    healthy (batch_Commit b w).2 /\ (batch_Commit b w).1 = Ok ();
  batch_Set_total b k v : exists b', batch_Set b k v = Ok b';
  batch_Delete_total b k : exists b', batch_Delete b k = Ok b';
}.

(** ** A model of the laws *)

Definition disk_error : error := ENew "pebble: disk failure".

(** A map, and the number of calls left before every call fails ([None]:
    never). *)
Record memdb := mkMemdb { mem_map : gmap bytes bytes; mem_fuse : option nat }.

Definition burn {A} (f : gmap bytes bytes -> result A * gmap bytes bytes) : st memdb A :=
  fun w =>
    match mem_fuse w with
    | Some O => (Err disk_error, w)
    | fuse => let '(r, m) := f (mem_map w) in (r, mkMemdb m (pred <$> fuse))
    end.

#[export] Instance MemPebble : Pebble := {
  pdb := memdb;
  pbatch := list batch_op;
  pebble_Get k := burn (fun m =>
    (match m !! k with Some v => Ok v | None => Err pebble_ErrNotFound end, m));
  pebble_Set k v := burn (fun m => (Ok (), <[k := v]> m));
  pebble_NewIter lo hi := burn (fun m => (Ok (mkIterator (entries_in lo hi m) None), m));
  pebble_NewBatch := [];
  batch_Set b k v := Ok (b ++ [BSet k v]);
  batch_Delete b k := Ok (b ++ [BDelete k]);
  batch_Commit b := burn (fun m => (Ok (), apply_ops b m));
}.

Section Burn.
Context {A : Type} (f : gmap bytes bytes -> result A * gmap bytes bytes).

(** A call through the fuse either does its work or fails and changes
    nothing. *)
Lemma burn_cases w :
  (burn f w).1 = Err disk_error /\ mem_map (burn f w).2 = mem_map w /\ mem_fuse w = Some O \/
  (burn f w).1 = (f (mem_map w)).1 /\ mem_map (burn f w).2 = (f (mem_map w)).2 /\
  (mem_fuse w = None -> mem_fuse (burn f w).2 = None).
Proof.
  unfold burn. destruct (mem_fuse w) as [[|n]|]; [by left|right|right];
    destruct (f (mem_map w)) as [r m]; simpl; split_and!; done.
Qed.
End Burn.

(** [by_burn]: a law of the in-memory model, by cases on the fuse. *)
Ltac by_burn :=
  intros; unfold pebble_Get, pebble_Set, pebble_NewIter, batch_Commit, pdb, MemPebble in *;
  let go f w :=
    (let E1 := fresh "E1" in let E2 := fresh "E2" in
     destruct (burn_cases f w) as [(E1 & E2 & ?E3)|(E1 & E2 & ?E3)];
     repeat match goal with
     | H : context [(burn f w).1] |- _ => lazymatch H with E1 => fail | _ => rewrite E1 in H end
     end; rewrite ?E1, ?E2; clear E1 E2) in
  match goal with
  | H : context [burn ?f ?w] |- _ => go f w
  | |- context [burn ?f ?w] => go f w
  end.

#[export, refine] Instance MemPebble_laws : PebbleLaws MemPebble := {
  contents := mem_map;
  batch_ops := id;
}.
Proof.
  - by_burn; done.
  - intros k w v. by_burn; [done|]. simpl in H. by destruct (mem_map w !! k); simplify_eq.
  - intros k w. by_burn; [done|]. simpl in H. by destruct (mem_map w !! k).
  - by_burn; done.
  - by_burn; [by left|done].
  - by_burn; done.
  - intros lo hi w it. by_burn; [done|]. simpl in H. by injection H as <-.
  - intros lo hi w it. by_burn; [done|]. simpl in H. by injection H as <-.
  - done.
  - intros b k v b' [= <-]. done.
  - intros b k b' [= <-]. done.
  - by_burn; done.
  - by_burn; [by left|done].
Defined.

#[export, refine] Instance MemPebble_healthy : PebbleHealthy MemPebble MemPebble_laws := {
  healthy w := mem_fuse w = None;
}.
Proof.
  - by_burn; [congruence|]. by split; [apply E3|].
  - by_burn; [congruence|]. by split; [apply E3|].
  - by_burn; [congruence|]. split; [by auto|]. by eexists.
  - by_burn; [congruence|]. by split; [apply E3|].
  - intros. by eexists.
  - intros. by eexists.
Defined.

(** A model state at the type the interface gives it. *)
Definition memory (m : gmap bytes bytes) (fuse : option nat) : @pdb MemPebble := mkMemdb m fuse.

(** ** Lemmas on batches and iterators *)

Lemma apply_ops_app a b m : apply_ops (a ++ b) m = apply_ops b (apply_ops a m).
Proof. apply foldl_app. Qed.

Lemma apply_ops_snoc a o m : apply_ops (a ++ [o]) m = apply_op (apply_ops a m) o.
Proof. by rewrite apply_ops_app. Qed.

Definition op_key (o : batch_op) : bytes := match o with BSet k _ => k | BDelete k => k end.
Definition op_value (o : batch_op) : option bytes :=
  match o with BSet _ v => Some v | BDelete _ => None end.

Lemma apply_op_lookup m o k :
  apply_op m o !! k = if decide (op_key o = k) then op_value o else m !! k.
Proof.
  destruct o; simpl; case_decide; subst;
    by rewrite ?lookup_insert_eq, ?lookup_delete_eq, ?lookup_insert_ne, ?lookup_delete_ne by done.
Qed.

(** A key the batch does not write keeps its value. *)
Lemma apply_ops_untouched ops m k :
  Forall (fun o => op_key o <> k) ops -> apply_ops ops m !! k = m !! k.
Proof.
  revert m; induction ops as [|o ops IH]; intros m; [done|].
  intros [Ho Hops]%Forall_cons. unfold apply_ops in *. simpl. rewrite IH by done.
  rewrite apply_op_lookup. by rewrite decide_False.
Qed.

#[export] Instance entry_le_trans : Transitive entry_le.
Proof. unfold entry_le. intros [a ?] [b ?] [c ?]; simpl. apply transitivity. Qed.
#[export] Instance entry_le_total : Total entry_le.
Proof. unfold entry_le. intros [a ?] [b ?]. simpl. apply total, _. Qed.

Lemma entries_in_spec lo hi m k v :
  (k, v) ∈ entries_in lo hi m <-> m !! k = Some v /\ in_bounds lo hi k = true.
Proof.
  unfold entries_in. rewrite merge_sort_Permutation, list_elem_of_filter, elem_of_map_to_list.
  simpl. tauto.
Qed.

Lemma entries_in_NoDup lo hi m : NoDup (entries_in lo hi m).*1.
Proof.
  unfold entries_in. rewrite merge_sort_Permutation.
  eapply sublist_NoDup; [apply (NoDup_fst_map_to_list m)|].
  apply fmap_sublist, sublist_filter.
Qed.

Lemma entries_in_sorted lo hi m : StronglySorted entry_le (entries_in lo hi m).
Proof. unfold entries_in. apply (StronglySorted_merge_sort entry_le). Qed.

Lemma apply_ops_deletes ks m k :
  apply_ops (BDelete <$> ks) m !! k = if decide (k ∈ ks) then None else m !! k.
Proof.
  revert m; induction ks as [|k' ks IH]; intros m; [done|].
  change (apply_ops (BDelete <$> k' :: ks) m) with (apply_ops (BDelete <$> ks) (delete k' m)).
  rewrite IH. destruct (decide (k = k')) as [->|Hne].
  - rewrite lookup_delete_eq, (decide_True (P := k' ∈ k' :: ks)) by set_solver. by case_decide.
  - rewrite lookup_delete_ne by done. by repeat case_decide; set_solver.
Qed.
