(* ===== verification/Store.v ===== *)
(** * The database layer: the methods of [storage.DB] in
    [internal/storage/storage.go]

    Each method is a computation over the engine's state [pdb]; a
    [*pebble.Batch] argument is threaded as a value, as every caller discards
    the batch after an error.  Opening and closing are not modelled. *)

From Stdlib Require Import Strings.Byte.
From S2P Require Import Prelude Bytes Hex Keys Values Json Checkpoint Pebble.

(** [github.com/klauspost/compress/zstd], and what the program relies on. *)
Class Zstd := {
  zstd_NewWriter : result unit;
  zstd_EncodeAll : bytes -> bytes;
  zstd_NewReader : result unit;
  zstd_DecodeAll : bytes -> result bytes;
}.

Class ZstdLaws (Z : Zstd) := {
  zstd_roundtrip data : zstd_DecodeAll (zstd_EncodeAll data) = Ok data;
  zstd_writer : zstd_NewWriter = Ok ();
  zstd_reader : zstd_NewReader = Ok ();
}.

(** Frames of one stored block, as the laws' model. *)
#[export] Instance StoredZstd : Zstd := {
  zstd_NewWriter := Ok ();
  zstd_EncodeAll data := x28 :: data;
  zstd_NewReader := Ok ();
  zstd_DecodeAll frame :=
    match frame with x28 :: data => Ok data | _ => Err (ENew "magic number mismatch") end;
}.

#[export, refine] Instance StoredZstd_laws : ZstdLaws StoredZstd := {}.
Proof. all: done. Defined.

Section Store.
Context {P : Pebble} {Zs : Zstd}.

(** [value, closer, err := db.pebble.Get(key)] where the method tests
    [err == pebble.ErrNotFound] before [err != nil]. *)
Definition get (key : bytes) : st pdb (result (option bytes)) := fun w =>
  let '(r, w) := pebble_Get key w in
  (Ok match r with
      | Ok v => Ok (Some v)
      | Err e => if decide (e = pebble_ErrNotFound) then Ok None else Err e
      end, w).

(** The shape most getters share: [notFound] when the key is absent, another
    error wrapped with [pre]. *)
Definition get_value (key : bytes) (notFound : error) (pre : string) : st pdb bytes :=
  r ← get key;
  match r with
  | Ok (Some value) => mret value
  | Ok None => st_fail notFound
  | Err e => st_fail (EWrap pre e "")
  end.

(** ** The checkpoint *)

Definition LoadCheckpoint : st pdb (Checkpoint * option error) :=
  r ← get KeyCheckpoint;
  mret match r with
  | Ok None => (zeroCheckpoint, None)
  | Err e => (zeroCheckpoint, Some (EWrap "failed to load checkpoint: " e ""))
  | Ok (Some value) =>
      let '(checkpoint, err) := json_Unmarshal value zeroCheckpoint in
      (checkpoint, (fun e => EWrap "failed to parse checkpoint: " e "") <$> err)
  end.

(** [json.Marshal] of a checkpoint does not fail. *)
Definition SaveCheckpoint (checkpoint : Checkpoint) : st pdb unit :=
  st_wrap "failed to save checkpoint: " (pebble_Set KeyCheckpoint (json_Marshal checkpoint)).

Definition SaveCheckpointInBatch (batch : pbatch) (checkpoint : Checkpoint) : result pbatch :=
  wrap "failed to add checkpoint to batch: "
    (batch_Set batch KeyCheckpoint (json_Marshal checkpoint)).

(** ** Headers *)

Definition check_header (header : bytes) : result unit :=
  check (bool_decide (length header = 80%nat))
    (ENew ("invalid header length: got " +:+ fmt_len header +:+ ", want 80")).

Definition SaveHeader (height : Z) (header : bytes) : st pdb unit :=
  _ ← st_lift (check_header header);
  key ← st_lift (wrap "failed to make header key: " (MakeHeaderKey height));
  st_wrap ("failed to save header at height " +:+ fmt_d height +:+ ": ") (pebble_Set key header).

Definition SaveHeaderInBatch (batch : pbatch) (height : Z) (header : bytes) : result pbatch :=
  _ ← check_header header;
  key ← wrap "failed to make header key: " (MakeHeaderKey height);
  wrap "failed to add header to batch: " (batch_Set batch key header).

Definition GetHeader (height : Z) : st pdb bytes :=
  key ← st_lift (wrap "failed to make header key: " (MakeHeaderKey height));
  get_value key (ENew ("header not found at height " +:+ fmt_d height))
    ("failed to get header at height " +:+ fmt_d height +:+ ": ").

Definition GetHeaderHex (height : Z) : st pdb string :=
  header ← GetHeader height; mret (EncodeToString header).

Definition DeleteHeaderInBatch (batch : pbatch) (height : Z) : result pbatch :=
  key ← wrap "failed to make header key: " (MakeHeaderKey height);
  wrap "failed to add header deletion to batch: " (batch_Delete batch key).

(** ** Block txids *)

Definition SaveBlockTxidsInBatch (batch : pbatch) (height : Z) (txids : list bytes) :
    result pbatch :=
  key ← MakeBlockTxidsKey height;
  buf ← encode_txids txids;
  wrap "failed to save block txids: " (batch_Set batch key buf).

Definition GetBlockTxids (height : Z) : st pdb (list bytes) :=
  key ← st_lift (MakeBlockTxidsKey height);
  value ← get_value key (ENew ("block txids not found at height " +:+ fmt_d height))
    ("failed to get block txids at height " +:+ fmt_d height +:+ ": ");
  st_lift (decode_txids value).

Definition DeleteBlockTxidsInBatch (batch : pbatch) (height : Z) : result pbatch :=
  key ← MakeBlockTxidsKey height;
  wrap "failed to delete block txids: " (batch_Delete batch key).

(** ** Transaction positions, blobs and offsets *)

Definition SaveTxPosInBatch (batch : pbatch) (txid : bytes) (height txIndex : Z) : result pbatch :=
  key ← MakeTxPosKey txid;
  wrap "failed to save tx position: " (batch_Set batch key (encode_txpos height txIndex)).

(** [None] is [(0, 0, false, nil)]. *)
Definition GetTxPos (txid : bytes) : st pdb (option (Z * Z)) :=
  key ← st_lift (MakeTxPosKey txid);
  r ← get key;
  match r with
  | Ok None => mret None
  | Err e => st_fail (EWrap "failed to get tx position: " e "")
  | Ok (Some value) => st_lift (Some <$> decode_txpos value)
  end.

Definition compressZstd (data : bytes) : result bytes :=
  _ ← zstd_NewWriter; Ok (zstd_EncodeAll data).

Definition decompressZstd (data : bytes) : result bytes :=
  _ ← zstd_NewReader; zstd_DecodeAll data.

Definition SaveTxBlobInBatch (batch : pbatch) (height : Z) (blob : bytes) : result pbatch :=
  key ← MakeTxBlobKey height;
  compressed ← wrap "failed to compress tx blob: " (compressZstd blob);
  wrap "failed to save tx blob: " (batch_Set batch key compressed).

Definition GetTxBlob (height : Z) : st pdb bytes :=
  key ← st_lift (MakeTxBlobKey height);
  value ← get_value key (ENew ("tx blob not found for height " +:+ fmt_d height))
    "failed to get tx blob: ";
  st_lift (wrap "failed to decompress tx blob: " (decompressZstd value)).

Definition SaveTxOffsetsInBatch (batch : pbatch) (height : Z) (offsets : list Z) : result pbatch :=
  key ← MakeTxOffsetsKey height;
  wrap "failed to save tx offsets: " (batch_Set batch key (encode_offsets offsets)).

Definition GetTxOffsets (height : Z) : st pdb (list Z) :=
  key ← st_lift (MakeTxOffsetsKey height);
  value ← get_value key (ENew ("tx offsets not found for height " +:+ fmt_d height))
    "failed to get tx offsets: ";
  st_lift (decode_offsets value).

(** ** UTXOs and the outpoint index *)

(** [None] is [(nil, nil)]. *)
Definition GetUTXO (scripthash txid : bytes) (vout : Z) : st pdb (option UTXOValue) :=
  key ← st_lift (wrap "failed to make UTXO key: " (MakeUTXOKey scripthash txid vout));
  r ← get key;
  match r with
  | Ok None => mret None
  | Err e => st_fail (EWrap "failed to get UTXO: " e "")
  | Ok (Some data) => st_lift (Some <$> DecodeUTXOValue data)
  end.

Definition GetScripthashForOutpoint (txid : bytes) (vout : Z) : st pdb (option bytes) :=
  key ← st_lift (wrap "failed to make tx index key: " (MakeTxIndexKey txid vout));
  r ← get key;
  match r with
  | Ok None => mret None
  | Err e => st_fail (EWrap "failed to get scripthash for outpoint: " e "")
  | Ok (Some value) => mret (Some value)
  end.

(** ** Iterators *)

Definition NewPrefixIterator (prefix : bytes) : st pdb iterator :=
  st_wrap "failed to create iterator: " (pebble_NewIter prefix (PrefixUpperBound prefix)).

Definition NewRangeIterator (lower : bytes) (upper : option bytes) : st pdb iterator :=
  st_wrap "failed to create iterator: " (pebble_NewIter lower upper).

(** ** Undo data *)

Definition SaveUndoInBatch (batch : pbatch) (undo : UndoBlock) (blockHash : bytes) :
    result pbatch :=
  key ← wrap "failed to make undo key: " (MakeUndoKey (ub_Height undo) blockHash);
  data ← wrap "failed to encode undo data: " (EncodeUndoBlock undo);
  wrap "failed to add undo data to batch: " (batch_Set batch key data).

Definition GetUndo (height : Z) (blockHash : bytes) : st pdb UndoBlock :=
  key ← st_lift (wrap "failed to make undo key: " (MakeUndoKey height blockHash));
  value ← get_value key (ENew ("undo data not found for block " +:+ fmt_d height))
    "failed to get undo data: ";
  st_lift (wrap "failed to parse undo data: " (DecodeUndoBlock value)).

Definition DeleteUndoInBatch (batch : pbatch) (height : Z) (blockHash : bytes) : result pbatch :=
  key ← wrap "failed to make undo key: " (MakeUndoKey height blockHash);
  wrap "failed to add undo deletion to batch: " (batch_Delete batch key).

(** The loop of [PruneUndoData]: the batch, the count and, on a failed
    [batch.Delete], the error that ends it. *)
Fixpoint prune_loop (maxHeightToKeep : Z) (batch : pbatch) (pruned : Z)
    (entries : list (bytes * bytes)) : pbatch * Z * option error :=
  match entries with
  | [] => (batch, pruned, None)
  | (key, _) :: entries =>
      match ParseUndoKey key with
      | Err _ => prune_loop maxHeightToKeep batch pruned entries
      | Ok (height, _) =>
          if height <? maxHeightToKeep then
            match batch_Delete batch key with
            | Err e =>
                (batch, pruned,
                 Some (EWrap ("failed to delete undo at height " +:+ fmt_d height +:+ ": ") e ""))
            | Ok batch => prune_loop maxHeightToKeep batch (pruned + 1) entries
            end
          else prune_loop maxHeightToKeep batch pruned entries
      end
  end.

Definition PruneUndoData (maxHeightToKeep : Z) : st pdb (Z * option error) :=
  it ← st_try (NewPrefixIterator [PrefixUndo]);
  match it with
  | Err e => mret (0, Some (EWrap "failed to create undo iterator: " e ""))
  | Ok it =>
      let '(batch, pruned, err) :=
        prune_loop maxHeightToKeep pebble_NewBatch 0 (it_entries it) in
      match err with
      | Some e => mret (pruned, Some e)
      | None =>
          match it_Error it with
          | Some e => mret (pruned, Some (EWrap "iterator error during prune: " e ""))
          | None =>
              if pruned >? 0 then
                r ← st_try (batch_Commit batch);
                mret match r with
                | Err e => (0, Some (EWrap "failed to commit prune batch: " e ""))
                | Ok _ => (pruned, None)
                end
              else mret (pruned, None)
          end
      end
  end.

End Store.

(** ** Lemmas *)

Section StoreLaws.
Context {P : Pebble} {PL : PebbleLaws P} {Zs : Zstd}.

(** Reads leave the contents alone. *)
Definition db_same (d d' : pdb) : Prop := contents d' = contents d.

#[export] Instance db_same_preorder : PreOrder db_same.
Proof. unfold db_same. split; [done|]. intros a b c H1 H2. by rewrite H2. Qed.

Lemma rel_Get k : st_rel db_same (pebble_Get k).
Proof. intros w. apply get_contents. Qed.
#[local] Hint Resolve rel_Get : st_rel.

Lemma rel_NewIter lo hi : st_rel db_same (pebble_NewIter lo hi).
Proof. intros w. apply iter_contents. Qed.
#[local] Hint Resolve rel_NewIter : st_rel.

Lemma rel_get k : st_rel db_same (get k).
Proof. intros w. pose proof (rel_Get k w). unfold get. by destruct (pebble_Get k w). Qed.
#[local] Hint Resolve rel_get : st_rel.

Lemma get_Some k w v w' : get k w = (Ok (Ok (Some v)), w') -> contents w !! k = Some v.
Proof.
  unfold get. pose proof (get_Ok k w) as H. destruct (pebble_Get k w) as [[v'|e] w1]; simpl in *.
  - intros [= -> ->]. by apply H.
  - case_decide; by intros [=].
Qed.

Lemma get_None k w w' : get k w = (Ok (Ok None), w') -> contents w !! k = None.
Proof.
  unfold get. pose proof (get_NotFound k w) as H. destruct (pebble_Get k w) as [[v'|e] w1]; simpl in *.
  - by intros [=].
  - case_decide; [|by intros [=]]. subst. by intros _; apply H.
Qed.

Lemma rel_get_value k e pre : st_rel db_same (get_value k e pre).
Proof. unfold get_value. solve_rel. Qed.
#[local] Hint Resolve rel_get_value : st_rel.

Lemma rel_LoadCheckpoint : st_rel db_same LoadCheckpoint.
Proof. unfold LoadCheckpoint. solve_rel. Qed.
#[local] Hint Resolve rel_LoadCheckpoint : st_rel.

Lemma LoadCheckpoint_i32 w c e w' : LoadCheckpoint w = (Ok (c, e), w') ->
  in_i32 (cp_Height c) /\ in_i32 (cp_StartHeight c).
Proof.
  unfold LoadCheckpoint. rewrite st_bind_Ok. intros (r & w1 & _ & H). injection H as H _.
  assert (H0 : in_i32 0) by (unfold in_i32; lia).
  destruct r as [[v|]|e']; [|by injection H as <- _..].
  pose proof (json_Unmarshal_i32 v zeroCheckpoint H0 H0) as Hj.
  destruct (json_Unmarshal v zeroCheckpoint) as [c1 e1]. by injection H as <- _.
Qed.

Lemma rel_GetHeader h : st_rel db_same (GetHeader h).
Proof. unfold GetHeader. solve_rel. Qed.
#[local] Hint Resolve rel_GetHeader : st_rel.

Lemma rel_GetUTXO sh t v : st_rel db_same (GetUTXO sh t v).
Proof. unfold GetUTXO. solve_rel. Qed.
#[local] Hint Resolve rel_GetUTXO : st_rel.

Lemma rel_GetScripthashForOutpoint t v : st_rel db_same (GetScripthashForOutpoint t v).
Proof. unfold GetScripthashForOutpoint. solve_rel. Qed.
#[local] Hint Resolve rel_GetScripthashForOutpoint : st_rel.

Lemma rel_GetUndo h bh : st_rel db_same (GetUndo h bh).
Proof. unfold GetUndo. solve_rel. Qed.
#[local] Hint Resolve rel_GetUndo : st_rel.

Lemma rel_GetBlockTxids h : st_rel db_same (GetBlockTxids h).
Proof. unfold GetBlockTxids. solve_rel. Qed.
#[local] Hint Resolve rel_GetBlockTxids : st_rel.

Lemma rel_NewPrefixIterator p : st_rel db_same (NewPrefixIterator p).
Proof. unfold NewPrefixIterator. solve_rel. Qed.
#[local] Hint Resolve rel_NewPrefixIterator : st_rel.

(** A commit leaves the contents as they were or applies the whole batch. *)
Lemma commit_cases b w :
  contents (batch_Commit b w).2 = contents w \/
  contents (batch_Commit b w).2 = apply_ops (batch_ops b) (contents w).
Proof.
  destruct (batch_Commit b w) as [[[]|e] w'] eqn:E; simpl.
  - right. pose proof (commit_Ok b w) as H. rewrite E in H. by apply H.
  - pose proof (commit_Err b w) as H. rewrite E in H. by apply H.
Qed.

Lemma commit_run_Ok b w w' : batch_Commit b w = (Ok (), w') ->
  contents w' = apply_ops (batch_ops b) (contents w).
Proof. intros E. pose proof (commit_Ok b w) as H. rewrite E in H. by apply H. Qed.

(** *** Healthy runs *)

Context {PH : PebbleHealthy P PL}.

Lemma get_healthy k w : healthy w -> exists w',
  get k w = (Ok (Ok (contents w !! k)), w') /\ healthy w' /\ contents w' = contents w.
Proof.
  intros Hw. pose proof (healthy_get k w Hw) as [H1 H2]. pose proof (get_contents k w) as H3.
  unfold get. destruct (pebble_Get k w) as [r w']; simpl in *. subst.
  exists w'. split; [|done]. by destruct (contents w !! k).
Qed.

Lemma get_value_healthy k e pre w v : healthy w -> contents w !! k = Some v ->
  exists w', get_value k e pre w = (Ok v, w') /\ healthy w' /\ contents w' = contents w.
Proof.
  intros Hw Hv. destruct (get_healthy k w Hw) as (w' & E & ? & ?).
  exists w'. split; [|done]. unfold get_value. rewrite (st_bind_run _ _ _ _ _ E). by rewrite Hv.
Qed.

(** [reads m w v]: the method [m] returns [v] and leaves the contents alone. *)
Definition reads {A} (m : st pdb A) (w : pdb) (v : A) : Prop :=
  exists w', m w = (Ok v, w') /\ healthy w' /\ contents w' = contents w.

Lemma reads_key {A} (mk : result bytes) k e pre (f : bytes -> result A) (bs : bytes) v w :
  healthy w -> mk = Ok k -> contents w !! k = Some bs -> f bs = Ok v ->
  reads (key ← st_lift mk; value ← get_value key e pre; st_lift (f value)) w v.
Proof.
  intros Hw -> Hk Hf. destruct (get_value_healthy k e pre w bs Hw Hk) as (w' & E & ? & ?).
  exists w'. split; [|done]. rewrite (st_bind_run (st_lift _) _ w k w) by done.
  rewrite (st_bind_run _ _ _ _ _ E). by rewrite Hf.
Qed.

Lemma reads_get {A} (mk : result bytes) k (f : result (option bytes) -> st pdb A) v w :
  healthy w -> mk = Ok k -> (forall w', contents w' = contents w -> f (Ok (contents w !! k)) w' = (Ok v, w')) ->
  reads (key ← st_lift mk; r ← get key; f r) w v.
Proof.
  intros Hw -> Hf. destruct (get_healthy k w Hw) as (w' & E & ? & ?).
  exists w'. split; [|done]. rewrite (st_bind_run (st_lift _) _ w k w) by done.
  rewrite (st_bind_run _ _ _ _ _ E). by apply Hf.
Qed.

Lemma reads_GetHeader h hd w : healthy w -> 0 <= h ->
  contents w !! (PrefixHeader :: be_encode 4 (u32 h)) = Some hd -> reads (GetHeader h) w hd.
Proof.
  intros Hw H0 Hk. unfold GetHeader. rewrite (proj2 (MakeHeaderKey_Ok h _) (conj H0 eq_refl)).
  destruct (get_value_healthy _ (ENew ("header not found at height " +:+ fmt_d h))
    ("failed to get header at height " +:+ fmt_d h +:+ ": ") w hd Hw Hk) as (w' & E & ? & ?).
  exists w'. split; [|done]. 
  by rewrite (st_bind_run (st_lift _) _ w (PrefixHeader :: be_encode 4 (u32 h)) w).
Qed.

Lemma GetHeader_absent h w : healthy w -> 0 <= h ->
  contents w !! (PrefixHeader :: be_encode 4 (u32 h)) = None ->
  exists e w', GetHeader h w = (Err e, w') /\ healthy w' /\ contents w' = contents w.
Proof.
  intros Hw H0 Hk. destruct (get_healthy (PrefixHeader :: be_encode 4 (u32 h)) w Hw) as (d & E & Hd & Hc).
  unfold GetHeader. rewrite (proj2 (MakeHeaderKey_Ok h _) (conj H0 eq_refl)).
  rewrite (st_bind_run (st_lift _) _ _ (PrefixHeader :: be_encode 4 (u32 h)) w) by done.
  unfold get_value. rewrite (st_bind_run _ _ _ _ _ E), Hk. by do 2 eexists.
Qed.

Lemma reads_GetBlockTxids h ts buf w : healthy w -> 0 <= h -> encode_txids ts = Ok buf ->
  contents w !! (PrefixBlockTx :: be_encode 4 (u32 h)) = Some buf -> reads (GetBlockTxids h) w ts.
Proof.
  intros Hw H0 He Hk. eapply reads_key; [done| |done|by apply decode_txids_encode].
  by apply MakeBlockTxidsKey_Ok.
Qed.

Lemma reads_GetTxPos t h i w : healthy w -> length t = 32%nat -> in_i32 h -> in_u32 i ->
  contents w !! (PrefixTxPos :: t) = Some (encode_txpos h i) -> reads (GetTxPos t) w (Some (h, i)).
Proof.
  intros Hw Hl Hh Hi Hk. eapply reads_get; [done|by apply MakeTxPosKey_Ok|].
  intros w' _. rewrite Hk. by rewrite decode_txpos_encode.
Qed.

Lemma reads_GetTxPos_absent t w : healthy w -> length t = 32%nat ->
  contents w !! (PrefixTxPos :: t) = None -> reads (GetTxPos t) w None.
Proof.
  intros Hw Hl Hk. eapply reads_get; [done|by apply MakeTxPosKey_Ok|]. intros w' _. by rewrite Hk.
Qed.

Lemma reads_GetTxBlob {ZL : ZstdLaws Zs} h blob z w : healthy w -> 0 <= h -> compressZstd blob = Ok z ->
  contents w !! (PrefixTxBlob :: be_encode 4 (u32 h)) = Some z -> reads (GetTxBlob h) w blob.
Proof.
  intros Hw H0 Hz Hk. eapply reads_key; [done|by apply MakeTxBlobKey_Ok|done|].
  unfold compressZstd in Hz. rewrite zstd_writer in Hz. injection Hz as <-.
  unfold decompressZstd. rewrite zstd_reader. cbn [mbind result_bind]. by rewrite zstd_roundtrip.
Qed.

Lemma reads_GetTxOffsets h offs w : healthy w -> 0 <= h -> Forall in_u32 offs ->
  contents w !! (PrefixTxOffs :: be_encode 4 (u32 h)) = Some (encode_offsets offs) ->
  reads (GetTxOffsets h) w offs.
Proof.
  intros Hw H0 Ho Hk. eapply reads_key; [done|by apply MakeTxOffsetsKey_Ok|done|].
  by apply decode_offsets_encode.
Qed.

Lemma commit_healthy b w : healthy w -> exists w',
  batch_Commit b w = (Ok (), w') /\ healthy w' /\
  contents w' = apply_ops (batch_ops b) (contents w).
Proof.
  intros Hw. pose proof (healthy_commit b w Hw) as [H1 H2]. pose proof (commit_Ok b w H2) as H3.
  destruct (batch_Commit b w) as [r w']; simpl in *. subst. by exists w'.
Qed.

Lemma iter_healthy lo hi w : healthy w -> exists it w',
  pebble_NewIter lo hi w = (Ok it, w') /\ healthy w' /\ contents w' = contents w /\
  it_Error it = None /\ it_entries it = entries_in lo hi (contents w).
Proof.
  intros Hw. pose proof (healthy_iter lo hi w Hw) as (H1 & it & H2 & H3).
  pose proof (iter_contents lo hi w) as H4. pose proof (iter_entries_all lo hi w it H2 H3) as H5.
  destruct (pebble_NewIter lo hi w) as [r w']; simpl in *. subst. by exists it, w'.
Qed.

End StoreLaws.

#[export] Hint Resolve rel_Get rel_NewIter rel_get rel_get_value rel_LoadCheckpoint rel_GetHeader
  rel_GetUTXO rel_GetScripthashForOutpoint rel_GetUndo rel_GetBlockTxids rel_NewPrefixIterator : st_rel.

(** *** Batches built by the [...InBatch] methods *)

(** [appends r b os]: on success the batch is [b] followed by [os]. *)
Definition appends {P : Pebble} {PL : PebbleLaws P} (r : result pbatch) (b : pbatch)
    (os : list batch_op) : Prop :=
  forall b', r = Ok b' -> batch_ops b' = batch_ops b ++ os.

Section InBatch.
Context {P : Pebble} {PL : PebbleLaws P} {Zs : Zstd}.

Lemma appends_Set pre b k v : appends (wrap pre (batch_Set b k v)) b [BSet k v].
Proof. intros b'. rewrite wrap_Ok. apply batch_Set_Ok. Qed.

Lemma appends_Delete pre b k : appends (wrap pre (batch_Delete b k)) b [BDelete k].
Proof. intros b'. rewrite wrap_Ok. apply batch_Delete_Ok. Qed.

Lemma SaveTxPosInBatch_Ok b t h i b' : SaveTxPosInBatch b t h i = Ok b' ->
  exists k, MakeTxPosKey t = Ok k /\ batch_ops b' = batch_ops b ++ [BSet k (encode_txpos h i)].
Proof.
  unfold SaveTxPosInBatch. rewrite bind_Ok. intros (k & Hk & H). exists k. split; [done|].
  by apply appends_Set in H.
Qed.

Lemma SaveHeaderInBatch_Ok b h hd b' : SaveHeaderInBatch b h hd = Ok b' ->
  length hd = 80%nat /\
  exists k, MakeHeaderKey h = Ok k /\ batch_ops b' = batch_ops b ++ [BSet k hd].
Proof.
  unfold SaveHeaderInBatch, check_header. rewrite bind_Ok. intros (u & Hu & H).
  apply check_Ok, bool_decide_eq_true in Hu. split; [done|].
  rewrite bind_Ok in H. destruct H as (k & Hk & H). apply wrap_Ok in Hk.
  exists k. split; [done|]. by apply appends_Set in H.
Qed.

Lemma SaveBlockTxidsInBatch_Ok b h ts b' : SaveBlockTxidsInBatch b h ts = Ok b' ->
  exists k buf, MakeBlockTxidsKey h = Ok k /\ encode_txids ts = Ok buf /\
    batch_ops b' = batch_ops b ++ [BSet k buf].
Proof.
  unfold SaveBlockTxidsInBatch. rewrite bind_Ok. intros (k & Hk & H).
  rewrite bind_Ok in H. destruct H as (buf & Hb & H). exists k, buf. split_and!; [done..|].
  by apply appends_Set in H.
Qed.

Lemma SaveTxBlobInBatch_Ok b h blob b' : SaveTxBlobInBatch b h blob = Ok b' ->
  exists k c, MakeTxBlobKey h = Ok k /\ compressZstd blob = Ok c /\
    batch_ops b' = batch_ops b ++ [BSet k c].
Proof.
  unfold SaveTxBlobInBatch. rewrite bind_Ok. intros (k & Hk & H).
  rewrite bind_Ok in H. destruct H as (c & Hb & H). apply wrap_Ok in Hb.
  exists k, c. split_and!; [done..|]. by apply appends_Set in H.
Qed.

Lemma SaveTxOffsetsInBatch_Ok b h offs b' : SaveTxOffsetsInBatch b h offs = Ok b' ->
  exists k, MakeTxOffsetsKey h = Ok k /\ batch_ops b' = batch_ops b ++ [BSet k (encode_offsets offs)].
Proof.
  unfold SaveTxOffsetsInBatch. rewrite bind_Ok. intros (k & Hk & H). exists k. split; [done|].
  by apply appends_Set in H.
Qed.

Lemma SaveUndoInBatch_Ok b u bh b' : SaveUndoInBatch b u bh = Ok b' ->
  exists k data, MakeUndoKey (ub_Height u) bh = Ok k /\ EncodeUndoBlock u = Ok data /\
    batch_ops b' = batch_ops b ++ [BSet k data].
Proof.
  unfold SaveUndoInBatch. rewrite bind_Ok. intros (k & Hk & H). apply wrap_Ok in Hk.
  rewrite bind_Ok in H. destruct H as (d & Hd & H). apply wrap_Ok in Hd.
  exists k, d. split_and!; [done..|]. by apply appends_Set in H.
Qed.

Lemma SaveCheckpointInBatch_Ok b c b' : SaveCheckpointInBatch b c = Ok b' ->
  batch_ops b' = batch_ops b ++ [BSet KeyCheckpoint (json_Marshal c)].
Proof. apply appends_Set. Qed.

Lemma DeleteHeaderInBatch_Ok b h b' : DeleteHeaderInBatch b h = Ok b' ->
  exists k, MakeHeaderKey h = Ok k /\ batch_ops b' = batch_ops b ++ [BDelete k].
Proof.
  unfold DeleteHeaderInBatch. rewrite bind_Ok. intros (k & Hk & H). apply wrap_Ok in Hk.
  exists k. split; [done|]. by apply appends_Delete in H.
Qed.

Lemma DeleteBlockTxidsInBatch_Ok b h b' : DeleteBlockTxidsInBatch b h = Ok b' ->
  exists k, MakeBlockTxidsKey h = Ok k /\ batch_ops b' = batch_ops b ++ [BDelete k].
Proof.
  unfold DeleteBlockTxidsInBatch. rewrite bind_Ok. intros (k & Hk & H).
  exists k. split; [done|]. by apply appends_Delete in H.
Qed.

Lemma DeleteUndoInBatch_Ok b h bh b' : DeleteUndoInBatch b h bh = Ok b' ->
  exists k, MakeUndoKey h bh = Ok k /\ batch_ops b' = batch_ops b ++ [BDelete k].
Proof.
  unfold DeleteUndoInBatch. rewrite bind_Ok. intros (k & Hk & H). apply wrap_Ok in Hk.
  exists k. split; [done|]. by apply appends_Delete in H.
Qed.

End InBatch.

(** ** Pruning undo data *)

(** The keys [PruneUndoData] is to remove. *)
Definition prunable (maxHeightToKeep : Z) (k : bytes) : bool :=
  match ParseUndoKey k with Ok (height, _) => height <? maxHeightToKeep | Err _ => false end.

Section Prune.
Context {P : Pebble} {PL : PebbleLaws P}.

Lemma prune_loop_None mx b n es b' n' : prune_loop mx b n es = (b', n', None) ->
  let ks := filter (fun k => prunable mx k = true) es.*1 in
  batch_ops b' = batch_ops b ++ (BDelete <$> ks) /\ n' = n + Z.of_nat (length ks).
Proof.
  revert b n; induction es as [|[k v] es IH]; intros b n.
  { intros [= -> ->]. simpl. rewrite app_nil_r. split; [done|lia]. }
  cbn [prune_loop]. rewrite fmap_cons. cbn [fst].
  rewrite filter_cons. case_decide as Hp; unfold prunable in Hp;
    destruct (ParseUndoKey k) as [[h bh]|e]; try done; try (by apply IH);
    destruct (h <? mx); try done; try (by apply IH).
  destruct (batch_Delete b k) as [b1|e] eqn:E; [|done].
  intros [H1 H2]%IH. apply batch_Delete_Ok in E. rewrite H1, E, <- app_assoc.
  split; [done|]. rewrite H2, length_cons. lia.
Qed.

Lemma prunable_in_bounds mx k : prunable mx k = true ->
  in_bounds [PrefixUndo] (PrefixUpperBound [PrefixUndo]) k = true.
Proof.
  unfold prunable. destruct (ParseUndoKey k) as [[h bh]|e] eqn:E; [|done]. intros _.
  apply ParseUndoKey_Ok in E as (_ & _ & ->). apply Is_true_true.
  apply in_bounds_prefix_long; [simpl; lia|]. by eexists.
Qed.

Lemma prunable_entries mx m :
  filter (fun kv => prunable mx kv.1 = true)
    (entries_in [PrefixUndo] (PrefixUpperBound [PrefixUndo]) m) ≡ₚ
  filter (fun kv => prunable mx kv.1 = true) (map_to_list m).
Proof.
  unfold entries_in. rewrite merge_sort_Permutation, list_filter_filter.
  rewrite (list_filter_iff _ (fun kv => prunable mx kv.1 = true)); [done|].
  intros [k v]. simpl. split; [tauto|]. intros H. split; [done|by eapply prunable_in_bounds].
Qed.

Lemma filter_fst mx (es : list (bytes * bytes)) :
  filter (fun k => prunable mx k = true) es.*1 = (filter (fun kv => prunable mx kv.1 = true) es).*1.
Proof.
  induction es as [|[k v] es IH]; [done|]. rewrite fmap_cons, !filter_cons. cbn [fst].
  case_decide; by rewrite ?fmap_cons, IH.
Qed.

(** The contents after the deletions, and how many there are. *)
Lemma prune_contents mx m ks :
  ks = filter (fun k => prunable mx k = true)
         (entries_in [PrefixUndo] (PrefixUpperBound [PrefixUndo]) m).*1 ->
  apply_ops (BDelete <$> ks) m = filter (fun kv => prunable mx kv.1 = false) m /\
  length ks = size (filter (fun kv => prunable mx kv.1 = true) m).
Proof.
  intros ->. rewrite filter_fst. split.
  - apply map_eq. intros k. rewrite apply_ops_deletes.
    destruct (filter (fun kv => prunable mx kv.1 = false) m !! k) as [v|] eqn:E.
    + apply map_lookup_filter_Some in E as [Hk Hp]. rewrite decide_False; [done|].
      rewrite prunable_entries. intros ([k' v'] & -> & Hin)%list_elem_of_fmap.
      apply list_elem_of_filter in Hin as [Hin _]. simpl in *. congruence.
    + case_decide as Hin; [done|]. apply map_lookup_filter_None in E as [E|E]; [done|].
      destruct (m !! k) as [v|] eqn:Hk; [|done]. destruct Hin. rewrite prunable_entries.
      apply list_elem_of_fmap. exists (k, v). split; [done|]. apply list_elem_of_filter.
      split; [|by apply elem_of_map_to_list]. specialize (E v eq_refl). simpl in *.
      by destruct (prunable mx k).
  - rewrite length_fmap, prunable_entries, <- length_map_to_list.
    by rewrite (map_to_list_filter (fun kv => prunable mx kv.1 = true)).
Qed.

Lemma NewPrefixIterator_cases p w :
  contents (NewPrefixIterator p w).2 = contents w /\
  match (NewPrefixIterator p w).1 with
  | Ok it => it_entries it `prefix_of` entries_in p (PrefixUpperBound p) (contents w) /\
      (it_Error it = None -> it_entries it = entries_in p (PrefixUpperBound p) (contents w))
  | Err _ => True
  end.
Proof.
  split; [apply rel_NewPrefixIterator|]. unfold NewPrefixIterator, st_wrap.
  pose proof (iter_entries_all p (PrefixUpperBound p) w) as H.
  pose proof (iter_entries_prefix p (PrefixUpperBound p) w) as H'.
  destruct (pebble_NewIter p (PrefixUpperBound p) w) as [[it|e] w1]; simpl; [|done]. auto.
Qed.

(** What a run of [PruneUndoData] can do, whatever fails. *)
Lemma PruneUndoData_cases mx w :
  let m := contents w in
  let m' := filter (fun kv => prunable mx kv.1 = false) m in
  exists n err w', PruneUndoData mx w = (Ok (n, err), w') /\
    (contents w' = m \/ contents w' = m') /\
    (err = None -> contents w' = m' /\
       n = Z.of_nat (size (filter (fun kv => prunable mx kv.1 = true) m))).
Proof.
  intros m m'. unfold PruneUndoData.
  pose proof (NewPrefixIterator_cases [PrefixUndo] w) as [Hc Hi].
  destruct (NewPrefixIterator [PrefixUndo] w) as [r w1] eqn:E1. simpl in Hc, Hi.
  rewrite (st_bind_run (st_try _) _ w r w1) by (unfold st_try; by rewrite E1).
  destruct r as [it|e].
  2:{ eexists _, _, w1. split; [done|]. rewrite Hc. split; [by left|done]. }
  destruct (prune_loop mx pebble_NewBatch 0 (it_entries it)) as [[batch pruned] [e|]] eqn:El.
  { eexists _, _, w1. split; [done|]. rewrite Hc. split; [by left|done]. }
  apply prune_loop_None in El as [Hops Hn]. rewrite batch_new in Hops.
  destruct (it_Error it) as [e|].
  { eexists _, _, w1. split; [done|]. rewrite Hc. split; [by left|done]. }
  destruct (prune_contents mx m _ (f_equal (fun l => filter _ l.*1) (proj2 Hi eq_refl)))
    as [Hm Hlen]. fold m' in Hm. rewrite app_nil_l in Hops.
  destruct (Z.gtb_spec pruned 0) as [Hpos|Hz].
  - pose proof (commit_cases batch w1) as Hcc. pose proof (commit_Ok batch w1) as Hco.
    destruct (batch_Commit batch w1) as [r w2] eqn:E2. simpl in Hcc, Hco.
    rewrite Hops, Hc in Hcc, Hco. fold m in Hcc, Hco. rewrite Hm in Hcc, Hco.
    rewrite (st_bind_run (st_try _) _ w1 r w2) by (unfold st_try; by rewrite E2).
    destruct r as [[]|e]; eexists _, _, w2; (split; [done|]); (split; [done|]); [|done].
    intros _. split; [by apply Hco|]. lia.
  - eexists _, _, w1. split; [done|]. rewrite Hc. split; [by left|]. intros _.
    assert (Hsz : size (filter (fun kv => prunable mx kv.1 = true) m) = 0%nat) by lia.
    split; [|lia]. unfold m'. symmetry. apply map_filter_id. intros k v Hk. simpl.
    apply map_size_empty_inv in Hsz. destruct (prunable mx k) eqn:Hp; [|done]. exfalso.
    by apply (map_filter_empty_not_lookup _ m k v Hsz).
Qed.

End Prune.

(** ** Properties of the database layer *)

Section Checkpoints.
Context {P : Pebble} {PL : PebbleLaws P} {PH : PebbleHealthy P PL}.

Lemma LoadCheckpoint_absent w : healthy w -> contents w !! KeyCheckpoint = None ->
  exists w', LoadCheckpoint w = (Ok (zeroCheckpoint, None), w') /\ healthy w' /\
    contents w' = contents w.
Proof.
  intros Hw Hk. destruct (get_healthy KeyCheckpoint w Hw) as (w' & E & ? & ?).
  exists w'. split; [|done]. unfold LoadCheckpoint. rewrite (st_bind_run _ _ _ _ _ E). by rewrite Hk.
Qed.

Lemma LoadCheckpoint_present w c : healthy w -> json_wf c ->
  contents w !! KeyCheckpoint = Some (json_Marshal c) ->
  exists w', LoadCheckpoint w = (Ok (c, None), w') /\ healthy w' /\ contents w' = contents w.
Proof.
  intros Hw Hc Hk. destruct (get_healthy KeyCheckpoint w Hw) as (w' & E & ? & ?).
  exists w'. split; [|done]. unfold LoadCheckpoint. rewrite (st_bind_run _ _ _ _ _ E). rewrite Hk.
  by rewrite json_Unmarshal_Marshal.
Qed.

Lemma SaveCheckpoint_healthy w c : healthy w ->
  exists w', SaveCheckpoint c w = (Ok (), w') /\ healthy w' /\
    contents w' = <[KeyCheckpoint := json_Marshal c]> (contents w).
Proof.
  intros Hw. pose proof (healthy_set KeyCheckpoint (json_Marshal c) w Hw) as [H1 H2].
  pose proof (set_Ok _ _ _ H2) as H3. unfold SaveCheckpoint, st_wrap.
  destruct (pebble_Set KeyCheckpoint (json_Marshal c) w) as [r w']; simpl in *. subst. by exists w'.
Qed.

(** A saved checkpoint is loaded back as it was, and a database without
    one loads as the zero checkpoint, without an error; nothing else in the
    database changes. *)
Theorem checkpoint_saved_is_loaded (c : Checkpoint) (hash : bytes) (w : pdb)
    (Hw : healthy w) (Hh : in_i32 (cp_Height c)) (Hs : in_i32 (cp_StartHeight c))
    (Hb : cp_BlockHash c = EncodeToString hash) :
  (exists w1 w2, SaveCheckpoint c w = (Ok (), w1) /\ LoadCheckpoint w1 = (Ok (c, None), w2) /\
     forall k, k <> KeyCheckpoint -> contents w2 !! k = contents w !! k) /\
  (contents w !! KeyCheckpoint = None ->
     exists w1, LoadCheckpoint w = (Ok (zeroCheckpoint, None), w1)).
Proof.
  split.
  - destruct (SaveCheckpoint_healthy w c Hw) as (w1 & E1 & Hw1 & Hc1).
    destruct (LoadCheckpoint_present w1 c Hw1) as (w2 & E2 & _ & Hc2).
    { unfold json_wf. rewrite Hb. auto using plain_EncodeToString. }
    { by rewrite Hc1, lookup_insert_eq. }
    exists w1, w2. split_and!; [done..|]. intros k Hk. by rewrite Hc2, Hc1, lookup_insert_ne.
  - intros Hk. destruct (LoadCheckpoint_absent w Hw Hk) as (w1 & E & _). by exists w1.
Qed.

End Checkpoints.

Definition sample_checkpoint : Checkpoint :=
  mkCheckpoint 840000 (EncodeToString sample_hash) 839000.

Lemma checkpoint_saved_is_loaded_witness :
  (exists w1 w2, SaveCheckpoint sample_checkpoint (memory ∅ None) = (Ok (), w1) /\
     LoadCheckpoint w1 = (Ok (sample_checkpoint, None), w2) /\
     forall k, k <> KeyCheckpoint -> contents w2 !! k = contents (memory ∅ None) !! k) /\
  (contents (memory ∅ None) !! KeyCheckpoint = None ->
     exists w1, LoadCheckpoint (memory ∅ None) = (Ok (zeroCheckpoint, None), w1)).
Proof.
  apply (checkpoint_saved_is_loaded sample_checkpoint sample_hash (memory ∅ None));
    [reflexivity | apply (bool_decide_eq_true_1 _); vm_compute; reflexivity
    | apply (bool_decide_eq_true_1 _); vm_compute; reflexivity | reflexivity].
Defined.

Section PruneProperty.
Context {P : Pebble} {PL : PebbleLaws P}.

(** [PruneUndoData] removes exactly the undo records below the given
    height, nothing else, and reports how many; when a call on the engine
    fails, it has removed all of them or none. *)
Theorem prune_removes_exactly (mx : Z) (w : pdb) :
  let kept := filter (fun kv => prunable mx kv.1 = false) (contents w) in
  exists n err w', PruneUndoData mx w = (Ok (n, err), w') /\
    (contents w' = contents w \/ contents w' = kept) /\
    (err = None -> contents w' = kept /\
       n = Z.of_nat (size (filter (fun kv => prunable mx kv.1 = true) (contents w)))) /\
    forall h bh k, 0 <= h < 2 ^ 31 -> MakeUndoKey h bh = Ok k -> prunable mx k = (h <? mx).
Proof.
  destruct (PruneUndoData_cases mx w) as (n & err & w' & E & Hc & Hn).
  exists n, err, w'. split_and!; [done..|].
  intros h bh k Hh (Hl & _ & ->)%MakeUndoKey_Ok. unfold prunable.
  rewrite ParseUndoKey_layout; [done| |done]. unfold in_i32. lia.
Qed.

End PruneProperty.

Definition sample_undo_key (h : Z) : bytes :=
  match MakeUndoKey h sample_hash with Ok k => k | Err _ => [] end.

Definition sample_prune_db : gmap bytes bytes :=
  <[sample_undo_key 7 := []]> (<[sample_undo_key 9 := []]> (<[sample_history_key := []]> ∅)).

Lemma prune_removes_exactly_witness :
  exists n err w', PruneUndoData 8 (memory sample_prune_db (Some 1%nat)) = (Ok (n, err), w') /\
    (contents w' = sample_prune_db \/
     contents w' = filter (fun kv => prunable 8 kv.1 = false) sample_prune_db).
Proof.
  destruct (prune_removes_exactly 8 (memory sample_prune_db (Some 1%nat)))
    as (n & err & w' & H1 & H2 & _).
  exists n, err, w'. split; [exact H1 | exact H2].
Defined.
