(* ===== verification/Sha256.v ===== *)
(** * SHA-256: [crypto/sha256] of the standard library

    [Sum256] as FIPS 180-4 defines it, on 32-bit words kept as [Z] below
    2^32. *)

From Stdlib Require Import Strings.Byte.
From S2P Require Import Prelude Bytes Hex.

Definition add32 (a b : Z) : Z := u32 (a + b).

Definition rotr (n x : Z) : Z :=
  Z.lor (Z.shiftr x n) (u32 (Z.shiftl x (32 - n))).

Definition sha_ch (x y z : Z) : Z := Z.lxor (Z.land x y) (Z.land (Z.lxor x (2 ^ 32 - 1)) z).
Definition sha_maj (x y z : Z) : Z := Z.lxor (Z.lxor (Z.land x y) (Z.land x z)) (Z.land y z).
Definition big_sigma0 (x : Z) : Z := Z.lxor (Z.lxor (rotr 2 x) (rotr 13 x)) (rotr 22 x).
Definition big_sigma1 (x : Z) : Z := Z.lxor (Z.lxor (rotr 6 x) (rotr 11 x)) (rotr 25 x).
Definition small_sigma0 (x : Z) : Z := Z.lxor (Z.lxor (rotr 7 x) (rotr 18 x)) (Z.shiftr x 3).
Definition small_sigma1 (x : Z) : Z := Z.lxor (Z.lxor (rotr 17 x) (rotr 19 x)) (Z.shiftr x 10).

(** *** The constants

    FIPS 180-4 takes the first 32 bits of the fractional parts of the cube
    roots of the first 64 primes, and of the square roots of the first 8. *)

Definition is_prime (n : nat) : bool :=
  (2 <=? n)%nat && forallb (fun d => negb (n mod d =? 0)%nat) (seq 2 (n - 2)).

Definition primes_below_312 : list Z :=
  Z.of_nat <$> filter (fun n => is_prime n = true) (seq 0 312).

(** The largest [r] below [2 ^ bits] with [r ^ 3 <= n], bit by bit. *)
Fixpoint cube_root (bits : nat) (r n : Z) : Z :=
  match bits with
  | O => r
  | S bits =>
      let r' := r + 2 ^ Z.of_nat bits in
      cube_root bits (if r' * r' * r' <=? n then r' else r) n
  end.

Definition sha_k : list Z := Eval vm_compute in
  (fun p => u32 (cube_root 36 0 (p * 2 ^ 96))) <$> primes_below_312.

Definition sha_h0 : list Z := Eval vm_compute in
  (fun p => u32 (Z.sqrt (p * 2 ^ 64))) <$> take 8 primes_below_312.

Record sha_state := mkSha { sa : Z; sb : Z; sc : Z; sd : Z; se : Z; sf : Z; sg : Z; sh : Z }.

Definition sha_init : sha_state :=
  let h i := sha_h0 !!! i in
  mkSha (h 0%nat) (h 1%nat) (h 2%nat) (h 3%nat) (h 4%nat) (h 5%nat) (h 6%nat) (h 7%nat).

(** The message schedule, newest word first. *)
Fixpoint schedule (n : nat) (w : list Z) : list Z :=
  match n with
  | O => w
  | S n =>
      let t := add32 (add32 (small_sigma1 (w !!! 1%nat)) (w !!! 6%nat))
                     (add32 (small_sigma0 (w !!! 14%nat)) (w !!! 15%nat)) in
      schedule n (t :: w)
  end.

Definition sha_round (s : sha_state) (kw : Z * Z) : sha_state :=
  let t1 := add32 (add32 (sh s) (big_sigma1 (se s)))
                  (add32 (sha_ch (se s) (sf s) (sg s)) (add32 kw.1 kw.2)) in
  let t2 := add32 (big_sigma0 (sa s)) (sha_maj (sa s) (sb s) (sc s)) in
  mkSha (add32 t1 t2) (sa s) (sb s) (sc s) (add32 (sd s) t1) (se s) (sf s) (sg s).

(** One 64-byte block. *)
Definition sha_compress (s : sha_state) (block : bytes) : sha_state :=
  let w0 := (fun i => be_decode (slice (4 * i) (4 * i + 4) block)) <$> seq 0 16 in
  let w := reverse (schedule 48 (reverse w0)) in
  let t := foldl sha_round s (zip sha_k w) in
  mkSha (add32 (sa s) (sa t)) (add32 (sb s) (sb t)) (add32 (sc s) (sc t)) (add32 (sd s) (sd t))
        (add32 (se s) (se t)) (add32 (sf s) (sf t)) (add32 (sg s) (sg t)) (add32 (sh s) (sh t)).

(** A one bit, zeros, and the length in bits in eight bytes. *)
Definition sha_pad (msg : bytes) : bytes :=
  let zeros := Z.to_nat ((55 - Z.of_nat (length msg)) `mod` 64) in
  msg ++ x80 :: replicate zeros x00 ++ be_encode 8 (u64 (8 * Z.of_nat (length msg))).

Definition Sum256 (msg : bytes) : bytes :=
  let p := sha_pad msg in
  let s := foldl (fun s i => sha_compress s (slice (64 * i) (64 * i + 64) p)) sha_init
             (seq 0 (length p / 64)) in
  be_encode 4 (sa s) ++ be_encode 4 (sb s) ++ be_encode 4 (sc s) ++ be_encode 4 (sd s) ++
  be_encode 4 (se s) ++ be_encode 4 (sf s) ++ be_encode 4 (sg s) ++ be_encode 4 (sh s).

Lemma length_Sum256 msg : length (Sum256 msg) = 32%nat.
Proof. unfold Sum256. len. Qed.

(** The padded message is a whole number of blocks. *)
Lemma length_sha_pad msg : (length (sha_pad msg) `mod` 64)%nat = 0%nat.
Proof.
  unfold sha_pad. rewrite !length_app, length_cons, length_app, length_replicate, length_be_encode.
  apply Nat2Z.inj. rewrite Nat2Z.inj_mod, !Nat2Z.inj_add, Nat2Z.inj_succ, Nat2Z.inj_add.
  rewrite Z2Nat.id by (apply Z.mod_pos_bound; lia).
  set (n := Z.of_nat (length msg)). pose proof (Z.mod_eq (55 - n) 64 ltac:(lia)) as ->.
  set (q := (55 - n) / 64).
  change (Z.of_nat 8) with 8. change (Z.of_nat 64) with 64. change (Z.of_nat 0) with 0.
  replace (n + Z.succ (55 - n - 64 * q + 8)) with ((1 - q) * 64) by lia.
  apply Z.mod_mul. lia.
Qed.

Lemma Sum256_abc :
  EncodeToString (Sum256 (bytes_of_string "abc")) =
  "ba7816bf8f01cfea414140de5dae2223b00361a396177a9cb410ff61f20015ad"%string.
Proof. vm_compute. reflexivity. Qed.

Lemma Sum256_two_blocks :
  EncodeToString (Sum256 (bytes_of_string
    "abcdbcdecdefdefgefghfghighijhijkijkljklmklmnlmnomnopnopq")) =
  "248d6a61d20638b8e5c026930c3e6039a33ce45964ff2167f6ecedd419db06c1"%string.
Proof. vm_compute. reflexivity. Qed.

#[global] Opaque Sum256.
