(* ===== verification/Types.v ===== *)
(** * Bitcoin data as the indexer sees it: [internal/indexer/types.go]

    The messages of [github.com/btcsuite/btcd] are a library: the class [Btcd]
    has the fields and methods the sources use, [BtcdLaws] what they rely on.
    [ModelBtcd] is an instance in which a message carries its own hash. *)

From Stdlib Require Import Strings.Byte.
From S2P Require Import Prelude Bytes Hex Sha256.

(** A Go run-time panic ends the computation as an error does. *)
Definition go_panic (what : string) : error := ESentinel "panic" what.
Definition is_panic (e : error) : bool := errors_Is e "panic".

(** [s[:16]] *)
Definition string_take16 (s : string) : result string :=
  if decide (16 <= slen s)%nat then Ok (string_of_bytes (take 16 (bytes_of_string s)))
  else Err (go_panic "slice bounds out of range").

Record OutPoint := mkOutPoint { op_Hash : bytes; op_Index : Z }.
Record TxOut := mkTxOut { to_Value : Z; to_PkScript : bytes }.

(** [chainhash.Hash{}] *)
Definition zero_hash : bytes := replicate 32 x00.

Class Btcd := {
  MsgTx : Type;
  MsgBlock : Type;
  BlockHeader : Type;
  hash_String : bytes -> string;                (* chainhash.Hash.String *)
  hash_IsEqual : bytes -> bytes -> bool;        (* chainhash.Hash.IsEqual *)
  DoubleHashB : bytes -> bytes;                 (* chainhash.DoubleHashB *)
  tx_TxIn : MsgTx -> list OutPoint;             (* each input's PreviousOutPoint *)
  tx_TxOut : MsgTx -> list TxOut;
  TxHash : MsgTx -> bytes;
  tx_Serialize : MsgTx -> result bytes;
  block_Header : MsgBlock -> BlockHeader;
  block_Transactions : MsgBlock -> list MsgTx;
  header_PrevBlock : BlockHeader -> bytes;
  header_BlockHash : BlockHeader -> bytes;
  header_Serialize : BlockHeader -> result bytes;
  header_Deserialize : bytes -> result BlockHeader;
}.

Class BtcdLaws (B : Btcd) := {
  hash_String_hex h : length h = 32%nat -> hash_String h = EncodeToString (reverse h);
  hash_IsEqual_eq a b : hash_IsEqual a b = true <-> a = b;
  length_DoubleHashB b : length (DoubleHashB b) = 32%nat;
  tx_TxIn_wf t i : i ∈ tx_TxIn t -> length (op_Hash i) = 32%nat /\ in_u32 (op_Index i);
  tx_TxOut_wf t o : o ∈ tx_TxOut t -> in_i64 (to_Value o);
  tx_TxOut_count t : Z.of_nat (length (tx_TxOut t)) < 2 ^ 32;
  length_TxHash t : length (TxHash t) = 32%nat;
  length_PrevBlock h : length (header_PrevBlock h) = 32%nat;
  length_BlockHash h : length (header_BlockHash h) = 32%nat;
  length_header h bs : header_Serialize h = Ok bs -> length bs = 80%nat;
  header_Deserialize_Serialize h bs :
    header_Serialize h = Ok bs -> header_Deserialize bs = Ok h;
}.

(** ** Conversions *)

(** A [chainhash.Hash] is a 32-byte array; the copy is the same bytes. *)
Definition TxidFromHash (hash : bytes) : bytes := hash.
Definition BlockHashFromHash (hash : bytes) : bytes := hash.

Definition ComputeScripthash (script : bytes) : bytes := reverse32 (Sum256 script).

Definition ComputeScripthashHex (script : bytes) : string :=
  EncodeToString (ComputeScripthash script).

Definition ScripthashFromHex (s : string) : result bytes :=
  bs ← DecodeString s;
  if decide (length bs <> 32%nat) then Err ErrLength else Ok bs.

Definition TxidToHex (txid : bytes) : string :=
  if decide (length txid <> 32%nat) then "" else EncodeToString (reverse32 txid).

Definition TxidFromHex (s : string) : result bytes :=
  bs ← DecodeString s;
  if decide (length bs <> 32%nat) then Err ErrLength else Ok (reverse32 bs).

Definition BlockHashToHex (hash : bytes) : string :=
  if decide (length hash <> 32%nat) then "" else EncodeToString (reverse32 hash).

Definition BlockHashFromHex (s : string) : result bytes := TxidFromHex s.

Definition IsOpReturn (script : bytes) : bool :=
  match script with [] => false | b :: _ => bool_decide (b = x6a) end.

Section Inputs.
Context {B : Btcd}.

Definition IsCoinbaseInput (txIn : OutPoint) : bool := hash_IsEqual (op_Hash txIn) zero_hash.

(** ** The chain state *)

Record ChainState := mkChainState { cs_Height : Z; cs_BlockHash : bytes }.

Definition IsEmpty (cs : ChainState) : bool :=
  (cs_Height cs <? 0) || hash_IsEqual (cs_BlockHash cs) zero_hash.

Definition ChainState_String (cs : ChainState) : result string :=
  if IsEmpty cs then Ok "ChainState{empty}"%string
  else
    h ← string_take16 (hash_String (cs_BlockHash cs));
    Ok ("ChainState{height=" +:+ fmt_d (cs_Height cs) +:+ ", hash=" +:+ h +:+ "...}")%string.

End Inputs.

(** ** Lemmas *)

Lemma length_ComputeScripthash s : length (ComputeScripthash s) = 32%nat.
Proof. apply length_reverse32. Qed.

Lemma TxidToHex_32 t : length t = 32%nat -> TxidToHex t = EncodeToString (reverse32 t).
Proof. intros. unfold TxidToHex. rewrite decide_False; [done|]. by intros []. Qed.

Lemma BlockHashToHex_Txid t : BlockHashToHex t = TxidToHex t.
Proof. done. Qed.

Lemma TxidFromHex_ToHex t : length t = 32%nat -> TxidFromHex (TxidToHex t) = Ok t.
Proof.
  intros Ht. rewrite TxidToHex_32 by done. unfold TxidFromHex.
  rewrite DecodeString_EncodeToString. cbn [mbind result_bind].
  rewrite length_reverse32, decide_False by lia. by rewrite reverse32_involutive.
Qed.

Lemma TxidToHex_inj a b :
  length a = 32%nat -> length b = 32%nat -> TxidToHex a = TxidToHex b -> a = b.
Proof.
  intros Ha Hb E. apply (f_equal TxidFromHex) in E. rewrite !TxidFromHex_ToHex in E by done.
  by injection E.
Qed.

Lemma TxidFromHex_length s t : TxidFromHex s = Ok t -> length t = 32%nat.
Proof.
  unfold TxidFromHex. rewrite bind_Ok. intros (bs & _ & E). case_decide; [done|].
  injection E as <-. apply length_reverse32.
Qed.

Lemma slen_TxidToHex t : length t = 32%nat -> slen (TxidToHex t) = 64%nat.
Proof. intros. rewrite TxidToHex_32 by done. by rewrite slen_EncodeToString, length_reverse32. Qed.

Lemma hash_String_Txid {B : Btcd} {L : BtcdLaws B} h : length h = 32%nat -> hash_String h = TxidToHex h.
Proof. intros. by rewrite hash_String_hex, TxidToHex_32, (reverse32_reverse h) by done. Qed.

(** ** An instance *)

Record model_tx := mkTx {
  mt_hash : bytes; mt_ins : list OutPoint; mt_outs : list TxOut;
}.

Record model_header := mkHeader { mh_hash : bytes; mh_prev : bytes }.
Record model_block := mkBlock { mb_header : model_header; mb_txs : list model_tx }.

(** Pad or cut to 32 bytes. *)
Definition fix32 (h : bytes) : bytes := take 32 (h ++ replicate 32 x00).

Lemma length_fix32 h : length (fix32 h) = 32%nat.
Proof. unfold fix32. rewrite length_take, length_app, length_replicate. lia. Qed.

#[export] Instance ModelBtcd : Btcd := {
  MsgTx := model_tx;
  MsgBlock := model_block;
  BlockHeader := model_header;
  hash_String h := EncodeToString (reverse h);
  hash_IsEqual a b := bool_decide (a = b);
  DoubleHashB b := Sum256 (Sum256 b);
  tx_TxIn t := (fun i => mkOutPoint (fix32 (op_Hash i)) (u32 (op_Index i))) <$> mt_ins t;
  tx_TxOut t := if decide (Z.of_nat (length (mt_outs t)) < 2 ^ 32)
                then (fun o => mkTxOut (i64 (to_Value o)) (to_PkScript o)) <$> mt_outs t else [];
  TxHash t := fix32 (mt_hash t);
  tx_Serialize t := Ok (mt_hash t);
  block_Header := mb_header;
  block_Transactions := mb_txs;
  header_PrevBlock h := fix32 (mh_prev h);
  header_BlockHash h := fix32 (mh_hash h);
  header_Serialize h :=
    if decide (length (mh_hash h) = 32%nat /\ length (mh_prev h) = 32%nat)
    then Ok (mh_hash h ++ mh_prev h ++ replicate 16 x00) else Err (ENew "malformed header");
  header_Deserialize bs :=
    if decide (length bs = 80%nat) then Ok (mkHeader (slice 0 32 bs) (slice 32 64 bs))
    else Err (ESentinel "io.ErrUnexpectedEOF" "unexpected EOF");
}.

#[export, refine] Instance ModelBtcd_laws : BtcdLaws ModelBtcd := {}.
Proof.
  - done.
  - intros. apply bool_decide_eq_true.
  - intros. apply length_Sum256.
  - intros t i (j & -> & _)%list_elem_of_fmap. simpl. split; [apply length_fix32|apply u32_range].
  - intros t o. cbn [tx_TxOut ModelBtcd]. case_decide; [|by rewrite elem_of_nil].
    intros (j & -> & _)%list_elem_of_fmap. apply i64_range.
  - intros t. cbn [tx_TxOut ModelBtcd]. case_decide; [by rewrite length_fmap|done].
  - intros. apply length_fix32.
  - intros. apply length_fix32.
  - intros. apply length_fix32.
  - intros h bs. cbn [header_Serialize ModelBtcd]. case_decide as E; [|done].
    destruct E. intros [= <-]. len.
  - intros h bs. cbn [header_Serialize header_Deserialize ModelBtcd]. case_decide as E; [|done].
    destruct E. intros [= <-]. rewrite decide_True by len. slices. by destruct h.
Defined.
