(* ===== verification/Mempool.v ===== *)
(** * The mempool overlay: [internal/indexer/mempool.go]

    The overlay's maps are finite maps.  [AddTransaction] stores one backing
    array twice, in [tx.Outputs] and as the pointers of [m.outputs], and later
    writes [SpentByTxid] through the latter: output records are cells of a
    heap, and both places hold addresses.  [range] over a map visits its keys
    in an arbitrary order, an argument of every operation that ranges.  The
    lock makes each exported method one atomic step. *)

From Stdlib Require Import Strings.Byte.
From S2P Require Import Prelude Bytes Hex Keys Values Json Checkpoint Pebble Store Sha256 Types.

(** An iteration order for each of the [range] loops of one call. *)
Record range_order := mkRange {
  range_keys : nat -> list string -> list string;
  range_perm n l : range_keys n l ≡ₚ l;
}.

(** [for k, v := range m] *)
Definition range_map {V} (ord : range_order) (site : nat) (m : gmap string V) : list (string * V) :=
  omap (fun k => (fun v => (k, v)) <$> m !! k) (range_keys ord site (map_to_list m).*1).

(** [for k := range s], a set being a map to [true] or [struct{}]. *)
Definition range_set (ord : range_order) (site : nat) (s : gset string) : list string :=
  range_keys ord site (elements s).

Record MempoolOutput := mkMempoolOutput {
  mo_Txid : bytes;
  mo_Vout : Z;
  mo_Scripthash : bytes;
  mo_Value : Z;
  mo_SpentByTxid : bytes;   (* nil is [] *)
}.

#[export] Instance MempoolOutput_inhabited : Inhabited MempoolOutput :=
  populate (mkMempoolOutput [] 0 [] 0 []).

Record MempoolInput := mkMempoolInput {
  mi_PrevTxid : bytes;
  mi_PrevVout : Z;
  mi_Scripthash : option bytes;  (* nil is None *)
  mi_Value : Z;
  mi_FromMempool : bool;
}.

(** A pointer into [[]MempoolOutput]. *)
Notation addr := nat (only parsing).

Definition makeOutpointKey (txid : bytes) (vout : Z) : string :=
  EncodeToString txid +:+ ":" +:+ fmt_d vout.

Section Mempool.
Context {P : Pebble} {B : Btcd}.

Record MempoolTransaction := mkMempoolTransaction {
  mt_Txid : bytes;
  mt_TxidHex : string;
  mt_RawTx : MsgTx;
  mt_FirstSeen : Z;          (* FirstSeen.Unix(), its only use *)
  mt_Fee : Z;
  mt_Inputs : list MempoolInput;
  mt_Outputs : list addr;
  mt_Scripthashes : list bytes;
}.

Record MempoolOverlay := mkOverlay {
  mp_hasdb : bool;           (* m.db != nil *)
  mp_heap : list MempoolOutput;
  transactions : gmap string MempoolTransaction;
  byScripthash : gmap string (gset string);
  spentBy : gmap string string;
  outputs : gmap string addr;
}.

Definition NewMempoolOverlay (hasdb : bool) : MempoolOverlay := mkOverlay hasdb [] ∅ ∅ ∅ ∅.

Definition cell (m : MempoolOverlay) (a : addr) : MempoolOutput := mp_heap m !!! a.

(** [tx.Outputs] as values. *)
Definition tx_outputs (m : MempoolOverlay) (t : MempoolTransaction) : list MempoolOutput :=
  cell m <$> mt_Outputs t.

(** The database and the overlay. *)
Record world := mkWorld { w_db : pdb; w_mp : MempoolOverlay }.

Definition in_db {A} (c : st pdb A) : st world A := fun w =>
  let '(r, d) := c (w_db w) in (r, mkWorld d (w_mp w)).

Definition put_mp (m : MempoolOverlay) : st world unit := st_modify (fun w => mkWorld (w_db w) m).

(** A method call on [m.db]: a nil handle panics. *)
Definition mdb {A} (c : st pdb A) : st world A := fun w =>
  if mp_hasdb (w_mp w) then in_db c w else (Err (go_panic "nil pointer dereference"), w).

(** ** Persistence *)

Definition persist_output (t : MempoolTransaction) (batch : pbatch) (o : MempoolOutput) :
    result pbatch :=
  key ← wrap "failed to make mempool key: "
          (MakeMempoolKey (mo_Scripthash o) (mo_Txid o) (mo_Vout o));
  wrap "failed to write mempool entry: "
    (batch_Set batch key
      (EncodeMempoolValue (mkMempoolValue (mo_Value o) (mt_FirstSeen t) (mt_Fee t)))).

Definition persistTransaction (t : MempoolTransaction) : st world unit :=
  m ← st_gets w_mp;
  if negb (mp_hasdb m) then mret ()
  else
    batch ← st_lift (foldM (persist_output t) pebble_NewBatch (tx_outputs m t));
    in_db (batch_Commit batch).

(** The errors of [batch.Delete] and [batch.Commit] are ignored. *)
Definition delete_ignoring (batch : pbatch) (key : bytes) : pbatch :=
  match batch_Delete batch key with Ok batch => batch | Err _ => batch end.

Definition unpersist_output (batch : pbatch) (o : MempoolOutput) : pbatch :=
  match MakeMempoolKey (mo_Scripthash o) (mo_Txid o) (mo_Vout o) with
  | Err _ => batch
  | Ok key => delete_ignoring batch key
  end.

Definition unpersistTransaction (t : MempoolTransaction) : st world unit :=
  m ← st_gets w_mp;
  if negb (mp_hasdb m) then mret ()
  else
    _ ← st_try (in_db (batch_Commit (foldl unpersist_output pebble_NewBatch (tx_outputs m t))));
    mret ().

Definition clearPersistedData : st world unit :=
  m ← st_gets w_mp;
  if negb (mp_hasdb m) then mret ()
  else
    it ← st_try (in_db (NewPrefixIterator [PrefixMempool]));
    match it with
    | Err _ => mret ()
    | Ok it =>
        let batch := foldl (fun b kv => delete_ignoring b kv.1) pebble_NewBatch (it_entries it) in
        if (0 <? Z.of_nat (length (it_entries it)))
        then _ ← st_try (in_db (batch_Commit batch)); mret ()
        else mret ()
    end.

(** ** Adding a transaction *)

(** [inputs], [inputValue] and [affectedScripthashes]. *)
Definition input_acc : Type := list MempoolInput * Z * gmap string bytes.

Definition add_input (acc : input_acc) (txIn : OutPoint) : st world input_acc :=
  let '(inputs, inputValue, affected) := acc in
  if IsCoinbaseInput txIn then mret acc
  else
    let prevTxid := TxidFromHash (op_Hash txIn) in
    let prevVout := op_Index txIn in
    let outpointKey := makeOutpointKey prevTxid prevVout in
    m ← st_gets w_mp;
    match spentBy m !! outpointKey with
    | Some existingTxid =>
        short ← st_lift (string_take16 existingTxid);
        st_fail (ENew ("double-spend: output " +:+ TxidToHex prevTxid +:+ ":" +:+
                       fmt_d prevVout +:+ " already spent by " +:+ short))
    | None =>
        match outputs m !! outpointKey with
        | Some a =>
            let o := cell m a in
            mret (inputs ++ [mkMempoolInput prevTxid prevVout (Some (mo_Scripthash o))
                               (mo_Value o) true],
                  i64 (inputValue + mo_Value o),
                  <[EncodeToString (mo_Scripthash o) := mo_Scripthash o]> affected)
        | None =>
            sh ← mdb (st_wrap ("failed to lookup input " +:+ TxidToHex prevTxid +:+ ":" +:+
                               fmt_d prevVout +:+ ": ")
                       (GetScripthashForOutpoint prevTxid prevVout));
            match sh with
            | None => mret (inputs ++ [mkMempoolInput prevTxid prevVout None 0 false],
                            inputValue, affected)
            | Some sh =>
                utxo ← mdb (st_wrap "failed to get UTXO value: " (GetUTXO sh prevTxid prevVout));
                let value := match utxo with Some u => uv_Value u | None => 0 end in
                mret (inputs ++ [mkMempoolInput prevTxid prevVout (Some sh) value false],
                      i64 (inputValue + value),
                      <[EncodeToString sh := sh]> affected)
            end
        end
    end.

(** [outputs], [outputValue] and [affectedScripthashes]. *)
Definition output_acc : Type := list MempoolOutput * Z * gmap string bytes.

Definition add_output (txid : bytes) (acc : output_acc) (vo : nat * TxOut) : output_acc :=
  let '(outs, outputValue, affected) := acc in
  let '(vout, txOut) := vo in
  if IsOpReturn (to_PkScript txOut) then acc
  else if to_Value txOut =? 0 then acc
  else
    let scripthash := ComputeScripthash (to_PkScript txOut) in
    (outs ++ [mkMempoolOutput txid (u32 (Z.of_nat vout)) scripthash (to_Value txOut) []],
     i64 (outputValue + to_Value txOut),
     <[EncodeToString scripthash := scripthash]> affected).

Definition indexed {A} (l : list A) : list (nat * A) := imap pair l.

Definition mark_spent (txid : bytes) (o : MempoolOutput) : MempoolOutput :=
  mkMempoolOutput (mo_Txid o) (mo_Vout o) (mo_Scripthash o) (mo_Value o) txid.

(** [byScripthash[shHex][txidHex] = true], the inner map made when absent. *)
Definition index_scripthash (txidHex : string) (bs : gmap string (gset string)) (shHex : string) :
    gmap string (gset string) :=
  <[shHex := {[txidHex]} ∪ default ∅ (bs !! shHex)]> bs.

Definition spend_input (txid : bytes) (txidHex : string) (m : MempoolOverlay)
    (input : MempoolInput) : MempoolOverlay :=
  let outpointKey := makeOutpointKey (mi_PrevTxid input) (mi_PrevVout input) in
  let heap := match outputs m !! outpointKey with
              | Some a => alter (mark_spent txid) a (mp_heap m)
              | None => mp_heap m
              end in
  mkOverlay (mp_hasdb m) heap (transactions m) (byScripthash m)
    (<[outpointKey := txidHex]> (spentBy m)) (outputs m).

(** [m.outputs[key] = &outputs[i]] *)
Definition add_pointer (outs : gmap string addr) (ao : addr * MempoolOutput) : gmap string addr :=
  <[makeOutpointKey (mo_Txid ao.2) (mo_Vout ao.2) := ao.1]> outs.

(** The updates after the checks: no call here can fail. *)
Definition record_transaction (ord : range_order) (t : MempoolTransaction)
    (outs : list MempoolOutput) (affected : gmap string bytes) (m : MempoolOverlay) :
    MempoolOverlay :=
  let m := mkOverlay (mp_hasdb m) (mp_heap m ++ outs) (<[mt_TxidHex t := t]> (transactions m))
             (foldl (index_scripthash (mt_TxidHex t)) (byScripthash m) (range_map ord 1 affected).*1)
             (spentBy m) (outputs m) in
  let m := foldl (spend_input (mt_Txid t) (mt_TxidHex t)) m (mt_Inputs t) in
  mkOverlay (mp_hasdb m) (mp_heap m) (transactions m) (byScripthash m) (spentBy m)
    (foldl add_pointer (outputs m) (zip (mt_Outputs t) outs)).

Definition AddTransaction (ord : range_order) (now : Z) (tx : MsgTx) : st world (list string) :=
  let txHash := TxHash tx in
  let txid := TxidFromHash txHash in
  let txidHex := hash_String txHash in
  m ← st_gets w_mp;
  if decide (is_Some (transactions m !! txidHex)) then mret []
  else
    '(inputs, inputValue, affected) ← st_foldM add_input ([], 0, ∅) (tx_TxIn tx);
    let '(outs, outputValue, affected) :=
      foldl (add_output txid) ([], 0, affected) (indexed (tx_TxOut tx)) in
    let fee := if (0 <? inputValue) && (outputValue <=? inputValue)
               then i64 (inputValue - outputValue) else 0 in
    let scripthashList := (range_map ord 0 affected).*2 in
    m ← st_gets w_mp;
    let addrs := seq (length (mp_heap m)) (length outs) in
    let mempoolTx := mkMempoolTransaction txid txidHex tx now fee inputs addrs scripthashList in
    _ ← put_mp (record_transaction ord mempoolTx outs affected m);
    _ ← st_try (persistTransaction mempoolTx);
    mret (range_map ord 2 affected).*1.

Definition HasTx (txidHex : string) (m : MempoolOverlay) : bool :=
  bool_decide (is_Some (transactions m !! txidHex)).

(** ** Removing *)

(** [delete(txids, txidHex); if len(txids) == 0 { delete(m.byScripthash, shHex) }] *)
Definition unindex_scripthash (txidHex : string) (bs : gmap string (gset string)) (shHex : string) :
    gmap string (gset string) :=
  match bs !! shHex with
  | None => bs
  | Some txids =>
      let txids := txids ∖ {[txidHex]} in
      if decide (txids = ∅) then delete shHex bs else <[shHex := txids]> bs
  end.

Definition input_key (i : MempoolInput) : string := makeOutpointKey (mi_PrevTxid i) (mi_PrevVout i).
Definition output_key (o : MempoolOutput) : string := makeOutpointKey (mo_Txid o) (mo_Vout o).

Definition forget_transaction (txidHex : string) (t : MempoolTransaction) (m : MempoolOverlay) :
    MempoolOverlay :=
  mkOverlay (mp_hasdb m) (mp_heap m)
    (delete txidHex (transactions m))
    (foldl (unindex_scripthash txidHex) (byScripthash m) (EncodeToString <$> mt_Scripthashes t))
    (foldl (fun s i => delete (input_key i) s) (spentBy m) (mt_Inputs t))
    (foldl (fun s o => delete (output_key o) s) (outputs m) (tx_outputs m t)).

Definition removeTransactionLocked (ord : range_order) (site : nat) (txidHex : string) :
    st world (list string) :=
  m ← st_gets w_mp;
  match transactions m !! txidHex with
  | None => mret []
  | Some mempoolTx =>
      _ ← put_mp (forget_transaction txidHex mempoolTx m);
      _ ← unpersistTransaction mempoolTx;
      mret (range_set ord site (list_to_set (EncodeToString <$> mt_Scripthashes mempoolTx)))
  end.

Definition RemoveTransaction (ord : range_order) (txid : bytes) : st world (list string) :=
  removeTransactionLocked ord 0 (TxidToHex txid).

Definition RemoveOutput (txid : bytes) (vout : Z) : st world unit :=
  let outpointKey := makeOutpointKey txid vout in
  m ← st_gets w_mp;
  put_mp (mkOverlay (mp_hasdb m) (mp_heap m) (transactions m) (byScripthash m)
            (delete outpointKey (spentBy m)) (delete outpointKey (outputs m))).

Definition Clear : st world unit :=
  m ← st_gets w_mp;
  _ ← put_mp (mkOverlay (mp_hasdb m) (mp_heap m) ∅ ∅ ∅ ∅);
  clearPersistedData.

(** ** Queries *)

Definition GetScripthashTransactions (ord : range_order) (scripthash : bytes)
    (m : MempoolOverlay) : list string :=
  range_set ord 0 (default ∅ (byScripthash m !! EncodeToString scripthash)).

Definition unspent_of (shHex : string) (o : MempoolOutput) : bool :=
  bool_decide (EncodeToString (mo_Scripthash o) = shHex) && bool_decide (mo_SpentByTxid o = []).

Definition GetUnspentOutputs (ord : range_order) (scripthash : bytes) (m : MempoolOverlay) :
    list MempoolOutput :=
  filter (fun o => unspent_of (EncodeToString scripthash) o = true)
    ((fun ka => cell m ka.2) <$> range_map ord 0 (outputs m)).

Definition balance_output (shHex : string) (balance : Z) (o : MempoolOutput) : Z :=
  if unspent_of shHex o then i64 (balance + mo_Value o) else balance.

Definition balance_input (shHex : string) (balance : Z) (i : MempoolInput) : Z :=
  match mi_Scripthash i with
  | Some sh => if bool_decide (EncodeToString sh = shHex) then i64 (balance - mi_Value i) else balance
  | None => balance
  end.

Definition GetBalance (ord : range_order) (scripthash : bytes) (m : MempoolOverlay) : Z :=
  let shHex := EncodeToString scripthash in
  foldl (fun balance txidHex =>
    match transactions m !! txidHex with
    | None => balance
    | Some t =>
        foldl (balance_input shHex)
          (foldl (balance_output shHex) balance (tx_outputs m t)) (mt_Inputs t)
    end) 0 (range_set ord 0 (default ∅ (byScripthash m !! shHex))).

Definition IsOutputSpent (txid : bytes) (vout : Z) (m : MempoolOverlay) : bool :=
  bool_decide (is_Some (spentBy m !! makeOutpointKey txid vout)).

Definition Count (m : MempoolOverlay) : nat := size (transactions m).
Definition Size (m : MempoolOverlay) : nat := size (outputs m).

(** ** Reconciling with the node's mempool *)

(** First loop: [removed] and [affected]. *)
Definition reconcile_tx (ord : range_order) (valid : gset string)
    (acc : Z * gset string) (st_key : nat * string) : st world (Z * gset string) :=
  let '(removed, affected) := acc in
  let '(i, txidHex) := st_key in
  if decide (txidHex ∈ valid) then mret acc
  else
    shHexes ← removeTransactionLocked ord (3 + i) txidHex;
    mret (removed + 1, list_to_set shHexes ∪ affected).

(** Second loop, over the outputs that are left. *)
Definition reconcile_output (valid : gset string) (acc : Z * gset string * MempoolOverlay)
    (ka : string * addr) : Z * gset string * MempoolOverlay :=
  let '(removed, affected, m) := acc in
  let out := cell m ka.2 in
  let txidHex := TxidToHex (mo_Txid out) in
  if decide (txidHex ∈ valid) then acc
  else
    let shHex := EncodeToString (mo_Scripthash out) in
    (removed + 1, {[shHex]} ∪ affected,
     mkOverlay (mp_hasdb m) (mp_heap m) (transactions m)
       (unindex_scripthash txidHex (byScripthash m) shHex) (spentBy m) (delete ka.1 (outputs m))).

Definition ReconcileWith (ord : range_order) (valid : gset string) : st world (Z * list string) :=
  m ← st_gets w_mp;
  '(removed, affected) ←
    st_foldM (reconcile_tx ord valid) (0, ∅) (indexed (range_map ord 0 (transactions m)).*1);
  m ← st_gets w_mp;
  let '(removed, affected, m) :=
    foldl (reconcile_output valid) (removed, affected, m) (range_map ord 1 (outputs m)) in
  let m := mkOverlay (mp_hasdb m) (mp_heap m) (transactions m) (byScripthash m)
             (filter (fun kv => kv.2 ∈ valid) (spentBy m)) (outputs m) in
  _ ← put_mp m;
  mret (removed, range_set ord 2 affected).

(** ** Loading *)

Definition load_entry (m : MempoolOverlay) (kv : bytes * bytes) : MempoolOverlay :=
  match ParseMempoolKey kv.1, DecodeMempoolValue kv.2 with
  | Ok (scripthash, txid, vout), Ok value =>
      let a := length (mp_heap m) in
      mkOverlay (mp_hasdb m)
        (mp_heap m ++ [mkMempoolOutput txid vout scripthash (mv_Value value) []])
        (transactions m)
        (index_scripthash (TxidToHex txid) (byScripthash m) (EncodeToString scripthash))
        (spentBy m)
        (<[makeOutpointKey txid vout := a]> (outputs m))
  | _, _ => m
  end.

Definition LoadFromDatabase : st world unit :=
  m ← st_gets w_mp;
  if negb (mp_hasdb m) then mret ()
  else
    it ← in_db (st_wrap "failed to create mempool iterator: " (NewPrefixIterator [PrefixMempool]));
    put_mp (foldl load_entry m (it_entries it)).

End Mempool.
