(* ===== verification/MempoolFacts.v ===== *)
(** * The mempool overlay is well formed

    The lemmas behind the overlay's properties: outpoint keys are injective,
    the scripthash index holds exactly the transactions' scripthashes, spends
    and outputs point at live transactions, and every exported operation keeps
    it so. *)

From Stdlib Require Import Strings.Byte.
From S2P Require Import Prelude Bytes Hex Keys Values Json Checkpoint Pebble Store Sha256 Types Mempool.

(** ** Outpoint keys *)

Lemma makeOutpointKey_bytes t v :
  bytes_of_string (makeOutpointKey t v) = hex_encode t ++ x3a :: itoa_bytes v.
Proof.
  unfold makeOutpointKey, EncodeToString, fmt_d, itoa.
  by rewrite !bytes_of_string_app, !bytes_of_string_of_bytes.
Qed.

Lemma hex_no_colon t : x3a ∉ hex_encode t.
Proof. intros H%hex_encode_digit. by destruct H. Qed.

Lemma split_at_unique {A} (c : A) a1 b1 a2 b2 :
  c ∉ a1 -> c ∉ a2 -> a1 ++ c :: b1 = a2 ++ c :: b2 -> a1 = a2 /\ b1 = b2.
Proof.
  revert a2; induction a1 as [|x a1 IH]; intros [|y a2] H1 H2 E; simpl in E; simplify_eq.
  - done.
  - by destruct H2; left.
  - by destruct H1; left.
  - rewrite not_elem_of_cons in H1, H2. by destruct (IH a2) as [-> ->]; [tauto..|].
Qed.

Lemma makeOutpointKey_inj t1 v1 t2 v2 :
  makeOutpointKey t1 v1 = makeOutpointKey t2 v2 -> t1 = t2 /\ v1 = v2.
Proof.
  intros E. apply (f_equal bytes_of_string) in E. rewrite !makeOutpointKey_bytes in E.
  apply split_at_unique in E as [E1 E2]; [|apply hex_no_colon..]. split.
  - apply (f_equal hex_decode) in E1. rewrite !hex_decode_encode in E1. by injection E1.
  - apply (inj itoa). unfold itoa. by rewrite E2.
Qed.

#[export] Instance EncodeToString_inj : Inj (=) (=) EncodeToString.
Proof.
  intros a b E. apply (f_equal DecodeString) in E. rewrite !DecodeString_EncodeToString in E.
  by injection E.
Qed.

(** ** Ranging over maps *)

Lemma elem_of_range_map {V} ord n (m : gmap string V) k v :
  (k, v) ∈ range_map ord n m <-> m !! k = Some v.
Proof.
  unfold range_map. rewrite list_elem_of_omap. setoid_rewrite range_perm. split.
  - intros (k' & _ & Hk). destruct (m !! k') eqn:E; simpl in Hk; congruence.
  - intros Hk. exists k. rewrite Hk. split; [|done].
    apply list_elem_of_fmap. exists (k, v). by rewrite elem_of_map_to_list.
Qed.

Lemma elem_of_range_keys {V} ord n (m : gmap string V) k :
  k ∈ (range_map ord n m).*1 <-> is_Some (m !! k).
Proof.
  rewrite list_elem_of_fmap. split.
  - intros ([k' v] & -> & H). apply elem_of_range_map in H. simpl. eauto.
  - intros [v Hv]. exists (k, v). by rewrite elem_of_range_map.
Qed.

Lemma elem_of_range_values {V} ord n (m : gmap string V) v :
  v ∈ (range_map ord n m).*2 <-> exists k, m !! k = Some v.
Proof.
  rewrite list_elem_of_fmap. split.
  - intros ([k v'] & -> & H). apply elem_of_range_map in H. eauto.
  - intros [k Hk]. exists (k, v). by rewrite elem_of_range_map.
Qed.

Lemma elem_of_range_set ord n (s : gset string) k : k ∈ range_set ord n s <-> k ∈ s.
Proof. unfold range_set. by rewrite range_perm, elem_of_elements. Qed.

Lemma NoDup_range_set ord n (s : gset string) : NoDup (range_set ord n s).
Proof. unfold range_set. rewrite range_perm. apply NoDup_elements. Qed.

(** ** Folds over the maps *)

Lemma foldl_delete_lookup {V A} (f : A -> string) (l : list A) (m : gmap string V) k :
  foldl (fun s i => delete (f i) s) m l !! k = if decide (k ∈ f <$> l) then None else m !! k.
Proof.
  revert m; induction l as [|x l IH]; intros m; [done|]. cbn [foldl]. rewrite IH.
  destruct (decide (k = f x)) as [->|Hne].
  - rewrite lookup_delete_eq, (decide_True (P := f x ∈ f <$> x :: l)) by set_solver.
    by case_decide.
  - rewrite lookup_delete_ne by done. by repeat case_decide; set_solver.
Qed.

Lemma foldl_insert_lookup {V A} (f : A -> string) (v : V) (l : list A) (m : gmap string V) k :
  foldl (fun s i => <[f i := v]> s) m l !! k = if decide (k ∈ f <$> l) then Some v else m !! k.
Proof.
  revert m; induction l as [|x l IH]; intros m; [done|]. cbn [foldl]. rewrite IH.
  destruct (decide (k = f x)) as [->|Hne].
  - rewrite lookup_insert_eq, (decide_True (P := f x ∈ f <$> x :: l)) by set_solver.
    by case_decide.
  - rewrite lookup_insert_ne by done. by repeat case_decide; set_solver.
Qed.

(** The index as a relation between scripthashes and transactions. *)
Definition indexed_at (bs : gmap string (gset string)) (sh : string) : gset string :=
  default ∅ (bs !! sh).

Definition nonempty_index (bs : gmap string (gset string)) : Prop :=
  forall sh s, bs !! sh = Some s -> s <> ∅.

Lemma index_ext b1 b2 : nonempty_index b1 -> nonempty_index b2 ->
  (forall sh, indexed_at b1 sh = indexed_at b2 sh) -> b1 = b2.
Proof.
  intros H1 H2 E. apply map_eq. intros sh. specialize (E sh). unfold indexed_at in E.
  destruct (b1 !! sh) eqn:E1, (b2 !! sh) eqn:E2; simpl in *; subst; try done.
  - by destruct (H1 _ _ E1).
  - by destruct (H2 _ _ E2).
Qed.

Lemma unindex_at h bs sh sh' : indexed_at (unindex_scripthash h bs sh) sh' =
  if decide (sh' = sh) then indexed_at bs sh' ∖ {[h]} else indexed_at bs sh'.
Proof.
  unfold unindex_scripthash, indexed_at. destruct (bs !! sh) as [s|] eqn:E.
  - case_decide as Hs; case_decide; subst;
      rewrite ?lookup_delete_eq, ?lookup_insert_eq, ?lookup_delete_ne, ?lookup_insert_ne by done;
      rewrite ?E; simpl; set_solver.
  - case_decide; [subst|done]. rewrite E. simpl. set_solver.
Qed.

Lemma unindex_nonempty h bs sh : nonempty_index bs -> nonempty_index (unindex_scripthash h bs sh).
Proof.
  intros Hn. unfold unindex_scripthash. destruct (bs !! sh) as [s|]; [|done].
  case_decide; intros sh' s'.
  - rewrite lookup_delete_Some. intros [_ ?]. eauto.
  - rewrite lookup_insert_Some. intros [[_ <-]|[_ ?]]; eauto.
Qed.

Lemma foldl_unindex h l bs : (forall sh,
    indexed_at (foldl (unindex_scripthash h) bs l) sh =
    if decide (sh ∈ l) then indexed_at bs sh ∖ {[h]} else indexed_at bs sh) /\
  (nonempty_index bs -> nonempty_index (foldl (unindex_scripthash h) bs l)).
Proof.
  revert bs; induction l as [|x l IH]; intros bs; [done|]. cbn [foldl].
  destruct (IH (unindex_scripthash h bs x)) as [IH1 IH2]. split.
  - intros sh. rewrite IH1, unindex_at. repeat case_decide; set_solver.
  - intros. by apply IH2, unindex_nonempty.
Qed.

Lemma index_at h bs sh sh' : indexed_at (index_scripthash h bs sh) sh' =
  if decide (sh' = sh) then {[h]} ∪ indexed_at bs sh' else indexed_at bs sh'.
Proof.
  unfold index_scripthash, indexed_at. case_decide; subst.
  - by rewrite lookup_insert_eq.
  - by rewrite lookup_insert_ne.
Qed.

Lemma foldl_index h l bs : (forall sh,
    indexed_at (foldl (index_scripthash h) bs l) sh =
    if decide (sh ∈ l) then {[h]} ∪ indexed_at bs sh else indexed_at bs sh) /\
  (nonempty_index bs -> nonempty_index (foldl (index_scripthash h) bs l)).
Proof.
  revert bs; induction l as [|x l IH]; intros bs; [done|]. cbn [foldl].
  destruct (IH (index_scripthash h bs x)) as [IH1 IH2]. split.
  - intros sh. rewrite IH1, index_at. repeat case_decide; set_solver.
  - intros Hn. apply IH2. unfold index_scripthash. intros sh s.
    rewrite lookup_insert_Some. intros [[_ <-]|[_ ?]]; [set_solver|eauto].
Qed.

(** ** The invariant *)

Section Inv.
Context {P : Pebble} {PL : PebbleLaws P} {B : Btcd} {BL : BtcdLaws B}.

(** [L sh h]: the output records loaded from the database at start-up, whose
    transactions the overlay does not hold, put transaction [h] under
    scripthash [sh].  [nothing_loaded] gives the exact invariant. *)
Definition loaded : Type := string -> string -> Prop.

Definition nothing_loaded : loaded := fun _ _ => False.

Record mp_inv (L : loaded) (m : MempoolOverlay) : Prop := {
  inv_tx h t : transactions m !! h = Some t ->
    mt_TxidHex t = h /\ h = TxidToHex (mt_Txid t) /\ length (mt_Txid t) = 32%nat;
  inv_cells h t a : transactions m !! h = Some t -> a ∈ mt_Outputs t ->
    (a < length (mp_heap m))%nat /\ mo_Txid (cell m a) = mt_Txid t /\
    mo_Scripthash (cell m a) ∈ mt_Scripthashes t;
  inv_index sh h t : transactions m !! h = Some t -> sh ∈ EncodeToString <$> mt_Scripthashes t ->
    h ∈ indexed_at (byScripthash m) sh;
  inv_index_only sh h : h ∈ indexed_at (byScripthash m) sh ->
    (exists t, transactions m !! h = Some t /\ sh ∈ EncodeToString <$> mt_Scripthashes t) \/ L sh h;
  inv_nonempty : nonempty_index (byScripthash m);
  inv_spent k h : spentBy m !! k = Some h ->
    exists t, transactions m !! h = Some t /\ k ∈ input_key <$> mt_Inputs t;
  inv_key k a : outputs m !! k = Some a ->
    (a < length (mp_heap m))%nat /\ k = output_key (cell m a);
  inv_out k a : outputs m !! k = Some a ->
    (exists h t, transactions m !! h = Some t /\ a ∈ mt_Outputs t) \/
    L (EncodeToString (mo_Scripthash (cell m a))) (TxidToHex (mo_Txid (cell m a)));
}.

Lemma mp_inv_new L db : mp_inv L (NewMempoolOverlay db).
Proof. by split; simpl; intros *; unfold indexed_at; rewrite ?lookup_empty. Qed.

(** *** Removal *)

Lemma forget_inv L h t m : mp_inv L m -> transactions m !! h = Some t ->
  mp_inv L (forget_transaction h t m).
Proof.
  intros I Ht. set (m' := forget_transaction h t m).
  assert (Htx : forall h' t', transactions m' !! h' = Some t' <->
            h' <> h /\ transactions m !! h' = Some t').
  { intros h' t'. unfold m', forget_transaction. simpl. rewrite lookup_delete_Some. naive_solver. }
  destruct (foldl_unindex h (EncodeToString <$> mt_Scripthashes t) (byScripthash m))
    as [Hidx Hne].
  assert (Hout : forall k a, outputs m' !! k = Some a ->
            outputs m !! k = Some a /\ k ∉ output_key <$> tx_outputs m t).
  { intros k a. unfold m', forget_transaction. simpl. rewrite foldl_delete_lookup. by case_decide. }
  change (foldl _ _ _) with (byScripthash m') in Hidx, Hne. split.
  - intros h' t' [_ ?]%Htx. by apply (inv_tx L m I).
  - intros h' t' a [_ ?]%Htx. by eapply (inv_cells L m I).
  - intros sh h' t' [Hne' Ht']%Htx Hs. rewrite Hidx.
    pose proof (inv_index L m I sh h' t' Ht' Hs). case_decide; set_solver.
  - intros sh h'. rewrite Hidx. setoid_rewrite Htx. case_decide as Hs.
    + rewrite elem_of_difference, elem_of_singleton. intros [Hin Hh'].
      destruct (inv_index_only L m I sh h' Hin) as [(t' & ? & ?)|?]; eauto.
    + intros Hin. destruct (inv_index_only L m I sh h' Hin) as [(t' & Ht' & Hs')|?]; [left|by right].
      exists t'. split_and!; try done. intros ->. rewrite Ht in Ht'. by simplify_eq.
  - by apply Hne, (inv_nonempty L m I).
  - intros k h'. unfold m', forget_transaction. simpl. rewrite foldl_delete_lookup.
    case_decide as Hk; [done|]. intros (t' & Ht' & Hin)%(inv_spent L m I).
    exists t'. split; [|done]. apply lookup_delete_Some. split; [|done].
    intros ->. rewrite Ht in Ht'. by simplify_eq.
  - intros k a [Hk _]%Hout. by apply (inv_key L m I).
  - intros k a [Hk Hn]%Hout. destruct (inv_key L m I k a Hk) as [_ ->].
    destruct (inv_out L m I _ a Hk) as [(h' & t' & Ht' & Hin)|?]; [left|by right].
    exists h', t'. split; [|done]. apply Htx. split; [|done].
    intros ->. rewrite Ht in Ht'. simplify_eq. destruct Hn.
    unfold tx_outputs. rewrite <- list_fmap_compose. apply list_elem_of_fmap. by exists a.
Qed.

Definition remove_output (k : string) (m : MempoolOverlay) : MempoolOverlay :=
  mkOverlay (mp_hasdb m) (mp_heap m) (transactions m) (byScripthash m)
    (delete k (spentBy m)) (delete k (outputs m)).

Lemma remove_output_inv L k m : mp_inv L m -> mp_inv L (remove_output k m).
Proof.
  intros I. split; simpl; try apply I.
  - intros k' h [_ ?]%lookup_delete_Some. by apply (inv_spent L m I).
  - intros k' a [_ ?]%lookup_delete_Some. by apply (inv_key L m I).
  - intros k' a [_ ?]%lookup_delete_Some. by apply (inv_out L m I k').
Qed.

(** *** Addition *)

(** Two output records that differ at most in the spending mark. *)
Definition same_output (o o' : MempoolOutput) : Prop :=
  mo_Txid o' = mo_Txid o /\ mo_Vout o' = mo_Vout o /\
  mo_Scripthash o' = mo_Scripthash o /\ mo_Value o' = mo_Value o.

Lemma lookup_total_alter_same txid a (heap : list MempoolOutput) i :
  same_output (heap !!! i) (alter (mark_spent txid) a heap !!! i).
Proof.
  rewrite !list_lookup_total_alt. destruct (decide (a = i)) as [->|Hne].
  - rewrite list_lookup_alter_eq. by destruct (heap !! i).
  - by rewrite list_lookup_alter_ne.
Qed.

Lemma spend_inputs txid h ins m :
  let m' := foldl (spend_input txid h) m ins in
  mp_hasdb m' = mp_hasdb m /\ transactions m' = transactions m /\
  byScripthash m' = byScripthash m /\ outputs m' = outputs m /\
  length (mp_heap m') = length (mp_heap m) /\
  (forall i, same_output (cell m i) (cell m' i)) /\
  spentBy m' = foldl (fun s i => <[input_key i := h]> s) (spentBy m) ins.
Proof.
  revert m; induction ins as [|i ins IH]; intros m; cbn [foldl].
  { by split_and!. }
  destruct (IH (spend_input txid h m i)) as (H1 & H2 & H3 & H4 & H5 & H6 & H7).
  cbv zeta. rewrite H1, H2, H3, H4, H5, H7. split_and!; try done.
  - simpl. destruct (outputs m !! _); [apply length_alter|done].
  - intros j. destruct (H6 j) as (E1 & E2 & E3 & E4).
    assert (same_output (cell m j) (cell (spend_input txid h m i) j)) as (F1 & F2 & F3 & F4).
    { unfold cell, spend_input. simpl. destruct (outputs m !! _); [|by split_and!].
      apply lookup_total_alter_same. }
    unfold same_output. split_and!; congruence.
Qed.

Lemma foldl_add_pointer_lookup ps (outs : gmap string nat) k :
  (foldl add_pointer outs ps !! k = outs !! k /\ k ∉ (fun ao => output_key ao.2) <$> ps) \/
  (exists a o, (a, o) ∈ ps /\ k = output_key o /\ foldl add_pointer outs ps !! k = Some a).
Proof.
  revert outs; induction ps as [|[a o] ps IH]; intros outs; cbn [foldl].
  { left. split; [done|set_solver]. }
  destruct (IH (add_pointer outs (a, o))) as [[E Hk]|(a' & o' & Hin & Hk & E)].
  - destruct (decide (k = output_key o)) as [->|Hne].
    + right. exists a, o. rewrite E. unfold add_pointer, output_key. simpl.
      rewrite lookup_insert_eq. split_and!; [set_solver|done|done].
    + left. rewrite E. unfold add_pointer. simpl.
      rewrite lookup_insert_ne by (by intros ?; destruct Hne). split; [done|set_solver].
  - right. exists a', o'. split_and!; [set_solver|done|done].
Qed.

(** What [AddTransaction] has established when it records the transaction. *)
Record recordable (t : MempoolTransaction) (outs : list MempoolOutput)
    (affected : gmap string bytes) (m : MempoolOverlay) : Prop := {
  rec_txid : mt_TxidHex t = TxidToHex (mt_Txid t) /\ length (mt_Txid t) = 32%nat;
  rec_new : transactions m !! mt_TxidHex t = None;
  rec_addrs : mt_Outputs t = seq (length (mp_heap m)) (length outs);
  rec_outs o : o ∈ outs -> mo_Txid o = mt_Txid t /\ mo_SpentByTxid o = [] /\
    mo_Scripthash o ∈ mt_Scripthashes t;
  rec_affected k sh : affected !! k = Some sh -> k = EncodeToString sh;
  rec_scripthashes sh : sh ∈ mt_Scripthashes t <-> exists k, affected !! k = Some sh;
  rec_inputs i : i ∈ mt_Inputs t -> spentBy m !! input_key i = None;
}.

Lemma zip_seq_elem {A} (outs : list A) n a o :
  (a, o) ∈ zip (seq n (length outs)) outs -> exists i, a = (n + i)%nat /\ outs !! i = Some o.
Proof.
  intros [i Hi]%list_elem_of_lookup. apply lookup_zip_Some in Hi as [H1 H2].
  apply lookup_seq in H1 as [-> _]. eauto.
Qed.

Section Record.
Context (ord : range_order) (t : MempoolTransaction) (outs : list MempoolOutput).
Context (affected : gmap string bytes) (m : MempoolOverlay).
Context (L : loaded) (I : mp_inv L m) (R : recordable t outs affected m).

Let m' := record_transaction ord t outs affected m.

Lemma record_fields :
  mp_hasdb m' = mp_hasdb m /\
  transactions m' = <[mt_TxidHex t := t]> (transactions m) /\
  byScripthash m' =
    foldl (index_scripthash (mt_TxidHex t)) (byScripthash m) (range_map ord 1 affected).*1 /\
  length (mp_heap m') = (length (mp_heap m) + length outs)%nat /\
  spentBy m' = foldl (fun s i => <[input_key i := mt_TxidHex t]> s) (spentBy m) (mt_Inputs t) /\
  outputs m' = foldl add_pointer (outputs m) (zip (mt_Outputs t) outs) /\
  (forall i, same_output ((mp_heap m ++ outs) !!! i) (cell m' i)).
Proof.
  unfold m', record_transaction.
  match goal with |- context [foldl (spend_input _ _) ?m0 _] =>
    destruct (spend_inputs (mt_Txid t) (mt_TxidHex t) (mt_Inputs t) m0)
      as (H1 & H2 & H3 & H4 & H5 & H6 & H7) end.
  simpl. rewrite H1, H2, H3, H4, H5, H7. simpl. rewrite length_app. split_and!; try done.
Qed.

Lemma record_old_cell a : (a < length (mp_heap m))%nat -> same_output (cell m a) (cell m' a).
Proof.
  intros Ha. destruct record_fields as (_ & _ & _ & _ & _ & _ & Hc). specialize (Hc a).
  unfold cell at 1. by rewrite lookup_total_app_l in Hc.
Qed.

Lemma record_new_cell i o : outs !! i = Some o ->
  same_output o (cell m' (length (mp_heap m) + i)).
Proof.
  intros Ho. destruct record_fields as (_ & _ & _ & _ & _ & _ & Hc).
  specialize (Hc (length (mp_heap m) + i)%nat).
  rewrite lookup_total_app_r in Hc by lia.
  replace (length (mp_heap m) + i - length (mp_heap m))%nat with i in Hc by lia.
  by rewrite (list_lookup_total_correct _ _ _ Ho) in Hc.
Qed.

Lemma record_index sh h : h ∈ indexed_at (byScripthash m') sh <->
  h ∈ indexed_at (byScripthash m) sh \/
  (h = mt_TxidHex t /\ sh ∈ EncodeToString <$> mt_Scripthashes t).
Proof.
  destruct record_fields as (_ & _ & -> & _).
  rewrite (proj1 (foldl_index _ _ _)).
  assert (Hk : sh ∈ (range_map ord 1 affected).*1 <->
               sh ∈ EncodeToString <$> mt_Scripthashes t).
  { rewrite elem_of_range_keys, list_elem_of_fmap.
    setoid_rewrite (rec_scripthashes _ _ _ _ R). split.
    - intros [y Hy]. exists y. split; [by eapply rec_affected|eauto].
    - intros (y & -> & k & Hk). rewrite <- (rec_affected _ _ _ _ R _ _ Hk). eauto. }
  rewrite <- Hk. case_decide as Hd.
  - rewrite elem_of_union, elem_of_singleton. naive_solver.
  - naive_solver.
Qed.

Lemma record_spent k h : spentBy m' !! k = Some h <->
  (k ∈ input_key <$> mt_Inputs t /\ h = mt_TxidHex t) \/ spentBy m !! k = Some h.
Proof.
  destruct record_fields as (_ & _ & _ & _ & -> & _). rewrite foldl_insert_lookup.
  case_decide as Hk; [|naive_solver]. split; [intros [= <-]; auto|].
  intros [[_ ->]|Hs]; [done|]. apply list_elem_of_fmap in Hk as (i & -> & Hi).
  by rewrite (rec_inputs _ _ _ _ R i Hi) in Hs.
Qed.

Lemma record_inv : mp_inv L m'.
Proof.
  pose proof record_fields as (_ & Htx & _ & Hlen & _ & Hout & _).
  assert (Hother : forall h t', transactions m' !! h = Some t' ->
    (h = mt_TxidHex t /\ t' = t) \/ (h <> mt_TxidHex t /\ transactions m !! h = Some t')).
  { intros h t'. rewrite Htx, lookup_insert_Some. naive_solver. }
  assert (Hmono : forall h t', transactions m !! h = Some t' -> transactions m' !! h = Some t').
  { intros h t' Ht'. rewrite Htx, lookup_insert_ne; [done|]. intros <-.
    by rewrite (rec_new _ _ _ _ R) in Ht'. }
  assert (Hself : transactions m' !! mt_TxidHex t = Some t) by (rewrite Htx; apply lookup_insert_eq).
  assert (Hold : forall k a, outputs m !! k = Some a -> (a < length (mp_heap m'))%nat /\
            k = output_key (cell m' a) /\ mo_Scripthash (cell m' a) = mo_Scripthash (cell m a) /\
            mo_Txid (cell m' a) = mo_Txid (cell m a)).
  { intros k a Ha. destruct (inv_key L m I k a Ha) as [Hl ->].
    destruct (record_old_cell a Hl) as (F1 & F2 & F3 & _).
    unfold output_key. rewrite F1, F2, Hlen. split_and!; [lia|done..]. }
  assert (Hnew : forall a o, (a, o) ∈ zip (mt_Outputs t) outs ->
            (a < length (mp_heap m'))%nat /\ output_key o = output_key (cell m' a) /\
            a ∈ mt_Outputs t).
  { intros a o. rewrite (rec_addrs _ _ _ _ R). intros (i & -> & Ho)%zip_seq_elem.
    destruct (record_new_cell _ _ Ho) as (F1 & F2 & _). apply lookup_lt_Some in Ho.
    unfold output_key. rewrite F1, F2, Hlen, elem_of_seq. split_and!; [lia|done|lia|lia]. }
  split.
  - intros h t' [[-> ->]|[_ ?]]%Hother; [|by apply (inv_tx L m I)].
    destruct (rec_txid _ _ _ _ R). by split_and!.
  - intros h t' a [[-> ->]|[_ Ht']]%Hother Ha.
    + rewrite (rec_addrs _ _ _ _ R) in Ha. apply elem_of_seq in Ha. rewrite Hlen.
      split; [lia|]. destruct (lookup_lt_is_Some_2 outs (a - length (mp_heap m))) as [o Ho]; [lia|].
      destruct (record_new_cell _ _ Ho) as (E1 & _ & E3 & _).
      replace (length (mp_heap m) + (a - length (mp_heap m)))%nat with a in E1, E3 by lia.
      rewrite E1, E3. destruct (rec_outs _ _ _ _ R o) as (? & _ & ?); [|done].
      by eapply list_elem_of_lookup_2.
    + destruct (inv_cells L m I h t' a Ht' Ha) as (E1 & E2 & E3).
      destruct (record_old_cell a E1) as (F1 & _ & F3 & _). rewrite Hlen, F1, F3. split; [lia|done].
  - intros sh h t' Ht' Hs. apply record_index.
    apply Hother in Ht' as [[-> ->]|[_ Ht']]; [by right|left]. by apply (inv_index L m I sh h t').
  - intros sh h [Hin|[-> Hs]]%record_index; [|eauto].
    destruct (inv_index_only L m I sh h Hin) as [(t' & Ht' & Hs)|?]; eauto.
  - destruct record_fields as (_ & _ & -> & _). by apply foldl_index, (inv_nonempty L m I).
  - intros k h [[Hk ->]|Hs]%record_spent; [eauto|].
    destruct (inv_spent L m I k h Hs) as (t' & Ht' & Hin). eauto.
  - intros k a. rewrite Hout.
    destruct (foldl_add_pointer_lookup (zip (mt_Outputs t) outs) (outputs m) k)
      as [[-> _]|(a' & o & Hin & -> & ->)].
    + intros (? & ? & _)%Hold. done.
    + intros [= <-]. by destruct (Hnew _ _ Hin) as (? & ? & _).
  - intros k a. rewrite Hout.
    destruct (foldl_add_pointer_lookup (zip (mt_Outputs t) outs) (outputs m) k)
      as [[-> _]|(a' & o & Hin & -> & ->)].
    + intros Ha. destruct (Hold k a Ha) as (_ & _ & -> & ->).
      destruct (inv_out L m I k a Ha) as [(h & t' & Ht' & Hin)|?]; [left|by right]. eauto.
    + intros [= <-]. left. exists (mt_TxidHex t), t. split; [done|].
      by destruct (Hnew _ _ Hin) as (_ & _ & ?).
Qed.

End Record.
End Inv.

(** ** What the operations do to the database *)

Section Frame.
Context {P : Pebble} {PL : PebbleLaws P} {B : Btcd} {BL : BtcdLaws B}.

(** The keys outside the mempool's own keyspace. *)
Definition confirmed_key (k : bytes) : Prop := head k <> Some PrefixMempool.

Definition confirmed_same (c c' : gmap bytes bytes) : Prop :=
  forall k, confirmed_key k -> c' !! k = c !! k.

(** Only the mempool's keys change, and not the overlay. *)
Definition overlay_frame (w w' : world) : Prop :=
  w_mp w' = w_mp w /\ confirmed_same (contents (w_db w)) (contents (w_db w')).

(** Nothing changes. *)
Definition world_same (w w' : world) : Prop :=
  w_mp w' = w_mp w /\ contents (w_db w') = contents (w_db w).

#[export] Instance overlay_frame_preorder : PreOrder overlay_frame.
Proof.
  split; [by split|]. intros a b c [H1 H2] [H3 H4]. split; [congruence|].
  intros k Hk. by rewrite H4, H2.
Qed.

#[export] Instance world_same_preorder : PreOrder world_same.
Proof. split; [by split|]. intros a b c [H1 H2] [H3 H4]. split; congruence. Qed.

Lemma world_same_frame w w' : world_same w w' -> overlay_frame w w'.
Proof. intros [H1 H2]. split; [done|]. intros k _. by rewrite H2. Qed.

Lemma rel_in_db {A} (c : st pdb A) : st_rel db_same c -> st_rel world_same (in_db c).
Proof. intros Hc w. specialize (Hc (w_db w)). unfold in_db. by destruct (c (w_db w)). Qed.

Lemma in_db_run {A} (c : st pdb A) w r d :
  c (w_db w) = (r, d) -> in_db c w = (r, mkWorld d (w_mp w)).
Proof. intros E. unfold in_db. by rewrite E. Qed.

Lemma rel_mdb {A} (c : st pdb A) : st_rel db_same c -> st_rel world_same (mdb c).
Proof.
  intros Hc w. unfold mdb. destruct (mp_hasdb (w_mp w)); [by apply rel_in_db|]. simpl. reflexivity.
Qed.

Lemma rel_mdb_wrap {A} pre (c : st pdb A) :
  st_rel db_same c -> st_rel world_same (mdb (st_wrap pre c)).
Proof. intros. apply rel_mdb. by apply st_rel_wrap. Qed.

#[local] Hint Resolve rel_in_db rel_mdb rel_mdb_wrap : st_rel.

Lemma rel_same_frame {A} (c : st world A) : st_rel world_same c -> st_rel overlay_frame c.
Proof. intros Hc w. by apply world_same_frame. Qed.

(** A batch that writes only mempool keys. *)
Definition mempool_batch (b : pbatch) : Prop :=
  Forall (fun o => head (op_key o) = Some PrefixMempool) (batch_ops b).

Lemma mempool_batch_new : mempool_batch pebble_NewBatch.
Proof. unfold mempool_batch. rewrite batch_new. constructor. Qed.

Lemma rel_commit b : mempool_batch b -> st_rel overlay_frame (in_db (batch_Commit b)).
Proof.
  intros Hb w. unfold in_db. pose proof (commit_cases b (w_db w)) as Hc.
  destruct (batch_Commit b (w_db w)) as [r d]. simpl in *. split; [done|]. intros k Hk. cbn [w_db].
  destruct Hc as [-> | ->]; [done|]. apply apply_ops_untouched.
  eapply Forall_impl; [exact Hb|]. intros o Ho <-. by apply Hk.
Qed.

Lemma mempool_batch_delete b k :
  mempool_batch b -> head k = Some PrefixMempool -> mempool_batch (delete_ignoring b k).
Proof.
  intros Hb Hk. unfold delete_ignoring. destruct (batch_Delete b k) as [b'|] eqn:E; [|done].
  apply batch_Delete_Ok in E. unfold mempool_batch. rewrite E. apply Forall_app. split; [done|].
  by repeat constructor.
Qed.

Lemma MakeMempoolKey_head sh t v k : MakeMempoolKey sh t v = Ok k -> head k = Some PrefixMempool.
Proof. by intros (_ & _ & ->)%MakeMempoolKey_Ok. Qed.

Lemma rel_persist t : st_rel overlay_frame (persistTransaction t).
Proof.
  intros w. unfold persistTransaction. unfold mbind at 1, st_bind, st_gets.
  destruct (mp_hasdb (w_mp w)); simpl negb; cbn [mret st_ret]; [|simpl; reflexivity].
  unfold mbind, st_bind, st_lift. cbv iota.
  destruct (foldM _ pebble_NewBatch _) as [b|e] eqn:E; [|simpl; reflexivity].
  apply rel_commit. revert E. generalize (tx_outputs (w_mp w) t). intros l E.
  eapply (foldM_ind (fun b _ => mempool_batch b)) in E; [done|apply mempool_batch_new|].
  clear. intros _ o b b' Hb Hp. unfold persist_output in Hp. go_inv.
  match goal with
  | Hk : MakeMempoolKey _ _ _ = _, Hs : batch_Set _ _ _ = _ |- _ =>
      apply MakeMempoolKey_head in Hk; apply batch_Set_Ok in Hs;
      unfold mempool_batch; rewrite Hs
  end. apply Forall_app. split; [done|]. by repeat constructor.
Qed.

Lemma unpersist_batch l b : mempool_batch b -> mempool_batch (foldl unpersist_output b l).
Proof.
  revert b; induction l as [|o l IH]; intros b Hb; [done|]. cbn [foldl]. apply IH.
  unfold unpersist_output. destruct (MakeMempoolKey _ _ _) eqn:E; [|done].
  apply mempool_batch_delete; [done|]. by eapply MakeMempoolKey_head.
Qed.

Lemma rel_unpersist t : st_rel overlay_frame (unpersistTransaction t).
Proof.
  unfold unpersistTransaction. apply st_rel_bind; [apply _|apply st_rel_gets, _|]. intros m.
  destruct (negb _); [apply st_rel_ret, _|].
  apply st_rel_bind; [apply _| |intros; apply st_rel_ret, _].
  apply st_rel_try, rel_commit, unpersist_batch, mempool_batch_new.
Qed.

Lemma mempool_entry_head kv m :
  kv ∈ entries_in [PrefixMempool] (PrefixUpperBound [PrefixMempool]) m ->
  head kv.1 = Some PrefixMempool.
Proof.
  destruct kv as [k v]. intros [_ Hb]%entries_in_spec. apply Is_true_true in Hb.
  apply (in_bounds_prefix_inc [] PrefixMempool 0) in Hb; [|done].
  destruct Hb as [[z ->]|(j & ? & _)]; [done|lia].
Qed.

Lemma rel_clearPersisted : st_rel overlay_frame clearPersistedData.
Proof.
  intros w. unfold clearPersistedData.
  rewrite (st_bind_run (st_gets w_mp) _ w (w_mp w) w) by done.
  destruct (negb (mp_hasdb (w_mp w))); [simpl; reflexivity|].
  pose proof (NewPrefixIterator_cases [PrefixMempool] (w_db w)) as [Hc Hi].
  destruct (NewPrefixIterator [PrefixMempool] (w_db w)) as [r d] eqn:E. simpl in Hc, Hi.
  rewrite (st_bind_run _ _ w r (mkWorld d (w_mp w))) by (by apply st_try_run, in_db_run).
  assert (Hd : overlay_frame w (mkWorld d (w_mp w))).
  { split; [done|]. intros k _. simpl. by rewrite Hc. }
  destruct r as [it|e]; [|exact Hd]. destruct (0 <? _); [|exact Hd].
  etrans; [exact Hd|]. apply st_rel_bind; [apply _| |intros; apply st_rel_ret, _].
  apply st_rel_try, rel_commit. destruct Hi as [[rest Hrest] _].
  assert (Hall : Forall (fun kv => head kv.1 = Some PrefixMempool) (it_entries it)).
  { apply Forall_forall. intros kv Hkv. apply (mempool_entry_head kv (contents (w_db w))).
    rewrite Hrest. by apply elem_of_app; left. }
  clear -Hall PL. generalize mempool_batch_new. generalize pebble_NewBatch.
  induction Hall as [|kv l Hkv _ IH]; intros b Hb; [done|]. cbn [foldl].
  by apply IH, mempool_batch_delete.
Qed.

End Frame.

#[export] Hint Resolve rel_in_db rel_mdb rel_mdb_wrap rel_persist rel_unpersist rel_clearPersisted
  : st_rel.

(** ** [AddTransaction], case by case *)

Section Add.
Context {P : Pebble} {PL : PebbleLaws P} {B : Btcd} {BL : BtcdLaws B}.

Lemma rel_add_input acc i : st_rel world_same (add_input acc i).
Proof. unfold add_input. solve_rel. Qed.

(** The outpoint keys a transaction spends. *)
Definition spent_keys (ins : list OutPoint) : list string :=
  (fun i => makeOutpointKey (op_Hash i) (op_Index i)) <$>
    filter (fun i => IsCoinbaseInput i = false) ins.

Definition hex_keyed (affected : gmap string bytes) : Prop :=
  forall k sh, affected !! k = Some sh -> k = EncodeToString sh.

Lemma hex_keyed_insert affected sh :
  hex_keyed affected -> hex_keyed (<[EncodeToString sh := sh]> affected).
Proof. intros Ha k sh' [[<- <-]|[_ ?]]%lookup_insert_Some; [done|]. by apply Ha. Qed.

(** An input was unspent in the overlay when it was recorded. *)
Definition inputs_inv (m : MempoolOverlay) (acc : input_acc) (pre : list OutPoint) : Prop :=
  (input_key <$> acc.1.1 = spent_keys pre) /\
  (forall i, i ∈ acc.1.1 -> spentBy m !! input_key i = None) /\
  hex_keyed acc.2.

Lemma spent_keys_snoc pre i : spent_keys (pre ++ [i]) =
  spent_keys pre ++
    (if IsCoinbaseInput i then [] else [makeOutpointKey (op_Hash i) (op_Index i)]).
Proof.
  unfold spent_keys. rewrite filter_app, fmap_app, filter_cons.
  by case_decide as E; destruct (IsCoinbaseInput i).
Qed.

Lemma inputs_inv_snoc m ins iv aff pre i sh v fm iv' aff' :
  inputs_inv m (ins, iv, aff) pre -> IsCoinbaseInput i = false ->
  spentBy m !! makeOutpointKey (op_Hash i) (op_Index i) = None -> hex_keyed aff' ->
  inputs_inv m (ins ++ [mkMempoolInput (op_Hash i) (op_Index i) sh v fm], iv', aff') (pre ++ [i]).
Proof.
  intros (H1 & H2 & H3) Hc Hs Ha. unfold inputs_inv. cbn [fst snd] in *.
  rewrite fmap_app, H1, spent_keys_snoc, Hc. split_and!; [done| |done].
  intros j [Hj| ->%list_elem_of_singleton]%elem_of_app; [by apply H2|done].
Qed.

Lemma add_input_inv m acc pre i w acc' w' :
  w_mp w = m -> inputs_inv m acc pre -> add_input acc i w = (Ok acc', w') ->
  inputs_inv m acc' (pre ++ [i]) /\
  (IsCoinbaseInput i = false -> spentBy m !! makeOutpointKey (op_Hash i) (op_Index i) = None).
Proof.
  destruct acc as [[ins iv] aff]. intros Hm Hinv. unfold add_input.
  destruct (IsCoinbaseInput i) eqn:Ec.
  { intros [= <- _]. split; [|done]. unfold inputs_inv. rewrite spent_keys_snoc, Ec, app_nil_r.
    exact Hinv. }
  intros (m0 & w0 & [= <- <-] & H)%st_bind_Ok. rewrite Hm in H.
  change (TxidFromHash (op_Hash i)) with (op_Hash i) in H.
  destruct (spentBy m !! _) as [h|] eqn:Es.
  { apply st_bind_Ok in H as (? & ? & _ & H). discriminate H. }
  split; [|done]. pose proof (proj2 (proj2 Hinv)) as Ha. cbn [snd] in Ha.
  destruct (outputs m !! _) as [a|].
  { injection H as <- _. apply (inputs_inv_snoc _ _ iv aff); auto using hex_keyed_insert. }
  apply st_bind_Ok in H as ([sh|] & w1 & _ & H).
  - apply st_bind_Ok in H as (utxo & w2 & _ & H). injection H as <- _.
    apply (inputs_inv_snoc _ _ iv aff); auto using hex_keyed_insert.
  - injection H as <- _. by apply (inputs_inv_snoc _ _ iv aff).
Qed.

Lemma add_inputs_Ok m l w acc w' :
  w_mp w = m -> st_foldM add_input ([], 0, ∅) l w = (Ok acc, w') ->
  inputs_inv m acc l /\ (forall k, k ∈ spent_keys l -> spentBy m !! k = None).
Proof.
  intros Hm H.
  eapply (st_foldM_ind (fun acc pre w => w_mp w = m /\ inputs_inv m acc pre /\
    forall k, k ∈ spent_keys pre -> spentBy m !! k = None)) in H; [naive_solver| |].
  - split_and!; [done| |by intros k ?%elem_of_nil].
    split_and!; [done|by intros i ?%elem_of_nil|by intros k sh].
  - intros pre i post acc0 w0 acc1 w1 (Hw0 & Hinv & Hk) _ Hstep.
    pose proof (rel_add_input acc0 i w0) as [Hmp _]. rewrite Hstep in Hmp. simpl in Hmp.
    destruct (add_input_inv m acc0 pre i w0 acc1 w1 Hw0 Hinv Hstep) as [H1 H2].
    split_and!; [congruence|done|]. intros k. rewrite spent_keys_snoc.
    intros [?|Hin]%elem_of_app; [by apply Hk|].
    destruct (IsCoinbaseInput i); [by apply elem_of_nil in Hin|].
    apply list_elem_of_singleton in Hin as ->. by apply H2.
Qed.

(** The outputs added, and that none of their scripthashes is lost. *)
Definition outputs_inv (txid : bytes) (acc : output_acc) : Prop :=
  (forall o, o ∈ acc.1.1 -> mo_Txid o = txid /\ mo_SpentByTxid o = [] /\
     exists k, acc.2 !! k = Some (mo_Scripthash o)) /\
  hex_keyed acc.2.

Lemma add_output_inv txid acc vo : outputs_inv txid acc -> outputs_inv txid (add_output txid acc vo).
Proof.
  destruct acc as [[outs ov] aff], vo as [v o]. intros [H1 H2]. unfold add_output.
  destruct (IsOpReturn _); [done|]. destruct (_ =? 0); [done|].
  split; cbn [fst snd] in *; [|by apply hex_keyed_insert].
  intros o' [Ho| ->%list_elem_of_singleton]%elem_of_app.
  - destruct (H1 o' Ho) as (E1 & E2 & k & Hk). split_and!; [done..|].
    destruct (decide (k = EncodeToString (ComputeScripthash (to_PkScript o)))) as [->|Hne].
    + apply H2 in Hk as Hk'. apply (inj EncodeToString) in Hk'. rewrite <- Hk'.
      exists (EncodeToString (ComputeScripthash (to_PkScript o))). apply lookup_insert_eq.
    + exists k. by rewrite lookup_insert_ne.
  - split_and!; [done..|]. eexists. apply lookup_insert_eq.
Qed.

Lemma add_outputs_inv txid aff l :
  hex_keyed aff -> outputs_inv txid (foldl (add_output txid) ([], 0, aff) l).
Proof.
  intros Ha. assert (H0 : outputs_inv txid ([], 0, aff)) by (split; [by intros o ?%elem_of_nil|done]).
  revert H0. generalize (([], 0, aff) : output_acc). induction l as [|x l IH]; intros acc H0; [done|].
  cbn [foldl]. by apply IH, add_output_inv.
Qed.

(** What [AddTransaction] did, whatever its outcome. *)
Variant add_outcome (ord : range_order) (tx : MsgTx) (w : world) :
    result (list string) -> world -> Prop :=
| add_known :
    is_Some (transactions (w_mp w) !! hash_String (TxHash tx)) ->
    add_outcome ord tx w (Ok []) w
| add_failed e w' :
    transactions (w_mp w) !! hash_String (TxHash tx) = None ->
    world_same w w' ->
    add_outcome ord tx w (Err e) w'
| add_recorded t outs affected w' :
    recordable t outs affected (w_mp w) ->
    mt_Txid t = TxHash tx -> mt_TxidHex t = hash_String (TxHash tx) ->
    input_key <$> mt_Inputs t = spent_keys (tx_TxIn tx) ->
    w_mp w' = record_transaction ord t outs affected (w_mp w) ->
    confirmed_same (contents (w_db w)) (contents (w_db w')) ->
    add_outcome ord tx w (Ok (range_map ord 2 affected).*1) w'.

Lemma AddTransaction_outcome ord now tx w :
  add_outcome ord tx w (AddTransaction ord now tx w).1 (AddTransaction ord now tx w).2.
Proof.
  unfold AddTransaction. rewrite (st_bind_run (st_gets w_mp) _ w (w_mp w) w) by done.
  destruct (decide (is_Some _)) as [Hk|Hk]; [by apply add_known|].
  apply eq_None_not_Some in Hk.
  pose proof (st_rel_foldM world_same add_input (tx_TxIn tx) ([], 0, ∅) rel_add_input w) as Hsame.
  destruct (st_foldM add_input ([], 0, ∅) (tx_TxIn tx) w) as [[acc|e] w1] eqn:Ein.
  2:{ rewrite (st_bind_err _ _ _ _ _ Ein). by apply add_failed. }
  rewrite (st_bind_run _ _ _ _ _ Ein). simpl in Hsame.
  destruct (add_inputs_Ok _ _ _ _ _ eq_refl Ein) as [(H1 & H2 & H3) _].
  destruct acc as [[ins iv] aff]. cbn [fst snd] in H1, H2, H3.
  change (TxidFromHash (TxHash tx)) with (TxHash tx).
  pose proof (add_outputs_inv (TxHash tx) aff (indexed (tx_TxOut tx)) H3) as [Ho1 Ho2].
  destruct (foldl (add_output (TxHash tx)) ([], 0, aff) (indexed (tx_TxOut tx)))
    as [[outs ov] affected]. cbn [fst snd] in Ho1, Ho2.
  rewrite (st_bind_run (st_gets w_mp) _ w1 (w_mp w1) w1) by done.
  destruct Hsame as [Hmp Hdb]. rewrite Hmp.
  set (t := mkMempoolTransaction _ _ _ _ _ _ _ _).
  set (m' := record_transaction ord t outs affected (w_mp w)).
  rewrite (st_bind_run (put_mp m') _ w1 () (mkWorld (w_db w1) m')) by done.
  pose proof (st_rel_try overlay_frame _ (rel_persist t) (mkWorld (w_db w1) m')) as [Hmp2 Hdb2].
  destruct (persistTransaction t (mkWorld (w_db w1) m')) as [r w2] eqn:Ep.
  rewrite (st_bind_run _ _ _ _ _ (st_try_run _ _ _ _ Ep)).
  unfold st_try in Hmp2, Hdb2. rewrite Ep in Hmp2, Hdb2. simpl in Hmp2, Hdb2 |- *.
  apply (add_recorded ord tx w t outs affected w2); try done.
  - split; simpl; try done.
    + split; [apply hash_String_Txid|]; apply length_TxHash.
    + intros o Ho. destruct (Ho1 o Ho) as (E1 & E2 & k & Hk'). split_and!; [done..|].
      apply elem_of_range_values. eauto.
    + intros sh. apply elem_of_range_values.
  - intros k Hk'. by rewrite Hdb2, Hdb.
Qed.

End Add.

(** ** The other operations *)

Section Ops.
Context {P : Pebble} {PL : PebbleLaws P} {B : Btcd} {BL : BtcdLaws B}.

Lemma unpersist_run t w : exists w', unpersistTransaction t w = (Ok (), w') /\ overlay_frame w w'.
Proof.
  pose proof (rel_unpersist t w) as Hr.
  destruct (unpersistTransaction t w) as [r w'] eqn:E. exists w'. split; [|done].
  revert E. unfold unpersistTransaction. rewrite (st_bind_run (st_gets w_mp) _ w (w_mp w) w) by done.
  destruct (negb _); [by intros [= <- <-]|].
  match goal with |- context [st_try ?c] => destruct (c w) as [r1 w1] eqn:E1 end.
  rewrite (st_bind_run _ _ _ _ _ (st_try_run _ _ _ _ E1)). by intros [= <- <-].
Qed.

Lemma clear_run w : exists w', clearPersistedData w = (Ok (), w') /\ overlay_frame w w'.
Proof.
  pose proof (rel_clearPersisted w) as Hr.
  destruct (clearPersistedData w) as [r w'] eqn:E. exists w'. split; [|done].
  revert E. unfold clearPersistedData. rewrite (st_bind_run (st_gets w_mp) _ w (w_mp w) w) by done.
  destruct (negb _); [by intros [= <- <-]|].
  match goal with |- context [st_try ?c] => destruct (c w) as [r1 w1] eqn:E1 end.
  rewrite (st_bind_run _ _ _ _ _ (st_try_run _ _ _ _ E1)).
  destruct r1 as [it|e]; [|by intros [= <- <-]]. destruct (0 <? _); [|by intros [= <- <-]].
  match goal with |- context [st_try ?c] => destruct (c w1) as [r2 w2] eqn:E2 end.
  rewrite (st_bind_run _ _ _ _ _ (st_try_run _ _ _ _ E2)). by intros [= <- <-].
Qed.

(** Removing a transaction, as a function on the overlay. *)
Definition forget (h : string) (m : MempoolOverlay) : MempoolOverlay :=
  match transactions m !! h with
  | Some t => forget_transaction h t m
  | None => m
  end.

Lemma forget_lookup h m h' : transactions (forget h m) !! h' =
  if decide (h' = h) then None else transactions m !! h'.
Proof.
  unfold forget. destruct (transactions m !! h) as [t|] eqn:E; simpl; case_decide; subst;
    by rewrite ?lookup_delete_eq, ?lookup_delete_ne by done.
Qed.

Lemma forget_wf L h m : mp_inv L m -> mp_inv L (forget h m).
Proof. intros I. unfold forget. destruct (_ !! h) eqn:E; [by apply forget_inv|done]. Qed.

Lemma remove_run ord n h w : exists l w', removeTransactionLocked ord n h w = (Ok l, w') /\
  w_mp w' = forget h (w_mp w) /\ confirmed_same (contents (w_db w)) (contents (w_db w')) /\
  (forall x, x ∈ l <-> exists t, transactions (w_mp w) !! h = Some t /\
     x ∈ EncodeToString <$> mt_Scripthashes t).
Proof.
  unfold removeTransactionLocked, forget.
  rewrite (st_bind_run (st_gets w_mp) _ w (w_mp w) w) by done.
  destruct (transactions (w_mp w) !! h) as [t|] eqn:E.
  - set (m' := forget_transaction h t (w_mp w)).
    rewrite (st_bind_run (put_mp m') _ w () (mkWorld (w_db w) m')) by done.
    destruct (unpersist_run t (mkWorld (w_db w) m')) as (w' & E' & Hmp & Hdb).
    rewrite (st_bind_run _ _ _ _ _ E'). eexists _, w'. split_and!; [done..|].
    intros x. rewrite elem_of_range_set, elem_of_list_to_set. naive_solver.
  - exists [], w. split_and!; [done..|]. set_solver.
Qed.

(** *** Reconciling *)

Lemma reconcile_loop L ord valid l w : exists affected w',
  st_foldM (reconcile_tx ord valid) (0, ∅) l w =
    (Ok (Z.of_nat (length (filter (fun h => h ∉ valid) l.*2)), affected), w') /\
  (mp_inv L (w_mp w) -> mp_inv L (w_mp w')) /\
  (forall h, transactions (w_mp w') !! h =
     if decide (h ∈ l.*2 /\ h ∉ valid) then None else transactions (w_mp w) !! h) /\
  confirmed_same (contents (w_db w)) (contents (w_db w')).
Proof.
  rewrite <- (Z.add_0_l (Z.of_nat _)). generalize 0 as r0. generalize (∅ : gset string) as a0.
  revert w. induction l as [|[i h] l IH]; intros w a0 r0.
  - exists a0, w. simpl. rewrite Z.add_0_r. split_and!; try done.
  - cbn [st_foldM]. rewrite fmap_cons, filter_cons. cbn [snd].
    destruct (decide (h ∈ valid)) as [Hv|Hv].
    + rewrite (decide_False (P := h ∉ valid)) by auto.
      rewrite (st_bind_run _ _ w (r0, a0) w)
        by (unfold reconcile_tx; by rewrite decide_True).
      destruct (IH w a0 r0) as (a & w' & E & H1 & H2 & H3).
      exists a, w'. split_and!; try done. intros h'. rewrite H2.
      repeat case_decide; set_solver.
    + rewrite (decide_True (P := h ∉ valid)) by done.
      destruct (remove_run ord (3 + i) h w) as (l' & w1 & E1 & Hm & Hdb & _).
      rewrite (st_bind_run _ _ w (r0 + 1, list_to_set l' ∪ a0) w1)
        by (unfold reconcile_tx; rewrite decide_False by done;
            by rewrite (st_bind_run _ _ _ _ _ E1)).
      destruct (IH w1 (list_to_set l' ∪ a0) (r0 + 1)) as (a & w' & E & H1 & H2 & H3).
      exists a, w'. split_and!.
      * rewrite E, length_cons. do 3 f_equal. lia.
      * intros I. apply H1. rewrite Hm. by apply forget_wf.
      * intros h'. rewrite H2, Hm, forget_lookup.
        repeat case_decide; subst; set_solver.
      * intros k Hk. by rewrite H3, Hdb.
Qed.

Lemma imap_pair_snd {A} (l : list A) : (imap pair l).*2 = l.
Proof.
  apply list_eq. intros i. rewrite list_lookup_fmap, list_lookup_imap. by destruct (l !! i).
Qed.

(** One round of the second loop. *)
Lemma reconcile_output_inv L valid r a m ka :
  mp_inv L m -> (forall h, is_Some (transactions m !! h) -> h ∈ valid) ->
  let '(_, _, m') := reconcile_output valid (r, a, m) ka in
  mp_inv L m' /\ mp_heap m' = mp_heap m /\ transactions m' = transactions m /\
  spentBy m' = spentBy m /\
  outputs m' = if decide (TxidToHex (mo_Txid (cell m ka.2)) ∈ valid) then outputs m
               else delete ka.1 (outputs m).
Proof.
  intros I Hv. unfold reconcile_output.
  destruct (decide (TxidToHex (mo_Txid (cell m ka.2)) ∈ valid)) as [Hd|Hd]; [by split_and!|].
  cbn [mp_heap transactions spentBy outputs]. split_and!; [|done..].
  set (h0 := TxidToHex _) in *. set (sh0 := EncodeToString _). split; try apply I.
  - intros sh h t Ht Hs. cbn [transactions byScripthash] in *. rewrite unindex_at.
    pose proof (inv_index L m I sh h t Ht Hs). assert (h <> h0) by (intros ->; apply Hd, Hv; eauto).
    case_decide; set_solver.
  - intros sh h. cbn [transactions byScripthash]. rewrite unindex_at. intros Hin.
    apply (inv_index_only L m I). case_decide; set_solver.
  - apply unindex_nonempty, (inv_nonempty L m I).
  - intros k ad. cbn [outputs]. intros [_ Hk]%lookup_delete_Some. by apply (inv_key L m I).
  - intros k ad. cbn [outputs]. intros [_ Hk]%lookup_delete_Some. by apply (inv_out L m I k).
Qed.

Lemma reconcile_outputs_inv L valid l r a m :
  mp_inv L m -> (forall h, is_Some (transactions m !! h) -> h ∈ valid) ->
  let '(_, _, m') := foldl (reconcile_output valid) (r, a, m) l in
  mp_inv L m' /\ mp_heap m' = mp_heap m /\ transactions m' = transactions m /\
  forall k ad, outputs m' !! k = Some ad -> outputs m !! k = Some ad /\
    ((k, ad) ∈ l -> TxidToHex (mo_Txid (cell m' ad)) ∈ valid).
Proof.
  intros I Hv. revert r a m I Hv. induction l as [|ka l IH]; intros r a m I Hv; cbn [foldl].
  { split_and!; try done. intros k ad Hk. split; [done|]. by intros ?%elem_of_nil. }
  pose proof (reconcile_output_inv L valid r a m ka I Hv) as H1.
  destruct (reconcile_output valid (r, a, m) ka) as [[r1 a1] m1].
  destruct H1 as (I1 & Hh & Ht & _ & Ho).
  specialize (IH r1 a1 m1 I1 ltac:(by rewrite Ht)).
  destruct (foldl _ (r1, a1, m1) l) as [[r2 a2] m2]. destruct IH as (I2 & Hh2 & Ht2 & Ho2).
  split_and!; [done|congruence|congruence|]. intros k ad Hk.
  destruct (Ho2 k ad Hk) as [Hk1 Hin2]. rewrite Ho in Hk1. split.
  - case_decide; [done|]. by apply lookup_delete_Some in Hk1 as [_ ?].
  - intros [E|Hin]%elem_of_cons; [|by apply Hin2]. destruct ka as [k' ad']. injection E as <- <-.
    cbn [fst snd] in *. unfold cell. rewrite Hh2, Hh. fold (cell m ad).
    case_decide as Hd; [done|]. by rewrite lookup_delete_eq in Hk1.
Qed.

(** With nothing loaded, the outputs left belong to valid transactions: the
    second loop finds nothing. *)
Lemma reconcile_outputs_noop valid acc m l :
  mp_inv nothing_loaded m -> (forall h, is_Some (transactions m !! h) -> h ∈ valid) ->
  Forall (fun ka => outputs m !! ka.1 = Some ka.2) l ->
  foldl (reconcile_output valid) (acc, m) l = (acc, m).
Proof.
  intros I Hv. destruct acc as [r a]. induction 1 as [|[k ad] l Hk _ IH]; [done|]. cbn [foldl].
  replace (reconcile_output valid (r, a, m) (k, ad)) with (r, a, m); [done|].
  unfold reconcile_output. cbn [fst snd] in *.
  destruct (inv_out _ m I k ad Hk) as [(h & t & Ht & Ha)|[]].
  destruct (inv_cells _ m I h t ad Ht Ha) as (_ & E & _).
  destruct (inv_tx _ m I h t Ht) as (_ & Hh & _). rewrite E, <- Hh.
  by rewrite decide_True by (apply Hv; eauto).
Qed.

Lemma range_map_lookup_all {V} ord n (m : gmap string V) :
  Forall (fun kv => m !! kv.1 = Some kv.2) (range_map ord n m).
Proof. apply Forall_forall. intros [k v]. apply elem_of_range_map. Qed.

Lemma range_map_keys_perm {V} ord n (m : gmap string V) : (range_map ord n m).*1 ≡ₚ (map_to_list m).*1.
Proof.
  apply NoDup_Permutation.
  - unfold range_map. set (l := range_keys _ _ _).
    assert (Hl : NoDup l) by (unfold l; rewrite range_perm; apply NoDup_fst_map_to_list).
    clearbody l. induction Hl as [|k l Hk _ IH]; [constructor|]. simpl.
    destruct (m !! k); simpl; [|done]. constructor; [|done].
    intros ([k' v'] & -> & Hin)%list_elem_of_fmap. apply list_elem_of_omap in Hin as (k'' & Hin & E).
    destruct (m !! k''); simpl in E; [|done]. injection E as <- <-. done.
  - apply NoDup_fst_map_to_list.
  - intros k. rewrite elem_of_range_keys, list_elem_of_fmap. split.
    + intros [v Hv]. exists (k, v). by rewrite elem_of_map_to_list.
    + intros ([k' v] & -> & Hv). apply elem_of_map_to_list in Hv. eauto.
Qed.

Lemma filter_spent_inv L (valid : gset string) m : mp_inv L m ->
  (forall h, is_Some (transactions m !! h) -> h ∈ valid) ->
  mkOverlay (mp_hasdb m) (mp_heap m) (transactions m) (byScripthash m)
    (filter (fun kv => kv.2 ∈ valid) (spentBy m)) (outputs m) = m.
Proof.
  intros I Hv. assert (filter (fun kv => kv.2 ∈ valid) (spentBy m) = spentBy m) as ->.
  { apply map_filter_id. intros k h Hk. simpl. apply Hv.
    destruct (inv_spent _ m I k h Hk) as (t & -> & _). eauto. }
  by destruct m.
Qed.

(** The map of the transactions kept, and how many are not. *)
Lemma kept_transactions ord (valid : gset string) (tm tm' : gmap string MempoolTransaction) :
  (forall h, tm' !! h =
     if decide (h ∈ (range_map ord 0 tm).*1 /\ h ∉ valid) then None else tm !! h) ->
  tm' = filter (fun kv => kv.1 ∈ valid) tm.
Proof.
  intros Htx. apply map_eq. intros h. rewrite Htx.
  destruct (filter _ _ !! h) as [t|] eqn:Ef.
  - apply map_lookup_filter_Some in Ef as [Ht Hv]. rewrite decide_False; [done|].
    simpl in Hv. tauto.
  - case_decide as Hd; [done|]. apply map_lookup_filter_None in Ef as [Ef|Ef]; [done|].
    destruct (_ !! h) as [t|] eqn:Et; [|done]. destruct Hd. split.
    + apply elem_of_range_keys. eauto.
    + by apply (Ef t).
Qed.

Lemma count_invalid ord (valid : gset string) (tm : gmap string MempoolTransaction) :
  length (filter (fun h => h ∉ valid) (range_map ord 0 tm).*1) =
  size (filter (fun kv => kv.1 ∉ valid) tm).
Proof.
  rewrite <- length_map_to_list, map_to_list_filter, range_map_keys_perm.
  induction (map_to_list tm) as [|[k t] l IH]; [done|].
  rewrite fmap_cons, !filter_cons. cbn [fst]. by case_decide; rewrite ?length_cons, IH.
Qed.

Lemma ReconcileWith_run L ord valid w : mp_inv L (w_mp w) -> exists n l w',
  ReconcileWith ord valid w = (Ok (n, l), w') /\
  mp_inv L (w_mp w') /\
  transactions (w_mp w') = filter (fun kv => kv.1 ∈ valid) (transactions (w_mp w)) /\
  (forall k ad, outputs (w_mp w') !! k = Some ad ->
     TxidToHex (mo_Txid (cell (w_mp w') ad)) ∈ valid) /\
  (mp_inv nothing_loaded (w_mp w) ->
     n = Z.of_nat (size (filter (fun kv => kv.1 ∉ valid) (transactions (w_mp w))))) /\
  confirmed_same (contents (w_db w)) (contents (w_db w')).
Proof.
  intros I. unfold ReconcileWith. rewrite (st_bind_run (st_gets w_mp) _ w (w_mp w) w) by done.
  set (keys := (range_map ord 0 (transactions (w_mp w))).*1).
  pose proof (reconcile_loop L ord valid (indexed keys) w) as (a & w1 & E & I1 & Htx & Hdb).
  pose proof (reconcile_loop nothing_loaded ord valid (indexed keys) w) as (a' & w1' & E' & I1' & _).
  rewrite E in E'. injection E' as <- <-.
  unfold indexed in E, Htx. rewrite imap_pair_snd in E, Htx. specialize (I1 I).
  unfold indexed. rewrite (st_bind_run _ _ _ _ _ E).
  rewrite (st_bind_run (st_gets w_mp) _ w1 (w_mp w1) w1) by done.
  assert (Hk : transactions (w_mp w1) = filter (fun kv => kv.1 ∈ valid) (transactions (w_mp w)))
    by (by apply (kept_transactions ord)).
  assert (Hvalid : forall h, is_Some (transactions (w_mp w1) !! h) -> h ∈ valid).
  { intros h [t Ht]. rewrite Hk in Ht. by apply map_lookup_filter_Some in Ht as [_ ?]. }
  set (l := range_map ord 1 (outputs (w_mp w1))).
  set (n0 := Z.of_nat _).
  pose proof (reconcile_outputs_inv L valid l n0 a (w_mp w1) I1 Hvalid) as H2.
  pose proof (reconcile_outputs_noop valid (n0, a) (w_mp w1) l) as Hnoop.
  destruct (foldl (reconcile_output valid) (n0, a, w_mp w1) l) as [[n a2] m2].
  destruct H2 as (I2 & Hh2 & Ht2 & Ho2).
  rewrite (filter_spent_inv L valid m2 I2) by (by rewrite Ht2).
  eexists n, _, _. split_and!; [done|done|by rewrite <- Hk| | |exact Hdb].
  - cbn [w_mp put_mp st_modify]. intros k ad Hka. destruct (Ho2 k ad Hka) as [Hk1 Hin].
    apply Hin. unfold l. by apply elem_of_range_map.
  - intros I0. specialize (Hnoop (I1' I0) Hvalid (range_map_lookup_all _ _ _)).
    injection Hnoop as -> _ _. unfold n0, keys. by rewrite count_invalid.
Qed.

(** *** Loading *)

(** The pairs (scripthash, transaction) an entry of the database adds. *)
Definition load_pairs (L : loaded) (kv : bytes * bytes) : loaded := fun sh h =>
  L sh h \/ exists s t v, ParseMempoolKey kv.1 = Ok (s, t, v) /\
    sh = EncodeToString s /\ h = TxidToHex t.

Lemma load_entry_inv L m kv : mp_inv L m -> mp_inv (load_pairs L kv) (load_entry m kv).
Proof.
  intros I. assert (Hweak : mp_inv (load_pairs L kv) m).
  { split; try apply I.
    - intros sh h Hin. destruct (inv_index_only L m I sh h Hin); [by left|by right; left].
    - intros k a Hk. destruct (inv_out L m I k a Hk); [by left|by right; left]. }
  unfold load_entry. destruct (ParseMempoolKey kv.1) as [[[s t] v]|e] eqn:Ep; [|done].
  destruct (DecodeMempoolValue kv.2) as [val|e]; [|done]. clear Hweak.
  assert (Hcell : forall a, (a < length (mp_heap m))%nat -> forall o,
    (mp_heap m ++ [o]) !!! a = mp_heap m !!! a) by (intros; by rewrite lookup_total_app_l).
  split; cbn [transactions byScripthash spentBy outputs mp_heap]; try apply I.
  - intros h t' a Ht' Ha. destruct (inv_cells L m I h t' a Ht' Ha) as (Hl & H2 & H3).
    rewrite length_app. unfold cell in *. cbn [mp_heap]. rewrite Hcell by done. split; [lia|done].
  - intros sh h t' Ht' Hs. rewrite index_at. pose proof (inv_index L m I sh h t' Ht' Hs).
    case_decide; set_solver.
  - intros sh h. rewrite index_at. case_decide as Hd.
    + intros [->%elem_of_singleton|Hin]%elem_of_union.
      * right. right. exists s, t, v. by subst.
      * destruct (inv_index_only L m I sh h Hin); [by left|by right; left].
    + intros Hin. destruct (inv_index_only L m I sh h Hin); [by left|by right; left].
  - intros sh' s'. unfold index_scripthash. rewrite lookup_insert_Some.
    intros [[_ <-]|[_ ?]]; [set_solver|by eapply (inv_nonempty L m I)].
  - intros k a. rewrite length_app. unfold cell. cbn [mp_heap length].
    rewrite lookup_insert_Some. intros [[<- <-]|[_ Hk]].
    + rewrite lookup_total_app_r, Nat.sub_diag by lia. split; [lia|done].
    + destruct (inv_key L m I k a Hk) as [Hl ->]. rewrite Hcell by done. split; [lia|done].
  - intros k a. unfold cell. cbn [mp_heap]. rewrite lookup_insert_Some. intros [[<- <-]|[_ Hk]].
    + right. right. exists s, t, v. rewrite lookup_total_app_r, Nat.sub_diag by lia. done.
    + destruct (inv_key L m I k a Hk) as [Hl _]. rewrite Hcell by done.
      destruct (inv_out L m I k a Hk); [by left|by right; left].
Qed.

Lemma load_entries_inv L m l : mp_inv L m -> exists L', mp_inv L' (foldl load_entry m l).
Proof.
  revert L m; induction l as [|kv l IH]; intros L m I; [by exists L|]. cbn [foldl].
  eapply IH, load_entry_inv, I.
Qed.

End Ops.
