(* ===== verification/MempoolProps.v ===== *)
(** * Properties of the mempool overlay

    The exported operations as steps of a transition system on the database
    and the overlay, and what holds of every state they reach. *)

From Stdlib Require Import Strings.Byte.
From S2P Require Import Prelude Bytes Hex Keys Values Json Checkpoint Pebble Store Sha256 Types Mempool MempoolFacts.

Section Steps.
Context {P : Pebble} {PL : PebbleLaws P} {B : Btcd} {BL : BtcdLaws B}.

(** One call of an exported method that changes state; [load] allows
    [LoadFromDatabase]. *)
Inductive mp_step (load : bool) (w : world) : world -> Prop :=
| step_add ord now tx : mp_step load w (AddTransaction ord now tx w).2
| step_remove ord txid : mp_step load w (RemoveTransaction ord txid w).2
| step_remove_output txid vout : mp_step load w (RemoveOutput txid vout w).2
| step_clear : mp_step load w (Clear w).2
| step_reconcile ord valid : mp_step load w (ReconcileWith ord valid w).2
| step_load : load = true -> mp_step load w (LoadFromDatabase w).2.

Lemma RemoveOutput_run t v w : RemoveOutput t v w =
  (Ok (), mkWorld (w_db w) (remove_output (makeOutpointKey t v) (w_mp w))).
Proof. done. Qed.

Lemma Clear_run w : exists w', Clear w = (Ok (), w') /\
  w_mp w' = mkOverlay (mp_hasdb (w_mp w)) (mp_heap (w_mp w)) ∅ ∅ ∅ ∅ /\
  confirmed_same (contents (w_db w)) (contents (w_db w')).
Proof.
  unfold Clear. rewrite (st_bind_run (st_gets w_mp) _ w (w_mp w) w) by done.
  set (m' := mkOverlay _ _ ∅ ∅ ∅ ∅).
  rewrite (st_bind_run (put_mp m') _ w () (mkWorld (w_db w) m')) by done.
  destruct (clear_run (mkWorld (w_db w) m')) as (w' & E & Hm & Hc). by exists w'.
Qed.

Lemma cleared_inv L b heap : mp_inv L (mkOverlay b heap ∅ ∅ ∅ ∅).
Proof. by split; simpl; intros *; unfold indexed_at; rewrite ?lookup_empty. Qed.

Lemma LoadFromDatabase_frame w :
  contents (w_db (LoadFromDatabase w).2) = contents (w_db w) /\
  (w_mp (LoadFromDatabase w).2 = w_mp w \/
   exists l, w_mp (LoadFromDatabase w).2 = foldl load_entry (w_mp w) l).
Proof.
  unfold LoadFromDatabase. rewrite (st_bind_run (st_gets w_mp) _ w (w_mp w) w) by done.
  destruct (negb _); [split; [done|by left]|].
  pose proof (rel_in_db _ (st_rel_wrap db_same "failed to create mempool iterator: " _
    (rel_NewPrefixIterator [PrefixMempool])) w) as [Hm Hc].
  destruct (in_db _ w) as [[it|e] w1] eqn:E.
  - rewrite (st_bind_run _ _ _ _ _ E). simpl in *. split; [done|]. right. by eexists.
  - rewrite (st_bind_err _ _ _ _ _ E). simpl in *. split; [done|by left].
Qed.

Lemma step_inv load L w w' : mp_inv L (w_mp w) -> mp_step load w w' ->
  if load then exists L', mp_inv L' (w_mp w') else mp_inv L (w_mp w').
Proof.
  intros I Hs. assert (Hgen : mp_inv L (w_mp w') \/ load = true /\ exists L', mp_inv L' (w_mp w')).
  { destruct Hs as [ord now tx|ord txid|txid vout| |ord valid|Hl].
    - left. destruct (AddTransaction_outcome ord now tx w) as [?|e w' _ [Hm _]|t outs aff w' R _ _ _ Hm _].
      + done.
      + by rewrite Hm.
      + rewrite Hm. by apply record_inv.
    - left. destruct (remove_run ord 0 (TxidToHex txid) w) as (l & w' & E & Hm & _).
      unfold RemoveTransaction. rewrite E. cbn [snd]. rewrite Hm. by apply forget_wf.
    - left. rewrite RemoveOutput_run. by apply remove_output_inv.
    - left. destruct (Clear_run w) as (w' & E & Hm & _). rewrite E. cbn [snd]. rewrite Hm.
      apply cleared_inv.
    - left. destruct (ReconcileWith_run L ord valid w I) as (n & l & w' & E & I' & _).
      by rewrite E.
    - right. split; [done|]. destruct (LoadFromDatabase_frame w) as [_ [Hm|[l Hm]]]; rewrite Hm.
      + by exists L.
      + by apply (load_entries_inv L). }
  destruct load, Hgen as [?|[? ?]]; eauto. done.
Qed.

Lemma step_frame load L w w' : mp_inv L (w_mp w) -> mp_step load w w' ->
  confirmed_same (contents (w_db w)) (contents (w_db w')).
Proof.
  intros I Hs. destruct Hs as [ord now tx|ord txid|txid vout| |ord valid|Hl].
  - destruct (AddTransaction_outcome ord now tx w) as [?|e w' _ [_ Hm]|t outs aff w' R _ _ _ _ Hm].
    + done.
    + intros k _. by rewrite Hm.
    + done.
  - destruct (remove_run ord 0 (TxidToHex txid) w) as (l & w' & E & _ & Hm & _).
    unfold RemoveTransaction. by rewrite E.
  - done.
  - destruct (Clear_run w) as (w' & E & _ & Hm). by rewrite E.
  - destruct (ReconcileWith_run L ord valid w I) as (n & l & w' & E & _ & _ & _ & _ & Hm).
    by rewrite E.
  - intros k _. by rewrite (proj1 (LoadFromDatabase_frame w)).
Qed.

(** C13: in every state the overlay's operations reach, in any order and with
    any failures of the database: transactions are filed under their own txid;
    every live transaction is indexed under each of its scripthashes and no
    index set is empty; every spending mark and every output belongs to a live
    transaction or to a record loaded at start-up; and with nothing loaded the
    scripthash index holds the live transactions exactly. *)
Theorem overlay_invariant (load : bool) (db : pdb) (hasdb : bool) (w : world)
    (Hr : rtc (mp_step load) (mkWorld db (NewMempoolOverlay hasdb)) w) :
  (exists L, mp_inv L (w_mp w)) /\ (load = false -> mp_inv nothing_loaded (w_mp w)).
Proof.
  assert (Hgen : if load then exists L, mp_inv L (w_mp w) else mp_inv nothing_loaded (w_mp w)).
  { refine (rtc_ind_r (fun w => if load then exists L, mp_inv L (w_mp w)
              else mp_inv nothing_loaded (w_mp w)) _ _ _ w Hr).
    - destruct load; [exists nothing_loaded|]; apply mp_inv_new.
    - intros w1 w2 _ Hs IH. destruct load; [destruct IH as [L I]|];
        [apply (step_inv true L w1 w2 I Hs)|apply (step_inv false _ w1 w2 IH Hs)]. }
  destruct load; split; eauto. done.
Qed.

(** The overlay never changes confirmed data: whatever its operations do
    and whichever of them fail, every database key outside the mempool's own
    keyspace keeps its value. *)
Theorem overlay_confined (load : bool) (db : pdb) (hasdb : bool) (w : world) (k : bytes)
    (Hr : rtc (mp_step load) (mkWorld db (NewMempoolOverlay hasdb)) w)
    (Hk : head k <> Some PrefixMempool) :
  contents (w_db w) !! k = contents db !! k.
Proof.
  assert (Hgen : (exists L, mp_inv L (w_mp w)) /\ contents (w_db w) !! k = contents db !! k).
  { refine (rtc_ind_r (fun w => (exists L, mp_inv L (w_mp w)) /\
              contents (w_db w) !! k = contents db !! k) _ _ _ w Hr).
    - split; [exists nothing_loaded; apply mp_inv_new|done].
    - intros w1 w2 _ Hs [[L I] IH]. split.
      + pose proof (step_inv load L w1 w2 I Hs) as H. destruct load; eauto.
      + by rewrite (step_frame load L w1 w2 I Hs k Hk). }
  apply Hgen.
Qed.

(** [AddTransaction] is all or nothing: a transaction already present
    changes nothing and reports no scripthash; an error leaves the overlay and
    the database as they were; success files the transaction with its fields. *)
Theorem add_all_or_nothing (ord : range_order) (now : Z) (tx : MsgTx) (w : world) :
  let '(r, w') := AddTransaction ord now tx w in
  let h := hash_String (TxHash tx) in
  (is_Some (transactions (w_mp w) !! h) -> r = Ok [] /\ w' = w) /\
  (forall e, r = Err e ->
     w_mp w' = w_mp w /\ contents (w_db w') = contents (w_db w)) /\
  (forall l, r = Ok l -> transactions (w_mp w) !! h = None ->
     exists t, transactions (w_mp w') = <[h := t]> (transactions (w_mp w)) /\
       mt_Txid t = TxHash tx /\ input_key <$> mt_Inputs t = spent_keys (tx_TxIn tx) /\
       (forall sh, sh ∈ l <-> sh ∈ EncodeToString <$> mt_Scripthashes t)).
Proof.
  pose proof (AddTransaction_outcome ord now tx w) as Ho.
  destruct (AddTransaction ord now tx w) as [r w']. cbn [fst snd] in Ho.
  destruct Ho as [Hk|e w' Hk [Hm Hc]|t outs aff w' R Ht Hh Hi Hm _].
  - split_and!; [done|done|]. intros l _ Hn. destruct Hk as [t Ht]. congruence.
  - split_and!; [|by intros e' [= <-]|done]. intros [t Ht]. congruence.
  - pose proof (record_fields ord t outs aff (w_mp w)) as (_ & Htx & _).
    split_and!.
    + rewrite <- Hh. rewrite (rec_new _ _ _ _ R). by intros [? ?].
    + done.
    + intros l [= <-] Hn. exists t. rewrite Hm, Htx, Hh. split_and!; [done..|].
      intros sh. rewrite elem_of_range_keys, list_elem_of_fmap.
      setoid_rewrite (rec_scripthashes _ _ _ _ R). split.
      * intros [y Hy]. exists y. split; [by eapply rec_affected|eauto].
      * intros (y & -> & k & Hk). rewrite <- (rec_affected _ _ _ _ R _ _ Hk). eauto.
Qed.

(** A transaction that spends an outpoint another overlay transaction
    spends is refused, and nothing changes. *)
Theorem double_spend_refused (ord : range_order) (now : Z) (tx : MsgTx) (w : world)
    (i : OutPoint) (h : string)
    (Hnew : transactions (w_mp w) !! hash_String (TxHash tx) = None)
    (Hi : i ∈ tx_TxIn tx) (Hc : IsCoinbaseInput i = false)
    (Hs : spentBy (w_mp w) !! makeOutpointKey (op_Hash i) (op_Index i) = Some h) :
  exists e w', AddTransaction ord now tx w = (Err e, w') /\
    w_mp w' = w_mp w /\ contents (w_db w') = contents (w_db w).
Proof.
  pose proof (AddTransaction_outcome ord now tx w) as Ho.
  destruct (AddTransaction ord now tx w) as [r w']. cbn [fst snd] in Ho.
  destruct Ho as [Hk|e w' Hk [Hm Hcn]|t outs aff w' R Ht Hh Hin Hm _].
  - destruct Hk as [t Ht]. congruence.
  - by exists e, w'.
  - exfalso. assert (Hk : makeOutpointKey (op_Hash i) (op_Index i) ∈ input_key <$> mt_Inputs t).
    { rewrite Hin. unfold spent_keys. apply list_elem_of_fmap. exists i. split; [done|].
      by apply list_elem_of_filter. }
    apply list_elem_of_fmap in Hk as (j & Ej & Hj).
    pose proof (rec_inputs _ _ _ _ R j Hj) as Hn. congruence.
Qed.



Lemma mark_spent_twice txid o : mark_spent txid (mark_spent txid o) = mark_spent txid o.
Proof. done. Qed.






(** After [ReconcileWith] the overlay holds exactly the transactions of the
    node's mempool it held before, no output of any other transaction is left,
    and, with nothing loaded, the count returned is the number dropped. *)
Theorem reconcile_keeps_valid (ord : range_order) (valid : gset string) (L : loaded) (w : world)
    (Hw : mp_inv L (w_mp w)) :
  exists n l w', ReconcileWith ord valid w = (Ok (n, l), w') /\
    transactions (w_mp w') = filter (fun kv => kv.1 ∈ valid) (transactions (w_mp w)) /\
    (forall k a, outputs (w_mp w') !! k = Some a ->
       TxidToHex (mo_Txid (cell (w_mp w') a)) ∈ valid) /\
    (forall k h, spentBy (w_mp w') !! k = Some h -> h ∈ valid) /\
    (mp_inv nothing_loaded (w_mp w) ->
       n = Z.of_nat (size (filter (fun kv => kv.1 ∉ valid) (transactions (w_mp w))))).
Proof.
  destruct (ReconcileWith_run L ord valid w Hw) as (n & l & w' & E & I' & Ht & Ho & Hn & _).
  exists n, l, w'. split_and!; [done..| |done].
  intros k h Hk. destruct (inv_spent L _ I' k h Hk) as (t & Htx & _). rewrite Ht in Htx.
  by apply map_lookup_filter_Some in Htx as [_ ?].
Qed.

(** [GetUnspentOutputs] returns exactly the live outputs of the scripthash
    without a spending mark, whatever the iteration order, and each belongs to
    a transaction that [GetScripthashTransactions] lists. *)
Theorem unspent_outputs_exact (ord ord' : range_order) (sh : bytes) (m : MempoolOverlay)
    (Hm : mp_inv nothing_loaded m) (o : MempoolOutput) :
  (o ∈ GetUnspentOutputs ord sh m <->
     exists a, outputs m !! output_key o = Some a /\ cell m a = o /\
       mo_Scripthash o = sh /\ mo_SpentByTxid o = []) /\
  (o ∈ GetUnspentOutputs ord sh m ->
     TxidToHex (mo_Txid o) ∈ GetScripthashTransactions ord' sh m).
Proof.
  assert (Hex : o ∈ GetUnspentOutputs ord sh m <->
     exists a, outputs m !! output_key o = Some a /\ cell m a = o /\
       mo_Scripthash o = sh /\ mo_SpentByTxid o = []).
  { unfold GetUnspentOutputs. rewrite list_elem_of_filter, list_elem_of_fmap. unfold unspent_of.
    rewrite andb_true_iff, !bool_decide_eq_true. split.
    - intros [[Hs%(inj EncodeToString) Hu] ([k a] & -> & Hin)]. cbn [snd] in *.
      apply elem_of_range_map in Hin. exists a.
      destruct (inv_key _ m Hm k a Hin) as [_ <-]. done.
    - intros (a & Ha & Hc & <- & Hu). split; [done|]. exists (output_key o, a).
      split; [done|]. by apply elem_of_range_map. }
  split; [done|]. rewrite Hex. intros (a & Ha & Hc & Hs & _). unfold GetScripthashTransactions.
  apply elem_of_range_set.
  destruct (inv_out _ m Hm _ a Ha) as [(h & t & Ht & Hin)|[]].
  destruct (inv_cells _ m Hm h t a Ht Hin) as (_ & E1 & E2).
  destruct (inv_tx _ m Hm h t Ht) as (_ & Hh & _). rewrite Hc in E1, E2.
  rewrite E1, <- Hh. apply (inv_index _ m Hm _ h t Ht). apply list_elem_of_fmap. by subst; eauto.
Qed.

End Steps.

(** ** Concrete runs *)

(** The absence of a key, as a boolean to evaluate. *)
Lemma is_none_eq {A} (x : option A) : (if x then false else true) = true -> x = None.
Proof. by destruct x. Qed.

Definition id_order : range_order := mkRange (fun _ l => l) (fun _ l => reflexivity l).

Definition sample_hash_a : bytes := replicate 32 xaa.
Definition sample_hash_b : bytes := replicate 32 xbb.
Definition sample_script : bytes := [x51].
Definition sample_script2 : bytes := [x52].

(** A transaction paying 5000 to [sample_script], and one spending it. *)
Definition sample_parent : @MsgTx ModelBtcd := mkTx sample_hash_a [] [mkTxOut 5000 sample_script].
Definition sample_child : @MsgTx ModelBtcd :=
  mkTx sample_hash_b [mkOutPoint sample_hash_a 0] [mkTxOut 4000 sample_script2].

Definition world0 : @world MemPebble ModelBtcd :=
  mkWorld (memory ∅ None) (NewMempoolOverlay true).

Definition with_parent : world := (AddTransaction id_order 1700000000 sample_parent world0).2.
Definition with_child : world := (AddTransaction id_order 1700000001 sample_child with_parent).2.

Lemma with_parent_reachable : rtc (mp_step false) world0 with_parent.
Proof. eapply rtc_l; [apply step_add|apply rtc_refl]. Qed.

Lemma with_parent_inv : mp_inv nothing_loaded (w_mp with_parent).
Proof. apply (step_inv false nothing_loaded world0); [apply mp_inv_new|apply step_add]. Qed.

Lemma with_child_inv : mp_inv nothing_loaded (w_mp with_child).
Proof. apply (step_inv false nothing_loaded with_parent); [apply with_parent_inv|apply step_add]. Qed.

Lemma overlay_invariant_witness :
  (exists L, mp_inv L (w_mp with_parent)) /\
  (false = false -> mp_inv nothing_loaded (w_mp with_parent)).
Proof.
  apply (overlay_invariant false (memory ∅ None) true with_parent). apply with_parent_reachable.
Defined.

Lemma overlay_confined_witness :
  contents (w_db with_parent) !! KeyCheckpoint = contents (memory ∅ None) !! KeyCheckpoint.
Proof.
  apply (overlay_confined false (memory ∅ None) true with_parent KeyCheckpoint);
    [apply with_parent_reachable | discriminate].
Defined.

Lemma add_all_or_nothing_witness :
  let '(r, w') := AddTransaction id_order 1700000001 sample_child with_parent in
  let h := hash_String (TxHash sample_child) in
  (is_Some (transactions (w_mp with_parent) !! h) -> r = Ok [] /\ w' = with_parent) /\
  (forall e, r = Err e ->
     w_mp w' = w_mp with_parent /\ contents (w_db w') = contents (w_db with_parent)) /\
  (forall l, r = Ok l -> transactions (w_mp with_parent) !! h = None ->
     exists t, transactions (w_mp w') = <[h := t]> (transactions (w_mp with_parent)) /\
       mt_Txid t = TxHash sample_child /\
       input_key <$> mt_Inputs t = spent_keys (tx_TxIn sample_child) /\
       (forall sh, sh ∈ l <-> sh ∈ EncodeToString <$> mt_Scripthashes t)).
Proof. apply (add_all_or_nothing id_order 1700000001 sample_child with_parent). Defined.

Lemma double_spend_refused_witness :
  exists e w', AddTransaction id_order 0
      (mkTx (replicate 32 xcc) [mkOutPoint sample_hash_a 0] [] : @MsgTx ModelBtcd) with_child = (Err e, w') /\
    w_mp w' = w_mp with_child /\ contents (w_db w') = contents (w_db with_child).
Proof.
  apply (double_spend_refused id_order 0
    (mkTx (replicate 32 xcc) [mkOutPoint sample_hash_a 0] [] : @MsgTx ModelBtcd) with_child
    (mkOutPoint sample_hash_a 0) (TxidToHex sample_hash_b));
    [apply is_none_eq; vm_compute; reflexivity | apply list_elem_of_singleton; reflexivity
    | vm_compute; reflexivity | vm_compute; reflexivity].
Defined.



Lemma reconcile_keeps_valid_witness :
  exists n l w', ReconcileWith id_order {[TxidToHex sample_hash_a]} with_child = (Ok (n, l), w') /\
    transactions (w_mp w') =
      filter (fun kv => kv.1 ∈ ({[TxidToHex sample_hash_a]} : gset string))
        (transactions (w_mp with_child)).
Proof.
  destruct (reconcile_keeps_valid id_order {[TxidToHex sample_hash_a]} nothing_loaded with_child
    with_child_inv) as (n & l & w' & H1 & H2 & _).
  exists n, l, w'. split; [exact H1 | exact H2].
Defined.

Lemma unspent_outputs_exact_witness :
  let o := mkMempoolOutput sample_hash_a 0 (ComputeScripthash sample_script) 5000 [] in
  (o ∈ GetUnspentOutputs id_order (ComputeScripthash sample_script) (w_mp with_parent) <->
   exists a, outputs (w_mp with_parent) !! output_key o = Some a /\ cell (w_mp with_parent) a = o /\
     mo_Scripthash o = ComputeScripthash sample_script /\ mo_SpentByTxid o = []) /\
  (o ∈ GetUnspentOutputs id_order (ComputeScripthash sample_script) (w_mp with_parent) ->
   TxidToHex (mo_Txid o) ∈
     GetScripthashTransactions id_order (ComputeScripthash sample_script) (w_mp with_parent)).
Proof.
  apply (unspent_outputs_exact id_order id_order (ComputeScripthash sample_script)
    (w_mp with_parent) with_parent_inv
    (mkMempoolOutput sample_hash_a 0 (ComputeScripthash sample_script) 5000 [])).
Defined.

Definition without_child : world := (RemoveTransaction id_order sample_hash_b with_child).2.
Definition child_first : world :=
  (AddTransaction id_order 1 sample_parent (AddTransaction id_order 0 sample_child world0).2).2.

(** The mark [AddTransaction] leaves on a parent's output is never taken
    back: after the spending transaction is removed (replaced, evicted) the
    output is no longer recorded as spent, and yet the unspent list and the
    balance of its scripthash go on leaving it out. *)
Theorem spending_mark_outlives_spender :
  let sh := ComputeScripthash sample_script in
  GetBalance id_order sh (w_mp with_parent) = 5000 /\
  IsOutputSpent sample_hash_a 0 (w_mp without_child) = false /\
  GetUnspentOutputs id_order sh (w_mp without_child) = [] /\
  GetBalance id_order sh (w_mp without_child) = 0.
Proof. vm_compute. auto. Qed.

(** A child that arrives before its parent leaves the parent's output
    unmarked: it is recorded as spent and listed as unspent at once. *)
Theorem parent_after_child_unmarked :
  let sh := ComputeScripthash sample_script in
  IsOutputSpent sample_hash_a 0 (w_mp child_first) = true /\
  GetUnspentOutputs id_order sh (w_mp child_first) =
    [mkMempoolOutput sample_hash_a 0 sh 5000 []].
Proof. vm_compute. auto. Qed.
