(* ===== verification/Block.v ===== *)
(** * Indexing a block: [internal/indexer/block.go]

    [IndexBlock] as the loop over the block's transactions (inputs, outputs,
    history entries of each), the block's own records, the checkpoint and the
    single commit.  The block indexer and the overlay share one database, so
    the state is the overlay's [world].  Metrics and log lines are left out. *)

From Stdlib Require Import Strings.Byte.
From S2P Require Import Prelude Bytes Hex Keys Values Json Checkpoint Pebble Store Sha256 Types Mempool.

Section Block.
Context {P : Pebble} {B : Btcd} {Zs : Zstd}.

(** The local variables of the loop over the transactions. *)
Record block_acc := mkBlockAcc {
  ba_batch : pbatch;
  ba_spent : list UndoOutput;       (* undo.SpentOutputs *)
  ba_created : list UndoOutput;     (* undo.CreatedOutputs *)
  ba_history : list UndoHistory;    (* undo.HistoryEntries *)
  ba_historyAdded : gset string;
  ba_historyIndex : Z;
  ba_txids : list bytes;
  ba_txBlob : bytes;
  ba_txOffsets : list Z;
}.

Definition block_acc0 : block_acc := mkBlockAcc pebble_NewBatch [] [] [] ∅ 0 [] [] [].

(** ** Inputs *)

(** The batch, [undo.SpentOutputs] and [txScripthashes]. *)
Definition io_acc : Type := pbatch * list UndoOutput * gset string.

(** [utxo != nil]: record the output for undo and delete its two keys. *)
Definition spend_utxo (acc : io_acc) (scripthash prevTxid : bytes) (prevVout : Z)
    (utxo : UTXOValue) : result io_acc :=
  let '(batch, spent, shs) := acc in
  let spent := spent ++ [mkUndoOutput scripthash prevTxid prevVout
                           (uv_Value utxo) (uv_Height utxo) (uv_BlockHash utxo)] in
  utxoKey ← wrap "failed to make UTXO key for deletion: "
              (MakeUTXOKey scripthash prevTxid prevVout);
  batch ← wrap "failed to delete UTXO: " (batch_Delete batch utxoKey);
  txIndexKey ← wrap "failed to make tx index key for deletion: "
                 (MakeTxIndexKey prevTxid prevVout);
  batch ← wrap "failed to delete tx index: " (batch_Delete batch txIndexKey);
  Ok (batch, spent, {[EncodeToString scripthash]} ∪ shs).

Definition index_input (acc : io_acc) (txIn : OutPoint) : st world io_acc :=
  if IsCoinbaseInput txIn then mret acc
  else
    let prevTxid := TxidFromHash (op_Hash txIn) in
    let prevVout := op_Index txIn in
    sh ← st_wrap ("failed to lookup spent outpoint " +:+ TxidToHex prevTxid +:+ ":" +:+
                  fmt_d prevVout +:+ ": ")
           (in_db (GetScripthashForOutpoint prevTxid prevVout));
    match sh with
    | None => mret acc
    | Some scripthash =>
        utxo ← st_wrap "failed to get UTXO for undo: "
                 (in_db (GetUTXO scripthash prevTxid prevVout));
        acc ← match utxo with
              | None => mret acc
              | Some utxo => st_lift (spend_utxo acc scripthash prevTxid prevVout utxo)
              end;
        _ ← RemoveOutput prevTxid prevVout;
        mret acc
    end.

(** ** Outputs *)

Definition index_output (txid blockHash : bytes) (height : Z) (acc : io_acc)
    (vo : nat * TxOut) : result io_acc :=
  let '(batch, created, shs) := acc in
  let '(i, txOut) := vo in
  if IsOpReturn (to_PkScript txOut) then Ok acc
  else if to_Value txOut =? 0 then Ok acc
  else
    let vout := u32 (Z.of_nat i) in
    let scripthash := ComputeScripthash (to_PkScript txOut) in
    utxoKey ← wrap "failed to make UTXO key: " (MakeUTXOKey scripthash txid vout);
    batch ← wrap "failed to write UTXO: "
              (batch_Set batch utxoKey
                (EncodeUTXOValue (mkUTXOValue (to_Value txOut) height blockHash)));
    txIndexKey ← wrap "failed to make tx index key: " (MakeTxIndexKey txid vout);
    batch ← wrap "failed to write tx index: " (batch_Set batch txIndexKey scripthash);
    Ok (batch,
        created ++ [mkUndoOutput scripthash txid vout (to_Value txOut) height blockHash],
        {[EncodeToString scripthash]} ∪ shs).

(** ** History *)

(** The batch, [undo.HistoryEntries], [historyAdded] and [historyIndex]. *)
Definition hist_acc : Type := pbatch * list UndoHistory * gset string * Z.

Definition index_history (txidHex : string) (txIndex height : Z) (acc : hist_acc)
    (scripthashHex : string) : result hist_acc :=
  let '(batch, history, added, idx) := acc in
  let historyKey := scripthashHex +:+ ":" +:+ txidHex in
  if decide (historyKey ∈ added) then Ok acc
  else
    let added := {[historyKey]} ∪ added in
    match DecodeString scripthashHex with
    | Err _ => Ok (batch, history, added, idx)
    | Ok scripthash =>
        hKey ← wrap "failed to make history key: " (MakeHistoryKey scripthash height txIndex idx);
        batch ← wrap "failed to write history entry: " (batch_Set batch hKey []);
        Ok (batch, history ++ [mkUndoHistory scripthash height txIndex idx], added, u32 (idx + 1))
    end.

(** ** One transaction *)

Definition index_tx (ord : range_order) (blockHash : bytes) (height : Z) (acc : block_acc)
    (itx : nat * MsgTx) : st world block_acc :=
  let '(txIndex, tx) := itx in
  let txHash := TxHash tx in
  let txidBytes := TxidFromHash txHash in
  let txidHex := hash_String txHash in
  let isCoinbase := (txIndex =? 0)%nat in
  let txids := ba_txids acc ++ [txidBytes] in
  let txOffsets := ba_txOffsets acc ++ [u32 (Z.of_nat (length (ba_txBlob acc)))] in
  raw ← st_lift (wrap "failed to serialize tx: " (tx_Serialize tx));
  let txBlob := ba_txBlob acc ++ raw in
  batch ← st_lift (wrap "failed to save tx position: "
            (SaveTxPosInBatch (ba_batch acc) txidBytes height (u32 (Z.of_nat txIndex))));
  '(batch, spent, shs) ←
    (if isCoinbase then mret (batch, ba_spent acc, ∅)
     else st_foldM index_input (batch, ba_spent acc, ∅) (tx_TxIn tx));
  '(batch, created, shs) ← st_lift
    (foldM (index_output txidBytes blockHash height) (batch, ba_created acc, shs)
      (indexed (tx_TxOut tx)));
  '(batch, history, added, idx) ← st_lift
    (foldM (index_history txidHex (u32 (Z.of_nat txIndex)) height)
      (batch, ba_history acc, ba_historyAdded acc, ba_historyIndex acc)
      (range_set ord txIndex shs));
  _ ← RemoveTransaction ord txidBytes;
  mret (mkBlockAcc batch spent created history added idx txids txBlob txOffsets).

(** ** The block's own records, and the checkpoint *)

Definition block_records (batch : pbatch) (height : Z) (header : bytes) (txids : list bytes)
    (txBlob : bytes) (txOffsets : list Z) (undo : UndoBlock) (blockHash : bytes) :
    result pbatch :=
  batch ← wrap "failed to save header: " (SaveHeaderInBatch batch height header);
  batch ← wrap "failed to save block txids: " (SaveBlockTxidsInBatch batch height txids);
  batch ← wrap "failed to save tx blob: " (SaveTxBlobInBatch batch height txBlob);
  batch ← wrap "failed to save tx offsets: " (SaveTxOffsetsInBatch batch height txOffsets);
  wrap "failed to save undo data: " (SaveUndoInBatch batch undo blockHash).

(** [IndexBlock] up to the commit: the batch. *)
Definition index_batch (ord : range_order) (block : MsgBlock) (height : Z) : st world pbatch :=
  let header := block_Header block in
  let blockHash := header_BlockHash header in
  let blockHashBytes := BlockHashFromHash blockHash in
  let blockHashHex := hash_String blockHash in
  let prevHashBytes := BlockHashFromHash (header_PrevBlock header) in
  headerBytes ← st_lift (wrap "failed to serialize header: " (header_Serialize header));
  acc ← st_foldM (index_tx ord blockHashBytes height) block_acc0
          (indexed (block_Transactions block));
  let undo := mkUndoBlock height blockHashBytes prevHashBytes
                (ba_spent acc) (ba_created acc) (ba_history acc) in
  batch ← st_lift (block_records (ba_batch acc) height headerBytes (ba_txids acc)
            (ba_txBlob acc) (ba_txOffsets acc) undo blockHashBytes);
  (* the error of LoadCheckpoint is dropped *)
  '(prevCheckpoint, _) ← in_db LoadCheckpoint;
  st_lift (wrap "failed to save checkpoint: "
    (SaveCheckpointInBatch batch
      (mkCheckpoint height blockHashHex (cp_StartHeight prevCheckpoint)))).

Definition IndexBlock (ord : range_order) (block : MsgBlock) (height : Z) : st world unit :=
  batch ← index_batch ord block height;
  st_wrap "failed to commit block batch: " (in_db (batch_Commit batch)).

End Block.
