(* ===== verification/BlockFacts.v ===== *)
(** * What [IndexBlock] writes

    The outputs a block spends and creates as functions of the block and the
    database before it, the operations of the batch as a function of them, and
    the proof that a successful run commits exactly these. *)

From Stdlib Require Import Strings.Byte.
From S2P Require Import Prelude Bytes Hex Keys Values Json Checkpoint Pebble Store Sha256 Types Mempool MempoolFacts Block.

(** ** Keys and batches *)

Definition ukey (sh t : bytes) (v : Z) : bytes := PrefixUTXO :: sh ++ t ++ be_encode 4 v.
Definition tkey (t : bytes) (v : Z) : bytes := PrefixTxIndex :: t ++ be_encode 4 v.
Definition hkey (sh : bytes) (h i x : Z) : bytes :=
  PrefixHistory :: sh ++ be_encode 4 (u32 h) ++ be_encode 4 i ++ be_encode 4 x.
Definition poskey (t : bytes) : bytes := PrefixTxPos :: t.

Definition spent_ops (o : UndoOutput) : list batch_op :=
  [BDelete (ukey (uo_Scripthash o) (uo_Txid o) (uo_Vout o)); BDelete (tkey (uo_Txid o) (uo_Vout o))].

Definition output_value (o : UndoOutput) : bytes :=
  EncodeUTXOValue (mkUTXOValue (uo_Value o) (uo_Height o) (uo_BlockHash o)).

Definition created_ops (o : UndoOutput) : list batch_op :=
  [BSet (ukey (uo_Scripthash o) (uo_Txid o) (uo_Vout o)) (output_value o);
   BSet (tkey (uo_Txid o) (uo_Vout o)) (uo_Scripthash o)].

Definition history_op (h : UndoHistory) : batch_op :=
  BSet (hkey (uh_Scripthash h) (uh_Height h) (uh_TxIndex h) (uh_Index h)) [].

(** A loop that appends each element's operations to the batch. *)
Lemma foldM_appends {P : Pebble} {PL : PebbleLaws P} {A} (f : pbatch -> A -> result pbatch)
    (ops : A -> list batch_op) (Q : A -> Prop) b l b' :
  (forall b x b', f b x = Ok b' -> batch_ops b' = batch_ops b ++ ops x /\ Q x) ->
  foldM f b l = Ok b' -> batch_ops b' = batch_ops b ++ (l ≫= ops) /\ Forall Q l.
Proof.
  intros Hf. revert b; induction l as [|x l IH]; intros b; cbn [foldM].
  { intros [= ->]. simpl. by rewrite app_nil_r. }
  rewrite bind_Ok. intros (b1 & H1 & H2). apply Hf in H1 as [E1 Q1]. apply IH in H2 as [E2 Q2].
  rewrite E2, E1, bind_cons, <- app_assoc. split; [done|by constructor].
Qed.

Section Reads.
Context {P : Pebble} {PL : PebbleLaws P} {Zs : Zstd}.

Lemma st_lift_Ok {W A} (r : result A) (w : W) a w' : st_lift r w = (Ok a, w') <-> r = Ok a /\ w' = w.
Proof. unfold st_lift. naive_solver. Qed.

Lemma st_wrap_Ok {W A} pre (c : st W A) w a w' : st_wrap pre c w = (Ok a, w') <-> c w = (Ok a, w').
Proof. unfold st_wrap. destruct (c w) as [[x|e] w1]; simpl; naive_solver. Qed.

Lemma GetScripthashForOutpoint_Ok t v w r w' :
  GetScripthashForOutpoint t v w = (Ok r, w') ->
  length t = 32%nat /\ r = contents w !! tkey t v /\ contents w' = contents w.
Proof.
  intros H. pose proof (rel_GetScripthashForOutpoint t v w) as Hs. rewrite H in Hs. revert H.
  unfold GetScripthashForOutpoint.
  rewrite st_bind_Ok. intros (k & w1 & H1 & H). apply st_lift_Ok in H1 as [Hk ->].
  apply wrap_Ok, MakeTxIndexKey_Ok in Hk as [Hl ->].
  rewrite st_bind_Ok in H. destruct H as (g & w1 & Hg & H). split_and!; [done| |done].
  destruct g as [[bs|]|e]; [| |done].
  - apply get_Some in Hg. injection H as <- _. by rewrite <- Hg.
  - apply get_None in Hg. injection H as <- _. by rewrite <- Hg.
Qed.

Lemma GetUTXO_Ok sh t v w r w' :
  GetUTXO sh t v w = (Ok r, w') ->
  length sh = 32%nat /\ length t = 32%nat /\ contents w' = contents w /\
  match r with
  | None => contents w !! ukey sh t v = None
  | Some u => exists bs, contents w !! ukey sh t v = Some bs /\ DecodeUTXOValue bs = Ok u
  end.
Proof.
  intros H. pose proof (rel_GetUTXO sh t v w) as Hs. rewrite H in Hs. revert H.
  unfold GetUTXO. rewrite st_bind_Ok. intros (k & w1 & H1 & H). apply st_lift_Ok in H1 as [Hk ->].
  apply wrap_Ok, MakeUTXOKey_Ok in Hk as (Hl1 & Hl2 & ->).
  rewrite st_bind_Ok in H. destruct H as (g & w1 & Hg & H). split_and!; [done..|].
  destruct g as [[bs|]|e]; [| |done].
  - apply get_Some in Hg. apply st_lift_Ok in H as [H _].
    destruct (DecodeUTXOValue bs) as [u|] eqn:E; [|done]. injection H as <-. eauto.
  - apply get_None in Hg. by injection H as <- _.
Qed.

End Reads.

(** ** The specification: what a block does to the UTXO set *)

Section Spec.
Context {B : Btcd}.

(** The output an input spends, according to the database [c]. *)
Definition spent_by (c : gmap bytes bytes) (i : OutPoint) : option UndoOutput :=
  if IsCoinbaseInput i then None
  else
    sh ← c !! tkey (op_Hash i) (op_Index i);
    bs ← c !! ukey sh (op_Hash i) (op_Index i);
    u ← to_option (DecodeUTXOValue bs);
    Some (mkUndoOutput sh (op_Hash i) (op_Index i) (uv_Value u) (uv_Height u) (uv_BlockHash u)).

Definition created_by (txid blockHash : bytes) (height : Z) (vo : nat * TxOut) : option UndoOutput :=
  let '(v, o) := vo in
  if IsOpReturn (to_PkScript o) then None
  else if to_Value o =? 0 then None
  else Some (mkUndoOutput (ComputeScripthash (to_PkScript o)) txid (u32 (Z.of_nat v))
               (to_Value o) height blockHash).

(** The first transaction's inputs are not looked at. *)
Definition tx_spent (c : gmap bytes bytes) (itx : nat * MsgTx) : list UndoOutput :=
  if (itx.1 =? 0)%nat then [] else omap (spent_by c) (tx_TxIn itx.2).

Definition tx_created (blockHash : bytes) (height : Z) (itx : nat * MsgTx) : list UndoOutput :=
  omap (created_by (TxHash itx.2) blockHash height) (indexed (tx_TxOut itx.2)).

Definition block_spent (c : gmap bytes bytes) (txs : list MsgTx) : list UndoOutput :=
  indexed txs ≫= tx_spent c.

Definition block_created (blockHash : bytes) (height : Z) (txs : list MsgTx) : list UndoOutput :=
  indexed txs ≫= tx_created blockHash height.

(** The scripthashes a transaction touches. *)
Definition tx_touched (c : gmap bytes bytes) (blockHash : bytes) (height : Z)
    (itx : nat * MsgTx) : list bytes :=
  uo_Scripthash <$> tx_spent c itx ++ tx_created blockHash height itx.

(** The batch operations of one transaction, its history entries [hs] apart. *)
Definition tx_ops (c : gmap bytes bytes) (blockHash : bytes) (height : Z)
    (itx : nat * MsgTx) (hs : list UndoHistory) : list batch_op :=
  BSet (poskey (TxHash itx.2)) (encode_txpos height (u32 (Z.of_nat itx.1))) ::
  (tx_spent c itx ≫= spent_ops) ++ (tx_created blockHash height itx ≫= created_ops) ++
  (history_op <$> hs).

End Spec.

Lemma confirmed_tkey t v : confirmed_key (tkey t v).
Proof. by unfold confirmed_key. Qed.
Lemma confirmed_ukey sh t v : confirmed_key (ukey sh t v).
Proof. by unfold confirmed_key. Qed.

(** ** The loops compute the specification *)

Section Loops.
Context {P : Pebble} {PL : PebbleLaws P} {B : Btcd} {BL : BtcdLaws B} {Zs : Zstd}.

Definition touched_hex (os : list UndoOutput) : gset string :=
  list_to_set ((fun o => EncodeToString (uo_Scripthash o)) <$> os).

Lemma touched_hex_app a b : touched_hex (a ++ b) = touched_hex a ∪ touched_hex b.
Proof. unfold touched_hex. by rewrite fmap_app, list_to_set_app_L. Qed.

Definition sized (o : UndoOutput) : Prop :=
  length (uo_Scripthash o) = 32%nat /\ length (uo_Txid o) = 32%nat.

(** [grew acc acc' os ops]: [acc'] has the outputs [os] and their operations
    on top of [acc]. *)
Definition grew (acc acc' : io_acc) (os : list UndoOutput) (ops : UndoOutput -> list batch_op) :
    Prop :=
  batch_ops acc'.1.1 = batch_ops acc.1.1 ++ (os ≫= ops) /\
  acc'.1.2 = acc.1.2 ++ os /\
  acc'.2 = touched_hex os ∪ acc.2 /\
  Forall sized os.

Lemma grew_nil acc ops : grew acc acc [] ops.
Proof.
  unfold grew, touched_hex. simpl. rewrite !app_nil_r. split_and!; [done..| |constructor].
  apply set_eq. set_solver.
Qed.

Lemma grew_trans a1 a2 a3 l1 l2 ops : grew a1 a2 l1 ops -> grew a2 a3 l2 ops -> grew a1 a3 (l1 ++ l2) ops.
Proof.
  intros (E1 & E2 & E3 & E4) (F1 & F2 & F3 & F4). unfold grew.
  rewrite F1, F2, F3, E1, E2, E3, bind_app, touched_hex_app, !app_assoc.
  split_and!; [done..| |by apply Forall_app]. apply set_eq. set_solver.
Qed.

Lemma spend_utxo_Ok acc sh t v u acc' : spend_utxo acc sh t v u = Ok acc' ->
  grew acc acc' [mkUndoOutput sh t v (uv_Value u) (uv_Height u) (uv_BlockHash u)] spent_ops.
Proof.
  destruct acc as [[b sp] shs]. unfold spend_utxo. rewrite bind_Ok. intros (k1 & Hk1 & H).
  apply wrap_Ok, MakeUTXOKey_Ok in Hk1 as (Hs & Ht & ->).
  rewrite bind_Ok in H. destruct H as (b1 & Hb1 & H). apply wrap_Ok, batch_Delete_Ok in Hb1.
  rewrite bind_Ok in H. destruct H as (k2 & Hk2 & H). apply wrap_Ok, MakeTxIndexKey_Ok in Hk2 as [_ ->].
  rewrite bind_Ok in H. destruct H as (b2 & Hb2 & H). apply wrap_Ok, batch_Delete_Ok in Hb2.
  injection H as <-. unfold grew, touched_hex. cbn [fst snd]. rewrite Hb2, Hb1, <- app_assoc.
  split_and!; [done|done| |by repeat constructor]. apply set_eq. set_solver.
Qed.

Lemma in_db_Ok {A} (c : st pdb A) w a w' : in_db c w = (Ok a, w') ->
  c (w_db w) = (Ok a, w_db w') /\ w_mp w' = w_mp w.
Proof. unfold in_db. destruct (c (w_db w)) as [r d]. by intros [= -> <-]. Qed.

Lemma index_input_Ok c acc i w acc' w' :
  confirmed_same c (contents (w_db w)) -> index_input acc i w = (Ok acc', w') ->
  confirmed_same c (contents (w_db w')) /\ grew acc acc' (option_list (spent_by c i)) spent_ops.
Proof.
  intros Hc. unfold index_input, spent_by. destruct (IsCoinbaseInput i).
  { intros [= <- <-]. split; [done|apply grew_nil]. }
  change (TxidFromHash (op_Hash i)) with (op_Hash i).
  rewrite st_bind_Ok. intros (r & w1 & H1 & H). apply st_wrap_Ok, in_db_Ok in H1 as [H1 _].
  apply GetScripthashForOutpoint_Ok in H1 as (Hl & -> & Hc1).
  rewrite (Hc _ (confirmed_tkey _ _)) in H.
  destruct (c !! tkey (op_Hash i) (op_Index i)) as [sh|].
  2:{ injection H as <- <-. rewrite Hc1. split; [done|apply grew_nil]. }
  rewrite st_bind_Ok in H. destruct H as (u & w2 & H2 & H). apply st_wrap_Ok, in_db_Ok in H2 as [H2 _].
  apply GetUTXO_Ok in H2 as (_ & _ & Hc2 & Hu). rewrite Hc1, (Hc _ (confirmed_ukey _ _ _)) in Hu.
  rewrite st_bind_Ok in H. destruct H as (acc1 & w3 & H3 & H).
  rewrite st_bind_Ok in H. destruct H as ([] & w4 & H4 & [= <- <-]).
  injection H4 as <-. cbn [mbind option_bind w_db].
  destruct u as [u|].
  - apply st_lift_Ok in H3 as [H3 ->]. destruct Hu as (bs & -> & Hd).
    cbn [mbind option_bind]. rewrite Hd. cbn [to_option mbind option_bind option_list].
    rewrite Hc2, Hc1. split; [done|]. by apply spend_utxo_Ok.
  - injection H3 as <- <-. rewrite Hu, Hc2, Hc1. split; [done|apply grew_nil].
Qed.

Lemma omap_snoc {A C} (f : A -> option C) l x : omap f (l ++ [x]) = omap f l ++ option_list (f x).
Proof. rewrite omap_app. simpl. by destruct (f x). Qed.

Lemma index_inputs_Ok c acc l w acc' w' :
  confirmed_same c (contents (w_db w)) -> st_foldM index_input acc l w = (Ok acc', w') ->
  confirmed_same c (contents (w_db w')) /\ grew acc acc' (omap (spent_by c) l) spent_ops.
Proof.
  intros Hc H. eapply (st_foldM_ind (fun acc' pre w => confirmed_same c (contents (w_db w)) /\
    grew acc acc' (omap (spent_by c) pre) spent_ops)) in H; [done| |].
  - split; [done|apply grew_nil].
  - intros pre x post acc0 w0 acc1 w1 [Hc0 G0] _ Hstep.
    apply (index_input_Ok c) in Hstep as [Hc1 G1]; [|done]. split; [done|].
    rewrite omap_snoc. by eapply grew_trans.
Qed.

Lemma index_output_Ok txid bh h acc vo acc' :
  index_output txid bh h acc vo = Ok acc' ->
  grew acc acc' (option_list (created_by txid bh h vo)) created_ops.
Proof.
  destruct acc as [[b cr] shs], vo as [i o]. unfold index_output, created_by.
  destruct (IsOpReturn _); [intros [= <-]; apply grew_nil|].
  destruct (to_Value o =? 0); [intros [= <-]; apply grew_nil|].
  rewrite bind_Ok. intros (k1 & Hk1 & H).
  apply wrap_Ok, MakeUTXOKey_Ok in Hk1 as (Hs & Ht & ->).
  rewrite bind_Ok in H. destruct H as (b1 & Hb1 & H). apply wrap_Ok, batch_Set_Ok in Hb1.
  rewrite bind_Ok in H. destruct H as (k2 & Hk2 & H). apply wrap_Ok, MakeTxIndexKey_Ok in Hk2 as [_ ->].
  rewrite bind_Ok in H. destruct H as (b2 & Hb2 & H). apply wrap_Ok, batch_Set_Ok in Hb2.
  injection H as <-. unfold grew, touched_hex. cbn [fst snd option_list]. rewrite Hb2, Hb1, <- app_assoc.
  split_and!; [done|done| |by repeat constructor]. apply set_eq. set_solver.
Qed.

Lemma index_outputs_Ok txid bh h acc l acc' :
  foldM (index_output txid bh h) acc l = Ok acc' ->
  grew acc acc' (omap (created_by txid bh h) l) created_ops.
Proof.
  intros H. eapply (foldM_ind (fun acc' pre => grew acc acc' (omap (created_by txid bh h) pre)
    created_ops)) in H; [done|apply grew_nil|].
  intros pre x acc0 acc1 G0 Hstep. apply index_output_Ok in Hstep.
  rewrite omap_snoc. by eapply grew_trans.
Qed.

(** *** History *)

(** The key under which [historyAdded] remembers a pair. *)
Definition added_key (shHex txidHex : string) : string := shHex +:+ ":" +:+ txidHex.

Lemma added_key_inj s1 s2 t : added_key s1 t = added_key s2 t -> s1 = s2.
Proof.
  unfold added_key. intros E. apply (f_equal bytes_of_string) in E.
  rewrite !bytes_of_string_app in E. apply app_inv_tail in E.
  by rewrite <- (string_of_bytes_of_string s1), E, string_of_bytes_of_string.
Qed.

(** [e] is a history entry of transaction [i] at height [h]. *)
Definition history_entry (h i : Z) (e : UndoHistory) : Prop :=
  uh_Height e = h /\ uh_TxIndex e = i /\ length (uh_Scripthash e) = 32%nat /\ in_u32 (uh_Index e).

Lemma index_history_Ok txidHex i h acc (shs : list bytes) acc' :
  in_u32 acc.2 -> Forall (fun sh => length sh = 32%nat) shs -> NoDup shs ->
  (forall sh, sh ∈ shs -> added_key (EncodeToString sh) txidHex ∉ acc.1.2) ->
  foldM (index_history txidHex i h) acc (EncodeToString <$> shs) = Ok acc' ->
  exists hs, batch_ops acc'.1.1.1 = batch_ops acc.1.1.1 ++ (history_op <$> hs) /\
    acc'.1.1.2 = acc.1.1.2 ++ hs /\ in_u32 acc'.2 /\ Forall (history_entry h i) hs /\
    uh_Scripthash <$> hs = shs /\
    (forall k, k ∈ acc'.1.2 -> k ∈ acc.1.2 \/
       exists sh, sh ∈ shs /\ k = added_key (EncodeToString sh) txidHex).
Proof.
  intros Hu Hl Hnd. revert acc Hu. induction shs as [|sh shs IH]; intros acc Hu Hn.
  { intros [= <-]. exists []. simpl. rewrite !app_nil_r. split_and!; auto. }
  destruct acc as [[[b hist] added] idx]. apply Forall_cons in Hl as [Hsh Hl].
  apply NoDup_cons in Hnd as [Hnin Hnd]. rewrite fmap_cons. cbn [foldM].
  rewrite bind_Ok. intros (acc1 & H1 & H). unfold index_history in H1.
  fold (added_key (EncodeToString sh) txidHex) in H1.
  rewrite decide_False in H1 by (apply Hn; set_solver).
  rewrite DecodeString_EncodeToString in H1. rewrite bind_Ok in H1. destruct H1 as (k & Hk & H1).
  apply wrap_Ok, MakeHistoryKey_Ok in Hk as [_ ->].
  rewrite bind_Ok in H1. destruct H1 as (b1 & Hb & [= <-]). apply wrap_Ok, batch_Set_Ok in Hb.
  cbn [fst snd] in *.
  apply IH in H as (hs & E1 & E2 & E3 & E4 & E5 & E6); cbn [fst snd] in *;
    [|done|done|apply u32_range|].
  - exists (mkUndoHistory sh h i idx :: hs). rewrite E1, E2, Hb, !fmap_cons, E5.
    rewrite <- !app_assoc. split_and!; [done|done|done|by constructor|done|].
    intros k' Hk'. destruct (E6 k' Hk') as [[->%elem_of_singleton|?]%elem_of_union|(s & ? & ?)].
    + right. exists sh. set_solver.
    + by left.
    + right. exists s. set_solver.
  - intros s Hs. apply not_elem_of_union. split; [|apply Hn; set_solver].
    intros E%elem_of_singleton%added_key_inj%(inj EncodeToString). by subst.
Qed.

(** *** One transaction *)

Lemma hex_preimage (ss : list string) (Q : bytes -> Prop) :
  (forall s, s ∈ ss -> exists x, s = EncodeToString x /\ Q x) -> NoDup ss ->
  exists l, ss = EncodeToString <$> l /\ NoDup l /\ Forall Q l.
Proof.
  induction ss as [|s ss IH]; intros Hs Hnd; [exists []; by split_and!; constructor|].
  apply NoDup_cons in Hnd as [Hn Hnd].
  destruct IH as (l & -> & Hl & HQ); [set_solver|done|].
  destruct (Hs s) as (x & -> & Hx); [set_solver|]. exists (x :: l).
  split_and!; [done| |by constructor]. constructor; [|done]. intros Hin. apply Hn.
  by apply list_elem_of_fmap_2.
Qed.

Lemma added_key_txid sh t sh' t' :
  added_key (EncodeToString sh) t = added_key (EncodeToString sh') t' -> t = t'.
Proof.
  unfold added_key, EncodeToString. intros E. apply (f_equal bytes_of_string) in E.
  rewrite !bytes_of_string_app, !bytes_of_string_of_bytes in E.
  apply split_at_unique in E as [_ E]; [|apply hex_no_colon..].
  by rewrite <- (string_of_bytes_of_string t), E, string_of_bytes_of_string.
Qed.

(** [historyAdded] only has keys of the transactions seen so far. *)
Definition added_from (added : gset string) (txids : list bytes) : Prop :=
  forall k, k ∈ added -> exists sh t, t ∈ txids /\ k = added_key (EncodeToString sh) (TxidToHex t).

(** The history entries of a transaction: one for each scripthash it touches. *)
Definition tx_history (c : gmap bytes bytes) (bh : bytes) (h : Z) (itx : nat * MsgTx)
    (hs : list UndoHistory) : Prop :=
  Forall (history_entry h (u32 (Z.of_nat itx.1))) hs /\ NoDup (uh_Scripthash <$> hs) /\
  forall sh, sh ∈ uh_Scripthash <$> hs <-> sh ∈ tx_touched c bh h itx.

Record tx_step (c : gmap bytes bytes) (bh : bytes) (h : Z) (itx : nat * MsgTx)
    (hs : list UndoHistory) (raw : bytes) (acc acc' : block_acc) : Prop := {
  ts_ops : batch_ops (ba_batch acc') = batch_ops (ba_batch acc) ++ tx_ops c bh h itx hs;
  ts_spent : ba_spent acc' = ba_spent acc ++ tx_spent c itx;
  ts_created : ba_created acc' = ba_created acc ++ tx_created bh h itx;
  ts_history : ba_history acc' = ba_history acc ++ hs;
  ts_txids : ba_txids acc' = ba_txids acc ++ [TxHash itx.2];
  ts_index : in_u32 (ba_historyIndex acc');
  ts_added : added_from (ba_historyAdded acc') (ba_txids acc');
  ts_hist : tx_history c bh h itx hs;
  ts_sized : Forall sized (tx_spent c itx ++ tx_created bh h itx);
  ts_raw : tx_Serialize itx.2 = Ok raw;
  ts_blob : ba_txBlob acc' = ba_txBlob acc ++ raw;
  ts_offsets : ba_txOffsets acc' = ba_txOffsets acc ++ [u32 (Z.of_nat (length (ba_txBlob acc)))];
}.

Lemma touched_hex_elem os s : s ∈ touched_hex os <->
  exists sh, sh ∈ uo_Scripthash <$> os /\ s = EncodeToString sh.
Proof.
  unfold touched_hex. rewrite elem_of_list_to_set, list_elem_of_fmap.
  setoid_rewrite list_elem_of_fmap. naive_solver.
Qed.

Lemma index_tx_Ok ord c bh h acc i tx w acc' w' :
  confirmed_same c (contents (w_db w)) -> in_u32 (ba_historyIndex acc) ->
  added_from (ba_historyAdded acc) (ba_txids acc) -> TxHash tx ∉ ba_txids acc ->
  Forall (fun t => length t = 32%nat) (ba_txids acc) ->
  index_tx ord bh h acc (i, tx) w = (Ok acc', w') ->
  confirmed_same c (contents (w_db w')) /\
  exists hs raw, tx_step c bh h (i, tx) hs raw acc acc'.
Proof.
  intros Hc Hidx Hadd Hnew Hlen. unfold index_tx.
  change (TxidFromHash (TxHash tx)) with (TxHash tx).
  rewrite st_bind_Ok. intros (raw & w1 & H1 & H). apply st_lift_Ok in H1 as [H1 ->].
  apply wrap_Ok in H1.
  rewrite st_bind_Ok in H. destruct H as (b1 & w1 & Hb & H). apply st_lift_Ok in Hb as [Hb ->].
  apply wrap_Ok, SaveTxPosInBatch_Ok in Hb as (k & [_ ->]%MakeTxPosKey_Ok & Hb).
  rewrite st_bind_Ok in H. destruct H as ([[b2 sp] shs] & w2 & Hin & H).
  assert (Hspend : confirmed_same c (contents (w_db w2)) /\
    grew (b1, ba_spent acc, ∅) (b2, sp, shs) (tx_spent c (i, tx)) spent_ops).
  { unfold tx_spent. cbn [fst snd]. destruct (i =? 0)%nat.
    - injection Hin as <- <- <- <-. split; [done|apply grew_nil].
    - by apply (index_inputs_Ok c) in Hin. }
  clear Hin. destruct Hspend as [Hc2 (E1 & E2 & E3 & E4)]. cbn [fst snd] in E1, E2, E3.
  rewrite st_bind_Ok in H. destruct H as ([[b3 cr] shs2] & w3 & Ho & H).
  apply st_lift_Ok in Ho as [Ho ->]. apply index_outputs_Ok in Ho as (F1 & F2 & F3 & F4).
  change (omap _ _) with (tx_created bh h (i, tx)) in F1, F2, F3, F4. cbn [fst snd] in F1, F2, F3.
  rewrite st_bind_Ok in H. destruct H as ([[[b4 hist] added] idx] & w3 & Hh & H).
  apply st_lift_Ok in Hh as [Hh ->].
  rewrite st_bind_Ok in H. destruct H as (aff & w3 & Hr & [= <- <-]).
  destruct (remove_run ord 0 (TxidToHex (TxHash tx)) w2) as (l' & w3' & Hr' & _ & Hcr & _).
  unfold RemoveTransaction in Hr. rewrite Hr' in Hr. injection Hr as -> ->.
  split; [intros k Hk; by rewrite Hcr, Hc2|].
  assert (Hshs : forall s, s ∈ range_set ord i shs2 <->
            exists sh, sh ∈ tx_touched c bh h (i, tx) /\ s = EncodeToString sh).
  { intros s. rewrite elem_of_range_set, F3, E3, union_empty_r_L.
    unfold tx_touched. rewrite (union_comm_L (touched_hex _)), <- touched_hex_app.
    apply touched_hex_elem. }
  destruct (hex_preimage (range_set ord i shs2) (fun x => length x = 32%nat /\
    x ∈ tx_touched c bh h (i, tx))) as (l & Hl & Hnd & HQ).
  { intros s (sh & Hsh & ->)%Hshs. exists sh. split_and!; [done| |done].
    unfold tx_touched in Hsh. apply list_elem_of_fmap in Hsh as (o & -> & Ho).
    assert (Hall : Forall sized (tx_spent c (i, tx) ++ tx_created bh h (i, tx))) by (by apply Forall_app).
    rewrite Forall_forall in Hall. by apply (Hall o). }
  { apply NoDup_range_set. }
  rewrite Hl in Hh. rewrite hash_String_Txid in Hh by apply length_TxHash.
  apply index_history_Ok in Hh as (hs & G1 & G2 & G3 & G4 & G5 & G6); cbn [fst snd] in *;
    [|done|eapply Forall_impl; [exact HQ|by intros ? []]|done|].
  2:{ intros sh _ Hin. destruct (Hadd _ Hin) as (sh' & t & Ht & E).
      apply added_key_txid in E. apply TxidToHex_inj in E; [by subst|apply length_TxHash|].
      rewrite Forall_forall in Hlen. by apply Hlen. }
  exists hs, raw. split; cbn [ba_batch ba_spent ba_created ba_history ba_txids ba_historyIndex
    ba_historyAdded ba_txBlob ba_txOffsets fst snd]; try done.
  - rewrite G1, F1, E1, Hb. unfold tx_ops. cbn [fst snd]. by rewrite <- !app_assoc.
  - intros k Hk. destruct (G6 k Hk) as [Hold|(sh & _ & ->)].
    + destruct (Hadd k Hold) as (sh & t & Ht & ->). exists sh, t. set_solver.
    + exists sh, (TxHash tx). set_solver.
  - split_and!; [done|by rewrite G5|]. intros sh. rewrite G5. cbn [fst snd]. split.
    + intros Hin. rewrite Forall_forall in HQ. by apply HQ.
    + intros Hin. assert (Hex : EncodeToString sh ∈ range_set ord i shs2) by (apply Hshs; eauto).
      rewrite Hl in Hex. apply list_elem_of_fmap in Hex as (x & Ex & Hx).
      by apply (inj EncodeToString) in Ex as ->.
  - by apply Forall_app.
Qed.

(** *** The whole block *)

(** The operations of the transactions with their history entries. *)
Definition txs_ops (c : gmap bytes bytes) (bh : bytes) (h : Z) (txs : list (nat * MsgTx))
    (hss : list (list UndoHistory)) : list batch_op :=
  zip txs hss ≫= (fun p => tx_ops c bh h p.1 p.2).

Fixpoint blob_offsets (n : nat) (raws : list bytes) : list Z :=
  match raws with
  | [] => []
  | r :: raws => u32 (Z.of_nat n) :: blob_offsets (n + length r) raws
  end.

Lemma blob_offsets_snoc n raws r :
  blob_offsets n (raws ++ [r]) =
  blob_offsets n raws ++ [u32 (Z.of_nat (n + length (mjoin raws)))].
Proof.
  revert n; induction raws as [|x raws IH]; intros n; simpl.
  - by rewrite Nat.add_0_r.
  - by rewrite IH, length_app, Nat.add_assoc.
Qed.

Record txs_done (c : gmap bytes bytes) (bh : bytes) (h : Z) (txs : list (nat * MsgTx))
    (hss : list (list UndoHistory)) (raws : list bytes) (acc : block_acc) : Prop := {
  td_len : length hss = length txs;
  td_ops : batch_ops (ba_batch acc) = txs_ops c bh h txs hss;
  td_spent : ba_spent acc = txs ≫= tx_spent c;
  td_created : ba_created acc = txs ≫= tx_created bh h;
  td_history : ba_history acc = mjoin hss;
  td_txids : ba_txids acc = (fun itx => TxHash itx.2) <$> txs;
  td_index : in_u32 (ba_historyIndex acc);
  td_added : added_from (ba_historyAdded acc) (ba_txids acc);
  td_hist : Forall2 (tx_history c bh h) txs hss;
  td_sized : Forall sized (ba_spent acc ++ ba_created acc);
  td_raws : Forall2 (fun itx raw => tx_Serialize itx.2 = Ok raw) txs raws;
  td_blob : ba_txBlob acc = mjoin raws;
  td_offsets : ba_txOffsets acc = blob_offsets 0 raws;
}.

Lemma txs_done_0 c bh h : txs_done c bh h [] [] [] block_acc0.
Proof.
  split; try done; simpl.
  all: first [apply batch_new | by intros k ?%elem_of_empty | constructor].
Qed.

Lemma mjoin_snoc {A} (ls : list (list A)) (l : list A) : mjoin (ls ++ [l]) = mjoin ls ++ l.
Proof. rewrite join_app. simpl. by rewrite app_nil_r. Qed.

Lemma bind_snoc {A C} (f : A -> list C) l x : (l ++ [x]) ≫= f = (l ≫= f) ++ f x.
Proof. rewrite bind_app. simpl. by rewrite app_nil_r. Qed.

Lemma txs_done_snoc c bh h txs hss raws acc itx hs raw acc' :
  txs_done c bh h txs hss raws acc -> tx_step c bh h itx hs raw acc acc' ->
  txs_done c bh h (txs ++ [itx]) (hss ++ [hs]) (raws ++ [raw]) acc'.
Proof.
  intros D S. split.
  - rewrite !length_app, (td_len _ _ _ _ _ _ _ D). done.
  - rewrite (ts_ops _ _ _ _ _ _ _ _ S), (td_ops _ _ _ _ _ _ _ D). unfold txs_ops.
    rewrite zip_with_app by (by rewrite (td_len _ _ _ _ _ _ _ D)). simpl. by rewrite bind_snoc.
  - by rewrite (ts_spent _ _ _ _ _ _ _ _ S), (td_spent _ _ _ _ _ _ _ D), bind_snoc.
  - by rewrite (ts_created _ _ _ _ _ _ _ _ S), (td_created _ _ _ _ _ _ _ D), bind_snoc.
  - by rewrite (ts_history _ _ _ _ _ _ _ _ S), (td_history _ _ _ _ _ _ _ D), mjoin_snoc.
  - by rewrite (ts_txids _ _ _ _ _ _ _ _ S), (td_txids _ _ _ _ _ _ _ D), fmap_app.
  - apply (ts_index _ _ _ _ _ _ _ _ S).
  - apply (ts_added _ _ _ _ _ _ _ _ S).
  - apply Forall2_app; [apply (td_hist _ _ _ _ _ _ _ D)|].
    constructor; [apply (ts_hist _ _ _ _ _ _ _ _ S)|constructor].
  - rewrite (ts_spent _ _ _ _ _ _ _ _ S), (ts_created _ _ _ _ _ _ _ _ S).
    pose proof (td_sized _ _ _ _ _ _ _ D) as H1. pose proof (ts_sized _ _ _ _ _ _ _ _ S) as H2.
    rewrite !Forall_app in *. tauto.
  - apply Forall2_app; [apply (td_raws _ _ _ _ _ _ _ D)|].
    constructor; [apply (ts_raw _ _ _ _ _ _ _ _ S)|constructor].
  - by rewrite (ts_blob _ _ _ _ _ _ _ _ S), (td_blob _ _ _ _ _ _ _ D), mjoin_snoc.
  - rewrite (ts_offsets _ _ _ _ _ _ _ _ S), (td_offsets _ _ _ _ _ _ _ D), blob_offsets_snoc.
    by rewrite (td_blob _ _ _ _ _ _ _ D).
Qed.

Lemma index_txs_Ok ord c bh h txs w acc w' :
  confirmed_same c (contents (w_db w)) -> NoDup (TxHash <$> txs) ->
  st_foldM (index_tx ord bh h) block_acc0 (indexed txs) w = (Ok acc, w') ->
  confirmed_same c (contents (w_db w')) /\
  exists hss raws, txs_done c bh h (indexed txs) hss raws acc.
Proof.
  intros Hc Hnd H. eapply (st_foldM_ind (fun acc pre w => confirmed_same c (contents (w_db w)) /\
    exists hss raws, txs_done c bh h pre hss raws acc)) in H; [done| |].
  - split; [done|]. exists [], []. apply txs_done_0.
  - intros pre [i tx] post acc0 w0 acc1 w1 (Hc0 & hss & raws & D) Hpre Hstep.
    assert (Hids : ba_txids acc0 = TxHash <$> pre.*2).
    { by rewrite (td_txids _ _ _ _ _ _ _ D), <- list_fmap_compose. }
    apply (index_tx_Ok ord c) in Hstep as (Hc1 & hs & raw & S).
    + split; [done|]. exists (hss ++ [hs]), (raws ++ [raw]). by eapply txs_done_snoc.
    + done.
    + apply (td_index _ _ _ _ _ _ _ D).
    + apply (td_added _ _ _ _ _ _ _ D).
    + rewrite Hids. rewrite <- (imap_pair_snd txs) in Hnd. unfold indexed in Hpre.
      rewrite Hpre, !fmap_app in Hnd. apply NoDup_app in Hnd as (_ & Hd & _).
      intros Hin. apply (Hd _ Hin). simpl. left.
    + rewrite Hids. apply Forall_forall. intros t (tx' & -> & _)%list_elem_of_fmap. apply length_TxHash.
Qed.

(** The block's own records. *)
Definition record_ops (h : Z) (header txidbuf blobz : bytes) (offs : list Z) (bh undobs : bytes) :
    list batch_op :=
  [BSet (PrefixHeader :: be_encode 4 (u32 h)) header;
   BSet (PrefixBlockTx :: be_encode 4 (u32 h)) txidbuf;
   BSet (PrefixTxBlob :: be_encode 4 (u32 h)) blobz;
   BSet (PrefixTxOffs :: be_encode 4 (u32 h)) (encode_offsets offs);
   BSet (PrefixUndo :: be_encode 4 (u32 h) ++ bh) undobs].

Lemma block_records_Ok b h header txids blob offs undo bh b' :
  ub_Height undo = h -> block_records b h header txids blob offs undo bh = Ok b' ->
  0 <= h /\ length bh = 32%nat /\ length header = 80%nat /\
  exists txidbuf blobz undobs, encode_txids txids = Ok txidbuf /\ compressZstd blob = Ok blobz /\
    EncodeUndoBlock undo = Ok undobs /\
    batch_ops b' = batch_ops b ++ record_ops h header txidbuf blobz offs bh undobs.
Proof.
  intros Hh. unfold block_records. rewrite bind_Ok. intros (b1 & H1 & H).
  apply wrap_Ok, SaveHeaderInBatch_Ok in H1 as (Hl & k1 & [H0 ->]%MakeHeaderKey_Ok & E1).
  rewrite bind_Ok in H. destruct H as (b2 & H2 & H).
  apply wrap_Ok, SaveBlockTxidsInBatch_Ok in H2 as (k2 & buf & [_ ->]%MakeBlockTxidsKey_Ok & Hb & E2).
  rewrite bind_Ok in H. destruct H as (b3 & H3 & H).
  apply wrap_Ok, SaveTxBlobInBatch_Ok in H3 as (k3 & z & [_ ->]%MakeTxBlobKey_Ok & Hz & E3).
  rewrite bind_Ok in H. destruct H as (b4 & H4 & H).
  apply wrap_Ok, SaveTxOffsetsInBatch_Ok in H4 as (k4 & [_ ->]%MakeTxOffsetsKey_Ok & E4).
  apply wrap_Ok, SaveUndoInBatch_Ok in H as (k5 & d & (Hbl & _ & ->)%MakeUndoKey_Ok & Hd & E5).
  rewrite Hh in E5. split_and!; [done..|]. exists buf, z, d. split_and!; [done..|].
  rewrite E5, E4, E3, E2, E1, <- !app_assoc. done.
Qed.

(** The operations of a block's batch, given its history entries. *)
Record block_batch (c : gmap bytes bytes) (block : MsgBlock) (h : Z)
    (undo : UndoBlock) (hss : list (list UndoHistory)) (ops : list batch_op) : Prop := {
  bb_height : 0 <= h;
  bb_undo : undo = mkUndoBlock h (header_BlockHash (block_Header block))
      (header_PrevBlock (block_Header block))
      (block_spent c (block_Transactions block))
      (block_created (header_BlockHash (block_Header block)) h (block_Transactions block))
      (mjoin hss);
  bb_hist : Forall2 (tx_history c (header_BlockHash (block_Header block)) h)
      (indexed (block_Transactions block)) hss;
  bb_sized : Forall sized (ub_SpentOutputs undo ++ ub_CreatedOutputs undo);
  bb_ops : exists header txidbuf raws blobz undobs cp,
      header_Serialize (block_Header block) = Ok header /\
      encode_txids (TxHash <$> block_Transactions block) = Ok txidbuf /\
      Forall2 (fun tx raw => tx_Serialize tx = Ok raw) (block_Transactions block) raws /\
      compressZstd (mjoin raws) = Ok blobz /\
      EncodeUndoBlock undo = Ok undobs /\
      cp_Height cp = h /\ cp_BlockHash cp = hash_String (header_BlockHash (block_Header block)) /\
      in_i32 (cp_StartHeight cp) /\
      ops = txs_ops c (header_BlockHash (block_Header block)) h (indexed (block_Transactions block)) hss ++
            record_ops h header txidbuf blobz (blob_offsets 0 raws)
              (header_BlockHash (block_Header block)) undobs ++
            [BSet KeyCheckpoint (json_Marshal cp)];
}.

(** Everything a successful [IndexBlock] has done to the database: its batch,
    on the confirmed keys. *)
Definition indexed_block (c c' : gmap bytes bytes) (block : MsgBlock) (h : Z)
    (undo : UndoBlock) (hss : list (list UndoHistory)) : Prop :=
  exists ops, block_batch c block h undo hss ops /\
    forall k, confirmed_key k -> c' !! k = apply_ops ops c !! k.

Lemma apply_ops_same ops c1 c2 k : c1 !! k = c2 !! k -> apply_ops ops c1 !! k = apply_ops ops c2 !! k.
Proof.
  revert c1 c2; induction ops as [|o ops IH]; intros c1 c2 H; [done|].
  apply IH. rewrite !apply_op_lookup. by case_decide.
Qed.

Lemma Forall2_indexed {A C} (Q : A -> C -> Prop) l k :
  Forall2 (fun ix y => Q ix.2 y) (indexed l) k -> Forall2 Q l k.
Proof.
  intros H. unfold indexed in H. rewrite <- (imap_pair_snd l). by apply Forall2_fmap_l.
Qed.

Lemma index_batch_Ok ord block h w b w' :
  NoDup (TxHash <$> block_Transactions block) ->
  index_batch ord block h w = (Ok b, w') ->
  confirmed_same (contents (w_db w)) (contents (w_db w')) /\
  exists undo hss, block_batch (contents (w_db w)) block h undo hss (batch_ops b).
Proof.
  intros Hnd. set (c := contents (w_db w)). unfold index_batch.
  change (BlockHashFromHash ?x) with x.
  set (bh := header_BlockHash (block_Header block)). set (txs := block_Transactions block) in *.
  rewrite st_bind_Ok. intros (header & w1 & H1 & H). apply st_lift_Ok in H1 as [H1 ->].
  apply wrap_Ok in H1.
  rewrite st_bind_Ok in H. destruct H as (acc & w1 & Ht & H).
  apply (index_txs_Ok ord c) in Ht as (Hc1 & hss & raws & D); [|done|done].
  rewrite st_bind_Ok in H. destruct H as (b1 & w2 & Hb & H). apply st_lift_Ok in Hb as [Hb ->].
  apply block_records_Ok in Hb as (Hh & Hlb & Hlh & buf & z & d & E1 & E2 & E3 & Hops1); [|done].
  rewrite st_bind_Ok in H. destruct H as ([prev err] & w2 & Hp & H).
  assert (Hc2 : confirmed_same c (contents (w_db w2))).
  { pose proof (rel_in_db _ rel_LoadCheckpoint w1) as [_ Hs]. rewrite Hp in Hs. cbn [snd] in Hs.
    intros k Hk. by rewrite Hs, Hc1. }
  assert (Hcp : in_i32 (cp_StartHeight prev)).
  { apply in_db_Ok in Hp as [Hp _]. by eapply LoadCheckpoint_i32. }
  apply st_lift_Ok in H as [H ->]. apply wrap_Ok, SaveCheckpointInBatch_Ok in H.
  split; [done|].
  exists (mkUndoBlock h bh (header_PrevBlock (block_Header block))
            (ba_spent acc) (ba_created acc) (ba_history acc)), hss.
  destruct D. split; cbn [ub_SpentOutputs ub_CreatedOutputs].
  - done.
  - by rewrite td_spent0, td_created0, td_history0.
  - done.
  - done.
  - exists header, buf, raws, z, d, (mkCheckpoint h (hash_String bh) (cp_StartHeight prev)).
    split_and!; [done| | | |exact E3|done|done|by apply Hcp|].
    + rewrite <- E1, td_txids0. f_equal. unfold indexed. fold txs.
      rewrite <- (imap_pair_snd txs) at 1. by rewrite <- list_fmap_compose.
    + by apply Forall2_indexed.
    + by rewrite <- td_blob0.
    + by rewrite H, Hops1, td_ops0, td_offsets0, <- app_assoc.
Qed.

Lemma IndexBlock_Ok ord block h w w' :
  NoDup (TxHash <$> block_Transactions block) ->
  IndexBlock ord block h w = (Ok (), w') ->
  exists undo hss, indexed_block (contents (w_db w)) (contents (w_db w')) block h undo hss.
Proof.
  intros Hnd. unfold IndexBlock. rewrite st_bind_Ok. intros (b & w1 & H1 & H).
  apply (index_batch_Ok ord) in H1 as (Hc & undo & hss & Hb); [|done].
  apply st_wrap_Ok, in_db_Ok in H as [H _]. apply commit_run_Ok in H.
  exists undo, hss, (batch_ops b). split; [done|]. intros k Hk. rewrite H.
  apply apply_ops_same. by rewrite Hc.
Qed.

(** *** Nothing else changes the database *)

(** Confirmed data stays as it is. *)
Definition db_frame (w w' : world) : Prop :=
  confirmed_same (contents (w_db w)) (contents (w_db w')).

#[export] Instance db_frame_preorder : PreOrder db_frame.
Proof. split; [by intros w k _|]. intros a b d H1 H2 k Hk. by rewrite H2, H1. Qed.

Lemma same_db_frame {A} (m : st world A) : st_rel world_same m -> st_rel db_frame m.
Proof. intros Hm w k _. by rewrite (proj2 (Hm w)). Qed.

Lemma rel_RemoveOutput t v : st_rel db_frame (RemoveOutput t v).
Proof. by intros w k _. Qed.

Lemma rel_RemoveTransaction ord t : st_rel db_frame (RemoveTransaction ord t).
Proof.
  intros w. destruct (remove_run ord 0 (TxidToHex t) w) as (l & w' & E & _ & Hc & _).
  unfold RemoveTransaction. by rewrite E.
Qed.

Lemma rel_index_input acc i : st_rel db_frame (index_input acc i).
Proof.
  unfold index_input. destruct (IsCoinbaseInput i); [apply st_rel_ret, _|].
  apply st_rel_bind; [apply _|apply same_db_frame; eauto with st_rel typeclass_instances|].
  intros [sh|]; [|apply st_rel_ret, _].
  apply st_rel_bind; [apply _|apply same_db_frame; eauto with st_rel typeclass_instances|].
  intros u. apply st_rel_bind; [apply _|destruct u; [apply st_rel_lift, _|apply st_rel_ret, _]|].
  intros acc'. apply st_rel_bind; [apply _|apply rel_RemoveOutput|]. intros []. apply st_rel_ret, _.
Qed.

Lemma rel_index_tx ord bh h acc itx : st_rel db_frame (index_tx ord bh h acc itx).
Proof.
  destruct itx as [i tx]. unfold index_tx.
  apply st_rel_bind; [apply _|apply st_rel_lift, _|]. intros raw.
  apply st_rel_bind; [apply _|apply st_rel_lift, _|]. intros b1.
  apply st_rel_bind; [apply _| |].
  { destruct (i =? 0)%nat; [apply st_rel_ret, _|]. apply st_rel_foldM; [apply _|].
    intros. apply rel_index_input. }
  intros [[b2 sp] shs]. apply st_rel_bind; [apply _|apply st_rel_lift, _|]. intros [[b3 cr] shs2].
  apply st_rel_bind; [apply _|apply st_rel_lift, _|]. intros [[[b4 hist] added] idx].
  apply st_rel_bind; [apply _|apply rel_RemoveTransaction|]. intros l. apply st_rel_ret, _.
Qed.

Lemma rel_index_batch ord block h : st_rel db_frame (index_batch ord block h).
Proof.
  unfold index_batch. apply st_rel_bind; [apply _|apply st_rel_lift, _|]. intros header.
  apply st_rel_bind; [apply _|apply st_rel_foldM; [apply _|intros; apply rel_index_tx]|].
  intros acc. apply st_rel_bind; [apply _|apply st_rel_lift, _|]. intros b.
  apply st_rel_bind; [apply _|apply same_db_frame; eauto with st_rel typeclass_instances|].
  intros [cp e]. apply st_rel_lift, _.
Qed.

(** The only change to confirmed data is the block's whole batch. *)
Lemma IndexBlock_cases ord block h w :
  NoDup (TxHash <$> block_Transactions block) ->
  db_frame w (IndexBlock ord block h w).2 \/
  exists undo hss,
    indexed_block (contents (w_db w)) (contents (w_db (IndexBlock ord block h w).2)) block h undo hss.
Proof.
  intros Hnd. unfold IndexBlock. pose proof (rel_index_batch ord block h w) as Hf.
  destruct (index_batch ord block h w) as [[b|e] w1] eqn:E.
  2:{ left. by rewrite (st_bind_err _ _ _ _ _ E). }
  rewrite (st_bind_run _ _ _ _ _ E). cbn [snd] in Hf.
  apply index_batch_Ok in E as (_ & undo & hss & Hb); [|done].
  unfold st_wrap, in_db. pose proof (commit_cases b (w_db w1)) as Hc.
  destruct (batch_Commit b (w_db w1)) as [r d]. cbn [snd w_db] in *. destruct Hc as [Hc|Hc].
  - left. intros k Hk. cbn [w_db]. by rewrite Hc, Hf.
  - right. exists undo, hss, (batch_ops b). split; [done|]. intros k Hk. rewrite Hc.
    apply apply_ops_same. by rewrite Hf.
Qed.

End Loops.
