(* ===== verification/BlockOps.v ===== *)
(** * The batch of a block, key by key

    Where the operations of a block's batch come from, and what they leave
    under a key on which they agree. *)

From Stdlib Require Import Strings.Byte.
From S2P Require Import Prelude Bytes Hex Keys Values Json Checkpoint Pebble Store Sha256 Types Mempool MempoolFacts Block BlockFacts.

(** ** Operations that agree on a key *)

Lemma apply_ops_restore (rops : list batch_op) (m c : gmap bytes bytes) k :
  (forall o, o ∈ rops -> op_value o = c !! op_key o) ->
  m !! k = c !! k \/ (exists o, o ∈ rops /\ op_key o = k) ->
  apply_ops rops m !! k = c !! k.
Proof.
  revert m; induction rops as [|o rops IH]; intros m Hr Hk.
  { destruct Hk as [?|(o & ?%elem_of_nil & _)]; done. }
  change (apply_ops (o :: rops) m) with (apply_ops rops (apply_op m o)).
  apply IH; [set_solver|]. rewrite apply_op_lookup.
  case_decide as E; [left; rewrite <- E; apply Hr; set_solver|].
  destruct Hk as [?|(o' & Ho & E')]; [by left|].
  apply elem_of_cons in Ho as [->|Ho]; [done|]. right. eauto.
Qed.

(** All operations on a key agree on its value. *)
Lemma apply_ops_determined (ops : list batch_op) (m : gmap bytes bytes) k v :
  (forall o, o ∈ ops -> op_key o = k -> op_value o = v) ->
  m !! k = v \/ (exists o, o ∈ ops /\ op_key o = k) ->
  apply_ops ops m !! k = v.
Proof.
  revert m; induction ops as [|o ops IH]; intros m Hr Hk.
  { destruct Hk as [?|(o & ?%elem_of_nil & _)]; done. }
  change (apply_ops (o :: ops) m) with (apply_ops ops (apply_op m o)).
  apply IH; [set_solver|]. rewrite apply_op_lookup.
  case_decide as E; [left; apply Hr; set_solver|].
  destruct Hk as [?|(o' & Ho & E')]; [by left|].
  apply elem_of_cons in Ho as [->|Ho]; [done|]. right. eauto.
Qed.

Lemma lookup_indexed {A} (l : list A) i : indexed l !! i = pair i <$> l !! i.
Proof. unfold indexed. rewrite list_lookup_imap. by destruct (l !! i). Qed.

Lemma bind_indexed {A C} (f : nat * A -> list C) (l : list A) y :
  y ∈ indexed l ≫= f <-> exists i x, l !! i = Some x /\ y ∈ f (i, x).
Proof.
  rewrite list_elem_of_bind. split.
  - intros ([j x] & Hy & Hin). apply list_elem_of_lookup in Hin as [i Hi].
    rewrite lookup_indexed in Hi. destruct (l !! i) as [x'|] eqn:E; [|done].
    injection Hi as <- <-. eauto.
  - intros (i & x & Hx & Hy). exists (i, x). split; [done|]. apply list_elem_of_lookup. exists i.
    by rewrite lookup_indexed, Hx.
Qed.

Section BatchKeys.
Context {P : Pebble} {PL : PebbleLaws P} {B : Btcd} {BL : BtcdLaws B} {Zs : Zstd}.

(** ** Where the parts of a block's batch come from *)

(** The database knows nothing of the block yet. *)
Record fresh_block (c : gmap bytes bytes) (block : MsgBlock) (h : Z) : Prop := {
  fr_tx tx v : tx ∈ block_Transactions block -> c !! tkey (TxHash tx) v = None;
  fr_utxo tx sh v : tx ∈ block_Transactions block -> length sh = 32%nat ->
    c !! ukey sh (TxHash tx) v = None;
  fr_hist sh i x : length sh = 32%nat -> c !! hkey sh h i x = None;
  fr_header : c !! (PrefixHeader :: be_encode 4 (u32 h)) = None;
  fr_txids : c !! (PrefixBlockTx :: be_encode 4 (u32 h)) = None;
  fr_undo bh : c !! (PrefixUndo :: be_encode 4 (u32 h) ++ bh) = None;
}.

(** The same, as a check of every key. *)
Definition key_clash (block : MsgBlock) (h : Z) (k : bytes) : bool :=
  match k with
  | [] => false
  | p :: r =>
      bool_decide (p = PrefixTxIndex /\ take 32 r ∈ TxHash <$> block_Transactions block) ||
      bool_decide (p = PrefixUTXO /\ take 32 (drop 32 r) ∈ TxHash <$> block_Transactions block) ||
      bool_decide (p = PrefixHistory /\ take 4 (drop 32 r) = be_encode 4 (u32 h)) ||
      bool_decide (p ∈ [PrefixHeader; PrefixBlockTx; PrefixUndo] /\ take 4 r = be_encode 4 (u32 h))
  end.

Definition fresh_blockb (c : gmap bytes bytes) (block : MsgBlock) (h : Z) : bool :=
  forallb (fun kv => negb (key_clash block h kv.1)) (map_to_list c).

Lemma fresh_blockb_absent c block h k : fresh_blockb c block h = true ->
  key_clash block h k = true -> c !! k = None.
Proof.
  unfold fresh_blockb. rewrite forallb_forall. intros Hf Hk.
  destruct (c !! k) as [v|] eqn:E; [|done]. apply elem_of_map_to_list, list_elem_of_In in E.
  specialize (Hf (k, v) E). cbn [fst] in Hf. by rewrite Hk in Hf.
Qed.

Lemma fresh_blockb_fresh c block h : fresh_blockb c block h = true -> fresh_block c block h.
Proof.
  intros Hf. split; intros; apply (fresh_blockb_absent c block h _ Hf); unfold key_clash, tkey, ukey, hkey.
  all: rewrite !orb_true_iff, !bool_decide_eq_true.
  - left. left. left. split; [done|]. rewrite take_app_le, take_ge by (rewrite length_TxHash; lia).
    by apply list_elem_of_fmap_2.
  - left. left. right. split; [done|]. rewrite drop_app_length' by done.
    rewrite take_app_length' by (by rewrite length_TxHash). by apply list_elem_of_fmap_2.
  - left. right. split; [done|]. rewrite drop_app_length' by done. by rewrite take_app_length'.
  - right. split; [left|done].
  - right. split; [right; left|done].
  - right. split; [do 2 right; left|by rewrite take_app_length'].
Qed.

Lemma block_spent_elem c txs o : o ∈ block_spent c txs ->
  exists tx i, tx ∈ txs /\ i ∈ tx_TxIn tx /\ spent_by c i = Some o.
Proof.
  unfold block_spent. rewrite list_elem_of_bind. intros ([n tx] & Ho & Hin).
  unfold tx_spent in Ho. cbn [fst snd] in Ho. destruct (n =? 0)%nat; [by apply elem_of_nil in Ho|].
  apply list_elem_of_omap in Ho as (i & Hi & E). exists tx, i. split_and!; [|done..].
  rewrite <- (imap_pair_snd txs). apply list_elem_of_fmap. by exists (n, tx).
Qed.

Lemma block_created_elem bh h txs o : o ∈ block_created bh h txs ->
  exists tx v out, tx ∈ txs /\ tx_TxOut tx !! v = Some out /\ created_by (TxHash tx) bh h (v, out) = Some o.
Proof.
  unfold block_created. rewrite list_elem_of_bind. intros ([n tx] & Ho & Hin).
  unfold tx_created in Ho. cbn [fst snd] in Ho.
  apply list_elem_of_omap in Ho as ([v out] & Hi & E). exists tx, v, out. split_and!; [| |done].
  - rewrite <- (imap_pair_snd txs). apply list_elem_of_fmap. by exists (n, tx).
  - apply list_elem_of_lookup in Hi as [j Hj]. unfold indexed in Hj.
    rewrite list_lookup_imap in Hj. destruct (tx_TxOut tx !! j) eqn:Ej; simpl in Hj; [|done].
    by injection Hj as <- <-.
Qed.

(** A spent output is in the database under both its keys. *)
Lemma spent_by_stored c i o : spent_by c i = Some o ->
  c !! tkey (uo_Txid o) (uo_Vout o) = Some (uo_Scripthash o) /\
  c !! ukey (uo_Scripthash o) (uo_Txid o) (uo_Vout o) = Some (output_value o) /\
  uo_Txid o = op_Hash i /\ uo_Vout o = op_Index i /\ in_i64 (uo_Value o) /\ in_i32 (uo_Height o) /\
  length (uo_BlockHash o) = 32%nat.
Proof.
  unfold spent_by. destruct (IsCoinbaseInput i); [done|].
  destruct (c !! tkey _ _) as [sh|] eqn:Et; [|done]. cbn [mbind option_bind].
  destruct (c !! ukey _ _ _) as [bs|] eqn:Eu; [|done]. cbn [mbind option_bind].
  destruct (DecodeUTXOValue bs) as [u|] eqn:Ed; [|done]. cbn [to_option mbind option_bind].
  intros [= <-]. cbn [uo_Txid uo_Vout uo_Scripthash uo_Value uo_Height uo_BlockHash].
  apply EncodeUTXOValue_Decode in Ed as [(H1 & H2 & H3) E].
  unfold output_value. cbn [uo_Value uo_Height uo_BlockHash].
  assert (mkUTXOValue (uv_Value u) (uv_Height u) (uv_BlockHash u) = u) as -> by (by destruct u).
  by rewrite E.
Qed.

Lemma created_by_fields txid bh h vo o : created_by txid bh h vo = Some o ->
  uo_Txid o = txid /\ uo_Vout o = u32 (Z.of_nat vo.1) /\
  uo_Scripthash o = ComputeScripthash (to_PkScript vo.2) /\ uo_Value o = to_Value vo.2 /\
  uo_Height o = h /\ uo_BlockHash o = bh.
Proof.
  destruct vo as [v out]. unfold created_by. destruct (IsOpReturn _); [done|].
  destruct (to_Value out =? 0); [done|]. intros [= <-]. done.
Qed.

(** The history entries of a block are entries at its height. *)
Lemma block_history_elem c bh h txs hss e : Forall2 (tx_history c bh h) (indexed txs) hss ->
  e ∈ mjoin hss -> exists i, history_entry h i e /\ in_u32 i.
Proof.
  intros Hf He. apply list_elem_of_join in He as (hs & He & Hhs).
  apply list_elem_of_lookup in Hhs as [n Hn].
  destruct (Forall2_lookup_r _ _ _ _ _ Hf Hn) as ([i tx] & _ & (Hall & _)).
  rewrite Forall_forall in Hall. exists (u32 (Z.of_nat i)). split; [by apply Hall|apply u32_range].
Qed.

(** ** The operations by the kind of their key *)

Section Kinds.
Context (c : gmap bytes bytes) (block : MsgBlock) (h : Z) (hss : list (list UndoHistory)).
Context (header txidbuf : bytes) (raws : list bytes) (blobz undobs : bytes) (cp : Checkpoint).

Let txs := block_Transactions block.
Let bh := header_BlockHash (block_Header block).

Inductive block_op : batch_op -> Prop :=
| bop_pos i tx : txs !! i = Some tx ->
    block_op (BSet (poskey (TxHash tx)) (encode_txpos h (u32 (Z.of_nat i))))
| bop_spent_u s : s ∈ block_spent c txs ->
    block_op (BDelete (ukey (uo_Scripthash s) (uo_Txid s) (uo_Vout s)))
| bop_spent_t s : s ∈ block_spent c txs -> block_op (BDelete (tkey (uo_Txid s) (uo_Vout s)))
| bop_created_u s : s ∈ block_created bh h txs ->
    block_op (BSet (ukey (uo_Scripthash s) (uo_Txid s) (uo_Vout s)) (output_value s))
| bop_created_t s : s ∈ block_created bh h txs ->
    block_op (BSet (tkey (uo_Txid s) (uo_Vout s)) (uo_Scripthash s))
| bop_hist e : e ∈ mjoin hss -> block_op (history_op e)
| bop_header : block_op (BSet (PrefixHeader :: be_encode 4 (u32 h)) header)
| bop_txids : block_op (BSet (PrefixBlockTx :: be_encode 4 (u32 h)) txidbuf)
| bop_blob : block_op (BSet (PrefixTxBlob :: be_encode 4 (u32 h)) blobz)
| bop_offs : block_op (BSet (PrefixTxOffs :: be_encode 4 (u32 h)) (encode_offsets (blob_offsets 0 raws)))
| bop_undo : block_op (BSet (PrefixUndo :: be_encode 4 (u32 h) ++ bh) undobs)
| bop_checkpoint : block_op (BSet KeyCheckpoint (json_Marshal cp)).

Lemma spent_ops_elem s o : o ∈ spent_ops s <->
  o = BDelete (ukey (uo_Scripthash s) (uo_Txid s) (uo_Vout s)) \/
  o = BDelete (tkey (uo_Txid s) (uo_Vout s)).
Proof. unfold spent_ops. rewrite elem_of_cons, list_elem_of_singleton. done. Qed.

Lemma created_ops_elem s o : o ∈ created_ops s <->
  o = BSet (ukey (uo_Scripthash s) (uo_Txid s) (uo_Vout s)) (output_value s) \/
  o = BSet (tkey (uo_Txid s) (uo_Vout s)) (uo_Scripthash s).
Proof. unfold created_ops. rewrite elem_of_cons, list_elem_of_singleton. done. Qed.

(** The operations of the transactions, the other way round. *)
Lemma elem_txs_ops i tx hs o : txs !! i = Some tx -> hss !! i = Some hs ->
  o ∈ tx_ops c bh h (i, tx) hs -> o ∈ txs_ops c bh h (indexed txs) hss.
Proof.
  intros Ht Hh Ho. unfold txs_ops. apply list_elem_of_bind. exists ((i, tx), hs). split; [done|].
  apply list_elem_of_lookup. exists i. apply lookup_zip_Some. split; [|done].
  by rewrite lookup_indexed, Ht.
Qed.

Lemma txs_ops_iff o : length hss = length txs -> o ∈ txs_ops c bh h (indexed txs) hss <->
  exists i tx hs, txs !! i = Some tx /\ hss !! i = Some hs /\ o ∈ tx_ops c bh h (i, tx) hs.
Proof.
  intros Hlen. split.
  - unfold txs_ops. rewrite list_elem_of_bind. intros ([[j tx] hs] & Ho & Hz).
    cbn [fst snd] in Ho. apply list_elem_of_lookup in Hz as [i Hi].
    apply lookup_zip_Some in Hi as [Hi1 Hi2]. rewrite lookup_indexed in Hi1.
    destruct (txs !! i) as [tx'|] eqn:E; [|done]. injection Hi1 as <- <-. eauto 6.
  - intros (i & tx & hs & ? & ? & ?). by eapply elem_txs_ops.
Qed.

Lemma block_spent_iff s : s ∈ block_spent c txs <->
  exists i tx, txs !! i = Some tx /\ s ∈ tx_spent c (i, tx).
Proof. apply bind_indexed. Qed.

Lemma block_created_iff s : s ∈ block_created bh h txs <->
  exists i tx, txs !! i = Some tx /\ s ∈ tx_created bh h (i, tx).
Proof. apply bind_indexed. Qed.

Lemma elem_mjoin {A} (ls : list (list A)) x : x ∈ mjoin ls <-> exists i l, ls !! i = Some l /\ x ∈ l.
Proof.
  rewrite list_elem_of_join. setoid_rewrite list_elem_of_lookup at 2. naive_solver.
Qed.

Lemma block_op_iff o : length hss = length txs ->
  o ∈ txs_ops c bh h (indexed txs) hss ++
      record_ops h header txidbuf blobz (blob_offsets 0 raws) bh undobs ++
      [BSet KeyCheckpoint (json_Marshal cp)] <-> block_op o.
Proof.
  intros Hlen. rewrite !elem_of_app, txs_ops_iff by done. split.
  - intros [(i & tx & hs & Ht & Hh & Ho)|[Ho|Ho]].
    + unfold tx_ops in Ho. cbn [fst snd] in Ho.
      rewrite elem_of_cons, !elem_of_app, !list_elem_of_bind in Ho.
      destruct Ho as [->|[(s & Ho & Hs)|[(s & Ho & Hs)|Ho]]].
      * by constructor.
      * assert (s ∈ block_spent c txs) by (apply block_spent_iff; eauto).
        apply spent_ops_elem in Ho as [->| ->]; by constructor.
      * assert (s ∈ block_created bh h txs) by (apply block_created_iff; eauto).
        apply created_ops_elem in Ho as [->| ->]; by constructor.
      * apply list_elem_of_fmap in Ho as (e & -> & He). constructor. apply elem_mjoin. eauto.
    + unfold record_ops in Ho.
      repeat (apply elem_of_cons in Ho as [->|Ho]; [constructor|]). by apply elem_of_nil in Ho.
    + apply list_elem_of_singleton in Ho as ->. constructor.
  - destruct 1 as [i tx Ht|s Hs|s Hs|s Hs|s Hs|e He| | | | | |].
    1: { destruct (lookup_lt_is_Some_2 hss i) as [hs Hhs];
           [rewrite Hlen; by eapply lookup_lt_Some|].
         left. exists i, tx, hs. split_and!; [done..|]. left. }
    1-2: apply block_spent_iff in Hs as (i & tx & Ht & Hs).
    3-4: apply block_created_iff in Hs as (i & tx & Ht & Hs).
    1-4: destruct (lookup_lt_is_Some_2 hss i) as [hs Hhs];
           [rewrite Hlen; by eapply lookup_lt_Some|];
         left; exists i, tx, hs; split_and!; [done..|]; unfold tx_ops; cbn [fst snd];
         rewrite elem_of_cons, !elem_of_app, !list_elem_of_bind; right.
    1-2: left; exists s; rewrite spent_ops_elem; auto.
    1-2: right; left; exists s; rewrite created_ops_elem; auto.
    { apply elem_mjoin in He as (i & hs & Hhs & He).
      destruct (lookup_lt_is_Some_2 txs i) as [tx Ht]; [rewrite <- Hlen; by eapply lookup_lt_Some|].
      left. exists i, tx, hs. split_and!; [done..|]. unfold tx_ops. cbn [fst snd].
      rewrite elem_of_cons, !elem_of_app. do 3 right. by apply list_elem_of_fmap_2. }
    1-5: right; left; unfold record_ops; rewrite !elem_of_cons; auto 7.
    right. right. by apply list_elem_of_singleton.
Qed.

End Kinds.

(** The parts of a block's batch, and its operations as a set. *)
Lemma block_batch_parts c block h undo hss ops : block_batch c block h undo hss ops ->
  exists header txidbuf raws blobz undobs cp,
    header_Serialize (block_Header block) = Ok header /\
    encode_txids (TxHash <$> block_Transactions block) = Ok txidbuf /\
    Forall2 (fun tx raw => tx_Serialize tx = Ok raw) (block_Transactions block) raws /\
    compressZstd (mjoin raws) = Ok blobz /\
    EncodeUndoBlock undo = Ok undobs /\
    cp_Height cp = h /\ cp_BlockHash cp = hash_String (header_BlockHash (block_Header block)) /\
    in_i32 (cp_StartHeight cp) /\
    forall o, o ∈ ops <-> block_op c block h hss header txidbuf raws blobz undobs cp o.
Proof.
  intros Bb. pose proof (Forall2_length _ _ _ (bb_hist _ _ _ _ _ _ Bb)) as Hlen.
  unfold indexed in Hlen. rewrite length_imap in Hlen.
  destruct (bb_ops _ _ _ _ _ _ Bb) as (header & buf & raws & z & d & cp & H1 & H2 & H3 & H4 & H5 & H6 & H7 & H8 & ->).
  exists header, buf, raws, z, d, cp. split_and!; [done..|]. intros o. by apply block_op_iff.
Qed.

(** What a key holds after a block, when all the block's operations on it
    agree. *)
Lemma block_key (c c' : gmap bytes bytes) block h undo hss ops header txidbuf raws blobz undobs cp k v :
  let bop := block_op c block h hss header txidbuf raws blobz undobs cp in
  block_batch c block h undo hss ops -> (forall o, o ∈ ops <-> bop o) ->
  c' !! k = apply_ops ops c !! k ->
  (forall o, bop o -> op_key o = k -> op_value o = v) ->
  c !! k = v \/ (exists o, bop o /\ op_key o = k) ->
  c' !! k = v.
Proof.
  intros bop Bb Hops Hc Hv Hk. rewrite Hc. apply apply_ops_determined.
  - intros o Ho. by apply Hv, Hops.
  - destruct Hk as [?|(o & Ho & E)]; [by left|right]. exists o. by rewrite Hops.
Qed.

(** ** The keys are injective *)

Lemma tkey_inj t v t' v' : length t = length t' -> in_u32 v -> in_u32 v' ->
  tkey t v = tkey t' v' -> t = t' /\ v = v'.
Proof.
  intros Hl Hv Hv' [= E]. apply app_inj_1 in E as [-> E]; [|done]. split; [done|]. by apply be32_inj.
Qed.

Lemma ukey_inj sh t v sh' t' v' : length t = length t' ->
  in_u32 v -> in_u32 v' -> ukey sh t v = ukey sh' t' v' -> sh = sh' /\ t = t' /\ v = v'.
Proof.
  intros Hl Hv Hv' [= E].
  assert (Hs : length sh = length sh').
  { apply (f_equal length) in E. rewrite !length_app, !length_be_encode in E. lia. } apply app_inj_1 in E as [-> E]; [|done].
  apply app_inj_1 in E as [-> E]; [|done]. split_and!; [done..|]. by apply be32_inj.
Qed.

Lemma hkey_inj sh h i x sh' h' i' x' : length sh = length sh' -> in_i32 h -> in_i32 h' ->
  in_u32 i -> in_u32 i' -> in_u32 x -> in_u32 x' ->
  hkey sh h i x = hkey sh' h' i' x' -> sh = sh' /\ h = h' /\ i = i' /\ x = x'.
Proof.
  intros Hs Hh Hh' Hi Hi' Hx Hx' [= E]. apply app_inj_1 in E as [-> E]; [|done].
  apply app_inj_1 in E as [E1 E]; [|by rewrite !length_be_encode].
  apply app_inj_1 in E as [E2 E3]; [|by rewrite !length_be_encode].
  apply be32_inj in E1; [|apply u32_range..]. apply be32_inj in E2; [|done..].
  apply be32_inj in E3; [|done..]. split_and!; [done| |done..]. by apply u32_inj.
Qed.

(** ** Sizes of what is spent and created *)

Lemma block_spent_fields c txs s : s ∈ block_spent c txs ->
  length (uo_Txid s) = 32%nat /\ in_u32 (uo_Vout s) /\
  c !! tkey (uo_Txid s) (uo_Vout s) = Some (uo_Scripthash s).
Proof.
  intros (tx & i & _ & Hi & E)%block_spent_elem.
  apply spent_by_stored in E as (Ht & _ & E1 & E2 & _). destruct (tx_TxIn_wf tx i Hi) as [H1 H2].
  by rewrite E1, E2 in *.
Qed.

Lemma block_created_fields bh h txs s : s ∈ block_created bh h txs ->
  length (uo_Scripthash s) = 32%nat /\ length (uo_Txid s) = 32%nat /\ in_u32 (uo_Vout s) /\
  exists tx, tx ∈ txs /\ uo_Txid s = TxHash tx.
Proof.
  intros (tx & v & out & Htx & _ & E)%block_created_elem.
  apply created_by_fields in E as (-> & -> & -> & _).
  split_and!; [apply length_ComputeScripthash|apply length_TxHash|apply u32_range|eauto].
Qed.

(** ** The operations on a key *)

Section KeyOps.
Context (c : gmap bytes bytes) (block : MsgBlock) (h : Z) (undo : UndoBlock)
  (hss : list (list UndoHistory)) (ops : list batch_op).
Context (header txidbuf : bytes) (raws : list bytes) (blobz undobs : bytes) (cp : Checkpoint).
Context (Bb : block_batch c block h undo hss ops).

Let bop := block_op c block h hss header txidbuf raws blobz undobs cp.
Let spent := block_spent c (block_Transactions block).
Let created := block_created (header_BlockHash (block_Header block)) h (block_Transactions block).

Lemma spent_sized s : s ∈ spent -> sized s.
Proof.
  intros Hs. pose proof (bb_sized _ _ _ _ _ _ Bb) as H. rewrite (bb_undo _ _ _ _ _ _ Bb) in H.
  cbn [ub_SpentOutputs ub_CreatedOutputs] in H. rewrite Forall_forall in H. apply H.
  apply elem_of_app. by left.
Qed.

Lemma tkey_ops o t v : length t = 32%nat -> in_u32 v -> bop o -> op_key o = tkey t v ->
  (exists s, s ∈ spent /\ uo_Txid s = t /\ uo_Vout s = v /\ op_value o = None) \/
  (exists s, s ∈ created /\ uo_Txid s = t /\ uo_Vout s = v /\ op_value o = Some (uo_Scripthash s)).
Proof.
  intros Ht Hv Ho. destruct Ho as [| |s Hs| |s Hs| | | | | | |]; cbn [op_key]; intros E;
    try discriminate E.
  - destruct (block_spent_fields _ _ _ Hs) as (H1 & H2 & _).
    apply tkey_inj in E as [E1 E2]; [|by rewrite Ht|done..]. left. by exists s.
  - destruct (block_created_fields _ _ _ _ Hs) as (_ & H1 & H2 & _).
    apply tkey_inj in E as [E1 E2]; [|by rewrite Ht|done..]. right. by exists s.
Qed.

Lemma ukey_ops o sh t v : length t = 32%nat -> in_u32 v ->
  bop o -> op_key o = ukey sh t v ->
  (exists s, s ∈ spent /\ uo_Scripthash s = sh /\ uo_Txid s = t /\ uo_Vout s = v /\ op_value o = None) \/
  (exists s, s ∈ created /\ uo_Scripthash s = sh /\ uo_Txid s = t /\ uo_Vout s = v /\
     op_value o = Some (output_value s)).
Proof.
  intros Ht Hv Ho. destruct Ho as [|s Hs| |s Hs| | | | | | | |]; cbn [op_key]; intros E;
    try discriminate E.
  - destruct (block_spent_fields _ _ _ Hs) as (H1 & H2 & _).
    apply ukey_inj in E as (E0 & E1 & E2); [|by rewrite Ht|done..].
    left. by exists s.
  - destruct (block_created_fields _ _ _ _ Hs) as (_ & H1 & H2 & _).
    apply ukey_inj in E as (E0 & E1 & E2); [|by rewrite Ht|done..].
    right. by exists s.
Qed.

Lemma hkey_ops o sh i x : length sh = 32%nat -> in_u32 i -> in_u32 x -> bop o ->
  forall h', in_i32 h -> in_i32 h' -> op_key o = hkey sh h' i x ->
  h' = h /\ op_value o = Some [] /\ exists n tx hs e, block_Transactions block !! n = Some tx /\
    hss !! n = Some hs /\ e ∈ hs /\ u32 (Z.of_nat n) = i /\ uh_Scripthash e = sh /\ uh_Index e = x.
Proof.
  intros Hsh Hi Hx Ho h' Hh Hh'. destruct Ho as [| | | | |e He| | | | | |]; cbn [op_key]; intros E;
    try discriminate E.
  apply elem_mjoin in He as (n & hs & Hn & He).
  destruct (Forall2_lookup_r _ _ _ _ _ (bb_hist _ _ _ _ _ _ Bb) Hn) as ([n' tx] & Htx & (Hall & _)).
  rewrite lookup_indexed in Htx.
  destruct (block_Transactions block !! n) as [tx'|] eqn:Et; [|done]. injection Htx as <- <-.
  rewrite Forall_forall in Hall. destruct (Hall e He) as (E1 & E2 & E3 & E4). cbn [fst] in E2.
  unfold history_op in E. cbn [op_key] in E. rewrite E1, E2 in E.
  apply hkey_inj in E as (F1 & F2 & F3 & F4); [|by rewrite Hsh|done|done|apply u32_range|done|done|done].
  split_and!; [done|done|]. exists n, tx', hs, e. done.
Qed.

End KeyOps.

End BatchKeys.
