(* ===== verification/BlockProps.v ===== *)
(** * Indexing a block: properties

    The UTXO set as an abstract map from outpoints, and [IndexBlock] as a
    transition on it; the block's history entries and its own records. *)

From Stdlib Require Import Strings.Byte.
From S2P Require Import Prelude Bytes Hex Keys Values Json Checkpoint Pebble Store Sha256 Types Mempool MempoolFacts MempoolProps Block BlockFacts BlockOps.

(** ** The abstract UTXO set *)

Section Spec.
Context {B : Btcd}.

(** What the database [c] says of an outpoint: the scripthash it pays to, its
    value, height and block. *)
Definition utxo_at (c : gmap bytes bytes) (t : bytes) (v : Z) : option (bytes * UTXOValue) :=
  sh ← c !! tkey t v;
  bs ← c !! ukey sh t v;
  u ← to_option (DecodeUTXOValue bs);
  Some (sh, u).

Definition indexable (o : TxOut) : bool := negb (IsOpReturn (to_PkScript o)) && negb (to_Value o =? 0).

(** The output a block creates at an outpoint. *)
Definition created_at (block : MsgBlock) (h : Z) (t : bytes) (v : Z) : option (bytes * UTXOValue) :=
  tx ← snd <$> list_find (fun tx => TxHash tx = t) (block_Transactions block);
  o ← tx_TxOut tx !! Z.to_nat v;
  if indexable o
  then Some (ComputeScripthash (to_PkScript o),
             mkUTXOValue (to_Value o) h (header_BlockHash (block_Header block)))
  else None.

(** The outpoints a block spends: the inputs of all but its first transaction. *)
Definition block_inputs (block : MsgBlock) : list OutPoint :=
  filter (fun i => IsCoinbaseInput i = false) (tail (block_Transactions block) ≫= tx_TxIn).

#[export] Instance OutPoint_eq_dec : EqDecision OutPoint.
Proof. solve_decision. Defined.

(** The transition: what the block creates is added, what it spends of the
    rest is removed. *)
Definition utxo_step (block : MsgBlock) (h : Z) (U : bytes -> Z -> option (bytes * UTXOValue)) :
    bytes -> Z -> option (bytes * UTXOValue) := fun t v =>
  match created_at block h t v with
  | Some o => Some o
  | None => if decide (mkOutPoint t v ∈ block_inputs block) then None else U t v
  end.

End Spec.

Section Utxo.
Context {P : Pebble} {PL : PebbleLaws P} {B : Btcd} {BL : BtcdLaws B} {Zs : Zstd}.

Lemma spent_by_utxo_at c i o : spent_by c i = Some o <->
  IsCoinbaseInput i = false /\ uo_Txid o = op_Hash i /\ uo_Vout o = op_Index i /\
  utxo_at c (op_Hash i) (op_Index i) =
    Some (uo_Scripthash o, mkUTXOValue (uo_Value o) (uo_Height o) (uo_BlockHash o)).
Proof.
  unfold spent_by, utxo_at. destruct (IsCoinbaseInput i); [naive_solver|].
  destruct (c !! tkey _ _) as [sh|]; [|naive_solver]. cbn [mbind option_bind].
  destruct (c !! ukey _ _ _) as [bs|]; [|naive_solver]. cbn [mbind option_bind].
  destruct (DecodeUTXOValue bs) as [[v h b]|]; [|naive_solver].
  cbn [to_option mbind option_bind]. split.
  - by intros [= <-].
  - intros (_ & E1 & E2 & [= -> -> -> ->]). rewrite <- E1, <- E2. by destruct o.
Qed.

Lemma block_inputs_iff block i : i ∈ block_inputs block <->
  IsCoinbaseInput i = false /\
  exists n tx, block_Transactions block !! S n = Some tx /\ i ∈ tx_TxIn tx.
Proof.
  unfold block_inputs. rewrite list_elem_of_filter, list_elem_of_bind.
  setoid_rewrite list_elem_of_lookup at 2. setoid_rewrite lookup_tail. naive_solver.
Qed.

(** An outpoint is spent by the block iff it is one of its inputs and unspent. *)
Lemma block_spent_at c block s : s ∈ block_spent c (block_Transactions block) <->
  mkOutPoint (uo_Txid s) (uo_Vout s) ∈ block_inputs block /\
  utxo_at c (uo_Txid s) (uo_Vout s) =
    Some (uo_Scripthash s, mkUTXOValue (uo_Value s) (uo_Height s) (uo_BlockHash s)).
Proof.
  rewrite block_spent_iff, block_inputs_iff. split.
  - intros (i & tx & Ht & Hs). unfold tx_spent in Hs. cbn [fst snd] in Hs.
    destruct i as [|n]; [by apply elem_of_nil in Hs|].
    apply list_elem_of_omap in Hs as ([t v] & Hi & (Hc & E1 & E2 & E)%spent_by_utxo_at).
    cbn [op_Hash op_Index] in *. rewrite E1, E2. eauto 10.
  - intros ((Hc & n & tx & Ht & Hi) & E). exists (S n), tx. split; [done|].
    unfold tx_spent. cbn [fst snd Nat.eqb]. apply list_elem_of_omap.
    exists (mkOutPoint (uo_Txid s) (uo_Vout s)). split; [done|]. by apply spent_by_utxo_at.
Qed.

Lemma created_by_indexable txid bh h vo : created_by txid bh h vo =
  if indexable vo.2 then Some (mkUndoOutput (ComputeScripthash (to_PkScript vo.2)) txid
    (u32 (Z.of_nat vo.1)) (to_Value vo.2) h bh) else None.
Proof.
  destruct vo as [v o]. unfold created_by, indexable. cbn [fst snd].
  by destruct (IsOpReturn _), (to_Value o =? 0).
Qed.

Lemma list_find_hash txs tx : NoDup (TxHash <$> txs) -> tx ∈ txs ->
  snd <$> list_find (fun tx' => TxHash tx' = TxHash tx) txs = Some tx.
Proof.
  intros Hnd Htx. destruct (list_find_elem_of (fun tx' => TxHash tx' = TxHash tx) txs tx Htx eq_refl)
    as [[j tx'] E]. rewrite E. simpl. apply list_find_Some in E as (Hj & E & _).
  apply list_elem_of_lookup in Htx as [i Hi].
  assert (i = j) as <-; [|congruence].
  apply (NoDup_lookup _ _ _ (TxHash tx) Hnd); rewrite list_lookup_fmap; [by rewrite Hi|].
  rewrite Hj. simpl. by rewrite E.
Qed.

Lemma created_at_iff block h t v o :
  NoDup (TxHash <$> block_Transactions block) -> in_u32 v ->
  created_at block h t v = Some o <->
  exists s, s ∈ block_created (header_BlockHash (block_Header block)) h (block_Transactions block) /\
    uo_Txid s = t /\ uo_Vout s = v /\
    o = (uo_Scripthash s, mkUTXOValue (uo_Value s) (uo_Height s) (uo_BlockHash s)).
Proof.
  intros Hnd Hv. split.
  - unfold created_at. rewrite bind_Some. intros (tx & Hf & H). rewrite bind_Some in H.
    destruct H as (out & Ho & H). apply fmap_Some in Hf as ([i tx'] & Hf & ->). cbn [snd] in *.
    apply list_find_Some in Hf as (Hi & <- & _).
    destruct (indexable out) eqn:Ex; [|done]. injection H as <-.
    exists (mkUndoOutput (ComputeScripthash (to_PkScript out)) (TxHash tx') v (to_Value out) h
             (header_BlockHash (block_Header block))).
    split_and!; [|done..]. apply block_created_iff. exists i, tx'. split; [done|].
    unfold tx_created. cbn [fst snd]. apply list_elem_of_omap. exists (Z.to_nat v, out). split.
    + apply list_elem_of_lookup. exists (Z.to_nat v). by rewrite lookup_indexed, Ho.
    + rewrite created_by_indexable. cbn [snd fst]. rewrite Ex.
      destruct Hv. by rewrite Z2Nat.id, u32_id by (done || lia).
  - intros (s & (tx & n & out & Htx & Ho & E)%block_created_elem & <- & <- & ->).
    rewrite created_by_indexable in E. cbn [fst snd] in E.
    destruct (indexable out) eqn:Ex; [|done]. injection E as <-. cbn [uo_Txid uo_Vout] in *.
    unfold created_at. rewrite (list_find_hash _ tx) by done. cbn [mbind option_bind].
    assert (Hn : Z.of_nat n < 2 ^ 32).
    { pose proof (tx_TxOut_count tx). apply lookup_lt_Some in Ho. lia. }
    rewrite u32_id, Nat2Z.id by (unfold in_u32; lia). rewrite Ho. cbn [mbind option_bind].
    by rewrite Ex.
Qed.

Section Step.
Context (c c' : gmap bytes bytes) (block : MsgBlock) (h : Z) (undo : UndoBlock)
  (hss : list (list UndoHistory)).
Context (Hix : indexed_block c c' block h undo hss)
  (Hnd : NoDup (TxHash <$> block_Transactions block)) (Hh : in_i32 h)
  (Hfresh : forall tx v, tx ∈ block_Transactions block -> c !! tkey (TxHash tx) v = None).

Let spent := block_spent c (block_Transactions block).
Let created := block_created (header_BlockHash (block_Header block)) h (block_Transactions block).

(** What is spent is not created here: it was in the database before. *)
Lemma spent_not_created s s' : s ∈ spent -> s' ∈ created ->
  uo_Txid s = uo_Txid s' -> uo_Vout s = uo_Vout s' -> False.
Proof.
  intros Hs Hs' E1 E2. apply block_spent_fields in Hs as (_ & _ & E).
  apply block_created_fields in Hs' as (_ & _ & _ & tx & Htx & E').
  rewrite E1, E', Hfresh in E; done.
Qed.

Lemma created_unique s s' : s ∈ created -> s' ∈ created ->
  uo_Txid s = uo_Txid s' -> uo_Vout s = uo_Vout s' -> uo_Scripthash s = uo_Scripthash s' /\
  output_value s = output_value s'.
Proof.
  intros Hs Hs' E1 E2. pose proof (block_created_fields _ _ _ _ Hs) as (_ & _ & Hv & _).
  assert (C1 := proj2 (created_at_iff block h _ _ _ Hnd Hv)
    (ex_intro _ s (conj Hs (conj eq_refl (conj eq_refl eq_refl))))).
  rewrite E2 in Hv. assert (C2 := proj2 (created_at_iff block h _ _ _ Hnd Hv)
    (ex_intro _ s' (conj Hs' (conj eq_refl (conj eq_refl eq_refl))))).
  rewrite E1, E2, C2 in C1. injection C1 as -> E3 E4 E5. unfold output_value. by rewrite E3, E4, E5.
Qed.

Lemma after_created s : s ∈ created ->
  c' !! tkey (uo_Txid s) (uo_Vout s) = Some (uo_Scripthash s) /\
  c' !! ukey (uo_Scripthash s) (uo_Txid s) (uo_Vout s) = Some (output_value s).
Proof.
  intros Hs. destruct Hix as (ops & Bb & Hc).
  destruct (block_batch_parts _ _ _ _ _ _ Bb)
    as (header & buf & raws & z & d & cp & _ & _ & _ & _ & _ & _ & _ & _ & Hops).
  destruct (block_created_fields _ _ _ _ Hs) as (L1 & L2 & L3 & _). split.
  - eapply block_key; [done|done|by apply Hc, confirmed_tkey| |].
    + intros o Ho E. eapply tkey_ops in E as [(s' & Hs' & E1 & E2 & _)|(s' & Hs' & E1 & E2 & ->)]; try done.
      * exfalso. by eapply spent_not_created.
      * f_equal. by apply created_unique.
    + right. eexists. split; [by apply bop_created_t|done].
  - eapply block_key; [done|done|by apply Hc, confirmed_ukey| |].
    + intros o Ho E. eapply ukey_ops in E as [(s' & Hs' & _ & E1 & E2 & _)|(s' & Hs' & _ & E1 & E2 & ->)]; try done.
      * exfalso. by eapply spent_not_created.
      * f_equal. by apply created_unique.
    + right. eexists. split; [by apply bop_created_u|done].
Qed.

Lemma after_spent s : s ∈ spent -> c' !! tkey (uo_Txid s) (uo_Vout s) = None.
Proof.
  intros Hs. destruct Hix as (ops & Bb & Hc).
  destruct (block_batch_parts _ _ _ _ _ _ Bb)
    as (header & buf & raws & z & d & cp & _ & _ & _ & _ & _ & _ & _ & _ & Hops).
  destruct (block_spent_fields _ _ _ Hs) as (L1 & L2 & _).
  eapply block_key; [done|done|by apply Hc, confirmed_tkey| |].
  - intros o Ho E. eapply tkey_ops in E as [(s' & Hs' & E1 & E2 & ->)|(s' & Hs' & E1 & E2 & _)]; try done.
    exfalso. by eapply spent_not_created.
  - right. eexists. split; [by apply bop_spent_t|done].
Qed.

Lemma after_spent_u s : s ∈ spent -> c' !! ukey (uo_Scripthash s) (uo_Txid s) (uo_Vout s) = None.
Proof.
  intros Hs. destruct Hix as (ops & Bb & Hc).
  destruct (block_batch_parts _ _ _ _ _ _ Bb)
    as (header & buf & raws & z & d & cp & _ & _ & _ & _ & _ & _ & _ & _ & Hops).
  destruct (block_spent_fields _ _ _ Hs) as (L1 & L2 & _).
  eapply block_key; [done|done|by apply Hc, confirmed_ukey| |].
  - intros o Ho E. eapply ukey_ops in E as [(s' & Hs' & _ & E1 & E2 & ->)|(s' & Hs' & _ & E1 & E2 & _)]; try done.
    exfalso. by eapply spent_not_created.
  - right. eexists. split; [by apply bop_spent_u|done].
Qed.

(** The keys of an outpoint the block neither creates nor spends. *)
Lemma after_other t v sh : length t = 32%nat -> in_u32 v ->
  (forall s, s ∈ spent -> uo_Txid s = t -> uo_Vout s = v -> False) ->
  (forall s, s ∈ created -> uo_Txid s = t -> uo_Vout s = v -> False) ->
  c' !! tkey t v = c !! tkey t v /\
  c' !! ukey sh t v = c !! ukey sh t v.
Proof.
  intros Ht Hv Hs Hc. destruct Hix as (ops & Bb & Hc').
  destruct (block_batch_parts _ _ _ _ _ _ Bb)
    as (header & buf & raws & z & d & cp & _ & _ & _ & _ & _ & _ & _ & _ & Hops).
  split; (eapply block_key; [done|done|by apply Hc'| |by left]); intros o Ho E.
  - eapply tkey_ops in E as [(s' & Hs' & E1 & E2 & _)|(s' & Hs' & E1 & E2 & _)]; try done;
      exfalso; eauto.
  - eapply ukey_ops in E as [(s' & Hs' & _ & E1 & E2 & _)|(s' & Hs' & _ & E1 & E2 & _)]; try done;
      exfalso; eauto.
Qed.

Lemma utxo_other t v : length t = 32%nat -> in_u32 v ->
  (forall s, s ∈ spent -> uo_Txid s = t -> uo_Vout s = v -> False) ->
  (forall s, s ∈ created -> uo_Txid s = t -> uo_Vout s = v -> False) ->
  utxo_at c' t v = utxo_at c t v.
Proof.
  intros Ht Hv Hs Hc. unfold utxo_at. rewrite (proj1 (after_other t v [] Ht Hv Hs Hc)).
  destruct (c !! tkey t v) as [sh|]; [|done]. cbn [mbind option_bind].
  by rewrite (proj2 (after_other t v sh Ht Hv Hs Hc)).
Qed.

Lemma utxo_after t v : length t = 32%nat -> in_u32 v ->
  utxo_at c' t v = utxo_step block h (utxo_at c) t v.
Proof.
  intros Ht Hv. unfold utxo_step. destruct (created_at block h t v) as [o|] eqn:Ec.
  { apply (created_at_iff block h t v o Hnd Hv) in Ec as (s & Hs & <- & <- & ->).
    unfold utxo_at. destruct (after_created s Hs) as [-> E]. cbn [mbind option_bind].
    rewrite E. cbn [mbind option_bind]. unfold output_value.
    apply block_created_elem in Hs as (tx & n & out & _ & Ho & Hs).
    apply created_by_fields in Hs as (_ & _ & _ & E1 & E2 & E3).
    rewrite DecodeUTXOValue_Encode; [done|]. split_and!; cbn [uv_Value uv_Height uv_BlockHash].
    - rewrite E1. apply (tx_TxOut_wf tx). by eapply list_elem_of_lookup_2.
    - by rewrite E2.
    - rewrite E3. apply length_BlockHash. }
  assert (Hnc : forall s, s ∈ created -> uo_Txid s = t -> uo_Vout s = v -> False).
  { intros s Hs E1 E2. assert (created_at block h t v <> None); [|done].
    erewrite (proj2 (created_at_iff block h t v _ Hnd Hv)); [done|]. eauto. }
  case_decide as Hin.
  - destruct (utxo_at c t v) as [[sh [a hh b]]|] eqn:Eu.
    + assert (Hs : mkUndoOutput sh t v a hh b ∈ spent) by (by apply block_spent_at).
      apply after_spent in Hs. cbn [uo_Txid uo_Vout] in Hs. unfold utxo_at. by rewrite Hs.
    + rewrite (utxo_other t v Ht Hv); [done| |done].
      intros s Hs <- <-. apply block_spent_at in Hs as [_ Hs]. by rewrite Hs in Eu.
  - apply utxo_other; [done..| |done].
    intros s Hs <- <-. by apply block_spent_at in Hs as [Hs _].
Qed.

End Step.

(** *** History entries *)

Lemma history_after c c' block h undo hss sh h' i x :
  indexed_block c c' block h undo hss -> in_i32 h -> in_i32 h' -> in_u32 i -> in_u32 x ->
  length sh = 32%nat -> Z.of_nat (length (block_Transactions block)) < 2 ^ 32 ->
  (forall s y z, length s = 32%nat -> c !! hkey s h y z = None) ->
  (h' <> h -> c' !! hkey sh h' i x = c !! hkey sh h' i x) /\
  (c' !! hkey sh h i x = Some [] <-> exists n hs e, hss !! n = Some hs /\ e ∈ hs /\
     Z.of_nat n = i /\ uh_Scripthash e = sh /\ uh_Index e = x) /\
  (c' !! hkey sh h i x = Some [] \/ c' !! hkey sh h i x = None).
Proof.
  intros (ops & Bb & Hc) Hh Hh' Hi Hx Hsh Hn Hfresh.
  destruct (block_batch_parts _ _ _ _ _ _ Bb)
    as (header & buf & raws & z & d & cp & _ & _ & _ & _ & _ & _ & _ & _ & Hops).
  assert (Hconf : forall h, confirmed_key (hkey sh h i x)) by done.
  assert (Hidx : forall n tx, block_Transactions block !! n = Some tx -> u32 (Z.of_nat n) = Z.of_nat n).
  { intros n tx Ht%lookup_lt_Some. apply u32_id. unfold in_u32. lia. }
  split; [|assert (Hor : (exists n hs e, hss !! n = Some hs /\ e ∈ hs /\
     Z.of_nat n = i /\ uh_Scripthash e = sh /\ uh_Index e = x) -> c' !! hkey sh h i x = Some [])].
  - intros Hne. eapply block_key; [done|done|by apply Hc| |by left].
    intros o Ho E. eapply hkey_ops in E as (E & _); done.
  - intros (n & hs & e & Hhs & He & <- & <- & <-).
    destruct (Forall2_lookup_r _ _ _ _ _ (bb_hist _ _ _ _ _ _ Bb) Hhs) as ([n' tx] & Htx & (Hall & _)).
    rewrite lookup_indexed in Htx.
    destruct (block_Transactions block !! n) as [tx'|] eqn:Et; [|done]. injection Htx as <- <-.
    rewrite Forall_forall in Hall. destruct (Hall e He) as (E1 & E2 & _). cbn [fst] in E2.
    eapply block_key; [done|done|by apply Hc| |].
    + intros o Ho E. eapply hkey_ops in E as (_ & E & _); done.
    + right. exists (history_op e). split; [apply bop_hist, elem_mjoin; eauto|].
      unfold history_op. cbn [op_key]. by rewrite E1, E2, (Hidx n tx').
  - destruct (decide (Exists (fun o => op_key o = hkey sh h i x) ops)) as [He|He].
    + apply Exists_exists in He as (o & Ho & E). apply Hops in Ho.
      eapply hkey_ops in E as (_ & _ & n & tx & hs & e & Ht & Hhs & Hin & <- & <- & <-); try done.
      rewrite (Hidx n tx Ht) in *. assert (c' !! hkey (uh_Scripthash e) h (Z.of_nat n) (uh_Index e) = Some []) by (apply Hor; eauto 8).
      split; [|by left]. split; [eauto 8|done].
    + apply not_Exists_Forall in He; [|intros o; apply _].
      assert (E : c' !! hkey sh h i x = None).
      { rewrite Hc by done. rewrite apply_ops_untouched by done. by apply Hfresh. }
      split; [|by right]. split; [by rewrite E|auto].
Qed.

(** The entries of one scripthash and transaction. *)
Lemma indexed_history c c' block h undo hss sh n tx :
  indexed_block c c' block h undo hss -> in_i32 h ->
  Z.of_nat (length (block_Transactions block)) < 2 ^ 32 ->
  (forall s y z, length s = 32%nat -> c !! hkey s h y z = None) ->
  length sh = 32%nat -> block_Transactions block !! n = Some tx ->
  let entry x := in_u32 x /\ c' !! hkey sh h (Z.of_nat n) x = Some [] in
  ((exists x, entry x) <-> sh ∈ tx_touched c (header_BlockHash (block_Header block)) h (n, tx)) /\
  (forall x y, entry x -> entry y -> x = y) /\
  (forall h' i x, in_i32 h' -> h' <> h -> in_u32 i -> in_u32 x -> c' !! hkey sh h' i x = c !! hkey sh h' i x).
Proof.
  intros Hix Hh Hn Hfresh Hsh Htx entry.
  assert (Hb : in_u32 (Z.of_nat n)) by (apply lookup_lt_Some in Htx; unfold in_u32; lia).
  assert (Hafter := fun h' i x H1 H2 H3 =>
    history_after _ _ block h undo hss sh h' i x Hix Hh H1 H2 H3 Hsh Hn Hfresh).
  pose proof Hix as (ops & Bb & _). pose proof (bb_hist _ _ _ _ _ _ Bb) as Hf.
  destruct (Forall2_lookup_l _ _ _ n (n, tx) Hf) as (hs & Hhs & Hall & Hdup & Htouch);
    [by rewrite lookup_indexed, Htx|].
  assert (He : forall x, entry x <-> exists e, e ∈ hs /\ uh_Scripthash e = sh /\ uh_Index e = x).
  { intros x. unfold entry. split.
    - intros [Hx Hk]. apply (Hafter h) in Hk as (n' & hs' & e & Hhs' & Hin & E & ? & ?); [|done..].
      apply Nat2Z.inj in E as ->. rewrite Hhs in Hhs'. injection Hhs' as <-. eauto.
    - intros (e & Hin & E1 & E2). rewrite Forall_forall in Hall.
      destruct (Hall e Hin) as (_ & _ & _ & Hu). rewrite E2 in Hu. split; [done|].
      apply (Hafter h); [done..|]. exists n, hs, e. done. }
  split_and!.
  - rewrite <- Htouch. setoid_rewrite He. rewrite list_elem_of_fmap. naive_solver.
  - intros x y (e & Hin & E1 & <-)%He (e' & Hin' & E1' & <-)%He. f_equal.
    apply list_elem_of_lookup in Hin as [a Ha]. apply list_elem_of_lookup in Hin' as [b Hb'].
    assert (a = b) as <-; [|congruence].
    apply (NoDup_lookup _ _ _ sh Hdup); rewrite list_lookup_fmap; [by rewrite Ha, <- E1|by rewrite Hb', <- E1'].
  - intros h' i x H1 H2 H3 H4. by apply (Hafter h' i x H1 H3 H4).
Qed.

(** *** The block's own records *)

Lemma records_after c c' block h undo hss : indexed_block c c' block h undo hss ->
  NoDup (TxHash <$> block_Transactions block) ->
  exists header txidbuf raws blobz undobs cp,
    header_Serialize (block_Header block) = Ok header /\
    encode_txids (TxHash <$> block_Transactions block) = Ok txidbuf /\
    Forall2 (fun tx raw => tx_Serialize tx = Ok raw) (block_Transactions block) raws /\
    compressZstd (mjoin raws) = Ok blobz /\
    EncodeUndoBlock undo = Ok undobs /\
    cp_Height cp = h /\ cp_BlockHash cp = hash_String (header_BlockHash (block_Header block)) /\
    in_i32 (cp_StartHeight cp) /\
    c' !! (PrefixHeader :: be_encode 4 (u32 h)) = Some header /\
    c' !! (PrefixBlockTx :: be_encode 4 (u32 h)) = Some txidbuf /\
    c' !! (PrefixTxBlob :: be_encode 4 (u32 h)) = Some blobz /\
    c' !! (PrefixTxOffs :: be_encode 4 (u32 h)) = Some (encode_offsets (blob_offsets 0 raws)) /\
    c' !! (PrefixUndo :: be_encode 4 (u32 h) ++ header_BlockHash (block_Header block)) = Some undobs /\
    c' !! KeyCheckpoint = Some (json_Marshal cp) /\
    (forall n tx, block_Transactions block !! n = Some tx ->
       c' !! poskey (TxHash tx) = Some (encode_txpos h (u32 (Z.of_nat n)))).
Proof.
  intros (ops & Bb & Hc) Hnd. destruct (block_batch_parts _ _ _ _ _ _ Bb)
    as (header & buf & raws & z & d & cp & H1 & H2 & H3 & H4 & H5 & H6 & H7 & H8 & Hops).
  exists header, buf, raws, z, d, cp. split_and!; [done..| | | | | | |].
  1-6: eapply block_key; [done|done|by apply Hc| |right; eexists; split; [constructor|done]];
    intros o [] E; by try discriminate E.
  intros n tx Ht. eapply block_key; [done|done|by apply Hc| |].
  - intros o [i tx' Ht' | | | | | | | | | | |] E; try discriminate E. cbn [op_key op_value] in *.
    injection E as E. do 4 f_equal.
    apply (NoDup_lookup _ _ _ (TxHash tx) Hnd); rewrite list_lookup_fmap; [rewrite Ht'|rewrite Ht];
      simpl; by rewrite ?E.
  - right. eexists. split; [by apply bop_pos|done].
Qed.

Lemma blob_offsets_lookup raws n k raw : Z.of_nat (k + length (mjoin raws)) < 2 ^ 32 ->
  raws !! n = Some raw ->
  blob_offsets k raws !! n = Some (Z.of_nat (k + length (mjoin (take n raws)))).
Proof.
  revert n k; induction raws as [|r raws IH]; intros n k Hk Hn; [done|].
  simpl in Hk. rewrite length_app in Hk. destruct n as [|n]; cbn [blob_offsets lookup list_lookup] in *.
  - simpl. rewrite Nat.add_0_r, u32_id; [done|]. unfold in_u32. lia.
  - rewrite IH; [|lia|done]. simpl. rewrite length_app. do 2 f_equal. lia.
Qed.

Lemma blob_slice (raws : list bytes) n raw : raws !! n = Some raw ->
  take (length raw) (drop (length (mjoin (take n raws))) (mjoin raws)) = raw.
Proof.
  revert n; induction raws as [|r raws IH]; intros [|n] Hn; [done..| |].
  - injection Hn as ->. simpl. apply take_app_length.
  - simpl. rewrite length_app, <- drop_drop, drop_app_length. by apply IH.
Qed.

Lemma blob_offsets_u32 raws k : Forall in_u32 (blob_offsets k raws).
Proof. revert k; induction raws; intros k; constructor; auto using u32_range. Qed.

Lemma length_blob_offsets raws k : length (blob_offsets k raws) = length raws.
Proof. revert k; induction raws as [|r raws IH]; intros k; simpl; auto. Qed.

End Utxo.

(** ** What a successful [IndexBlock] leaves in the database *)

Section Indexed.
Context {P : Pebble} {PL : PebbleLaws P} {B : Btcd} {BL : BtcdLaws B} {Zs : Zstd}.

(** C4: as a transition on the UTXO set, [IndexBlock] adds the outputs the
    block creates (no OP_RETURN, no zero value) under their scripthash, value,
    height and block hash, removes the outpoints its transactions spend, and
    leaves every other outpoint as it was. *)
Theorem index_block_utxo_set (ord : range_order) (block : MsgBlock) (h : Z) (w w' : world)
    (t : bytes) (v : Z)
    (Hnd : NoDup (TxHash <$> block_Transactions block)) (Hh : in_i32 h)
    (Hfresh : forall tx v, tx ∈ block_Transactions block ->
       contents (w_db w) !! tkey (TxHash tx) v = None)
    (Ht : length t = 32%nat) (Hv : in_u32 v)
    (Hindex : IndexBlock ord block h w = (Ok (), w')) :
  utxo_at (contents (w_db w')) t v = utxo_step block h (utxo_at (contents (w_db w))) t v.
Proof.
  apply IndexBlock_Ok in Hindex as (undo & hss & Hix); [|done]. by eapply utxo_after.
Qed.

(** An output that the block both creates and spends is not removed: it
    stays in the UTXO set as unspent, and the spending is not in the undo
    record. *)
Theorem same_block_spend_stays (ord : range_order) (block : MsgBlock) (h : Z) (w w' : world)
    (t : bytes) (v : Z) (o : bytes * UTXOValue)
    (Hnd : NoDup (TxHash <$> block_Transactions block)) (Hh : in_i32 h)
    (Hfresh : forall tx v, tx ∈ block_Transactions block ->
       contents (w_db w) !! tkey (TxHash tx) v = None)
    (Ht : length t = 32%nat) (Hv : in_u32 v)
    (Hcreated : created_at block h t v = Some o) (Hspent : mkOutPoint t v ∈ block_inputs block)
    (Hindex : IndexBlock ord block h w = (Ok (), w')) :
  utxo_at (contents (w_db w')) t v = Some o /\
  Forall (fun s => uo_Txid s <> t \/ uo_Vout s <> v)
    (block_spent (contents (w_db w)) (block_Transactions block)).
Proof.
  apply IndexBlock_Ok in Hindex as (undo & hss & Hix); [|done]. split.
  - erewrite utxo_after by done. unfold utxo_step. by rewrite Hcreated.
  - apply Forall_forall. intros s Hs. apply (created_at_iff block h t v o Hnd Hv) in Hcreated
      as (s' & Hs' & E1 & E2 & _).
    destruct (decide (uo_Txid s = t)) as [E|]; [|by left]. right. intros E'. subst t v.
    by eapply (spent_not_created _ block h Hfresh s s').
Qed.

(** C35: after a successful [IndexBlock] a scripthash has a history entry for
    a transaction of the block exactly when the transaction spends one of its
    unspent outputs or pays to it, and exactly one entry then; entries of other
    heights are untouched. *)
Theorem index_block_history (ord : range_order) (block : MsgBlock) (h : Z) (w w' : world)
    (sh : bytes) (n : nat) (tx : MsgTx)
    (Hnd : NoDup (TxHash <$> block_Transactions block)) (Hh : in_i32 h)
    (Hn : Z.of_nat (length (block_Transactions block)) < 2 ^ 32)
    (Hfresh : forall s y z, length s = 32%nat -> contents (w_db w) !! hkey s h y z = None)
    (Hsh : length sh = 32%nat) (Htx : block_Transactions block !! n = Some tx)
    (Hindex : IndexBlock ord block h w = (Ok (), w')) :
  let entry x := in_u32 x /\ contents (w_db w') !! hkey sh h (Z.of_nat n) x = Some [] in
  ((exists x, entry x) <->
   sh ∈ tx_touched (contents (w_db w)) (header_BlockHash (block_Header block)) h (n, tx)) /\
  (forall x y, entry x -> entry y -> x = y) /\
  (forall h' i x, in_i32 h' -> h' <> h -> in_u32 i -> in_u32 x ->
     contents (w_db w') !! hkey sh h' i x = contents (w_db w) !! hkey sh h' i x).
Proof.
  apply IndexBlock_Ok in Hindex as (undo & hss & Hix); [|done]. by eapply indexed_history.
Qed.

(** All that a block leaves in the confirmed data: the checkpoint, the block's own
    records, both keys of the outputs it creates, neither of those it spends, the
    UTXO set, and the history entries. *)
Record block_applied (c c' : gmap bytes bytes) (block : MsgBlock) (h : Z) : Prop := {
  bk_checkpoint : exists cp, c' !! KeyCheckpoint = Some (json_Marshal cp) /\
    cp_Height cp = h /\ cp_BlockHash cp = hash_String (header_BlockHash (block_Header block));
  bk_header : exists header, c' !! (PrefixHeader :: be_encode 4 (u32 h)) = Some header /\
    header_Serialize (block_Header block) = Ok header;
  bk_txids : exists buf, c' !! (PrefixBlockTx :: be_encode 4 (u32 h)) = Some buf /\
    encode_txids (TxHash <$> block_Transactions block) = Ok buf;
  bk_blob : exists raws blobz, c' !! (PrefixTxBlob :: be_encode 4 (u32 h)) = Some blobz /\
    c' !! (PrefixTxOffs :: be_encode 4 (u32 h)) = Some (encode_offsets (blob_offsets 0 raws)) /\
    Forall2 (fun tx raw => tx_Serialize tx = Ok raw) (block_Transactions block) raws /\
    compressZstd (mjoin raws) = Ok blobz;
  bk_undo : exists undo data,
    c' !! (PrefixUndo :: be_encode 4 (u32 h) ++ header_BlockHash (block_Header block)) = Some data /\
    EncodeUndoBlock undo = Ok data /\ ub_SpentOutputs undo = block_spent c (block_Transactions block) /\
    ub_CreatedOutputs undo =
      block_created (header_BlockHash (block_Header block)) h (block_Transactions block);
  bk_pos n tx : block_Transactions block !! n = Some tx ->
    c' !! poskey (TxHash tx) = Some (encode_txpos h (u32 (Z.of_nat n)));
  bk_created s : s ∈ block_created (header_BlockHash (block_Header block)) h (block_Transactions block) ->
    c' !! tkey (uo_Txid s) (uo_Vout s) = Some (uo_Scripthash s) /\
    c' !! ukey (uo_Scripthash s) (uo_Txid s) (uo_Vout s) = Some (output_value s);
  bk_spent s : s ∈ block_spent c (block_Transactions block) ->
    c' !! tkey (uo_Txid s) (uo_Vout s) = None /\ c' !! ukey (uo_Scripthash s) (uo_Txid s) (uo_Vout s) = None;
  bk_utxos t v : length t = 32%nat -> in_u32 v -> utxo_at c' t v = utxo_step block h (utxo_at c) t v;
  bk_history sh n tx : length sh = 32%nat -> block_Transactions block !! n = Some tx ->
    let entry x := in_u32 x /\ c' !! hkey sh h (Z.of_nat n) x = Some [] in
    ((exists x, entry x) <-> sh ∈ tx_touched c (header_BlockHash (block_Header block)) h (n, tx)) /\
    (forall x y, entry x -> entry y -> x = y);
  bk_history_other sh h' i x : length sh = 32%nat -> in_i32 h' -> h' <> h -> in_u32 i -> in_u32 x ->
    c' !! hkey sh h' i x = c !! hkey sh h' i x;
}.

Lemma indexed_applied c c' block h undo hss : indexed_block c c' block h undo hss ->
  NoDup (TxHash <$> block_Transactions block) -> in_i32 h ->
  Z.of_nat (length (block_Transactions block)) < 2 ^ 32 -> fresh_block c block h -> block_applied c c' block h.
Proof.
  intros Hix Hnd Hh Hn F. pose proof Hix as (ops & Bb & _). pose proof (bb_undo _ _ _ _ _ _ Bb) as Hu.
  pose proof (fr_tx _ _ _ F) as Ft.
  destruct (records_after _ _ _ _ _ _ Hix Hnd) as
    (header & buf & raws & z & d & cp & H1 & H2 & H3 & H4 & H5 & H6 & H7 & H8 & K1 & K2 & K3 & K4 & K5 & K6 & K7).
  split; [by exists cp|by exists header|by exists buf|by exists raws, z| |done| | | | |].
  - exists undo, d. by rewrite Hu in *.
  - intros s Hs. by eapply after_created.
  - intros s Hs. split; [by eapply after_spent|by eapply after_spent_u].
  - intros t v. by eapply utxo_after.
  - intros sh n tx Hsh Htx.
    by destruct (indexed_history _ _ _ _ _ _ sh n tx Hix Hh Hn (fr_hist _ _ _ F) Hsh Htx) as (E1 & E2 & _).
  - intros sh h' i x Hsh Hh' Hne Hi Hx.
    by apply (history_after _ _ _ _ _ _ sh h' i x Hix Hh Hh' Hi Hx Hsh Hn (fr_hist _ _ _ F)).
Qed.

(** C10: whatever fails during [IndexBlock], the confirmed data of the database is
    either exactly what it was or has the whole block: every record of it, both
    keys of each output it creates, neither key of those it spends, the new UTXO
    set and its history entries.  A run without an error has applied it. *)
Theorem index_block_atomic (ord : range_order) (block : MsgBlock) (h : Z) (w : world)
    (Hnd : NoDup (TxHash <$> block_Transactions block)) (Hh : in_i32 h)
    (Hn : Z.of_nat (length (block_Transactions block)) < 2 ^ 32)
    (Hfresh : fresh_block (contents (w_db w)) block h) :
  let '(r, w') := IndexBlock ord block h w in
  let c := contents (w_db w) in
  let c' := contents (w_db w') in
  (confirmed_same c c' \/ block_applied c c' block h) /\ (r = Ok () -> block_applied c c' block h).
Proof.
  pose proof (IndexBlock_cases ord block h w Hnd) as Hcases.
  destruct (IndexBlock ord block h w) as [r w'] eqn:E. cbn [snd] in Hcases. cbv zeta.
  split.
  - destruct Hcases as [Hs|(undo & hss & Hix)]; [by left|right]. by eapply indexed_applied.
  - intros ->. apply IndexBlock_Ok in E as (undo & hss & Hix); [|done]. by eapply indexed_applied.
Qed.

Context {PH : PebbleHealthy P PL} {ZL : ZstdLaws Zs}.

(** The records of an indexed block read back through the methods of the
    database: its header, its txids in order, the position of each
    transaction, the blob of all serialised transactions with the offset at
    which each of them begins, and the checkpoint. *)
Theorem block_records_readable (ord : range_order) (block : MsgBlock) (h : Z) (w w' : world) (d : pdb)
    (Hnd : NoDup (TxHash <$> block_Transactions block)) (Hh : in_i32 h)
    (Hn : Z.of_nat (length (block_Transactions block)) < 2 ^ 32)
    (Hindex : IndexBlock ord block h w = (Ok (), w'))
    (Hd : healthy d) (Hsame : confirmed_same (contents (w_db w')) (contents d)) :
  exists header raws,
    header_Serialize (block_Header block) = Ok header /\
    Forall2 (fun tx raw => tx_Serialize tx = Ok raw) (block_Transactions block) raws /\
    reads (GetHeader h) d header /\
    reads (GetBlockTxids h) d (TxHash <$> block_Transactions block) /\
    reads (GetTxBlob h) d (mjoin raws) /\
    (exists start, reads LoadCheckpoint d
       (mkCheckpoint h (hash_String (header_BlockHash (block_Header block))) start, None)) /\
    (forall n tx, block_Transactions block !! n = Some tx ->
       reads (GetTxPos (TxHash tx)) d (Some (h, Z.of_nat n))) /\
    exists offs, reads (GetTxOffsets h) d offs /\ length offs = length raws /\
      (Z.of_nat (length (mjoin raws)) < 2 ^ 32 -> forall n raw, raws !! n = Some raw ->
         exists off, offs !! n = Some off /\
           take (length raw) (drop (Z.to_nat off) (mjoin raws)) = raw).
Proof.
  apply IndexBlock_Ok in Hindex as (undo & hss & Hix); [|done].
  pose proof Hix as (ops & Bb & _). pose proof (bb_height _ _ _ _ _ _ Bb) as H0.
  apply records_after in Hix as
    (header & buf & raws & z & ud & cp & H1 & H2 & H3 & H4 & H5 & <- & H7 & H8 & K1 & K2 & K3 & K4 & K5 & K6 & K7);
    [|done].
  rewrite <- !Hsame in K1, K2, K3, K4, K6 by done.
  exists header, raws. split_and!; [done|done| | | | | |].
  - by apply reads_GetHeader.
  - by eapply reads_GetBlockTxids.
  - by eapply reads_GetTxBlob.
  - exists (cp_StartHeight cp). rewrite <- H7. destruct cp as [ch cb cs]. apply LoadCheckpoint_present; [done| |done].
    cbn [cp_Height cp_BlockHash cp_StartHeight] in *. split_and!; [done|done|].
    cbn [cp_BlockHash]. rewrite H7, hash_String_hex by apply length_BlockHash. apply plain_EncodeToString.
  - intros n tx Ht. pose proof (K7 n tx Ht) as K. rewrite <- Hsame in K by done.
    pose proof (lookup_lt_Some _ _ _ Ht).
    rewrite u32_id in K by (unfold in_u32; lia).
    apply reads_GetTxPos; [done|apply length_TxHash|done|unfold in_u32; lia|done].
  - exists (blob_offsets 0 raws). split_and!; [|apply length_blob_offsets|].
    + apply reads_GetTxOffsets; [done..|apply blob_offsets_u32|done].
    + intros Hb n raw Hr. exists (Z.of_nat (length (mjoin (take n raws)))). split.
      { by apply (blob_offsets_lookup raws n 0 raw). }
      rewrite Nat2Z.id. by apply blob_slice.
Qed.

End Indexed.

(** ** Concrete runs *)

Lemma unit_run {W} (m : st W unit) w : is_Ok (m w).1 = true -> m w = (Ok (), (m w).2).
Proof. destruct (m w) as [[[]|e] w']; done. Qed.

Definition sample_coinbase (b : byte) (script : bytes) : @MsgTx ModelBtcd :=
  mkTx (replicate 32 b) [mkOutPoint zero_hash 4294967295] [mkTxOut 5000000000 script].

(** A chain of three blocks: the last spends the coinbase of the one before. *)
Definition block0 : @MsgBlock ModelBtcd :=
  mkBlock (mkHeader (replicate 32 x0f) (replicate 32 x00)) [sample_coinbase x05 sample_script2].

Definition block1 : @MsgBlock ModelBtcd :=
  mkBlock (mkHeader (replicate 32 x01) (replicate 32 x0f)) [sample_coinbase x10 sample_script].

Definition spender (b c : byte) : @MsgTx ModelBtcd :=
  mkTx (replicate 32 b) [mkOutPoint (replicate 32 c) 0]
    [mkTxOut 4999990000 sample_script2; mkTxOut 0 [x6a]].

Definition block2 : @MsgBlock ModelBtcd :=
  mkBlock (mkHeader (replicate 32 x02) (replicate 32 x01))
    [sample_coinbase x20 sample_script2; spender x21 x10].

(** A block whose last transaction spends an output of the one before it. *)
Definition chained_block : @MsgBlock ModelBtcd :=
  mkBlock (mkHeader (replicate 32 x03) (replicate 32 x01))
    [sample_coinbase x30 sample_script2; spender x31 x10; spender x32 x31].

Definition indexed0 : @world MemPebble ModelBtcd := (IndexBlock id_order block0 0 world0).2.
Definition indexed1 : @world MemPebble ModelBtcd := (IndexBlock id_order block1 1 indexed0).2.
Definition indexed2 : @world MemPebble ModelBtcd := (IndexBlock id_order block2 2 indexed1).2.
Definition indexed_chained : @world MemPebble ModelBtcd := (IndexBlock id_order chained_block 2 indexed1).2.

Lemma indexed0_run : IndexBlock id_order block0 0 world0 = (Ok (), indexed0).
Proof. unfold indexed0. apply unit_run. vm_compute. reflexivity. Qed.

Lemma indexed1_run : IndexBlock id_order block1 1 indexed0 = (Ok (), indexed1).
Proof. unfold indexed1. apply unit_run. vm_compute. reflexivity. Qed.

Lemma indexed2_run : IndexBlock id_order block2 2 indexed1 = (Ok (), indexed2).
Proof. unfold indexed2. apply unit_run. vm_compute. reflexivity. Qed.

Lemma indexed_chained_run : IndexBlock id_order chained_block 2 indexed1 = (Ok (), indexed_chained).
Proof. unfold indexed_chained. apply unit_run. vm_compute. reflexivity. Qed.

Lemma block2_fresh : fresh_block (contents (w_db indexed1)) block2 2.
Proof. apply fresh_blockb_fresh. vm_compute. reflexivity. Qed.

Lemma chained_fresh : fresh_block (contents (w_db indexed1)) chained_block 2.
Proof. apply fresh_blockb_fresh. vm_compute. reflexivity. Qed.

Lemma index_block_utxo_set_witness :
  utxo_at (contents (w_db indexed2)) (replicate 32 x10) 0 =
  utxo_step block2 2 (utxo_at (contents (w_db indexed1))) (replicate 32 x10) 0.
Proof.
  apply (index_block_utxo_set id_order block2 2 indexed1 indexed2 (replicate 32 x10) 0);
    [apply (bool_decide_eq_true_1 _); vm_compute; reflexivity
    | apply (bool_decide_eq_true_1 _); vm_compute; reflexivity
    | intros tx v Htx; apply (fr_tx _ _ _ block2_fresh); exact Htx
    | reflexivity | apply (bool_decide_eq_true_1 _); vm_compute; reflexivity | apply indexed2_run].
Defined.

Definition chained_output : bytes * UTXOValue :=
  (ComputeScripthash sample_script2, mkUTXOValue 4999990000 2 (replicate 32 x03)).

Lemma same_block_spend_stays_witness :
  utxo_at (contents (w_db indexed_chained)) (replicate 32 x31) 0 = Some chained_output.
Proof.
  apply (same_block_spend_stays id_order chained_block 2 indexed1 indexed_chained (replicate 32 x31) 0
    chained_output);
    [apply (bool_decide_eq_true_1 _); vm_compute; reflexivity
    | apply (bool_decide_eq_true_1 _); vm_compute; reflexivity
    | intros tx v Htx; apply (fr_tx _ _ _ chained_fresh); exact Htx
    | reflexivity | apply (bool_decide_eq_true_1 _); vm_compute; reflexivity
    | vm_compute; reflexivity
    | apply (bool_decide_eq_true_1 _); vm_compute; reflexivity | apply indexed_chained_run].
Defined.

Lemma index_block_history_witness :
  let entry x := in_u32 x /\
    contents (w_db indexed2) !! hkey (ComputeScripthash sample_script) 2 1 x = Some [] in
  (exists x, entry x) <->
  ComputeScripthash sample_script ∈
    tx_touched (contents (w_db indexed1)) (replicate 32 x02) 2 (1%nat, spender x21 x10).
Proof.
  apply (index_block_history id_order block2 2 indexed1 indexed2 (ComputeScripthash sample_script) 1
    (spender x21 x10));
    [apply (bool_decide_eq_true_1 _); vm_compute; reflexivity
    | apply (bool_decide_eq_true_1 _); vm_compute; reflexivity | reflexivity
    | intros s y z Hs; apply (fr_hist _ _ _ block2_fresh); exact Hs
    | apply length_ComputeScripthash | reflexivity | apply indexed2_run].
Defined.

Lemma index_block_atomic_witness :
  block_applied (contents (w_db indexed1)) (contents (w_db indexed2)) block2 2.
Proof.
  pose proof (index_block_atomic id_order block2 2 indexed1) as H.
  rewrite indexed2_run in H.
  destruct H as [_ H];
    [apply (bool_decide_eq_true_1 _); vm_compute; reflexivity
    |apply (bool_decide_eq_true_1 _); vm_compute; reflexivity | reflexivity | exact block2_fresh | exact (H eq_refl)].
Defined.

Lemma block_records_readable_witness :
  reads (GetBlockTxids 2) (w_db indexed2) [replicate 32 x20; replicate 32 x21].
Proof.
  destruct (block_records_readable id_order block2 2 indexed1 indexed2 (w_db indexed2))
    as (header & raws & _ & _ & _ & H & _);
    [apply (bool_decide_eq_true_1 _); vm_compute; reflexivity
    | apply (bool_decide_eq_true_1 _); vm_compute; reflexivity | reflexivity
    | apply indexed2_run | apply is_none_eq; vm_compute; reflexivity | intros k _; reflexivity | exact H].
Defined.
