(* ===== verification/Reorg.v ===== *)
(** * Chain reorganisations: [internal/indexer/reorg.go]

    The node's RPC client is a library: [GetBlockHash] is an argument, indexed
    by the number of the call, since the node's best chain may change between
    calls.  Log lines are left out, save for the slices in them that could
    panic. *)

From Stdlib Require Import Strings.Byte.
From S2P Require Import Prelude Bytes Hex Keys Values Json Checkpoint Pebble Store Sha256 Types Mempool.

Section Reorg.
Context {P : Pebble} {B : Btcd}.

(** [*rpcclient.Client]: the answer to the [n]th call of [GetBlockHash]. *)
Definition rpc_client : Type := nat -> Z -> result bytes.

(** The database, the overlay and the number of RPC calls made. *)
Record rworld := mkRWorld { rw_world : world; rw_calls : nat }.

Definition rdb {A} (c : st pdb A) : st rworld A := fun w =>
  let '(r, w1) := in_db c (rw_world w) in (r, mkRWorld w1 (rw_calls w)).

Definition rmp {A} (c : st world A) : st rworld A := fun w =>
  let '(r, w1) := c (rw_world w) in (r, mkRWorld w1 (rw_calls w)).

Definition GetBlockHash (client : rpc_client) (height : Z) : st rworld bytes := fun w =>
  (client (rw_calls w) height, mkRWorld (rw_world w) (S (rw_calls w))).

Record ReorgResult := mkReorgResult {
  rr_ReorgDetected : bool;
  rr_ForkHeight : Z;
  rr_ForkHash : bytes;
  rr_RolledBackBlocks : Z;
  rr_CurrentHeight : Z;
  rr_CurrentHash : bytes;
}.

(** [v, err := f()] with the error wrapped, as one result. *)
Definition checkpoint_or_fail : st pdb Checkpoint :=
  '(checkpoint, err) ← LoadCheckpoint;
  match err with
  | Some e => st_fail (EWrap "failed to load checkpoint: " e "")
  | None => mret checkpoint
  end.

(** ** The block we have at a height *)

Definition undo_prefix (height : Z) : bytes :=
  [PrefixUndo; byte_of_Z (Z.shiftr height 24); byte_of_Z (Z.shiftr height 16);
   byte_of_Z (Z.shiftr height 8); byte_of_Z height].

(** The header, when the undo record is missing. *)
Definition hash_from_header (height : Z) : st pdb bytes :=
  let missing := ENew ("no block data found for height " +:+ fmt_d height) in
  header ← st_try (GetHeader height);
  match header with
  | Ok header =>
      if decide (length header = 80%nat) then
        match header_Deserialize header with
        | Ok h => mret (BlockHashFromHash (header_BlockHash h))
        | Err _ => st_fail missing
        end
      else st_fail missing
  | Err _ => st_fail missing
  end.

Definition getOurBlockHash (height : Z) : st pdb bytes :=
  '(checkpoint, err) ← LoadCheckpoint;
  if decide (err = None /\ cp_Height checkpoint = height /\ cp_BlockHash checkpoint <> ""%string)
  then st_lift (BlockHashFromHex (cp_BlockHash checkpoint))
  else
    it ← st_wrap "failed to create undo iterator: " (NewPrefixIterator (undo_prefix height));
    match it_entries it with
    | (key, _) :: _ =>
        match ParseUndoKey key with
        | Err e => st_fail (EWrap "failed to parse undo key: " e "")
        | Ok (_, blockHash) => mret blockHash
        end
    | [] => hash_from_header height
    end.

(** ** Rolling one block back *)

Definition rollback_created (batch : pbatch) (created : UndoOutput) : result pbatch :=
  utxoKey ← wrap "failed to make UTXO key for deletion: "
              (MakeUTXOKey (uo_Scripthash created) (uo_Txid created) (uo_Vout created));
  batch ← wrap "failed to delete created UTXO: " (batch_Delete batch utxoKey);
  txIndexKey ← wrap "failed to make tx index key for deletion: "
                 (MakeTxIndexKey (uo_Txid created) (uo_Vout created));
  wrap "failed to delete tx index: " (batch_Delete batch txIndexKey).

Definition rollback_spent (batch : pbatch) (spent : UndoOutput) : result pbatch :=
  utxoKey ← wrap "failed to make UTXO key for restoration: "
              (MakeUTXOKey (uo_Scripthash spent) (uo_Txid spent) (uo_Vout spent));
  batch ← wrap "failed to restore spent UTXO: "
            (batch_Set batch utxoKey
              (EncodeUTXOValue (mkUTXOValue (uo_Value spent) (uo_Height spent) (uo_BlockHash spent))));
  txIndexKey ← wrap "failed to make tx index key for restoration: "
                 (MakeTxIndexKey (uo_Txid spent) (uo_Vout spent));
  wrap "failed to restore tx index: " (batch_Set batch txIndexKey (uo_Scripthash spent)).

Definition rollback_history (batch : pbatch) (hist : UndoHistory) : result pbatch :=
  histKey ← wrap "failed to make history key for deletion: "
              (MakeHistoryKey (uh_Scripthash hist) (uh_Height hist) (uh_TxIndex hist) (uh_Index hist));
  wrap "failed to delete history entry: " (batch_Delete batch histKey).

(** The batch that undoes a block. *)
Definition rollback_batch (undo : UndoBlock) (height : Z) (blockHash : bytes) : result pbatch :=
  batch ← foldM rollback_created pebble_NewBatch (ub_CreatedOutputs undo);
  batch ← foldM rollback_spent batch (ub_SpentOutputs undo);
  batch ← foldM rollback_history batch (ub_HistoryEntries undo);
  batch ← wrap "failed to delete header: " (DeleteHeaderInBatch batch height);
  batch ← wrap "failed to delete block txids: " (DeleteBlockTxidsInBatch batch height);
  wrap "failed to delete undo record: " (DeleteUndoInBatch batch height blockHash).

Definition rollbackBlock (height : Z) (blockHash : bytes) : st pdb unit :=
  undo ← st_wrap "failed to load undo data: " (GetUndo height blockHash);
  batch ← st_lift (rollback_batch undo height blockHash);
  st_wrap "failed to commit rollback batch: " (batch_Commit batch).

(** ** Rolling back to a height *)

(** [for height := ...; height > targetHeight; height--]: [n] rounds are left.
    The count is returned with the error, if any. *)
Fixpoint rollback_loop (n : nat) (height : Z) (rolledBack : Z) : st pdb (Z * option error) :=
  match n with
  | O => mret (rolledBack, None)
  | S n =>
      hash ← st_try (getOurBlockHash height);
      match hash with
      | Err e => mret (rolledBack,
          Some (EWrap ("failed to get block hash at height " +:+ fmt_d height +:+ ": ") e ""))
      | Ok blockHash =>
          (* log: BlockHashToHex(blockHash)[:16] *)
          match string_take16 (BlockHashToHex blockHash) with
          | Err e => st_fail e
          | Ok _ =>
              r ← st_try (rollbackBlock height blockHash);
              match r with
              | Err e => mret (rolledBack,
                  Some (EWrap ("failed to rollback block " +:+ fmt_d height +:+ ": ") e ""))
              | Ok _ => rollback_loop n (height - 1) (rolledBack + 1)
              end
          end
      end
  end.

Definition rollbackToHeight (client : rpc_client) (targetHeight : Z) :
    st rworld (Z * option error) :=
  '(checkpoint, err) ← rdb LoadCheckpoint;
  match err with
  | Some e => mret (0, Some (EWrap "failed to load checkpoint: " e ""))
  | None =>
      '(rolledBack, err) ←
        rdb (rollback_loop (Z.to_nat (cp_Height checkpoint - targetHeight)) (cp_Height checkpoint) 0);
      match err with
      | Some e => mret (rolledBack, Some e)
      | None =>
          ours ← st_try (rdb (getOurBlockHash targetHeight));
          forkHash ← match ours with
            | Ok h => mret (Ok h)
            | Err e =>
                core ← st_try (GetBlockHash client targetHeight);
                mret match core with
                | Ok h => Ok (BlockHashFromHash h)
                | Err _ => Err (EWrap "failed to get fork point hash: " e "")
                end
            end;
          match forkHash with
          | Err e => mret (rolledBack, Some e)
          | Ok forkHash =>
              (* StartHeight is left out of the new checkpoint *)
              r ← st_try (rdb (SaveCheckpoint
                    (mkCheckpoint targetHeight (BlockHashToHex forkHash) 0)));
              mret match r with
              | Err e => (rolledBack, Some (EWrap "failed to save checkpoint after rollback: " e ""))
              | Ok _ => (rolledBack, None)
              end
          end
      end
  end.

(** ** Finding the fork point *)

Section Handler.
Context (client : rpc_client) (maxReorgDepth : Z).

(** [for height := startHeight - 1; height >= startBoundary; height--] with
    [n] rounds left; [None] when the loop ends without a match. *)
Fixpoint fork_loop (n : nat) (startHeight height : Z) : st rworld (option (Z * bytes)) :=
  match n with
  | O => mret None
  | S n =>
      if i32 maxReorgDepth <? i32 (startHeight - height) then mret None
      else
        ours ← st_try (rdb (getOurBlockHash height));
        match ours with
        | Err _ => fork_loop n startHeight (height - 1)
        | Ok ourHash =>
            coreHash ← st_wrap ("failed to get Core block hash at " +:+ fmt_d height +:+ ": ")
                         (GetBlockHash client height);
            if decide (BlockHashToHex ourHash = hash_String coreHash)
            then mret (Some (height, ourHash))
            else fork_loop n startHeight (height - 1)
        end
  end.

Definition findForkPoint (startHeight : Z) : st rworld (Z * bytes) :=
  '(checkpoint, _) ← rdb LoadCheckpoint;
  let startBoundary := if cp_StartHeight checkpoint <=? 0 then 1 else cp_StartHeight checkpoint in
  found ← fork_loop (Z.to_nat (i32 (startHeight - 1) - startBoundary + 1)) startHeight
            (i32 (startHeight - 1));
  match found with
  | Some fork => mret fork
  | None =>
      if startBoundary >? 0 then
        let prevHeight := if startBoundary - 1 <? 0 then 0 else startBoundary - 1 in
        coreHash ← st_wrap ("failed to get Core block hash at " +:+ fmt_d prevHeight +:+ ": ")
                     (GetBlockHash client prevHeight);
        mret (prevHeight, BlockHashFromHash coreHash)
      else st_fail (ENew "fork point not found")
  end.

Definition CheckAndHandle : st rworld ReorgResult :=
  checkpoint ← rdb checkpoint_or_fail;
  if decide (cp_Height checkpoint = 0 /\ cp_BlockHash checkpoint = ""%string)
  then mret (mkReorgResult false 0 [] 0 0 [])
  else
    currentHash ← st_lift (wrap "invalid checkpoint block hash: "
                    (BlockHashFromHex (cp_BlockHash checkpoint)));
    coreHash ← st_wrap ("failed to get block hash from Core at height " +:+
                         fmt_d (cp_Height checkpoint) +:+ ": ")
                 (GetBlockHash client (cp_Height checkpoint));
    if decide (hash_String coreHash = cp_BlockHash checkpoint)
    then mret (mkReorgResult false 0 [] 0 (cp_Height checkpoint) currentHash)
    else
      '(forkHeight, forkHash) ← st_wrap "failed to find fork point: "
                                  (findForkPoint (cp_Height checkpoint));
      let reorgDepth := i32 (cp_Height checkpoint - forkHeight) in
      if (maxReorgDepth <? reorgDepth) && (0 <? forkHeight)
      then st_fail (ENew ("reorg depth " +:+ fmt_d reorgDepth +:+ " exceeds maximum " +:+
                          fmt_d maxReorgDepth +:+ " - manual intervention required"))
      else
        '(rolledBack, err) ← rollbackToHeight client forkHeight;
        match err with
        | Some e => st_fail (EWrap "rollback failed: " e "")
        | None =>
            _ ← rmp Clear;
            mret (mkReorgResult true forkHeight forkHash rolledBack forkHeight forkHash)
        end.

(** ** The other methods *)

Definition PruneOldUndoData (currentHeight : Z) : st pdb (result Z) :=
  if currentHeight <=? i32 maxReorgDepth then mret (Ok 0)
  else
    '(pruned, err) ← PruneUndoData (i32 (currentHeight - i32 maxReorgDepth));
    mret match err with
    | Some e => Err (EWrap "failed to prune undo data: " e "")
    | None => Ok pruned
    end.

Definition ValidateBlockConnects (prevHash : bytes) : st pdb unit :=
  checkpoint ← checkpoint_or_fail;
  if decide (cp_Height checkpoint = 0 /\ cp_BlockHash checkpoint = ""%string) then mret ()
  else if decide (hash_String prevHash <> cp_BlockHash checkpoint) then
    prev ← st_lift (string_take16 (hash_String prevHash));
    tip ← st_lift (string_take16 (cp_BlockHash checkpoint));
    st_fail (ENew ("block does not connect: prevHash=" +:+ prev +:+ "..., our tip=" +:+ tip +:+ "..."))
  else mret ().

Definition GetExpectedHeight : st pdb Z :=
  checkpoint ← checkpoint_or_fail;
  if decide (cp_Height checkpoint = 0 /\ cp_BlockHash checkpoint = ""%string) then mret 0
  else mret (i32 (cp_Height checkpoint + 1)).

(** [GetChainState]: a hash that does not parse leaves the zero hash. *)
Definition GetChainState : st pdb ChainState :=
  checkpoint ← checkpoint_or_fail;
  mret (mkChainState (cp_Height checkpoint)
    (if decide (cp_BlockHash checkpoint <> ""%string) then
       match DecodeString (cp_BlockHash checkpoint) with
       | Ok hashBytes => if decide (length hashBytes = 32%nat) then reverse32 hashBytes else zero_hash
       | Err _ => zero_hash
       end
     else zero_hash)).

End Handler.
End Reorg.
