(* ===== verification/ReorgFacts.v ===== *)
(** * Undoing a block

    What [rollbackBlock] writes, and why it restores what [IndexBlock]
    changed: every operation of the rollback batch writes the value its key
    had before the block. *)

From Stdlib Require Import Strings.Byte.
From S2P Require Import Prelude Bytes Hex Keys Values Json Checkpoint Pebble Store Sha256 Types Mempool MempoolFacts Block BlockFacts BlockOps Reorg.

(** ** The rollback batch *)

Section Rollback.
Context {P : Pebble} {PL : PebbleLaws P} {B : Btcd} {BL : BtcdLaws B} {Zs : Zstd}.

Definition unhistory_op (h : UndoHistory) : batch_op :=
  BDelete (hkey (uh_Scripthash h) (uh_Height h) (uh_TxIndex h) (uh_Index h)).

(** Deleting what was created and restoring what was spent: the operations of
    [spent_ops] and [created_ops] change places. *)
Definition rollback_ops (undo : UndoBlock) (h : Z) (bh : bytes) : list batch_op :=
  (ub_CreatedOutputs undo ≫= spent_ops) ++ (ub_SpentOutputs undo ≫= created_ops) ++
  (unhistory_op <$> ub_HistoryEntries undo) ++
  [BDelete (PrefixHeader :: be_encode 4 (u32 h)); BDelete (PrefixBlockTx :: be_encode 4 (u32 h));
   BDelete (PrefixUndo :: be_encode 4 (u32 h) ++ bh)].

Lemma rollback_created_Ok b o b' : rollback_created b o = Ok b' ->
  batch_ops b' = batch_ops b ++ spent_ops o /\ sized o.
Proof.
  unfold rollback_created. rewrite bind_Ok. intros (k1 & Hk1 & H).
  apply wrap_Ok, MakeUTXOKey_Ok in Hk1 as (Hs & Ht & ->).
  rewrite bind_Ok in H. destruct H as (b1 & Hb1 & H). apply wrap_Ok, batch_Delete_Ok in Hb1.
  rewrite bind_Ok in H. destruct H as (k2 & Hk2 & H). apply wrap_Ok, MakeTxIndexKey_Ok in Hk2 as [_ ->].
  apply wrap_Ok, batch_Delete_Ok in H. rewrite H, Hb1, <- app_assoc. by split.
Qed.

Lemma rollback_spent_Ok b o b' : rollback_spent b o = Ok b' ->
  batch_ops b' = batch_ops b ++ created_ops o /\ sized o.
Proof.
  unfold rollback_spent. rewrite bind_Ok. intros (k1 & Hk1 & H).
  apply wrap_Ok, MakeUTXOKey_Ok in Hk1 as (Hs & Ht & ->).
  rewrite bind_Ok in H. destruct H as (b1 & Hb1 & H). apply wrap_Ok, batch_Set_Ok in Hb1.
  rewrite bind_Ok in H. destruct H as (k2 & Hk2 & H). apply wrap_Ok, MakeTxIndexKey_Ok in Hk2 as [_ ->].
  apply wrap_Ok, batch_Set_Ok in H. rewrite H, Hb1, <- app_assoc. by split.
Qed.

Lemma rollback_history_Ok b e b' : rollback_history b e = Ok b' ->
  batch_ops b' = batch_ops b ++ [unhistory_op e] /\ length (uh_Scripthash e) = 32%nat.
Proof.
  unfold rollback_history. rewrite bind_Ok. intros (k1 & Hk1 & H).
  apply wrap_Ok, MakeHistoryKey_Ok in Hk1 as (Hs & ->).
  apply wrap_Ok, batch_Delete_Ok in H. by rewrite H.
Qed.

Lemma rollback_batch_Ok undo h bh b : rollback_batch undo h bh = Ok b ->
  batch_ops b = rollback_ops undo h bh.
Proof.
  unfold rollback_batch. rewrite bind_Ok. intros (b1 & H1 & H).
  apply (foldM_appends _ spent_ops sized) in H1 as [E1 _]; [|apply rollback_created_Ok].
  rewrite bind_Ok in H. destruct H as (b2 & H2 & H).
  apply (foldM_appends _ created_ops sized) in H2 as [E2 _]; [|apply rollback_spent_Ok].
  rewrite bind_Ok in H. destruct H as (b3 & H3 & H).
  apply (foldM_appends _ (fun e => [unhistory_op e]) (fun e => length (uh_Scripthash e) = 32%nat))
    in H3 as [E3 _]; [|apply rollback_history_Ok].
  rewrite bind_Ok in H. destruct H as (b4 & H4 & H).
  apply wrap_Ok, DeleteHeaderInBatch_Ok in H4 as (k4 & [_ ->]%MakeHeaderKey_Ok & E4).
  rewrite bind_Ok in H. destruct H as (b5 & H5 & H).
  apply wrap_Ok, DeleteBlockTxidsInBatch_Ok in H5 as (k5 & [_ ->]%MakeBlockTxidsKey_Ok & E5).
  apply wrap_Ok, DeleteUndoInBatch_Ok in H as (k6 & (_ & _ & ->)%MakeUndoKey_Ok & E6).
  rewrite E6, E5, E4, E3, E2, E1, batch_new, app_nil_l. unfold rollback_ops.
  rewrite <- !app_assoc. do 2 f_equal.
Qed.

(** *** The rollback succeeds *)

Context {PH : PebbleHealthy P PL}.

Definition undo_sized (u : UndoBlock) : Prop :=
  Forall sized (ub_SpentOutputs u ++ ub_CreatedOutputs u) /\
  Forall (fun e => length (uh_Scripthash e) = 32%nat) (ub_HistoryEntries u).

Lemma foldM_total {A C} (f : C -> A -> result C) (Q : A -> Prop) b l :
  (forall b x, Q x -> exists b', f b x = Ok b') -> Forall Q l -> exists b', foldM f b l = Ok b'.
Proof.
  intros Hf. revert b; induction l as [|x l IH]; intros b Hl; [by exists b|].
  apply Forall_cons in Hl as [Hx Hl]. destruct (Hf b x Hx) as [b1 E]. cbn [foldM]. rewrite E.
  by apply IH.
Qed.

Lemma Set_total b k v : exists b', batch_Set b k v = Ok b'.
Proof. apply batch_Set_total. Qed.
Lemma Delete_total b k : exists b', batch_Delete b k = Ok b'.
Proof. apply batch_Delete_total. Qed.

(** [step_total]: run one step of a batch writer that cannot fail. *)
Ltac step_total :=
  match goal with
  | |- context [batch_Set ?b ?k ?v] =>
      let b' := fresh "b" in let E := fresh "E" in destruct (Set_total b k v) as [b' E]; rewrite E
  | |- context [batch_Delete ?b ?k] =>
      let b' := fresh "b" in let E := fresh "E" in destruct (Delete_total b k) as [b' E]; rewrite E
  end; cbn [wrap mbind result_bind].

Lemma MakeUTXOKey_sized o v : sized o ->
  MakeUTXOKey (uo_Scripthash o) (uo_Txid o) v = Ok (ukey (uo_Scripthash o) (uo_Txid o) v).
Proof. intros [? ?]. by apply MakeUTXOKey_Ok. Qed.

Lemma MakeTxIndexKey_sized o v : sized o -> MakeTxIndexKey (uo_Txid o) v = Ok (tkey (uo_Txid o) v).
Proof. intros [? ?]. by apply MakeTxIndexKey_Ok. Qed.

Lemma rollback_batch_total undo h bh :
  undo_sized undo -> 0 <= h -> length bh = 32%nat -> exists b, rollback_batch undo h bh = Ok b.
Proof.
  intros [[Hs Hc]%Forall_app Hh] H0 Hl. unfold rollback_batch.
  destruct (foldM_total rollback_created sized pebble_NewBatch (ub_CreatedOutputs undo)) as [b1 ->];
    [|done|cbn [mbind result_bind]].
  { intros b o Ho. unfold rollback_created. rewrite MakeUTXOKey_sized, MakeTxIndexKey_sized by done.
    cbn [wrap mbind result_bind]. do 2 step_total. eauto. }
  destruct (foldM_total rollback_spent sized b1 (ub_SpentOutputs undo)) as [b2 ->];
    [|done|cbn [mbind result_bind]].
  { intros b o Ho. unfold rollback_spent. rewrite MakeUTXOKey_sized, MakeTxIndexKey_sized by done.
    cbn [wrap mbind result_bind]. do 2 step_total. eauto. }
  destruct (foldM_total rollback_history (fun e => length (uh_Scripthash e) = 32%nat) b2
    (ub_HistoryEntries undo)) as [b3 ->]; [|done|cbn [mbind result_bind]].
  { intros b e He. unfold rollback_history.
    rewrite (proj2 (MakeHistoryKey_Ok _ _ _ _ _) (conj He eq_refl)).
    cbn [wrap mbind result_bind]. step_total. eauto. }
  unfold DeleteHeaderInBatch, DeleteBlockTxidsInBatch, DeleteUndoInBatch.
  rewrite (proj2 (MakeHeaderKey_Ok h _) (conj H0 eq_refl)). cbn [wrap mbind result_bind]. step_total.
  rewrite (proj2 (MakeBlockTxidsKey_Ok h _) (conj H0 eq_refl)). cbn [wrap mbind result_bind]. step_total.
  rewrite (proj2 (MakeUndoKey_Ok h bh _) (conj Hl (conj H0 eq_refl))). cbn [wrap mbind result_bind].
  step_total. eauto.
Qed.

Lemma GetUndo_healthy h bh w data u : healthy w -> 0 <= h -> length bh = 32%nat ->
  contents w !! (PrefixUndo :: be_encode 4 (u32 h) ++ bh) = Some data ->
  DecodeUndoBlock data = Ok u ->
  exists w', GetUndo h bh w = (Ok u, w') /\ healthy w' /\ contents w' = contents w.
Proof.
  intros Hw H0 Hl Hk Hd. unfold GetUndo.
  rewrite (proj2 (MakeUndoKey_Ok h bh _) (conj Hl (conj H0 eq_refl))).
  rewrite (st_bind_run (st_lift _) _ w _ w) by done.
  destruct (get_value_healthy _ (ENew ("undo data not found for block " +:+ fmt_d h))
    "failed to get undo data: " w data Hw Hk) as (w' & E & Hw' & Hc).
  rewrite (st_bind_run _ _ _ _ _ E). exists w'. by rewrite Hd.
Qed.

(** [rollbackBlock] on a healthy database that has the undo record applies
    exactly the rollback operations. *)
Lemma rollbackBlock_healthy h bh w data u : healthy w -> 0 <= h -> length bh = 32%nat ->
  contents w !! (PrefixUndo :: be_encode 4 (u32 h) ++ bh) = Some data ->
  DecodeUndoBlock data = Ok u -> undo_sized u ->
  exists w', rollbackBlock h bh w = (Ok (), w') /\ healthy w' /\
    contents w' = apply_ops (rollback_ops u h bh) (contents w).
Proof.
  intros Hw H0 Hl Hk Hd Hs. unfold rollbackBlock.
  destruct (GetUndo_healthy h bh w data u Hw H0 Hl Hk Hd) as (w1 & E1 & Hw1 & Hc1).
  rewrite (st_bind_run (st_wrap _ _) _ w u w1) by (by apply st_wrap_Ok).
  destruct (rollback_batch_total u h bh Hs H0 Hl) as [b Hb]. rewrite Hb.
  rewrite (st_bind_run (st_lift _) _ w1 b w1) by done.
  destruct (commit_healthy b w1 Hw1) as (w2 & E2 & Hw2 & Hc2).
  exists w2. rewrite (proj2 (st_wrap_Ok _ _ _ _ _) E2). split_and!; [done..|].
  by rewrite Hc2, Hc1, (rollback_batch_Ok u h bh b Hb).
Qed.

(** Every operation of the rollback batch writes back what was there. *)
Lemma rollback_ops_restore c block h undo hss ops :
  fresh_block c block h -> block_batch c block h undo hss ops ->
  forall o, o ∈ rollback_ops undo h (header_BlockHash (block_Header block)) ->
    op_value o = c !! op_key o.
Proof.
  intros F I o. rewrite (bb_undo _ _ _ _ _ _ I). unfold rollback_ops.
  cbn [ub_CreatedOutputs ub_SpentOutputs ub_HistoryEntries].
  rewrite !elem_of_app, !list_elem_of_bind. intros [(cr & Ho & Hc)|[(sp & Ho & Hs)|[Ho|Ho]]].
  - apply block_created_elem in Hc as (tx & v & out & Htx & _ & E).
    apply created_by_fields in E as (E1 & _ & E3 & _).
    apply elem_of_cons in Ho as [->|Ho%list_elem_of_singleton]; [|subst o]; cbn [op_value op_key]; symmetry;
      rewrite E1.
    + apply (fr_utxo _ _ _ F); [done|]. rewrite E3. apply length_ComputeScripthash.
    + by apply (fr_tx _ _ _ F).
  - apply block_spent_elem in Hs as (tx & i & _ & _ & E). apply spent_by_stored in E as (E1 & E2 & _).
    apply elem_of_cons in Ho as [->|Ho%list_elem_of_singleton]; [|subst o]; cbn [op_value op_key]; by symmetry.
  - apply list_elem_of_fmap in Ho as (e & -> & He). cbn [op_value op_key unhistory_op]. symmetry.
    eapply block_history_elem in He as (i & (-> & _ & Hl & _) & _); [|apply (bb_hist _ _ _ _ _ _ I)].
    by apply (fr_hist _ _ _ F).
  - repeat (apply elem_of_cons in Ho as [->|Ho]; [cbn [op_value op_key]; symmetry; by apply F|]).
    by apply elem_of_nil in Ho.
Qed.

(** The key kinds a rollback restores. *)
Definition restorable (k : bytes) : Prop :=
  exists p, head k = Some p /\
    (p = PrefixUTXO \/ p = PrefixTxIndex \/ p = PrefixHistory \/ p = PrefixHeader \/
     p = PrefixBlockTx \/ p = PrefixUndo).

Lemma rollback_ops_created undo h bh s o :
  s ∈ ub_CreatedOutputs undo -> o ∈ spent_ops s -> o ∈ rollback_ops undo h bh.
Proof. intros. apply elem_of_app. left. apply list_elem_of_bind. eauto. Qed.

Lemma rollback_ops_spent undo h bh s o :
  s ∈ ub_SpentOutputs undo -> o ∈ created_ops s -> o ∈ rollback_ops undo h bh.
Proof.
  intros. unfold rollback_ops. rewrite !elem_of_app. right. left. apply list_elem_of_bind. eauto.
Qed.

Lemma rollback_ops_history undo h bh e :
  e ∈ ub_HistoryEntries undo -> unhistory_op e ∈ rollback_ops undo h bh.
Proof. intros. unfold rollback_ops. rewrite !elem_of_app. do 2 right. left. by apply list_elem_of_fmap_2. Qed.

Lemma rollback_ops_own undo h bh o :
  o ∈ [BDelete (PrefixHeader :: be_encode 4 (u32 h)); BDelete (PrefixBlockTx :: be_encode 4 (u32 h));
       BDelete (PrefixUndo :: be_encode 4 (u32 h) ++ bh)] -> o ∈ rollback_ops undo h bh.
Proof. intros. unfold rollback_ops. rewrite !elem_of_app. by do 3 right. Qed.

(** Whatever restorable key the block wrote, the rollback writes too. *)
Lemma rollback_ops_cover c block h undo hss ops o :
  block_batch c block h undo hss ops -> o ∈ ops ->
  restorable (op_key o) ->
  exists o', o' ∈ rollback_ops undo h (header_BlockHash (block_Header block)) /\ op_key o' = op_key o.
Proof.
  intros Bb Ho (p & Hp & Hk). pose proof (bb_undo _ _ _ _ _ _ Bb) as Hu.
  destruct (block_batch_parts _ _ _ _ _ _ Bb)
    as (header & buf & raws & z & d & cp & _ & _ & _ & _ & _ & _ & _ & _ & Hops).
  assert (Hs : forall s, s ∈ block_spent c (block_Transactions block) -> s ∈ ub_SpentOutputs undo)
    by (by rewrite Hu).
  assert (Hc : forall s, s ∈ block_created (header_BlockHash (block_Header block)) h
    (block_Transactions block) -> s ∈ ub_CreatedOutputs undo) by (by rewrite Hu).
  apply Hops in Ho. destruct Ho as [i tx _|s Hin|s Hin|s Hin|s Hin|e He| | | | | |];
    cbn [op_key] in *; try (injection Hp as <-; by destruct Hk as [?|[?|[?|[?|[?|?]]]]]).
  - eexists. split; [eapply rollback_ops_spent; [by apply Hs|left]|done].
  - eexists. split; [eapply rollback_ops_spent; [by apply Hs|right; left]|done].
  - eexists. split; [eapply rollback_ops_created; [by apply Hc|left]|done].
  - eexists. split; [eapply rollback_ops_created; [by apply Hc|right; left]|done].
  - exists (unhistory_op e). split; [|done]. apply rollback_ops_history. by rewrite Hu.
  - eexists. split; [apply rollback_ops_own; left|done].
  - eexists. split; [apply rollback_ops_own; right; left|done].
  - eexists. split; [apply rollback_ops_own; do 2 right; left|done].
Qed.

End Rollback.
