(* ===== verification/ReorgProps.v ===== *)
(** * Blocks and their undoing: properties *)

From Stdlib Require Import Strings.Byte.
From S2P Require Import Prelude Bytes Hex Keys Values Json Checkpoint Pebble Store Sha256 Types Mempool MempoolFacts MempoolProps Block BlockFacts BlockOps BlockProps Reorg ReorgFacts.

Section Undo.
Context {P : Pebble} {PL : PebbleLaws P} {B : Btcd} {BL : BtcdLaws B} {Zs : Zstd}.

(** ** The undo record of a block is well formed *)

Lemma block_spent_wf c txs : Forall UndoOutput_wf (block_spent c txs).
Proof.
  apply Forall_forall. intros o (tx & i & _ & Hi & E)%block_spent_elem.
  apply spent_by_stored in E as (_ & _ & _ & Ev & ? & ? & _). unfold UndoOutput_wf. rewrite Ev.
  split_and!; [|done|done]. by apply (tx_TxIn_wf tx).
Qed.

Lemma block_created_wf bh h txs : in_i32 h -> Forall UndoOutput_wf (block_created bh h txs).
Proof.
  intros Hh. apply Forall_forall. intros o (tx & v & out & _ & Hout & E)%block_created_elem.
  apply created_by_fields in E as (_ & Ev & _ & Ea & Eh & _). unfold UndoOutput_wf.
  rewrite Ev, Ea, Eh. split_and!; [apply u32_range| |done]. apply (tx_TxOut_wf tx). by eapply list_elem_of_lookup_2.
Qed.

Lemma tx_history_count c bh h itx hs : tx_history c bh h itx hs ->
  (length hs <= length (tx_spent c itx) + length (tx_created bh h itx))%nat.
Proof.
  intros (_ & Hnd & Hin). rewrite <- length_app.
  rewrite <- (length_fmap uh_Scripthash hs), <- (length_fmap uo_Scripthash (_ ++ _)).
  apply submseteq_length, NoDup_submseteq; [done|]. intros sh. rewrite Hin. done.
Qed.

Lemma history_count c bh h txs hss : Forall2 (tx_history c bh h) txs hss ->
  (length (mjoin hss) <= length (txs ≫= tx_spent c) + length (txs ≫= tx_created bh h))%nat.
Proof.
  induction 1 as [|itx hs txs hss Hh _ IH]; [simpl; lia|].
  rewrite !bind_cons, !length_app. simpl mjoin. rewrite length_app.
  apply tx_history_count in Hh. lia.
Qed.

Lemma block_undo_wf c block h undo hss ops :
  block_batch c block h undo hss ops -> in_i32 h ->
  Z.of_nat (length (ub_SpentOutputs undo) + length (ub_CreatedOutputs undo)) < 2 ^ 32 ->
  UndoBlock_wf undo /\ undo_sized undo.
Proof.
  intros Bb Hh Hn. pose proof (bb_hist _ _ _ _ _ _ Bb) as Hhist.
  pose proof (bb_sized _ _ _ _ _ _ Bb) as Hsz.
  pose proof (history_count _ _ _ _ _ Hhist) as Hcount.
  rewrite (bb_undo _ _ _ _ _ _ Bb) in *. unfold UndoBlock_wf, undo_sized.
  cbn [ub_Height ub_SpentOutputs ub_CreatedOutputs ub_HistoryEntries] in *.
  unfold block_spent, block_created in Hn.
  assert (Hall : forall e, e ∈ mjoin hss -> length (uh_Scripthash e) = 32%nat /\ UndoHistory_wf e).
  { intros e He. eapply block_history_elem in He as (i & (Eh & Ei & Hl & Hu) & Hi); [|done].
    split; [done|]. split_and!; [by rewrite Eh|by rewrite Ei|done]. }
  split_and!; try done.
  - unfold block_spent. lia.
  - unfold block_created. lia.
  - lia.
  - apply block_spent_wf.
  - by apply block_created_wf.
  - apply Forall_forall. intros e He. by apply Hall.
  - apply Forall_forall. intros e He. by apply Hall.
Qed.

(** The block's undo record is under its key. *)
Lemma undo_key_written c block h undo hss ops :
  block_batch c block h undo hss ops ->
  exists data, EncodeUndoBlock undo = Ok data /\
    apply_ops ops c !! (PrefixUndo :: be_encode 4 (u32 h) ++ header_BlockHash (block_Header block))
      = Some data.
Proof.
  intros Bb. destruct (block_batch_parts _ _ _ _ _ _ Bb)
    as (header & buf & raws & z & d & cp & _ & _ & _ & _ & Hd & _ & _ & _ & Hops).
  exists d. split; [done|]. eapply block_key; [done|done|done| |].
  - intros o [] E; try discriminate E. done.
  - right. eexists. split; [apply bop_undo|done].
Qed.

(** Applying the rollback to the contents after the block. *)
Lemma rollback_contents c c' block h undo hss ops k :
  fresh_block c block h -> block_batch c block h undo hss ops ->
  (forall k, restorable k -> c' !! k = apply_ops ops c !! k) -> restorable k ->
  apply_ops (rollback_ops undo h (header_BlockHash (block_Header block))) c' !! k = c !! k.
Proof.
  intros F Bb Hc Hk. apply apply_ops_restore; [by apply (rollback_ops_restore c block h undo hss ops)|].
  destruct (decide (Exists (fun o => op_key o = k) ops)) as [He|He].
  - right. apply Exists_exists in He as (o & Ho & Eo).
    destruct (rollback_ops_cover c block h undo hss ops o Bb Ho) as (o' & Ho' & E');
      [by rewrite Eo|]. exists o'. by rewrite E'.
  - left. apply not_Exists_Forall in He; [|intros o; apply _].
    rewrite Hc by done. by apply apply_ops_untouched.
Qed.

Lemma restorable_confirmed k : restorable k -> confirmed_key k.
Proof.
  intros (p & Hp & Hk). unfold confirmed_key. rewrite Hp.
  intros [= ->]. by destruct Hk as [?|[?|[?|[?|[?|?]]]]].
Qed.

(** [c'] agrees with [c] on the keys a rollback restores. *)
Definition restorable_same (c c' : gmap bytes bytes) : Prop :=
  forall k, restorable k -> c' !! k = c !! k.

#[export] Instance restorable_same_equivalence : Equivalence restorable_same.
Proof.
  split; [by intros c k _|intros a b H k Hk; symmetry; by apply H|].
  intros a b c H1 H2 k Hk. by rewrite H2, H1.
Qed.

Lemma rollback_checkpoint undo h bh c :
  apply_ops (rollback_ops undo h bh) c !! KeyCheckpoint = c !! KeyCheckpoint.
Proof.
  apply apply_ops_untouched, Forall_forall. intros o Ho. unfold rollback_ops in Ho.
  rewrite !elem_of_app, !list_elem_of_bind in Ho.
  destruct Ho as [(s & Ho & _)|[(s & Ho & _)|[(e & -> & _)%list_elem_of_fmap|Ho]]].
  - by apply spent_ops_elem in Ho as [->| ->].
  - by apply created_ops_elem in Ho as [->| ->].
  - done.
  - repeat (apply elem_of_cons in Ho as [->|Ho]; [done|]). by apply elem_of_nil in Ho.
Qed.

Context {PH : PebbleHealthy P PL}.

(** The conditions under which a block is undone. *)
Record undoable (c : gmap bytes bytes) (block : MsgBlock) (h : Z) : Prop := {
  ud_fresh : fresh_block c block h;
  ud_nodup : NoDup (TxHash <$> block_Transactions block);
  ud_height : in_i32 h;
  ud_size : Z.of_nat (length (block_spent c (block_Transactions block)) +
    length (block_created (header_BlockHash (block_Header block)) h (block_Transactions block)))
    < 2 ^ 32;
}.

Lemma rollback_block_run ord block h w w1 d :
  undoable (contents (w_db w)) block h -> IndexBlock ord block h w = (Ok (), w1) ->
  healthy d -> restorable_same (contents (w_db w1)) (contents d) ->
  exists d', rollbackBlock h (header_BlockHash (block_Header block)) d = (Ok (), d') /\
    healthy d' /\ restorable_same (contents (w_db w)) (contents d') /\
    contents d' !! KeyCheckpoint = contents d !! KeyCheckpoint.
Proof.
  intros [Hfresh Hnd Hh Hsize] Hindex Hd Hsame.
  apply IndexBlock_Ok in Hindex as (undo & hss & ops & Bb & Hc); [|done].
  pose proof (bb_undo _ _ _ _ _ _ Bb) as Hu.
  destruct (block_undo_wf _ _ _ _ _ _ Bb Hh) as [Hwf Hsz]; [by rewrite Hu|].
  destruct (undo_key_written _ _ _ _ _ _ Bb) as (data & Henc & Hdata).
  assert (Hc' : forall k, restorable k -> contents d !! k = apply_ops ops (contents (w_db w)) !! k).
  { intros k Hk. rewrite Hsame by done. by apply Hc, restorable_confirmed. }
  destruct (rollbackBlock_healthy h (header_BlockHash (block_Header block)) d data undo Hd
    (bb_height _ _ _ _ _ _ Bb) (length_BlockHash _)) as (d' & E & Hh' & Hd').
  - rewrite Hc'; [done|]. exists PrefixUndo. split; [done|auto 7].
  - by apply DecodeUndoBlock_Encode.
  - done.
  - exists d'. split_and!; [done|done| |by rewrite Hd', rollback_checkpoint].
    intros k Hk. rewrite Hd'. by eapply rollback_contents.
Qed.

(** C9: a block that was indexed on a database knowing nothing of it is undone
    by [rollbackBlock]: the rollback succeeds, and every UTXO, outpoint index,
    history, header, txid list and undo key of the database is what it was
    before the block, spent outputs included. *)
Theorem rollback_undoes_block (ord : range_order) (block : MsgBlock) (h : Z) (w w1 : world) (d : pdb)
    (Hundoable : undoable (contents (w_db w)) block h)
    (Hindex : IndexBlock ord block h w = (Ok (), w1))
    (Hd : healthy d) (Hsame : restorable_same (contents (w_db w1)) (contents d)) :
  exists d', rollbackBlock h (header_BlockHash (block_Header block)) d = (Ok (), d') /\
    restorable_same (contents (w_db w)) (contents d').
Proof.
  destruct (rollback_block_run ord block h w w1 d) as (d' & E & _ & Hr & _); [done..|]. by exists d'.
Qed.

End Undo.

Lemma undoable_check {P : Pebble} {PL : PebbleLaws P} {B : Btcd} {BL : BtcdLaws B} {Zs : Zstd} c block h :
  fresh_blockb c block h = true ->
  bool_decide (NoDup (TxHash <$> block_Transactions block)) = true -> bool_decide (in_i32 h) = true ->
  (Z.of_nat (length (block_spent c (block_Transactions block)) +
    length (block_created (header_BlockHash (block_Header block)) h (block_Transactions block)))
    <? 2 ^ 32) = true ->
  undoable c block h.
Proof.
  intros H1 H2%bool_decide_eq_true H3%bool_decide_eq_true H4%Z.ltb_lt. split; [|done..].
  by apply fresh_blockb_fresh.
Qed.

Lemma block2_undoable : undoable (contents (w_db indexed1)) block2 2.
Proof. apply undoable_check; vm_compute; reflexivity. Qed.

Lemma rollback_undoes_block_witness :
  exists d', rollbackBlock 2 (replicate 32 x02) (w_db indexed2) = (Ok (), d') /\
    restorable_same (contents (w_db indexed1)) (contents d').
Proof.
  apply (rollback_undoes_block id_order block2 2 indexed1 indexed2 (w_db indexed2));
    [apply block2_undoable | apply indexed2_run | apply is_none_eq; vm_compute; reflexivity
    | intros k _; reflexivity].
Defined.
