(* ===== verification/ChainFacts.v ===== *)
(** * Chains of indexed blocks

    A chain is a sequence of successful [IndexBlock] runs at consecutive
    heights, with steps in between that leave what a rollback restores and the
    tip of the checkpoint alone: the overlay's, and a rollback of later blocks.
    The lemmas say which undo records a chain leaves and what [getOurBlockHash]
    reads from them. *)

From Stdlib Require Import Strings.Byte.
From S2P Require Import Prelude Bytes Hex Keys Values Json Checkpoint Pebble Store Sha256 Types Mempool MempoolFacts MempoolProps Block BlockFacts BlockOps BlockProps Reorg ReorgFacts ReorgProps.

Definition undo_key (h : Z) (bh : bytes) : bytes := PrefixUndo :: be_encode 4 (u32 h) ++ bh.

(** Keys of the undo kind have its length. *)
Definition undo_keys_wf (c : gmap bytes bytes) : Prop :=
  forall k, is_Some (c !! k) -> head k = Some PrefixUndo -> length k = 37%nat.

(** The database has one undo record at height [h], that of block [bh]. *)
Record our_block (c : gmap bytes bytes) (h : Z) (bh : bytes) : Prop := {
  ob_length : length bh = 32%nat;
  ob_here : is_Some (c !! undo_key h bh);
  ob_unique k : is_Some (c !! k) -> (PrefixUndo :: be_encode 4 (u32 h)) `prefix_of` k ->
    k = undo_key h bh;
}.

Lemma undo_restorable k : head k = Some PrefixUndo -> restorable k.
Proof. intros E. exists PrefixUndo. split; [done|auto 7]. Qed.

Lemma our_block_same c c' h bh : restorable_same c c' -> our_block c h bh -> our_block c' h bh.
Proof.
  intros Hs [H1 H2 H3]. split; [done|by rewrite Hs by (by apply undo_restorable)|].
  intros k Hk Hp. apply H3; [|done]. rewrite Hs in Hk; [done|]. apply undo_restorable.
  destruct Hp as [z ->]. done.
Qed.

Lemma undo_keys_wf_same c c' : restorable_same c c' -> undo_keys_wf c -> undo_keys_wf c'.
Proof. intros Hs Hw k Hk Hh. apply Hw; [|done]. rewrite Hs in Hk; [done|by apply undo_restorable]. Qed.

(** ** The scan for a height's undo record *)

Lemma undo_prefix_be h : undo_prefix h = PrefixUndo :: be_encode 4 (u32 h).
Proof. by rewrite be32_u32, be32_shifts. Qed.

Lemma be32_not_ff h : 0 <= h -> in_i32 h -> be_encode 4 (u32 h) <> replicate 4 xff.
Proof.
  intros H0 Hh E. apply (f_equal be_decode) in E. rewrite be32_decode_encode in E.
  rewrite !u32_id in E; [|unfold in_u32, in_i32 in *; lia|apply u32_range].
  change (be_decode (replicate 4 xff)) with 4294967295 in E. unfold in_i32 in Hh. lia.
Qed.

Lemma undo_scan h k : 0 <= h -> in_i32 h -> (head k = Some PrefixUndo -> length k = 37%nat) ->
  in_bounds (undo_prefix h) (PrefixUpperBound (undo_prefix h)) k = true <->
  (PrefixUndo :: be_encode 4 (u32 h)) `prefix_of` k.
Proof.
  intros H0 Hh Hw. rewrite undo_prefix_be, <- Is_true_true.
  pose proof (be32_not_ff h H0 Hh) as Hff. pose proof (length_be_encode 4 (u32 h)) as Hl.
  destruct (ff_split (be_encode 4 (u32 h))) as [E|(p & b & n & E & Hb)].
  { by rewrite Hl in E. }
  rewrite E. change (PrefixUndo :: p ++ b :: replicate n xff)
    with ((PrefixUndo :: p) ++ b :: replicate n xff).
  rewrite in_bounds_prefix_inc by done. split; [|by left]. intros [Hp|(j & Hj & ->)]; [done|].
  specialize (Hw eq_refl). rewrite E in Hl. rewrite length_app, length_cons, length_replicate in Hl.
  simpl in Hw. rewrite length_app, length_cons, length_replicate in Hw. lia.
Qed.

Section Scan.
Context {P : Pebble} {PL : PebbleLaws P} {PH : PebbleHealthy P PL} {B : Btcd} {BL : BtcdLaws B}.

Lemma our_block_entries c h bh : 0 <= h -> in_i32 h -> undo_keys_wf c -> our_block c h bh ->
  exists v, entries_in (undo_prefix h) (PrefixUpperBound (undo_prefix h)) c = [(undo_key h bh, v)].
Proof.
  intros H0 Hh Hw [Hl [v Hv] Hu]. exists v.
  assert (Hall : forall kv, kv ∈ entries_in (undo_prefix h) (PrefixUpperBound (undo_prefix h)) c <->
    kv = (undo_key h bh, v)).
  { intros [k x]. rewrite entries_in_spec. split.
    - intros [Hk Hb]. apply undo_scan in Hb; [|done|done|intros E; apply Hw; [by eexists|done]].
      assert (k = undo_key h bh) as -> by (by apply Hu; [eexists|]). congruence.
    - intros [= -> ->]. split; [done|]. apply undo_scan; [done|done| |by exists bh].
      intros _. unfold undo_key. len. }
  pose proof (entries_in_NoDup (undo_prefix h) (PrefixUpperBound (undo_prefix h)) c) as Hnd.
  destruct (entries_in _ _ c) as [|kv [|kv' l]].
  - exfalso. by apply (elem_of_nil (undo_key h bh, v)), Hall.
  - f_equal. apply Hall. left.
  - exfalso. assert (kv = (undo_key h bh, v)) as -> by (apply Hall; left).
    assert (kv' = (undo_key h bh, v)) as -> by (apply Hall; right; left).
    simpl in Hnd. apply NoDup_cons in Hnd as [Hn _]. apply Hn. left.
Qed.

Lemma reads_getOurBlockHash cp h bh d : healthy d -> 0 <= h -> in_i32 h -> json_wf cp ->
  contents d !! KeyCheckpoint = Some (json_Marshal cp) ->
  undo_keys_wf (contents d) -> our_block (contents d) h bh ->
  (cp_Height cp = h -> cp_BlockHash cp = hash_String bh) ->
  reads (getOurBlockHash h) d bh.
Proof.
  intros Hd H0 Hh Hcp Hk Hw Hb Htip. unfold getOurBlockHash. pose proof (ob_length _ _ _ Hb) as Hl.
  destruct (LoadCheckpoint_present d cp Hd Hcp Hk) as (d1 & E1 & Hd1 & Hc1).
  unfold reads. rewrite (st_bind_run _ _ _ _ _ E1). case_decide as Hdec.
  - destruct Hdec as (_ & Eh & _). exists d1. split; [|done]. unfold st_lift.
    rewrite (Htip Eh), hash_String_Txid by done. unfold BlockHashFromHex. by rewrite TxidFromHex_ToHex.
  - destruct (iter_healthy (undo_prefix h) (PrefixUpperBound (undo_prefix h)) d1 Hd1)
      as (it & d2 & E2 & Hd2 & Hc2 & _ & Hit).
    exists d2. split; [|by rewrite Hc2, Hc1].
    rewrite (st_bind_run (st_wrap _ _) _ d1 it d2).
    2:{ apply st_wrap_Ok. unfold NewPrefixIterator. by apply st_wrap_Ok. }
    destruct (our_block_entries (contents d1) h bh) as [v Hv]; [done|done|by rewrite Hc1..|].
    rewrite Hit, Hv. unfold undo_key. by rewrite ParseUndoKey_layout.
Qed.

End Scan.

(** ** Chains *)

Lemma cons_inj {A} (x y : A) l k : x :: l = y :: k -> x = y /\ l = k.
Proof. by intros [= -> ->]. Qed.

Section Chain.
Context {P : Pebble} {PL : PebbleLaws P} {B : Btcd} {BL : BtcdLaws B} {Zs : Zstd}.

Definition block_hash (block : MsgBlock) : bytes := header_BlockHash (block_Header block).

(** The checkpoint stands at height [h] and block [bh]. *)
Definition tip_at (c : gmap bytes bytes) (h : Z) (bh : bytes) : Prop :=
  exists cp, json_wf cp /\ c !! KeyCheckpoint = Some (json_Marshal cp) /\
    cp_Height cp = h /\ cp_BlockHash cp = hash_String bh.

(** [chain ord base w bs w']: from [w], whose tip has height [base], the blocks
    [bs] were indexed one after the other; in between, what a rollback restores
    did not change, and the checkpoint still stands at the last block. *)
Inductive chain (ord : range_order) (base : Z) (w : world) : list MsgBlock -> world -> Prop :=
| chain_nil w' : restorable_same (contents (w_db w)) (contents (w_db w')) -> chain ord base w [] w'
| chain_later bs w1 block w2 w3 :
    chain ord base w bs w1 ->
    undoable (contents (w_db w1)) block (base + Z.of_nat (length bs) + 1) ->
    IndexBlock ord block (base + Z.of_nat (length bs) + 1) w1 = (Ok (), w2) ->
    restorable_same (contents (w_db w2)) (contents (w_db w3)) ->
    tip_at (contents (w_db w3)) (base + Z.of_nat (length bs) + 1) (block_hash block) ->
    chain ord base w (bs ++ [block]) w3.

Lemma frame_restorable w w' : db_frame w w' -> restorable_same (contents (w_db w)) (contents (w_db w')).
Proof. intros Hf k Hk. by apply Hf, restorable_confirmed. Qed.

Lemma index_tip c c' block h undo hss : indexed_block c c' block h undo hss ->
  NoDup (TxHash <$> block_Transactions block) -> in_i32 h -> tip_at c' h (block_hash block).
Proof.
  intros Hix Hnd Hh. destruct (records_after _ _ _ _ _ _ Hix Hnd) as
    (header & buf & raws & z & d & cp & _ & _ & _ & _ & _ & H6 & H7 & H8 & _ & _ & _ & _ & _ & K & _).
  exists cp. split_and!; [|done..]. split_and!; [by rewrite H6|done|].
  rewrite H7, hash_String_hex by apply length_BlockHash. apply plain_EncodeToString.
Qed.

Lemma frame_tip w w' h bh : db_frame w w' -> tip_at (contents (w_db w)) h bh -> tip_at (contents (w_db w')) h bh.
Proof. intros Hf (cp & H1 & H2 & H3). exists cp. by rewrite Hf. Qed.

(** The next block, and steps that leave confirmed data alone. *)
Lemma chain_snoc ord base w bs w1 block w2 w3 :
  chain ord base w bs w1 ->
  undoable (contents (w_db w1)) block (base + Z.of_nat (length bs) + 1) ->
  IndexBlock ord block (base + Z.of_nat (length bs) + 1) w1 = (Ok (), w2) ->
  db_frame w2 w3 -> chain ord base w (bs ++ [block]) w3.
Proof.
  intros Hc Hud Hix Hf. eapply chain_later; [done..|by apply frame_restorable|].
  pose proof Hix as (undo & hss & Hi)%IndexBlock_Ok; [|apply Hud].
  eapply frame_tip; [done|]. eapply index_tip; [done|apply Hud..].
Qed.

Lemma undo_after c c' block h undo hss k : indexed_block c c' block h undo hss ->
  head k = Some PrefixUndo -> k <> undo_key h (block_hash block) -> c' !! k = c !! k.
Proof.
  intros (ops & Bb & Hc) Hk Hne. destruct (block_batch_parts _ _ _ _ _ _ Bb)
    as (header & buf & raws & z & d & cp & _ & _ & _ & _ & _ & _ & _ & _ & Hops).
  eapply block_key; [done|done|apply Hc; by apply restorable_confirmed, undo_restorable| |by left].
  intros o [] E; cbn [op_key] in E; subst k; try discriminate Hk. done.
Qed.

(** Indexing the block of height [h] adds its undo record and no other. *)
Lemma index_undo c c' block h undo hss : indexed_block c c' block h undo hss ->
  NoDup (TxHash <$> block_Transactions block) -> fresh_block c block h -> in_i32 h ->
  undo_keys_wf c ->
  undo_keys_wf c' /\ our_block c' h (block_hash block) /\
  forall h' bh, in_i32 h' -> h' <> h -> our_block c h' bh -> our_block c' h' bh.
Proof.
  intros Hix Hnd F Hh Hw. pose proof (length_BlockHash (block_Header block)) as Hl.
  destruct (records_after _ _ _ _ _ _ Hix Hnd) as
    (header & buf & raws & z & d & cp & _ & _ & _ & _ & _ & _ & _ & _ & _ & _ & _ & _ & Hu & _).
  assert (Hlk : length (undo_key h (block_hash block)) = 37%nat).
  { unfold undo_key, block_hash. rewrite length_cons, length_app, length_be_encode, Hl. done. }
  split_and!.
  - intros k Hk Hh'. destruct (decide (k = undo_key h (block_hash block))) as [->|Hne]; [done|].
    rewrite (undo_after _ _ _ _ _ _ k Hix Hh' Hne) in Hk. by apply Hw.
  - split; [done|by eexists|]. intros k Hk [bh ->].
    destruct (decide (bh = block_hash block)) as [->|Hne]; [done|exfalso].
    rewrite (undo_after _ _ _ _ _ _ _ Hix) in Hk; [|done|].
    + pose proof (fr_undo _ _ _ F bh) as Hnone. simpl in Hk. rewrite Hnone in Hk. by destruct Hk.
    + intros E. change (PrefixUndo :: be_encode 4 (u32 h) ++ bh = undo_key h (block_hash block)) in E.
      unfold undo_key in E. apply cons_inj in E as [_ E]. by apply app_inv_head in E.
  - intros h' bh Hh' Hne [H1 H2 H3].
    assert (Hk : forall r, PrefixUndo :: be_encode 4 (u32 h') ++ r <> undo_key h (block_hash block)).
    { intros r E. unfold undo_key in E. apply cons_inj in E as [_ E]. apply app_inj_1 in E as [E _]; [|by rewrite !length_be_encode].
      apply be32_inj in E; [|apply u32_range..]. by apply u32_inj in E. }
    split; [done| |].
    + rewrite (undo_after _ _ _ _ _ _ _ Hix); [done|done|apply Hk].
    + intros k Hk' [r ->]. rewrite (undo_after _ _ _ _ _ _ _ Hix) in Hk'; [|done|apply Hk].
      apply H3; [done|by eexists].
Qed.

(** What a chain leaves: one undo record for each of its heights, those of the
    blocks, the records below untouched, and the tip's checkpoint. *)
Record chain_left (base : Z) (c : gmap bytes bytes) (bs : list MsgBlock) (c' : gmap bytes bytes) :
    Prop := {
  cl_wf : undo_keys_wf c';
  cl_below h bh : in_i32 h -> h <= base -> our_block c h bh -> our_block c' h bh;
  cl_blocks i block : bs !! i = Some block ->
    our_block c' (base + Z.of_nat i + 1) (block_hash block);
  cl_height i block : bs !! i = Some block -> in_i32 (base + Z.of_nat i + 1);
  cl_tip block : last bs = Some block -> exists cp, json_wf cp /\
    c' !! KeyCheckpoint = Some (json_Marshal cp) /\
    cp_Height cp = base + Z.of_nat (length bs) /\ cp_BlockHash cp = hash_String (block_hash block);
}.

Lemma chain_left_ok ord base w bs w' : chain ord base w bs w' -> undo_keys_wf (contents (w_db w)) ->
  chain_left base (contents (w_db w)) bs (contents (w_db w')).
Proof.
  intros Hc Hw. induction Hc as [w' Hf|bs w1 block w2 w3 Hc IH Hud Hix Hs Htip].
  { split; [by eapply undo_keys_wf_same|..]; try done.
    intros h bh _ _. by apply our_block_same. }
  set (h := base + Z.of_nat (length bs) + 1) in *. destruct Hud as [F Hnd Hh Hsz].
  apply IndexBlock_Ok in Hix as (undo & hss & Hix); [|done].
  destruct (index_undo _ _ _ _ _ _ Hix Hnd F Hh (cl_wf _ _ _ _ IH)) as (U1 & U2 & U3).
  split.
  - by eapply undo_keys_wf_same.
  - intros h' bh Hh' Hle Ho. eapply our_block_same; [done|]. apply U3; [done|lia|].
    by apply (cl_below _ _ _ _ IH).
  - intros i b [[Hlt Hi]|[-> Hi]]%lookup_snoc_Some.
    + eapply our_block_same; [done|]. apply U3; [by apply (cl_height _ _ _ _ IH i b)| |by apply (cl_blocks _ _ _ _ IH)].
      lia.
    + subst b. by eapply our_block_same.
  - intros i b [[_ Hi]|[-> _]]%lookup_snoc_Some; [by apply (cl_height _ _ _ _ IH i b)|done].
  - intros b. rewrite last_snoc. intros [= ->]. destruct Htip as (cp & H1 & H2 & H3 & H4).
    exists cp. split_and!; [done|done| |done]. rewrite H3, length_app. simpl. lia.
Qed.

End Chain.
