(* ===== verification/ReorgChain.v ===== *)
(** * Reorganisations of a chain: properties

    [rollbackToHeight] on a chain of indexed blocks, [findForkPoint] against a
    node whose best chain has forked from it, and [CheckAndHandle] as a whole. *)

From Stdlib Require Import Strings.Byte.
From S2P Require Import Prelude Bytes Hex Keys Values Json Checkpoint Pebble Store Sha256 Types Mempool MempoolFacts MempoolProps Block BlockFacts BlockOps BlockProps Reorg ReorgFacts ReorgProps ChainFacts.

Section Rollback.
Context {P : Pebble} {PL : PebbleLaws P} {PH : PebbleHealthy P PL} {B : Btcd} {BL : BtcdLaws B} {Zs : Zstd}.

Lemma take16_hash h : length h = 32%nat -> exists s, string_take16 (BlockHashToHex h) = Ok s.
Proof.
  intros Hl. unfold string_take16. rewrite BlockHashToHex_Txid, decide_True; [by eexists|].
  rewrite slen_TxidToHex by done. lia.
Qed.

(** The checkpoint [cp] does not contradict the chain [bs] on top of [base]. *)
Definition tip_agrees (cp : Checkpoint) (base : Z) (bs : list MsgBlock) : Prop :=
  base + Z.of_nat (length bs) <= cp_Height cp /\
  (cp_Height cp = base + Z.of_nat (length bs) -> forall block, last bs = Some block ->
     cp_BlockHash cp = hash_String (block_hash block)).

(** Rolling a chain back, block by block. *)
Lemma rollback_loop_chain ord base w bs w' : chain ord base w bs w' ->
  0 <= base -> undo_keys_wf (contents (w_db w)) ->
  forall d cp acc, healthy d -> restorable_same (contents (w_db w')) (contents d) ->
  json_wf cp -> contents d !! KeyCheckpoint = Some (json_Marshal cp) -> tip_agrees cp base bs ->
  exists d', rollback_loop (length bs) (base + Z.of_nat (length bs)) acc d =
      (Ok (acc + Z.of_nat (length bs), None), d') /\
    healthy d' /\ restorable_same (contents (w_db w)) (contents d') /\
    contents d' !! KeyCheckpoint = contents d !! KeyCheckpoint.
Proof.
  intros Hc H0 Hw. induction Hc as [w' Hf|bs w1 block w2 w3 Hc IH Hud Hix Hf Hcp0];
    intros d cp acc Hd Hs Hcp Hk [Hge Htip].
  { exists d. simpl. rewrite Z.add_0_r. split_and!; [done|done| |done]. by etrans. }
  assert (Hcl := chain_left_ok ord base w (bs ++ [block]) w3 (chain_later _ _ _ _ _ _ _ _ Hc Hud Hix Hf Hcp0) Hw).
  set (h := base + Z.of_nat (length bs) + 1) in *.
  assert (Hh : base + Z.of_nat (length (bs ++ [block])) = h) by (rewrite length_app; simpl; lia).
  assert (Hlast : (bs ++ [block]) !! length bs = Some block) by (by apply lookup_snoc_Some; right).
  rewrite Hh in *. rewrite length_app, Nat.add_1_r. cbn [rollback_loop].
  destruct (reads_getOurBlockHash cp h (block_hash block) d) as (d1 & E1 & Hd1 & Hc1);
    [done|lia|apply Hud|done|done|by eapply undo_keys_wf_same, cl_wf
    | by eapply our_block_same, (cl_blocks _ _ _ _ Hcl)|by intros E; apply Htip; [|apply last_snoc]|].
  rewrite (st_bind_run _ _ _ _ _ (st_try_run _ _ _ _ E1)).
  destruct (take16_hash (block_hash block)) as [s Es]; [apply length_BlockHash|]. rewrite Es.
  destruct (rollback_block_run ord block h w1 w2 d1) as (d2 & E2 & Hd2 & Hs2 & Hk2); [done..| |].
  { rewrite Hc1. by etrans. }
  rewrite (st_bind_run _ _ _ _ _ (st_try_run _ _ _ _ E2)).
  destruct (IH d2 cp (acc + 1)) as (d3 & E3 & Hd3 & Hs3 & Hk3);
    [done|done|done|by rewrite Hk2, Hc1|split; [lia|intros; lia]|].
  exists d3. replace (h - 1) with (base + Z.of_nat (length bs)) by lia. rewrite E3.
  split_and!; [do 3 f_equal; lia|done|done|by rewrite Hk3, Hk2, Hc1].
Qed.

Lemma rdb_run {A} (m : st pdb A) rw (v : result A) d : m (w_db (rw_world rw)) = (v, d) ->
  rdb m rw = (v, mkRWorld (mkWorld d (w_mp (rw_world rw))) (rw_calls rw)).
Proof. unfold rdb, in_db. by intros ->. Qed.

(** [rollbackToHeight] to the height a chain began at. *)
Lemma rollbackToHeight_chain ord base w bs w' client rw bh0 :
  chain ord base w bs w' -> bs <> [] -> 0 <= base -> in_i32 base ->
  undo_keys_wf (contents (w_db w)) -> our_block (contents (w_db w)) base bh0 ->
  healthy (w_db (rw_world rw)) -> confirmed_same (contents (w_db w')) (contents (w_db (rw_world rw))) ->
  exists d, rollbackToHeight client base rw = (Ok (Z.of_nat (length bs), None),
      mkRWorld (mkWorld d (w_mp (rw_world rw))) (rw_calls rw)) /\
    restorable_same (contents (w_db w)) (contents d) /\
    contents d !! KeyCheckpoint = Some (json_Marshal (mkCheckpoint base (BlockHashToHex bh0) 0)).
Proof.
  intros Hc Hne H0 Hbase Hw Hb0 Hd Hs. pose proof (chain_left_ok _ _ _ _ _ Hc Hw) as Hcl.
  destruct (last bs) as [tip|] eqn:Elast; [|by apply last_None in Elast].
  destruct (cl_tip _ _ _ _ Hcl tip Elast) as (cp & Hcp & Hk & Hch & Hcb).
  rewrite <- Hs in Hk by done. destruct rw as [[d m] n]. cbn [rw_world w_db w_mp rw_calls] in *.
  assert (Hrs : restorable_same (contents (w_db w')) (contents d)).
  { intros k Hr. by apply Hs, restorable_confirmed. }
  unfold rollbackToHeight.
  destruct (LoadCheckpoint_present d cp Hd Hcp Hk) as (d1 & E1 & Hd1 & Hc1).
  rewrite (st_bind_run _ _ _ _ _ (rdb_run _ (mkRWorld (mkWorld d m) n) _ _ E1)). cbn [w_mp rw_world rw_calls].
  rewrite Hch. replace (Z.to_nat _) with (length bs) by lia.
  destruct (rollback_loop_chain ord base w bs w' Hc H0 Hw d1 cp 0) as (d2 & E2 & Hd2 & Hs2 & Hk2);
    [done|by rewrite Hc1|done|by rewrite Hc1|..].
  { split; [lia|]. intros _ b. rewrite Elast. by intros [= <-]. }
  rewrite (st_bind_run _ _ _ _ _ (rdb_run _ (mkRWorld (mkWorld d1 m) n) _ _ E2)). cbn [w_mp rw_world rw_calls].
  destruct (reads_getOurBlockHash cp base bh0 d2) as (d3 & E3 & Hd3 & Hc3);
    [done|done|done|done|by rewrite Hk2, Hc1|by eapply undo_keys_wf_same|by eapply our_block_same| |].
  { intros E. rewrite Hch in E. destruct bs; [done|]. simpl in E. lia. }
  rewrite (st_bind_run _ _ _ _ _ (st_try_run _ _ _ _ (rdb_run _ (mkRWorld (mkWorld d2 m) n) _ _ E3))).
  cbn [w_mp rw_world rw_calls]. rewrite (st_bind_run (mret _) _ _ _ _ eq_refl).
  set (cp0 := mkCheckpoint base (BlockHashToHex bh0) 0).
  destruct (SaveCheckpoint_healthy d3 cp0 Hd3) as (d4 & E4 & _ & Hc4).
  rewrite (st_bind_run _ _ _ _ _ (st_try_run _ _ _ _ (rdb_run _ (mkRWorld (mkWorld d3 m) n) _ _ E4))).
  exists d4. split_and!; [done| |by rewrite Hc4, lookup_insert_eq].
  intros k Hr. rewrite Hc4, lookup_insert_ne, Hc3; [by apply Hs2|].
  intros <-. destruct Hr as (p & [= <-] & Hr). by destruct Hr as [?|[?|[?|[?|[?|?]]]]].
Qed.

End Rollback.

(** ** Against a node whose chain has forked *)

Section Node.
Context {P : Pebble} {PL : PebbleLaws P} {PH : PebbleHealthy P PL} {B : Btcd} {BL : BtcdLaws B} {Zs : Zstd}.
Context (core : Z -> bytes) (Hcore : forall h, length (core h) = 32%nat) (maxReorgDepth : Z).

(** The node answers every call from the same best chain. *)
Definition stable_client : rpc_client := fun _ h => Ok (core h).

(** A run that only reads the database: the world before and after. *)
Definition only_reads (rw rw' : rworld) : Prop :=
  healthy (w_db (rw_world rw')) /\ contents (w_db (rw_world rw')) = contents (w_db (rw_world rw)) /\
  w_mp (rw_world rw') = w_mp (rw_world rw).

Lemma only_reads_trans a b c : only_reads a b -> only_reads b c -> only_reads a c.
Proof. intros (_ & H2 & H3) (H4 & H5 & H6). split_and!; [done|by rewrite H5|by rewrite H6]. Qed.

Lemma rdb_reads {A} (m : st pdb A) rw v : reads m (w_db (rw_world rw)) v ->
  exists rw', rdb m rw = (Ok v, rw') /\ only_reads rw rw'.
Proof.
  intros (d & E & Hd & Hc). eexists. split; [by apply rdb_run|]. done.
Qed.

Lemma GetBlockHash_run h rw : healthy (w_db (rw_world rw)) -> exists rw',
  GetBlockHash stable_client h rw = (Ok (core h), rw') /\ only_reads rw rw'.
Proof. intros Hd. eexists. split; [done|]. done. Qed.

(** The fork: the blocks [bs] above [base] are ours alone, [bh0] at [base] is
    on both chains. *)
Record forked (c : gmap bytes bytes) (base : Z) (bs : list MsgBlock) (bh0 : bytes) (cp : Checkpoint) :
    Prop := {
  fk_base : 0 <= base;
  fk_range : in_i32 (base + Z.of_nat (length bs));
  fk_wf : undo_keys_wf c;
  fk_fork : our_block c base bh0;
  fk_blocks i block : bs !! i = Some block -> our_block c (base + Z.of_nat i + 1) (block_hash block);
  fk_json : json_wf cp;
  fk_cp : c !! KeyCheckpoint = Some (json_Marshal cp);
  fk_tip : cp_Height cp = base + Z.of_nat (length bs);
  fk_tip_hash block : last bs = Some block -> cp_BlockHash cp = hash_String (block_hash block);
  fk_core : core base = bh0;
  fk_diff i block : bs !! i = Some block -> core (base + Z.of_nat i + 1) <> block_hash block;
}.

Lemma hash_hex_eq a b : length a = 32%nat -> length b = 32%nat -> BlockHashToHex a = hash_String b <-> a = b.
Proof.
  intros Ha Hb. rewrite hash_String_Txid, BlockHashToHex_Txid by done.
  split; [by apply TxidToHex_inj|by intros ->].
Qed.

Lemma forked_reads c base bs bh0 cp j bh d : forked c base bs bh0 cp ->
  (0 <= j < Z.of_nat (length bs)) -> our_block c (base + j) bh -> healthy d -> contents d = c ->
  reads (getOurBlockHash (base + j)) d bh.
Proof.
  intros [F1 F2 F3 F4 F5 F6 F7 F8 F9 F10 F11] Hj Ho Hd Hc. unfold in_i32 in F2.
  apply (reads_getOurBlockHash cp); [done|lia|unfold in_i32; lia|done|by rewrite Hc..|].
  rewrite F8. lia.
Qed.

Lemma fork_loop_forked c base bs bh0 cp : forked c base bs bh0 cp ->
  Z.of_nat (length bs) <= maxReorgDepth -> in_i32 maxReorgDepth ->
  forall (j n : nat) rw, (j < length bs)%nat -> (j < n)%nat ->
  healthy (w_db (rw_world rw)) -> contents (w_db (rw_world rw)) = c ->
  exists rw', fork_loop stable_client maxReorgDepth n (base + Z.of_nat (length bs)) (base + Z.of_nat j) rw =
      (Ok (Some (base, bh0)), rw') /\ only_reads rw rw'.
Proof.
  intros F Hdepth Hmax. pose proof F as [F1 F2 F3 F4 F5 F6 F7 F8 F9 F10 F11]. unfold in_i32 in F2.
  induction j as [|j IH]; intros [|n] rw Hj Hn Hd Hc; try lia; cbn [fork_loop].
  all: rewrite (i32_id maxReorgDepth) by done; rewrite i32_id by (unfold in_i32; lia).
  all: match goal with |- context [maxReorgDepth <? ?x] => destruct (Z.ltb_spec maxReorgDepth x); [lia|] end.
  - destruct (rdb_reads _ rw bh0 (forked_reads c base bs bh0 cp 0 bh0 _ F ltac:(lia) ltac:(by rewrite Z.add_0_r) Hd Hc))
      as (rw1 & E1 & O1).
    change (Z.of_nat 0) with 0. rewrite (st_bind_run _ _ _ _ _ (st_try_run _ _ _ _ E1)), Z.add_0_r.
    destruct (GetBlockHash_run base rw1 (proj1 O1)) as (rw2 & E2 & O2).
    rewrite (st_bind_run _ _ _ _ _ (proj2 (st_wrap_Ok _ _ _ _ _) E2)).
    rewrite decide_True by (apply hash_hex_eq; [apply F4|done|done]).
    exists rw2. split; [done|]. by eapply only_reads_trans.
  - destruct (lookup_lt_is_Some_2 bs j) as [b Hb]; [lia|].
    replace (Z.of_nat (S j)) with (Z.of_nat j + 1) by lia. rewrite Z.add_assoc.
    pose proof (F5 j b Hb) as Ho. rewrite <- Z.add_assoc in Ho.
    destruct (rdb_reads _ rw (block_hash b) (forked_reads c base bs bh0 cp (Z.of_nat j + 1) _ _ F ltac:(lia) Ho Hd Hc))
      as (rw1 & E1 & O1).
    rewrite Z.add_assoc in E1. rewrite (st_bind_run _ _ _ _ _ (st_try_run _ _ _ _ E1)).
    destruct (GetBlockHash_run (base + Z.of_nat j + 1) rw1 (proj1 O1)) as (rw2 & E2 & O2).
    rewrite (st_bind_run _ _ _ _ _ (proj2 (st_wrap_Ok _ _ _ _ _) E2)).
    rewrite decide_False.
    2:{ intros E%hash_hex_eq; [|apply length_BlockHash|done]. symmetry in E. by apply F11 in E. }
    pose proof (only_reads_trans _ _ _ O1 O2) as O12.
    destruct (IH n rw2) as (rw3 & E3 & O3); [lia|lia|apply O12|by rewrite (proj1 (proj2 O12))|].
    exists rw3. replace (base + Z.of_nat j + 1 - 1) with (base + Z.of_nat j) by lia.
    split; [done|]. by eapply only_reads_trans.
Qed.

Lemma findForkPoint_forked c base bs bh0 cp rw : forked c base bs bh0 cp -> bs <> [] ->
  Z.max 1 (cp_StartHeight cp) <= base ->
  Z.of_nat (length bs) <= maxReorgDepth -> in_i32 maxReorgDepth ->
  healthy (w_db (rw_world rw)) -> contents (w_db (rw_world rw)) = c ->
  exists rw', findForkPoint stable_client maxReorgDepth (base + Z.of_nat (length bs)) rw =
      (Ok (base, bh0), rw') /\ only_reads rw rw'.
Proof.
  intros F Hne Hstart Hdepth Hmax Hd Hc. pose proof F as [F1 F2 F3 F4 F5 F6 F7 F8 F9 F10 F11].
  unfold in_i32 in F2. unfold findForkPoint.
  destruct (rdb_reads LoadCheckpoint rw (cp, None)) as (rw1 & E1 & O1).
  { apply LoadCheckpoint_present; [done..|by rewrite Hc]. }
  rewrite (st_bind_run _ _ _ _ _ E1).
  assert (Hlen : (0 < length bs)%nat) by (destruct bs; [done|simpl; lia]).
  rewrite i32_id by (unfold in_i32; lia).
  set (boundary := if _ <=? 0 then _ else _).
  assert (Hb : boundary <= base) by (unfold boundary; destruct (Z.leb_spec (cp_StartHeight cp) 0); lia).
  replace (base + Z.of_nat (length bs) - 1) with (base + Z.of_nat (length bs - 1)) by lia.
  destruct (fork_loop_forked c base bs bh0 cp F Hdepth Hmax (length bs - 1)
    (Z.to_nat (base + Z.of_nat (length bs - 1) - boundary + 1)) rw1) as (rw2 & E2 & O2);
    [lia|lia|apply O1|by rewrite (proj1 (proj2 O1))|].
  rewrite (st_bind_run _ _ _ _ _ E2). exists rw2. split; [done|]. by eapply only_reads_trans.
Qed.

(** A fork deeper than [maxReorgDepth] is not found. *)
Lemma fork_loop_deep c base bs bh0 cp : forked c base bs bh0 cp ->
  maxReorgDepth < Z.of_nat (length bs) -> in_i32 maxReorgDepth ->
  forall (n j : nat) rw, (j < length bs)%nat ->
  healthy (w_db (rw_world rw)) -> contents (w_db (rw_world rw)) = c ->
  exists rw', fork_loop stable_client maxReorgDepth n (base + Z.of_nat (length bs)) (base + Z.of_nat j) rw =
      (Ok None, rw') /\ only_reads rw rw'.
Proof.
  intros F Hdepth Hmax. pose proof F as [F1 F2 F3 F4 F5 F6 F7 F8 F9 F10 F11]. unfold in_i32 in F2.
  induction n as [|n IH]; intros j rw Hj Hd Hc; cbn [fork_loop]; [by exists rw|].
  rewrite (i32_id maxReorgDepth) by done. rewrite i32_id by (unfold in_i32; lia).
  match goal with |- context [maxReorgDepth <? ?x] => destruct (Z.ltb_spec maxReorgDepth x) end;
    [by exists rw|].
  destruct j as [|j]; [lia|].
  destruct (lookup_lt_is_Some_2 bs j) as [b Hb]; [lia|].
  replace (Z.of_nat (S j)) with (Z.of_nat j + 1) by lia.
  pose proof (F5 j b Hb) as Ho. rewrite <- Z.add_assoc in Ho.
  destruct (rdb_reads _ rw (block_hash b) (forked_reads c base bs bh0 cp (Z.of_nat j + 1) _ _ F ltac:(lia) Ho Hd Hc))
    as (rw1 & E1 & O1).
  rewrite (st_bind_run _ _ _ _ _ (st_try_run _ _ _ _ E1)).
  destruct (GetBlockHash_run (base + (Z.of_nat j + 1)) rw1 (proj1 O1)) as (rw2 & E2 & O2).
  rewrite (st_bind_run _ _ _ _ _ (proj2 (st_wrap_Ok _ _ _ _ _) E2)).
  rewrite decide_False.
  2:{ intros E%hash_hex_eq; [|apply length_BlockHash|done]. symmetry in E. rewrite Z.add_assoc in E.
      by apply F11 in E. }
  pose proof (only_reads_trans _ _ _ O1 O2) as O12.
  destruct (IH j rw2) as (rw3 & E3 & O3); [lia|apply O12|by rewrite (proj1 (proj2 O12))|].
  exists rw3. replace (base + (Z.of_nat j + 1) - 1) with (base + Z.of_nat j) by lia.
  split; [done|]. by eapply only_reads_trans.
Qed.

Lemma findForkPoint_deep c base bs bh0 cp rw : forked c base bs bh0 cp -> bs <> [] ->
  maxReorgDepth < Z.of_nat (length bs) -> in_i32 maxReorgDepth ->
  healthy (w_db (rw_world rw)) -> contents (w_db (rw_world rw)) = c ->
  exists rw', findForkPoint stable_client maxReorgDepth (base + Z.of_nat (length bs)) rw =
      (Ok (Z.max 1 (cp_StartHeight cp) - 1, core (Z.max 1 (cp_StartHeight cp) - 1)), rw') /\ only_reads rw rw'.
Proof.
  intros F Hne Hdepth Hmax Hd Hc. pose proof F as [F1 F2 F3 F4 F5 F6 F7 F8 F9 F10 F11].
  unfold in_i32 in F2. unfold findForkPoint.
  destruct (rdb_reads LoadCheckpoint rw (cp, None)) as (rw1 & E1 & O1).
  { apply LoadCheckpoint_present; [done..|by rewrite Hc]. }
  rewrite (st_bind_run _ _ _ _ _ E1).
  assert (Hlen : (0 < length bs)%nat) by (destruct bs; [done|simpl; lia]).
  rewrite i32_id by (unfold in_i32; lia).
  assert (Hb : (if cp_StartHeight cp <=? 0 then 1 else cp_StartHeight cp) = Z.max 1 (cp_StartHeight cp))
    by (destruct (Z.leb_spec (cp_StartHeight cp) 0); lia).
  rewrite Hb. set (boundary := Z.max 1 (cp_StartHeight cp)).
  replace (base + Z.of_nat (length bs) - 1) with (base + Z.of_nat (length bs - 1)) by lia.
  destruct (fork_loop_deep c base bs bh0 cp F Hdepth Hmax
    (Z.to_nat (base + Z.of_nat (length bs - 1) - boundary + 1)) (length bs - 1) rw1) as (rw2 & E2 & O2);
    [lia|apply O1|by rewrite (proj1 (proj2 O1))|].
  rewrite (st_bind_run _ _ _ _ _ E2).
  destruct (Z.gtb_spec boundary 0); [|lia]. destruct (Z.ltb_spec (boundary - 1) 0); [lia|].
  pose proof (only_reads_trans _ _ _ O1 O2) as O12.
  destruct (GetBlockHash_run (boundary - 1) rw2 (proj1 O12)) as (rw3 & E3 & O3).
  rewrite (st_bind_run _ _ _ _ _ (proj2 (st_wrap_Ok _ _ _ _ _) E3)).
  exists rw3. split; [done|]. by eapply only_reads_trans.
Qed.

(** [CheckAndHandle] around the search for the fork point. *)
Lemma CheckAndHandle_forked c base bs bh0 cp rw : forked c base bs bh0 cp -> bs <> [] ->
  healthy (w_db (rw_world rw)) -> contents (w_db (rw_world rw)) = c ->
  let top := base + Z.of_nat (length bs) in
  exists rw1, only_reads rw rw1 /\ forall fh fhash rw2,
    findForkPoint stable_client maxReorgDepth top rw1 = (Ok (fh, fhash), rw2) ->
    if (maxReorgDepth <? i32 (top - fh)) && (0 <? fh)
    then exists e, CheckAndHandle stable_client maxReorgDepth rw = (Err e, rw2)
    else forall n rw3, rollbackToHeight stable_client fh rw2 = (Ok (n, None), rw3) ->
      exists rw4, CheckAndHandle stable_client maxReorgDepth rw =
          (Ok (mkReorgResult true fh fhash n fh fhash), rw4) /\
        transactions (w_mp (rw_world rw4)) = ∅ /\
        confirmed_same (contents (w_db (rw_world rw3))) (contents (w_db (rw_world rw4))).
Proof.
  intros F Hne Hd Hc top. pose proof F as [F1 F2 F3 F4 F5 F6 F7 F8 F9 F10 F11].
  destruct (last bs) as [tip|] eqn:Elast; [|by apply last_None in Elast].
  assert (Htip : bs !! (length bs - 1)%nat = Some tip).
  { rewrite last_lookup in Elast. by replace (length bs - 1)%nat with (pred (length bs)) by lia. }
  assert (Hlen : (0 < length bs)%nat) by (destruct bs; [done|simpl; lia]).
  destruct (rdb_reads LoadCheckpoint rw (cp, None)) as (rw1 & E1 & O1).
  { apply LoadCheckpoint_present; [done..|by rewrite Hc]. }
  destruct (GetBlockHash_run top rw1 (proj1 O1)) as (rw2 & E2 & O2).
  exists rw2. split; [by eapply only_reads_trans|]. intros fh fhash rw3 E3.
  assert (Ecp : rdb checkpoint_or_fail rw = (Ok cp, rw1)).
  { revert E1. unfold rdb, in_db, checkpoint_or_fail, mbind, st_bind.
    destruct (LoadCheckpoint _) as [r d]. by intros [= -> <-]. }
  unfold CheckAndHandle. rewrite (st_bind_run _ _ _ _ _ Ecp).
  rewrite decide_False by (rewrite F8; lia).
  pose proof (length_BlockHash (block_Header tip)) as Hl.
  rewrite (F9 tip eq_refl), F8, hash_String_Txid by done. unfold BlockHashFromHex.
  rewrite TxidFromHex_ToHex by done.
  rewrite (st_bind_run (st_lift _) _ rw1 (block_hash tip) rw1) by done.
  rewrite (st_bind_run _ _ _ _ _ (proj2 (st_wrap_Ok _ _ _ _ _) E2)).
  rewrite decide_False.
  2:{ rewrite <- BlockHashToHex_Txid. intros E. symmetry in E. apply hash_hex_eq in E; [|done..].
      symmetry in E. apply F11 with (i := (length bs - 1)%nat) in Htip. apply Htip.
      rewrite <- E. f_equal. lia. }
  rewrite (st_bind_run _ _ _ _ _ (proj2 (st_wrap_Ok _ _ _ _ _) E3)). fold top.
  destruct (_ && _); [by eexists|]. intros n rw4 E4. rewrite (st_bind_run _ _ _ _ _ E4).
  destruct (Clear_run (rw_world rw4)) as (w5 & E5 & Hm & Hs).
  rewrite (st_bind_run (rmp Clear) _ rw4 () (mkRWorld w5 (rw_calls rw4)))
    by (unfold rmp; by rewrite E5).
  eexists. split; [done|]. split; [by cbn [rw_world]; rewrite Hm|done].
Qed.

End Node.

Section Handled.
Context {P : Pebble} {PL : PebbleLaws P} {PH : PebbleHealthy P PL} {B : Btcd} {BL : BtcdLaws B} {Zs : Zstd}.

(** A chain indexed on top of [w] has forked from the node's best chain. *)
Lemma chain_forked ord base w bs w' (core : Z -> bytes) bh0 :
  chain ord base w bs w' -> bs <> [] -> 0 <= base -> in_i32 base ->
  undo_keys_wf (contents (w_db w)) -> our_block (contents (w_db w)) base bh0 ->
  core base = bh0 ->
  (forall i block, bs !! i = Some block -> core (base + Z.of_nat i + 1) <> block_hash block) ->
  exists cp, forked core (contents (w_db w')) base bs bh0 cp.
Proof.
  intros Hc Hne H0 Hb Hw Ho Hcore Hdiff. pose proof (chain_left_ok _ _ _ _ _ Hc Hw) as Hcl.
  destruct (last bs) as [tip|] eqn:Elast; [|by apply last_None in Elast].
  destruct (cl_tip _ _ _ _ Hcl tip Elast) as (cp & Hcp & Hk & Hch & Hcb).
  exists cp. split; try done.
  - rewrite last_lookup in Elast. apply (cl_height _ _ _ _ Hcl) in Elast.
    replace (base + Z.of_nat (length bs)) with (base + Z.of_nat (pred (length bs)) + 1); [done|].
    destruct bs; [done|]. simpl. lia.
  - apply Hcl.
  - apply (cl_below _ _ _ _ Hcl); [done|lia|done].
  - apply Hcl.
  - intros b. rewrite Elast. by intros [= <-].
Qed.

(** The [start_height] stored with the checkpoint. *)
Definition stored_start (c : gmap bytes bytes) : Z :=
  match c !! KeyCheckpoint with
  | Some v => cp_StartHeight (json_Unmarshal v zeroCheckpoint).1
  | None => 0
  end.

Lemma forked_start core c base bs bh0 cp : forked core c base bs bh0 cp -> cp_StartHeight cp = stored_start c.
Proof. intros F. unfold stored_start. rewrite (fk_cp _ _ _ _ _ _ F). by rewrite json_Unmarshal_Marshal by apply F. Qed.

Lemma reorg_run (ord : range_order) (base : Z) (w w' : world) (bs : list MsgBlock)
    (core : Z -> bytes) (maxReorgDepth : Z) (bh0 : bytes) (rw : rworld)
    (Hcore : forall h, length (core h) = 32%nat)
    (Hchain : chain ord base w bs w') (Hne : bs <> []) (Hbase : in_i32 base)
    (Hwf : undo_keys_wf (contents (w_db w))) (Hour : our_block (contents (w_db w)) base bh0)
    (Hfork : core base = bh0)
    (Hdiff : forall i block, bs !! i = Some block -> core (base + Z.of_nat i + 1) <> block_hash block)
    (Hstart : Z.max 1 (stored_start (contents (w_db w'))) <= base)
    (Hdepth : Z.of_nat (length bs) <= maxReorgDepth) (Hmax : in_i32 maxReorgDepth)
    (Hd : healthy (w_db (rw_world rw))) (Hw : contents (w_db (rw_world rw)) = contents (w_db w')) :
  exists rw', CheckAndHandle (stable_client core) maxReorgDepth rw =
      (Ok (mkReorgResult true base bh0 (Z.of_nat (length bs)) base bh0), rw') /\
    restorable_same (contents (w_db w)) (contents (w_db (rw_world rw'))) /\
    contents (w_db (rw_world rw')) !! KeyCheckpoint =
      Some (json_Marshal (mkCheckpoint base (BlockHashToHex bh0) 0)) /\
    transactions (w_mp (rw_world rw')) = ∅.
Proof.
  destruct (chain_forked ord base w bs w' core bh0) as [cp F]; [done|done|lia|done..|].
  rewrite <- (forked_start _ _ _ _ _ _ F) in Hstart.
  destruct (CheckAndHandle_forked core Hcore maxReorgDepth _ base bs bh0 cp rw F Hne Hd Hw)
    as (rw1 & O1 & Hrun).
  destruct (findForkPoint_forked core Hcore maxReorgDepth _ base bs bh0 cp rw1 F Hne Hstart Hdepth Hmax)
    as (rw2 & E2 & O2); [apply O1|by rewrite (proj1 (proj2 O1))|].
  pose proof (only_reads_trans _ _ _ O1 O2) as O12. specialize (Hrun _ _ _ E2).
  replace (base + Z.of_nat (length bs) - base) with (Z.of_nat (length bs)) in Hrun by lia.
  rewrite i32_id in Hrun by (unfold in_i32 in *; lia).
  destruct (Z.ltb_spec maxReorgDepth (Z.of_nat (length bs))); [lia|]. cbn [andb] in Hrun.
  destruct (rollbackToHeight_chain ord base w bs w' (stable_client core) rw2 bh0)
    as (d & E3 & Hs & Hk); [done|done|lia|done..|apply O12|by rewrite (proj1 (proj2 O12)), Hw|].
  destruct (Hrun _ _ E3) as (rw4 & E4 & Hm & Hs4). exists rw4. cbn [rw_world w_db] in Hs4.
  split_and!; [done| |by rewrite Hs4|done].
  etrans; [exact Hs|]. intros k Hr. by apply Hs4, restorable_confirmed.
Qed.

(** C3: a reorganisation is handled: when the node's best chain leaves ours
    after height [base], within [maxReorgDepth] blocks of our tip,
    [CheckAndHandle] finds that height, rolls back exactly the blocks above it,
    restores the UTXO set, the outpoint index, the history, headers, txid lists
    and undo records to what they were at [base], sets the checkpoint to it (its
    [start_height] gone) and empties the overlay. *)
Theorem reorg_handled (ord : range_order) (base : Z) (w w' : world) (bs : list MsgBlock)
    (core : Z -> bytes) (maxReorgDepth : Z) (bh0 : bytes) (rw : rworld)
    (Hcore : forall h, length (core h) = 32%nat)
    (Hchain : chain ord base w bs w') (Hne : bs <> []) (Hbase : in_i32 base)
    (Hwf : undo_keys_wf (contents (w_db w))) (Hour : our_block (contents (w_db w)) base bh0)
    (Hfork : core base = bh0)
    (Hdiff : forall i block, bs !! i = Some block -> core (base + Z.of_nat i + 1) <> block_hash block)
    (Hstart : Z.max 1 (stored_start (contents (w_db w'))) <= base)
    (Hdepth : Z.of_nat (length bs) <= maxReorgDepth) (Hmax : in_i32 maxReorgDepth)
    (Hd : healthy (w_db (rw_world rw))) (Hw : contents (w_db (rw_world rw)) = contents (w_db w')) :
  exists rw', CheckAndHandle (stable_client core) maxReorgDepth rw =
      (Ok (mkReorgResult true base bh0 (Z.of_nat (length bs)) base bh0), rw') /\
    restorable_same (contents (w_db w)) (contents (w_db (rw_world rw'))) /\
    contents (w_db (rw_world rw')) !! KeyCheckpoint =
      Some (json_Marshal (mkCheckpoint base (BlockHashToHex bh0) 0)) /\
    transactions (w_mp (rw_world rw')) = ∅.
Proof. by apply (reorg_run ord base w w' bs core maxReorgDepth bh0 rw). Qed.

(** C36: while the stored start height is 2 or more (indexing began there, and no
    rollback has reset it since), a reorganisation deeper than [maxReorgDepth] is
    refused with an error and changes nothing.  The condition is needed: with a
    stored start height of 0 or 1, which is what every earlier rollback leaves, the
    same reorganisation is not refused, and the whole index is rolled back
    ([deep_reorg_wipes_chain]). *)
Theorem deep_reorg_refused (ord : range_order) (base : Z) (w w' : world) (bs : list MsgBlock)
    (core : Z -> bytes) (maxReorgDepth : Z) (bh0 : bytes) (rw : rworld)
    (Hcore : forall h, length (core h) = 32%nat)
    (Hchain : chain ord base w bs w') (Hne : bs <> []) (H0 : 0 <= base) (Hbase : in_i32 base)
    (Hwf : undo_keys_wf (contents (w_db w))) (Hour : our_block (contents (w_db w)) base bh0)
    (Hfork : core base = bh0)
    (Hdiff : forall i block, bs !! i = Some block -> core (base + Z.of_nat i + 1) <> block_hash block)
    (Hstart : 2 <= stored_start (contents (w_db w')) <= base + 1)
    (Hdepth : maxReorgDepth < Z.of_nat (length bs)) (Hmax : in_i32 maxReorgDepth)
    (Hd : healthy (w_db (rw_world rw))) (Hw : contents (w_db (rw_world rw)) = contents (w_db w')) :
  exists e rw', CheckAndHandle (stable_client core) maxReorgDepth rw = (Err e, rw') /\
    only_reads rw rw'.
Proof.
  destruct (chain_forked ord base w bs w' core bh0) as [cp F]; [done..|].
  rewrite <- (forked_start _ _ _ _ _ _ F) in Hstart.
  pose proof (fk_range _ _ _ _ _ _ F) as Hr. unfold in_i32 in Hr.
  destruct (CheckAndHandle_forked core Hcore maxReorgDepth _ base bs bh0 cp rw F Hne Hd Hw)
    as (rw1 & O1 & Hrun).
  destruct (findForkPoint_deep core Hcore maxReorgDepth _ base bs bh0 cp rw1 F Hne Hdepth Hmax)
    as (rw2 & E2 & O2); [apply O1|by rewrite (proj1 (proj2 O1))|].
  specialize (Hrun _ _ _ E2). rewrite i32_id in Hrun by (unfold in_i32; lia).
  rewrite (proj2 (Z.ltb_lt _ _)) in Hrun by lia. rewrite (proj2 (Z.ltb_lt 0 _)) in Hrun by lia.
  destruct Hrun as [e E]. exists e, rw2. split; [done|]. by eapply only_reads_trans.
Qed.

(** The same chain seen from a height inside it. *)
Lemma chain_forked_inside ord w pre post w' (core : Z -> bytes) bh0 :
  chain ord 0 w (pre ++ post) w' -> post <> [] ->
  undo_keys_wf (contents (w_db w)) -> our_block (contents (w_db w)) 0 bh0 -> core 0 = bh0 ->
  (forall i block, pre !! i = Some block -> core (Z.of_nat i + 1) = block_hash block) ->
  (forall i block, post !! i = Some block ->
     core (Z.of_nat (length pre) + Z.of_nat i + 1) <> block_hash block) ->
  exists cp, forked core (contents (w_db w')) (Z.of_nat (length pre)) post (core (Z.of_nat (length pre))) cp.
Proof.
  intros Hc Hne Hw Ho Hcore Hpre Hpost. pose proof (chain_left_ok _ _ _ _ _ Hc Hw) as Hcl.
  destruct (last post) as [tip|] eqn:Elast; [|by apply last_None in Elast].
  assert (Htip : last (pre ++ post) = Some tip) by (by rewrite last_app, Elast).
  destruct (cl_tip _ _ _ _ Hcl tip Htip) as (cp & Hcp & Hk & Hch & Hcb).
  rewrite length_app in Hch. exists cp. split; try done.
  - lia.
  - rewrite last_lookup in Htip. apply (cl_height _ _ _ _ Hcl) in Htip.
    rewrite length_app in Htip.
    replace (Z.of_nat (length pre) + Z.of_nat (length post))
      with (0 + Z.of_nat (pred (length pre + length post)) + 1); [done|].
    destruct post; [done|]. simpl. lia.
  - apply Hcl.
  - destruct (last pre) as [b|] eqn:Eb.
    + rewrite last_lookup in Eb. assert (Hp : (0 < length pre)%nat) by (destruct pre; [done|simpl; lia]).
      pose proof (Hpre _ _ Eb) as E. replace (Z.of_nat (pred (length pre)) + 1) with (Z.of_nat (length pre)) in E by lia.
      rewrite E. pose proof (cl_blocks _ _ _ _ Hcl _ _ (lookup_app_l_Some pre post _ _ Eb)) as H.
      by replace (0 + Z.of_nat (pred (length pre)) + 1) with (Z.of_nat (length pre)) in H by lia.
    + apply last_None in Eb as ->. cbn [length]. change (Z.of_nat 0) with 0. rewrite Hcore.
      apply (cl_below _ _ _ _ Hcl); [unfold in_i32; lia|lia|done].
  - intros i b Hb. pose proof (cl_blocks _ _ _ _ Hcl (length pre + i) b) as H.
    replace (0 + Z.of_nat (length pre + i) + 1) with (Z.of_nat (length pre) + Z.of_nat i + 1) in H by lia.
    apply H. by rewrite lookup_app_r, Nat.add_comm, Nat.add_sub by lia.
  - rewrite Hch. lia.
  - intros b. rewrite Elast. by intros [= <-].
Qed.

(** When indexing began at height 0 or 1 the limit does not hold: on a
    reorganisation deeper than [maxReorgDepth], [CheckAndHandle] rolls the
    whole chain back to height 0, the blocks [pre] that the node still has
    included. *)
Theorem deep_reorg_wipes_chain (ord : range_order) (w w' : world) (pre post : list MsgBlock)
    (core : Z -> bytes) (maxReorgDepth : Z) (bh0 : bytes) (rw : rworld)
    (Hcore : forall h, length (core h) = 32%nat)
    (Hchain : chain ord 0 w (pre ++ post) w') (Hne : post <> [])
    (Hwf : undo_keys_wf (contents (w_db w))) (Hour : our_block (contents (w_db w)) 0 bh0)
    (Hgenesis : core 0 = bh0)
    (Hsame : forall i block, pre !! i = Some block -> core (Z.of_nat i + 1) = block_hash block)
    (Hdiff : forall i block, post !! i = Some block ->
       core (Z.of_nat (length pre) + Z.of_nat i + 1) <> block_hash block)
    (Hstart : stored_start (contents (w_db w')) <= 1)
    (Hdepth : maxReorgDepth < Z.of_nat (length post)) (Hmax : in_i32 maxReorgDepth)
    (Hd : healthy (w_db (rw_world rw))) (Hw : contents (w_db (rw_world rw)) = contents (w_db w')) :
  exists rw', CheckAndHandle (stable_client core) maxReorgDepth rw =
      (Ok (mkReorgResult true 0 bh0 (Z.of_nat (length (pre ++ post))) 0 bh0), rw') /\
    restorable_same (contents (w_db w)) (contents (w_db (rw_world rw'))).
Proof.
  destruct (chain_forked_inside ord w pre post w' core bh0) as [cp F]; [done..|].
  rewrite <- (forked_start _ _ _ _ _ _ F) in Hstart.
  destruct (CheckAndHandle_forked core Hcore maxReorgDepth _ _ post _ cp rw F Hne Hd Hw)
    as (rw1 & O1 & Hrun).
  destruct (findForkPoint_deep core Hcore maxReorgDepth _ _ post _ cp rw1 F Hne Hdepth Hmax)
    as (rw2 & E2 & O2); [apply O1|by rewrite (proj1 (proj2 O1))|].
  replace (Z.max 1 (cp_StartHeight cp) - 1) with 0 in E2 by lia. rewrite Hgenesis in E2.
  pose proof (only_reads_trans _ _ _ O1 O2) as O12. specialize (Hrun _ _ _ E2).
  rewrite andb_false_r in Hrun.
  destruct (rollbackToHeight_chain ord 0 w (pre ++ post) w' (stable_client core) rw2 bh0)
    as (d & E3 & Hs & Hk); [done|by destruct pre, post|lia|unfold in_i32; lia|done|done|apply O12
      |by rewrite (proj1 (proj2 O12)), Hw|].
  destruct (Hrun _ _ E3) as (rw4 & E4 & _ & Hs4). exists rw4. split; [done|].
  etrans; [exact Hs|]. intros k Hr. by apply Hs4, restorable_confirmed.
Qed.

(** A rollback that returned has removed the block's undo record. *)
Lemma rollbackBlock_Ok h bh d d1 : rollbackBlock h bh d = (Ok (), d1) ->
  contents d1 !! undo_key h bh = None /\ contents d1 !! KeyCheckpoint = contents d !! KeyCheckpoint /\
  0 <= h.
Proof.
  unfold rollbackBlock. rewrite st_bind_Ok. intros (undo & d2 & E2 & H). apply st_wrap_Ok in E2.
  pose proof (rel_GetUndo h bh d) as Hs. rewrite E2 in Hs. cbn [snd] in Hs. unfold db_same in Hs.
  rewrite st_bind_Ok in H. destruct H as (b & d3 & Hb & H). apply st_lift_Ok in Hb as [Hb ->].
  assert (H0 : 0 <= h).
  { unfold GetUndo in E2. rewrite st_bind_Ok in E2. destruct E2 as (k & d4 & Hk & _).
    apply st_lift_Ok in Hk as [Hk _]. by apply wrap_Ok, MakeUndoKey_Ok in Hk as (_ & ? & _). }
  apply rollback_batch_Ok in Hb. apply st_wrap_Ok in H. apply commit_run_Ok in H. rewrite Hb in H.
  split_and!; [|by rewrite H, rollback_checkpoint, Hs|done].
  rewrite H. unfold rollback_ops. rewrite !app_assoc, apply_ops_app. cbn [apply_ops foldl apply_op].
  by rewrite lookup_delete_eq.
Qed.

Lemma GetUndo_absent h bh d : healthy d -> 0 <= h -> length bh = 32%nat ->
  contents d !! undo_key h bh = None ->
  exists e d', GetUndo h bh d = (Err e, d') /\ contents d' = contents d.
Proof.
  intros Hd H0 Hl Hk. unfold GetUndo.
  rewrite (proj2 (MakeUndoKey_Ok h bh _) (conj Hl (conj H0 eq_refl))).
  rewrite (st_bind_run (st_lift _) _ d (undo_key h bh) d) by done.
  destruct (get_healthy (undo_key h bh) d Hd) as (d' & E & _ & Hc).
  do 2 eexists. rewrite st_bind_err with (e := ENew ("undo data not found for block " +:+ fmt_d h)) (w1 := d').
  - by split.
  - unfold get_value. rewrite (st_bind_run _ _ _ _ _ E). by rewrite Hk.
Qed.

(** A rollback cut short cannot be taken up again: once the block at the
    checkpoint has been rolled back and the new checkpoint not yet saved, every
    further attempt fails at once, and changes nothing. *)
Theorem rollback_not_resumable (cp : Checkpoint) (bh : bytes) (d d1 : pdb) (client : rpc_client)
    (target : Z) (m : MempoolOverlay) (calls : nat)
    (Hbh : length bh = 32%nat) (Hcp : json_wf cp) (Hhash : cp_BlockHash cp = hash_String bh)
    (Hk : contents d !! KeyCheckpoint = Some (json_Marshal cp))
    (Hback : rollbackBlock (cp_Height cp) bh d = (Ok (), d1)) (Hd1 : healthy d1)
    (Htarget : target < cp_Height cp) :
  exists e rw', rollbackToHeight client target (mkRWorld (mkWorld d1 m) calls) = (Ok (0, Some e), rw') /\
    contents (w_db (rw_world rw')) = contents d1.
Proof.
  apply rollbackBlock_Ok in Hback as (Hgone & Hk1 & H0). rewrite Hk in Hk1.
  unfold rollbackToHeight. set (rw := mkRWorld (mkWorld d1 m) calls).
  destruct (LoadCheckpoint_present d1 cp Hd1 Hcp Hk1) as (d2 & E2 & Hd2 & Hc2).
  rewrite (st_bind_run _ _ _ _ _ (rdb_run _ rw _ _ E2)). cbn [rw rw_world w_mp rw_calls].
  destruct (Z.to_nat (cp_Height cp - target)) as [|n] eqn:En; [lia|].
  assert (Hrun : exists e d3, rollback_loop (S n) (cp_Height cp) 0 d2 = (Ok (0, Some e), d3) /\
    contents d3 = contents d1).
  { destruct (LoadCheckpoint_present d2 cp Hd2 Hcp) as (d3 & E3 & Hd3 & Hc3); [by rewrite Hc2|].
    assert (Hour : getOurBlockHash (cp_Height cp) d2 = (Ok bh, d3)).
    { unfold getOurBlockHash. rewrite (st_bind_run _ _ _ _ _ E3).
      assert (Hnz : cp_BlockHash cp <> ""%string).
      { rewrite Hhash, hash_String_Txid by done. intros E. apply (f_equal slen) in E.
        rewrite slen_TxidToHex in E by done. done. }
      rewrite decide_True by done. rewrite Hhash, hash_String_Txid by done.
      unfold BlockHashFromHex. by rewrite TxidFromHex_ToHex. }
    cbn [rollback_loop]. rewrite (st_bind_run _ _ _ _ _ (st_try_run _ _ _ _ Hour)).
    destruct (take16_hash bh Hbh) as [s Es]. rewrite Es.
    destruct (GetUndo_absent (cp_Height cp) bh d3 Hd3 H0 Hbh) as (e & d4 & E4 & Hc4);
      [by rewrite Hc3, Hc2|].
    assert (Eb : rollbackBlock (cp_Height cp) bh d3 = (Err (EWrap "failed to load undo data: " e ""), d4)).
    { unfold rollbackBlock. apply st_bind_err. unfold st_wrap. by rewrite E4. }
    rewrite (st_bind_run _ _ _ _ _ (st_try_run _ _ _ _ Eb)).
    do 2 eexists. split; [done|]. by rewrite Hc4, Hc3, Hc2. }
  destruct Hrun as (e & d3 & E3 & Hc3).
  rewrite (st_bind_run _ _ _ _ _ (rdb_run _ (mkRWorld (mkWorld d2 m) calls) _ _ E3)).
  do 2 eexists. split; [done|]. done.
Qed.

(** Nothing happens when there is nothing to do: on a fresh database
    [CheckAndHandle] answers at once, without asking the node; when the node has
    our tip at its height it reports that tip; the database and the overlay stay
    as they are. *)
Theorem agreeing_tip_untouched (client : rpc_client) (maxReorgDepth : Z) (cp : Checkpoint) (bh : bytes)
    (rw : rworld) (Hd : healthy (w_db (rw_world rw))) (Hcp : json_wf cp) (Hbh : length bh = 32%nat) :
  (contents (w_db (rw_world rw)) !! KeyCheckpoint = None ->
   exists rw', CheckAndHandle client maxReorgDepth rw = (Ok (mkReorgResult false 0 [] 0 0 []), rw') /\
     only_reads rw rw' /\ rw_calls rw' = rw_calls rw) /\
  (contents (w_db (rw_world rw)) !! KeyCheckpoint = Some (json_Marshal cp) ->
   cp_BlockHash cp = hash_String bh -> client (rw_calls rw) (cp_Height cp) = Ok bh ->
   exists rw', CheckAndHandle client maxReorgDepth rw =
       (Ok (mkReorgResult false 0 [] 0 (cp_Height cp) bh), rw') /\
     only_reads rw rw' /\ rw_calls rw' = S (rw_calls rw)).
Proof.
  assert (Hload : forall c, reads LoadCheckpoint (w_db (rw_world rw)) (c, None) ->
    exists rw', rdb checkpoint_or_fail rw = (Ok c, rw') /\ only_reads rw rw' /\ rw_calls rw' = rw_calls rw).
  { intros c (d & E & Hd' & Hc'). eexists. split.
    - apply rdb_run. unfold checkpoint_or_fail. by rewrite (st_bind_run _ _ _ _ _ E).
    - done. }
  split.
  - intros Hk. destruct (Hload zeroCheckpoint) as (rw1 & E1 & O1 & N1); [by apply LoadCheckpoint_absent|].
    exists rw1. unfold CheckAndHandle. rewrite (st_bind_run _ _ _ _ _ E1).
    by rewrite decide_True by done.
  - intros Hk Hhash Hclient.
    destruct (Hload cp) as (rw1 & E1 & O1 & N1); [by apply LoadCheckpoint_present|].
    exists (mkRWorld (rw_world rw1) (S (rw_calls rw1))). unfold CheckAndHandle.
    rewrite (st_bind_run _ _ _ _ _ E1). rewrite decide_False.
    2:{ intros [_ E]. rewrite Hhash, hash_String_Txid in E by done. apply (f_equal slen) in E.
        by rewrite slen_TxidToHex in E. }
    assert (Eh : BlockHashFromHex (cp_BlockHash cp) = Ok bh).
    { rewrite Hhash, hash_String_Txid by done. by apply TxidFromHex_ToHex. }
    rewrite Eh. rewrite (st_bind_run (st_lift _) _ rw1 bh rw1) by done.
    rewrite (st_bind_run (st_wrap _ _) _ rw1 bh (mkRWorld (rw_world rw1) (S (rw_calls rw1)))).
    2:{ apply st_wrap_Ok. unfold GetBlockHash. by rewrite N1, Hclient. }
    rewrite decide_True by done. split; [done|]. split; [done|]. cbn [rw_calls]. by rewrite N1.
Qed.

(** Pruning keeps what a reorganisation may need: [PruneOldUndoData] never
    touches anything but undo records, keeps every undo record of the last
    [maxReorgDepth] heights, and when it returns without an error it has removed
    all those below. *)
Theorem prune_keeps_reorg_window (maxReorgDepth currentHeight : Z) (d : pdb)
    (Hm : in_i32 maxReorgDepth) (H0 : 0 <= maxReorgDepth) (Hh : in_i32 currentHeight) :
  exists r d', PruneOldUndoData maxReorgDepth currentHeight d = (Ok r, d') /\
    (forall k, head k <> Some PrefixUndo -> contents d' !! k = contents d !! k) /\
    (forall h bh, in_i32 h -> length bh = 32%nat -> currentHeight - maxReorgDepth <= h ->
       contents d' !! undo_key h bh = contents d !! undo_key h bh) /\
    (is_Ok r = true -> maxReorgDepth < currentHeight ->
       forall h bh, in_i32 h -> length bh = 32%nat -> h < currentHeight - maxReorgDepth ->
         contents d' !! undo_key h bh = None).
Proof.
  unfold PruneOldUndoData. rewrite (i32_id maxReorgDepth) by done.
  destruct (Z.leb_spec currentHeight maxReorgDepth).
  { eexists _, d. split; [done|]. split_and!; [done..|]. lia. }
  unfold in_i32 in Hm, Hh. rewrite i32_id by (unfold in_i32; lia).
  set (mx := currentHeight - maxReorgDepth).
  destruct (PruneUndoData_cases mx d) as (n & err & d' & E & Hc & Hn).
  rewrite (st_bind_run _ _ _ _ _ E). eexists _, d'. split; [done|].
  assert (Hprunable : forall h bh, in_i32 h -> length bh = 32%nat ->
    prunable mx (undo_key h bh) = (h <? mx)).
  { intros h bh Hi Hl. unfold prunable, undo_key. by rewrite ParseUndoKey_layout. }
  assert (Hkeep : forall k, prunable mx k = false -> contents d' !! k = contents d !! k).
  { intros k Hk. destruct Hc as [-> | ->]; [done|]. destruct (contents d !! k) as [v|] eqn:Ek.
    - by apply map_lookup_filter_Some.
    - apply map_lookup_filter_None. by left. }
  split_and!.
  - intros k Hk. apply Hkeep. unfold prunable. destruct (ParseUndoKey k) as [[h bh]|] eqn:Ek; [|done].
    by apply ParseUndoKey_Ok in Ek as (_ & _ & ->).
  - intros h bh Hi Hl Hge. apply Hkeep. rewrite Hprunable by done. by apply Z.ltb_ge.
  - intros Hok _ h bh Hi Hl Hlt. destruct err; [done|]. destruct (Hn eq_refl) as [-> _].
    apply map_lookup_filter_None. right. intros v _. cbn [fst]. rewrite Hprunable by done.
    by rewrite (proj2 (Z.ltb_lt _ _) Hlt).
Qed.

(** A block is accepted as the next one exactly when its previous-block
    hash is the checkpoint's, or there is no checkpoint. *)
Theorem validate_block_connects (cp : Checkpoint) (tip prev : bytes) (d : pdb)
    (Hd : healthy d) (Hcp : json_wf cp) (Htip : length tip = 32%nat) (Hprev : length prev = 32%nat)
    (Hhash : cp_BlockHash cp = hash_String tip) :
  (contents d !! KeyCheckpoint = None -> exists d', ValidateBlockConnects prev d = (Ok (), d')) /\
  (contents d !! KeyCheckpoint = Some (json_Marshal cp) ->
   ((exists d', ValidateBlockConnects prev d = (Ok (), d')) <-> prev = tip) /\
   exists d', (GetExpectedHeight d).1 = Ok (i32 (cp_Height cp + 1)) /\
     GetChainState d = (Ok (mkChainState (cp_Height cp) tip), d')).
Proof.
  assert (Hload : forall c, reads LoadCheckpoint d (c, None) ->
    exists d', checkpoint_or_fail d = (Ok c, d')).
  { intros c (d' & E & _). exists d'. unfold checkpoint_or_fail. by rewrite (st_bind_run _ _ _ _ _ E). }
  split.
  - intros Hk. destruct (Hload zeroCheckpoint) as (d1 & E1); [by apply LoadCheckpoint_absent|].
    exists d1. unfold ValidateBlockConnects. rewrite (st_bind_run _ _ _ _ _ E1). by rewrite decide_True.
  - intros Hk. destruct (Hload cp) as (d1 & E1); [by apply LoadCheckpoint_present|].
    assert (Hnz : cp_BlockHash cp <> ""%string).
    { rewrite Hhash, hash_String_Txid by done. intros E. apply (f_equal slen) in E.
      by rewrite slen_TxidToHex in E. }
    split.
    + unfold ValidateBlockConnects. rewrite (st_bind_run _ _ _ _ _ E1). rewrite decide_False by tauto.
      rewrite Hhash, !hash_String_Txid by done. case_decide as Hne.
      * split; [|by intros ->]. intros (d' & H). rewrite st_bind_Ok in H.
        destruct H as (a & d2 & _ & H). rewrite st_bind_Ok in H. by destruct H as (b & d3 & _ & H).
      * split; [|by eauto]. intros _. destruct (decide (TxidToHex prev = TxidToHex tip)) as [E|]; [|done].
        by apply TxidToHex_inj in E.
    + exists d1. split.
      * unfold GetExpectedHeight. rewrite (st_bind_run _ _ _ _ _ E1). by rewrite decide_False by tauto.
      * unfold GetChainState. rewrite (st_bind_run _ _ _ _ _ E1). rewrite decide_True by done.
        rewrite Hhash, hash_String_Txid, TxidToHex_32, DecodeString_EncodeToString by done.
        rewrite decide_True by apply length_reverse32. by rewrite reverse32_involutive.
Qed.

End Handled.

(** ** Concrete runs *)

Lemma block1_undoable : undoable (contents (w_db indexed0)) block1 1.
Proof. apply undoable_check; vm_compute; reflexivity. Qed.

Lemma block0_undoable : undoable (contents (w_db world0)) block0 0.
Proof. apply undoable_check; vm_compute; reflexivity. Qed.

Lemma chain0 : chain id_order (-1) world0 [block0] indexed0.
Proof.
  apply (chain_snoc id_order (-1) world0 [] world0 block0 indexed0 indexed0);
    [by constructor|apply block0_undoable|apply indexed0_run|reflexivity].
Qed.

Lemma world0_wf : undo_keys_wf (contents (w_db world0)).
Proof.
  intros k [v Hk]. change (contents (w_db world0)) with (∅ : gmap bytes bytes) in Hk.
  by rewrite lookup_empty in Hk.
Qed.

Lemma chain1 : chain id_order 0 indexed0 [block1] indexed1.
Proof.
  apply (chain_snoc id_order 0 indexed0 [] indexed0 block1 indexed1 indexed1);
    [by constructor|apply block1_undoable|apply indexed1_run|reflexivity].
Qed.

Lemma chain2 : chain id_order 0 indexed0 [block1; block2] indexed2.
Proof.
  apply (chain_snoc id_order 0 indexed0 [block1] indexed1 block2 indexed2 indexed2);
    [apply chain1|apply block2_undoable|apply indexed2_run|reflexivity].
Qed.

Lemma chain_top : chain id_order 1 indexed1 [block2] indexed2.
Proof.
  apply (chain_snoc id_order 1 indexed1 [] indexed1 block2 indexed2 indexed2);
    [by constructor|apply block2_undoable|apply indexed2_run|reflexivity].
Qed.

Definition left0 := chain_left_ok _ _ _ _ _ chain0 world0_wf.
Definition left1 := chain_left_ok _ _ _ _ _ chain1 (cl_wf _ _ _ _ left0).

(** The node's best chain: ours up to height 1. *)
Definition core_fork1 (h : Z) : bytes :=
  if h =? 0 then replicate 32 x0f else if h =? 1 then replicate 32 x01 else replicate 32 x99.

Lemma core_fork1_length h : length (core_fork1 h) = 32%nat.
Proof. unfold core_fork1. by destruct (h =? 0), (h =? 1). Qed.

Definition rworld2 : @rworld MemPebble ModelBtcd := mkRWorld indexed2 0.

Lemma fork1_diff i block : [block2] !! i = Some block ->
  core_fork1 (1 + Z.of_nat i + 1) <> block_hash block.
Proof. destruct i as [|i]; [|done]. by intros [= <-]. Qed.

Lemma reorg_handled_witness :
  exists rw', CheckAndHandle (stable_client core_fork1) 10 rworld2 =
      (Ok (mkReorgResult true 1 (replicate 32 x01) 1 1 (replicate 32 x01)), rw') /\
    restorable_same (contents (w_db indexed1)) (contents (w_db (rw_world rw'))).
Proof.
  destruct (reorg_handled id_order 1 indexed1 indexed2 [block2] core_fork1 10 (replicate 32 x01) rworld2)
    as (rw' & H1 & H2 & _);
    [apply core_fork1_length | apply chain_top | discriminate
    | apply (bool_decide_eq_true_1 _); vm_compute; reflexivity
    | apply (cl_wf _ _ _ _ left1) | apply (cl_blocks _ _ _ _ left1 0 block1); reflexivity
    | reflexivity | apply fork1_diff | apply (bool_decide_eq_true_1 _); vm_compute; reflexivity
    | discriminate | apply (bool_decide_eq_true_1 _); vm_compute; reflexivity
    | apply is_none_eq; vm_compute; reflexivity | reflexivity |].
  exists rw'. split; [exact H1 | exact H2].
Defined.

Lemma deep_reorg_wipes_chain_witness :
  exists rw', CheckAndHandle (stable_client core_fork1) 0 rworld2 =
      (Ok (mkReorgResult true 0 (replicate 32 x0f) 2 0 (replicate 32 x0f)), rw') /\
    restorable_same (contents (w_db indexed0)) (contents (w_db (rw_world rw'))).
Proof.
  apply (deep_reorg_wipes_chain id_order indexed0 indexed2 [block1] [block2] core_fork1 0
    (replicate 32 x0f) rworld2);
    [apply core_fork1_length | apply chain2 | discriminate | apply (cl_wf _ _ _ _ left0)
    | apply (cl_blocks _ _ _ _ left0 0 block0); reflexivity | reflexivity
    | intros [|i] block; [intros [= <-]; reflexivity | discriminate]
    | apply fork1_diff | apply (bool_decide_eq_true_1 _); vm_compute; reflexivity
    | apply (bool_decide_eq_true_1 _); vm_compute; reflexivity
    | apply (bool_decide_eq_true_1 _); vm_compute; reflexivity
    | apply is_none_eq; vm_compute; reflexivity | reflexivity].
Defined.

Definition rolled_back2 : @pdb MemPebble := (rollbackBlock 2 (replicate 32 x02) (w_db indexed2)).2.

Definition checkpoint2 : Checkpoint := mkCheckpoint 2 (EncodeToString (replicate 32 x02)) 0.

Lemma rolled_back2_run : rollbackBlock 2 (replicate 32 x02) (w_db indexed2) = (Ok (), rolled_back2).
Proof. unfold rolled_back2. apply unit_run. vm_compute. reflexivity. Qed.

Lemma rollback_not_resumable_witness :
  exists e rw', rollbackToHeight (stable_client core_fork1) 1
      (mkRWorld (mkWorld rolled_back2 (w_mp indexed2)) 0) = (Ok (0, Some e), rw') /\
    contents (w_db (rw_world rw')) = contents rolled_back2.
Proof.
  apply (rollback_not_resumable checkpoint2 (replicate 32 x02) (w_db indexed2) rolled_back2
    (stable_client core_fork1) 1 (w_mp indexed2) 0);
    [reflexivity
    | split; [|split; [|apply plain_EncodeToString]]; apply (bool_decide_eq_true_1 _); vm_compute; reflexivity
    | reflexivity
    | apply (bool_decide_eq_true_1 _); vm_compute; reflexivity
    | exact rolled_back2_run
    | apply is_none_eq; vm_compute; reflexivity | reflexivity].
Defined.

(** A chain indexed from height 5 on. *)
Definition late_world : @world MemPebble ModelBtcd :=
  mkWorld (memory {[KeyCheckpoint := json_Marshal (mkCheckpoint 4 (EncodeToString (replicate 32 x0f)) 5)]} None)
    (NewMempoolOverlay true).
Definition late1 : @world MemPebble ModelBtcd := (IndexBlock id_order block1 5 late_world).2.
Definition late2 : @world MemPebble ModelBtcd := (IndexBlock id_order block2 6 late1).2.

Lemma late1_run : IndexBlock id_order block1 5 late_world = (Ok (), late1).
Proof. unfold late1. apply unit_run. vm_compute. reflexivity. Qed.

Lemma late2_run : IndexBlock id_order block2 6 late1 = (Ok (), late2).
Proof. unfold late2. apply unit_run. vm_compute. reflexivity. Qed.

Lemma late_chain1 : chain id_order 4 late_world [block1] late1.
Proof.
  apply (chain_snoc id_order 4 late_world [] late_world block1 late1 late1); [by constructor| | |reflexivity].
  - apply undoable_check; vm_compute; reflexivity.
  - exact late1_run.
Qed.

Lemma late_chain2 : chain id_order 5 late1 [block2] late2.
Proof.
  apply (chain_snoc id_order 5 late1 [] late1 block2 late2 late2); [by constructor| | |reflexivity].
  - apply undoable_check; vm_compute; reflexivity.
  - exact late2_run.
Qed.

Lemma late_world_wf : undo_keys_wf (contents (w_db late_world)).
Proof.
  intros k [v Hk]. change (contents (w_db late_world)) with (mem_map (w_db late_world)) in Hk.
  cbn [late_world w_db memory mem_map] in Hk. by apply lookup_singleton_Some in Hk as [<- _].
Qed.

Definition late_left := chain_left_ok _ _ _ _ _ late_chain1 late_world_wf.

Definition core_fork5 (h : Z) : bytes := if h =? 5 then replicate 32 x01 else replicate 32 x99.

Lemma deep_reorg_refused_witness :
  exists e rw', CheckAndHandle (stable_client core_fork5) 0 (mkRWorld late2 0) = (Err e, rw') /\
    only_reads (mkRWorld late2 0) rw'.
Proof.
  apply (deep_reorg_refused id_order 5 late1 late2 [block2] core_fork5 0 (replicate 32 x01) (mkRWorld late2 0));
    [intros h; unfold core_fork5; destruct (h =? 5); reflexivity
    | apply late_chain2 | discriminate | discriminate
    | apply (bool_decide_eq_true_1 _); vm_compute; reflexivity
    | apply (cl_wf _ _ _ _ late_left) | apply (cl_blocks _ _ _ _ late_left 0 block1); reflexivity
    | reflexivity | intros [|i] block; [intros [= <-]; discriminate | discriminate]
    | apply (bool_decide_eq_true_1 _); vm_compute; reflexivity
    | reflexivity | apply (bool_decide_eq_true_1 _); vm_compute; reflexivity
    | apply is_none_eq; vm_compute; reflexivity | reflexivity].
Defined.

Lemma checkpoint2_wf : json_wf checkpoint2.
Proof.
  split; [|split; [|apply plain_EncodeToString]]; apply (bool_decide_eq_true_1 _); vm_compute; reflexivity.
Qed.

Lemma agreeing_tip_untouched_witness :
  exists rw', CheckAndHandle (stable_client (fun _ => replicate 32 x02)) 10 rworld2 =
      (Ok (mkReorgResult false 0 [] 0 2 (replicate 32 x02)), rw') /\
    only_reads rworld2 rw' /\ rw_calls rw' = 1%nat.
Proof.
  apply (agreeing_tip_untouched (stable_client (fun _ => replicate 32 x02)) 10 checkpoint2 (replicate 32 x02)
    rworld2);
    [apply is_none_eq; vm_compute; reflexivity | apply checkpoint2_wf | reflexivity
    | apply (bool_decide_eq_true_1 _); vm_compute; reflexivity | reflexivity | reflexivity].
Defined.

Lemma prune_keeps_reorg_window_witness :
  exists r d', PruneOldUndoData 1 2 (w_db indexed2) = (Ok r, d') /\
    (forall h bh, in_i32 h -> length bh = 32%nat -> 1 <= h ->
       contents d' !! undo_key h bh = contents (w_db indexed2) !! undo_key h bh).
Proof.
  destruct (prune_keeps_reorg_window 1 2 (w_db indexed2)) as (r & d' & H1 & _ & H2 & _);
    [apply (bool_decide_eq_true_1 _); vm_compute; reflexivity | discriminate
    | apply (bool_decide_eq_true_1 _); vm_compute; reflexivity |].
  exists r, d'. split; [exact H1 | exact H2].
Defined.

Lemma validate_block_connects_witness :
  (exists d', ValidateBlockConnects (replicate 32 x03) (w_db indexed2) = (Ok (), d')) <->
  replicate 32 x03 = replicate 32 x02.
Proof.
  apply (validate_block_connects checkpoint2 (replicate 32 x02) (replicate 32 x03) (w_db indexed2));
    [apply is_none_eq; vm_compute; reflexivity | apply checkpoint2_wf | reflexivity | reflexivity | reflexivity
    | apply (bool_decide_eq_true_1 _); vm_compute; reflexivity].
Defined.
