(* ===== verification/Query.v ===== *)
(** * Queries of the Electrum server: [internal/electrum/scripthash.go],
    [internal/electrum/merkle.go] and [getTxFromDB] of [handlers.go]

    A [map\[string\]interface{}] with fixed keys is a record.  The order
    [sort.Slice] leaves equal elements in is not specified, so the sort is an
    argument with its contract. *)

From Stdlib Require Import Strings.Byte.
From S2P Require Import Prelude Bytes Hex Keys Values Json Checkpoint Pebble Store Sha256 Types Mempool.

(** [{"tx_hash": ..., "height": ...}] *)
Record history_item := mkHistoryItem { hi_tx_hash : string; hi_height : Z }.

#[export] Instance history_item_eq_dec : EqDecision history_item.
Proof. solve_decision. Defined.

Record balance := mkBalance { bal_confirmed : Z; bal_unconfirmed : Z }.

(** [{"tx_hash": ..., "tx_pos": ..., "height": ..., "value": ...}] *)
Record unspent_item := mkUnspentItem {
  ui_tx_hash : string; ui_tx_pos : Z; ui_height : Z; ui_value : Z;
}.

#[export] Instance unspent_item_eq_dec : EqDecision unspent_item.
Proof. solve_decision. Defined.

Record MerkleProof := mkMerkleProof { mp_BlockHeight : Z; mp_Pos : nat; mp_Merkle : list string }.

(** [sort.Slice(l, less)] for a strict weak order. *)
Record slice_sort := mkSliceSort {
  sort_Slice : (history_item -> history_item -> bool) -> list history_item -> list history_item;
  sort_Slice_perm less l : sort_Slice less l ≡ₚ l;
  sort_Slice_sorted less l :
    (forall a b, less a b = true -> less b a = false) ->
    (forall a b c, less b a = false -> less c b = false -> less c a = false) ->
    StronglySorted (fun a b => less b a = false) (sort_Slice less l);
}.

(** The comparison in [GetScripthashHistory]: unconfirmed entries last. *)
Definition history_less (a b : history_item) : bool :=
  let hi := hi_height a in
  let hj := hi_height b in
  if (hi =? 0) && negb (hj =? 0) then false
  else if negb (hi =? 0) && (hj =? 0) then true
  else hi <? hj.

Section Query.
Context {P : Pebble} {B : Btcd} {Zs : Zstd}.

(** ** Scripthash queries *)

(** [history], [seen] and [txidCache]. *)
Definition history_acc : Type := list history_item * gset string * gmap Z (list bytes).

Definition history_entry_step (acc : history_acc) (kv : bytes * bytes) : st pdb history_acc :=
  let '(history, seen, cache) := acc in
  match ParseHistoryKey kv.1 with
  | Err _ => mret acc
  | Ok (_, height, txIndex, _) =>
      txids ← match cache !! height with
              | Some txids => mret (Ok txids)
              | None => st_try (GetBlockTxids height)
              end;
      match txids with
      | Err _ => mret acc
      | Ok txids =>
          let cache := <[height := txids]> cache in
          match txids !! Z.to_nat txIndex with
          | None => mret (history, seen, cache)
          | Some txid =>
              let txidHex := TxidToHex txid in
              if decide (txidHex ∈ seen) then mret (history, seen, cache)
              else mret (history ++ [mkHistoryItem txidHex height], {[txidHex]} ∪ seen, cache)
          end
      end
  end.

Definition history_mempool_step (acc : list history_item * gset string) (txidHex : string) :
    list history_item * gset string :=
  let '(history, seen) := acc in
  if decide (txidHex ∈ seen) then acc
  else (history ++ [mkHistoryItem txidHex 0], {[txidHex]} ∪ seen).

(** The iterator's own error is not looked at. *)
Definition GetScripthashHistory (sorter : slice_sort) (ord : range_order) (mempool : MempoolOverlay)
    (scripthash : bytes) : st pdb (list history_item) :=
  prefix ← st_lift (MakeHistoryPrefix scripthash);
  it ← NewPrefixIterator prefix;
  '(history, seen, _) ← st_foldM history_entry_step ([], ∅, ∅) (it_entries it);
  let '(history, _) := foldl history_mempool_step (history, seen)
                         (GetScripthashTransactions ord scripthash mempool) in
  mret (sort_Slice sorter history_less history).

(** [ParseUTXOKey] and [DecodeUTXOValue] of an entry; [None] on [continue]. *)
Definition utxo_entry (kv : bytes * bytes) : option (bytes * Z * UTXOValue) :=
  match ParseUTXOKey kv.1, DecodeUTXOValue kv.2 with
  | Ok (_, txid, vout), Ok utxo => Some (txid, vout, utxo)
  | _, _ => None
  end.

Definition balance_step (mempool : MempoolOverlay) (acc : Z * Z) (kv : bytes * bytes) : Z * Z :=
  let '(confirmed, unconfirmed) := acc in
  match utxo_entry kv with
  | None => acc
  | Some (txid, vout, utxo) =>
      if IsOutputSpent txid vout mempool
      then (confirmed, i64 (unconfirmed - uv_Value utxo))
      else (i64 (confirmed + uv_Value utxo), unconfirmed)
  end.

Definition GetScripthashBalance (ord : range_order) (mempool : MempoolOverlay) (scripthash : bytes) :
    st pdb balance :=
  utxoPrefix ← st_lift (MakeUTXOPrefix scripthash);
  it ← NewPrefixIterator utxoPrefix;
  let '(confirmed, unconfirmed) := foldl (balance_step mempool) (0, 0) (it_entries it) in
  mret (mkBalance confirmed (i64 (unconfirmed + GetBalance ord scripthash mempool))).

Definition unspent_confirmed (mempool : MempoolOverlay) (kv : bytes * bytes) : option unspent_item :=
  match utxo_entry kv with
  | None => None
  | Some (txid, vout, utxo) =>
      if IsOutputSpent txid vout mempool then None
      else Some (mkUnspentItem (TxidToHex txid) vout (uv_Height utxo) (uv_Value utxo))
  end.

Definition unspent_mempool (o : MempoolOutput) : unspent_item :=
  mkUnspentItem (TxidToHex (mo_Txid o)) (mo_Vout o) 0 (mo_Value o).

Definition GetScripthashUnspent (ord : range_order) (mempool : MempoolOverlay) (scripthash : bytes) :
    st pdb (list unspent_item) :=
  utxoPrefix ← st_lift (MakeUTXOPrefix scripthash);
  it ← NewPrefixIterator utxoPrefix;
  mret (omap (unspent_confirmed mempool) (it_entries it) ++
        (unspent_mempool <$> GetUnspentOutputs ord scripthash mempool)).

(** [fmt.Fprintf(&statusBuilder, "%s:%d:", txHash, height)] *)
Definition status_line (e : history_item) : string := hi_tx_hash e +:+ ":" +:+ fmt_d (hi_height e) +:+ ":".

Definition status_text (history : list history_item) : bytes :=
  history ≫= (fun e => bytes_of_string (status_line e)).

Definition ComputeScripthashStatus (sorter : slice_sort) (ord : range_order) (mempool : MempoolOverlay)
    (scripthash : bytes) : st pdb string :=
  history ← GetScripthashHistory sorter ord mempool scripthash;
  match history with
  | [] => mret ""%string
  | _ => mret (EncodeToString (Sum256 (status_text history)))
  end.

(** ** Merkle proofs *)

(** [copy(dst[:], src)] into a zeroed [\[32\]byte]. *)
Definition copy32 (src : bytes) : bytes := take 32 (src ++ replicate 32 x00).

(** One level up: the last node of an odd level is paired with itself. *)
Fixpoint next_level (level : list bytes) : list bytes :=
  match level with
  | [] => []
  | [l] => [copy32 (DoubleHashB (l ++ l))]
  | l :: r :: rest => copy32 (DoubleHashB (l ++ r)) :: next_level rest
  end.

(** [for len(level) > 1], [n] rounds left. *)
Fixpoint branch_loop (n : nat) (level : list bytes) (pos : nat) (branch : list string) : list string :=
  match n with
  | O => branch
  | S n =>
      if (length level <=? 1)%nat then branch
      else
        let branch := match level !! Nat.lxor pos 1 with
                      | Some sibling => branch ++ [EncodeToString sibling]
                      | None => branch
                      end in
        branch_loop n (next_level level) (pos / 2) branch
  end.

Definition buildMerkleBranch (txids : list bytes) (pos : nat) : list string :=
  if (length txids =? 1)%nat then []
  else branch_loop (length txids) (copy32 <$> txids) pos [].

Definition GetTransactionMerkleProof (txid : bytes) (height : Z) : st pdb MerkleProof :=
  txids ← GetBlockTxids height;
  match txids with
  | [] => st_fail (ENew ("no txids for height " +:+ fmt_d height))
  | _ =>
      match list_find (fun id => id = txid) txids with
      | None => st_fail (ENew ("tx not found in block at height " +:+ fmt_d height))
      | Some (pos, _) => mret (mkMerkleProof height pos (buildMerkleBranch txids pos))
      end
  end.

(** ** Transactions *)

(** [&Error{Code: ..., Message: ...}] *)
Definition rpc_Error (Code : Z) (Message : string) : error := ESentinel (fmt_d Code) Message.
Definition ErrCodeInvalidParams : Z := -32602.
Definition ErrCodeInternal : Z := -32603.

(** [if err != nil { return ..., &Error{Code: ErrCodeInternal, Message: err.Error()} }] *)
Definition internal {W A} (m : st W A) : st W A := fun w =>
  match m w with
  | (Ok a, w) => (Ok a, w)
  | (Err e, w) => (Err (rpc_Error ErrCodeInternal (Error e)), w)
  end.

(** [None] when the transaction is not indexed. *)
Definition getTxFromDB (txidStr : string) : st pdb (option (string * Z)) :=
  match TxidFromHex txidStr with
  | Err _ => st_fail (rpc_Error ErrCodeInvalidParams "invalid txid")
  | Ok txidRaw =>
      pos ← internal (GetTxPos txidRaw);
      match pos with
      | None => mret None
      | Some (height, txIndex) =>
          blob ← internal (GetTxBlob height);
          offsets ← internal (GetTxOffsets height);
          match offsets !! Z.to_nat txIndex with
          | None => st_fail (rpc_Error ErrCodeInternal "tx index out of range")
          | Some start =>
              let end_ := match offsets !! S (Z.to_nat txIndex) with
                          | Some e => e
                          | None => u32 (Z.of_nat (length blob))
                          end in
              if (Z.of_nat (length blob) <? end_) || (end_ <? start)
              then st_fail (rpc_Error ErrCodeInternal "invalid tx offsets")
              else mret (Some (EncodeToString (slice (Z.to_nat start) (Z.to_nat end_) blob), height))
          end
      end
  end.

End Query.
