(* ===== verification/QueryFacts.v ===== *)
(** * What the queries compute

    The loops of the scripthash queries as functions of the database's
    contents and the overlay. *)

From Stdlib Require Import Strings.Byte.
From S2P Require Import Prelude Bytes Hex Keys Values Json Checkpoint Pebble Store Sha256 Types Mempool MempoolFacts BlockFacts BlockOps Query.

(** ** Specification *)

(** The txids of the block at a height. *)
Definition block_txids_at (c : gmap bytes bytes) (h : Z) : option (list bytes) :=
  if h <? 0 then None
  else v ← c !! (PrefixBlockTx :: be_encode 4 (u32 h)); to_option (decode_txids v).

(** The transaction a history entry stands for. *)
Definition history_tx (c : gmap bytes bytes) (h i : Z) : option bytes :=
  txids ← block_txids_at c h; txids !! Z.to_nat i.

(** A scripthash's confirmed history, in the order of its keys. *)
Definition history_key_item (c : gmap bytes bytes) (kv : bytes * bytes) : option history_item :=
  match ParseHistoryKey kv.1 with
  | Ok (_, h, i, _) => t ← history_tx c h i; Some (mkHistoryItem (TxidToHex t) h)
  | Err _ => None
  end.

(** A transaction is in the confirmed history of [sh] at height [h]. *)
Definition confirmed_at (c : gmap bytes bytes) (sh : bytes) (e : history_item) : Prop :=
  exists i x t, in_i32 (hi_height e) /\ in_u32 i /\ in_u32 x /\
    is_Some (c !! hkey sh (hi_height e) i x) /\
    history_tx c (hi_height e) i = Some t /\ hi_tx_hash e = TxidToHex t.

(** [seen]: keep the first entry of each transaction. *)
Definition add_unseen (acc : list history_item * gset string) (e : history_item) :
    list history_item * gset string :=
  if decide (hi_tx_hash e ∈ acc.2) then acc
  else (acc.1 ++ [e], {[hi_tx_hash e]} ∪ acc.2).

Lemma add_unseen_spec l acc :
  NoDup (hi_tx_hash <$> acc.1) -> (forall h, h ∈ acc.2 <-> h ∈ hi_tx_hash <$> acc.1) ->
  let acc' := foldl add_unseen acc l in
  NoDup (hi_tx_hash <$> acc'.1) /\ (forall h, h ∈ acc'.2 <-> h ∈ hi_tx_hash <$> acc'.1) /\
  (forall e, e ∈ acc'.1 <-> e ∈ acc.1 \/
     exists pre post, l = pre ++ e :: post /\ hi_tx_hash e ∉ hi_tx_hash <$> (acc.1 ++ pre)).
Proof.
  revert acc; induction l as [|x l IH]; intros acc Hnd Hseen.
  { simpl. split_and!; [done..|]. intros e. split; [auto|]. intros [?|([] & ? & ? & _)]; done. }
  intros acc'. subst acc'. cbn [foldl]. destruct (decide (hi_tx_hash x ∈ acc.2)) as [Hx|Hx].
  - assert (add_unseen acc x = acc) as -> by (unfold add_unseen; by rewrite decide_True).
    apply Hseen in Hx. destruct (IH acc Hnd Hseen) as (H1 & H2 & H3). split_and!; [done..|].
    intros e. rewrite H3. apply or_iff_compat_l. split.
    + intros (pre & post & -> & Hn). exists (x :: pre), post. split; [done|].
      rewrite fmap_app, fmap_cons, elem_of_app, elem_of_cons in *.
      intros [?|[E|?]]; [tauto| |tauto]. rewrite E in Hn. tauto.
    + intros ([|y pre] & post & [= -> ->] & Hn).
      * destruct Hn. rewrite app_nil_r. done.
      * exists pre, post. split; [done|]. rewrite fmap_app, fmap_cons, elem_of_app, elem_of_cons in *. tauto.
  - assert (add_unseen acc x = (acc.1 ++ [x], {[hi_tx_hash x]} ∪ acc.2)) as ->
      by (unfold add_unseen; by rewrite decide_False).
    destruct (IH (acc.1 ++ [x], {[hi_tx_hash x]} ∪ acc.2)) as (H1 & H2 & H3); cbn [fst snd] in *.
    + rewrite fmap_app. apply NoDup_app. split_and!; [done| |apply NoDup_singleton].
      intros h Hh E%list_elem_of_singleton. subst. by apply Hseen in Hh.
    + intros h. rewrite fmap_app, elem_of_app, elem_of_union, elem_of_singleton, Hseen.
      change (hi_tx_hash <$> [x]) with [hi_tx_hash x]. rewrite list_elem_of_singleton. tauto.
    + split_and!; [done..|]. intros e. rewrite H3, elem_of_app, list_elem_of_singleton. split.
      * intros [[?| ->]|(pre & post & -> & Hn)]; [by left|right|right].
        -- exists [], l. split; [done|]. rewrite app_nil_r. by rewrite <- Hseen.
        -- exists (x :: pre), post. split; [done|]. by rewrite <- app_assoc in Hn.
      * intros [?|([|y pre] & post & [= -> ->] & Hn)]; [by left; left|by left; right|].
        right. exists pre, post. split; [done|]. by rewrite <- app_assoc.
Qed.

Lemma add_unseen_hashes l acc : (forall h, h ∈ acc.2 <-> h ∈ hi_tx_hash <$> acc.1) -> forall t,
  t ∈ hi_tx_hash <$> (foldl add_unseen acc l).1 <-> t ∈ hi_tx_hash <$> acc.1 ++ l.
Proof.
  revert acc; induction l as [|x l IH]; intros acc Hseen t; [by rewrite app_nil_r|].
  cbn [foldl]. destruct (decide (hi_tx_hash x ∈ acc.2)) as [Hx|Hx].
  - assert (add_unseen acc x = acc) as -> by (unfold add_unseen; by rewrite decide_True).
    rewrite IH by done. apply Hseen in Hx. rewrite !fmap_app, fmap_cons, !elem_of_app, elem_of_cons.
    split; [tauto|]. intros [?|[->|?]]; auto.
  - assert (add_unseen acc x = (acc.1 ++ [x], {[hi_tx_hash x]} ∪ acc.2)) as ->
      by (unfold add_unseen; by rewrite decide_False).
    rewrite IH; cbn [fst snd]; [by rewrite <- app_assoc|].
    intros h. rewrite fmap_app, elem_of_app, elem_of_union, elem_of_singleton, Hseen.
    change (hi_tx_hash <$> [x]) with [hi_tx_hash x]. rewrite list_elem_of_singleton. tauto.
Qed.

Lemma StronglySorted_weaken {A} (R S : A -> A -> Prop) l :
  (forall a b, R a b -> S a b) -> StronglySorted R l -> StronglySorted S l.
Proof.
  intros HRS. induction 1 as [|x l _ IH Hx]; constructor; [done|]. eapply Forall_impl; [exact Hx|auto].
Qed.

(** ** The loop over the history keys *)

Section History.
Context {P : Pebble} {PL : PebbleLaws P} {PH : PebbleHealthy P PL} {B : Btcd} {BL : BtcdLaws B} {Zs : Zstd}.

Lemma GetBlockTxids_run h d : healthy d -> exists r d', GetBlockTxids h d = (r, d') /\
  healthy d' /\ contents d' = contents d /\ to_option r = block_txids_at (contents d) h.
Proof.
  intros Hd. unfold GetBlockTxids, block_txids_at.
  destruct (MakeBlockTxidsKey h) as [k|e] eqn:Ek.
  2:{ exists (Err e), d. rewrite (st_bind_err (st_lift _) _ d e d) by done. split_and!; [done..|].
      destruct (Z.ltb_spec h 0); [done|].
      by rewrite (proj2 (MakeBlockTxidsKey_Ok h _) (conj H eq_refl)) in Ek. }
  apply MakeBlockTxidsKey_Ok in Ek as [H0 ->]. destruct (Z.ltb_spec h 0); [lia|].
  rewrite (st_bind_run (st_lift _) _ d (PrefixBlockTx :: be_encode 4 (u32 h)) d) by done.
  destruct (get_healthy (PrefixBlockTx :: be_encode 4 (u32 h)) d Hd) as (d1 & E1 & Hd1 & Hc1).
  destruct (contents d !! _) as [v|] eqn:Ev; cbn [mbind option_bind].
  - exists (decode_txids v), d1. split_and!; [|done..].
    unfold get_value, mbind, st_bind in *. by rewrite E1.
  - eexists (Err _), d1. split_and!; [|done..].
    unfold get_value, mbind, st_bind in *. by rewrite E1.
Qed.

(** The cache holds what the database has. *)
Definition cache_ok (c : gmap bytes bytes) (cache : gmap Z (list bytes)) : Prop :=
  forall h txids, cache !! h = Some txids -> block_txids_at c h = Some txids.

Lemma history_step_run c acc kv d : healthy d -> contents d = c -> cache_ok c acc.2 ->
  exists cache' d', history_entry_step acc kv d =
      (Ok (match history_key_item c kv with Some e => add_unseen acc.1 e | None => acc.1 end, cache'), d') /\
    healthy d' /\ contents d' = c /\ cache_ok c cache'.
Proof.
  intros Hd Hc Hcache. destruct acc as [[history seen] cache]. cbn [fst snd] in *.
  unfold history_entry_step, history_key_item, history_tx, add_unseen.
  destruct (ParseHistoryKey kv.1) as [[[[sh h] i] x]|]; [|by exists cache, d].
  assert (Hread : exists r d', (match cache !! h with
      | Some txids => mret (Ok txids) | None => st_try (GetBlockTxids h) end : st pdb _) d = (Ok r, d') /\
      healthy d' /\ contents d' = c /\ to_option r = block_txids_at c h).
  { destruct (cache !! h) as [txids|] eqn:E.
    - exists (Ok txids), d. by rewrite (Hcache _ _ E).
    - destruct (GetBlockTxids_run h d Hd) as (r & d' & E1 & ? & ? & ?).
      exists r, d'. rewrite (st_try_run _ _ _ _ E1). rewrite <- Hc. auto. }
  destruct Hread as (r & d' & E & Hd' & Hc' & Hr). rewrite (st_bind_run _ _ _ _ _ E).
  rewrite <- Hr. destruct r as [txids|e]; cbn [to_option mbind option_bind]; [|by exists cache, d'].
  assert (Hcache' : cache_ok c (<[h := txids]> cache)).
  { intros h' ts. destruct (decide (h = h')) as [<-|]; [|rewrite lookup_insert_ne by done; apply Hcache].
    rewrite lookup_insert_eq. by intros [= <-]. }
  destruct (txids !! Z.to_nat i) as [t|]; cbn [mbind option_bind]; [|by exists (<[h := txids]> cache), d'].
  cbn [fst snd hi_tx_hash]. case_decide; by exists (<[h := txids]> cache), d'.
Qed.

Lemma history_loop_run c es : forall acc d, healthy d -> contents d = c -> cache_ok c acc.2 ->
  exists cache' d', st_foldM history_entry_step acc es d =
      (Ok (foldl add_unseen acc.1 (omap (history_key_item c) es), cache'), d') /\
    healthy d' /\ contents d' = c.
Proof.
  induction es as [|kv es IH]; intros acc d Hd Hc Hcache; cbn [st_foldM].
  { exists acc.2, d. by destruct acc. }
  destruct (history_step_run c acc kv d Hd Hc Hcache) as (cache1 & d1 & E1 & Hd1 & Hc1 & Hcache1).
  rewrite (st_bind_run _ _ _ _ _ E1).
  destruct (IH (match history_key_item c kv with Some e => add_unseen acc.1 e | None => acc.1 end, cache1) d1)
    as (cache2 & d2 & E2 & Hd2 & Hc2); [done..|].
  exists cache2, d2. rewrite E2. split; [|done]. do 3 f_equal. cbn [fst omap list_omap].
  by destruct (history_key_item c kv).
Qed.

Lemma mempool_loop acc l :
  foldl history_mempool_step acc l = foldl add_unseen acc ((fun t => mkHistoryItem t 0) <$> l).
Proof.
  revert acc; induction l as [|t l IH]; intros acc; [done|]. rewrite fmap_cons. cbn [foldl]. rewrite <- IH.
  f_equal. destruct acc as [history seen]. done.
Qed.

Lemma prefix_scan p d : healthy d -> exists it d', NewPrefixIterator p d = (Ok it, d') /\
  healthy d' /\ contents d' = contents d /\ it_entries it = entries_in p (PrefixUpperBound p) (contents d).
Proof.
  intros Hd. destruct (iter_healthy p (PrefixUpperBound p) d Hd) as (it & d' & E & ? & ? & _ & ?).
  exists it, d'. split_and!; [|done..]. unfold NewPrefixIterator. by apply st_wrap_Ok.
Qed.

Lemma hkey_bounds sh k h i x : length sh = 32%nat -> ParseHistoryKey k = Ok (sh, h, i, x) ->
  in_bounds (PrefixHistory :: sh) (PrefixUpperBound (PrefixHistory :: sh)) k = true.
Proof.
  intros Hl (_ & _ & _ & _ & ->)%ParseHistoryKey_Ok. apply Is_true_true.
  apply in_bounds_prefix_long; [len|]. by eexists.
Qed.

Lemma history_bounds_inv sh k sh' h i x : length sh = 32%nat ->
  in_bounds (PrefixHistory :: sh) (PrefixUpperBound (PrefixHistory :: sh)) k = true ->
  ParseHistoryKey k = Ok (sh', h, i, x) -> sh' = sh.
Proof.
  intros Hl Hb (Hl' & _ & _ & _ & ->)%ParseHistoryKey_Ok. apply Is_true_true in Hb.
  apply in_bounds_prefix_long in Hb as [r E]; [|len]. injection E as E.
  by apply app_inj_1 in E as [? _]; [|lia].
Qed.

(** The confirmed part of a history: the items of the scanned keys. *)
Lemma history_items_spec c sh e : length sh = 32%nat ->
  e ∈ omap (history_key_item c)
        (entries_in (PrefixHistory :: sh) (PrefixUpperBound (PrefixHistory :: sh)) c) <->
  confirmed_at c sh e.
Proof.
  intros Hl. rewrite list_elem_of_omap. split.
  - intros ([k v] & [Hk Hb]%entries_in_spec & E). unfold history_key_item in E. cbn [fst] in E.
    destruct (ParseHistoryKey k) as [[[[sh' h] i] x]|] eqn:Ep; [|done].
    assert (sh' = sh) as -> by (by eapply history_bounds_inv).
    apply ParseHistoryKey_Ok in Ep as (_ & Hh & Hi & Hx & ->).
    destruct (history_tx c h i) as [t|] eqn:Et; [|done]. injection E as <-.
    exists i, x, t. split_and!; [done..|by eexists|done|done].
  - intros (i & x & t & Hh & Hi & Hx & [v Hk] & Ht & E).
    exists (hkey sh (hi_height e) i x, v). rewrite entries_in_spec.
    assert (Ep : ParseHistoryKey (hkey sh (hi_height e) i x) = Ok (sh, hi_height e, i, x))
      by (by apply ParseHistoryKey_Ok).
    split; [split; [done|by eapply hkey_bounds]|]. unfold history_key_item. cbn [fst]. rewrite Ep, Ht.
    cbn [mbind option_bind]. destruct e. simpl in *. by subst.
Qed.

(** The items of the scanned keys, those of the overlay, and the run. *)
Definition history_items (c : gmap bytes bytes) (sh : bytes) : list history_item :=
  omap (history_key_item c) (entries_in (PrefixHistory :: sh) (PrefixUpperBound (PrefixHistory :: sh)) c).

Definition overlay_items (ord : range_order) (mempool : MempoolOverlay) (sh : bytes) : list history_item :=
  (fun t => mkHistoryItem t 0) <$> GetScripthashTransactions ord sh mempool.

Definition history_of (sorter : slice_sort) (ord : range_order) (mempool : MempoolOverlay)
    (c : gmap bytes bytes) (sh : bytes) : list history_item :=
  sort_Slice sorter history_less (foldl add_unseen ([], ∅) (history_items c sh ++ overlay_items ord mempool sh)).1.

Lemma history_run sorter ord mempool sh d : healthy d -> length sh = 32%nat ->
  reads (GetScripthashHistory sorter ord mempool sh) d (history_of sorter ord mempool (contents d) sh).
Proof.
  intros Hd Hsh. set (pre := PrefixHistory :: sh).
  destruct (prefix_scan pre d Hd) as (it & d1 & E1 & Hd1 & Hc1 & Hit).
  destruct (history_loop_run (contents d) (it_entries it) ([], ∅, ∅) d1) as (cache & d2 & E2 & Hd2 & Hc2); [done..|].
  exists d2. split; [|done]. unfold GetScripthashHistory, MakeHistoryPrefix, check_len.
  rewrite (st_bind_run (st_lift _) _ d pre d).
  2:{ unfold check. by rewrite bool_decide_eq_true_2 by (by rewrite Hsh). }
  rewrite (st_bind_run _ _ _ _ _ E1), (st_bind_run _ _ _ _ _ E2). cbn [fst].
  unfold history_of. rewrite foldl_app. fold (overlay_items ord mempool sh). unfold history_items. fold pre.
  rewrite <- Hit. destruct (foldl add_unseen ([], ∅) _) as [history seen]. rewrite mempool_loop.
  fold (overlay_items ord mempool sh). by destruct (foldl _ _ (overlay_items ord mempool sh)).
Qed.

End History.

(** ** Unspent outputs *)

(** The database has the output [(t, v)] of scripthash [sh]. *)
Definition stored (c : gmap bytes bytes) (sh t : bytes) (v : Z) (u : UTXOValue) : Prop :=
  length t = 32%nat /\ in_u32 v /\ exists bs, c !! ukey sh t v = Some bs /\ DecodeUTXOValue bs = Ok u.

Definition scan_utxos (c : gmap bytes bytes) (sh : bytes) : list (bytes * Z * UTXOValue) :=
  omap utxo_entry (entries_in (PrefixUTXO :: sh) (PrefixUpperBound (PrefixUTXO :: sh)) c).

Lemma utxo_entry_inv k bs t v u : utxo_entry (k, bs) = Some (t, v, u) -> exists sh,
  ParseUTXOKey k = Ok (sh, t, v) /\ DecodeUTXOValue bs = Ok u.
Proof.
  unfold utxo_entry. cbn [fst snd]. destruct (ParseUTXOKey k) as [[[sh' t'] v']|]; [|done].
  destruct (DecodeUTXOValue bs); [|done]. intros [= -> -> ->]. eauto.
Qed.

Lemma utxo_key_in c sh k bs sh' t v : length sh = 32%nat ->
  (k, bs) ∈ entries_in (PrefixUTXO :: sh) (PrefixUpperBound (PrefixUTXO :: sh)) c ->
  ParseUTXOKey k = Ok (sh', t, v) -> sh' = sh.
Proof.
  intros Hl [_ Hb]%entries_in_spec (Hl' & _ & _ & ->)%ParseUTXOKey_Ok. apply Is_true_true in Hb.
  apply in_bounds_prefix_long in Hb as [r E]; [|len]. injection E as E.
  by apply app_inj_1 in E as [? _]; [|lia].
Qed.

Lemma scan_utxos_spec c sh t v u : length sh = 32%nat -> (t, v, u) ∈ scan_utxos c sh <-> stored c sh t v u.
Proof.
  intros Hl. unfold scan_utxos, stored. rewrite list_elem_of_omap. split.
  - intros ([k bs] & Hin & (sh' & Hp & Hdec)%utxo_entry_inv).
    assert (sh' = sh) as -> by (by eapply utxo_key_in).
    apply ParseUTXOKey_Ok in Hp as (_ & Ht & Hv & ->). apply entries_in_spec in Hin as [Hk _].
    split_and!; [done..|]. by exists bs.
  - intros (Ht & Hv & bs & Hk & Hdec). exists (ukey sh t v, bs).
    assert (Hp : ParseUTXOKey (ukey sh t v) = Ok (sh, t, v)) by (by apply ParseUTXOKey_Ok).
    split; [|unfold utxo_entry; cbn [fst snd]; by rewrite Hp, Hdec].
    apply entries_in_spec. split; [done|]. apply Is_true_true, in_bounds_prefix_long; [|by eexists].
    unfold ukey. len.
Qed.

Lemma scan_utxos_NoDup c sh : length sh = 32%nat -> NoDup ((fun x => (x.1.1, x.1.2)) <$> scan_utxos c sh).
Proof.
  intros Hl. unfold scan_utxos.
  pose proof (entries_in_NoDup (PrefixUTXO :: sh) (PrefixUpperBound (PrefixUTXO :: sh)) c) as Hnd.
  assert (Hall : forall kv, kv ∈ entries_in (PrefixUTXO :: sh) (PrefixUpperBound (PrefixUTXO :: sh)) c ->
    forall sh' t v, ParseUTXOKey kv.1 = Ok (sh', t, v) -> kv.1 = ukey sh t v).
  { intros [k bs] Hin sh' t v Hp. cbn [fst] in *. assert (sh' = sh) as -> by (by eapply utxo_key_in).
    by apply ParseUTXOKey_Ok in Hp as (_ & _ & _ & ->). }
  revert Hnd Hall. generalize (entries_in (PrefixUTXO :: sh) (PrefixUpperBound (PrefixUTXO :: sh)) c) as es.
  induction es as [|[k bs] es IH]; intros Hnd Hall; [constructor|].
  rewrite fmap_cons in Hnd. apply NoDup_cons in Hnd as [Hn Hnd]. cbn [fst] in Hn.
  assert (IH' := IH Hnd (fun kv H => Hall kv (list_elem_of_further _ _ _ H))).
  cbn [omap list_omap]. destruct (utxo_entry (k, bs)) as [[[t v] u]|] eqn:E; [|done].
  rewrite fmap_cons. constructor; [|done]. cbn [fst snd]. intros Hin. apply Hn.
  apply utxo_entry_inv in E as (sh' & Hp & _).
  rewrite (Hall (k, bs) ltac:(left) sh' t v Hp : k = _).
  apply list_elem_of_fmap in Hin as ([[t' v'] u'] & [= -> ->] & Hin).
  apply list_elem_of_omap in Hin as ([k' bs'] & Hin & E'). apply utxo_entry_inv in E' as (sh2 & Hp' & _).
  apply list_elem_of_fmap. exists (k', bs'). split; [|done].
  by rewrite (Hall (k', bs') ltac:(right; done) sh2 t' v' Hp').
Qed.

(** ** Balances *)

Definition sum_values (l : list (bytes * Z * UTXOValue)) : Z := foldr (fun x s => uv_Value x.2 + s) 0 l.

Definition spent_in {B : Btcd} (mempool : MempoolOverlay) (x : bytes * Z * UTXOValue) : bool :=
  IsOutputSpent x.1.1 x.1.2 mempool.

Lemma i64_add_l a b : i64 (i64 a + b) = i64 (a + b).
Proof.
  unfold i64. replace ((a + 2 ^ 63) `mod` 2 ^ 64 - 2 ^ 63 + b + 2 ^ 63) with ((a + 2 ^ 63) `mod` 2 ^ 64 + b) by lia.
  rewrite Zplus_mod_idemp_l. f_equal. f_equal. lia.
Qed.

Lemma balance_loop {B : Btcd} mempool es a b :
  foldl (balance_step mempool) (i64 a, i64 b) es =
  (i64 (a + sum_values (filter (fun x => spent_in mempool x = false) (omap utxo_entry es))),
   i64 (b - sum_values (filter (fun x => spent_in mempool x = true) (omap utxo_entry es)))).
Proof.
  revert a b; induction es as [|kv es IH]; intros a b.
  { simpl. by rewrite Z.add_0_r, Z.sub_0_r. }
  cbn [foldl omap list_omap]. unfold balance_step at 2.
  destruct (utxo_entry kv) as [[[t v] u]|]; [|by rewrite IH].
  change (IsOutputSpent t v mempool) with (spent_in mempool (t, v, u)).
  destruct (spent_in mempool (t, v, u)) eqn:E.
  - rewrite filter_cons_False, (filter_cons_True (fun x => spent_in mempool x = true)) by congruence.
    replace (i64 b - uv_Value u) with (i64 b + - uv_Value u) by lia. rewrite i64_add_l, IH.
    cbn [sum_values foldr snd]. do 2 f_equal. unfold sum_values. lia.
  - rewrite (filter_cons_True (fun x => spent_in mempool x = false)), filter_cons_False by congruence.
    rewrite i64_add_l, IH. cbn [sum_values foldr snd]. do 2 f_equal. unfold sum_values. lia.
Qed.
