(* ===== verification/QueryProps.v ===== *)
(** * Queries: properties *)

From Stdlib Require Import Strings.Byte.
From S2P Require Import Prelude Bytes Hex Keys Values Json Checkpoint Pebble Store Sha256 Types Mempool MempoolFacts MempoolProps Block BlockFacts BlockOps BlockProps Reorg Query QueryFacts.

(** ** Histories *)

Lemma history_less_asym a b : history_less a b = true -> history_less b a = false.
Proof.
  unfold history_less.
  destruct (Z.eqb_spec (hi_height a) 0), (Z.eqb_spec (hi_height b) 0); simpl; try done;
    try (intros H%Z.ltb_lt; apply Z.ltb_ge; lia).
Qed.

(** [~ history_less b a], as an order on heights. *)
Definition history_le (a b : history_item) : Prop :=
  hi_height b = 0 \/ (hi_height a <> 0 /\ hi_height a <= hi_height b).

Lemma history_less_false a b : history_less b a = false <-> history_le a b.
Proof.
  unfold history_less, history_le.
  destruct (Z.eqb_spec (hi_height a) 0), (Z.eqb_spec (hi_height b) 0); simpl; rewrite ?Z.ltb_ge; lia.
Qed.

Lemma history_less_trans a b c :
  history_less b a = false -> history_less c b = false -> history_less c a = false.
Proof. rewrite !history_less_false. unfold history_le. lia. Qed.

Section Properties.
Context {P : Pebble} {PL : PebbleLaws P} {PH : PebbleHealthy P PL} {B : Btcd} {BL : BtcdLaws B} {Zs : Zstd}.

(** What [GetScripthashHistory] answers. *)
Lemma history_answer (sorter : slice_sort) (ord : range_order) (mempool : MempoolOverlay)
    (sh : bytes) (d : pdb) (Hd : healthy d) (Hsh : length sh = 32%nat) :
  exists l, reads (GetScripthashHistory sorter ord mempool sh) d l /\
    NoDup (hi_tx_hash <$> l) /\
    StronglySorted history_le l /\
    (forall e, e ∈ l ->
       confirmed_at (contents d) sh e \/
       (hi_height e = 0 /\ hi_tx_hash e ∈ GetScripthashTransactions ord sh mempool /\
        forall h, ~ confirmed_at (contents d) sh (mkHistoryItem (hi_tx_hash e) h))) /\
    (forall t, t ∈ hi_tx_hash <$> l <->
       (exists h, confirmed_at (contents d) sh (mkHistoryItem t h)) \/
       t ∈ GetScripthashTransactions ord sh mempool).
Proof.
  set (c := contents d).
  pose proof (history_run sorter ord mempool sh d Hd Hsh) as Hrun.
  set (items := history_items c sh) in *.
  set (mp := overlay_items ord mempool sh) in *.
  destruct (add_unseen_spec (items ++ mp) ([], ∅)) as (Hnd & _ & Hin); [constructor|set_solver|].
  set (acc := foldl add_unseen ([], ∅) (items ++ mp)) in *.
  assert (Hitems : forall e, e ∈ items <-> confirmed_at c sh e).
  { intros e. by apply history_items_spec. }
  assert (Hmp : forall e, e ∈ mp <-> hi_height e = 0 /\ hi_tx_hash e ∈ GetScripthashTransactions ord sh mempool).
  { intros e. unfold mp, overlay_items. rewrite list_elem_of_fmap. split; [by intros (t & -> & Ht)|].
    intros [E Ht]. exists (hi_tx_hash e). split; [|done]. destruct e. simpl in *. by subst. }
  assert (Hperm : sort_Slice sorter history_less acc.1 ≡ₚ acc.1) by apply sort_Slice_perm.
  exists (sort_Slice sorter history_less acc.1). split_and!.
  - exact Hrun.
  - by rewrite Hperm.
  - pose proof (sort_Slice_sorted sorter history_less acc.1 history_less_asym history_less_trans) as Hs.
    eapply StronglySorted_weaken; [|exact Hs]. intros a b. apply history_less_false.
  - intros e. rewrite Hperm, Hin. intros [?%elem_of_nil|(p & q & E & Hn)]; [done|].
    assert (He : e ∈ items ++ mp) by (rewrite E; set_solver).
    rewrite elem_of_app, Hitems, Hmp in He. destruct He as [?|[H0 Ht]]; [by left|].
    apply app_eq_inv in E as [(k & Ei & Ek)|(k & -> & _)].
    + destruct k as [|x k].
      * right. split_and!; [done..|]. intros h Hc%Hitems. apply Hn. rewrite Ei, app_nil_r in Hc.
        apply list_elem_of_fmap. exists (mkHistoryItem (hi_tx_hash e) h). by split.
      * injection Ek as <- _. left. apply Hitems. rewrite Ei. set_solver.
    + right. split_and!; [done..|]. intros h Hc%Hitems. apply Hn. cbn [fst].
      rewrite app_nil_l, fmap_app. apply elem_of_app. left. apply list_elem_of_fmap.
      exists (mkHistoryItem (hi_tx_hash e) h). by split.
  - intros t. rewrite Hperm. unfold acc. rewrite add_unseen_hashes by set_solver.
    cbn [fst]. rewrite app_nil_l, fmap_app, elem_of_app, !list_elem_of_fmap. split.
    + intros [(e & -> & He%Hitems)|(e & -> & [_ He]%Hmp)]; [left|by right].
      exists (hi_height e). by destruct e.
    + intros [(h & Hc%Hitems)|Ht]; [left|right].
      * by eexists (mkHistoryItem t h).
      * exists (mkHistoryItem t 0). split; [done|]. by apply Hmp.
Qed.

(** C40: on a healthy database [GetScripthashHistory] lists each transaction of the
    scripthash once: the confirmed ones at a height where the database has them,
    heights ascending, then, at height 0, the overlay's that are not confirmed; none
    is left out. *)
Theorem scripthash_history_exact (sorter : slice_sort) (ord : range_order) (mempool : MempoolOverlay)
    (sh : bytes) (d : pdb) (Hd : healthy d) (Hsh : length sh = 32%nat) :
  exists l, reads (GetScripthashHistory sorter ord mempool sh) d l /\
    NoDup (hi_tx_hash <$> l) /\
    StronglySorted history_le l /\
    (forall e, e ∈ l ->
       confirmed_at (contents d) sh e \/
       (hi_height e = 0 /\ hi_tx_hash e ∈ GetScripthashTransactions ord sh mempool /\
        forall h, ~ confirmed_at (contents d) sh (mkHistoryItem (hi_tx_hash e) h))) /\
    (forall t, t ∈ hi_tx_hash <$> l <->
       (exists h, confirmed_at (contents d) sh (mkHistoryItem t h)) \/
       t ∈ GetScripthashTransactions ord sh mempool).
Proof. by apply history_answer. Qed.

Lemma utxo_scan_run sh d : healthy d -> length sh = 32%nat -> exists it d1,
  (utxoPrefix ← st_lift (MakeUTXOPrefix sh); NewPrefixIterator utxoPrefix) d = (Ok it, d1) /\
  healthy d1 /\ contents d1 = contents d /\ omap utxo_entry (it_entries it) = scan_utxos (contents d) sh.
Proof.
  intros Hd Hsh. destruct (prefix_scan (PrefixUTXO :: sh) d Hd) as (it & d1 & E1 & Hd1 & Hc1 & Hit).
  exists it, d1. split_and!; [|done|done|by rewrite Hit].
  unfold MakeUTXOPrefix, check_len. rewrite (st_bind_run (st_lift _) _ d (PrefixUTXO :: sh) d); [done|].
  unfold check. by rewrite bool_decide_eq_true_2 by (by rewrite Hsh).
Qed.

(** What [GetScripthashUnspent] answers. *)
Lemma unspent_answer (ord : range_order) (mempool : MempoolOverlay) (sh : bytes) (d : pdb)
    (Hd : healthy d) (Hsh : length sh = 32%nat) :
  exists l, reads (GetScripthashUnspent ord mempool sh) d l /\
    forall x, x ∈ l <->
      (exists t v u, stored (contents d) sh t v u /\ IsOutputSpent t v mempool = false /\
         x = mkUnspentItem (TxidToHex t) v (uv_Height u) (uv_Value u)) \/
      (exists o, o ∈ GetUnspentOutputs ord sh mempool /\
         x = mkUnspentItem (TxidToHex (mo_Txid o)) (mo_Vout o) 0 (mo_Value o)).
Proof.
  destruct (utxo_scan_run sh d Hd Hsh) as (it & d1 & E1 & Hd1 & Hc1 & Hit).
  exists (omap (unspent_confirmed mempool) (it_entries it) ++
          (unspent_mempool <$> GetUnspentOutputs ord sh mempool)). split.
  - exists d1. split; [|done]. unfold GetScripthashUnspent.
    rewrite st_bind_Ok in E1. destruct E1 as (p & d2 & E1 & E2).
    by rewrite (st_bind_run _ _ _ _ _ E1), (st_bind_run _ _ _ _ _ E2).
  - intros x. rewrite elem_of_app, list_elem_of_fmap.
    assert (Hx : x ∈ omap (unspent_confirmed mempool) (it_entries it) <->
      exists y, y ∈ omap utxo_entry (it_entries it) /\ spent_in mempool y = false /\
        x = mkUnspentItem (TxidToHex y.1.1) y.1.2 (uv_Height y.2) (uv_Value y.2)).
    { setoid_rewrite list_elem_of_omap. unfold unspent_confirmed, spent_in. split.
      - intros (kv & Hin & E). destruct (utxo_entry kv) as [[[t v] u]|] eqn:Eu; [|done].
        destruct (IsOutputSpent t v mempool) eqn:Es; [done|]. injection E as <-.
        exists (t, v, u). split; [by exists kv|done].
      - intros ([[t v] u] & (kv & Hin & Eu) & Es & ->). cbn [fst snd] in *. exists kv.
        split; [done|]. by rewrite Eu, Es. }
    rewrite Hx, Hit. unfold unspent_mempool. split.
    + intros [([[t v] u] & Hin%scan_utxos_spec & Es & ->)|(o & -> & Ho)]; [left|done|right].
      * by exists t, v, u.
      * by exists o.
    + intros [(t & v & u & Hs & Es & ->)|(o & Ho & ->)]; [left|right].
      * exists (t, v, u). split; [by apply scan_utxos_spec|done].
      * by exists o.
Qed.

(** [GetScripthashUnspent] lists exactly the outputs the database has for
    the scripthash that no transaction of the overlay spends, and the
    overlay's own unspent outputs, these at height 0. *)
Theorem scripthash_unspent_exact (ord : range_order) (mempool : MempoolOverlay) (sh : bytes) (d : pdb)
    (Hd : healthy d) (Hsh : length sh = 32%nat) :
  exists l, reads (GetScripthashUnspent ord mempool sh) d l /\
    forall x, x ∈ l <->
      (exists t v u, stored (contents d) sh t v u /\ IsOutputSpent t v mempool = false /\
         x = mkUnspentItem (TxidToHex t) v (uv_Height u) (uv_Value u)) \/
      (exists o, o ∈ GetUnspentOutputs ord sh mempool /\
         x = mkUnspentItem (TxidToHex (mo_Txid o)) (mo_Vout o) 0 (mo_Value o)).
Proof. by apply unspent_answer. Qed.

(** What [GetScripthashBalance] answers. *)
Lemma balance_answer (ord : range_order) (mempool : MempoolOverlay) (sh : bytes) (d : pdb)
    (Hd : healthy d) (Hsh : length sh = 32%nat) :
  exists l, NoDup l /\ (forall t v u, (t, v, u) ∈ l <-> stored (contents d) sh t v u) /\
    reads (GetScripthashBalance ord mempool sh) d
      (mkBalance (i64 (sum_values (filter (fun x => spent_in mempool x = false) l)))
         (i64 (GetBalance ord sh mempool - sum_values (filter (fun x => spent_in mempool x = true) l)))).
Proof.
  destruct (utxo_scan_run sh d Hd Hsh) as (it & d1 & E1 & Hd1 & Hc1 & Hit).
  exists (scan_utxos (contents d) sh). split_and!.
  - by eapply NoDup_fmap_1, scan_utxos_NoDup.
  - intros t v u. by apply scan_utxos_spec.
  - exists d1. split; [|done]. unfold GetScripthashBalance.
    rewrite st_bind_Ok in E1. destruct E1 as (p & d2 & E1 & E2).
    rewrite (st_bind_run _ _ _ _ _ E1), (st_bind_run _ _ _ _ _ E2).
    pose proof (balance_loop mempool (it_entries it) 0 0) as Hl. change (i64 0) with 0 in Hl.
    rewrite Hl, Hit, i64_add_l. unfold mret, st_ret. do 4 f_equal. lia.
Qed.

(** What [GetScripthashBalance] computes, modulo 2^64: as confirmed the
    stored outputs the overlay does not spend, as unconfirmed the overlay's own
    balance less the stored outputs it spends. *)
Theorem scripthash_balance_sums (ord : range_order) (mempool : MempoolOverlay) (sh : bytes) (d : pdb)
    (Hd : healthy d) (Hsh : length sh = 32%nat) :
  exists l, NoDup l /\ (forall t v u, (t, v, u) ∈ l <-> stored (contents d) sh t v u) /\
    reads (GetScripthashBalance ord mempool sh) d
      (mkBalance (i64 (sum_values (filter (fun x => spent_in mempool x = false) l)))
         (i64 (GetBalance ord sh mempool - sum_values (filter (fun x => spent_in mempool x = true) l)))).
Proof. by apply balance_answer. Qed.

(** ** Transactions *)

Context {ZL : ZstdLaws Zs}.

(** Where a transaction ends in the blob. *)
Lemma blob_end raws n raw : Z.of_nat (length (mjoin raws)) < 2 ^ 32 -> raws !! n = Some raw ->
  match blob_offsets 0 raws !! S n with Some e => e | None => u32 (Z.of_nat (length (mjoin raws))) end =
  Z.of_nat (length (mjoin (take n raws)) + length raw).
Proof.
  intros Hs Hr.
  assert (Ht : length (mjoin (take (S n) raws)) = (length (mjoin (take n raws)) + length raw)%nat).
  { rewrite (take_S_r raws n raw Hr), join_app, length_app. simpl. by rewrite app_nil_r. }
  destruct (raws !! S n) as [raw'|] eqn:E.
  - rewrite (blob_offsets_lookup raws (S n) 0 raw') by done. by rewrite Nat.add_0_l, Ht.
  - apply lookup_ge_None in E. rewrite lookup_ge_None_2 by (by rewrite length_blob_offsets).
    rewrite take_ge in Ht by done. rewrite <- Ht. apply u32_id. unfold in_u32. lia.
Qed.

(** C37: once its block is indexed, a transaction is served from the database
    with the block's height, byte for byte as it was serialised. *)
Theorem indexed_tx_served (ord : range_order) (block : MsgBlock) (h : Z) (w w' : world) (d : pdb)
    (n : nat) (tx : MsgTx) (raw : bytes)
    (Hnd : NoDup (TxHash <$> block_Transactions block)) (Hh : in_i32 h)
    (Hn : Z.of_nat (length (block_Transactions block)) < 2 ^ 32)
    (Hsize : forall raws, Forall2 (fun tx raw => tx_Serialize tx = Ok raw) (block_Transactions block) raws ->
       Z.of_nat (length (mjoin raws)) < 2 ^ 32)
    (Hindex : IndexBlock ord block h w = (Ok (), w'))
    (Hd : healthy d) (Hsame : confirmed_same (contents (w_db w')) (contents d))
    (Htx : block_Transactions block !! n = Some tx) (Hraw : tx_Serialize tx = Ok raw) :
  reads (getTxFromDB (TxidToHex (TxHash tx))) d (Some (EncodeToString raw, h)).
Proof.
  apply IndexBlock_Ok in Hindex as (undo & hss & Hix); [|done].
  pose proof Hix as (ops & Bb & _). pose proof (bb_height _ _ _ _ _ _ Bb) as H0.
  apply records_after in Hix as
    (header & buf & raws & z & ud & cp & _ & _ & H3 & H4 & _ & _ & _ & _ & _ & _ & K3 & K4 & _ & _ & K7); [|done].
  specialize (K7 n tx Htx). rewrite <- Hsame in K3, K4, K7 by done. specialize (Hsize raws H3).
  pose proof (lookup_lt_Some _ _ _ Htx) as Hlt.
  rewrite u32_id in K7 by (unfold in_u32; lia).
  destruct (Forall2_lookup_l _ _ _ _ _ H3 Htx) as (raw' & Hr & E). rewrite Hraw in E. injection E as <-.
  destruct (reads_GetTxPos (TxHash tx) h (Z.of_nat n) d) as (d1 & E1 & Hd1 & C1);
    [done|apply length_TxHash|done|unfold in_u32; lia|done|].
  destruct (reads_GetTxBlob h (mjoin raws) z d1) as (d2 & E2 & Hd2 & C2); [done|done|done|by rewrite C1|].
  destruct (reads_GetTxOffsets h (blob_offsets 0 raws) d2) as (d3 & E3 & Hd3 & C3);
    [done|done|apply blob_offsets_u32|by rewrite C2, C1|].
  exists d3. split; [|by rewrite C3, C2, C1]. unfold getTxFromDB.
  rewrite TxidFromHex_ToHex by apply length_TxHash.
  assert (Hint : forall A (m : st pdb A) w a w1, m w = (Ok a, w1) -> internal m w = (Ok a, w1)).
  { intros A m w0 a w1 Em. unfold internal. by rewrite Em. }
  rewrite (st_bind_run _ _ _ _ _ (Hint _ _ _ _ _ E1)), (st_bind_run _ _ _ _ _ (Hint _ _ _ _ _ E2)),
    (st_bind_run _ _ _ _ _ (Hint _ _ _ _ _ E3)).
  rewrite Nat2Z.id, (blob_offsets_lookup raws n 0 raw) by done.
  rewrite (blob_end raws n raw) by done. rewrite Nat.add_0_l, !Nat2Z.id.
  assert (Hlen : (length (mjoin (take n raws)) + length raw <= length (mjoin raws))%nat).
  { rewrite <- (take_drop_middle raws n raw Hr) at 2. rewrite join_app, !length_app. simpl.
    rewrite length_app. lia. }
  destruct (Z.ltb_spec (Z.of_nat (length (mjoin raws)))
    (Z.of_nat (length (mjoin (take n raws)) + length raw))); [lia|].
  destruct (Z.ltb_spec (Z.of_nat (length (mjoin (take n raws)) + length raw))
    (Z.of_nat (length (mjoin (take n raws))))); [lia|]. cbn [orb].
  unfold slice. rewrite Nat.add_comm, Nat.add_sub. by rewrite blob_slice.
Qed.

End Properties.

(** ** Concrete runs *)

(** [sort.Slice] by merge sort. *)
Definition not_after (less : history_item -> history_item -> bool) (a b : history_item) : Prop :=
  less b a = false.

#[export] Instance not_after_dec less a b : Decision (not_after less a b).
Proof. unfold not_after. apply _. Defined.

Lemma merge_sorter_sorted (less : history_item -> history_item -> bool) l :
  (forall a b, less a b = true -> less b a = false) ->
  (forall a b c, less b a = false -> less c b = false -> less c a = false) ->
  StronglySorted (fun a b => less b a = false) (merge_sort (not_after less) l).
Proof.
  intros Ha Ht. assert (Transitive (not_after less)) by (intros a b c; apply Ht).
  assert (Total (not_after less)).
  { intros a b. unfold not_after. destruct (less b a) eqn:E; [right; by apply Ha|by left]. }
  apply (StronglySorted_merge_sort (not_after less)).
Qed.

Definition merge_sorter : slice_sort :=
  mkSliceSort (fun less l => merge_sort (not_after less) l)
    (fun less l => merge_sort_Permutation _ l) merge_sorter_sorted.

(** The chain of three blocks, and an overlay that spends an output of it. *)
Definition with_spend : @world MemPebble ModelBtcd :=
  (AddTransaction id_order 0 (spender x40 x20) indexed2).2.

Lemma indexed2_healthy : healthy (w_db indexed2).
Proof. apply is_none_eq. vm_compute. reflexivity. Qed.

Lemma with_spend_healthy : healthy (w_db with_spend).
Proof. apply is_none_eq. vm_compute. reflexivity. Qed.

Lemma scripthash_history_exact_witness :
  exists l, reads (GetScripthashHistory merge_sorter id_order (w_mp with_spend) (ComputeScripthash sample_script2))
      (w_db with_spend) l /\
    NoDup (hi_tx_hash <$> l) /\ StronglySorted history_le l.
Proof.
  destruct (scripthash_history_exact merge_sorter id_order (w_mp with_spend) (ComputeScripthash sample_script2)
    (w_db with_spend)) as (l & H1 & H2 & H3 & _);
    [apply with_spend_healthy | apply length_ComputeScripthash |].
  exists l. split; [exact H1 | split; [exact H2 | exact H3]].
Defined.

Lemma scripthash_unspent_exact_witness :
  exists l, reads (GetScripthashUnspent id_order (w_mp with_spend) (ComputeScripthash sample_script2))
      (w_db with_spend) l.
Proof.
  destruct (scripthash_unspent_exact id_order (w_mp with_spend) (ComputeScripthash sample_script2)
    (w_db with_spend)) as (l & H1 & _);
    [apply with_spend_healthy | apply length_ComputeScripthash |].
  exists l. exact H1.
Defined.

Lemma scripthash_balance_sums_witness :
  exists l, NoDup l /\
    reads (GetScripthashBalance id_order (w_mp with_spend) (ComputeScripthash sample_script2)) (w_db with_spend)
      (mkBalance (i64 (sum_values (filter (fun x => spent_in (w_mp with_spend) x = false) l)))
         (i64 (GetBalance id_order (ComputeScripthash sample_script2) (w_mp with_spend) -
               sum_values (filter (fun x => spent_in (w_mp with_spend) x = true) l)))).
Proof.
  destruct (scripthash_balance_sums id_order (w_mp with_spend) (ComputeScripthash sample_script2)
    (w_db with_spend)) as (l & H1 & _ & H2);
    [apply with_spend_healthy | apply length_ComputeScripthash |].
  exists l. split; [exact H1 | exact H2].
Defined.

Lemma indexed_tx_served_witness :
  reads (getTxFromDB (TxidToHex (replicate 32 x21))) (w_db indexed2)
    (Some (EncodeToString (replicate 32 x21), 2)).
Proof.
  apply (indexed_tx_served id_order block2 2 indexed1 indexed2 (w_db indexed2) 1 (spender x21 x10)
    (replicate 32 x21));
    [apply (bool_decide_eq_true_1 _); vm_compute; reflexivity
    | apply (bool_decide_eq_true_1 _); vm_compute; reflexivity | reflexivity |
    | apply indexed2_run | apply indexed2_healthy | intros k _; reflexivity | reflexivity | reflexivity].
  intros raws H. assert (raws = [replicate 32 x20; replicate 32 x21]) as ->; [|reflexivity].
  apply Forall2_cons_inv_l in H as (r1 & l1 & E1 & H & ->).
  apply Forall2_cons_inv_l in H as (r2 & l2 & E2 & H & ->).
  apply Forall2_nil_inv_l in H as ->. injection E1 as <-. injection E2 as <-. reflexivity.
Defined.

(** An output that a transaction of the overlay spends is subtracted
    twice: a scripthash that received 5000000000 in a block and whose only
    output is now being spent has a balance of 0 confirmed and -10000000000
    unconfirmed. *)
Theorem spent_output_counted_twice :
  let sh := ComputeScripthash sample_script in
  let w := (AddTransaction id_order 0 (spender x41 x10) indexed1).2 in
  (GetScripthashBalance id_order (w_mp indexed1) sh (w_db indexed1)).1 = Ok (mkBalance 5000000000 0) /\
  (GetScripthashBalance id_order (w_mp w) sh (w_db w)).1 = Ok (mkBalance 0 (-10000000000)).
Proof. vm_compute. auto. Qed.

(** The block that replaces [block2] after a reorganisation. *)
Definition block2' : @MsgBlock ModelBtcd :=
  mkBlock (mkHeader (replicate 32 x52) (replicate 32 x01))
    [sample_coinbase x50 sample_script2; spender x51 x10].

Definition reorganised : @world MemPebble ModelBtcd :=
  (IndexBlock id_order block2' 2 (mkWorld (rollbackBlock 2 (replicate 32 x02) (w_db indexed2)).2 (w_mp indexed2))).2.

(** A rollback leaves the positions of the transactions it undoes: after
    another block took the place of theirs, asking for one of them returns a
    different transaction, the one at the same position of the new block. *)
Theorem rolled_back_tx_misread :
  (getTxFromDB (TxidToHex (replicate 32 x21)) (w_db indexed2)).1 =
    Ok (Some (EncodeToString (replicate 32 x21), 2)) /\
  (getTxFromDB (TxidToHex (replicate 32 x21)) (w_db reorganised)).1 =
    Ok (Some (EncodeToString (replicate 32 x51), 2)).
Proof. vm_compute. auto. Qed.
