(* ===== verification/MerkleProps.v ===== *)
(** * Merkle proofs: properties *)

From Stdlib Require Import Strings.Byte.
From S2P Require Import Prelude Bytes Hex Keys Values Json Checkpoint Pebble Store Sha256 Types Mempool MempoolFacts MempoolProps Query.

Section Merkle.
Context {P : Pebble} {PL : PebbleLaws P} {PH : PebbleHealthy P PL} {B : Btcd} {BL : BtcdLaws B} {Zs : Zstd}.

(** The root of a complete tree over [2^k] leaves, from the top. *)
Fixpoint merkle_tree (k : nat) (leaves : list bytes) : bytes :=
  match k with
  | O => default [] (head leaves)
  | S k => DoubleHashB (merkle_tree k (take (2 ^ k) leaves) ++ merkle_tree k (drop (2 ^ k) leaves))
  end.

(** The root a client computes from a leaf, its position and its branch. *)
Fixpoint verify_branch (h : bytes) (pos : nat) (branch : list bytes) : bytes :=
  match branch with
  | [] => h
  | b :: branch =>
      verify_branch (if Nat.even pos then DoubleHashB (h ++ b) else DoubleHashB (b ++ h)) (pos / 2) branch
  end.

(** The root by levels, odd levels included. *)
Fixpoint merkle_root (n : nat) (level : list bytes) : bytes :=
  match n with
  | O => default [] (head level)
  | S n => match level with [root] => root | _ => merkle_root n (next_level level) end
  end.

Lemma copy32_id h : length h = 32%nat -> copy32 h = h.
Proof. intros Hl. unfold copy32. rewrite take_app_le, take_ge by lia. done. Qed.

Lemma copy32_hash b : copy32 (DoubleHashB b) = DoubleHashB b.
Proof. apply copy32_id, length_DoubleHashB. Qed.

Lemma next_level_app m : forall l1 l2, length l1 = (2 * m)%nat ->
  next_level (l1 ++ l2) = next_level l1 ++ next_level l2.
Proof.
  induction m as [|m IH]; intros l1 l2 Hl; [by destruct l1|].
  destruct l1 as [|a [|b l1]]; simpl in Hl; try lia. simpl. f_equal. apply IH. lia.
Qed.

Lemma length_next_level m : forall l, length l = (2 * m)%nat -> length (next_level l) = m.
Proof.
  induction m as [|m IH]; intros l Hl; [by destruct l|].
  destruct l as [|a [|b l]]; simpl in Hl; try lia. simpl. f_equal. apply IH. lia.
Qed.

Lemma next_level_lookup q : forall l a b, l !! (2 * q)%nat = Some a -> l !! (2 * q + 1)%nat = Some b ->
  next_level l !! q = Some (DoubleHashB (a ++ b)).
Proof.
  induction q as [|q IH]; intros l a b Ha Hb.
  - destruct l as [|x [|y l]]; simpl in *; try done. injection Ha as ->. injection Hb as ->.
    by rewrite copy32_hash.
  - destruct l as [|x [|y l]]; [done|simpl in *; by rewrite Nat.add_succ_r in Ha|].
    replace (2 * S q)%nat with (S (S (2 * q))) in Ha by lia.
    replace (2 * S q + 1)%nat with (S (S (2 * q + 1))) in Hb by lia. by apply IH.
Qed.

Lemma merkle_tree_next k : forall l, length l = (2 ^ S k)%nat ->
  merkle_tree (S k) l = merkle_tree k (next_level l).
Proof.
  induction k as [|k IH]; intros l Hl.
  { destruct l as [|a [|b [|]]]; try done. simpl. by rewrite copy32_hash. }
  change (merkle_tree (S (S k)) l) with
    (DoubleHashB (merkle_tree (S k) (take (2 ^ S k) l) ++ merkle_tree (S k) (drop (2 ^ S k) l))).
  assert (Hp : (2 ^ S (S k) = 2 ^ S k + 2 ^ S k)%nat) by (simpl; lia).
  assert (Hp' : (2 ^ S k = 2 * 2 ^ k)%nat) by (simpl; lia).
  rewrite !IH by (rewrite ?length_take, ?length_drop; lia).
  cbn [merkle_tree]. do 2 f_equal; f_equal.
  - rewrite <- (take_drop (2 ^ S k) l) at 2. rewrite (next_level_app (2 ^ k)) by (rewrite length_take; lia).
    rewrite take_app_length'; [done|].
    symmetry. apply length_next_level. rewrite length_take. lia.
  - rewrite <- (take_drop (2 ^ S k) l) at 2. rewrite (next_level_app (2 ^ k)) by (rewrite length_take; lia).
    rewrite drop_app_length'; [done|].
    symmetry. apply length_next_level. rewrite length_take. lia.
Qed.

Lemma lxor_1_even q : Nat.lxor (2 * q) 1 = (2 * q + 1)%nat.
Proof.
  apply Nat.bits_inj. intros [|n]; rewrite Nat.lxor_spec.
  - by rewrite Nat.testbit_even_0, Nat.testbit_odd_0.
  - rewrite Nat.testbit_even_succ, Nat.testbit_odd_succ by lia.
    change 1%nat with (2 * 0 + 1)%nat at 1. by rewrite Nat.testbit_odd_succ, Nat.bits_0, xorb_false_r by lia.
Qed.

Lemma lxor_1_odd q : Nat.lxor (2 * q + 1) 1 = (2 * q)%nat.
Proof. by rewrite <- (lxor_1_even q), Nat.lxor_assoc, Nat.lxor_nilpotent, Nat.lxor_0_r. Qed.

Lemma branch_loop_verifies k : forall n level pos acc h, (k <= n)%nat -> length level = (2 ^ k)%nat ->
  level !! pos = Some h ->
  exists bs, branch_loop n level pos acc = acc ++ (EncodeToString <$> bs) /\ length bs = k /\
    verify_branch h pos bs = merkle_tree k level.
Proof.
  induction k as [|k IH]; intros n level pos acc h Hn Hl Hp.
  { exists []. destruct level as [|x [|]]; try done. destruct pos; [|done]. injection Hp as ->.
    rewrite app_nil_r. by destruct n. }
  assert (Hpow : (0 < 2 ^ k)%nat) by (apply Nat.neq_0_lt_0, Nat.pow_nonzero; lia).
  assert (Hl2 : length level = (2 * 2 ^ k)%nat) by (rewrite Hl; simpl; lia).
  destruct n as [|n]; [lia|]. cbn [branch_loop].
  destruct (Nat.leb_spec (length level) 1); [lia|].
  pose proof (lookup_lt_Some _ _ _ Hp) as Hlt.
  destruct (Nat.Even_or_Odd pos) as [[q ->]|[q ->]].
  - rewrite lxor_1_even. destruct (lookup_lt_is_Some_2 level (2 * q + 1)) as [b Hb]; [lia|].
    rewrite Hb. pose proof (next_level_lookup q level h b Hp Hb) as Hq.
    replace (2 * q / 2)%nat with q by (rewrite Nat.mul_comm, Nat.div_mul; lia).
    destruct (IH n (next_level level) q (acc ++ [EncodeToString b]) _ ltac:(lia)
      (length_next_level _ _ Hl2) Hq) as (bs & E & Hbs & Hv).
    exists (b :: bs). rewrite E, <- app_assoc. split_and!; [done|simpl; lia|].
    cbn [verify_branch]. rewrite Nat.even_even.
    replace (2 * q / 2)%nat with q by (rewrite Nat.mul_comm, Nat.div_mul; lia).
    by rewrite Hv, merkle_tree_next.
  - rewrite lxor_1_odd. destruct (lookup_lt_is_Some_2 level (2 * q)) as [b Hb]; [lia|].
    rewrite Hb. pose proof (next_level_lookup q level b h Hb Hp) as Hq.
    assert (Hdiv : ((2 * q + 1) / 2 = q)%nat) by (rewrite Nat.add_comm, Nat.mul_comm, Nat.div_add; simpl; lia).
    rewrite Hdiv.
    destruct (IH n (next_level level) q (acc ++ [EncodeToString b]) _ ltac:(lia)
      (length_next_level _ _ Hl2) Hq) as (bs & E & Hbs & Hv).
    exists (b :: bs). rewrite E, <- app_assoc. split_and!; [done|simpl; lia|].
    cbn [verify_branch]. rewrite Nat.even_odd, Hdiv. by rewrite Hv, merkle_tree_next.
Qed.

(** C38: in a block whose number of transactions is a power of two, the branch
    of a merkle proof has the tree's height, and folding the transaction with
    it along its position gives the merkle root. *)
Theorem merkle_proof_verifies (h : Z) (txids : list bytes) (txid : bytes) (pos k : nat) (d : pdb)
    (Hread : reads (GetBlockTxids h) d txids) (Hlen : Forall (fun t => length t = 32%nat) txids)
    (Hnd : NoDup txids) (Hpow : length txids = (2 ^ k)%nat) (Hpos : txids !! pos = Some txid) :
  exists branch, reads (GetTransactionMerkleProof txid h) d
      (mkMerkleProof h pos (EncodeToString <$> branch)) /\
    length branch = k /\ verify_branch txid pos branch = merkle_tree k txids.
Proof.
  assert (Hcopy : copy32 <$> txids = txids).
  { rewrite <- (list_fmap_id txids) at 2. apply list_fmap_ext. intros i t Ht.
    apply copy32_id. rewrite Forall_forall in Hlen. by apply Hlen, list_elem_of_lookup_2 with i. }
  assert (Hk : (k <= 2 ^ k)%nat) by (apply Nat.lt_le_incl, Nat.pow_gt_lin_r; lia).
  destruct (branch_loop_verifies k (length txids) txids pos [] txid) as (bs & E & Hbs & Hv); [lia|done|done|].
  exists bs. split_and!; [|done|done]. destruct Hread as (d1 & E1 & Hd1 & Hc1). exists d1.
  split; [|done]. unfold GetTransactionMerkleProof. rewrite (st_bind_run _ _ _ _ _ E1).
  assert (Hfind : list_find (fun id => id = txid) txids = Some (pos, txid)).
  { apply list_find_Some. split_and!; [done..|]. intros j y Hj Hlt ->.
    pose proof (NoDup_lookup _ _ _ _ Hnd Hj Hpos). lia. }
  assert (Hb : buildMerkleBranch txids pos = EncodeToString <$> bs).
  { unfold buildMerkleBranch. destruct (Nat.eqb_spec (length txids) 1) as [H1|H1].
    - destruct k as [|k]; [by destruct bs|]. rewrite H1 in Hpow. simpl in Hpow.
      pose proof (Nat.pow_nonzero 2 k). lia.
    - rewrite Hcopy, E. done. }
  rewrite Hfind, Hb. by destruct txids.
Qed.

End Merkle.

Definition leaf (b : byte) : bytes := replicate 31 x00 ++ [b].

Lemma merkle_proof_verifies_witness :
  exists branch, reads (GetTransactionMerkleProof (B := ModelBtcd) (leaf x02) 7)
      (memory {[PrefixBlockTx :: be_encode 4 7 := leaf x01 ++ leaf x02]} None)
      (mkMerkleProof 7 1 (EncodeToString <$> branch)) /\
    length branch = 1%nat /\
    verify_branch (B := ModelBtcd) (leaf x02) 1 branch = merkle_tree 1 [leaf x01; leaf x02].
Proof.
  apply (merkle_proof_verifies (B := ModelBtcd) 7 [leaf x01; leaf x02] (leaf x02) 1 1);
    [eexists; split; [vm_compute; reflexivity | split; reflexivity]
    | repeat constructor | apply (bool_decide_eq_true_1 _); vm_compute; reflexivity
    | reflexivity | reflexivity].
Defined.

(** With an odd number of nodes on a level the last one has no entry in
    its branch, although its parent is a hash of it with itself: the proof of
    the third of three transactions does not lead to the root, and would with
    the missing entry.  The entries are hexadecimal in internal byte order, not
    reversed as every other hash the server sends. *)
Theorem merkle_branch_odd_level :
  let a := leaf x01 in let b := leaf x02 in let c := leaf x03 in
  let ab := DoubleHashB (Btcd := ModelBtcd) (a ++ b) in
  let root := merkle_root (B := ModelBtcd) 3 [a; b; c] in
  buildMerkleBranch (B := ModelBtcd) [a; b; c] 2 = [EncodeToString ab] /\
  verify_branch (B := ModelBtcd) c 2 [ab] <> root /\
  verify_branch (B := ModelBtcd) c 2 [c; ab] = root /\
  buildMerkleBranch (B := ModelBtcd) [a; b] 0 = [EncodeToString b] /\
  EncodeToString b <> TxidToHex b.
Proof.
  cbv zeta. split_and!; [vm_compute; reflexivity| |vm_compute; reflexivity|vm_compute; reflexivity|].
  - apply (bool_decide_eq_false_1 _). vm_compute. reflexivity.
  - apply (bool_decide_eq_false_1 _). vm_compute. reflexivity.
Qed.
