(* ===== verification/Server.v ===== *)
(** * Subscriptions and cached statuses: [internal/electrum/subscriptions.go],
    [internal/electrum/status_cache.go] and [ComputeScripthashStatusHex] of
    [server.go]

    A [*ConnWriter] is its address.  A [map\[k\]bool] that only ever holds
    [true] is a set.  Each exported method holds the lock throughout, so it is
    one step; the sends of a notification are given as the set of connections
    they go to. *)

From Stdlib Require Import Strings.Byte.
From S2P Require Import Prelude Bytes Hex Keys Values Json Checkpoint Pebble Store Sha256 Types Mempool.

(** ** Subscriptions *)

Definition conn : Type := positive.

Record SubscriptionManager := mkSubscriptionManager {
  scripthashSubs : gmap string (gset conn);
  connScripthash : gmap conn (gset string);
  headerSubs : gset conn;
}.

Definition NewSubscriptionManager : SubscriptionManager := mkSubscriptionManager ∅ ∅ ∅.

(** [m\[k\]\[v\] = true], making [m\[k\]] if it is nil. *)
Definition set_insert `{Countable K, Countable V} (k : K) (v : V) (m : gmap K (gset V)) :
    gmap K (gset V) :=
  <[k := {[v]} ∪ default ∅ (m !! k)]> m.

(** [if s, ok := m\[k\]; ok { delete(s, v); if len(s) == 0 { delete(m, k) } }] *)
Definition set_delete `{Countable K, Countable V} (k : K) (v : V) (m : gmap K (gset V)) :
    gmap K (gset V) :=
  match m !! k with
  | None => m
  | Some s => if decide (size (s ∖ {[v]}) = 0%nat) then delete k m else <[k := s ∖ {[v]}]> m
  end.

Definition SubscribeScripthash (w : conn) (scripthash : string) (sm : SubscriptionManager) :
    SubscriptionManager :=
  mkSubscriptionManager (set_insert scripthash w (scripthashSubs sm))
    (set_insert w scripthash (connScripthash sm)) (headerSubs sm).

Definition UnsubscribeScripthash (w : conn) (scripthash : string) (sm : SubscriptionManager) :
    SubscriptionManager :=
  mkSubscriptionManager (set_delete scripthash w (scripthashSubs sm))
    (set_delete w scripthash (connScripthash sm)) (headerSubs sm).

Definition SubscribeHeaders (w : conn) (sm : SubscriptionManager) : SubscriptionManager :=
  mkSubscriptionManager (scripthashSubs sm) (connScripthash sm) ({[w]} ∪ headerSubs sm).

Definition UnsubscribeHeaders (w : conn) (sm : SubscriptionManager) : SubscriptionManager :=
  mkSubscriptionManager (scripthashSubs sm) (connScripthash sm) (headerSubs sm ∖ {[w]}).

Definition Unsubscribe (ord : range_order) (w : conn) (sm : SubscriptionManager) : SubscriptionManager :=
  let sm :=
    match connScripthash sm !! w with
    | None => sm
    | Some scripthashes =>
        mkSubscriptionManager
          (foldl (fun m sh => set_delete sh w m) (scripthashSubs sm) (range_set ord 0 scripthashes))
          (delete w (connScripthash sm)) (headerSubs sm)
    end in
  mkSubscriptionManager (scripthashSubs sm) (connScripthash sm) (headerSubs sm ∖ {[w]}).

(** [params] of a notification: the scripthash and its status, nil if empty. *)
Definition NotifyScripthash (scripthash status : string) (sm : SubscriptionManager) :
    gset conn * (string * option string) :=
  (default ∅ (scripthashSubs sm !! scripthash),
   (scripthash, if decide (status = ""%string) then None else Some status)).

Definition NotifyNewBlock (height : Z) (headerHex : string) (sm : SubscriptionManager) :
    gset conn * (Z * string) :=
  (headerSubs sm, (height, headerHex)).

Definition GetScripthashSubscriberCount (scripthash : string) (sm : SubscriptionManager) : nat :=
  match scripthashSubs sm !! scripthash with Some conns => size conns | None => 0 end.

Definition GetHeaderSubscriberCount (sm : SubscriptionManager) : nat := size (headerSubs sm).

Definition GetTotalSubscriptions (sm : SubscriptionManager) : nat * nat * nat :=
  (size (scripthashSubs sm), size (headerSubs sm), size (connScripthash sm)).

Definition GetSubscribedScripthashes (ord : range_order) (sm : SubscriptionManager) : list string :=
  (range_map ord 0 (scripthashSubs sm)).*1.

Definition IsScripthashSubscribed (scripthash : string) (sm : SubscriptionManager) : bool :=
  match scripthashSubs sm !! scripthash with
  | Some conns => (0 <? size conns)%nat
  | None => false
  end.

(** ** The status cache *)

Record StatusCache := mkStatusCache { sc_status : gmap string string; sc_dirty : gset string }.

Definition NewStatusCache : StatusCache := mkStatusCache ∅ ∅.

(** [None] is [("", false)]. *)
Definition GetIfClean (scripthashHex : string) (c : StatusCache) : option string :=
  if decide (scripthashHex ∈ sc_dirty c) then None else sc_status c !! scripthashHex.

Definition SetClean (scripthashHex status : string) (c : StatusCache) : StatusCache :=
  mkStatusCache (<[scripthashHex := status]> (sc_status c)) (sc_dirty c ∖ {[scripthashHex]}).

Definition MarkDirty (scripthashHex : string) (c : StatusCache) : StatusCache :=
  mkStatusCache (sc_status c) ({[scripthashHex]} ∪ sc_dirty c).

Definition MarkDirtyMany (scripthashHexes : list string) (c : StatusCache) : StatusCache :=
  mkStatusCache (sc_status c) (list_to_set scripthashHexes ∪ sc_dirty c).

(** The server around the cache: what [ComputeScripthashStatus] would return
    for each scripthash now, the scripthashes whose data changed and that are
    still to be marked dirty, and the calls of [ComputeScripthashStatusHex]
    that have computed a status and not yet stored it. *)
Record cache_state := mkCacheState {
  cs_cache : StatusCache;
  cs_truth : gmap string string;
  cs_tomark : gset string;
  cs_running : list (string * string);
}.

Definition current (s : cache_state) (sh : string) : string := default ""%string (cs_truth s !! sh).

(** With [atomic] no call stops between computing and storing. *)
Inductive cache_step (atomic : bool) : cache_state -> cache_state -> Prop :=
| cstep_change s sh v :
    cache_step atomic s (mkCacheState (cs_cache s) (<[sh := v]> (cs_truth s)) ({[sh]} ∪ cs_tomark s)
                           (cs_running s))
| cstep_mark s shs : list_to_set shs ⊆ cs_tomark s ->
    cache_step atomic s (mkCacheState (MarkDirtyMany shs (cs_cache s)) (cs_truth s)
                           (cs_tomark s ∖ list_to_set shs) (cs_running s))
| cstep_call s sh : GetIfClean sh (cs_cache s) = None ->
    cache_step atomic s
      (mkCacheState (SetClean sh (current s sh) (cs_cache s)) (cs_truth s) (cs_tomark s) (cs_running s))
| cstep_compute s sh : atomic = false -> GetIfClean sh (cs_cache s) = None ->
    cache_step atomic s
      (mkCacheState (cs_cache s) (cs_truth s) (cs_tomark s) ((sh, current s sh) :: cs_running s))
| cstep_store s sh v pre post : cs_running s = pre ++ (sh, v) :: post ->
    cache_step atomic s
      (mkCacheState (SetClean sh v (cs_cache s)) (cs_truth s) (cs_tomark s) (pre ++ post)).

Definition cache_state0 (truth : gmap string string) : cache_state :=
  mkCacheState NewStatusCache truth ∅ [].
