(* ===== verification/ServerProps.v ===== *)
(** * Subscriptions and cached statuses: properties *)

From Stdlib Require Import Strings.Byte.
From S2P Require Import Prelude Bytes Hex Keys Values Json Checkpoint Pebble Store Sha256 Types Mempool MempoolFacts MempoolProps Server.

(** ** Maps of sets *)

Section Sets.
Context `{Countable K, Countable V}.
Implicit Types (k : K) (v : V) (m : gmap K (gset V)).

Definition no_empty (m : gmap K (gset V)) : Prop := forall k s, m !! k = Some s -> s <> ∅.

Lemma elem_set_insert k v m k' v' :
  v' ∈ default ∅ (set_insert k v m !! k') <-> v' ∈ default ∅ (m !! k') \/ (k' = k /\ v' = v).
Proof.
  unfold set_insert. destruct (decide (k' = k)) as [->|Hne].
  - rewrite lookup_insert_eq. simpl. set_solver.
  - rewrite lookup_insert_ne by done. naive_solver.
Qed.

Lemma no_empty_insert k v m : no_empty m -> no_empty (set_insert k v m).
Proof.
  intros Hm k' s. unfold set_insert. destruct (decide (k' = k)) as [->|Hne].
  - rewrite lookup_insert_eq. intros [= <-]. set_solver.
  - rewrite lookup_insert_ne by done. apply Hm.
Qed.

Lemma elem_set_delete k v m k' v' :
  v' ∈ default ∅ (set_delete k v m !! k') <-> v' ∈ default ∅ (m !! k') /\ ~ (k' = k /\ v' = v).
Proof.
  unfold set_delete. destruct (m !! k) as [s|] eqn:E.
  2:{ split; [|tauto]. intros Hin. split; [done|]. intros [-> ->]. rewrite E in Hin. set_solver. }
  case_decide as Hs.
  - apply size_empty_inv in Hs. destruct (decide (k' = k)) as [->|Hne].
    + rewrite lookup_delete_eq, E. simpl. set_solver.
    + rewrite lookup_delete_ne by done. naive_solver.
  - destruct (decide (k' = k)) as [->|Hne].
    + rewrite lookup_insert_eq, E. simpl. set_solver.
    + rewrite lookup_insert_ne by done. naive_solver.
Qed.

Lemma no_empty_delete k v m : no_empty m -> no_empty (set_delete k v m).
Proof.
  intros Hm k' s. unfold set_delete. destruct (m !! k) as [s0|] eqn:E; [|apply Hm].
  case_decide as Hs.
  - intros [_ Hk]%lookup_delete_Some. by apply (Hm k').
  - destruct (decide (k' = k)) as [->|Hne].
    + rewrite lookup_insert_eq. intros [= <-] Hemp. by rewrite Hemp, size_empty in Hs.
    + rewrite lookup_insert_ne by done. apply Hm.
Qed.

Lemma elem_delete_all v l m k' v' :
  v' ∈ default ∅ (foldl (fun m k => set_delete k v m) m l !! k') <->
  v' ∈ default ∅ (m !! k') /\ ~ (k' ∈ l /\ v' = v).
Proof.
  revert m; induction l as [|k l IH]; intros m; cbn [foldl]; [set_solver|].
  rewrite IH, elem_set_delete. set_solver.
Qed.

Lemma no_empty_delete_all v l m : no_empty m -> no_empty (foldl (fun m k => set_delete k v m) m l).
Proof. revert m; induction l as [|k l IH]; intros m Hm; [done|]. by apply IH, no_empty_delete. Qed.

Lemma no_empty_lookup m k : no_empty m -> is_Some (m !! k) <-> exists v, v ∈ default ∅ (m !! k).
Proof.
  intros Hm. split.
  - intros [s E]. rewrite E. apply set_choose_L. by eapply Hm.
  - intros [v Hv]. destruct (m !! k); [done|]. set_solver.
Qed.

End Sets.

(** ** Subscriptions *)

(** The relation the manager stores, twice. *)
Definition subscribed (sm : SubscriptionManager) (w : conn) (sh : string) : Prop :=
  w ∈ default ∅ (scripthashSubs sm !! sh).

Record subs_wf (sm : SubscriptionManager) : Prop := {
  sw_mirror w sh : w ∈ default ∅ (scripthashSubs sm !! sh) <-> sh ∈ default ∅ (connScripthash sm !! w);
  sw_scripthash : no_empty (scripthashSubs sm);
  sw_conn : no_empty (connScripthash sm);
}.

(** The calls on a manager, in any order. *)
Inductive subs_step (sm : SubscriptionManager) : SubscriptionManager -> Prop :=
| sstep_subscribe w sh : subs_step sm (SubscribeScripthash w sh sm)
| sstep_unsubscribe w sh : subs_step sm (UnsubscribeScripthash w sh sm)
| sstep_headers w : subs_step sm (SubscribeHeaders w sm)
| sstep_unheaders w : subs_step sm (UnsubscribeHeaders w sm)
| sstep_drop ord w : subs_step sm (Unsubscribe ord w sm).

Lemma subscribed_drop ord w sm w' sh : subs_wf sm ->
  subscribed (Unsubscribe ord w sm) w' sh <-> subscribed sm w' sh /\ w' <> w.
Proof.
  intros [Hm _ _]. unfold subscribed, Unsubscribe. cbn [scripthashSubs].
  destruct (connScripthash sm !! w) as [shs|] eqn:E; cbn [scripthashSubs].
  - rewrite elem_delete_all, elem_of_range_set. split; [|tauto]. intros [H1 H2]. split; [done|].
    intros ->. apply H2. split; [|done]. apply Hm in H1. by rewrite E in H1.
  - split; [|tauto]. intros H1. split; [done|]. intros ->. apply Hm in H1. rewrite E in H1. set_solver.
Qed.

Lemma subs_step_wf sm sm' : subs_wf sm -> subs_step sm sm' -> subs_wf sm'.
Proof.
  intros Hwf Hs. pose proof Hwf as [Hm H1 H2]. destruct Hs as [w sh|w sh|w|w|ord w]; try by split.
  - split; [|by apply no_empty_insert..]. intros w' sh'. cbn [SubscribeScripthash scripthashSubs connScripthash].
    rewrite !elem_set_insert, Hm. tauto.
  - split; [|by apply no_empty_delete..]. intros w' sh'. cbn [UnsubscribeScripthash scripthashSubs connScripthash].
    rewrite !elem_set_delete, Hm. tauto.
  - split.
    + intros w' sh'. pose proof (subscribed_drop ord w sm w' sh' Hwf) as Hd. unfold subscribed in Hd.
      rewrite Hd, Hm. unfold Unsubscribe. cbn [connScripthash].
      destruct (connScripthash sm !! w) as [shs|] eqn:E; cbn [connScripthash].
      * destruct (decide (w' = w)) as [->|Hne].
        -- rewrite lookup_delete_eq. simpl. set_solver.
        -- rewrite lookup_delete_ne by done. tauto.
      * split; [tauto|]. intros Hin. split; [done|]. intros ->. rewrite E in Hin. set_solver.
    + unfold Unsubscribe. cbn [scripthashSubs].
      destruct (connScripthash sm !! w); [by apply no_empty_delete_all|done].
    + unfold Unsubscribe. cbn [connScripthash]. destruct (connScripthash sm !! w) as [shs|]; [|done].
      intros k s. cbn [connScripthash]. rewrite lookup_delete_Some. intros [_ Hk]. by apply (H2 k).
Qed.

(** C39: whatever the calls so far, the two maps of the manager are the same
    relation between connections and scripthashes and hold no empty set;
    subscribing adds one pair, unsubscribing removes it, dropping a connection
    removes all of its pairs and its header subscription; notifications go to
    exactly the subscribed connections, and a scripthash is listed exactly
    while it has one. *)
Theorem subscriptions_consistent (sm : SubscriptionManager) (ord : range_order) (w : conn) (sh : string)
    (Hreach : rtc subs_step NewSubscriptionManager sm) :
  subs_wf sm /\
  (forall w' sh', subscribed (SubscribeScripthash w sh sm) w' sh' <->
     subscribed sm w' sh' \/ (w' = w /\ sh' = sh)) /\
  (forall w' sh', subscribed (UnsubscribeScripthash w sh sm) w' sh' <->
     subscribed sm w' sh' /\ ~ (w' = w /\ sh' = sh)) /\
  (forall w' sh', subscribed (Unsubscribe ord w sm) w' sh' <-> subscribed sm w' sh' /\ w' <> w) /\
  w ∉ headerSubs (Unsubscribe ord w sm) /\
  (forall status, w ∈ (NotifyScripthash sh status sm).1 <-> subscribed sm w sh) /\
  (sh ∈ GetSubscribedScripthashes ord sm <-> exists w', subscribed sm w' sh) /\
  (IsScripthashSubscribed sh sm = true <-> exists w', subscribed sm w' sh).
Proof.
  assert (Hwf : subs_wf sm).
  { assert (H0 : subs_wf NewSubscriptionManager) by (split; [set_solver|by intros ? ?..]).
    revert H0. induction Hreach as [|a b c Hstep _ IH]; [done|]. intros H0. apply IH. by eapply subs_step_wf. }
  pose proof (no_empty_lookup (scripthashSubs sm) sh (sw_scripthash sm Hwf)) as Hsome.
  split_and!.
  - done.
  - intros w' sh'. unfold subscribed. cbn [SubscribeScripthash scripthashSubs]. rewrite elem_set_insert. tauto.
  - intros w' sh'. unfold subscribed. cbn [UnsubscribeScripthash scripthashSubs]. rewrite elem_set_delete. tauto.
  - intros w' sh'. by apply subscribed_drop.
  - unfold Unsubscribe. cbn [headerSubs]. set_solver.
  - done.
  - unfold GetSubscribedScripthashes. unfold subscribed. by rewrite <- Hsome, elem_of_range_keys.
  - unfold IsScripthashSubscribed, subscribed. rewrite <- Hsome.
    destruct (scripthashSubs sm !! sh) as [s|] eqn:E; [|split; [done|by intros []]].
    split; [by eexists|]. intros _. apply Nat.ltb_lt. pose proof (sw_scripthash sm Hwf sh s E) as Hne.
    destruct (size s) eqn:Es; [|lia]. by apply size_empty_inv in Es; apply leibniz_equiv in Es.
Qed.

Lemma subscriptions_consistent_witness :
  let sm := SubscribeScripthash 2%positive "aa" (SubscribeScripthash 1%positive "aa" NewSubscriptionManager) in
  subscribed (Unsubscribe id_order 1%positive sm) 2%positive "aa" <-> subscribed sm 2%positive "aa" /\ 2%positive <> 1%positive.
Proof.
  apply (subscriptions_consistent
    (SubscribeScripthash 2%positive "aa" (SubscribeScripthash 1%positive "aa" NewSubscriptionManager)) id_order 1%positive "aa").
  eapply rtc_l; [apply (sstep_subscribe _ 1%positive "aa") |].
  eapply rtc_l; [apply (sstep_subscribe _ 2%positive "aa") | apply rtc_refl].
Defined.

(** ** The status cache *)

(** As long as no call of [ComputeScripthashStatusHex] overlaps another
    step between computing and storing, a status served from the cache is the
    current one, or its scripthash has changed and is still to be marked
    dirty. *)
Theorem clean_status_current (truth : gmap string string) (s : cache_state) (sh status : string)
    (Hreach : rtc (cache_step true) (cache_state0 truth) s)
    (Hclean : GetIfClean sh (cs_cache s) = Some status) :
  status = current s sh \/ sh ∈ cs_tomark s.
Proof.
  assert (Hinv : cs_running s = [] /\
    forall sh v, GetIfClean sh (cs_cache s) = Some v -> v = current s sh \/ sh ∈ cs_tomark s); [|by apply Hinv].
  clear Hclean. assert (H0 : cs_running (cache_state0 truth) = [] /\ forall sh v,
    GetIfClean sh (cs_cache (cache_state0 truth)) = Some v ->
    v = current (cache_state0 truth) sh \/ sh ∈ cs_tomark (cache_state0 truth)).
  { split; [done|]. intros sh' v. unfold GetIfClean. simpl. by case_decide. }
  revert H0. induction Hreach as [|a b c Hstep _ IH]; [done|]. intros [Hr Hi]. apply IH.
  destruct Hstep as [a sh' v'|a shs Hsub|a sh' Hn|a sh' Hat Hn|a sh' v' pre post E].
  - split; [done|]. intros k v Hk. apply Hi in Hk. cbn [cs_tomark]. unfold current. cbn [cs_truth].
    destruct (decide (k = sh')) as [->|Hne]; [right; set_solver|].
    rewrite lookup_insert_ne by done. destruct Hk; [by left|right; set_solver].
  - split; [done|]. intros k v. cbn [cs_cache cs_tomark]. unfold GetIfClean, MarkDirtyMany.
    cbn [sc_status sc_dirty]. case_decide as Hd; [done|]. intros Hk.
    destruct (Hi k v) as [?|?]; [|by left|right].
    + unfold GetIfClean. rewrite decide_False by set_solver. done.
    + set_solver.
  - split; [done|]. intros k v. cbn [cs_cache cs_tomark]. unfold GetIfClean, SetClean.
    cbn [sc_status sc_dirty]. case_decide as Hd; [done|].
    destruct (decide (k = sh')) as [->|Hne].
    + rewrite lookup_insert_eq. intros [= <-]. by left.
    + rewrite lookup_insert_ne by done. intros Hk. apply Hi. unfold GetIfClean.
      rewrite decide_False by set_solver. done.
  - done.
  - rewrite Hr in E. by destruct pre.
Qed.

Lemma clean_status_current_witness :
  "s1"%string = current (mkCacheState (SetClean "aa" "s1" NewStatusCache) {["aa" := "s1"]} ∅ []) "aa" \/
  "aa"%string ∈ cs_tomark (mkCacheState (SetClean "aa" "s1" NewStatusCache) {["aa" := "s1"]} ∅ []).
Proof.
  apply (clean_status_current {["aa" := "s1"]}
    (mkCacheState (SetClean "aa" "s1" NewStatusCache) {["aa" := "s1"]} ∅ []) "aa" "s1");
    [|vm_compute; reflexivity].
  eapply rtc_l; [apply (cstep_call true (cache_state0 {["aa" := "s1"]}) "aa"); reflexivity | apply rtc_refl].
Defined.

(** When it does overlap, the cache can go wrong for good: a status computed
    before a change and stored after the scripthash was marked dirty clears the
    mark, and the old status is served although nothing is pending. *)
Theorem stale_status_served :
  exists s, rtc (cache_step false) (cache_state0 {["aa"%string := "old"%string]}) s /\
    GetIfClean "aa" (cs_cache s) = Some "old"%string /\ current s "aa" = "new"%string /\
    cs_tomark s = ∅ /\ cs_running s = [].
Proof.
  eexists. split; [|].
  - eapply rtc_l; [apply (cstep_compute false (cache_state0 {["aa"%string := "old"%string]}) "aa"); done|].
    eapply rtc_l; [apply (cstep_change false _ "aa" "new")|].
    eapply rtc_l; [apply (cstep_mark false _ ["aa"%string]); set_solver|].
    eapply rtc_l; [apply (cstep_store false _ "aa" "old" [] []); done|]. apply rtc_refl.
  - split_and!; [vm_compute; reflexivity..|apply set_eq; set_solver|done].
Qed.
