(* ===== verification/Typed.v ===== *)
(** * The types of the stored values

    The database is a map of bytes to bytes; which values a key may hold is
    decided by its first byte.  [typed_db] is that convention as an invariant:
    every value under a confirmed key decodes as its kind.  It holds of the empty
    database and survives every operation that writes confirmed data, whether it
    succeeds or fails; on a typed and healthy database [IndexBlock] does not
    fail on account of what is stored. *)

From Stdlib Require Import Strings.Byte.
From S2P Require Import Prelude Bytes Hex Keys Values Json Checkpoint Pebble Store Sha256 Types Mempool MempoolFacts MempoolProps Block BlockFacts BlockOps BlockProps Reorg ReorgFacts ReorgProps.

Section Typed.
Context {Zs : Zstd}.

(** The values of each kind of key. *)
Definition value_ok (k v : bytes) : bool :=
  match k with
  | [] => true
  | p :: _ =>
      if decide (p = PrefixTxIndex) then bool_decide (length v = 32%nat)
      else if decide (p = PrefixUTXO) then is_Ok (DecodeUTXOValue v)
      else if decide (p = PrefixHeader) then bool_decide (length v = 80%nat)
      else if decide (p = PrefixBlockTx) then is_Ok (decode_txids v)
      else if decide (p = PrefixTxPos) then is_Ok (decode_txpos v)
      else if decide (p = PrefixTxOffs) then is_Ok (decode_offsets v)
      else if decide (p = PrefixTxBlob) then is_Ok (decompressZstd v)
      else if decide (p = PrefixUndo) then is_Ok (DecodeUndoBlock v)
      else if decide (p = PrefixHistory) then bool_decide (v = [])
      else if decide (k = KeyCheckpoint)
           then bool_decide ((json_Unmarshal v zeroCheckpoint).2 = None)
      else true
  end.

Definition typed_db (c : gmap bytes bytes) : Prop :=
  forall k v, confirmed_key k -> c !! k = Some v -> value_ok k v = true.

Definition op_typed (o : batch_op) : Prop :=
  match o with BSet k v => confirmed_key k -> value_ok k v = true | BDelete _ => True end.

Lemma typed_same c c' : confirmed_same c c' -> typed_db c -> typed_db c'.
Proof. intros Hs Ht k v Hk. rewrite Hs by done. by apply Ht. Qed.

Lemma typed_ops ops c : Forall op_typed ops -> typed_db c -> typed_db (apply_ops ops c).
Proof.
  revert c; induction ops as [|o ops IH]; intros c; [done|].
  intros [Ho Hops]%Forall_cons Hc. apply IH; [done|]. intros k v Hk.
  rewrite apply_op_lookup. case_decide as E; [|by apply Hc].
  destruct o as [k' v'|k']; simpl in *; [|done]. subst. intros [= ->]. by apply Ho.
Qed.

(** ** Decoders that take every value of a length *)

Lemma is_Ok_DecodeUTXOValue u : is_Ok (DecodeUTXOValue (EncodeUTXOValue u)) = true.
Proof.
  unfold DecodeUTXOValue, check.
  by rewrite bool_decide_eq_true_2 by apply length_EncodeUTXOValue.
Qed.

Lemma created_typed o op : sized o -> op ∈ created_ops o -> op_typed op.
Proof.
  intros [Hs _]. rewrite created_ops_elem. intros [->| ->] _.
  - apply is_Ok_DecodeUTXOValue.
  - simpl. by apply bool_decide_eq_true.
Qed.

(** [read_inv]: take a sequence of reads apart. *)
Ltac read_inv :=
  repeat first [go_inv_1; simplify_eq/= | match goal with x : (_ * _)%type |- _ => destruct x end].

(** A record that decodes has fields of the right lengths. *)
Lemma reader_Read_length n r b r' : reader_Read n r = Ok (b, r') -> length b = n.
Proof.
  unfold reader_Read. destruct r as [|x l]; [done|]. generalize (x :: l). intros l'.
  intros [= <- _]. rewrite length_app, length_take, length_replicate. lia.
Qed.

Lemma read_output_sized r o r' : read_output r = Ok (o, r') -> sized o.
Proof.
  unfold read_output. intros H. read_inv.
  split; cbn; eapply reader_Read_length; eassumption.
Qed.

Lemma read_history_sized r e r' : read_history r = Ok (e, r') -> length (uh_Scripthash e) = 32%nat.
Proof.
  unfold read_history. intros H. read_inv.
  eapply reader_Read_length; eassumption.
Qed.

Lemma read_many_Forall {A} (f : bytes -> result (A * bytes)) (Q : A -> Prop) n r l r' :
  (forall r x r', f r = Ok (x, r') -> Q x) -> read_many f n r = Ok (l, r') -> Forall Q l.
Proof.
  intros Hf. revert r l r'; induction n as [|n IH]; intros r l r'; cbn [read_many].
  { intros [= <- _]. constructor. }
  intros H. read_inv.
  constructor; [by eapply Hf|by eapply IH].
Qed.

Lemma DecodeUndoBlock_sized v u : DecodeUndoBlock v = Ok u -> undo_sized u.
Proof.
  unfold DecodeUndoBlock. intros H. read_inv.
  split; cbn; [apply Forall_app; split|];
    (eapply read_many_Forall; [|eassumption]); eauto using read_output_sized, read_history_sized.
Qed.

Section Steps.
Context {P : Pebble} {PL : PebbleLaws P} {B : Btcd} {BL : BtcdLaws B} {ZL : ZstdLaws Zs}.

(** ** What the operations write *)

Lemma checkpoint_typed cp : json_wf cp -> op_typed (BSet KeyCheckpoint (json_Marshal cp)).
Proof.
  intros Hcp _. change (bool_decide ((json_Unmarshal (json_Marshal cp) zeroCheckpoint).2 = None) = true).
  rewrite json_Unmarshal_Marshal by done. by apply bool_decide_eq_true.
Qed.

Lemma blob_typed z raw h : compressZstd raw = Ok z -> op_typed (BSet (PrefixTxBlob :: h) z).
Proof.
  unfold compressZstd. rewrite zstd_writer. intros [= <-] _. cbn. unfold decompressZstd.
  rewrite zstd_reader. cbn [mbind result_bind]. by rewrite zstd_roundtrip.
Qed.

Lemma undo_counts c block h undo hss ops : block_batch c block h undo hss ops ->
  Z.of_nat (length (block_spent c (block_Transactions block)) +
    length (block_created (header_BlockHash (block_Header block)) h (block_Transactions block)))
    < 2 ^ 32 ->
  Z.of_nat (length (ub_SpentOutputs undo) + length (ub_CreatedOutputs undo)) < 2 ^ 32.
Proof. intros Bb. by rewrite (bb_undo _ _ _ _ _ _ Bb). Qed.

Lemma block_ops_typed c block h undo hss ops : block_batch c block h undo hss ops -> in_i32 h ->
  Z.of_nat (length (block_spent c (block_Transactions block)) +
    length (block_created (header_BlockHash (block_Header block)) h (block_Transactions block)))
    < 2 ^ 32 ->
  Forall op_typed ops.
Proof.
  intros Bb Hh Hn.
  destruct (block_undo_wf _ _ _ _ _ _ Bb Hh (undo_counts _ _ _ _ _ _ Bb Hn)) as [Hwf _].
  pose proof (bb_undo _ _ _ _ _ _ Bb) as Hu.
  pose proof (bb_sized _ _ _ _ _ _ Bb) as Hsz. rewrite Forall_app in Hsz. destruct Hsz as [_ Hcr].
  destruct (block_batch_parts _ _ _ _ _ _ Bb)
    as (header & buf & raws & z & d & cp & E1 & E2 & E3 & E4 & E5 & E6 & E7 & E8 & Hops).
  apply Forall_forall. intros o Ho%Hops.
  destruct Ho as [i tx Ht|s Hs|s Hs|s Hs|s Hs|e He| | | | | |]; try done.
  - rewrite Forall_forall in Hcr. eapply (created_typed s); [|left]. apply Hcr. by rewrite Hu.
  - rewrite Forall_forall in Hcr. eapply (created_typed s); [|right; left]. apply Hcr. by rewrite Hu.
  - intros _. apply bool_decide_eq_true. by eapply length_header.
  - intros _. cbn. by rewrite (decode_txids_encode _ _ E2).
  - by eapply blob_typed.
  - intros _. cbn. by rewrite (decode_offsets_encode _ (blob_offsets_u32 _ _)).
  - intros _. cbn. by rewrite (DecodeUndoBlock_Encode _ _ Hwf E5).
  - apply checkpoint_typed. split_and!; [by rewrite E6|done|].
    rewrite E7, hash_String_hex by apply length_BlockHash. apply plain_EncodeToString.
Qed.

Lemma rollback_ops_typed undo h bh : undo_sized undo -> Forall op_typed (rollback_ops undo h bh).
Proof.
  intros [[Hs _]%Forall_app _]. unfold rollback_ops. rewrite !Forall_app. split_and!.
  - apply Forall_forall. intros o (s & Ho & _)%list_elem_of_bind.
    by apply spent_ops_elem in Ho as [->| ->].
  - apply Forall_forall. intros o (s & Ho & Hin)%list_elem_of_bind.
    rewrite Forall_forall in Hs. eapply created_typed; [by apply Hs|done].
  - apply Forall_forall. by intros o (e & -> & _)%list_elem_of_fmap.
  - by repeat constructor.
Qed.

(** ** The operations, whether they succeed or fail *)

Lemma snd_in_db {A} (m : st pdb A) w : w_db (in_db m w).2 = (m (w_db w)).2.
Proof. unfold in_db. by destruct (m (w_db w)). Qed.

Lemma rollbackBlock_typed h bh d : typed_db (contents d) -> typed_db (contents (rollbackBlock h bh d).2).
Proof.
  intros Ht. unfold rollbackBlock.
  pose proof (rel_GetUndo h bh d) as Hs. unfold db_same in Hs.
  destruct (GetUndo h bh d) as [[u|e] d1] eqn:E; cbn [snd] in Hs.
  2:{ rewrite (st_bind_err (st_wrap _ _) _ d (EWrap "failed to load undo data: " e "") d1)
        by (unfold st_wrap; by rewrite E). cbn. by rewrite Hs. }
  rewrite (st_bind_run (st_wrap _ _) _ d u d1) by (by apply st_wrap_Ok).
  assert (Hu : undo_sized u).
  { revert E. unfold GetUndo. rewrite !st_bind_Ok. intros (k & d2 & _ & H).
    rewrite st_bind_Ok in H. destruct H as (v & d3 & _ & H). apply st_lift_Ok in H as [H _].
    apply wrap_Ok in H. by eapply DecodeUndoBlock_sized. }
  destruct (rollback_batch u h bh) as [b|e] eqn:Hb.
  2:{ rewrite (st_bind_err (st_lift _) _ d1 e d1) by done. cbn. by rewrite Hs. }
  rewrite (st_bind_run (st_lift _) _ d1 b d1) by done. unfold st_wrap.
  pose proof (commit_cases b d1) as Hc. destruct (batch_Commit b d1) as [r d2]. cbn [snd] in *.
  destruct Hc as [->| ->]; rewrite Hs; [done|].
  rewrite (rollback_batch_Ok u h bh b Hb). apply typed_ops; [by apply rollback_ops_typed|done].
Qed.

Lemma SaveCheckpoint_typed cp d : json_wf cp -> typed_db (contents d) ->
  typed_db (contents (SaveCheckpoint cp d).2).
Proof.
  intros Hcp Ht. unfold SaveCheckpoint, st_wrap.
  pose proof (set_Ok KeyCheckpoint (json_Marshal cp) d) as H1.
  pose proof (set_Err KeyCheckpoint (json_Marshal cp) d) as H2.
  assert (Hn : typed_db (<[KeyCheckpoint := json_Marshal cp]> (contents d))).
  { apply (typed_ops [BSet KeyCheckpoint (json_Marshal cp)]); [|done].
    constructor; [by apply checkpoint_typed|constructor]. }
  destruct (pebble_Set _ _ d) as [[[]|e] d1]; cbn in *; [by rewrite H1|].
  by destruct H2 as [->| ->].
Qed.

Lemma IndexBlock_typed ord block h w :
  NoDup (TxHash <$> block_Transactions block) -> in_i32 h ->
  Z.of_nat (length (block_spent (contents (w_db w)) (block_Transactions block)) +
    length (block_created (header_BlockHash (block_Header block)) h (block_Transactions block)))
    < 2 ^ 32 ->
  typed_db (contents (w_db w)) -> typed_db (contents (w_db (IndexBlock ord block h w).2)).
Proof.
  intros Hnd Hh Hn Ht.
  destruct (IndexBlock_cases ord block h w Hnd) as [Hf|(undo & hss & ops & Bb & Hc)].
  - by eapply typed_same.
  - eapply (typed_same (apply_ops ops (contents (w_db w)))); [exact Hc|].
    apply typed_ops; [by eapply block_ops_typed|done].
Qed.

Lemma PruneUndoData_typed mx d : typed_db (contents d) -> typed_db (contents (PruneUndoData mx d).2).
Proof.
  intros Ht. pose proof (PruneUndoData_cases mx d) as H. cbv zeta in H.
  assert (Hf : typed_db (filter (fun kv => prunable mx kv.1 = false) (contents d))).
  { intros k v Hk Hv. apply map_lookup_filter_Some in Hv as [Hv _]. by apply Ht. }
  destruct H as (n & err & d1 & -> & [E|E] & _); cbn; by rewrite E.
Qed.

End Steps.
End Typed.
