(* ===== verification/Total.v ===== *)
(** * [IndexBlock] returns

    On a healthy database whose values have their types, [IndexBlock] succeeds
    for every block whose messages serialise: none of its many error returns is
    reachable there. *)

From Stdlib Require Import Strings.Byte.
From S2P Require Import Prelude Bytes Hex Keys Values Json Checkpoint Pebble Store Sha256 Types Mempool MempoolFacts MempoolProps Block BlockFacts BlockOps BlockProps Reorg ReorgFacts ReorgProps Typed.

(** ** Computations that return *)

(** [returns I Q m]: from a state of [I], [m] succeeds with a value of [Q] in a
    state of [I]. *)
Definition returns {W A} (I : W -> Prop) (Q : A -> Prop) (m : st W A) : Prop :=
  forall w, I w -> exists a w', m w = (Ok a, w') /\ I w' /\ Q a.

Section Returns.
Context {W : Type} (I : W -> Prop).

Lemma returns_ret {A} (Q : A -> Prop) a : Q a -> returns I Q (mret a).
Proof. intros Ha w Hw. by exists a, w. Qed.

Lemma returns_lift {A} (Q : A -> Prop) (r : result A) :
  (exists a, r = Ok a /\ Q a) -> returns I Q (st_lift r).
Proof. intros (a & -> & Ha) w Hw. by exists a, w. Qed.

Lemma returns_bind {A C} (Q : A -> Prop) (R : C -> Prop) (m : st W A) (f : A -> st W C) :
  returns I Q m -> (forall a, Q a -> returns I R (f a)) -> returns I R (m ≫= f).
Proof.
  intros Hm Hf w Hw. destruct (Hm w Hw) as (a & w1 & E & Hw1 & Ha).
  rewrite (st_bind_run _ _ _ _ _ E). by apply (Hf a Ha).
Qed.

Lemma returns_wrap {A} (Q : A -> Prop) pre (m : st W A) : returns I Q m -> returns I Q (st_wrap pre m).
Proof. intros Hm w Hw. destruct (Hm w Hw) as (a & w1 & E & H). exists a, w1. unfold st_wrap. by rewrite E. Qed.

Lemma returns_foldM {A C} (Q : C -> Prop) (R : A -> Prop) (f : C -> A -> st W C) b l :
  (forall b x, Q b -> R x -> returns I Q (f b x)) -> Q b -> Forall R l -> returns I Q (st_foldM f b l).
Proof.
  intros Hf. revert b; induction l as [|x l IH]; intros b Hb Hl; [by apply returns_ret|].
  apply Forall_cons in Hl as [Hx Hl]. eapply returns_bind; [by apply Hf|]. intros b' Hb'. by apply IH.
Qed.

Lemma returns_weaken {A} (Q R : A -> Prop) (m : st W A) :
  returns I Q m -> (forall a, Q a -> R a) -> returns I R m.
Proof. intros Hm HQ w Hw. destruct (Hm w Hw) as (a & w1 & E & H1 & H2). eauto 6. Qed.
End Returns.

Lemma foldM_returns {A C} (f : C -> A -> result C) (Q : C -> Prop) (R : A -> Prop) b l :
  (forall b x, Q b -> R x -> exists b', f b x = Ok b' /\ Q b') -> Q b -> Forall R l ->
  exists b', foldM f b l = Ok b' /\ Q b'.
Proof.
  intros Hf. revert b; induction l as [|x l IH]; intros b Hb Hl; [by exists b|].
  apply Forall_cons in Hl as [Hx Hl]. destruct (Hf b x Hb Hx) as (b1 & E & Hb1). cbn [foldM].
  rewrite E. by apply IH.
Qed.

(** Scripthashes in hex. *)
Definition hex_keys (s : gset string) : Prop :=
  forall x, x ∈ s -> exists sh, length sh = 32%nat /\ x = EncodeToString sh.

Lemma hex_keys_add sh s : length sh = 32%nat -> hex_keys s -> hex_keys ({[EncodeToString sh]} ∪ s).
Proof. intros Hl Hs x [->%elem_of_singleton|Hx]%elem_of_union; eauto. Qed.

Section Total.
Context {P : Pebble} {PL : PebbleLaws P} {PH : PebbleHealthy P PL} {B : Btcd} {BL : BtcdLaws B}.
Context {Zs : Zstd} {ZL : ZstdLaws Zs}.

Ltac run_batch :=
  repeat match goal with
  | |- context [batch_Set ?b ?k ?v] =>
      let E := fresh in destruct (batch_Set_total b k v) as [? E]; rewrite E
  | |- context [batch_Delete ?b ?k] =>
      let E := fresh in destruct (batch_Delete_total b k) as [? E]; rewrite E
  end; cbn [wrap mbind result_bind].

(** ** Inside the transactions' loop *)

Section Loop.
Context (c : gmap bytes bytes) (Hc : typed_db c).

Definition ready (w : world) : Prop :=
  healthy (w_db w) /\ confirmed_same c (contents (w_db w)).

Lemma ready_reads {A} (m : st pdb A) (Q : A -> Prop) :
  (forall d, healthy d -> confirmed_same c (contents d) -> exists v, reads m d v /\ Q v) ->
  returns ready Q (in_db m).
Proof.
  intros Hm w [Hw Hs]. destruct (Hm (w_db w) Hw Hs) as (v & (d & E & Hd & Ec) & HQ).
  exists v, (mkWorld d (w_mp w)). unfold in_db. rewrite E. split_and!; [done| |done].
  split; [done|]. intros k Hk. cbn [w_db]. rewrite Ec. by apply Hs.
Qed.

Definition index_ok (o : option bytes) : Prop := match o with Some sh => length sh = 32%nat | None => True end.

Lemma returns_GetScripthashForOutpoint t v : length t = 32%nat ->
  returns ready index_ok (in_db (GetScripthashForOutpoint t v)).
Proof.
  intros Hl. apply ready_reads. intros d Hd Hs. exists (contents d !! tkey t v). split.
  - unfold GetScripthashForOutpoint. eapply reads_get; [done| |].
    + by apply wrap_Ok, MakeTxIndexKey_Ok.
    + intros w' _. change (PrefixTxIndex :: t ++ be_encode 4 v) with (tkey t v).
      by destruct (contents d !! tkey t v).
  - rewrite Hs by apply confirmed_tkey. destruct (c !! tkey t v) as [sh|] eqn:E; [|done].
    apply Hc in E; [|apply confirmed_tkey]. by apply bool_decide_eq_true in E.
Qed.

Lemma returns_GetUTXO sh t v : length sh = 32%nat -> length t = 32%nat ->
  returns ready (fun _ => True) (in_db (GetUTXO sh t v)).
Proof.
  intros Hl1 Hl2. apply ready_reads. intros d Hd Hs.
  assert (Hv : forall bs, contents d !! ukey sh t v = Some bs -> exists u, DecodeUTXOValue bs = Ok u).
  { intros bs E. rewrite Hs in E by apply confirmed_ukey. apply Hc in E; [|apply confirmed_ukey].
    change (is_Ok (DecodeUTXOValue bs) = true) in E. destruct (DecodeUTXOValue bs); eauto. done. }
  assert (Hm : exists u, match contents d !! ukey sh t v with
    | Some bs => Some <$> DecodeUTXOValue bs = Ok u | None => u = None end).
  { destruct (contents d !! ukey sh t v) as [bs|]; [|eauto].
    destruct (Hv bs eq_refl) as [u ->]. simpl. eauto. }
  destruct Hm as [u Hu]. exists u. split; [|done]. unfold GetUTXO. eapply reads_get; [done| |].
  - by apply wrap_Ok, MakeUTXOKey_Ok.
  - intros w' _. change (PrefixUTXO :: sh ++ t ++ be_encode 4 v) with (ukey sh t v).
    destruct (contents d !! ukey sh t v) as [bs|]; [|by subst u]. unfold st_lift. by rewrite Hu.
Qed.

Lemma spend_utxo_total acc sh t v u : length sh = 32%nat -> length t = 32%nat -> hex_keys acc.2 ->
  exists acc', spend_utxo acc sh t v u = Ok acc' /\ hex_keys acc'.2.
Proof.
  intros Hl1 Hl2 Hk. destruct acc as [[b sp] shs]. unfold spend_utxo.
  rewrite (proj2 (MakeUTXOKey_Ok sh t v _) (conj Hl1 (conj Hl2 eq_refl))).
  cbn [wrap mbind result_bind]. run_batch.
  rewrite (proj2 (MakeTxIndexKey_Ok t v _) (conj Hl2 eq_refl)). cbn [wrap mbind result_bind]. run_batch.
  eexists. split; [done|]. by apply hex_keys_add.
Qed.

Lemma returns_index_input acc i : hex_keys acc.2 -> length (op_Hash i) = 32%nat ->
  returns ready (fun acc => hex_keys acc.2) (index_input acc i).
Proof.
  intros Hk Hl. unfold index_input. destruct (IsCoinbaseInput i); [by apply returns_ret|].
  eapply returns_bind; [by apply returns_wrap, returns_GetScripthashForOutpoint|].
  intros [sh|] Hsh; [|by apply returns_ret]. cbn in Hsh.
  eapply returns_bind; [by apply returns_wrap, returns_GetUTXO|]. intros u _.
  eapply (returns_bind _ (fun acc : io_acc => hex_keys acc.2)).
  { destruct u as [u|]; [|by apply returns_ret]. apply returns_lift. by apply spend_utxo_total. }
  intros acc' Hk'. apply (returns_bind _ (fun _ => True)); [|intros; by apply returns_ret].
  intros w Hw. exists (), (RemoveOutput (TxidFromHash (op_Hash i)) (op_Index i) w).2.
  by split_and!.
Qed.

Lemma index_output_total txid bh h acc vo : length txid = 32%nat -> hex_keys acc.2 ->
  exists acc', index_output txid bh h acc vo = Ok acc' /\ hex_keys acc'.2.
Proof.
  intros Hl Hk. destruct acc as [[b cr] shs], vo as [i o]. unfold index_output.
  destruct (IsOpReturn _); [by eexists|]. destruct (to_Value o =? 0); [by eexists|].
  pose proof (length_ComputeScripthash (to_PkScript o)) as Hs.
  rewrite (proj2 (MakeUTXOKey_Ok _ txid _ _) (conj Hs (conj Hl eq_refl))).
  cbn [wrap mbind result_bind]. run_batch.
  rewrite (proj2 (MakeTxIndexKey_Ok txid _ _) (conj Hl eq_refl)). cbn [wrap mbind result_bind].
  run_batch. eexists. split; [done|]. by apply hex_keys_add.
Qed.

Lemma index_history_total txidHex i h acc sh : length sh = 32%nat ->
  exists acc', index_history txidHex i h acc (EncodeToString sh) = Ok acc'.
Proof.
  intros Hl. destruct acc as [[[b hist] added] idx]. unfold index_history. case_decide; [by eexists|].
  rewrite DecodeString_EncodeToString.
  rewrite (proj2 (MakeHistoryKey_Ok sh h i idx _) (conj Hl eq_refl)). cbn [wrap mbind result_bind].
  run_batch. by eexists.
Qed.

Lemma returns_RemoveTransaction ord t : returns ready (fun _ => True) (RemoveTransaction ord t).
Proof.
  intros w [Hw Hs]. destruct (remove_run ord 0 (TxidToHex t) w) as (l & w' & E & _ & Hc' & _).
  exists l, w'. split_and!; [exact E| |done]. split; [|intros k Hk; by rewrite Hc', Hs].
  revert E. unfold removeTransactionLocked.
  rewrite (st_bind_run (st_gets w_mp) _ w (w_mp w) w) by done.
  destruct (transactions (w_mp w) !! _) as [t'|]; [|by intros [= _ <-]].
  set (m' := forget_transaction _ t' (w_mp w)).
  rewrite (st_bind_run (put_mp m') _ w () (mkWorld (w_db w) m')) by done.
  unfold unpersistTransaction. rewrite st_bind_Ok. intros (u & w1 & H & [= _ <-]). revert H.
  rewrite (st_bind_run (st_gets w_mp) _ _ m' (mkWorld (w_db w) m')) by done.
  destruct (negb _); [by intros [= _ <-]|]. rewrite st_bind_Ok. intros (r & w2 & H & [= _ <-]).
  revert H. unfold st_try, in_db. cbn [w_db].
  match goal with |- context [batch_Commit ?b ?d] =>
    destruct (healthy_commit b d Hw) as [Hh _]; destruct (batch_Commit b d) as [r' d'] end.
  by intros [= _ <-].
Qed.

Definition serializable (tx : MsgTx) : Prop := is_Ok (tx_Serialize tx) = true.

Lemma returns_index_tx ord bh h acc itx : serializable itx.2 ->
  returns ready (fun _ => True) (index_tx ord bh h acc itx).
Proof.
  intros Hser. destruct itx as [i tx]. unfold index_tx. cbn in Hser. unfold serializable in Hser.
  change (TxidFromHash (TxHash tx)) with (TxHash tx). pose proof (length_TxHash tx) as Hl.
  destruct (tx_Serialize tx) as [raw|]; [|done].
  eapply returns_bind; [by apply returns_lift; exists raw; split; [|exact I]|]. intros raw' _.
  eapply (returns_bind _ (fun _ => True)).
  { apply returns_lift. unfold SaveTxPosInBatch.
    rewrite (proj2 (MakeTxPosKey_Ok (TxHash tx) _) (conj Hl eq_refl)). cbn [wrap mbind result_bind].
    run_batch. by eexists. }
  intros b1 _. eapply (returns_bind _ (fun acc : io_acc => hex_keys acc.2)).
  { destruct (i =? 0)%nat; [by apply returns_ret|].
    eapply (returns_foldM _ _ (fun i => length (op_Hash i) = 32%nat)).
    - intros. by apply returns_index_input.
    - done.
    - apply Forall_forall. intros x Hx. by apply (tx_TxIn_wf tx x). }
  intros [[b2 sp] shs] Hk. cbn in Hk.
  eapply (returns_bind _ (fun acc : io_acc => hex_keys acc.2)).
  { apply returns_lift.
    apply (foldM_returns _ (fun acc : io_acc => hex_keys acc.2) (fun _ => True)); [|done|by apply Forall_true].
    intros acc' vo Hk' _. by apply index_output_total. }
  intros [[b3 cr] shs2] Hk2. cbn in Hk2. eapply (returns_bind _ (fun _ => True)).
  { apply returns_lift.
    apply (foldM_returns _ (fun _ => True) (fun x => exists sh, length sh = 32%nat /\ x = EncodeToString sh)).
    - intros acc' x _ (sh & Hsh & ->). edestruct index_history_total as [a E]; [done|by eauto].
    - done.
    - apply Forall_forall. intros x Hx%elem_of_range_set. by apply Hk2. }
  intros [[[b4 hist] added] idx] _.
  eapply returns_bind; [apply returns_RemoveTransaction|]. intros l _. by apply returns_ret.
Qed.

End Loop.

(** ** The block *)

Lemma block_records_total b h header txids blob offs undo bh : 0 <= h -> length header = 80%nat ->
  length bh = 32%nat -> Forall (fun t => length t = 32%nat) txids -> ub_Height undo = h ->
  UndoBlock_shape undo -> exists b', block_records b h header txids blob offs undo bh = Ok b'.
Proof.
  intros H0 Hl Hb Ht Hu Hs. unfold block_records, SaveHeaderInBatch, check_header, check.
  rewrite bool_decide_eq_true_2 by done. cbn [wrap mbind result_bind].
  rewrite (proj2 (MakeHeaderKey_Ok h _) (conj H0 eq_refl)). cbn [wrap mbind result_bind]. run_batch.
  unfold SaveBlockTxidsInBatch. rewrite (proj2 (MakeBlockTxidsKey_Ok h _) (conj H0 eq_refl)).
  rewrite (proj2 (encode_txids_Ok txids _) (conj Ht eq_refl)). cbn [wrap mbind result_bind]. run_batch.
  unfold SaveTxBlobInBatch. rewrite (proj2 (MakeTxBlobKey_Ok h _) (conj H0 eq_refl)).
  unfold compressZstd. rewrite zstd_writer. cbn [wrap mbind result_bind]. run_batch.
  unfold SaveTxOffsetsInBatch. rewrite (proj2 (MakeTxOffsetsKey_Ok h _) (conj H0 eq_refl)).
  cbn [wrap mbind result_bind]. run_batch.
  unfold SaveUndoInBatch. rewrite Hu, (proj2 (MakeUndoKey_Ok h bh _) (conj Hb (conj H0 eq_refl))).
  apply EncodeUndoBlock_shape in Hs as [bs ->]. cbn [wrap mbind result_bind]. run_batch. by eexists.
Qed.

Lemma spent_by_shape c i o : typed_db c -> length (op_Hash i) = 32%nat -> spent_by c i = Some o ->
  UndoOutput_shape o.
Proof.
  intros Hc Hl. unfold spent_by. destruct (IsCoinbaseInput i); [done|].
  destruct (c !! tkey _ _) as [sh|] eqn:E1; [|done]. cbn.
  destruct (c !! ukey _ _ _) as [bs|] eqn:E2; [|done]. cbn.
  destruct (DecodeUTXOValue bs) as [u|] eqn:E3; [|done]. intros [= <-].
  apply EncodeUTXOValue_Decode in E3 as [(_ & _ & Hb) _].
  apply Hc in E1; [|apply confirmed_tkey]. apply bool_decide_eq_true in E1. by split_and!.
Qed.

(** A block the node can send: its messages serialise and its txids differ. *)
Record valid_block (block : MsgBlock) : Prop := {
  vb_header : is_Ok (header_Serialize (block_Header block)) = true;
  vb_txs : Forall serializable (block_Transactions block);
  vb_nodup : NoDup (TxHash <$> block_Transactions block);
}.

Lemma undo_shape c block h (acc : block_acc) hss raws : typed_db c ->
  txs_done c (header_BlockHash (block_Header block)) h (indexed (block_Transactions block)) hss raws acc ->
  UndoBlock_shape (mkUndoBlock h (header_BlockHash (block_Header block))
    (header_PrevBlock (block_Header block)) (ba_spent acc) (ba_created acc) (ba_history acc)).
Proof.
  intros Hc D. unfold UndoBlock_shape. cbn. split_and!.
  - apply length_BlockHash.
  - apply length_PrevBlock.
  - rewrite (td_spent _ _ _ _ _ _ _ D). apply Forall_forall. intros o Ho.
    change (o ∈ block_spent c (block_Transactions block)) in Ho.
    apply block_spent_elem in Ho as (tx & i & _ & Hi & E). eapply spent_by_shape; [done| |exact E].
    by apply (tx_TxIn_wf tx i).
  - rewrite (td_created _ _ _ _ _ _ _ D). apply Forall_forall. intros o Ho.
    change (o ∈ block_created (header_BlockHash (block_Header block)) h (block_Transactions block)) in Ho.
    apply block_created_elem in Ho as (tx & v & out & _ & _ & E).
    apply created_by_fields in E as (E1 & E2 & E3 & E4 & E5 & E6).
    split_and!; [rewrite E3|rewrite E1|rewrite E6];
      [apply length_ComputeScripthash|apply length_TxHash|apply length_BlockHash].
  - rewrite (td_history _ _ _ _ _ _ _ D). apply Forall_forall. intros e He.
    pose proof (td_hist _ _ _ _ _ _ _ D) as Hh.
    by destruct (block_history_elem c _ h _ hss e Hh He) as (i & (_ & _ & Hl & _) & _).
Qed.

(** The loop over the transactions of a block returns. *)
Lemma index_fold_ready ord block h w : healthy (w_db w) -> typed_db (contents (w_db w)) -> valid_block block ->
  exists acc w1, st_foldM (index_tx ord (header_BlockHash (block_Header block)) h) block_acc0
      (indexed (block_Transactions block)) w = (Ok acc, w1) /\
    healthy (w_db w1) /\ confirmed_same (contents (w_db w)) (contents (w_db w1)).
Proof.
  intros Hw Ht [Hh Htx Hnd].
  destruct (returns_foldM (ready (contents (w_db w))) (fun _ => True) (fun itx => serializable itx.2)
    (index_tx ord (header_BlockHash (block_Header block)) h) block_acc0
    (indexed (block_Transactions block))) with (w := w) as (acc & w1 & E & [Hw1 Hs1] & _).
  { intros b itx _ Hser. by apply returns_index_tx. }
  { done. }
  { apply Forall_forall. intros [i tx] Hin. rewrite Forall_forall in Htx. apply Htx.
    unfold indexed in Hin. rewrite <- (imap_pair_snd (block_Transactions block)).
    by apply (list_elem_of_fmap_2 snd) in Hin. }
  { by split. }
  by exists acc, w1.
Qed.

Lemma index_batch_total ord block h w : healthy (w_db w) -> typed_db (contents (w_db w)) ->
  0 <= h -> valid_block block ->
  exists b w', index_batch ord block h w = (Ok b, w') /\ healthy (w_db w').
Proof.
  intros Hw Ht H0 Hb. destruct (index_fold_ready ord block h w Hw Ht Hb) as (acc & w1 & E & Hw1 & Hs1).
  destruct Hb as [Hh Htx Hnd]. unfold index_batch. change (BlockHashFromHash ?x) with x.
  destruct (header_Serialize (block_Header block)) as [header|] eqn:Eh; [|done].
  rewrite (st_bind_run (st_lift _) _ w header w) by done.
  set (c := contents (w_db w)) in *.
  rewrite (st_bind_run _ _ _ _ _ E).
  apply (index_txs_Ok ord c) in E as (_ & hss & raws & D); [|done|done].
  destruct (block_records_total (ba_batch acc) h header (ba_txids acc) (ba_txBlob acc)
    (ba_txOffsets acc) (mkUndoBlock h (header_BlockHash (block_Header block))
      (header_PrevBlock (block_Header block)) (ba_spent acc) (ba_created acc) (ba_history acc))
    (header_BlockHash (block_Header block)))
    as [b Hb]; [done|by eapply length_header|apply length_BlockHash| |done|by eapply undo_shape|].
  { rewrite (td_txids _ _ _ _ _ _ _ D). apply Forall_forall.
    intros t (tx & -> & _)%list_elem_of_fmap. apply length_TxHash. }
  rewrite (st_bind_run (st_lift _) _ w1 b w1) by (unfold st_lift; by rewrite Hb).
  destruct (get_healthy KeyCheckpoint (w_db w1) Hw1) as (d2 & E2 & Hd2 & _).
  assert (exists r, LoadCheckpoint (w_db w1) = (Ok r, d2)) as [[prev err] E3].
  { unfold LoadCheckpoint. rewrite (st_bind_run _ _ _ _ _ E2). by eexists. }
  rewrite (st_bind_run (in_db LoadCheckpoint) _ w1 (prev, err) (mkWorld d2 (w_mp w1)))
    by (unfold in_db; by rewrite E3).
  cbv beta iota. unfold SaveCheckpointInBatch, st_lift.
  destruct (batch_Set_total b KeyCheckpoint (json_Marshal (mkCheckpoint h
    (hash_String (header_BlockHash (block_Header block))) (cp_StartHeight prev)))) as [b' ->].
  by exists b', (mkWorld d2 (w_mp w1)).
Qed.

Lemma IndexBlock_total ord block h w : healthy (w_db w) -> typed_db (contents (w_db w)) ->
  0 <= h -> valid_block block ->
  exists w', IndexBlock ord block h w = (Ok (), w') /\ healthy (w_db w').
Proof.
  intros Hw Ht H0 Hb. destruct (index_batch_total ord block h w Hw Ht H0 Hb) as (b & w1 & E & Hw1).
  unfold IndexBlock. rewrite (st_bind_run _ _ _ _ _ E).
  destruct (commit_healthy b (w_db w1) Hw1) as (d & E2 & Hd & _).
  exists (mkWorld d (w_mp w1)). unfold st_wrap, in_db. by rewrite E2.
Qed.

End Total.
