(* ===== verification/Steps.v ===== *)
(** * Every step on the confirmed data

    What all the operations that write confirmed data keep, whatever they
    return: the types of the stored values, and the health of the engine.  The
    claims: the values are typed in every reachable state, and [IndexBlock]
    returns there. *)

From Stdlib Require Import Strings.Byte.
From S2P Require Import Prelude Bytes Hex Keys Values Json Checkpoint Pebble Store Sha256 Types Mempool MempoolFacts MempoolProps Block BlockFacts BlockOps BlockProps Reorg ReorgFacts ReorgProps Typed Total.

(** [st_rel_bind] with what the first computation returned. *)
Lemma st_rel_bind_run {W A C} (R : relation W) `{!PreOrder R} (m : st W A) (f : A -> st W C) :
  st_rel R m -> (forall a w w', m w = (Ok a, w') -> st_rel R (f a)) -> st_rel R (m ≫= f).
Proof.
  intros Hm Hf w. pose proof (Hm w) as H. unfold mbind, st_bind.
  destruct (m w) as [[a|e] w1] eqn:E; cbn in *; [|done]. etrans; [exact H|]. by eapply Hf.
Qed.

Section Keeps.
Context {P : Pebble} {PL : PebbleLaws P} {B : Btcd} {BL : BtcdLaws B} {Zs : Zstd} {ZL : ZstdLaws Zs}.

(** ** Properties of the database that the engine's calls keep *)

(** [I] survives reads and what [typed_db] allows to be written. *)
Class Kept (I : pdb -> Prop) := {
  kept_same_run k d : I d -> I (pebble_Get k d).2;
  kept_iter lo hi d : I d -> I (pebble_NewIter lo hi d).2;
  kept_rollback h bh d : I d -> I (rollbackBlock h bh d).2;
  kept_checkpoint cp d : json_wf cp -> I d -> I (SaveCheckpoint cp d).2;
  kept_deletes b d : (forall o, o ∈ batch_ops b -> exists k, o = BDelete k) -> I d ->
    I (batch_Commit b d).2;
}.

Definition keeps (I : pdb -> Prop) : relation pdb := fun d d' => I d -> I d'.
Definition keepsR (I : pdb -> Prop) : relation rworld := fun rw rw' =>
  keeps I (w_db (rw_world rw)) (w_db (rw_world rw')).

#[export] Instance keeps_preorder I : PreOrder (keeps I).
Proof. unfold keeps. split; [by intros d|]. intros a b c H1 H2 H. by apply H2, H1. Qed.
#[export] Instance keepsR_preorder I : PreOrder (keepsR I).
Proof. unfold keepsR. split; [by intros d|]. intros a b c H1 H2. by etrans. Qed.

Section I.
Context (I : pdb -> Prop) {K : Kept I}.

Lemma keeps_Get k : st_rel (keeps I) (pebble_Get k).
Proof. intros d. exact (kept_same_run (I := I) k d). Qed.
Lemma keeps_NewIter lo hi : st_rel (keeps I) (pebble_NewIter lo hi).
Proof. intros d. exact (kept_iter (I := I) lo hi d). Qed.
#[local] Hint Resolve keeps_Get keeps_NewIter : st_rel.

Lemma keeps_get k : st_rel (keeps I) (get k).
Proof. intros w. pose proof (keeps_Get k w). unfold get. by destruct (pebble_Get k w). Qed.
#[local] Hint Resolve keeps_get : st_rel.

Lemma keeps_LoadCheckpoint : st_rel (keeps I) LoadCheckpoint.
Proof. unfold LoadCheckpoint. solve_rel. Qed.
Lemma keeps_GetHeader h : st_rel (keeps I) (GetHeader h).
Proof. unfold GetHeader, get_value. solve_rel. Qed.
#[local] Hint Resolve keeps_LoadCheckpoint keeps_GetHeader : st_rel.

Lemma keeps_getOurBlockHash h : st_rel (keeps I) (getOurBlockHash h).
Proof.
  unfold getOurBlockHash, hash_from_header, NewPrefixIterator. solve_rel.
Qed.
#[local] Hint Resolve keeps_getOurBlockHash : st_rel.

Lemma keeps_rollback_loop n h acc : st_rel (keeps I) (rollback_loop n h acc).
Proof.
  revert h acc; induction n as [|n IH]; intros h acc; cbn [rollback_loop]; [apply st_rel_ret, _|].
  assert (Hr : forall h bh, st_rel (keeps I) (rollbackBlock h bh)) by (intros h0 bh d; exact (kept_rollback (I := I) h0 bh d)).
  solve_rel.
Qed.
#[local] Hint Resolve keeps_rollback_loop : st_rel.

Lemma keepsR_rdb {A} (m : st pdb A) : st_rel (keeps I) m -> st_rel (keepsR I) (rdb m).
Proof.
  intros Hm rw. specialize (Hm (w_db (rw_world rw))). unfold rdb, in_db, keepsR.
  by destruct (m _).
Qed.
#[local] Hint Resolve keepsR_rdb : st_rel.

Lemma keepsR_GetBlockHash client h : st_rel (keepsR I) (GetBlockHash client h).
Proof. intros rw Hd. exact Hd. Qed.
#[local] Hint Resolve keepsR_GetBlockHash : st_rel.

Lemma keepsR_rollbackToHeight client t : in_i32 t -> st_rel (keepsR I) (rollbackToHeight client t).
Proof.
  intros Ht. unfold rollbackToHeight.
  assert (Hs : forall bh, st_rel (keeps I) (SaveCheckpoint (mkCheckpoint t (BlockHashToHex bh) 0))).
  { intros bh d Hd. apply (kept_checkpoint (I := I)); [|done].
    split; [done|]. split; [cbn; unfold in_i32; lia|]. cbn.
    unfold BlockHashToHex. case_decide; [by constructor|apply plain_EncodeToString]. }
  solve_rel.
Qed.

Lemma keepsR_fork_loop client mx n s h : st_rel (keepsR I) (fork_loop client mx n s h).
Proof.
  revert h; induction n as [|n IH]; intros h; cbn [fork_loop]; [apply st_rel_ret, _|]. solve_rel.
Qed.
#[local] Hint Resolve keepsR_fork_loop : st_rel.

Lemma keepsR_findForkPoint client mx s : st_rel (keepsR I) (findForkPoint client mx s).
Proof. unfold findForkPoint. solve_rel. Qed.
#[local] Hint Resolve keepsR_findForkPoint : st_rel.

Lemma keepsR_Clear : st_rel (keepsR I) (rmp Clear).
Proof.
  intros rw Hd. unfold rmp, Clear.
  rewrite (st_bind_run (st_gets w_mp) _ (rw_world rw) (w_mp (rw_world rw)) (rw_world rw)) by done.
  match goal with |- context [put_mp ?m ≫= ?f] => set (m' := m) end.
  rewrite (st_bind_run (put_mp m') _ _ () (mkWorld (w_db (rw_world rw)) m')) by done.
  unfold clearPersistedData.
  rewrite (st_bind_run (st_gets w_mp) _ _ m' (mkWorld (w_db (rw_world rw)) m')) by done.
  destruct (negb _); [done|]. unfold NewPrefixIterator, st_wrap, in_db, st_try, mbind, st_bind. cbn [w_db w_mp].
  pose proof (kept_iter (I := I) [PrefixMempool] (PrefixUpperBound [PrefixMempool]) _ Hd) as Hi.
  destruct (pebble_NewIter _ _ _) as [[it|e] d1]; cbn in Hi |- *; [|done].
  destruct (0 <? _); [|done]. cbn [w_db w_mp].
  match goal with |- context [batch_Commit ?b d1] =>
    assert (Hk := kept_deletes (I := I) b d1); destruct (batch_Commit b d1) as [r d2] end.
  cbn in *. destruct r; cbn; apply Hk; try done.
  all: generalize (it_entries it); intros l; generalize (batch_new (P := P));
    generalize (pebble_NewBatch (Pebble := P)); intros b Hb;
    assert (Hall : forall o, o ∈ batch_ops b -> exists k, o = BDelete k)
      by (rewrite Hb; by intros o ?%elem_of_nil); clear Hb; revert b Hall;
    induction l as [|[k v] l IH]; intros b Hall; [done|]; apply IH; cbn; unfold delete_ignoring;
    destruct (batch_Delete b k) as [b'|] eqn:E; [|done]; apply batch_Delete_Ok in E;
    intros o; rewrite E, elem_of_app, list_elem_of_singleton; intros [?| ->]; [by apply Hall|by eexists].
Qed.

Lemma fork_loop_range client mx n s h rw h' bh rw' :
  fork_loop client mx n s h rw = (Ok (Some (h', bh)), rw') -> h - Z.of_nat n < h' <= h.
Proof.
  revert h rw; induction n as [|n IH]; intros h rw; cbn [fork_loop]; [done|].
  destruct (_ <? _); [done|]. rewrite st_bind_Ok. intros (r & rw1 & _ & H).
  destruct r as [ours|e]; [|apply IH in H; lia].
  rewrite st_bind_Ok in H. destruct H as (ch & rw2 & _ & H).
  case_decide; [injection H as <- <- _; lia|]. apply IH in H. lia.
Qed.

Lemma findForkPoint_i32 client mx s rw h bh rw' :
  findForkPoint client mx s rw = (Ok (h, bh), rw') -> in_i32 h.
Proof.
  unfold findForkPoint. rewrite st_bind_Ok. intros ([cp err] & rw1 & Hl & H).
  assert (Hcp : in_i32 (cp_StartHeight cp)).
  { revert Hl. unfold rdb, in_db. destruct (LoadCheckpoint _) as [r d] eqn:E. intros [= -> _].
    by eapply LoadCheckpoint_i32. }
  rewrite st_bind_Ok in H. destruct H as (found & rw2 & Hf & H).
  set (bd := if cp_StartHeight cp <=? 0 then 1 else cp_StartHeight cp) in *.
  assert (Hb : 1 <= bd < 2 ^ 31).
  { unfold bd, in_i32 in *. destruct (Z.leb_spec (cp_StartHeight cp) 0); lia. }
  destruct found as [[h1 b1]|].
  - injection H as -> _ _. apply fork_loop_range in Hf. pose proof (i32_range (s - 1)).
    unfold in_i32 in *. lia.
  - destruct (bd >? 0); [|done]. rewrite st_bind_Ok in H. destruct H as (ch & rw3 & _ & H).
    injection H as <- _ _. unfold in_i32. destruct (bd - 1 <? 0); lia.
Qed.

Lemma keepsR_CheckAndHandle client mx : st_rel (keepsR I) (CheckAndHandle client mx).
Proof.
  unfold CheckAndHandle. apply st_rel_bind; [apply _| |].
  { apply keepsR_rdb. unfold checkpoint_or_fail. solve_rel. }
  intros cp. case_decide; [apply st_rel_ret, _|].
  apply st_rel_bind; [apply _|apply st_rel_lift, _|]. intros ch.
  apply st_rel_bind; [apply _|solve_rel|]. intros core. case_decide; [apply st_rel_ret, _|].
  apply st_rel_bind_run; [apply _|solve_rel|]. intros [fh fhash] rw rw' Hf%st_wrap_Ok.
  apply findForkPoint_i32 in Hf. destruct (_ && _); [apply st_rel_fail, _|].
  apply st_rel_bind; [apply _|by apply keepsR_rollbackToHeight|]. intros [n [e|]]; [apply st_rel_fail, _|].
  apply st_rel_bind; [apply _|apply keepsR_Clear|]. intros []. apply st_rel_ret, _.
Qed.

End I.

(** ** The types are kept *)

#[export] Instance typed_kept : Kept (fun d => typed_db (contents d)).
Proof.
  split.
  - intros k d. by rewrite get_contents.
  - intros lo hi d. by rewrite iter_contents.
  - intros h bh d. apply rollbackBlock_typed.
  - intros cp d. apply SaveCheckpoint_typed.
  - intros b d Hb Hd. destruct (commit_cases b d) as [->| ->]; [done|].
    apply typed_ops; [|done]. apply Forall_forall. by intros o (k & ->)%Hb.
Qed.

(** Every operation that writes confirmed data, and every step that leaves it
    alone. *)
Inductive db_step : relation world :=
| step_index ord block h w :
    NoDup (TxHash <$> block_Transactions block) -> in_i32 h ->
    Z.of_nat (length (block_spent (contents (w_db w)) (block_Transactions block)) +
      length (block_created (header_BlockHash (block_Header block)) h (block_Transactions block)))
      < 2 ^ 32 ->
    db_step w (IndexBlock ord block h w).2
| step_rollback h bh w : db_step w (in_db (rollbackBlock h bh) w).2
| step_reorg client mx n w : db_step w (rw_world (CheckAndHandle client mx (mkRWorld w n)).2)
| step_prune mx w : db_step w (in_db (PruneUndoData mx) w).2
| step_checkpoint cp w : json_wf cp -> db_step w (in_db (SaveCheckpoint cp) w).2
| step_overlay w w' : db_frame w w' -> db_step w w'.

Lemma db_step_typed w w' : db_step w w' -> typed_db (contents (w_db w)) -> typed_db (contents (w_db w')).
Proof.
  destruct 1 as [ord block h w Hnd Hh Hn|h bh w|client mx n w|mx w|cp w Hcp|w w' Hf]; intros Ht.
  - by apply IndexBlock_typed.
  - rewrite snd_in_db. by apply rollbackBlock_typed.
  - exact (keepsR_CheckAndHandle (fun d => typed_db (contents d)) client mx (mkRWorld w n) Ht).
  - rewrite snd_in_db. by apply PruneUndoData_typed.
  - rewrite snd_in_db. by apply SaveCheckpoint_typed.
  - by eapply typed_same.
Qed.

Lemma db_steps_typed w w' : rtc db_step w w' -> typed_db (contents (w_db w)) ->
  typed_db (contents (w_db w')).
Proof. induction 1; eauto using db_step_typed. Qed.

End Keeps.

(** ** Health is kept *)

Section Health.
Context {P : Pebble} {PL : PebbleLaws P} {PH : PebbleHealthy P PL} {B : Btcd} {BL : BtcdLaws B}.
Context {Zs : Zstd} {ZL : ZstdLaws Zs}.

#[export] Instance healthy_kept : Kept healthy.
Proof.
  split.
  - intros k d Hd. by apply healthy_get.
  - intros lo hi d Hd. by apply healthy_iter.
  - intros h bh d Hd.
    assert (Hg : forall k, st_rel (keeps healthy) (get k)).
    { intros k w Hw. pose proof (healthy_get k w Hw) as [H _]. unfold get. by destruct (pebble_Get k w). }
    assert (Hc : forall b, st_rel (keeps healthy) (batch_Commit b)).
    { intros b w Hw. by apply healthy_commit. }
    revert d Hd. change (st_rel (keeps healthy) (rollbackBlock h bh)).
    assert (Hu : st_rel (keeps healthy) (GetUndo h bh)) by (unfold GetUndo, get_value; solve_rel).
    unfold rollbackBlock. solve_rel.
  - intros cp d _ Hd. unfold SaveCheckpoint, st_wrap.
    pose proof (healthy_set KeyCheckpoint (json_Marshal cp) d Hd) as [H _].
    by destruct (pebble_Set _ _ d).
  - intros b d _ Hd. by apply healthy_commit.
Qed.

(** C11: the values of the database have the types their keys announce: in every
    state reached from an empty database by indexing blocks, rolling back,
    handling reorganisations, pruning, moving the checkpoint and steps of the
    overlay, each of which may also fail half way, every value under a confirmed
    key decodes as its kind; so on a healthy engine the getters of a UTXO, an
    undo record and the checkpoint fail on no stored value. *)
Theorem stored_values_typed (w0 w : world) (Hempty : contents (w_db w0) = ∅) (Hreach : rtc db_step w0 w) :
  typed_db (contents (w_db w)) /\
    (healthy (w_db w) ->
    (forall sh t v, length sh = 32%nat -> length t = 32%nat ->
       is_Ok (GetUTXO sh t v (w_db w)).1 = true) /\
    (forall h bh, 0 <= h -> length bh = 32%nat ->
       is_Ok (GetUndo h bh (w_db w)).1 = true <->
       is_Some (contents (w_db w) !! (PrefixUndo :: be_encode 4 (u32 h) ++ bh))) /\
    exists cp d, LoadCheckpoint (w_db w) = (Ok (cp, None), d)).
Proof.
  assert (Ht : typed_db (contents (w_db w))).
  { eapply db_steps_typed; [done|]. rewrite Hempty. by intros k v _ ?%lookup_empty_Some. }
  split; [done|]. intros Hd. split_and!.
  - intros sh t v Hs Hl.
    destruct (returns_GetUTXO (contents (w_db w)) Ht sh t v Hs Hl w) as (u & w' & E & _); [by split|].
    revert E. unfold in_db. destruct (GetUTXO sh t v (w_db w)) as [r d]. by intros [= -> _].
  - intros h bh H0 Hl. split.
    + destruct (contents (w_db w) !! _) eqn:E; [by eexists|]. unfold GetUndo.
      rewrite (proj2 (MakeUndoKey_Ok h bh _) (conj Hl (conj H0 eq_refl))).
      rewrite (st_bind_run (st_lift _) _ (w_db w) _ (w_db w)) by done.
      destruct (get_healthy (PrefixUndo :: be_encode 4 (u32 h) ++ bh) (w_db w) Hd) as (d & Eg & _).
      unfold get_value. unfold mbind at 1, st_bind at 1. unfold mbind at 1, st_bind at 1.
      rewrite Eg, E. done.
    + intros [v E]. assert (Hv := E). apply Ht in Hv; [|done].
      change (is_Ok (DecodeUndoBlock v) = true) in Hv.
      destruct (DecodeUndoBlock v) as [u|] eqn:Eu; [|done].
      by destruct (GetUndo_healthy h bh (w_db w) v u Hd H0 Hl E Eu) as (d & -> & _).
  - destruct (get_healthy KeyCheckpoint (w_db w) Hd) as (d & E & _). unfold LoadCheckpoint.
    rewrite (st_bind_run _ _ _ _ _ E).
    destruct (contents (w_db w) !! KeyCheckpoint) as [v|] eqn:Ek; [|by eexists _, _].
    apply Ht in Ek; [|done]. apply bool_decide_eq_true in Ek.
    destruct (json_Unmarshal v zeroCheckpoint) as [cp e]. cbn in Ek. subst e. by eexists _, _.
Qed.

(** C12: indexing terminates with success: on a healthy database in a reachable
    state, [IndexBlock] returns without error for every height from 0 and every
    block whose header and transactions serialise and whose txids differ; the
    checkpoint is then the block, and the database is healthy still. *)
Theorem index_block_returns (ord : range_order) (block : MsgBlock) (h : Z) (w0 w : world)
    (Hempty : contents (w_db w0) = ∅) (Hreach : rtc db_step w0 w) (Hd : healthy (w_db w))
    (H0 : 0 <= h) (Hb : valid_block block) :
  exists w', IndexBlock ord block h w = (Ok (), w') /\ healthy (w_db w') /\
    exists cp, contents (w_db w') !! KeyCheckpoint = Some (json_Marshal cp) /\
    cp_Height cp = h /\ cp_BlockHash cp = hash_String (header_BlockHash (block_Header block)).
Proof.
  assert (Ht : typed_db (contents (w_db w))).
  { eapply db_steps_typed; [done|]. rewrite Hempty. by intros k v _ ?%lookup_empty_Some. }
  destruct (IndexBlock_total ord block h w Hd Ht H0 Hb) as (w' & E & Hd'). exists w'.
  split_and!; [done..|].
  destruct (IndexBlock_Ok ord block h w w' (vb_nodup _ Hb) E) as (undo & hss & Hix).
  destruct (records_after _ _ _ _ _ _ Hix (vb_nodup _ Hb)) as
    (header & buf & raws & z & d & cp & _ & _ & _ & _ & _ & H6 & H7 & H8 & _ & _ & _ & _ & _ & K & _).
  by exists cp.
Qed.

End Health.

(** ** Witnesses *)

Lemma sample_reachable : rtc db_step (@world0 : @world MemPebble ModelBtcd) indexed2.
Proof.
  eapply rtc_l; [apply (step_index id_order block0 0); [|done|vm_compute; done]|].
  { apply (bool_decide_eq_true_1 _). vm_compute. reflexivity. }
  eapply rtc_l; [apply (step_index id_order block1 1); [|done|vm_compute; done]|].
  { apply (bool_decide_eq_true_1 _). vm_compute. reflexivity. }
  apply rtc_once, (step_index id_order block2 2); [|done|vm_compute; done].
  apply (bool_decide_eq_true_1 _). vm_compute. reflexivity.
Qed.

Lemma stored_values_typed_witness :
  typed_db (contents (w_db indexed2)) /\ exists cp d, LoadCheckpoint (w_db indexed2) = (Ok (cp, None), d).
Proof.
  destruct (stored_values_typed world0 indexed2) as [H1 H2]; [reflexivity|exact sample_reachable|].
  split; [exact H1|]. destruct H2 as (_ & _ & H2); [reflexivity|exact H2].
Defined.

Lemma chained_valid : valid_block chained_block.
Proof.
  split; [reflexivity|by repeat constructor|]. apply (bool_decide_eq_true_1 _). vm_compute. reflexivity.
Qed.

Lemma index_block_returns_witness :
  exists w', IndexBlock id_order chained_block 3 indexed2 = (Ok (), w') /\ healthy (w_db w') /\
    exists cp, contents (w_db w') !! KeyCheckpoint = Some (json_Marshal cp) /\
      cp_Height cp = 3 /\ cp_BlockHash cp = hash_String (header_BlockHash (block_Header chained_block)).
Proof.
  apply (index_block_returns id_order chained_block 3 world0 indexed2);
    [reflexivity|exact sample_reachable|reflexivity|lia|exact chained_valid].
Defined.
