(* ===== verification/Chain.v ===== *)
(** * The chain manager: [internal/indexer/chain.go]

    [ChainManager] keeps the indexed tip in memory beside the checkpoint of the
    database, fetches missing blocks from the node and sends each to
    [IndexBlock] or to [CheckAndHandle].  The node's four RPCs are arguments,
    indexed by the number of RPC calls made before, since its best chain moves.
    [CatchUpTo] and [ProcessBlock] call themselves after a reorganisation, and a
    Go [for] loop over [int32] need not end: each runs on fuel, and a run that
    needs more ends in [out_of_fuel].  The theorems give the fuel that is enough.
    Log lines and metrics are left out; [chainhash.Hash.String] has 64 characters,
    so their slices [[:16]] do not panic. *)

From Stdlib Require Import Strings.Byte.
From S2P Require Import Prelude Bytes Hex Keys Values Json Checkpoint Pebble Store Sha256 Types Mempool Block Reorg.

Definition out_of_fuel : error := ESentinel "fuel" "out of fuel".

(** What ends so has not returned. *)
Definition unreturned (e : error) : bool := errors_Is e "fuel".

Definition ErrPrunedGap : error :=
  ESentinel "ErrPrunedGap" "indexed tip is below bitcoind prune height".

Section Chain.
Context {P : Pebble} {B : Btcd} {Zs : Zstd}.

(** [*rpcclient.Client], as far as it is called here. *)
Record node := mkNode {
  node_hash : rpc_client;                          (* GetBlockHash *)
  node_block : nat -> bytes -> result MsgBlock;    (* GetBlock *)
  node_height : nat -> bytes -> result Z;          (* GetBlockHeaderVerbose, its Height *)
  node_count : nat -> result Z;                    (* GetBlockCount *)
}.

(** The manager's fields beside the database, the overlay and the node. *)
Record cworld := mkCWorld {
  cm_rw : rworld;
  currentHeight : Z;
  currentHash : bytes;
  startHeight : Z;
  pruneHeight : Z;
}.

Definition NewChainManager (w : rworld) : cworld := mkCWorld w 0 zero_hash 0 0.

Definition on_rw {A} (c : st rworld A) : st cworld A := fun w =>
  let '(r, w1) := c (cm_rw w) in
  (r, mkCWorld w1 (currentHeight w) (currentHash w) (startHeight w) (pruneHeight w)).

Definition on_db {A} (c : st pdb A) : st cworld A := on_rw (rdb c).

Definition set_tip (height : Z) (hash : bytes) : st cworld unit :=
  st_modify (fun w => mkCWorld (cm_rw w) height hash (startHeight w) (pruneHeight w)).

Definition set_start (height : Z) : st cworld unit :=
  st_modify (fun w => mkCWorld (cm_rw w) (currentHeight w) (currentHash w) height (pruneHeight w)).

Definition SetPruneHeight (height : Z) : st cworld unit :=
  st_modify (fun w => mkCWorld (cm_rw w) (currentHeight w) (currentHash w) (startHeight w) height).

(** An RPC: the answer depends on the number of calls made. *)
Definition rpc {A} (f : nat -> result A) : st cworld A := on_rw (fun w =>
  (f (rw_calls w), mkRWorld (rw_world w) (S (rw_calls w)))).

Section Manager.
Context (N : node) (ord : range_order) (maxReorgDepth : Z).

Definition core_hash (height : Z) : st cworld bytes := on_rw (GetBlockHash (node_hash N) height).
Definition GetBlock (hash : bytes) : st cworld MsgBlock := rpc (fun n => node_block N n hash).
Definition GetBlockHeaderVerbose (hash : bytes) : st cworld Z := rpc (fun n => node_height N n hash).
Definition GetBlockCount : st cworld Z := rpc (node_count N).

Definition index (block : MsgBlock) (height : Z) : st cworld unit :=
  on_rw (rmp (IndexBlock ord block height)).

(** [CheckAndHandle], and the manager's tip set from its result: [copy] leaves
    the hash alone unless the result has one. *)
Definition handle_reorg (pre : string) : st cworld Z :=
  result ← st_wrap pre (on_rw (CheckAndHandle (node_hash N) maxReorgDepth));
  old ← st_gets currentHash;
  _ ← set_tip (rr_CurrentHeight result)
        (if decide (length (rr_CurrentHash result) = 32%nat) then rr_CurrentHash result else old);
  mret (rr_CurrentHeight result).

(** ** Start-up *)

Definition Initialize : st cworld unit :=
  _ ← st_wrap "reorg check failed: " (on_rw (CheckAndHandle (node_hash N) maxReorgDepth));
  state ← st_wrap "failed to get chain state: " (on_db GetChainState);
  _ ← set_tip (cs_Height state) (cs_BlockHash state);
  '(checkpoint, err) ← on_db LoadCheckpoint;
  if decide (err = None /\ 0 < cp_StartHeight checkpoint)
  then set_start (cp_StartHeight checkpoint)
  else mret ().

Definition SetStartHeight (height : Z) : st cworld unit :=
  cm ← st_gets id;
  if 0 <? currentHeight cm
  then st_fail (ENew "cannot set start height: already have indexed blocks")
  else if height <=? 0 then mret ()
  else
    prevHash ← st_wrap ("failed to get block hash at height " +:+ fmt_d (height - 1) +:+ ": ")
                 (core_hash (height - 1));
    _ ← set_tip (height - 1) prevHash;
    _ ← set_start height;
    st_wrap "failed to save starting checkpoint: "
      (on_db (SaveCheckpoint (mkCheckpoint (height - 1) (hash_String prevHash) height))).

(** ** Catching up *)

(** The loop; [again] is the call [cm.CatchUpTo(targetHeight)] in it. *)
Fixpoint catch_up_loop (again : st cworld unit) (n : nat) (height targetHeight : Z) :
    st cworld unit :=
  if targetHeight <? height then mret ()
  else
    match n with
    | O => st_fail out_of_fuel
    | S n =>
        hash ← st_wrap ("failed to get block hash at height " +:+ fmt_d height +:+ ": ")
                 (core_hash height);
        block ← st_wrap ("failed to get block at height " +:+ fmt_d height +:+ ": ")
                  (GetBlock hash);
        tip ← st_gets currentHash;
        if negb (hash_IsEqual (header_PrevBlock (block_Header block)) tip)
        then _ ← handle_reorg "reorg during catch-up: "; again
        else
          _ ← st_wrap ("failed to index block " +:+ fmt_d height +:+ ": ") (index block height);
          _ ← set_tip height (header_BlockHash (block_Header block));
          catch_up_loop again n (i32 (height + 1)) targetHeight
    end.

Fixpoint CatchUpTo (fuel : nat) (targetHeight : Z) : st cworld unit :=
  match fuel with
  | O => st_fail out_of_fuel
  | S fuel =>
      tip ← st_gets currentHeight;
      if targetHeight <=? tip then mret ()
      else catch_up_loop (CatchUpTo fuel targetHeight) (Z.to_nat (targetHeight - tip))
             (i32 (tip + 1)) targetHeight
  end.

(** ** A new block *)

Definition reorg_retry : st cworld Z :=
  height ← handle_reorg "reorg handling failed: ";
  st_fail (ENew ("reorg handled, rolled back to height " +:+ fmt_d height +:+
                 " - retry block processing")).

Fixpoint ProcessBlock (fuel : nat) (block : MsgBlock) : st cworld Z :=
  match fuel with
  | O => st_fail out_of_fuel
  | S fuel =>
      let blockHash := header_BlockHash (block_Header block) in
      cm ← st_gets id;
      if hash_IsEqual (header_PrevBlock (block_Header block)) (currentHash cm) then
        let newHeight := i32 (currentHeight cm + 1) in
        _ ← st_wrap ("failed to index block at height " +:+ fmt_d newHeight +:+ ": ")
              (index block newHeight);
        _ ← set_tip newHeight blockHash;
        mret newHeight
      else
        actualHeight ← st_wrap "block not found in Core: " (GetBlockHeaderVerbose blockHash);
        if actualHeight <=? currentHeight cm then reorg_retry
        else if i32 (currentHeight cm + 1) <? actualHeight then
          _ ← st_wrap "catch-up failed: " (CatchUpTo fuel (i32 (actualHeight - 1)));
          ProcessBlock fuel block
        else reorg_retry
  end.

(** ** Gaps *)

(** [header, err := cm.db.GetHeader(height); err != nil || len(header) != 80] *)
Definition header_missing (height : Z) : st cworld bool :=
  r ← st_try (on_db (GetHeader height));
  mret match r with
       | Ok header => negb (bool_decide (length header = 80%nat))
       | Err _ => true
       end.

Fixpoint repair_loop (n : nat) (height endHeight : Z) : st cworld unit :=
  if endHeight <? height then mret ()
  else
    match n with
    | O => st_fail out_of_fuel
    | S n =>
        hash ← st_wrap ("failed to get block hash at " +:+ fmt_d height +:+ ": ")
                 (core_hash height);
        block ← st_wrap ("failed to get block at " +:+ fmt_d height +:+ ": ") (GetBlock hash);
        _ ← st_wrap ("failed to index block " +:+ fmt_d height +:+ ": ") (index block height);
        repair_loop n (i32 (height + 1)) endHeight
    end.

Definition repairGap (startHeight endHeight : Z) : st cworld unit :=
  repair_loop (Z.to_nat (endHeight - startHeight + 1)) startHeight endHeight.

Definition repair_wrapped (gapStart gapEnd : Z) : st cworld unit :=
  st_wrap ("failed to repair gap " +:+ fmt_d gapStart +:+ "-" +:+ fmt_d gapEnd +:+ ": ")
    (repairGap gapStart gapEnd).

(** [for h := cm.currentHeight; h > 0; h--] *)
Fixpoint first_indexed_loop (n : nat) (h : Z) : st cworld Z :=
  match n with
  | O => mret 1
  | S n =>
      r ← st_try (on_db (GetHeader h));
      match r with
      | Err _ => mret (i32 (h + 1))
      | Ok _ => first_indexed_loop n (h - 1)
      end
  end.

Definition findFirstIndexedHeight : st cworld Z :=
  r ← st_try (on_db (GetHeader 1));
  match r with
  | Ok _ => mret 1
  | Err _ => tip ← st_gets currentHeight; first_indexed_loop (Z.to_nat tip) tip
  end.

(** [for height := endHeight; height >= startHeight; height--] *)
Fixpoint last_matching_loop (n : nat) (height : Z) : st cworld (option (Z * bytes)) :=
  match n with
  | O => mret None
  | S n =>
      r ← st_try (on_db (GetHeader height));
      match r with
      | Err _ => last_matching_loop n (height - 1)
      | Ok headerBytes =>
          if decide (length headerBytes <> 80%nat) then last_matching_loop n (height - 1)
          else
            match header_Deserialize headerBytes with
            | Err _ => last_matching_loop n (height - 1)
            | Ok wireHeader =>
                let ourHash := header_BlockHash wireHeader in
                c ← st_try (core_hash height);
                match c with
                | Err _ => last_matching_loop n (height - 1)
                | Ok coreHash =>
                    if hash_IsEqual ourHash coreHash then mret (Some (height, ourHash))
                    else last_matching_loop n (height - 1)
                end
            end
      end
  end.

Definition findLastMatchingHeight (startHeight endHeight : Z) : st cworld (Z * bytes) :=
  found ← last_matching_loop (Z.to_nat (endHeight - startHeight + 1)) endHeight;
  match found with
  | Some r => mret r
  | None => st_fail (ENew ("no matching block found in range " +:+ fmt_d startHeight +:+ "-" +:+
                           fmt_d endHeight))
  end.

(** The error of [SaveCheckpoint] is only logged. *)
Definition save_tip (start : Z) : st cworld unit :=
  cm ← st_gets id;
  _ ← st_try (on_db (SaveCheckpoint
        (mkCheckpoint (currentHeight cm) (hash_String (currentHash cm)) start)));
  mret ().

(** The tip is not the node's: the tip goes back to the last common block, or
    to the start of the range. *)
Definition reset_tip (effectiveStart : Z) : st cworld unit :=
  tip ← st_gets currentHeight;
  m ← st_try (findLastMatchingHeight effectiveStart tip);
  match m with
  | Err _ =>
      _ ← (if 1 <? effectiveStart then
             prevHash ← st_wrap ("failed to get hash at height " +:+ fmt_d (effectiveStart - 1) +:+
                                 ": ") (core_hash (effectiveStart - 1));
             set_tip (effectiveStart - 1) prevHash
           else set_tip 0 zero_hash);
      save_tip effectiveStart
  | Ok (matchHeight, matchHash) =>
      _ ← set_tip matchHeight matchHash;
      start ← st_gets startHeight;
      save_tip start
  end.

(** The first pass, every [step] heights; the result is [gapStart]. *)
Fixpoint sample_loop (n : nat) (height step gapStart : Z) : st cworld Z :=
  tip ← st_gets currentHeight;
  if tip <? height then mret gapStart
  else
    match n with
    | O => st_fail out_of_fuel
    | S n =>
        missing ← header_missing height;
        if (missing : bool)
        then sample_loop n (i32 (height + step)) step (if gapStart =? -1 then height else gapStart)
        else if gapStart =? -1 then sample_loop n (i32 (height + step)) step (-1)
        else
          _ ← repair_wrapped gapStart (height - 1);
          sample_loop n (i32 (height + step)) step (-1)
    end.

(** [for gapEnd < cm.currentHeight { ... gapEnd++ }] *)
Fixpoint gap_end (n : nat) (gapEnd : Z) : st cworld Z :=
  tip ← st_gets currentHeight;
  match n with
  | O => mret gapEnd
  | S n =>
      if gapEnd <? tip then
        missing ← header_missing (gapEnd + 1);
        if (missing : bool) then gap_end n (gapEnd + 1) else mret gapEnd
      else mret gapEnd
  end.

(** The second pass, every height. *)
Fixpoint small_gaps_loop (n : nat) (height : Z) : st cworld unit :=
  tip ← st_gets currentHeight;
  if tip <? height then mret ()
  else
    match n with
    | O => st_fail out_of_fuel
    | S n =>
        missing ← header_missing height;
        if (missing : bool) then
          gapEnd ← gap_end (Z.to_nat (tip - height)) height;
          _ ← repair_wrapped height gapEnd;
          small_gaps_loop n (i32 (gapEnd + 1))
        else small_gaps_loop n (i32 (height + 1))
    end.

Definition sample_step (rangeSize : Z) : Z :=
  if 1000 <? rangeSize then Z.max 1 (Z.quot rangeSize 100) else 1.

(** The check of the headers in [effectiveStart .. currentHeight]. *)
Definition repair_headers (effectiveStart : Z) : st cworld unit :=
  tip ← st_gets currentHeight;
  let step := sample_step (i32 (i32 (tip - effectiveStart) + 1)) in
  let rounds := Z.to_nat (tip - effectiveStart + 1) in
  gapStart ← sample_loop rounds effectiveStart step (-1);
  _ ← (if gapStart =? -1 then mret () else repair_wrapped gapStart tip);
  if 1 <? step then small_gaps_loop rounds effectiveStart else mret ().

Definition effective_start : st cworld Z :=
  start ← st_gets startHeight;
  if start <=? 0 then
    first ← findFirstIndexedHeight;
    mret (if first <=? 0 then 1 else first)
  else mret start.

Definition VerifyAndRepairGaps : st cworld unit :=
  cm ← st_gets id;
  if currentHeight cm <=? 0 then mret ()
  else
    effectiveStart ← effective_start;
    tipHash ← st_wrap "failed to get tip hash from Core: " (core_hash (currentHeight cm));
    if negb (hash_IsEqual tipHash (currentHash cm)) then reset_tip effectiveStart
    else repair_headers effectiveStart.

Definition CatchUpToTip (fuel : nat) : st cworld unit :=
  cm ← st_gets id;
  if (0 <? pruneHeight cm) && (currentHeight cm <? pruneHeight cm)
  then st_fail (EWrap "" ErrPrunedGap
         (": indexed tip is at " +:+ fmt_d (currentHeight cm) +:+
          " but bitcoind has pruned blocks below " +:+ fmt_d (pruneHeight cm)))
  else
    _ ← st_wrap "gap repair failed: " VerifyAndRepairGaps;
    blockCount ← st_wrap "failed to get block count: " GetBlockCount;
    let coreTip := i32 blockCount in
    tip ← st_gets currentHeight;
    if coreTip <=? tip then mret () else CatchUpTo fuel coreTip.

(** ** The integrity check *)

Fixpoint integrity_loop (n : nat) (height step : Z) : st cworld unit :=
  tip ← st_gets currentHeight;
  if tip <? height then mret ()
  else
    match n with
    | O => st_fail out_of_fuel
    | S n =>
        header ← st_wrap ("missing header at height " +:+ fmt_d height +:+ ": ")
                   (on_db (GetHeader height));
        _ ← st_lift (check (bool_decide (length header = 80%nat))
              (ENew ("invalid header length at height " +:+ fmt_d height +:+ ": got " +:+
                     fmt_len header +:+ ", want 80")));
        coreHash ← st_wrap ("failed to get Core block hash at " +:+ fmt_d height +:+ ": ")
                     (core_hash height);
        wireHeader ← st_lift (wrap ("failed to deserialize header at " +:+ fmt_d height +:+ ": ")
                       (header_Deserialize header));
        let ourHash := header_BlockHash wireHeader in
        if negb (hash_IsEqual ourHash coreHash) then
          ours ← st_lift (string_take16 (hash_String ourHash));
          core ← st_lift (string_take16 (hash_String coreHash));
          st_fail (ENew ("hash mismatch at height " +:+ fmt_d height +:+ ": ours=" +:+ ours +:+
                         ", core=" +:+ core))
        else integrity_loop n (i32 (height + step)) step
    end.

Definition VerifyChainIntegrity (sampleSize : Z) : st cworld unit :=
  cm ← st_gets id;
  if currentHeight cm <=? 0 then mret ()
  else
    let effectiveStart := if startHeight cm <=? 0 then 1 else startHeight cm in
    let rangeSize := i32 (i32 (currentHeight cm - effectiveStart) + 1) in
    if i32 sampleSize =? 0 then st_fail (go_panic "integer divide by zero")
    else
      let step := Z.max 1 (i32 (Z.quot rangeSize (i32 sampleSize))) in
      integrity_loop (Z.to_nat (currentHeight cm - effectiveStart + 1)) effectiveStart step.

(** ** The rest *)

Definition PruneOldUndo : st cworld (result Z) :=
  tip ← st_gets currentHeight; on_db (PruneOldUndoData maxReorgDepth tip).

Definition GetCurrentHeight : st cworld Z := st_gets currentHeight.
Definition GetCurrentHash : st cworld bytes := st_gets currentHash.

End Manager.
End Chain.
