(* ===== verification/Follow.v ===== *)
(** * Following the node's chain

    The chain manager against a node that serves one chain of valid blocks:
    catching up indexes exactly the missing blocks, in order, and ends at the
    node's tip; after a reorganisation it first returns to the fork. *)

From Stdlib Require Import Strings.Byte.
From S2P Require Import Prelude Bytes Hex Keys Values Json Checkpoint Pebble Store Sha256 Types Mempool MempoolFacts MempoolProps Block BlockFacts BlockOps BlockProps Reorg ReorgFacts ReorgProps ChainFacts ReorgChain Typed Total Steps Chain.

(** ** Runs of the manager's pieces *)

Section Runs.
Context {P : Pebble} {B : Btcd} {Zs : Zstd}.

Definition cm_world (w : cworld) : world := rw_world (cm_rw w).
Definition with_rw (w : cworld) (rw : rworld) : cworld :=
  mkCWorld rw (currentHeight w) (currentHash w) (startHeight w) (pruneHeight w).
Definition with_tip (w : cworld) (h : Z) (hash : bytes) : cworld :=
  mkCWorld (cm_rw w) h hash (startHeight w) (pruneHeight w).

(** One RPC later. *)
Definition called (w : cworld) : cworld := with_rw w (mkRWorld (cm_world w) (S (rw_calls (cm_rw w)))).

Lemma core_hash_run N h w : core_hash N h w = (node_hash N (rw_calls (cm_rw w)) h, called w).
Proof. done. Qed.
Lemma GetBlock_run N hash w : GetBlock N hash w = (node_block N (rw_calls (cm_rw w)) hash, called w).
Proof. done. Qed.
Lemma GetBlockHeaderVerbose_run N hash w :
  GetBlockHeaderVerbose N hash w = (node_height N (rw_calls (cm_rw w)) hash, called w).
Proof. done. Qed.

Lemma on_rw_run {A} (c : st rworld A) w r rw : c (cm_rw w) = (r, rw) -> on_rw c w = (r, with_rw w rw).
Proof. unfold on_rw. by intros ->. Qed.

Lemma index_run ord block h w r w1 : IndexBlock ord block h (cm_world w) = (r, w1) ->
  index ord block h w = (r, with_rw w (mkRWorld w1 (rw_calls (cm_rw w)))).
Proof. intros E. unfold index. apply on_rw_run. unfold rmp. unfold cm_world in E. by rewrite E. Qed.

Lemma on_db_run {A} (c : st pdb A) w r d : c (w_db (cm_world w)) = (r, d) ->
  on_db c w = (r, with_rw w (mkRWorld (mkWorld d (w_mp (cm_world w))) (rw_calls (cm_rw w)))).
Proof.
  intros E. unfold on_db. apply on_rw_run. unfold rdb, in_db. unfold cm_world in *. by rewrite E.
Qed.

(** Indexing [n] blocks of a chain from height [h], one after the other. *)
Fixpoint index_from (ord : range_order) (nb : Z -> MsgBlock) (n : nat) (h : Z) (w : world) : world :=
  match n with
  | O => w
  | S n => index_from ord nb n (h + 1) (IndexBlock ord (nb h) h w).2
  end.

(** The inputs and outputs of a block. *)
Definition block_io (block : MsgBlock) : nat :=
  sum_list ((fun tx => length (tx_TxIn tx) + length (tx_TxOut tx))%nat <$> block_Transactions block).

Lemma length_omap {A C} (f : A -> option C) l : (length (omap f l) <= length l)%nat.
Proof. unfold omap. induction l as [|x l IH]; [done|]. simpl. destruct (f x); simpl in *; lia. Qed.

Lemma block_io_bound c bh h txs :
  (length (block_spent c txs) + length (block_created bh h txs) <=
   sum_list ((fun tx => length (tx_TxIn tx) + length (tx_TxOut tx))%nat <$> txs))%nat.
Proof.
  unfold block_spent, block_created, indexed.
  assert (H : forall (l : list (nat * MsgTx)), (length (l ≫= tx_spent c) + length (l ≫= tx_created bh h) <=
    sum_list ((fun tx => length (tx_TxIn tx) + length (tx_TxOut tx))%nat <$> l.*2))%nat).
  { induction l as [|[i tx] l IH]; [done|]. rewrite !bind_cons, !length_app, !fmap_cons. cbn [sum_list_with snd id].
    assert (length (tx_spent c (i, tx)) <= length (tx_TxIn tx))%nat.
    { unfold tx_spent. cbn. destruct (i =? 0)%nat; [simpl; lia|]. apply length_omap. }
    assert (length (tx_created bh h (i, tx)) <= length (tx_TxOut tx))%nat.
    { unfold tx_created. etrans; [apply length_omap|]. unfold indexed. by rewrite length_imap. }
    lia. }
  specialize (H (imap pair txs)). by rewrite imap_pair_snd in H.
Qed.

End Runs.

Section Follow.
Context {P : Pebble} {PL : PebbleLaws P} {PH : PebbleHealthy P PL} {B : Btcd} {BL : BtcdLaws B}.
Context {Zs : Zstd} {ZL : ZstdLaws Zs}.

(** [serves N nb top]: whenever it is asked, the node's best chain has the
    blocks [nb 0 .. nb top], each valid and linked to the one before. *)
Record serves (N : node) (nb : Z -> MsgBlock) (top : Z) : Prop := {
  sv_top : 0 <= top < 2 ^ 31 - 1;
  sv_hash n h : 0 <= h <= top -> node_hash N n h = Ok (block_hash (nb h));
  sv_block n h : 0 <= h <= top -> node_block N n (block_hash (nb h)) = Ok (nb h);
  sv_height n h : 0 <= h <= top -> node_height N n (block_hash (nb h)) = Ok h;
  sv_count n : node_count N n = Ok top;
  sv_prev h : 0 <= h < top -> header_PrevBlock (block_Header (nb (h + 1))) = block_hash (nb h);
  sv_inj h h' : 0 <= h <= top -> 0 <= h' <= top -> block_hash (nb h) = block_hash (nb h') -> h = h';
  sv_valid h : 0 <= h <= top -> valid_block (nb h);
  sv_io h : 0 <= h <= top -> Z.of_nat (block_io (nb h)) < 2 ^ 32;
}.

(** The manager can work: the engine is healthy and the data typed. *)
Record working (w : cworld) : Prop := {
  wk_healthy : healthy (w_db (cm_world w));
  wk_typed : typed_db (contents (w_db (cm_world w)));
}.

(** The manager's tip is block [h] of the node's chain. *)
Definition tip_on (nb : Z -> MsgBlock) (h : Z) (w : cworld) : Prop :=
  currentHeight w = h /\ currentHash w = block_hash (nb h).

(** The checkpoint says what the manager's fields say. *)
Definition tip_saved (w : cworld) : Prop :=
  exists cp, json_wf cp /\ contents (w_db (cm_world w)) !! KeyCheckpoint = Some (json_Marshal cp) /\
    cp_Height cp = currentHeight w /\ cp_BlockHash cp = hash_String (currentHash w).

Lemma working_same w w' : cm_world w' = cm_world w -> working w -> working w'.
Proof. intros E [H1 H2]. split; by rewrite E. Qed.

(** The database has a header at a height. *)
Definition has_header (w : world) (h : Z) : Prop :=
  is_Some (contents (w_db w) !! (PrefixHeader :: be_encode 4 (u32 h))).

Lemma index_headers c c' block h undo hss : indexed_block c c' block h undo hss ->
  NoDup (TxHash <$> block_Transactions block) ->
  is_Some (c' !! (PrefixHeader :: be_encode 4 (u32 h))) /\
  forall h', is_Some (c !! (PrefixHeader :: be_encode 4 (u32 h'))) ->
    is_Some (c' !! (PrefixHeader :: be_encode 4 (u32 h'))).
Proof.
  intros Hix Hnd. destruct Hix as (ops & Bb & Hc).
  destruct (block_batch_parts _ _ _ _ _ _ Bb)
    as (header & buf & raws & z & d & cp & _ & _ & _ & _ & _ & _ & _ & _ & Hops).
  assert (Hown : forall o h', block_op c block h hss header buf raws z d cp o ->
    op_key o = PrefixHeader :: be_encode 4 (u32 h') ->
    be_encode 4 (u32 h') = be_encode 4 (u32 h) /\ op_value o = Some header).
  { intros o h' [] E; try discriminate E. cbn in E. apply cons_inj in E as [_ E]. done. }
  assert (Hh : c' !! (PrefixHeader :: be_encode 4 (u32 h)) = Some header).
  { eapply block_key; [done|done|by apply Hc| |].
    - intros o Ho E. by eapply Hown.
    - right. eexists. split; [apply bop_header|done]. }
  split; [by eexists|]. intros h' [v Hv].
  destruct (decide (be_encode 4 (u32 h') = be_encode 4 (u32 h))) as [E|Hne].
  { rewrite E. by eexists. }
  exists v. eapply block_key; [done|done|by apply Hc| |by left].
  intros o Ho E. by destruct (Hown o h' Ho E).
Qed.

(** Indexing a valid block of the right height. *)
Lemma index_step ord block h w : working w -> 0 <= h -> in_i32 h -> valid_block block ->
  Z.of_nat (block_io block) < 2 ^ 32 ->
  exists w1, IndexBlock ord block h (cm_world w) = (Ok (), w1) /\
    index ord block h w = (Ok (), with_rw w (mkRWorld w1 (rw_calls (cm_rw w)))) /\
    working (with_rw w (mkRWorld w1 (rw_calls (cm_rw w)))) /\
    (forall h', has_header (cm_world w) h' \/ h' = h -> has_header w1 h') /\
    exists cp, json_wf cp /\ contents (w_db w1) !! KeyCheckpoint = Some (json_Marshal cp) /\
      cp_Height cp = h /\ cp_BlockHash cp = hash_String (block_hash block).
Proof.
  intros [Hd Ht] H0 Hh Hb Hio.
  destruct (IndexBlock_total ord block h (cm_world w) Hd Ht H0 Hb) as (w1 & E & Hd1).
  destruct (IndexBlock_Ok ord block h _ w1 (vb_nodup _ Hb) E) as (undo & hss & Hix).
  exists w1. split_and!; [done|by apply index_run| | |].
  - split; [done|]. cbn. change w1 with (Ok (A := unit) (), w1).2. rewrite <- E.
    apply IndexBlock_typed; [apply Hb|done| |done].
    pose proof (block_io_bound (contents (w_db (cm_world w))) (block_hash block) h
      (block_Transactions block)). unfold block_io in Hio. unfold block_hash in *. lia.
  - destruct (index_headers _ _ _ _ _ _ Hix (vb_nodup _ Hb)) as [H1 H2].
    intros h' [Hp| ->]; [by apply H2|done].
  - destruct (records_after _ _ _ _ _ _ Hix (vb_nodup _ Hb)) as
      (header & buf & raws & z & d & cp & _ & _ & _ & _ & _ & H6 & H7 & H8 & _ & _ & _ & _ & _ & K & _).
    exists cp. split_and!; [|done..]. split_and!; [by rewrite H6|done|].
    rewrite H7, hash_String_hex by apply length_BlockHash. apply plain_EncodeToString.
Qed.

Section Node.
Context (N : node) (ord : range_order) (maxReorgDepth : Z) (nb : Z -> MsgBlock) (top : Z).
Context (S : serves N nb top).

(** What following the chain up to height [h] leaves. *)
Record followed (w : cworld) (h : Z) (w' : cworld) : Prop := {
  fo_tip : tip_on nb h w';
  fo_start : startHeight w' = startHeight w;
  fo_prune : pruneHeight w' = pruneHeight w;
  fo_world : cm_world w' =
    index_from ord nb (Z.to_nat (h - currentHeight w)) (currentHeight w + 1) (cm_world w);
  fo_working : working w';
  fo_saved : currentHeight w < h -> tip_saved w';
  fo_headers h' : has_header (cm_world w) h' \/ currentHeight w < h' <= h ->
    has_header (cm_world w') h';
}.

(** One block of the loop. *)
Lemma catch_up_step again n h target w : 0 <= h < target -> target <= top ->
  tip_on nb h w -> working w ->
  exists w1, catch_up_loop N ord maxReorgDepth again (Datatypes.S n) (h + 1) target w =
      catch_up_loop N ord maxReorgDepth again n (h + 2) target w1 /\
    followed w (h + 1) w1.
Proof.
  intros Hh Htop [Th Thash] Hw. pose proof (sv_top _ _ _ S) as Ht.
  cbn [catch_up_loop]. destruct (Z.ltb_spec target (h + 1)); [lia|].
  rewrite (st_bind_run (st_wrap _ _) _ w (block_hash (nb (h + 1))) (called w)).
  2:{ apply st_wrap_Ok. rewrite core_hash_run, (sv_hash _ _ _ S) by lia. done. }
  rewrite (st_bind_run (st_wrap _ _) _ (called w) (nb (h + 1)) (called (called w))).
  2:{ apply st_wrap_Ok. rewrite GetBlock_run, (sv_block _ _ _ S) by lia. done. }
  set (w2 := called (called w)).
  rewrite (st_bind_run (st_gets currentHash) _ w2 (currentHash w) w2) by done.
  rewrite (sv_prev _ _ _ S) by lia. rewrite Thash.
  rewrite (proj2 (hash_IsEqual_eq _ _)) by done. cbn [negb].
  destruct (index_step ord (nb (h + 1)) (h + 1) w2) as (w3 & E1 & E2 & Hw3 & Hhd & cp & Hcp);
    [by apply (working_same w)|lia|unfold in_i32; lia|apply (sv_valid _ _ _ S); lia
    |apply (sv_io _ _ _ S); lia|].
  rewrite (st_bind_run _ _ _ _ _ (proj2 (st_wrap_Ok _ _ _ _ _) E2)).
  rewrite (st_bind_run (set_tip _ _) _ _ () (with_tip (with_rw w2 (mkRWorld w3 (rw_calls (cm_rw w2))))
    (h + 1) (block_hash (nb (h + 1))))) by done.
  rewrite i32_id by (unfold in_i32; lia). replace (h + 1 + 1) with (h + 2) by lia.
  eexists. split; [done|]. split; try done.
  - cbn. rewrite Th. replace (Z.to_nat (h + 1 - h)) with 1%nat by lia. cbn [index_from].
    change (cm_world w2) with (cm_world w) in E1. by rewrite E1.
  - destruct Hw3 as [? ?]. by split.
  - intros _. exists cp. cbn. by destruct Hcp as (? & ? & ? & ?).
  - intros h' Hp. apply Hhd. rewrite Th in Hp. destruct Hp as [Hp|Hp]; [by left|right; lia].
Qed.

Lemma index_from_app n m h w : index_from ord nb (n + m) h w =
  index_from ord nb m (h + Z.of_nat n) (index_from ord nb n h w).
Proof.
  revert h w; induction n as [|n IH]; intros h w; cbn [index_from Nat.add].
  { by rewrite Z.add_0_r. }
  rewrite IH. f_equal. lia.
Qed.

Lemma followed_trans w h w1 h' w2 : currentHeight w <= h <= h' ->
  followed w h w1 -> followed w1 h' w2 -> followed w h' w2.
Proof.
  intros Hh [T1 A1 A2 A3 A4 A5 A6] [T2 C1 C2 C3 C4 C5 C6]. pose proof (proj1 T1) as E.
  split; [done|by rewrite C1|by rewrite C2| |done| |].
  - rewrite C3, A3, E. replace (Z.to_nat (h' - currentHeight w)) with
      (Z.to_nat (h - currentHeight w) + Z.to_nat (h' - h))%nat by lia.
    rewrite index_from_app. f_equal. lia.
  - intros Hl. destruct (decide (h = h')) as [<-|Hne]; [|apply C5; lia].
    rewrite E in C3. replace (Z.to_nat (h - h)) with O in C3 by lia. cbn in C3.
    destruct A5 as (cp & H1 & H2 & H3 & H4); [lia|]. exists cp. rewrite C3.
    destruct T1 as [G1 E1], T2 as [G2 E2]. rewrite G2, E2, <- E1, <- E. done.
  - intros h0 [Hp|Hp]; apply C6; [left; apply A6; by left|].
    destruct (decide (h0 <= h)); [left; apply A6; right; lia|right; lia].
Qed.

Lemma followed_refl w : tip_on nb (currentHeight w) w -> working w -> followed w (currentHeight w) w.
Proof.
  intros T Hw. split; [done..| |done|lia|].
  - by replace (Z.to_nat _) with O by lia.
  - intros h' [?|?]; [done|lia].
Qed.

Lemma catch_up_loop_run again n h target w : 0 <= h <= target -> target <= top ->
  Z.of_nat n = target - h -> tip_on nb h w -> working w ->
  exists w', catch_up_loop N ord maxReorgDepth again n (h + 1) target w = (Ok (), w') /\
    followed w target w'.
Proof.
  revert h w; induction n as [|n IH]; intros h w Hh Htop Hn T Hw.
  - assert (h = target) as -> by lia. cbn [catch_up_loop].
    destruct (Z.ltb_spec target (target + 1)); [|lia]. exists w. split; [done|].
    pose proof T as [E _]. rewrite <- E at 1. apply followed_refl; [by rewrite E|done].
  - destruct (catch_up_step again n h target w) as (w1 & E & F); [lia|done..|].
    rewrite E. destruct (IH (h + 1) w1) as (w' & E' & F');
      [lia|done|lia|apply F|apply F|].
    replace (h + 2) with (h + 1 + 1) by lia. rewrite E'. exists w'. split; [done|].
    destruct T as [T _]. eapply followed_trans; [|exact F|exact F']. lia.
Qed.

(** From a tip on the node's chain, one call of [CatchUpTo] is enough. *)
Lemma CatchUpTo_run fuel target w : 0 <= currentHeight w <= target -> target <= top ->
  tip_on nb (currentHeight w) w -> working w ->
  exists w', CatchUpTo N ord maxReorgDepth (Datatypes.S fuel) target w = (Ok (), w') /\
    followed w target w'.
Proof.
  intros Hh Htop T Hw. pose proof (sv_top _ _ _ S). cbn [CatchUpTo].
  rewrite (st_bind_run (st_gets currentHeight) _ w (currentHeight w) w) by done.
  destruct (Z.leb_spec target (currentHeight w)).
  - exists w. split; [done|]. replace target with (currentHeight w) by lia. by apply followed_refl.
  - rewrite i32_id by (unfold in_i32; lia).
    apply catch_up_loop_run; [lia|done|lia|done..].
Qed.

End Node.
End Follow.
