(* ===== verification/FollowProps.v ===== *)
(** * Catching up: properties

    Where [CatchUpTo] and [ProcessBlock] end, when the node serves one chain:
    on it, with a chain that only grew, after a reorganisation, and from an
    empty database, where they do not end at all. *)

From Stdlib Require Import Strings.Byte.
From S2P Require Import Prelude Bytes Hex Keys Values Json Checkpoint Pebble Store Sha256 Types Mempool MempoolFacts MempoolProps Block BlockFacts BlockOps BlockProps Reorg ReorgFacts ReorgProps ChainFacts ReorgChain Typed Total Steps Chain Follow.

Section FollowProps.
Context {P : Pebble} {PL : PebbleLaws P} {PH : PebbleHealthy P PL} {B : Btcd} {BL : BtcdLaws B}.
Context {Zs : Zstd} {ZL : ZstdLaws Zs}.

Section Served.
Context (N : node) (ord : range_order) (maxReorgDepth : Z) (nb : Z -> MsgBlock) (top : Z).
Context (HS : serves N nb top).

Lemma followed_called w h w' : followed ord nb (called w) h w' -> followed ord nb w h w'.
Proof. by intros [F1 F2 F3 F4 F5 F6 F7]. Qed.

Lemma process_connects fuel h w : 0 <= currentHeight w -> h = currentHeight w + 1 -> h <= top ->
  tip_on nb (currentHeight w) w -> working w ->
  exists w', ProcessBlock N ord maxReorgDepth (S fuel) (nb h) w = (Ok h, w') /\ followed ord nb w h w'.
Proof.
  intros H0 Hh Htop [_ Thash] Hw. pose proof (sv_top _ _ _ HS) as Ht. cbn [ProcessBlock].
  rewrite (st_bind_run (st_gets id) _ w w w) by done. unfold id.
  assert (Hp : header_PrevBlock (block_Header (nb h)) = currentHash w).
  { rewrite Hh, Thash. apply (sv_prev _ _ _ HS). lia. }
  rewrite (proj2 (hash_IsEqual_eq _ _) Hp). rewrite i32_id by (unfold in_i32; lia). rewrite <- Hh.
  destruct (index_step ord (nb h) h w) as (w1 & E1 & E2 & Hw1 & Hhd & cp & Hcp);
    [done|lia|unfold in_i32; lia|apply (sv_valid _ _ _ HS); lia|apply (sv_io _ _ _ HS); lia|].
  rewrite (st_bind_run _ _ _ _ _ (proj2 (st_wrap_Ok _ _ _ _ _) E2)).
  eexists. split; [done|]. split; try done.
  - cbn. replace (Z.to_nat (h - currentHeight w)) with 1%nat by lia. cbn [index_from].
    by rewrite <- Hh, E1.
  - destruct Hw1 as [? ?]. by split.
  - intros _. exists cp. cbn. by destruct Hcp as (? & ? & ? & ?).
  - intros h' Hp'. apply Hhd. destruct Hp' as [?|?]; [by left|right; lia].
Qed.

Lemma ProcessBlock_run fuel h w : 0 <= currentHeight w < h -> h <= top ->
  tip_on nb (currentHeight w) w -> working w ->
  exists w', ProcessBlock N ord maxReorgDepth (S (S fuel)) (nb h) w = (Ok h, w') /\
    followed ord nb w h w'.
Proof.
  intros H0 Htop T Hw. pose proof (sv_top _ _ _ HS) as Ht.
  destruct (decide (h = currentHeight w + 1)) as [Hh|Hne].
  { apply process_connects; [lia|done..]. }
  cbn [ProcessBlock]. rewrite (st_bind_run (st_gets id) _ w w w) by done. unfold id.
  destruct (hash_IsEqual _ _) eqn:E.
  { exfalso. apply hash_IsEqual_eq in E. replace h with (h - 1 + 1) in E by lia.
    rewrite (sv_prev _ _ _ HS), (proj2 T) in E by lia. apply (sv_inj _ _ _ HS) in E; lia. }
  rewrite (st_bind_run (st_wrap _ _) _ w h (called w)).
  2:{ apply st_wrap_Ok. rewrite GetBlockHeaderVerbose_run. f_equal.
      change (header_BlockHash (block_Header (nb h))) with (block_hash (nb h)).
      apply (sv_height _ _ _ HS). lia. }
  destruct (Z.leb_spec h (currentHeight w)); [lia|].
  rewrite !i32_id by (unfold in_i32; lia). destruct (Z.ltb_spec (currentHeight w + 1) h); [|lia].
  destruct (CatchUpTo_run N ord maxReorgDepth nb top HS fuel (h - 1) (called w)) as (w1 & E1 & F1);
    [cbn; lia|lia|done|by apply (working_same w)|].
  rewrite (st_bind_run _ _ _ _ _ (proj2 (st_wrap_Ok _ _ _ _ _) E1)).
  pose proof (fo_tip _ _ _ _ _ F1) as T1. pose proof (proj1 T1) as Eh.
  destruct (process_connects fuel h w1) as (w2 & E2 & F2); [lia|lia|done|by rewrite Eh|apply F1|].
  exists w2. split; [exact E2|]. apply followed_called in F1.
  eapply followed_trans; [|exact F1|exact F2]. lia.
Qed.

End Served.

(** A new block is indexed with whatever is missing below it: when the
    manager's tip is on the node's chain and a block [h] above it is handed to
    [ProcessBlock], the call returns [h] with fuel 2; the blocks from the tip to
    [h] have been indexed exactly once each, in order; the tip, in memory and in
    the checkpoint, is block [h], and every height above the old tip has its
    header. *)
Theorem process_block_catches_up (N : node) (ord : range_order) (maxReorgDepth : Z) (nb : Z -> MsgBlock)
    (top h : Z) (w : cworld) (fuel : nat)
    (HS : serves N nb top) (Hh : 0 <= currentHeight w < h) (Htop : h <= top)
    (Ht : tip_on nb (currentHeight w) w) (Hw : working w) :
  exists w', ProcessBlock N ord maxReorgDepth (S (S fuel)) (nb h) w = (Ok h, w') /\
    tip_on nb h w' /\ tip_saved w' /\ working w' /\
    cm_world w' =
      index_from ord nb (Z.to_nat (h - currentHeight w)) (currentHeight w + 1) (cm_world w) /\
    forall h', currentHeight w < h' <= h -> has_header (cm_world w') h'.
Proof.
  destruct (ProcessBlock_run N ord maxReorgDepth nb top HS fuel h w) as (w' & E & F); [done..|].
  exists w'. split_and!; [done|apply F|apply F; lia|apply F|apply F|]. intros h' H. apply F. by right.
Qed.

(** ** Reorganisations *)

Lemma handle_reorg_run N maxReorgDepth pre w r rw :
  CheckAndHandle (node_hash N) maxReorgDepth (cm_rw w) = (Ok r, rw) ->
  handle_reorg N maxReorgDepth pre w =
    (Ok (rr_CurrentHeight r), with_tip (with_rw w rw) (rr_CurrentHeight r)
       (if decide (length (rr_CurrentHash r) = 32%nat) then rr_CurrentHash r else currentHash w)).
Proof.
  intros E. unfold handle_reorg.
  rewrite (st_bind_run (st_wrap _ _) _ w r (with_rw w rw)) by (apply st_wrap_Ok; by apply on_rw_run).
  by rewrite (st_bind_run (st_gets currentHash) _ _ (currentHash w) (with_rw w rw)) by done.
Qed.

(** Catching up after a reorganisation, with the state [wr] in between. *)
Lemma CatchUpTo_crosses (N : node) (ord : range_order) (maxReorgDepth : Z) (nb : Z -> MsgBlock)
    (top base target : Z) (w0 wc : world) (bs : list MsgBlock) (last_block : MsgBlock) (w : cworld)
    (fuel : nat)
    (HS : serves N nb top) (Hstable : node_hash N = stable_client (fun h => block_hash (nb h)))
    (Hchain : chain ord base w0 bs wc) (Hlast : last bs = Some last_block) (Hbase : 0 <= base)
    (Hwf : undo_keys_wf (contents (w_db w0)))
    (Hour : our_block (contents (w_db w0)) base (block_hash (nb base)))
    (Hdiff : forall i block, bs !! i = Some block ->
       block_hash (nb (base + Z.of_nat i + 1)) <> block_hash block)
    (Hstart : Z.max 1 (stored_start (contents (w_db wc))) <= base)
    (Hdepth : Z.of_nat (length bs) <= maxReorgDepth) (Hmax : in_i32 maxReorgDepth)
    (Hdb : contents (w_db (cm_world w)) = contents (w_db wc)) (Hw : working w)
    (Hheight : currentHeight w = base + Z.of_nat (length bs))
    (Hhash : currentHash w = block_hash last_block)
    (Htarget : base + Z.of_nat (length bs) < target <= top) :
  exists w' wr, CatchUpTo N ord maxReorgDepth (S (S fuel)) target w = (Ok (), w') /\
    restorable_same (contents (w_db w0)) (contents (w_db wr)) /\ transactions (w_mp wr) = ∅ /\
    contents (w_db wr) !! KeyCheckpoint =
      Some (json_Marshal (mkCheckpoint base (BlockHashToHex (block_hash (nb base))) 0)) /\
    healthy (w_db wr) /\ typed_db (contents (w_db wr)) /\
    cm_world w' = index_from ord nb (Z.to_nat (target - base)) (base + 1) wr /\
    tip_on nb target w' /\ tip_saved w' /\ working w'.
Proof.
  pose proof (sv_top _ _ _ HS) as Ht. assert (Hne : bs <> []) by (by destruct bs).
  set (top0 := base + Z.of_nat (length bs)) in *.
  assert (Hl : forall h, length (block_hash (nb h)) = 32%nat) by (intros; apply length_BlockHash).
  cbn [CatchUpTo]. rewrite (st_bind_run (st_gets currentHeight) _ w top0 w)
    by (by unfold st_gets; rewrite Hheight).
  destruct (Z.leb_spec target top0); [lia|]. rewrite i32_id by (unfold in_i32; lia).
  destruct (Z.to_nat (target - top0)) as [|n] eqn:En; [lia|]. cbn [catch_up_loop].
  destruct (Z.ltb_spec target (top0 + 1)); [lia|].
  rewrite (st_bind_run (st_wrap _ _) _ w (block_hash (nb (top0 + 1))) (called w)).
  2:{ apply st_wrap_Ok. rewrite core_hash_run, (sv_hash _ _ _ HS) by lia. done. }
  rewrite (st_bind_run (st_wrap _ _) _ (called w) (nb (top0 + 1)) (called (called w))).
  2:{ apply st_wrap_Ok. rewrite GetBlock_run, (sv_block _ _ _ HS) by lia. done. }
  set (w2 := called (called w)).
  rewrite (st_bind_run (st_gets currentHash) _ w2 (currentHash w) w2) by done.
  destruct (hash_IsEqual _ _) eqn:Eq.
  { exfalso. apply hash_IsEqual_eq in Eq. rewrite (sv_prev _ _ _ HS), Hhash in Eq by lia.
    rewrite last_lookup in Hlast. apply (Hdiff _ _ Hlast).
    rewrite <- Eq. do 2 f_equal. destruct bs; [done|]. cbn [length pred] in *. lia. }
  cbn [negb].
  destruct (reorg_run ord base w0 wc bs (fun h => block_hash (nb h)) maxReorgDepth
    (block_hash (nb base)) (cm_rw w2)) as (rw & E & Hs & Hk & Hm); try done.
  { unfold in_i32. lia. }
  { apply Hw. }
  rewrite <- Hstable in E.
  rewrite (st_bind_run _ _ _ _ _ (handle_reorg_run _ _ _ _ _ _ E)).
  cbn [rr_CurrentHeight rr_CurrentHash]. rewrite decide_True by apply Hl.
  set (w3 := with_tip (with_rw w2 rw) base (block_hash (nb base))).
  assert (Hw3 : working w3).
  { pose proof (keepsR_CheckAndHandle healthy (node_hash N) maxReorgDepth (cm_rw w2)) as K1.
    pose proof (keepsR_CheckAndHandle (fun d => typed_db (contents d)) (node_hash N) maxReorgDepth (cm_rw w2)) as K2.
    rewrite E in K1, K2. split; [apply K1, Hw|apply K2, Hw]. }
  destruct (CatchUpTo_run N ord maxReorgDepth nb top HS fuel target w3) as (w4 & E4 & F4);
    [cbn; lia|lia|done|done|].
  exists w4, (rw_world rw). split_and!; [exact E4|done|done|exact Hk|apply Hw3|apply Hw3|apply F4|apply F4|apply F4; cbn; lia|apply F4].
Qed.

(** Catching up crosses a reorganisation: when the node's chain has left
    ours after height [base], within the handled depth, and is longer,
    [CatchUpTo] with fuel 2 rolls our blocks above [base] back and indexes the
    node's blocks from there: it returns, the tip in memory and in the checkpoint
    is the node's block at the target, and the database is the one from before
    our branch with the node's blocks indexed on top. *)
Theorem catch_up_follows_reorg (N : node) (ord : range_order) (maxReorgDepth : Z) (nb : Z -> MsgBlock)
    (top base target : Z) (w0 wc : world) (bs : list MsgBlock) (last_block : MsgBlock) (w : cworld)
    (fuel : nat)
    (HS : serves N nb top) (Hstable : node_hash N = stable_client (fun h => block_hash (nb h)))
    (Hchain : chain ord base w0 bs wc) (Hlast : last bs = Some last_block) (Hbase : 0 <= base)
    (Hwf : undo_keys_wf (contents (w_db w0)))
    (Hour : our_block (contents (w_db w0)) base (block_hash (nb base)))
    (Hdiff : forall i block, bs !! i = Some block ->
       block_hash (nb (base + Z.of_nat i + 1)) <> block_hash block)
    (Hstart : Z.max 1 (stored_start (contents (w_db wc))) <= base)
    (Hdepth : Z.of_nat (length bs) <= maxReorgDepth) (Hmax : in_i32 maxReorgDepth)
    (Hdb : contents (w_db (cm_world w)) = contents (w_db wc)) (Hw : working w)
    (Hheight : currentHeight w = base + Z.of_nat (length bs))
    (Hhash : currentHash w = block_hash last_block)
    (Htarget : base + Z.of_nat (length bs) < target <= top) :
  exists w' wr, CatchUpTo N ord maxReorgDepth (S (S fuel)) target w = (Ok (), w') /\
    restorable_same (contents (w_db w0)) (contents (w_db wr)) /\ transactions (w_mp wr) = ∅ /\
    cm_world w' = index_from ord nb (Z.to_nat (target - base)) (base + 1) wr /\
    tip_on nb target w' /\ tip_saved w' /\ working w'.
Proof.
  destruct (CatchUpTo_crosses N ord maxReorgDepth nb top base target w0 wc bs last_block w fuel)
    as (w' & wr & H1 & H2 & H3 & _ & _ & _ & H4); [done..|]. by exists w', wr.
Qed.

(** ** From genesis *)

(** Full indexing never starts: from an empty database with no start
    height (what [-start-height 0], "full indexing from genesis", configures),
    catching up to any height calls itself for ever, whatever the fuel: block 1
    does not connect to the zero hash, and [CheckAndHandle] on an empty database
    answers that all is well. *)
Theorem full_index_never_starts (N : node) (ord : range_order) (maxReorgDepth : Z) (nb : Z -> MsgBlock)
    (top target : Z) (w : cworld) (fuel : nat)
    (HS : serves N nb top) (Htarget : 1 <= target <= top)
    (Hgenesis : block_hash (nb 0) <> zero_hash)
    (Hd : healthy (w_db (cm_world w))) (Hempty : contents (w_db (cm_world w)) !! KeyCheckpoint = None)
    (Hfresh : currentHeight w = 0 /\ currentHash w = zero_hash) :
  (CatchUpTo N ord maxReorgDepth fuel target w).1 = Err out_of_fuel.
Proof.
  pose proof (sv_top _ _ _ HS) as Ht.
  revert w Hd Hempty Hfresh. induction fuel as [|fuel IH]; intros w Hd Hempty [F1 F2]; [done|].
  cbn [CatchUpTo]. rewrite (st_bind_run (st_gets currentHeight) _ w 0 w)
    by (by unfold st_gets; rewrite F1).
  destruct (Z.leb_spec target 0); [lia|]. change (i32 (0 + 1)) with (0 + 1).
  destruct (Z.to_nat (target - 0)) as [|n] eqn:En; [lia|]. cbn [catch_up_loop].
  destruct (Z.ltb_spec target (0 + 1)); [lia|].
  rewrite (st_bind_run (st_wrap _ _) _ w (block_hash (nb (0 + 1))) (called w)).
  2:{ apply st_wrap_Ok. rewrite core_hash_run, (sv_hash _ _ _ HS) by lia. done. }
  rewrite (st_bind_run (st_wrap _ _) _ (called w) (nb (0 + 1)) (called (called w))).
  2:{ apply st_wrap_Ok. rewrite GetBlock_run, (sv_block _ _ _ HS) by lia. done. }
  set (w2 := called (called w)).
  rewrite (st_bind_run (st_gets currentHash) _ w2 zero_hash w2) by (by unfold st_gets; cbn; rewrite F2).
  rewrite (sv_prev _ _ _ HS) by lia.
  destruct (hash_IsEqual _ _) eqn:Eq; [by apply hash_IsEqual_eq in Eq|]. cbn [negb].
  destruct (LoadCheckpoint_absent (w_db (cm_world w2))) as (d & E & Hd' & Hc'); [done..|].
  assert (Ecp : CheckAndHandle (node_hash N) maxReorgDepth (cm_rw w2) =
    (Ok (mkReorgResult false 0 [] 0 0 []), mkRWorld (mkWorld d (w_mp (cm_world w2))) (rw_calls (cm_rw w2)))).
  { unfold CheckAndHandle, checkpoint_or_fail, rdb, in_db, mbind, st_bind.
    change (rw_world (cm_rw w2)) with (cm_world w2). by rewrite E. }
  rewrite (st_bind_run _ _ _ _ _ (handle_reorg_run _ _ _ _ _ _ Ecp)).
  apply IH; [done|by cbn; rewrite Hc'|done].
Qed.

End FollowProps.
