(* ===== verification/Gaps.v ===== *)
(** * Gaps in the indexed range

    The header scan of [VerifyAndRepairGaps] on a node that serves the chain:
    both passes terminate, and together they leave no height without a header. *)

From Stdlib Require Import Strings.Byte.
From S2P Require Import Prelude Bytes Hex Keys Values Json Checkpoint Pebble Store Sha256 Types Mempool MempoolFacts MempoolProps Block BlockFacts BlockOps BlockProps Reorg ReorgFacts ReorgProps ChainFacts ReorgChain Typed Total Steps Chain Follow.

Section Gaps.
Context {P : Pebble} {PL : PebbleLaws P} {PH : PebbleHealthy P PL} {B : Btcd} {BL : BtcdLaws B}.
Context {Zs : Zstd} {ZL : ZstdLaws Zs}.

Definition same_tip (w w' : cworld) : Prop :=
  currentHeight w' = currentHeight w /\ currentHash w' = currentHash w /\
  startHeight w' = startHeight w /\ pruneHeight w' = pruneHeight w.

(** The manager only read. *)
Definition quiet (w w' : cworld) : Prop :=
  same_tip w w' /\ working w' /\ contents (w_db (cm_world w')) = contents (w_db (cm_world w)).

(** The manager may have added headers. *)
Definition repaired (w w' : cworld) : Prop :=
  same_tip w w' /\ working w' /\
  forall h, has_header (cm_world w) h -> has_header (cm_world w') h.

Lemma same_tip_trans a b c : same_tip a b -> same_tip b c -> same_tip a c.
Proof. intros (H1 & H2 & H3 & H4) (E1 & E2 & E3 & E4). unfold same_tip. by rewrite E1, E2, E3, E4. Qed.

Lemma repaired_trans a b c : repaired a b -> repaired b c -> repaired a c.
Proof. intros (H1 & H2 & H3) (E1 & E2 & E3). split_and!; [by eapply same_tip_trans|done|]. auto. Qed.

Lemma quiet_repaired a b : quiet a b -> repaired a b.
Proof. intros (H1 & H2 & H3). split_and!; [done..|]. unfold has_header. by rewrite H3. Qed.

Lemma quiet_trans a b c : quiet a b -> quiet b c -> quiet a c.
Proof. intros (H1 & H2 & H3) (E1 & E2 & E3). split_and!; [by eapply same_tip_trans|done|]. by rewrite E3. Qed.

Lemma quiet_refl w : working w -> quiet w w.
Proof. intros Hw. unfold quiet, same_tip. by split_and!. Qed.

Lemma repaired_refl w : working w -> repaired w w.
Proof. intros. by apply quiet_repaired, quiet_refl. Qed.

Lemma quiet_called w : working w -> quiet w (called w).
Proof. intros Hw. split_and!; [done|by apply (working_same w)|done]. Qed.

(** A read of the database. *)
Lemma on_db_reads {A} (m : st pdb A) w v : working w -> reads m (w_db (cm_world w)) v ->
  exists w', on_db m w = (Ok v, w') /\ quiet w w'.
Proof.
  intros [H1 H2] (d & E & Hd & Hc). eexists. split; [by apply on_db_run|].
  split_and!; [done| |done]. split; cbn; [done|by rewrite Hc].
Qed.

Lemma typed_header w h v : working w ->
  contents (w_db (cm_world w)) !! (PrefixHeader :: be_encode 4 (u32 h)) = Some v -> length v = 80%nat.
Proof. intros Hw E. apply (wk_typed _ Hw) in E; [|done]. by apply bool_decide_eq_true in E. Qed.

(** [GetHeader] says whether there is a header. *)
Lemma GetHeader_run h w : working w -> 0 <= h ->
  exists r w', on_db (GetHeader h) w = (r, w') /\ quiet w w' /\
    match r with
    | Ok v => length v = 80%nat /\
        contents (w_db (cm_world w)) !! (PrefixHeader :: be_encode 4 (u32 h)) = Some v
    | Err _ => ~ has_header (cm_world w) h
    end.
Proof.
  intros Hw H0.
  destruct (contents (w_db (cm_world w)) !! (PrefixHeader :: be_encode 4 (u32 h))) as [v|] eqn:E.
  - destruct (on_db_reads (GetHeader h) w v Hw) as (w' & E1 & Q).
    { by apply reads_GetHeader; [apply Hw| |]. }
    exists (Ok v), w'. split_and!; [done|done| |done]. by eapply typed_header.
  - destruct (GetHeader_absent h (w_db (cm_world w)) (wk_healthy _ Hw) H0 E) as (e & d & E2 & Hd & Hc).
    exists (Err e), (with_rw w (mkRWorld (mkWorld d (w_mp (cm_world w))) (rw_calls (cm_rw w)))).
    split_and!; [by apply on_db_run| |].
    + split_and!; [done| |done]. split; cbn; [done|rewrite Hc; apply Hw].
    + intros [v Hv]. by rewrite E in Hv.
Qed.

Lemma header_missing_run h w : working w -> 0 <= h ->
  exists b w', header_missing h w = (Ok b, w') /\ quiet w w' /\
    if b then ~ has_header (cm_world w) h else has_header (cm_world w) h.
Proof.
  intros Hw H0. destruct (GetHeader_run h w Hw H0) as (r & w' & E & Q & Hr).
  unfold header_missing. rewrite (st_bind_run _ _ _ _ _ (st_try_run _ _ _ _ E)).
  destruct r as [v|e]; eexists _, w'; (split_and!; [done|done|]).
  - destruct Hr as [Hl Hv]. rewrite bool_decide_eq_true_2 by done. by eexists.
  - done.
Qed.

Section Node.
Context (N : node) (ord : range_order) (nb : Z -> MsgBlock) (top : Z).
Context (HS : serves N nb top).

(** The checkpoint is the node's block [h]. *)
Definition saved_at (h : Z) (w : cworld) : Prop :=
  exists cp, json_wf cp /\ contents (w_db (cm_world w)) !! KeyCheckpoint = Some (json_Marshal cp) /\
    cp_Height cp = h /\ cp_BlockHash cp = hash_String (block_hash (nb h)).

Lemma repair_loop_run n s e w : 0 <= s -> e <= top -> Z.of_nat n = e - s + 1 -> working w ->
  exists w', repair_loop N ord n s e w = (Ok (), w') /\ repaired w w' /\
    (forall h, s <= h <= e -> has_header (cm_world w') h) /\ ((0 < n)%nat -> saved_at e w').
Proof.
  pose proof (sv_top _ _ _ HS) as Ht.
  revert s w; induction n as [|n IH]; intros s w H0 He Hn Hw; cbn [repair_loop].
  { destruct (Z.ltb_spec e s); [|lia]. exists w. split_and!; [done|by apply repaired_refl|lia|lia]. }
  destruct (Z.ltb_spec e s); [lia|].
  rewrite (st_bind_run (st_wrap _ _) _ w (block_hash (nb s)) (called w)).
  2:{ apply st_wrap_Ok. rewrite core_hash_run, (sv_hash _ _ _ HS) by lia. done. }
  rewrite (st_bind_run (st_wrap _ _) _ (called w) (nb s) (called (called w))).
  2:{ apply st_wrap_Ok. rewrite GetBlock_run, (sv_block _ _ _ HS) by lia. done. }
  destruct (index_step ord (nb s) s (called (called w))) as (w1 & _ & E2 & Hw1 & Hhd & cp & Hcp);
    [by apply (working_same w)|lia|unfold in_i32; lia|apply (sv_valid _ _ _ HS); lia
    |apply (sv_io _ _ _ HS); lia|].
  rewrite (st_bind_run _ _ _ _ _ (proj2 (st_wrap_Ok _ _ _ _ _) E2)).
  rewrite i32_id by (unfold in_i32; lia). set (w2 := with_rw _ _) in *.
  destruct (IH (s + 1) w2) as (w3 & E3 & R3 & H3 & S3); [lia|done|lia|done|].
  exists w3. assert (R2 : repaired w w2).
  { split_and!; [done..|]. intros h Hh. apply Hhd. by left. }
  split_and!; [done|by eapply repaired_trans| |].
  - intros h Hh. destruct (decide (h = s)) as [->|Hne]; [|apply H3; lia].
    apply R3. apply Hhd. by right.
  - intros _. destruct n as [|n]; [|apply S3; lia]. cbn [repair_loop] in E3.
    destruct (Z.ltb_spec e (s + 1)); [|lia]. injection E3 as <-. exists cp.
    assert (e = s) as -> by lia. by destruct Hcp as (? & ? & ? & ?).
Qed.

Lemma repair_run s e w : 0 <= s -> s <= e + 1 -> e <= top -> working w ->
  exists w', repair_wrapped N ord s e w = (Ok (), w') /\ repaired w w' /\
    (forall h, s <= h <= e -> has_header (cm_world w') h) /\ (s <= e -> saved_at e w').
Proof.
  intros H0 Hse He Hw.
  destruct (repair_loop_run (Z.to_nat (e - s + 1)) s e w) as (w' & E & R & H & S); [lia..|done|].
  exists w'. split_and!; [by apply st_wrap_Ok|done|done|]. intros. apply S. lia.
Qed.

(** *** The first pass *)

Lemma sample_loop_run start step n h gs w : 1 <= start <= h -> 1 <= step -> currentHeight w <= top ->
  currentHeight w + step < 2 ^ 31 -> h <= currentHeight w + step -> currentHeight w - h < Z.of_nat n ->
  gs = -1 \/ start <= gs < h /\ gs <= currentHeight w -> working w ->
  exists gs' w', sample_loop N ord n h step gs w = (Ok gs', w') /\ repaired w w' /\
    (gs' = -1 \/ start <= gs' <= currentHeight w) /\
    (step = 1 ->
       (forall x, start <= x < h -> ~ has_header (cm_world w) x -> gs <> -1 /\ gs <= x) ->
       forall x, start <= x <= currentHeight w -> ~ has_header (cm_world w') x -> gs' <> -1 /\ gs' <= x).
Proof.
  revert h gs w; induction n as [|n IH]; intros h gs w Hs Hstep Htop Hov Hle Hn Hgs Hw; cbn [sample_loop];
    rewrite (st_bind_run (st_gets currentHeight) _ w (currentHeight w) w) by done.
  all: destruct (Z.ltb_spec (currentHeight w) h);
    [exists gs, w; split_and!; [done|by apply repaired_refl|lia| intros ->; intros Hx x Hx' Hm; apply Hx; [lia|done]]|].
  { lia. }
  destruct (header_missing_run h w Hw) as (b & w1 & E & Q & Hb); [lia|].
  rewrite (st_bind_run _ _ _ _ _ E). pose proof (quiet_repaired _ _ Q) as R.
  destruct Q as ((Q1 & Q2 & Q3 & Q4) & Hw1 & Hc1).
  rewrite i32_id by (unfold in_i32; lia).
  assert (Hsame : forall x, has_header (cm_world w1) x <-> has_header (cm_world w) x).
  { intros x. unfold has_header. by rewrite Hc1. }
  destruct b.
  - (* missing *)
    destruct (IH (h + step) (if gs =? -1 then h else gs) w1) as (gs' & w2 & E2 & R2 & G2 & F2);
      [lia|done|lia|lia|lia|lia|destruct (Z.eqb_spec gs (-1)); lia|done|].
    rewrite E2. exists gs', w2. rewrite Q1 in *. split_and!; [done|by eapply repaired_trans|done|].
    intros -> Hx. apply F2; [done|]. intros x Hx' Hm. rewrite Hsame in Hm.
    destruct (decide (x = h)) as [->|Hne].
    + destruct (Z.eqb_spec gs (-1)); lia.
    + destruct (Hx x) as [? ?]; [lia|done|]. destruct (Z.eqb_spec gs (-1)); lia.
  - destruct (Z.eqb_spec gs (-1)) as [->|Hg].
    + destruct (IH (h + step) (-1) w1) as (gs' & w2 & E2 & R2 & G2 & F2);
        [lia|done|lia|lia|lia|lia|by left|done|].
      rewrite E2. exists gs', w2. rewrite Q1 in *. split_and!; [done|by eapply repaired_trans|done|].
      intros -> Hx. apply F2; [done|]. intros x Hx' Hm. rewrite Hsame in Hm.
      destruct (decide (x = h)) as [->|Hne]; [done|]. apply Hx; [lia|done].
    + destruct (repair_run gs (h - 1) w1) as (w2 & E2 & R2 & H2 & _); [lia|lia|lia|done|].
      rewrite (st_bind_run _ _ _ _ _ E2). pose proof R2 as ((T1 & T2 & T3 & T4) & Hw2 & M2).
      destruct (IH (h + step) (-1) w2) as (gs' & w3 & E3 & R3 & G3 & F3);
        [lia|done|lia|lia|lia|lia|by left|done|].
      rewrite E3. exists gs', w3. rewrite T1, Q1 in *. split_and!; [done| |done|].
      { eapply repaired_trans; [exact R|]. by eapply repaired_trans. }
      intros -> Hx. apply F3; [done|]. intros x Hx' Hm. exfalso. apply Hm.
      destruct (decide (x = h)) as [->|Hne]; [apply M2, Hsame; done|].
      destruct (decide (is_Some (contents (w_db (cm_world w)) !! (PrefixHeader :: be_encode 4 (u32 x))))) as [Hp|Hp].
      * by apply M2, Hsame.
      * apply H2. destruct (Hx x) as [? ?]; [lia|done|lia].
Qed.

(** *** The second pass *)

Lemma gap_end_run n g w : 0 <= g <= currentHeight w -> working w ->
  exists e w', gap_end n g w = (Ok e, w') /\ quiet w w' /\ g <= e <= currentHeight w.
Proof.
  revert g w; induction n as [|n IH]; intros g w Hg Hw; cbn [gap_end];
    rewrite (st_bind_run (st_gets currentHeight) _ w (currentHeight w) w) by done.
  { exists g, w. split_and!; [done|by apply quiet_refl|lia|lia]. }
  destruct (Z.ltb_spec g (currentHeight w)).
  2:{ exists g, w. split_and!; [done|by apply quiet_refl|lia|lia]. }
  destruct (header_missing_run (g + 1) w Hw) as (b & w1 & E & Q & _); [lia|].
  rewrite (st_bind_run _ _ _ _ _ E). destruct b; [|exists g, w1; split_and!; [done|done|lia|lia]].
  destruct (IH (g + 1) w1) as (e & w2 & E2 & Q2 & He); [rewrite (proj1 (proj1 Q)); lia|apply Q|].
  exists e, w2. rewrite (proj1 (proj1 Q)) in He. split_and!; [done|by eapply quiet_trans|lia|lia].
Qed.

Lemma small_gaps_run start n h w : 1 <= start <= h -> currentHeight w <= top ->
  h <= currentHeight w + 1 -> currentHeight w - h < Z.of_nat n -> working w ->
  (forall x, start <= x < h -> has_header (cm_world w) x) ->
  exists w', small_gaps_loop N ord n h w = (Ok (), w') /\ repaired w w' /\
    forall x, start <= x <= currentHeight w -> has_header (cm_world w') x.
Proof.
  pose proof (sv_top _ _ _ HS) as Ht.
  revert h w; induction n as [|n IH]; intros h w Hs Htop Hle Hn Hw Hx; cbn [small_gaps_loop];
    rewrite (st_bind_run (st_gets currentHeight) _ w (currentHeight w) w) by done.
  all: destruct (Z.ltb_spec (currentHeight w) h);
    [exists w; split_and!; [done|by apply repaired_refl|intros x Hx'; apply Hx; lia]|].
  { lia. }
  destruct (header_missing_run h w Hw) as (b & w1 & E & Q & Hb); [lia|].
  rewrite (st_bind_run _ _ _ _ _ E). pose proof (quiet_repaired _ _ Q) as R.
  destruct b.
  - destruct (gap_end_run (Z.to_nat (currentHeight w - h)) h w1) as (e & w2 & E2 & Q2 & He);
      [rewrite (proj1 (proj1 Q)); lia|apply Q|].
    rewrite (st_bind_run _ _ _ _ _ E2). pose proof (quiet_repaired _ _ Q2) as R2.
    rewrite (proj1 (proj1 Q)) in He.
    destruct (repair_run h e w2) as (w3 & E3 & R3 & H3 & _); [lia|lia|lia|apply Q2|].
    rewrite (st_bind_run _ _ _ _ _ E3). rewrite i32_id by (unfold in_i32; lia).
    assert (R03 : repaired w w3) by (eapply repaired_trans; [exact R|]; by eapply repaired_trans).
    pose proof R03 as ((T1 & T2 & T3 & T4) & Hw3 & M3).
    destruct (IH (e + 1) w3) as (w4 & E4 & R4 & H4); [lia|lia|lia|lia|done| |].
    { intros x Hx'. destruct (decide (x < h)); [apply M3, Hx; lia|apply H3; lia]. }
    exists w4. rewrite T1 in H4. split_and!; [done| |done].
    by eapply repaired_trans.
  - rewrite i32_id by (unfold in_i32; lia). pose proof R as ((T1 & T2 & T3 & T4) & Hw1 & M1).
    destruct (IH (h + 1) w1) as (w4 & E4 & R4 & H4); [lia|lia|lia|lia|done| |].
    { intros x Hx'. apply M1. destruct (decide (x = h)) as [->|]; [done|apply Hx; lia]. }
    exists w4. rewrite T1 in H4. split_and!; [done| |done].
    by eapply repaired_trans.
Qed.

(** *** Both *)

Lemma sample_step_range r : 0 <= r < 2 ^ 31 -> 1 <= sample_step r <= 2 ^ 26.
Proof.
  intros Hr. unfold sample_step. destruct (1000 <? r); [|lia].
  assert (0 <= Z.quot r 100 <= 2 ^ 25); [|lia].
  rewrite Z.quot_div_nonneg by lia. split; [apply Z.div_pos; lia|].
  apply Z.div_le_upper_bound; lia.
Qed.

Lemma repair_headers_run start w : 1 <= start <= currentHeight w + 1 ->
  currentHeight w <= top -> top <= 2 ^ 30 -> working w ->
  exists w', repair_headers N ord start w = (Ok (), w') /\ repaired w w' /\
    forall x, start <= x <= currentHeight w -> has_header (cm_world w') x.
Proof.
  intros Hs Htop Hbig Hw. set (tip := currentHeight w) in *. unfold repair_headers.
  rewrite (st_bind_run (st_gets currentHeight) _ w tip w) by done.
  rewrite (i32_id (tip - start)) by (unfold in_i32; lia).
  rewrite i32_id by (unfold in_i32; lia). set (step := sample_step (tip - start + 1)).
  assert (Hstep : 1 <= step <= 2 ^ 26) by (apply sample_step_range; lia).
  destruct (sample_loop_run start step (Z.to_nat (tip - start + 1)) start (-1) w)
    as (gs & w1 & E1 & R1 & G1 & F1); [lia|lia|done|lia|lia|fold tip; lia|by left|done|].
  rewrite (st_bind_run _ _ _ _ _ E1). fold tip in G1, F1.
  assert (exists w2, (if gs =? -1 then mret () else repair_wrapped N ord gs tip) w1 = (Ok (), w2) /\
    repaired w1 w2 /\ (step = 1 -> forall x, start <= x <= tip -> has_header (cm_world w2) x))
    as (w2 & E2 & R2 & H2).
  { assert (Hdone : forall x, step = 1 -> start <= x <= tip -> ~ has_header (cm_world w1) x ->
      gs <> -1 /\ gs <= x) by (intros; apply F1; [done|intros; lia|lia|done]).
    destruct (Z.eqb_spec gs (-1)) as [->|Hg].
    - exists w1. split_and!; [done|by apply repaired_refl, R1|]. intros Hst x Hx.
      destruct (decide (is_Some (contents (w_db (cm_world w1)) !! (PrefixHeader :: be_encode 4 (u32 x)))))
        as [|Hno]; [done|]. by destruct (Hdone x Hst Hx Hno).
    - destruct (repair_run gs tip w1) as (w2 & E2 & R2 & H2 & _); [lia|lia|lia|apply R1|].
      exists w2. split_and!; [done|done|]. intros Hst x Hx.
      destruct (decide (is_Some (contents (w_db (cm_world w1)) !! (PrefixHeader :: be_encode 4 (u32 x)))))
        as [Hp|Hno]; [by apply R2|]. apply H2. destruct (Hdone x Hst Hx Hno). lia. }
  rewrite (st_bind_run _ _ _ _ _ E2). pose proof (repaired_trans _ _ _ R1 R2) as R12.
  destruct (Z.ltb_spec 1 step).
  - assert (Etip : currentHeight w2 = tip) by apply R12.
    destruct (small_gaps_run start (Z.to_nat (tip - start + 1)) start w2) as (w3 & E3 & R3 & H3);
      rewrite ?Etip; [lia|done|lia|lia|apply R12|intros; lia|].
    exists w3. rewrite Etip in H3. split_and!; [done|by eapply repaired_trans|done].
  - exists w2. split_and!; [done|done|]. apply H2. lia.
Qed.

End Node.
End Gaps.
