(* ===== verification/GapProps.v ===== *)
(** * Start-up and gap repair: properties

    [CatchUpToTip] as a whole, [SetStartHeight] and [Initialize] across a
    restart, and what the repairs do to the checkpoint and leave behind. *)

From Stdlib Require Import Strings.Byte.
From S2P Require Import Prelude Bytes Hex Keys Values Json Checkpoint Pebble Store Sha256 Types Mempool MempoolFacts MempoolProps Block BlockFacts BlockOps BlockProps Reorg ReorgFacts ReorgProps ChainFacts ReorgChain Typed Total Steps Chain Follow FollowProps Gaps.

Section GapProps.
Context {P : Pebble} {PL : PebbleLaws P} {PH : PebbleHealthy P PL} {B : Btcd} {BL : BtcdLaws B}.
Context {Zs : Zstd} {ZL : ZstdLaws Zs}.

(** ** Start-up on a saved tip *)

(** [Initialize] when the node knows the block of the checkpoint. *)
Lemma Initialize_known (N : node) (nb : Z -> MsgBlock) maxReorgDepth h cp w :
  node_hash N (rw_calls (cm_rw w)) h = Ok (block_hash (nb h)) -> working w -> json_wf cp ->
  contents (w_db (cm_world w)) !! KeyCheckpoint = Some (json_Marshal cp) ->
  cp_Height cp = h -> cp_BlockHash cp = hash_String (block_hash (nb h)) ->
  exists w', Initialize N maxReorgDepth w = (Ok (), w') /\ tip_on nb h w' /\ working w' /\
    contents (w_db (cm_world w')) = contents (w_db (cm_world w)) /\
    startHeight w' = (if 0 <? cp_StartHeight cp then cp_StartHeight cp else startHeight w).
Proof.
  intros Hknown Hw Hcp Hk Eh Ehash. pose proof (length_BlockHash (block_Header (nb h))) as Hl.
  destruct (agreeing_tip_untouched (node_hash N) maxReorgDepth cp (block_hash (nb h)) (cm_rw w)) as [_ Hag];
    [apply Hw|done|done|].
  destruct Hag as (rw1 & E1 & (O1 & O2 & O3) & _); [done|done|by rewrite Eh|].
  unfold Initialize.
  rewrite (st_bind_run (st_wrap _ _) _ w _ _ (proj2 (st_wrap_Ok _ _ _ _ _) (on_rw_run _ _ _ _ E1))).
  set (w1 := with_rw w rw1). assert (Hw1 : working w1).
  { split; cbn; [done|]. change (typed_db (contents (w_db (rw_world rw1)))). rewrite O2. apply Hw. }
  assert (Hk1 : contents (w_db (cm_world w1)) !! KeyCheckpoint = Some (json_Marshal cp)).
  { change (contents (w_db (rw_world rw1)) !! KeyCheckpoint = Some (json_Marshal cp)). by rewrite O2. }
  assert (Hst : reads GetChainState (w_db (cm_world w1)) (mkChainState h (block_hash (nb h)))).
  { destruct (LoadCheckpoint_present (w_db (cm_world w1)) cp) as (d & E & Hd & Hc); [apply Hw1|done|done|].
    exists d. split; [|done]. unfold GetChainState, checkpoint_or_fail.
    unfold mbind, st_bind. rewrite E. cbn -[reverse32].
    rewrite Ehash, (hash_String_hex (block_hash (nb h))) by done. rewrite Eh.
    rewrite decide_True.
    - rewrite DecodeString_EncodeToString, length_reverse, decide_True by done.
      by rewrite reverse32_reverse, reverse_involutive by (by rewrite length_reverse).
    - intros E0. apply (f_equal slen) in E0.
      rewrite slen_EncodeToString, length_reverse in E0. unfold block_hash in E0. by rewrite Hl in E0. }
  destruct (on_db_reads GetChainState w1 _ Hw1 Hst) as (w2 & E2 & (T2 & Hw2 & C2)).
  rewrite (st_bind_run _ _ _ _ _ (proj2 (st_wrap_Ok _ _ _ _ _) E2)).
  cbn [cs_Height cs_BlockHash]. set (w3 := with_tip w2 h (block_hash (nb h))).
  rewrite (st_bind_run (set_tip _ _) _ w2 () w3) by done.
  destruct (on_db_reads LoadCheckpoint w3 (cp, None)) as (w4 & E4 & (T4 & Hw4 & C4)).
  { destruct Hw2 as [? ?]. by split. }
  { apply LoadCheckpoint_present; [apply Hw2|done|].
    change (contents (w_db (cm_world w2)) !! KeyCheckpoint = Some (json_Marshal cp)). by rewrite C2. }
  rewrite (st_bind_run _ _ _ _ _ E4). destruct T2 as (_ & _ & T2 & _), T4 as (G1 & G2 & G3 & _).
  assert (Hc4 : contents (w_db (cm_world w4)) = contents (w_db (cm_world w))).
  { rewrite C4. change (cm_world w3) with (cm_world w2). rewrite C2. exact O2. }
  destruct (Z.ltb_spec 0 (cp_StartHeight cp)).
  - rewrite decide_True by done. eexists. split; [done|].
    split_and!; [done|destruct Hw4; by split|done|done].
  - rewrite decide_False by lia. exists w4. split_and!; [done|done|done|done|].
    rewrite G3. cbn. by rewrite T2.
Qed.

Section Node.
Context (N : node) (ord : range_order) (nb : Z -> MsgBlock) (top : Z).
Context (HS : serves N nb top).

Lemma Initialize_run maxReorgDepth h cp w : 0 <= h <= top -> working w -> json_wf cp ->
  contents (w_db (cm_world w)) !! KeyCheckpoint = Some (json_Marshal cp) ->
  cp_Height cp = h -> cp_BlockHash cp = hash_String (block_hash (nb h)) ->
  exists w', Initialize N maxReorgDepth w = (Ok (), w') /\ tip_on nb h w' /\ working w' /\
    contents (w_db (cm_world w')) = contents (w_db (cm_world w)) /\
    startHeight w' = (if 0 <? cp_StartHeight cp then cp_StartHeight cp else startHeight w).
Proof. intros Hh. apply Initialize_known. by apply (sv_hash _ _ _ HS). Qed.

(** ** [CatchUpToTip] *)

Lemma VerifyAndRepairGaps_run w : 0 <= currentHeight w <= top -> top <= 2 ^ 30 ->
  1 <= startHeight w <= currentHeight w + 1 -> tip_on nb (currentHeight w) w -> working w ->
  exists w', VerifyAndRepairGaps N ord w = (Ok (), w') /\ repaired w w' /\
    forall h, startHeight w <= h <= currentHeight w -> has_header (cm_world w') h.
Proof.
  intros Hh Hbig Hs [_ T] Hw. unfold VerifyAndRepairGaps.
  rewrite (st_bind_run (st_gets id) _ w w w) by done. unfold id.
  destruct (Z.leb_spec (currentHeight w) 0).
  { exists w. split_and!; [done|by apply repaired_refl|lia]. }
  rewrite (st_bind_run effective_start _ w (startHeight w) w).
  2:{ unfold effective_start. rewrite (st_bind_run (st_gets startHeight) _ w (startHeight w) w) by done.
      by destruct (Z.leb_spec (startHeight w) 0); [lia|]. }
  rewrite (st_bind_run (st_wrap _ _) _ w (block_hash (nb (currentHeight w))) (called w)).
  2:{ apply st_wrap_Ok. rewrite core_hash_run, (sv_hash _ _ _ HS) by lia. done. }
  rewrite (proj2 (hash_IsEqual_eq _ _)) by done. cbn [negb].
  destruct (repair_headers_run N ord nb top HS (startHeight w) (called w)) as (w' & E & R & H');
    [cbn; lia|cbn; lia|done|by apply (working_same w)|].
  exists w'. split_and!; [exact E| |exact H']. eapply repaired_trans; [|exact R].
  by apply quiet_repaired, quiet_called.
Qed.

End Node.

(** All of [CatchUpToTip] on a node that serves one chain. *)
Lemma CatchUpToTip_run (N : node) (ord : range_order) (maxReorgDepth : Z) (nb : Z -> MsgBlock)
    (top : Z) (w : cworld) (fuel : nat)
    (HS : serves N nb top) (Hbig : top <= 2 ^ 30) (Hh : 0 <= currentHeight w <= top)
    (Hs : 1 <= startHeight w <= currentHeight w + 1) (Ht : tip_on nb (currentHeight w) w)
    (Hw : working w) :
  if (0 <? pruneHeight w) && (currentHeight w <? pruneHeight w)
  then exists e, CatchUpToTip N ord maxReorgDepth (S fuel) w = (Err e, w) /\
         errors_Is e "ErrPrunedGap" = true
  else exists w', CatchUpToTip N ord maxReorgDepth (S fuel) w = (Ok (), w') /\
         tip_on nb top w' /\ working w' /\ (currentHeight w < top -> tip_saved w') /\
         forall h, startHeight w <= h <= top -> has_header (cm_world w') h.
Proof.
  pose proof (sv_top _ _ _ HS) as Hm. unfold CatchUpToTip.
  rewrite (st_bind_run (st_gets id) _ w w w) by done. unfold id.
  destruct (_ && _); [by eexists|].
  destruct (VerifyAndRepairGaps_run N ord nb top HS w) as (w1 & E1 & ((T1 & T2 & T3 & T4) & Hw1 & _) & H1);
    [done..|].
  rewrite (st_bind_run _ _ _ _ _ (proj2 (st_wrap_Ok _ _ _ _ _) E1)).
  rewrite (st_bind_run (st_wrap _ _) _ w1 top (called w1)).
  2:{ apply st_wrap_Ok. unfold GetBlockCount, rpc, on_rw. by rewrite (sv_count _ _ _ HS). }
  rewrite (st_bind_run (st_gets currentHeight) _ (called w1) (currentHeight w) (called w1))
    by (by unfold st_gets; cbn; rewrite T1).
  rewrite i32_id by (unfold in_i32; lia).
  assert (Tip1 : tip_on nb (currentHeight w) w1) by (split; [done|by rewrite T2; apply Ht]).
  destruct (Z.leb_spec top (currentHeight w)).
  - assert (currentHeight w = top) as E by lia. exists (called w1). rewrite E in *.
    split_and!; [done|done|by apply (working_same w1)|lia|exact H1].
  - destruct (CatchUpTo_run N ord maxReorgDepth nb top HS fuel top (called w1)) as (w2 & E2 & F);
      [cbn; lia|lia|cbn; by rewrite T1|by apply (working_same w1)|].
    exists w2. split_and!; [exact E2|apply F|apply F|intros; apply F; cbn; lia|].
    intros h Hh'. apply F. cbn. destruct (decide (h <= currentHeight w)); [left; apply H1; lia|right; lia].
Qed.

(** Start-up is complete or refused.  When the node has pruned the blocks
    above the indexed tip, [CatchUpToTip] fails with [ErrPrunedGap] and has
    changed nothing; otherwise, on a node that serves the chain and with the
    start height known, it returns, the tip is the node's, in memory (and in the
    checkpoint when a block was fetched), and every height from the start height
    to the tip has a header, the gaps of the indexed range included.  Fuel 1 is
    enough. *)
Theorem catch_up_to_tip_complete (N : node) (ord : range_order) (maxReorgDepth : Z) (nb : Z -> MsgBlock)
    (top : Z) (w : cworld) (fuel : nat)
    (HS : serves N nb top) (Hbig : top <= 2 ^ 30) (Hh : 0 <= currentHeight w <= top)
    (Hs : 1 <= startHeight w <= currentHeight w + 1) (Ht : tip_on nb (currentHeight w) w)
    (Hw : working w) :
  if (0 <? pruneHeight w) && (currentHeight w <? pruneHeight w)
  then exists e, CatchUpToTip N ord maxReorgDepth (S fuel) w = (Err e, w) /\
         errors_Is e "ErrPrunedGap" = true
  else exists w', CatchUpToTip N ord maxReorgDepth (S fuel) w = (Ok (), w') /\
         tip_on nb top w' /\ working w' /\ (currentHeight w < top -> tip_saved w') /\
         forall h, startHeight w <= h <= top -> has_header (cm_world w') h.
Proof. by apply CatchUpToTip_run. Qed.

(** ** A gap moves the checkpoint back *)

(** Repairing a gap moves the tip back at the next start: [repairGap] over
    heights below the tip succeeds and leaves the manager's tip alone, but each
    [IndexBlock] in it saves its own height, so the checkpoint ends at the last
    block of the gap, and a manager started on that database has its tip there,
    below blocks that are indexed. *)
Theorem gap_repair_moves_checkpoint (N : node) (ord : range_order) (maxReorgDepth : Z) (nb : Z -> MsgBlock)
    (top s e : Z) (w : cworld)
    (HS : serves N nb top) (Hgap : 0 <= s <= e) (Hbelow : e < currentHeight w) (Htop : e <= top)
    (Hw : working w) :
  exists w' w'', repairGap N ord s e w = (Ok (), w') /\ same_tip w w' /\
    (forall h, s <= h <= e -> has_header (cm_world w') h) /\
    Initialize N maxReorgDepth (NewChainManager (cm_rw w')) = (Ok (), w'') /\
    tip_on nb e w'' /\ currentHeight w'' < currentHeight w.
Proof.
  destruct (repair_loop_run N ord nb top HS (Z.to_nat (e - s + 1)) s e w) as (w' & E & (T & Hw' & _) & H & Hs);
    [lia|done|lia|done|].
  destruct Hs as (cp & Hcp & Hk & Eh & Ehash); [lia|].
  destruct (Initialize_run N nb top HS maxReorgDepth e cp (NewChainManager (cm_rw w')))
    as (w'' & E2 & T2 & _); [lia|destruct Hw'; by split|done..|].
  exists w', w''. split_and!; [done..|]. destruct T2 as [-> _]. lia.
Qed.

(** ** The start height across a restart *)

(** [SetStartHeight] on a manager with nothing indexed. *)
Lemma SetStartHeight_known (N : node) (nb : Z -> MsgBlock) (h : Z) (w : cworld)
    (Hknown : node_hash N (rw_calls (cm_rw w)) (h - 1) = Ok (block_hash (nb (h - 1)))) (Hh : 1 <= h < 2 ^ 31)
    (Hw : working w) (Hc : currentHeight w <= 0) :
  exists w', SetStartHeight N h w = (Ok (), w') /\ tip_on nb (h - 1) w' /\ startHeight w' = h /\ working w' /\
    pruneHeight w' = pruneHeight w /\
    exists cp, json_wf cp /\
      contents (w_db (cm_world w')) = <[KeyCheckpoint := json_Marshal cp]> (contents (w_db (cm_world w))) /\
      cp_Height cp = h - 1 /\ cp_BlockHash cp = hash_String (block_hash (nb (h - 1))) /\ cp_StartHeight cp = h.
Proof.
  unfold SetStartHeight.
  rewrite (st_bind_run (st_gets id) _ w w w) by done. unfold id.
  destruct (Z.ltb_spec 0 (currentHeight w)); [lia|]. destruct (Z.leb_spec h 0); [lia|].
  rewrite (st_bind_run (st_wrap _ _) _ w (block_hash (nb (h - 1))) (called w)).
  2:{ apply st_wrap_Ok. by rewrite core_hash_run, Hknown. }
  set (w1 := with_tip (called w) (h - 1) (block_hash (nb (h - 1)))).
  rewrite (st_bind_run (set_tip _ _) _ _ () w1) by done.
  set (w2 := mkCWorld (cm_rw w1) (currentHeight w1) (currentHash w1) h (pruneHeight w1)).
  rewrite (st_bind_run (set_start _) _ _ () w2) by done.
  set (cp := mkCheckpoint (h - 1) (hash_String (block_hash (nb (h - 1)))) h).
  assert (Hcp : json_wf cp).
  { split_and!; [unfold in_i32; cbn; lia..|]. cbn. rewrite hash_String_hex by apply length_BlockHash.
    apply plain_EncodeToString. }
  destruct (SaveCheckpoint_healthy (w_db (cm_world w2)) cp) as (d & E & Hd & Hc'); [apply Hw|].
  set (w3 := with_rw w2 (mkRWorld (mkWorld d (w_mp (cm_world w2))) (rw_calls (cm_rw w2)))).
  exists w3. split_and!; [by apply st_wrap_Ok, on_db_run|done|done| |done|].
  - split; [done|]. cbn. change d with (Ok (A := unit) (), d).2. rewrite <- E.
    apply SaveCheckpoint_typed; [done|apply Hw].
  - exists cp. by split_and!.
Qed.

Lemma SetStartHeight_run (N : node) (nb : Z -> MsgBlock) (top h : Z) (w : cworld)
    (HS : serves N nb top) (Hh : 1 <= h <= top) (Hw : working w) (Hc : currentHeight w <= 0) :
  exists w', SetStartHeight N h w = (Ok (), w') /\ tip_on nb (h - 1) w' /\ startHeight w' = h /\ working w' /\
    pruneHeight w' = pruneHeight w /\
    exists cp, json_wf cp /\ contents (w_db (cm_world w')) !! KeyCheckpoint = Some (json_Marshal cp) /\
      cp_Height cp = h - 1 /\ cp_BlockHash cp = hash_String (block_hash (nb (h - 1))) /\ cp_StartHeight cp = h.
Proof.
  pose proof (sv_top _ _ _ HS).
  destruct (SetStartHeight_known N nb h w) as (w' & E & T & Es & Hw' & Hp & cp & C1 & C2 & C3);
    [apply (sv_hash _ _ _ HS); lia|lia|done..|].
  exists w'. split_and!; [done..|]. exists cp. by rewrite C2, lookup_insert_eq.
Qed.

(** The start height survives a restart: [SetStartHeight] on a manager with
    nothing indexed sets the tip to the block below, and a manager started on the
    database it leaves has the same tip and the same start height; when blocks
    are indexed already it is refused and changes nothing. *)
Theorem start_height_survives_restart (N : node) (maxReorgDepth : Z) (nb : Z -> MsgBlock) (top h : Z)
    (w : cworld) (HS : serves N nb top) (Hh : 1 <= h <= top) (Hw : working w) :
  (0 < currentHeight w -> exists e, SetStartHeight N h w = (Err e, w)) /\
  (currentHeight w <= 0 ->
   exists w' w'', SetStartHeight N h w = (Ok (), w') /\ tip_on nb (h - 1) w' /\ startHeight w' = h /\
     Initialize N maxReorgDepth (NewChainManager (cm_rw w')) = (Ok (), w'') /\
     tip_on nb (h - 1) w'' /\ startHeight w'' = h).
Proof.
  split.
  { intros Hc. unfold SetStartHeight. rewrite (st_bind_run (st_gets id) _ w w w) by done. unfold id.
    destruct (Z.ltb_spec 0 (currentHeight w)); [by eexists|lia]. }
  intros Hc. destruct (SetStartHeight_run N nb top h w HS Hh Hw Hc) as (w3 & E3 & T3 & S3 & Hw3 & _ & cp & C1 & C2 & C3 & C4 & C5).
  destruct (Initialize_run N nb top HS maxReorgDepth (h - 1) cp (NewChainManager (cm_rw w3)))
    as (w'' & E2 & T2 & _ & _ & S2); [lia|destruct Hw3; by split|done..|].
  exists w3, w''. split_and!; [done..|]. rewrite S2, C5. by destruct (Z.ltb_spec 0 h); [|lia].
Qed.

End GapProps.

(** ** A reset tip keeps the abandoned blocks *)

Section Reset.
Context {P : Pebble} {PL : PebbleLaws P} {B : Btcd} {BL : BtcdLaws B} {Zs : Zstd}.

(** Only the checkpoint may differ. *)
Definition blocks_same (w w' : cworld) : Prop :=
  forall k, k <> KeyCheckpoint ->
    contents (w_db (cm_world w')) !! k = contents (w_db (cm_world w)) !! k.

#[export] Instance blocks_same_preorder : PreOrder blocks_same.
Proof. split; [by intros w k|]. intros a b c H1 H2 k Hk. by rewrite H2, H1. Qed.

Lemma rel_on_db {A} (m : st pdb A) : st_rel db_same m -> st_rel blocks_same (on_db m).
Proof.
  intros Hm w k _. specialize (Hm (w_db (cm_world w))). unfold on_db, on_rw, rdb, in_db, cm_world, db_same in *.
  destruct (m _) as [r d]. cbn in *. by rewrite Hm.
Qed.
Lemma rel_core_hash N h : st_rel blocks_same (core_hash N h).
Proof. by intros w k. Qed.
Lemma rel_set_tip h x : st_rel blocks_same (set_tip h x).
Proof. by intros w k. Qed.
#[local] Hint Resolve rel_on_db rel_core_hash rel_set_tip : st_rel.

Lemma rel_save_tip s : st_rel blocks_same (save_tip s).
Proof.
  unfold save_tip. apply st_rel_bind; [apply _|apply st_rel_gets, _|]. intros cm.
  apply st_rel_bind; [apply _| |intros; apply st_rel_ret, _]. apply st_rel_try.
  intros w k Hk. unfold on_db, on_rw, rdb, in_db, SaveCheckpoint, st_wrap, cm_world. cbn.
  match goal with |- context [pebble_Set ?a ?b ?d] =>
    pose proof (set_Ok a b d) as H1; pose proof (set_Err a b d) as H2;
    destruct (pebble_Set a b d) as [[[]|e] d1] end; cbn in *.
  - rewrite H1 by done. by rewrite lookup_insert_ne.
  - destruct H2 as [->| ->]; [done|done|]. by rewrite lookup_insert_ne.
Qed.
#[local] Hint Resolve rel_save_tip : st_rel.

Lemma rel_last_matching N n h : st_rel blocks_same (last_matching_loop N n h).
Proof.
  revert h; induction n as [|n IH]; intros h; cbn [last_matching_loop]; [apply st_rel_ret, _|].
  solve_rel.
Qed.
#[local] Hint Resolve rel_last_matching : st_rel.

Lemma rel_first_indexed n h : st_rel blocks_same (first_indexed_loop n h).
Proof.
  revert h; induction n as [|n IH]; intros h; cbn [first_indexed_loop]; [apply st_rel_ret, _|].
  solve_rel.
Qed.
#[local] Hint Resolve rel_first_indexed : st_rel.

Lemma rel_reset_tip N s : st_rel blocks_same (reset_tip N s).
Proof.
  assert (Hf : forall a b, st_rel blocks_same (findLastMatchingHeight N a b))
    by (unfold findLastMatchingHeight; solve_rel).
  unfold reset_tip. solve_rel.
Qed.

(** A tip the node has abandoned is dropped without being undone: when the
    node's hash at the tip's height is not the tip's, [VerifyAndRepairGaps] moves
    the tip and the checkpoint but leaves every other record of the database,
    so the UTXOs, spends and history of the abandoned blocks stay, and the blocks
    above the new tip are indexed on top of them. *)
Theorem abandoned_tip_not_undone (N : node) (ord : range_order) (w : cworld)
    (Htip : 0 < currentHeight w)
    (Hleft : forall n, node_hash N n (currentHeight w) <> Ok (currentHash w)) :
  blocks_same w (VerifyAndRepairGaps N ord w).2.
Proof.
  unfold VerifyAndRepairGaps. rewrite (st_bind_run (st_gets id) _ w w w) by done. unfold id.
  destruct (Z.leb_spec (currentHeight w) 0); [lia|].
  assert (Heff : st_rel blocks_same effective_start).
  { unfold effective_start, findFirstIndexedHeight. solve_rel. }
  assert (Hkeep : forall a w1, effective_start w = (Ok a, w1) ->
    currentHeight w1 = currentHeight w /\ currentHash w1 = currentHash w).
  { assert (Hf : st_rel (fun a b => currentHeight b = currentHeight a /\ currentHash b = currentHash a)
      effective_start).
    { assert (PreOrder (fun a b : cworld => currentHeight b = currentHeight a /\ currentHash b = currentHash a)).
      { split; [done|]. intros a b c [H1 H2] [H3 H4]. by rewrite H3, H4. }
      assert (Hdb : forall A (m : st pdb A), st_rel (fun a b => currentHeight b = currentHeight a /\
        currentHash b = currentHash a) (on_db m)).
      { intros A m w1. unfold on_db, on_rw. by destruct (rdb _ _). }
      assert (Hfi : forall n h, st_rel (fun a b => currentHeight b = currentHeight a /\
        currentHash b = currentHash a) (first_indexed_loop n h)).
      { induction n as [|n IH]; intros h; cbn [first_indexed_loop]; [apply st_rel_ret, _|]. solve_rel. }
      unfold effective_start, findFirstIndexedHeight. solve_rel. }
    intros a w1 E. specialize (Hf w). by rewrite E in Hf. }
  pose proof (Heff w) as Hs. destruct (effective_start w) as [[s|e] w1] eqn:E; cbn [snd] in Hs.
  2:{ by rewrite (st_bind_err _ _ _ _ _ E). }
  rewrite (st_bind_run _ _ _ _ _ E). destruct (Hkeep s w1 eq_refl) as [K1 K2].
  etrans; [exact Hs|]. unfold st_wrap, mbind, st_bind. rewrite core_hash_run.
  destruct (node_hash N (rw_calls (cm_rw w1)) (currentHeight w)) as [tip|e] eqn:Eh; [|done]. cbn.
  destruct (hash_IsEqual tip (currentHash w)) eqn:Eq.
  { exfalso. apply hash_IsEqual_eq in Eq. subst tip. by apply Hleft in Eh. }
  cbn. change (blocks_same (called w1) (reset_tip N s (called w1)).2). apply rel_reset_tip.
Qed.

End Reset.
