(* ===== verification/ChainSample.v ===== *)
(** * A node with a fork, and the chain manager's theorems on it

    The node's best chain has four blocks; it shares the first two with the
    sample chain of [BlockProps], whose third block it has abandoned.  The
    witnesses of [FollowProps] and [GapProps] run on it. *)

From Stdlib Require Import Strings.Byte.
From S2P Require Import Prelude Bytes Hex Keys Values Json Checkpoint Pebble Store Sha256 Types Mempool MempoolFacts MempoolProps Block BlockFacts BlockOps BlockProps Reorg ReorgFacts ReorgProps ChainFacts ReorgChain Typed Total Steps Chain Follow FollowProps Gaps GapProps.

Definition other2 : @MsgBlock ModelBtcd :=
  mkBlock (mkHeader (replicate 32 x99) (replicate 32 x01)) [sample_coinbase x40 sample_script2].
Definition other3 : @MsgBlock ModelBtcd :=
  mkBlock (mkHeader (replicate 32 x98) (replicate 32 x99)) [sample_coinbase x41 sample_script; spender x42 x10].

Definition node_chain (h : Z) : @MsgBlock ModelBtcd :=
  if h =? 0 then block0 else if h =? 1 then block1 else if h =? 2 then other2 else other3.

Definition find_height (hash : bytes) : result Z :=
  match list_find (fun h => block_hash (node_chain h) = hash) [0; 1; 2; 3] with
  | Some (_, h) => Ok h
  | None => Err (ENew "-5: Block not found")
  end.

Definition sample_node : @node ModelBtcd :=
  mkNode (stable_client (fun h => block_hash (node_chain h)))
    (fun _ hash => node_chain <$> find_height hash)
    (fun _ hash => find_height hash)
    (fun _ => Ok 3).

Lemma upto3 h : 0 <= h <= 3 -> h = 0 \/ h = 1 \/ h = 2 \/ h = 3.
Proof. lia. Qed.

Ltac by_height H := apply upto3 in H; destruct H as [->|[->|[->| ->]]].

Lemma sample_serves : serves sample_node node_chain 3.
Proof.
  split.
  - lia.
  - done.
  - intros n h H. by_height H; reflexivity.
  - intros n h H. by_height H; reflexivity.
  - done.
  - intros h H. assert (h = 0 \/ h = 1 \/ h = 2) as [->|[->| ->]] by lia; reflexivity.
  - intros h h' H H' E.
    assert (find_height (block_hash (node_chain h)) = Ok h) as E1 by (by_height H; reflexivity).
    assert (find_height (block_hash (node_chain h')) = Ok h') as E2 by (by_height H'; reflexivity).
    rewrite E in E1. congruence.
  - intros h H. by_height H; (split; [reflexivity|by repeat constructor
      |apply (bool_decide_eq_true_1 _); vm_compute; reflexivity]).
  - intros h H. by_height H; reflexivity.
Qed.

Definition manager (w : @world MemPebble ModelBtcd) (h : Z) (hash : bytes) (start prune : Z) : cworld :=
  mkCWorld (mkRWorld w 0) h hash start prune.

Definition manager0 : cworld := manager world0 0 zero_hash 0 0.
Definition manager1 : cworld := manager indexed1 1 (replicate 32 x01) 1 0.
Definition manager2 : cworld := manager indexed2 2 (replicate 32 x02) 1 0.

Lemma typed_world0 : typed_db (contents (w_db world0)).
Proof. intros k v _ Hk. change (contents (w_db world0)) with (∅ : gmap bytes bytes) in Hk. by rewrite lookup_empty in Hk. Qed.

Lemma typed_indexed2 : typed_db (contents (w_db indexed2)).
Proof. exact (db_steps_typed _ _ sample_reachable typed_world0). Qed.

Lemma typed_indexed1 : typed_db (contents (w_db indexed1)).
Proof.
  intros k v _ Hk. revert k v Hk.
  change (map_Forall (fun k v => value_ok k v = true) (contents (w_db indexed1))).
  apply (bool_decide_eq_true_1 _). vm_compute. reflexivity.
Qed.

Lemma manager0_working : working manager0.
Proof. split; [reflexivity|exact typed_world0]. Qed.
Lemma manager1_working : working manager1.
Proof. split; [apply is_none_eq; vm_compute; reflexivity|exact typed_indexed1]. Qed.
Lemma manager2_working : working manager2.
Proof. split; [apply is_none_eq; vm_compute; reflexivity|exact typed_indexed2]. Qed.

(** ** Witnesses *)

Lemma process_block_catches_up_witness :
  exists w', ProcessBlock sample_node id_order 10 2 (node_chain 3) manager1 = (Ok 3, w') /\
    tip_on node_chain 3 w' /\ tip_saved w' /\ working w' /\
    cm_world w' = index_from id_order node_chain 2 2 indexed1 /\
    forall h', 1 < h' <= 3 -> has_header (cm_world w') h'.
Proof.
  apply (process_block_catches_up sample_node id_order 10 node_chain 3 3 manager1 0);
    [exact sample_serves|cbn; lia|lia|split; reflexivity|exact manager1_working].
Defined.

Lemma catch_up_follows_reorg_witness :
  exists w' wr, CatchUpTo sample_node id_order 10 2 3 manager2 = (Ok (), w') /\
    restorable_same (contents (w_db indexed1)) (contents (w_db wr)) /\ transactions (w_mp wr) = ∅ /\
    cm_world w' = index_from id_order node_chain 2 2 wr /\
    tip_on node_chain 3 w' /\ tip_saved w' /\ working w'.
Proof.
  apply (catch_up_follows_reorg sample_node id_order 10 node_chain 3 1 3 indexed1 indexed2 [block2] block2
    manager2 0);
    [exact sample_serves | reflexivity | exact chain_top | reflexivity | lia
    | exact (cl_wf _ _ _ _ left1) | apply (cl_blocks _ _ _ _ left1 0 block1); reflexivity
    | intros [|i] block; [intros [= <-]; discriminate | discriminate]
    | apply (bool_decide_eq_true_1 _); vm_compute; reflexivity
    | cbn; lia | unfold in_i32; lia | reflexivity | exact manager2_working | reflexivity | reflexivity
    | cbn; lia].
Defined.

Lemma full_index_never_starts_witness :
  (CatchUpTo sample_node id_order 10 100 3 manager0).1 = Err out_of_fuel.
Proof.
  apply (full_index_never_starts sample_node id_order 10 node_chain 3 3 manager0 100);
    [exact sample_serves | lia | discriminate | reflexivity | reflexivity | split; reflexivity].
Defined.

Lemma catch_up_to_tip_complete_witness :
  exists w', CatchUpToTip sample_node id_order 10 1 manager1 = (Ok (), w') /\
    tip_on node_chain 3 w' /\ working w' /\ (1 < 3 -> tip_saved w') /\
    forall h, 1 <= h <= 3 -> has_header (cm_world w') h.
Proof.
  apply (catch_up_to_tip_complete sample_node id_order 10 node_chain 3 manager1 0);
    [exact sample_serves | lia | cbn; lia | cbn; lia | split; reflexivity | exact manager1_working].
Defined.

Lemma gap_repair_moves_checkpoint_witness :
  exists w' w'', repairGap sample_node id_order 1 1 manager2 = (Ok (), w') /\ same_tip manager2 w' /\
    (forall h, 1 <= h <= 1 -> has_header (cm_world w') h) /\
    Initialize sample_node 10 (NewChainManager (cm_rw w')) = (Ok (), w'') /\
    tip_on node_chain 1 w'' /\ currentHeight w'' < 2.
Proof.
  apply (gap_repair_moves_checkpoint sample_node id_order 10 node_chain 3 1 1 manager2);
    [exact sample_serves | lia | cbn; lia | lia | exact manager2_working].
Defined.

Lemma start_height_survives_restart_witness :
  exists w' w'', SetStartHeight sample_node 2 manager0 = (Ok (), w') /\
    tip_on node_chain 1 w' /\ startHeight w' = 2 /\
    Initialize sample_node 10 (NewChainManager (cm_rw w')) = (Ok (), w'') /\
    tip_on node_chain 1 w'' /\ startHeight w'' = 2.
Proof.
  destruct (start_height_survives_restart sample_node 10 node_chain 3 2 manager0) as [_ H];
    [exact sample_serves | lia | exact manager0_working | apply H; cbn; lia].
Defined.

(** The abandoned block 2 is gone from the tip, but its output stays. *)
Lemma abandoned_tip_not_undone_witness :
  blocks_same manager2 (VerifyAndRepairGaps sample_node id_order manager2).2 /\
  currentHeight (VerifyAndRepairGaps sample_node id_order manager2).2 = 1 /\
  is_Some (utxo_at (contents (w_db indexed2)) (replicate 32 x21) 0).
Proof.
  split; [|split; [vm_compute; reflexivity|apply (bool_decide_eq_true_1 _); vm_compute; reflexivity]].
  apply (abandoned_tip_not_undone sample_node id_order manager2); [reflexivity|discriminate].
Defined.
