(* ===== verification/Ledger.v ===== *)
(** * The ledger of a chain

    What the index should hold, computed from the blocks alone: the unspent
    outputs after a chain of blocks and the history of each scripthash.
    [mirrors] says that a database holds exactly that; indexing the next block
    keeps it, and so does everything that leaves the confirmed keys alone. *)

From Stdlib Require Import Strings.Byte.
From S2P Require Import Prelude Bytes Hex Keys Values Json Checkpoint Pebble Store Sha256 Types Mempool MempoolFacts MempoolProps Block BlockFacts BlockOps BlockProps Reorg ReorgFacts ReorgProps ChainFacts ReorgChain Typed Total Steps Chain Follow Query QueryFacts.

(** ** The ledger *)

Section Ledger.
Context {B : Btcd}.

Definition utxo_set : Type := bytes -> Z -> option (bytes * UTXOValue).

Definition no_utxos : utxo_set := fun _ _ => None.

(** The unspent outputs after the blocks [bs], the first of them at height [h]. *)
Fixpoint chain_utxos (U : utxo_set) (h : Z) (bs : list MsgBlock) : utxo_set :=
  match bs with
  | [] => U
  | b :: bs => chain_utxos (utxo_step b h U) (h + 1) bs
  end.

Definition ledger_utxos (s : Z) (bs : list MsgBlock) : utxo_set := chain_utxos no_utxos s bs.

(** The scripthash of the unspent output an input spends. *)
Definition input_owner (U : utxo_set) (i : OutPoint) : option bytes :=
  if IsCoinbaseInput i then None else fst <$> U (op_Hash i) (op_Index i).

Definition output_owner (o : TxOut) : option bytes :=
  if indexable o then Some (ComputeScripthash (to_PkScript o)) else None.

(** The scripthashes the [n]-th transaction of a block touches, when [U] is
    unspent before the block. *)
Definition touches (U : utxo_set) (itx : nat * MsgTx) : list bytes :=
  (if (itx.1 =? 0)%nat then [] else omap (input_owner U) (tx_TxIn itx.2)) ++
  omap output_owner (tx_TxOut itx.2).

(** A scripthash's history: the transactions that touch it, in the order of the
    chain. *)
Definition block_history (U : utxo_set) (block : MsgBlock) (h : Z) (sh : bytes) : list history_item :=
  omap (fun itx => if decide (sh ∈ touches U itx) then Some (mkHistoryItem (TxidToHex (TxHash itx.2)) h) else None)
    (indexed (block_Transactions block)).

Fixpoint chain_history (U : utxo_set) (h : Z) (bs : list MsgBlock) (sh : bytes) : list history_item :=
  match bs with
  | [] => []
  | b :: bs => block_history U b h sh ++ chain_history (utxo_step b h U) (h + 1) bs sh
  end.

Definition ledger_history (s : Z) (bs : list MsgBlock) (sh : bytes) : list history_item :=
  chain_history no_utxos s bs sh.

(** The txids of a chain. *)
Definition chain_txids (bs : list MsgBlock) : list bytes :=
  bs ≫= fun b => TxHash <$> block_Transactions b.

(** ** Their equations *)

Lemma chain_utxos_app U h bs bs' :
  chain_utxos U h (bs ++ bs') = chain_utxos (chain_utxos U h bs) (h + Z.of_nat (length bs)) bs'.
Proof.
  revert U h; induction bs as [|b bs IH]; intros U h; cbn [chain_utxos app length].
  { by rewrite Z.add_0_r. }
  rewrite IH. f_equal. lia.
Qed.

Lemma ledger_utxos_snoc s bs b :
  ledger_utxos s (bs ++ [b]) = utxo_step b (s + Z.of_nat (length bs)) (ledger_utxos s bs).
Proof. unfold ledger_utxos. by rewrite chain_utxos_app. Qed.

Lemma chain_history_app U h bs bs' sh : chain_history U h (bs ++ bs') sh =
  chain_history U h bs sh ++ chain_history (chain_utxos U h bs) (h + Z.of_nat (length bs)) bs' sh.
Proof.
  revert U h; induction bs as [|b bs IH]; intros U h; cbn [chain_history chain_utxos app length].
  { by rewrite Z.add_0_r. }
  rewrite IH, <- app_assoc. do 3 f_equal. lia.
Qed.

Lemma ledger_history_snoc s bs b sh : ledger_history s (bs ++ [b]) sh =
  ledger_history s bs sh ++ block_history (ledger_utxos s bs) b (s + Z.of_nat (length bs)) sh.
Proof. unfold ledger_history. rewrite chain_history_app. cbn [chain_history]. by rewrite app_nil_r. Qed.

Lemma chain_txids_snoc bs b : chain_txids (bs ++ [b]) = chain_txids bs ++ (TxHash <$> block_Transactions b).
Proof. unfold chain_txids. rewrite bind_app, bind_cons. by rewrite app_nil_r. Qed.

Lemma utxo_step_same block h U U' t v : U t v = U' t v -> utxo_step block h U t v = utxo_step block h U' t v.
Proof. unfold utxo_step. intros ->. done. Qed.

(** What is unspent was created by a transaction of the chain. *)
Lemma created_at_txid block h t v o : created_at block h t v = Some o ->
  t ∈ TxHash <$> block_Transactions block.
Proof.
  unfold created_at. rewrite bind_Some. intros (tx & Hf & _). apply fmap_Some in Hf as ([i tx'] & Hf & ->).
  apply list_find_Some in Hf as (Hi & <- & _). apply list_elem_of_fmap_2. by eapply list_elem_of_lookup_2.
Qed.

Lemma ledger_utxos_txid s bs t v : is_Some (ledger_utxos s bs t v) -> t ∈ chain_txids bs.
Proof.
  induction bs as [|b bs IH] using rev_ind; [by intros []|].
  rewrite ledger_utxos_snoc, chain_txids_snoc, elem_of_app. unfold utxo_step.
  destruct (created_at b _ t v) eqn:Ec; [intros _; right; by eapply created_at_txid|].
  case_decide; [by intros []|]. intros ?. left. by apply IH.
Qed.

Lemma ledger_block_elem U b h sh e : e ∈ block_history U b h sh <->
  exists n tx, block_Transactions b !! n = Some tx /\ sh ∈ touches U (n, tx) /\
    e = mkHistoryItem (TxidToHex (TxHash tx)) h.
Proof.
  unfold block_history. rewrite list_elem_of_omap. split.
  - intros ([n tx] & Hin & E). case_decide as Ht; [|done]. injection E as <-.
    apply list_elem_of_lookup in Hin as [j Hj]. rewrite lookup_indexed in Hj.
    destruct (block_Transactions b !! j) as [tx'|] eqn:Ej; [|done]. injection Hj as <- <-. eauto.
  - intros (n & tx & Htx & Ht & ->). exists (n, tx). split; [|by rewrite decide_True].
    apply list_elem_of_lookup. exists n. by rewrite lookup_indexed, Htx.
Qed.

(** An entry of the history, by its place in the chain. *)
Lemma ledger_history_elem s bs sh e : e ∈ ledger_history s bs sh <->
  exists i b n tx, bs !! i = Some b /\ block_Transactions b !! n = Some tx /\
    sh ∈ touches (ledger_utxos s (take i bs)) (n, tx) /\
    e = mkHistoryItem (TxidToHex (TxHash tx)) (s + Z.of_nat i).
Proof.
  induction bs as [|b bs IH] using rev_ind.
  { split; [by intros ?%elem_of_nil|]. by intros (i & b & n & tx & H & _). }
  rewrite ledger_history_snoc, elem_of_app, IH, ledger_block_elem. split.
  - intros [(i & b' & n & tx & Hb & H)|(n & tx & H)].
    + exists i, b', n, tx. pose proof (lookup_lt_Some _ _ _ Hb).
      rewrite lookup_app_l, take_app_le by lia. done.
    + exists (length bs), b, n, tx. rewrite take_app_length. split; [|done]. by apply lookup_snoc_Some; right.
  - intros (i & b' & n & tx & [[Hlt Hb]|[-> ->]]%lookup_snoc_Some & H).
    + left. exists i, b', n, tx. rewrite take_app_le in H by lia. done.
    + right. exists n, tx. by rewrite take_app_length in H.
Qed.

End Ledger.

(** ** What a block leaves alone *)

Section Index.
Context {P : Pebble} {PL : PebbleLaws P} {B : Btcd} {BL : BtcdLaws B} {Zs : Zstd}.

(** The records of other heights. *)
Lemma other_height c c' block h undo hss p h' r : indexed_block c c' block h undo hss ->
  p ∈ [PrefixHeader; PrefixBlockTx; PrefixUndo] -> in_i32 h -> in_i32 h' -> h' <> h ->
  c' !! (p :: be_encode 4 (u32 h') ++ r) = c !! (p :: be_encode 4 (u32 h') ++ r).
Proof.
  intros (ops & Bb & Hc) Hp Hh Hh' Hne. destruct (block_batch_parts _ _ _ _ _ _ Bb)
    as (header & buf & raws & z & d & cp & _ & _ & _ & _ & _ & _ & _ & _ & Hops).
  assert (Hconf : confirmed_key (p :: be_encode 4 (u32 h') ++ r)).
  { unfold confirmed_key. cbn [head]. repeat (apply elem_of_cons in Hp as [->|Hp]; [done|]). by apply elem_of_nil in Hp. }
  assert (Hdiff : forall r', be_encode 4 (u32 h) ++ r' <> be_encode 4 (u32 h') ++ r).
  { intros r' E. apply app_inj_1 in E as [E _]; [|by rewrite !length_be_encode].
    apply be32_inj in E; [|apply u32_range..]. by apply u32_inj in E. }
  eapply block_key; [done|done|by apply Hc| |by left].
  intros o Ho E. exfalso.
  assert (Hp' : p = PrefixHeader \/ p = PrefixBlockTx \/ p = PrefixUndo) by set_solver.
  destruct Hp' as [->|[->| ->]]; destruct Ho; cbn [op_key] in E; try discriminate E; unfold history_op, poskey, ukey, tkey in E;
    try discriminate E; apply cons_inj in E as [_ E];
    first [by apply Hdiff in E|by apply (Hdiff []); rewrite app_nil_r].
Qed.

(** Where an output under a scripthash comes from. *)
Lemma ukey_origin c c' block h undo hss sh t v : indexed_block c c' block h undo hss ->
  length t = 32%nat -> in_u32 v -> is_Some (c' !! ukey sh t v) ->
  (exists o, o ∈ block_created (header_BlockHash (block_Header block)) h (block_Transactions block) /\
     uo_Scripthash o = sh /\ uo_Txid o = t /\ uo_Vout o = v) \/
  (is_Some (c !! ukey sh t v) /\ forall o, o ∈ block_spent c (block_Transactions block) ->
     uo_Scripthash o = sh -> uo_Txid o = t -> uo_Vout o = v -> False).
Proof.
  intros (ops & Bb & Hc) Ht Hv Hk. destruct (block_batch_parts _ _ _ _ _ _ Bb)
    as (header & buf & raws & z & d & cp & _ & _ & _ & _ & _ & _ & _ & _ & Hops).
  destruct (decide (Exists (fun o => op_key o = ukey sh t v /\ op_value o <> None) ops)) as [He|He].
  { left. apply Exists_exists in He as (o & Ho & E & Hne). apply Hops in Ho.
    eapply ukey_ops in E as [(s & _ & _ & _ & _ & E')|(s & Hs & E1 & E2 & E3 & _)]; try done. eauto. }
  right. apply not_Exists_Forall in He; [|intros o; apply _]. rewrite Forall_forall in He.
  assert (Hnone : forall o, o ∈ ops -> op_key o = ukey sh t v -> op_value o = None).
  { intros o Ho E. destruct (op_value o) eqn:Ev; [|done]. destruct (He o Ho). split; [done|by rewrite Ev]. }
  assert (Hno : ~ exists o, o ∈ ops /\ op_key o = ukey sh t v).
  { intros Hex. rewrite Hc, (apply_ops_determined ops c _ None Hnone) in Hk by (by right || apply confirmed_ukey).
    by destruct Hk. }
  split.
  - rewrite Hc, apply_ops_untouched in Hk; [done| |apply confirmed_ukey].
    apply Forall_forall. intros o Ho E. apply Hno. eauto.
  - intros o Ho <- <- <-. apply Hno. eexists. split; [apply Hops; by apply bop_spent_u|done].
Qed.

(** What a transaction touches, by the database and by the ledger. *)
Lemma tx_touched_iff c U bh h n tx sh :
  (forall t v, length t = 32%nat -> in_u32 v -> utxo_at c t v = U t v) ->
  sh ∈ tx_touched c bh h (n, tx) <-> sh ∈ touches U (n, tx).
Proof.
  intros HU. unfold tx_touched, touches. rewrite fmap_app, !elem_of_app. cbn [fst snd].
  assert (Hs : sh ∈ uo_Scripthash <$> tx_spent c (n, tx) <->
    sh ∈ (if (n =? 0)%nat then [] else omap (input_owner U) (tx_TxIn tx))).
  { unfold tx_spent. cbn [fst snd]. destruct (n =? 0)%nat; [done|].
    rewrite list_elem_of_fmap, list_elem_of_omap. split.
    - intros (o & -> & Ho). apply list_elem_of_omap in Ho as (i & Hi & (H1 & H2 & H3 & H4)%spent_by_utxo_at).
      destruct (tx_TxIn_wf tx i Hi) as [L1 L2]. exists i. split; [done|]. unfold input_owner.
      by rewrite H1, <- HU, H4.
    - intros (i & Hi & E). destruct (tx_TxIn_wf tx i Hi) as [L1 L2]. unfold input_owner in E.
      destruct (IsCoinbaseInput i) eqn:Ei; [done|]. rewrite <- HU in E by done.
      destruct (utxo_at c (op_Hash i) (op_Index i)) as [[sh' [a b d]]|] eqn:Eu; [|done]. injection E as ->.
      exists (mkUndoOutput sh (op_Hash i) (op_Index i) a b d). split; [done|].
      apply list_elem_of_omap. exists i. split; [done|]. by apply spent_by_utxo_at. }
  assert (Hc : sh ∈ uo_Scripthash <$> tx_created bh h (n, tx) <-> sh ∈ omap output_owner (tx_TxOut tx)).
  { unfold tx_created. cbn [fst snd]. rewrite list_elem_of_fmap, list_elem_of_omap. split.
    - intros (o & -> & Ho). apply list_elem_of_omap in Ho as ([v out] & Hin & E).
      exists out. apply list_elem_of_lookup in Hin as [j Hj]. rewrite lookup_indexed in Hj.
      destruct (tx_TxOut tx !! j) eqn:Ej; [|done]. injection Hj as <- ->.
      split; [by eapply list_elem_of_lookup_2|]. rewrite created_by_indexable in E. unfold output_owner.
      cbn [fst snd] in E. destruct (indexable out); [|done]. by injection E as <-.
    - intros (out & Hin & E). apply list_elem_of_lookup in Hin as [j Hj]. unfold output_owner in E.
      destruct (indexable out) eqn:Ex; [|done]. injection E as <-.
      eexists. split; [|apply list_elem_of_omap; exists (j, out); split].
      2:{ apply list_elem_of_lookup. exists j. by rewrite lookup_indexed, Hj. }
      2:{ rewrite created_by_indexable. cbn [fst snd]. by rewrite Ex. }
      done. }
  by rewrite Hs, Hc.
Qed.

(** ** The database holds the ledger *)

(** The chain [bs], of which the first block has height [s], is one that can be
    indexed: its blocks are valid and small enough, and no txid occurs twice. *)
Record good_chain (s : Z) (bs : list MsgBlock) : Prop := {
  gc_start : 0 <= s;
  gc_end : s + Z.of_nat (length bs) < 2 ^ 31;
  gc_valid b : b ∈ bs -> valid_block b;
  gc_io b : b ∈ bs -> Z.of_nat (block_io b) < 2 ^ 32;
  gc_txs b : b ∈ bs -> Z.of_nat (length (block_Transactions b)) < 2 ^ 32;
  gc_txids : NoDup (chain_txids bs);
}.

Record mirrors (c : gmap bytes bytes) (s : Z) (bs : list MsgBlock) : Prop := {
  mi_utxo t v : length t = 32%nat -> in_u32 v -> utxo_at c t v = ledger_utxos s bs t v;
  mi_key sh t v : length t = 32%nat -> in_u32 v -> c !! tkey t v = Some sh -> exists u, utxo_at c t v = Some (sh, u);
  mi_own sh t v : length sh = 32%nat -> length t = 32%nat -> in_u32 v -> is_Some (c !! ukey sh t v) ->
    c !! tkey t v = Some sh;
  mi_entry sh h n x : length sh = 32%nat -> in_i32 h -> in_u32 n -> in_u32 x -> is_Some (c !! hkey sh h n x) ->
    exists i b tx, h = s + Z.of_nat i /\ bs !! i = Some b /\ block_Transactions b !! Z.to_nat n = Some tx /\
      sh ∈ touches (ledger_utxos s (take i bs)) (Z.to_nat n, tx);
  mi_history sh i b n tx : length sh = 32%nat -> bs !! i = Some b -> block_Transactions b !! n = Some tx ->
    sh ∈ touches (ledger_utxos s (take i bs)) (n, tx) ->
    exists x, in_u32 x /\ is_Some (c !! hkey sh (s + Z.of_nat i) (Z.of_nat n) x);
  mi_txids i b : bs !! i = Some b -> exists v, c !! (PrefixBlockTx :: be_encode 4 (u32 (s + Z.of_nat i))) = Some v /\
    decode_txids v = Ok (TxHash <$> block_Transactions b);
  mi_header i b : bs !! i = Some b -> exists v,
    c !! (PrefixHeader :: be_encode 4 (u32 (s + Z.of_nat i))) = Some v /\ header_Serialize (block_Header b) = Ok v;
  mi_above p h r : p ∈ [PrefixHeader; PrefixBlockTx; PrefixUndo] -> in_i32 h -> s + Z.of_nat (length bs) <= h ->
    c !! (p :: be_encode 4 (u32 h) ++ r) = None;
}.

(** Only the keys a rollback restores matter, and undo records may go. *)
Definition shrinks (c c' : gmap bytes bytes) : Prop := forall k, restorable k ->
  c' !! k = c !! k \/ (head k = Some PrefixUndo /\ c' !! k = None).

Lemma mirrors_shrinks c c' s bs : shrinks c c' -> mirrors c s bs -> mirrors c' s bs.
Proof.
  intros Hs M.
  assert (Hk : forall k, restorable k -> head k <> Some PrefixUndo -> c' !! k = c !! k)
    by (intros k Hk Hne; by destruct (Hs k Hk) as [?|[? _]]).
  assert (Ht : forall t v, c' !! tkey t v = c !! tkey t v) by (intros; apply Hk; [eexists; split; [done|auto]|done]).
  assert (Hu : forall sh t v, c' !! ukey sh t v = c !! ukey sh t v)
    by (intros; apply Hk; [eexists; split; [done|auto]|done]).
  assert (Hh : forall sh h i x, c' !! hkey sh h i x = c !! hkey sh h i x)
    by (intros; apply Hk; [eexists; split; [done|auto]|done]).
  assert (Ha : forall t v, utxo_at c' t v = utxo_at c t v).
  { intros. unfold utxo_at. rewrite Ht. destruct (c !! tkey t v); [|done]. cbn [mbind option_bind]. by rewrite Hu. }
  destruct M as [M1 M2 M3 M4 M5 M6 M7 M8]. split.
  - intros. rewrite Ha. by apply M1.
  - intros sh t v ? ?. rewrite Ht, Ha. by apply M2.
  - intros sh t v ? ? ?. rewrite Ht, Hu. by apply M3.
  - intros sh h n x ? ? ? ?. rewrite Hh. by apply M4.
  - intros sh i b n tx ? Hb Htx Hin. destruct (M5 sh i b n tx) as (x & H1 & H2); [done..|]. exists x. by rewrite Hh.
  - intros i b Hb. destruct (M6 i b Hb) as (v & H1 & H2). exists v. rewrite Hk; [done|eexists; split; [done|auto 7]|done].
  - intros i b Hb. destruct (M7 i b Hb) as (v & H1 & H2). exists v. rewrite Hk; [done|eexists; split; [done|auto 7]|done].
  - intros p h r Hp Hh' Hle. destruct (Hs (p :: be_encode 4 (u32 h) ++ r)) as [-> |[_ ?]]; [|by apply M8|done].
    exists p. split; [done|]. set_solver.
Qed.

Lemma mirrors_same c c' s bs : restorable_same c c' -> mirrors c s bs -> mirrors c' s bs.
Proof. intros Hs. apply mirrors_shrinks. intros k Hk. left. by apply Hs. Qed.

Lemma good_chain_prefix s bs bs' : good_chain s (bs ++ bs') -> good_chain s bs.
Proof.
  intros [H1 H2 H3 H4 H5 H6]. rewrite length_app in H2. split; [done|lia|..].
  1-3: intros b Hb; assert (b ∈ bs ++ bs') by (apply elem_of_app; by left); auto.
  unfold chain_txids in *. rewrite bind_app in H6. by apply NoDup_app in H6 as [? _].
Qed.

(** *** The next block *)

Section Next.
Context (c : gmap bytes bytes) (s : Z) (bs : list MsgBlock) (block : MsgBlock).
Context (M : mirrors c s bs) (G : good_chain s (bs ++ [block])).

Let h := s + Z.of_nat (length bs).
Let U := ledger_utxos s bs.

Lemma next_height : in_i32 h.
Proof.
  pose proof (gc_start _ _ G) as H0. pose proof (gc_end _ _ G) as H1. rewrite length_app in H1. simpl in H1.
  unfold in_i32, h. lia.
Qed.

Lemma next_in : block ∈ bs ++ [block].
Proof. apply elem_of_app. right. by apply list_elem_of_singleton. Qed.

Lemma next_nodup : NoDup (TxHash <$> block_Transactions block).
Proof. apply (gc_valid _ _ G), next_in. Qed.

Lemma next_txids tx : tx ∈ block_Transactions block -> TxHash tx ∉ chain_txids bs.
Proof.
  intros Htx Hin. pose proof (gc_txids _ _ G) as Hnd. rewrite chain_txids_snoc in Hnd.
  apply NoDup_app in Hnd as (_ & Hnd & _). apply (Hnd _ Hin). by apply list_elem_of_fmap_2.
Qed.

Lemma tkey_u32 t v : tkey t v = tkey t (u32 v).
Proof. unfold tkey. by rewrite be32_u32. Qed.

(** The database knows nothing of it yet. *)
Lemma next_unknown_key tx v : tx ∈ block_Transactions block -> c !! tkey (TxHash tx) v = None.
Proof.
  intros Htx. rewrite tkey_u32. destruct (c !! tkey (TxHash tx) (u32 v)) as [sh|] eqn:E; [|done]. exfalso.
  pose proof (length_TxHash tx). pose proof (u32_range v).
  destruct (mi_key _ _ _ M _ _ _ H H0 E) as [u Eu]. rewrite (mi_utxo _ _ _ M) in Eu by done.
  apply (next_txids tx Htx). eapply ledger_utxos_txid. by rewrite Eu.
Qed.

Lemma next_fresh : fresh_block c block h.
Proof.
  pose proof next_height as Hh. split.
  - intros. by apply next_unknown_key.
  - intros tx sh v Htx Hl. assert (ukey sh (TxHash tx) v = ukey sh (TxHash tx) (u32 v)) as ->
      by (unfold ukey; by rewrite be32_u32).
    destruct (c !! ukey sh (TxHash tx) (u32 v)) eqn:E; [|done]. exfalso.
    assert (Ek : c !! tkey (TxHash tx) (u32 v) = Some sh)
      by (apply (mi_own _ _ _ M); [done|apply length_TxHash|apply u32_range|by eexists]).
    by rewrite next_unknown_key in Ek.
  - intros sh i x Hl. assert (hkey sh h i x = hkey sh h (u32 i) (u32 x)) as ->
      by (unfold hkey; by rewrite !(be32_u32 i), !(be32_u32 x)).
    destruct (c !! hkey sh h (u32 i) (u32 x)) eqn:E; [|done]. exfalso.
    destruct (mi_entry _ _ _ M sh h (u32 i) (u32 x)) as (j & b & tx & Ej & Hb & _);
      [done|done|apply u32_range..|by eexists|].
    apply lookup_lt_Some in Hb. unfold h in Ej. lia.
  - rewrite <- (app_nil_r (be_encode _ _)). apply (mi_above _ _ _ M); [set_solver|done|unfold h; lia].
  - rewrite <- (app_nil_r (be_encode _ _)). apply (mi_above _ _ _ M); [set_solver|done|unfold h; lia].
  - intros bh. apply (mi_above _ _ _ M); [set_solver|done|unfold h; lia].
Qed.

Lemma next_undoable : undoable c block h.
Proof.
  split; [apply next_fresh|apply next_nodup|apply next_height|].
  pose proof (block_io_bound c (header_BlockHash (block_Header block)) h (block_Transactions block)) as Hb.
  pose proof (gc_io _ _ G _ next_in) as Hio. unfold block_io in Hio. lia.
Qed.

Context (c' : gmap bytes bytes) (undo : UndoBlock) (hss : list (list UndoHistory)).
Context (Hix : indexed_block c c' block h undo hss).

Lemma next_utxo t v : length t = 32%nat -> in_u32 v ->
  utxo_at c' t v = ledger_utxos s (bs ++ [block]) t v.
Proof.
  intros Ht Hv. rewrite (utxo_after c c' block h undo hss Hix next_nodup next_height next_unknown_key t v Ht Hv), ledger_utxos_snoc.
  apply utxo_step_same. by apply (mi_utxo _ _ _ M).
Qed.

(** The index of outpoints after the block, case by case. *)
Lemma next_key sh t v : length t = 32%nat -> in_u32 v -> c' !! tkey t v = Some sh ->
  exists u, utxo_at c' t v = Some (sh, u).
Proof.
  intros Ht Hv Hk. set (sp := block_spent c (block_Transactions block)).
  set (cr := block_created (header_BlockHash (block_Header block)) h (block_Transactions block)).
  destruct (decide (Exists (fun o => uo_Txid o = t /\ uo_Vout o = v) cr)) as [(o & Ho & <- & <-)%Exists_exists|Hc].
  { destruct (after_created c c' block h undo hss Hix next_nodup next_unknown_key o Ho) as [E1 E2].
    rewrite E1 in Hk. injection Hk as <-. rewrite (utxo_after c c' block h undo hss Hix next_nodup next_height next_unknown_key) by done.
    unfold utxo_step. rewrite (proj2 (created_at_iff block h _ _ _ next_nodup Hv)
      (ex_intro _ o (conj Ho (conj eq_refl (conj eq_refl eq_refl))))). by eexists. }
  destruct (decide (Exists (fun o => uo_Txid o = t /\ uo_Vout o = v) sp)) as [(o & Ho & <- & <-)%Exists_exists|Hs].
  { by rewrite (after_spent c c' block h undo hss Hix next_unknown_key o Ho) in Hk. }
  rewrite Exists_exists in Hc, Hs.
  destruct (after_other c c' block h undo hss Hix t v sh Ht Hv) as [E1 E2]; [naive_solver..|].
  rewrite E1 in Hk. destruct (mi_key _ _ _ M sh t v Ht Hv Hk) as [u Eu]. exists u. rewrite <- Eu.
  apply (utxo_other c c' block h undo hss Hix t v Ht Hv); naive_solver.
Qed.

Lemma next_own sh t v : length sh = 32%nat -> length t = 32%nat -> in_u32 v -> is_Some (c' !! ukey sh t v) ->
  c' !! tkey t v = Some sh.
Proof.
  intros Hsh Ht Hv Hk.
  destruct (ukey_origin c c' block h undo hss sh t v Hix Ht Hv Hk) as [(o & Ho & <- & <- & <-)|[Hold Hno]].
  { apply (after_created c c' block h undo hss Hix next_nodup next_unknown_key o Ho). }
  pose proof (mi_own _ _ _ M sh t v Hsh Ht Hv Hold) as Hc. rewrite <- Hc.
  apply (after_other c c' block h undo hss Hix t v sh Ht Hv).
  - intros o Ho E1 E2. apply (Hno o Ho); [|done..]. apply block_spent_fields in Ho as (_ & _ & E).
    rewrite E1, E2, Hc in E. congruence.
  - intros o (_ & _ & _ & tx & Htx & E)%block_created_fields E1 _.
    rewrite <- E1, E, next_unknown_key in Hc by done. done.
Qed.

(** The history entries after the block. *)
Lemma next_entries sh h' n x : length sh = 32%nat -> in_i32 h' -> in_u32 n -> in_u32 x ->
  (h' <> h -> c' !! hkey sh h' n x = c !! hkey sh h' n x) /\
  (c' !! hkey sh h n x = Some [] <-> exists m hs e, hss !! m = Some hs /\ e ∈ hs /\
     Z.of_nat m = n /\ uh_Scripthash e = sh /\ uh_Index e = x) /\
  (c' !! hkey sh h n x = Some [] \/ c' !! hkey sh h n x = None).
Proof.
  intros H1 H2 H3 H4.
  apply (history_after c c' block h undo hss sh h' n x Hix next_height H2 H3 H4 H1 (gc_txs _ _ G _ next_in)).
  intros. by apply (fr_hist _ _ _ next_fresh).
Qed.

Lemma next_touched n tx : block_Transactions block !! n = Some tx -> exists hs, hss !! n = Some hs /\
  Forall (history_entry h (u32 (Z.of_nat n))) hs /\ forall sh, sh ∈ uh_Scripthash <$> hs <-> sh ∈ touches U (n, tx).
Proof.
  intros Htx. destruct Hix as (ops & Bb & _).
  destruct (Forall2_lookup_l _ _ _ n (n, tx) (bb_hist _ _ _ _ _ _ Bb)) as (hs & E & Hall & _ & Ht);
    [by rewrite lookup_indexed, Htx|].
  exists hs. split_and!; [done|done|]. intros sh. rewrite Ht. apply tx_touched_iff. apply (mi_utxo _ _ _ M).
Qed.

Lemma next_txs_u32 n tx : block_Transactions block !! n = Some tx -> in_u32 (Z.of_nat n).
Proof. intros Htx%lookup_lt_Some. pose proof (gc_txs _ _ G _ next_in). unfold in_u32. lia. Qed.

Lemma next_entry sh h' n x : length sh = 32%nat -> in_i32 h' -> in_u32 n -> in_u32 x -> is_Some (c' !! hkey sh h' n x) ->
  exists i b tx, h' = s + Z.of_nat i /\ (bs ++ [block]) !! i = Some b /\ block_Transactions b !! Z.to_nat n = Some tx /\
    sh ∈ touches (ledger_utxos s (take i (bs ++ [block]))) (Z.to_nat n, tx).
Proof.
  intros Hsh next_height' Hn' Hx Hk. destruct (decide (h' = h)) as [->|Hne].
  - destruct (next_entries sh h n x) as (_ & Hiff & Hor); [done..|].
    destruct Hor as [E|E]; [|rewrite E in Hk; by destruct Hk].
    apply Hiff in E as (m & hs & e & Hm & He & <- & <- & _).
    assert (Hlen : length hss = length (block_Transactions block)).
    { destruct Hix as (ops & Bb & _). rewrite <- (Forall2_length _ _ _ (bb_hist _ _ _ _ _ _ Bb)).
      unfold indexed. by rewrite length_imap. }
    destruct (lookup_lt_is_Some_2 (block_Transactions block) m) as [tx Htx];
      [rewrite <- Hlen; by eapply lookup_lt_Some|].
    destruct (next_touched m tx Htx) as (hs' & E' & _ & Ht). rewrite Hm in E'. injection E' as <-.
    exists (length bs), block, tx. rewrite Nat2Z.id, take_app_length. split_and!; [done| |done|].
    + by apply lookup_snoc_Some; right.
    + apply Ht. by apply list_elem_of_fmap_2.
  - destruct (next_entries sh h' n x) as (E & _); [done..|]. rewrite E in Hk by done.
    destruct (mi_entry _ _ _ M sh h' n x Hsh next_height' Hn' Hx Hk) as (i & b & tx & H1 & H2 & H3 & H4).
    exists i, b, tx. pose proof (lookup_lt_Some _ _ _ H2). rewrite lookup_app_l, take_app_le by lia. done.
Qed.

Lemma next_history sh i b n tx : length sh = 32%nat -> (bs ++ [block]) !! i = Some b ->
  block_Transactions b !! n = Some tx -> sh ∈ touches (ledger_utxos s (take i (bs ++ [block]))) (n, tx) ->
  exists x, in_u32 x /\ is_Some (c' !! hkey sh (s + Z.of_nat i) (Z.of_nat n) x).
Proof.
  intros Hsh [[Hlt Hb]|[-> <-]]%lookup_snoc_Some Htx Hin.
  - rewrite take_app_le in Hin by lia. destruct (mi_history _ _ _ M sh i b n tx Hsh Hb Htx Hin) as (x & Hx & Hk).
    exists x. split; [done|].
    assert (Hb' : b ∈ bs ++ [block]) by (apply elem_of_app; left; by eapply list_elem_of_lookup_2).
    pose proof (gc_txs _ _ G _ Hb'). pose proof (lookup_lt_Some _ _ _ Htx). pose proof (gc_start _ _ G). pose proof next_height as Hh.
    destruct (next_entries sh (s + Z.of_nat i) (Z.of_nat n) x) as (E & _);
      [done|unfold in_i32, h in *; lia|unfold in_u32; lia|done|].
    rewrite E by (unfold h; lia). done.
  - rewrite take_app_length in Hin. destruct (next_touched n tx Htx) as (hs & Hm & Hall & Ht).
    apply Ht in Hin. apply list_elem_of_fmap in Hin as (e & Ee & He). subst sh. rewrite Forall_forall in Hall.
    destruct (Hall e He) as (_ & _ & Hl & Hu). exists (uh_Index e). split; [done|].
    destruct (next_entries (uh_Scripthash e) h (Z.of_nat n) (uh_Index e)) as (_ & Hiff & _);
      [done|apply next_height|by eapply next_txs_u32|done|].
    change (is_Some (c' !! hkey (uh_Scripthash e) h (Z.of_nat n) (uh_Index e))).
    rewrite (proj2 Hiff); [by eexists|]. exists n, hs, e. done.
Qed.

(** The next block keeps the correspondence. *)
Lemma next_mirrors : mirrors c' s (bs ++ [block]).
Proof.
  pose proof (gc_start _ _ G) as H0. pose proof next_height as Hh. split;
    [apply next_utxo|apply next_key|apply next_own|apply next_entry|apply next_history|..].
  - intros i b [[Hlt Hb]|[-> <-]]%lookup_snoc_Some.
    + destruct (mi_txids _ _ _ M i b Hb) as (v & E & Hd). exists v. split; [|done].
      rewrite <- (app_nil_r (be_encode _ _)) in E |- *.
      rewrite (other_height c c' block h undo hss) by (done || set_solver || (unfold in_i32, h in *; lia)). done.
    + destruct (records_after _ _ _ _ _ _ Hix next_nodup) as
        (header & buf & raws & z & d & cp & _ & H2 & _ & _ & _ & _ & _ & _ & _ & K2 & _).
      exists buf. split; [exact K2|]. by apply decode_txids_encode.
  - intros i b [[Hlt Hb]|[-> <-]]%lookup_snoc_Some.
    + destruct (mi_header _ _ _ M i b Hb) as (v & E & Hd). exists v. split; [|done].
      rewrite <- (app_nil_r (be_encode _ _)) in E |- *.
      rewrite (other_height c c' block h undo hss) by (done || set_solver || (unfold in_i32, h in *; lia)). done.
    + destruct (records_after _ _ _ _ _ _ Hix next_nodup) as
        (header & buf & raws & z & d & cp & H1 & _ & _ & _ & _ & _ & _ & _ & K1 & _).
      exists header. done.
  - intros p h' r Hp next_height' Hle. rewrite length_app in Hle. simpl in Hle.
    rewrite (other_height c c' block h undo hss) by (done || (unfold h; lia)).
    apply (mi_above _ _ _ M); [done..|lia].
Qed.

End Next.

End Index.
