(* ===== verification/Synced.v ===== *)
(** * The index follows the node's chain

    [synced]: the database was built by indexing a chain from its start height
    on, block by block and through rollbacks, and the manager's tip is its last
    block.  Such a database mirrors the ledger of that chain; indexing the next
    blocks keeps it, and so does catching up with a node, across a
    reorganisation or without one. *)

From Stdlib Require Import Strings.Byte.
From S2P Require Import Prelude Bytes Hex Keys Values Json Checkpoint Pebble Store Sha256 Types Mempool MempoolFacts MempoolProps Block BlockFacts BlockOps BlockProps Reorg ReorgFacts ReorgProps ChainFacts ReorgChain Typed Total Steps Chain Follow FollowProps Query QueryFacts Ledger.

Section Built.
Context {P : Pebble} {PL : PebbleLaws P} {B : Btcd} {BL : BtcdLaws B} {Zs : Zstd}.

(** A database without the data of any block. *)
Definition no_blocks (c : gmap bytes bytes) : Prop := forall k, restorable k -> c !! k = None.

Lemma no_blocks_wf c : no_blocks c -> undo_keys_wf c.
Proof. intros H k [v Hk] Hh. rewrite H in Hk by (by apply undo_restorable). done. Qed.

Lemma no_blocks_mirrors c s : no_blocks c -> mirrors c s [].
Proof.
  intros H.
  assert (Ht : forall t v, c !! tkey t v = None) by (intros; apply H; eexists; split; [done|auto]).
  assert (Hu : forall sh t v, c !! ukey sh t v = None) by (intros; apply H; eexists; split; [done|auto]).
  assert (Hh : forall sh h n x, c !! hkey sh h n x = None) by (intros; apply H; eexists; split; [done|auto]).
  split.
  - intros t v _ _. unfold utxo_at. by rewrite Ht.
  - intros sh t v _ _. by rewrite Ht.
  - intros sh t v _ _ _. rewrite Hu. by intros [].
  - intros sh h n x _ _ _ _. rewrite Hh. by intros [].
  - by intros sh i b n tx _ Hb.
  - by intros i b Hb.
  - by intros i b Hb.
  - intros p h r Hp _ _. apply H. exists p. split; [done|]. set_solver.
Qed.

(** A chain indexed from its start is mirrored. *)
Lemma chain_mirrors ord s w0 bs w : chain ord (s - 1) w0 bs w -> no_blocks (contents (w_db w0)) ->
  good_chain s bs -> mirrors (contents (w_db w)) s bs.
Proof.
  intros Hc H0. induction Hc as [w' Hs|bs w1 block w2 w3 Hc IH Hud Hix Hs _]; intros G.
  { eapply mirrors_same; [exact Hs|]. by apply no_blocks_mirrors. }
  specialize (IH (good_chain_prefix _ _ _ G)). eapply mirrors_same; [exact Hs|].
  apply IndexBlock_Ok in Hix as (undo & hss & Hix); [|apply Hud].
  replace (s - 1 + Z.of_nat (length bs) + 1) with (s + Z.of_nat (length bs)) in Hix by lia.
  by eapply next_mirrors.
Qed.

(** The chain up to a height inside it, and from there on. *)
Lemma chain_split ord base w bs bs' w' : chain ord base w (bs ++ bs') w' ->
  exists wm, chain ord base w bs wm /\ chain ord (base + Z.of_nat (length bs)) wm bs' w'.
Proof.
  revert w'; induction bs' as [|b bs' IH] using rev_ind; intros w' Hc.
  { rewrite app_nil_r in Hc. exists w'. split; [done|]. by constructor. }
  rewrite app_assoc in Hc. inversion Hc as [w2 Hs E|bs1 w1 b1 w2 w3 Hc1 Hud Hix Hs Htip E].
  { symmetry in E. by apply app_nil in E as [_ ?]. }
  apply app_inj_2 in E as [-> [= ->]]; [|done]. destruct (IH _ Hc1) as (wm & C1 & C2).
  exists wm. split; [done|].
  replace (base + Z.of_nat (length (bs ++ bs')) + 1)
    with (base + Z.of_nat (length bs) + Z.of_nat (length bs') + 1) in * by (rewrite length_app; lia).
  by eapply chain_later.
Qed.

(** A rollback to the end of a chain is a step that chains allow. *)
Lemma chain_same ord base w bs w1 w2 b : chain ord base w bs w1 -> last bs = Some b ->
  restorable_same (contents (w_db w1)) (contents (w_db w2)) ->
  tip_at (contents (w_db w2)) (base + Z.of_nat (length bs)) (block_hash b) -> chain ord base w bs w2.
Proof.
  intros Hc. destruct Hc as [w' Hs|bs w1 block w2' w3 Hc Hud Hix Hs Htip]; [done|].
  rewrite last_snoc. intros [= <-] Hs2 Ht. eapply chain_later; [done..|by etrans|].
  rewrite length_app in Ht. simpl in Ht.
  by replace (base + Z.of_nat (length bs) + 1) with (base + Z.of_nat (length bs + 1)) by lia.
Qed.

End Built.

(** ** The start height in the checkpoint *)

Section Start.
Context {P : Pebble} {PL : PebbleLaws P} {PH : PebbleHealthy P PL} {B : Btcd} {BL : BtcdLaws B}.
Context {Zs : Zstd} {ZL : ZstdLaws Zs}.

Lemma LoadCheckpoint_start d : healthy d -> exists cp err d', LoadCheckpoint d = (Ok (cp, err), d') /\
  cp_StartHeight cp = stored_start (contents d).
Proof.
  intros Hd. destruct (get_healthy KeyCheckpoint d Hd) as (d' & E & _). unfold LoadCheckpoint, stored_start.
  rewrite (st_bind_run _ _ _ _ _ E). destruct (contents d !! KeyCheckpoint) as [v|]; [|by eexists _, _, _].
  destruct (json_Unmarshal v zeroCheckpoint) as [cp err]. by eexists _, _, _.
Qed.

(** Indexing a block hands the start height on. *)
Lemma IndexBlock_start ord block h w w' : healthy (w_db w) -> typed_db (contents (w_db w)) -> valid_block block ->
  in_i32 h -> IndexBlock ord block h w = (Ok (), w') ->
  stored_start (contents (w_db w')) = stored_start (contents (w_db w)).
Proof.
  intros Hw Ht Hb Hh. unfold IndexBlock. rewrite st_bind_Ok. intros (b & w1 & H & Hcommit).
  apply st_wrap_Ok, in_db_Ok in Hcommit as [Hcommit _]. apply commit_run_Ok in Hcommit.
  unfold index_batch in H. rewrite st_bind_Ok in H. destruct H as (header & w2 & H1 & H).
  apply st_lift_Ok in H1 as [_ ->]. rewrite st_bind_Ok in H. destruct H as (acc & w3 & H1 & H).
  destruct (index_fold_ready ord block h w Hw Ht Hb) as (acc' & w3' & E & Hw3 & Hs3).
  change (BlockHashFromHash (header_BlockHash (block_Header block))) with (header_BlockHash (block_Header block)) in H1.
  rewrite H1 in E. injection E as <- <-. rewrite st_bind_Ok in H. destruct H as (b1 & w4 & Hb1 & H).
  apply st_lift_Ok in Hb1 as [_ ->]. rewrite st_bind_Ok in H. destruct H as ([prev err] & w4 & Hp & H).
  apply in_db_Ok in Hp as [Hp _]. pose proof (LoadCheckpoint_i32 _ _ _ _ Hp) as Hi.
  destruct (LoadCheckpoint_start (w_db w3) Hw3) as (cp & err' & d' & E & Es).
  rewrite Hp in E. injection E as -> -> _. apply st_lift_Ok in H as [H ->].
  apply wrap_Ok, SaveCheckpointInBatch_Ok in H. rewrite Hcommit, H. unfold apply_ops. rewrite foldl_app.
  unfold stored_start at 1. cbn [foldl]. rewrite apply_op_lookup, decide_True by done. cbn [op_value].
  rewrite json_Unmarshal_Marshal.
  - cbn [fst cp_StartHeight]. rewrite Es. unfold stored_start. by rewrite Hs3.
  - split_and!; [done|apply Hi|]. cbn [cp_BlockHash]. rewrite hash_String_hex by apply length_BlockHash. apply plain_EncodeToString.
Qed.

(** ** Indexing the next blocks *)

(** The blocks of the node's chain from height [s] to [t]. *)
Definition blocks_to (nb : Z -> MsgBlock) (s t : Z) : list MsgBlock := nb <$> seqZ s (t - s + 1).

Lemma blocks_to_snoc nb s t : s <= t + 1 -> blocks_to nb s (t + 1) = blocks_to nb s t ++ [nb (t + 1)].
Proof.
  intros Hs. unfold blocks_to. replace (t + 1 - s + 1) with (t - s + 1 + 1) by lia.
  rewrite seqZ_app by lia. rewrite fmap_app. replace (s + (t - s + 1)) with (t + 1) by lia. done.
Qed.

Lemma length_blocks_to nb s t : s <= t + 1 -> Z.of_nat (length (blocks_to nb s t)) = t - s + 1.
Proof. intros Hs. unfold blocks_to. rewrite length_fmap, length_seqZ. lia. Qed.

Lemma blocks_to_nil nb s : blocks_to nb s (s - 1) = [].
Proof. unfold blocks_to. by replace (s - 1 - s + 1) with 0 by lia. Qed.

Lemma blocks_to_app nb s t n : s <= t + 1 ->
  blocks_to nb s (t + Z.of_nat n) = blocks_to nb s t ++ (nb <$> seqZ (t + 1) (Z.of_nat n)).
Proof.
  intros Hs. unfold blocks_to. replace (t + Z.of_nat n - s + 1) with (t - s + 1 + Z.of_nat n) by lia.
  rewrite seqZ_app, fmap_app by lia. by replace (s + (t - s + 1)) with (t + 1) by lia.
Qed.

(** [last] of such a range. *)
Lemma last_blocks_to nb s t : s <= t -> last (blocks_to nb s t) = Some (nb t).
Proof. intros Hs. replace t with (t - 1 + 1) by lia. rewrite blocks_to_snoc by lia. apply last_snoc. Qed.

(** The state of the database, as the manager's runs find it. *)
Definition sound (w : world) : Prop := healthy (w_db w) /\ typed_db (contents (w_db w)).

(** One block: it is indexed, and the database mirrors the chain with it. *)
Lemma index_next ord nb s t w : s <= t + 1 -> sound w -> good_chain s (blocks_to nb s (t + 1)) ->
  exists w1, IndexBlock ord (nb (t + 1)) (t + 1) w = (Ok (), w1) /\ sound w1 /\
    stored_start (contents (w_db w1)) = stored_start (contents (w_db w)) /\
    (mirrors (contents (w_db w)) s (blocks_to nb s t) -> undoable (contents (w_db w)) (nb (t + 1)) (t + 1) /\
     mirrors (contents (w_db w1)) s (blocks_to nb s (t + 1))).
Proof.
  intros Hst [Hd Ht] G. pose proof (gc_start _ _ G) as Hs0. pose proof (length_blocks_to nb s t Hst) as Hlen.
  assert (Hin : nb (t + 1) ∈ blocks_to nb s (t + 1))
    by (rewrite blocks_to_snoc by lia; apply elem_of_app; right; by apply list_elem_of_singleton).
  pose proof (gc_valid _ _ G _ Hin) as Hv. pose proof (gc_end _ _ G) as Hend. rewrite length_blocks_to in Hend by lia.
  assert (Hh : in_i32 (t + 1)) by (unfold in_i32; lia).
  destruct (IndexBlock_total ord (nb (t + 1)) (t + 1) w) as (w1 & E & Hd1); [done|done|lia|done|].
  exists w1. split_and!; [done| |by eapply IndexBlock_start|].
  - split; [done|]. change w1 with (Ok (A := unit) (), w1).2. rewrite <- E.
    apply IndexBlock_typed; [apply Hv|done| |done].
    pose proof (block_io_bound (contents (w_db w)) (block_hash (nb (t + 1))) (t + 1) (block_Transactions (nb (t + 1)))).
    pose proof (gc_io _ _ G _ Hin) as Hio. unfold block_io in Hio. unfold block_hash in *. lia.
  - rewrite blocks_to_snoc in G |- * by lia. intros M.
    assert (Eh : s + Z.of_nat (length (blocks_to nb s t)) = t + 1) by lia.
    pose proof (next_undoable _ _ _ _ M G) as Hu. rewrite Eh in Hu. split; [done|].
    apply IndexBlock_Ok in E as (undo & hss & Hix); [|apply Hv].
    eapply next_mirrors; [exact M|exact G|]. by rewrite Eh.
Qed.

Lemma good_blocks_prefix nb s t n : s <= t + 1 -> good_chain s (blocks_to nb s (t + Z.of_nat n)) ->
  good_chain s (blocks_to nb s t).
Proof. intros Hst G. rewrite blocks_to_app in G by done. by apply good_chain_prefix in G. Qed.

Lemma index_from_mirrors ord nb s n : forall t w, s <= t + 1 -> sound w ->
  good_chain s (blocks_to nb s (t + Z.of_nat n)) -> mirrors (contents (w_db w)) s (blocks_to nb s t) ->
  mirrors (contents (w_db (index_from ord nb n (t + 1) w))) s (blocks_to nb s (t + Z.of_nat n)).
Proof.
  induction n as [|n IH]; intros t w Hst Hw G M; cbn [index_from]; [by rewrite Z.add_0_r|].
  replace (t + Z.of_nat (S n)) with (t + 1 + Z.of_nat n) in * by lia.
  assert (G1 : good_chain s (blocks_to nb s (t + 1))) by (eapply good_blocks_prefix; [|exact G]; lia).
  destruct (index_next ord nb s t w Hst Hw G1) as (w1 & E & Hw1 & _ & HM). rewrite E. cbn [snd].
  apply IH; [lia|done|done|by apply HM].
Qed.

Lemma index_from_chain ord nb s w0 n : no_blocks (contents (w_db w0)) -> forall t w, s <= t + 1 -> sound w ->
  good_chain s (blocks_to nb s (t + Z.of_nat n)) -> chain ord (s - 1) w0 (blocks_to nb s t) w ->
  let w' := index_from ord nb n (t + 1) w in
  chain ord (s - 1) w0 (blocks_to nb s (t + Z.of_nat n)) w' /\
  stored_start (contents (w_db w')) = stored_start (contents (w_db w)).
Proof.
  intros H0. induction n as [|n IH]; intros t w Hst Hw G Hc; cbn [index_from]; [by rewrite Z.add_0_r|].
  replace (t + Z.of_nat (S n)) with (t + 1 + Z.of_nat n) in * by lia.
  assert (G1 : good_chain s (blocks_to nb s (t + 1))) by (eapply good_blocks_prefix; [|exact G]; lia).
  assert (G0 : good_chain s (blocks_to nb s t)) by (apply (good_blocks_prefix nb s t 1); [lia|done]).
  destruct (index_next ord nb s t w Hst Hw G1) as (w1 & E & Hw1 & Es & HM). rewrite E. cbn [snd].
  destruct (HM (chain_mirrors ord s w0 _ w Hc H0 G0)) as [Hu _]. pose proof (length_blocks_to nb s t Hst) as Hlen.
  destruct (IH (t + 1) w1) as [C1 C2]; [lia|done|done| |by rewrite C2].
  rewrite blocks_to_snoc by lia.
  eapply (chain_snoc ord (s - 1) w0 (blocks_to nb s t) w (nb (t + 1)) w1 w1); [done| | |done];
    by replace (s - 1 + Z.of_nat (length (blocks_to nb s t)) + 1) with (t + 1) by lia.
Qed.

(** ** Synchronised with a chain *)

Record synced (ord : range_order) (s : Z) (bs : list MsgBlock) (w : cworld) : Prop := {
  sy_chain : exists w0, no_blocks (contents (w_db w0)) /\ chain ord (s - 1) w0 bs (cm_world w);
  sy_good : good_chain s bs;
  sy_working : working w;
  sy_height : currentHeight w = s - 1 + Z.of_nat (length bs);
  sy_hash b : last bs = Some b -> currentHash w = block_hash b;
  sy_start : stored_start (contents (w_db (cm_world w))) <= s;
}.

(** A synchronised database mirrors the ledger of the chain. *)
Lemma synced_mirrors ord s bs w : synced ord s bs w -> mirrors (contents (w_db (cm_world w))) s bs.
Proof. intros [(w0 & H0 & Hc) G _ _ _ _]. by eapply chain_mirrors. Qed.

Lemma synced_followed ord s nb t h w w' : synced ord s (blocks_to nb s t) w -> s <= t + 1 -> t <= h ->
  good_chain s (blocks_to nb s h) -> followed ord nb w h w' -> synced ord s (blocks_to nb s h) w'.
Proof.
  intros [(w0 & H0 & Hc) _ [Hd Ht] Hheight _ Hstart] Hst Hth G [T F1 F2 F3 F4 _ _].
  rewrite length_blocks_to in Hheight by lia.
  replace (currentHeight w) with t in F3 by lia.
  destruct (index_from_chain ord nb s w0 (Z.to_nat (h - t)) H0 t (cm_world w)) as [C1 C2]; [lia|by split| |done|].
  { by replace (t + Z.of_nat (Z.to_nat (h - t))) with h by lia. }
  replace (t + Z.of_nat (Z.to_nat (h - t))) with h in C1 by lia. rewrite <- F3 in C1, C2.
  split; [by exists w0|done|done| |..].
  - rewrite length_blocks_to by lia. destruct T as [-> _]. lia.
  - intros b. destruct (decide (s <= h)); [|].
    + rewrite last_blocks_to by lia. intros [= <-]. apply T.
    + replace h with (s - 1) by lia. by rewrite blocks_to_nil.
  - by rewrite C2.
Qed.

End Start.
