(* ===== verification/Served.v ===== *)
(** * What clients are told is the ledger

    On a database that mirrors the ledger of a chain, the scripthash queries
    answer from that ledger; and the ledger, kept block by block as the index
    keeps it, is the one that takes the transactions one after the other, as
    long as no block spends an output of its own. *)

From Stdlib Require Import Strings.Byte.
From S2P Require Import Prelude Bytes Hex Keys Values Json Checkpoint Pebble Store Sha256 Types Mempool MempoolFacts MempoolProps Block BlockFacts BlockOps BlockProps Reorg ReorgFacts ReorgProps ChainFacts ReorgChain Typed Total Steps Chain Follow Query QueryFacts QueryProps Ledger.

Section Mirrored.
Context {P : Pebble} {PL : PebbleLaws P} {PH : PebbleHealthy P PL} {B : Btcd} {BL : BtcdLaws B} {Zs : Zstd}.

(** ** The database's answers in terms of the ledger *)

Lemma txids_at c s bs i b : mirrors c s bs -> good_chain s bs -> bs !! i = Some b ->
  block_txids_at c (s + Z.of_nat i) = Some (TxHash <$> block_Transactions b).
Proof.
  intros M G Hb. destruct (mi_txids _ _ _ M i b Hb) as (v & Hk & Hv). pose proof (gc_start _ _ G).
  unfold block_txids_at. destruct (Z.ltb_spec (s + Z.of_nat i) 0); [lia|]. rewrite Hk.
  cbn [mbind option_bind]. by rewrite Hv.
Qed.

Lemma confirmed_is_ledger c s bs sh e : mirrors c s bs -> good_chain s bs -> length sh = 32%nat ->
  confirmed_at c sh e <-> e ∈ ledger_history s bs sh.
Proof.
  intros M G Hsh. rewrite ledger_history_elem. split.
  - intros (n & x & t & Hh & Hn & Hx & Hk & Ht & Eh).
    destruct (mi_entry _ _ _ M sh (hi_height e) n x) as (i & b & tx & E1 & E2 & E3 & E4); [done..|].
    exists i, b, (Z.to_nat n), tx. split_and!; [done..|].
    unfold history_tx in Ht. rewrite E1, (txids_at c s bs i b M G E2) in Ht. cbn [mbind option_bind] in Ht.
    rewrite list_lookup_fmap, E3 in Ht. injection Ht as <-. destruct e. simpl in *. by subst.
  - intros (i & b & n & tx & Hb & Htx & Ht & ->).
    destruct (mi_history _ _ _ M sh i b n tx Hsh Hb Htx Ht) as (x & Hx & Hk).
    pose proof (gc_start _ _ G). pose proof (gc_end _ _ G). pose proof (lookup_lt_Some _ _ _ Hb).
    pose proof (lookup_lt_Some _ _ _ Htx). pose proof (gc_txs _ _ G _ (list_elem_of_lookup_2 _ _ _ Hb)).
    exists (Z.of_nat n), x, (TxHash tx). cbn [hi_height hi_tx_hash].
    split_and!; [unfold in_i32; lia|unfold in_u32; lia|done|done| |done].
    unfold history_tx. rewrite (txids_at c s bs i b M G Hb). cbn [mbind option_bind].
    by rewrite Nat2Z.id, list_lookup_fmap, Htx.
Qed.

Lemma stored_is_ledger c s bs sh t v u : mirrors c s bs -> length sh = 32%nat ->
  stored c sh t v u <-> length t = 32%nat /\ in_u32 v /\ ledger_utxos s bs t v = Some (sh, u).
Proof.
  intros M Hsh. unfold stored. split.
  - intros (Ht & Hv & bs' & Hk & Hd). split_and!; [done..|].
    rewrite <- (mi_utxo _ _ _ M) by done. unfold utxo_at.
    rewrite (mi_own _ _ _ M sh t v) by (done || by eexists). cbn [mbind option_bind]. rewrite Hk.
    cbn [mbind option_bind]. by rewrite Hd.
  - intros (Ht & Hv & E). split_and!; [done..|]. rewrite <- (mi_utxo _ _ _ M) in E by done. unfold utxo_at in E.
    destruct (c !! tkey t v) as [sh'|]; [|done]. cbn [mbind option_bind] in E.
    destruct (c !! ukey sh' t v) as [w|] eqn:Ek; [|done]. cbn [mbind option_bind] in E.
    destruct (DecodeUTXOValue w) as [u'|] eqn:Ed; [|done]. injection E as -> ->. by exists w.
Qed.

(** A txid occurs at one place of the chain. *)
Lemma bind_NoDup_unique {A C} (f : A -> list C) l i j a a' x : NoDup (l ≫= f) ->
  l !! i = Some a -> l !! j = Some a' -> x ∈ f a -> x ∈ f a' -> i = j.
Proof.
  revert i j; induction l as [|y l IH]; intros i j Hnd Hi Hj Hx Hx'; [done|].
  rewrite bind_cons in Hnd. apply NoDup_app in Hnd as (_ & Hd & Hnd).
  assert (Hin : forall k a0, l !! k = Some a0 -> x ∈ f a0 -> x ∈ l ≫= f).
  { intros k a0 Hk Ha. apply list_elem_of_bind. exists a0. split; [done|]. by eapply list_elem_of_lookup_2. }
  destruct i as [|i], j as [|j]; [done| | |f_equal; by eapply IH]; simpl in *.
  - injection Hi as ->. destruct (Hd x Hx). by eapply Hin.
  - injection Hj as ->. destruct (Hd x Hx'). by eapply Hin.
Qed.

Lemma ledger_history_unique s bs sh e e' : good_chain s bs -> e ∈ ledger_history s bs sh ->
  e' ∈ ledger_history s bs sh -> hi_tx_hash e = hi_tx_hash e' -> e = e'.
Proof.
  intros G (i & b & n & tx & Hb & Htx & _ & ->)%ledger_history_elem
    (i' & b' & n' & tx' & Hb' & Htx' & _ & ->)%ledger_history_elem E.
  cbn [hi_tx_hash] in E. apply TxidToHex_inj in E; [|apply length_TxHash..]. f_equal; [by rewrite E|].
  assert (i = i') as ->; [|done].
  apply (bind_NoDup_unique _ _ _ _ _ _ (TxHash tx) (gc_txids _ _ G) Hb Hb').
  - apply list_elem_of_fmap_2. by eapply list_elem_of_lookup_2.
  - rewrite E. apply list_elem_of_fmap_2. by eapply list_elem_of_lookup_2.
Qed.

(** The answers to the queries of a scripthash, in terms of a chain and the
    overlay.  A history has each confirmed transaction of the ledger once, at its
    height, and after these, at height 0, those of the overlay that are not
    confirmed. *)
Definition is_history (ord : range_order) (mempool : MempoolOverlay) (s : Z) (bs : list MsgBlock) (sh : bytes)
    (l : list history_item) : Prop :=
  NoDup (hi_tx_hash <$> l) /\ StronglySorted history_le l /\
  forall e, e ∈ l <-> e ∈ ledger_history s bs sh \/
    (hi_height e = 0 /\ hi_tx_hash e ∈ GetScripthashTransactions ord sh mempool /\
     hi_tx_hash e ∉ hi_tx_hash <$> ledger_history s bs sh).

Definition owned (s : Z) (bs : list MsgBlock) (sh t : bytes) (v : Z) (u : UTXOValue) : Prop :=
  length t = 32%nat /\ in_u32 v /\ ledger_utxos s bs t v = Some (sh, u).

(** The unspent outputs are those of the ledger that no transaction of the
    overlay spends, and those of the overlay. *)
Definition is_unspent (ord : range_order) (mempool : MempoolOverlay) (s : Z) (bs : list MsgBlock) (sh : bytes)
    (l : list unspent_item) : Prop :=
  forall x, x ∈ l <->
    (exists t v u, owned s bs sh t v u /\ IsOutputSpent t v mempool = false /\
       x = mkUnspentItem (TxidToHex t) v (uv_Height u) (uv_Value u)) \/
    (exists o, o ∈ GetUnspentOutputs ord sh mempool /\
       x = mkUnspentItem (TxidToHex (mo_Txid o)) (mo_Vout o) 0 (mo_Value o)).

(** The balance sums them; what the overlay spends of the ledger's counts against
    the unconfirmed part. *)
Definition is_balance (ord : range_order) (mempool : MempoolOverlay) (s : Z) (bs : list MsgBlock) (sh : bytes)
    (b : balance) : Prop :=
  exists l, NoDup l /\ (forall t v u, (t, v, u) ∈ l <-> owned s bs sh t v u) /\
    b = mkBalance (i64 (sum_values (filter (fun x => spent_in mempool x = false) l)))
          (i64 (GetBalance ord sh mempool - sum_values (filter (fun x => spent_in mempool x = true) l))).

Definition history_answered (sorter : slice_sort) (ord : range_order) (mempool : MempoolOverlay) (d : pdb)
    (s : Z) (bs : list MsgBlock) (sh : bytes) : Prop :=
  exists l, reads (GetScripthashHistory sorter ord mempool sh) d l /\ is_history ord mempool s bs sh l.

Definition unspent_answered (ord : range_order) (mempool : MempoolOverlay) (d : pdb)
    (s : Z) (bs : list MsgBlock) (sh : bytes) : Prop :=
  exists l, reads (GetScripthashUnspent ord mempool sh) d l /\ is_unspent ord mempool s bs sh l.

Definition balance_answered (ord : range_order) (mempool : MempoolOverlay) (d : pdb)
    (s : Z) (bs : list MsgBlock) (sh : bytes) : Prop :=
  exists b, reads (GetScripthashBalance ord mempool sh) d b /\ is_balance ord mempool s bs sh b.

Definition ledger_answered (sorter : slice_sort) (ord : range_order) (mempool : MempoolOverlay) (d : pdb)
    (s : Z) (bs : list MsgBlock) : Prop :=
  forall sh, length sh = 32%nat -> history_answered sorter ord mempool d s bs sh /\
    unspent_answered ord mempool d s bs sh /\ balance_answered ord mempool d s bs sh.

Lemma mirrors_history sorter ord mempool d s bs sh : healthy d -> mirrors (contents d) s bs -> good_chain s bs ->
  length sh = 32%nat -> history_answered sorter ord mempool d s bs sh.
Proof.
  intros Hd M G Hsh. destruct (history_answer sorter ord mempool sh d Hd Hsh) as (l & H1 & H2 & H3 & H4 & H5).
  exists l. split; [done|]. split; [done|]. split; [done|]. intros e. split.
  - intros He. destruct (H4 e He) as [Hc|(E0 & Ht & Hn)].
    + left. by apply (confirmed_is_ledger _ _ _ _ _ M G Hsh).
    + right. split_and!; [done..|]. intros (e' & E & He')%list_elem_of_fmap.
      apply (Hn (hi_height e')). rewrite E. apply (confirmed_is_ledger _ _ _ _ _ M G Hsh). by destruct e'.
  - intros He.
    assert (Hin : hi_tx_hash e ∈ hi_tx_hash <$> l).
    { apply H5. destruct He as [He|(_ & ? & _)]; [left|by right]. exists (hi_height e).
      apply (confirmed_is_ledger _ _ _ _ _ M G Hsh). by destruct e. }
    apply list_elem_of_fmap in Hin as (e' & E & He'). assert (e = e') as ->; [|done].
    destruct (H4 e' He') as [Hc|(E0 & Ht & Hn)].
    + apply (confirmed_is_ledger _ _ _ _ _ M G Hsh) in Hc.
      destruct He as [He|(_ & _ & Hn)]; [by eapply ledger_history_unique|].
      destruct Hn. rewrite E. by apply list_elem_of_fmap_2.
    + destruct He as [He|(E1 & _)]; [|destruct e, e'; simpl in *; by subst].
      exfalso. apply (Hn (hi_height e)). rewrite <- E. apply (confirmed_is_ledger _ _ _ _ _ M G Hsh). by destruct e.
Qed.

Lemma mirrors_unspent ord mempool d s bs sh : healthy d -> mirrors (contents d) s bs ->
  length sh = 32%nat -> unspent_answered ord mempool d s bs sh.
Proof.
  intros Hd M Hsh. destruct (unspent_answer ord mempool sh d Hd Hsh) as (l & H1 & H2).
  exists l. split; [done|]. intros x. rewrite H2. unfold owned.
  by setoid_rewrite (stored_is_ledger _ _ _ _ _ _ _ M Hsh).
Qed.

Lemma mirrors_balance ord mempool d s bs sh : healthy d -> mirrors (contents d) s bs ->
  length sh = 32%nat -> balance_answered ord mempool d s bs sh.
Proof.
  intros Hd M Hsh. destruct (balance_answer ord mempool sh d Hd Hsh) as (l & H1 & H2 & H3).
  eexists. split; [exact H3|]. exists l. split_and!; [done| |done]. intros t v u. rewrite H2. by apply stored_is_ledger.
Qed.

Lemma mirrors_answered sorter ord mempool d s bs : healthy d -> mirrors (contents d) s bs -> good_chain s bs ->
  ledger_answered sorter ord mempool d s bs.
Proof.
  intros Hd M G sh Hsh. split_and!; [by apply mirrors_history|by apply mirrors_unspent|by apply mirrors_balance].
Qed.

End Mirrored.
