(* ===== verification/InStep.v ===== *)
(** * In step with an unreliable node

    A node that answers truthfully when it answers, and may fail any call, and
    whose chain may grow between two of them.  [in_step]: the database mirrors the
    ledger of the blocks of the node's chain up to the tip, and the tip in memory
    and in the checkpoint is that block.  Whatever the chain manager is asked to
    do, and wherever it fails, it goes from one such state to another, and the
    tip never goes back. *)

From Stdlib Require Import Strings.Byte.
From S2P Require Import Prelude Bytes Hex Keys Values Json Checkpoint Pebble Store Sha256 Types Mempool MempoolFacts MempoolProps Block BlockFacts BlockOps BlockProps Reorg ReorgFacts ReorgProps ChainFacts ReorgChain Typed Total Steps Chain Follow FollowProps Gaps GapProps Query QueryFacts QueryProps Ledger Synced Served.

Section InStep.
Context {P : Pebble} {PL : PebbleLaws P} {PH : PebbleHealthy P PL} {B : Btcd} {BL : BtcdLaws B}.
Context {Zs : Zstd} {ZL : ZstdLaws Zs}.

(** Of the confirmed data, undo records at most are gone. *)
Definition undo_gone (c c' : gmap bytes bytes) : Prop := forall k, confirmed_key k ->
  c' !! k = c !! k \/ (head k = Some PrefixUndo /\ c' !! k = None).

#[export] Instance undo_gone_preorder : PreOrder undo_gone.
Proof.
  split; [by left|]. intros a b c H1 H2 k Hk. destruct (H2 k Hk) as [-> |?]; [by apply H1|by right].
Qed.

Lemma undo_gone_shrinks c c' : undo_gone c c' -> shrinks c c'.
Proof. intros H k Hk. by apply H, restorable_confirmed. Qed.

Lemma undo_gone_checkpoint c c' : undo_gone c c' -> c' !! KeyCheckpoint = c !! KeyCheckpoint.
Proof. intros H. by destruct (H KeyCheckpoint) as [?|[? _]]. Qed.

Section Chain.
Context (nb : Z -> MsgBlock) (s : Z).

Record in_step (t : Z) (w : cworld) : Prop := {
  is_mirrors : mirrors (contents (w_db (cm_world w))) s (blocks_to nb s t);
  is_working : working w;
  is_tip : tip_on nb t w;
  is_start : startHeight w = s;
  is_saved : exists cp, json_wf cp /\ contents (w_db (cm_world w)) !! KeyCheckpoint = Some (json_Marshal cp) /\
    cp_Height cp = t /\ cp_BlockHash cp = hash_String (block_hash (nb t)) /\ cp_StartHeight cp = s;
}.

Lemma in_step_frame t w w' : same_tip w w' -> undo_gone (contents (w_db (cm_world w))) (contents (w_db (cm_world w'))) ->
  working w' -> in_step t w -> in_step t w'.
Proof.
  intros (T1 & T2 & T3 & _) Hc Hw [M _ [S1 S2] S3 (cp & C1 & C2 & C3)]. split; [|done| |by rewrite T3|].
  - eapply mirrors_shrinks; [|exact M]. by apply undo_gone_shrinks.
  - split; [by rewrite T1|by rewrite T2].
  - exists cp. by rewrite (undo_gone_checkpoint _ _ Hc).
Qed.

Lemma in_step_quiet t w w' : quiet w w' -> in_step t w -> in_step t w'.
Proof. intros (T & Hw & Hc). apply in_step_frame; [done|by rewrite Hc|done]. Qed.

Lemma in_step_called t w : in_step t w -> in_step t (called w).
Proof. intros S. eapply in_step_quiet; [by apply quiet_called, S|done]. Qed.

Lemma in_step_stored t w : in_step t w -> stored_start (contents (w_db (cm_world w))) = s.
Proof.
  intros [_ _ _ _ (cp & C1 & C2 & _ & _ & C5)]. unfold stored_start. rewrite C2, json_Unmarshal_Marshal by done. done.
Qed.

(** Every block that is indexed has its header. *)
Lemma in_step_header t w h : 0 <= s -> in_step t w -> s <= h <= t -> has_header (cm_world w) h.
Proof.
  intros H0 S Hh. destruct (mi_header _ _ _ (is_mirrors _ _ S) (Z.to_nat (h - s)) (nb h)) as (v & E & _).
  { unfold blocks_to. rewrite list_lookup_fmap, lookup_seqZ_lt by lia. simpl. do 2 f_equal. lia. }
  replace (s + Z.of_nat (Z.to_nat (h - s))) with h in E by lia. by eexists.
Qed.

(** The next block. *)
Lemma in_step_index ord t w : s <= t + 1 -> 0 <= t -> good_chain s (blocks_to nb s (t + 1)) -> in_step t w ->
  exists w1, index ord (nb (t + 1)) (t + 1) w = (Ok (), w1) /\
    in_step (t + 1) (with_tip w1 (t + 1) (block_hash (nb (t + 1)))).
Proof.
  intros Hst H0 G S. pose proof (is_working _ _ S) as Hw.
  assert (Hin : nb (t + 1) ∈ blocks_to nb s (t + 1))
    by (rewrite blocks_to_snoc by lia; apply elem_of_app; right; by apply list_elem_of_singleton).
  pose proof (gc_end _ _ G) as Hend. rewrite length_blocks_to in Hend by lia. pose proof (gc_start _ _ G) as Hs0.
  destruct (index_next ord nb s t (cm_world w) Hst) as (w1 & E & [Hd Ht] & Es & HM); [by split; apply Hw|done|].
  destruct (index_step ord (nb (t + 1)) (t + 1) w Hw) as (w1' & E' & Ei & Hw1 & _ & cp & C1 & C2 & C3 & C4);
    [lia|unfold in_i32; lia|by apply (gc_valid _ _ G)|by apply (gc_io _ _ G)|].
  rewrite E in E'. injection E' as <-. eexists. split; [exact Ei|]. split.
  - apply HM, S.
  - done.
  - done.
  - apply S.
  - exists cp. split_and!; [done..|]. rewrite (in_step_stored _ _ S) in Es. rewrite <- Es. unfold stored_start.
    by rewrite C2, json_Unmarshal_Marshal.
Qed.

End Chain.

(** ** The node *)

(** [honest N nb top]: what the node answers is the truth about the chain
    [nb 0 .. nb top]; it may not know all of it yet, and any call may fail. *)
Record honest (N : node) (nb : Z -> MsgBlock) (top : Z) : Prop := {
  ho_top : 0 <= top <= 2 ^ 30;
  ho_hash n h x : 0 <= h <= top -> node_hash N n h = Ok x -> x = block_hash (nb h);
  ho_block n h b : 0 <= h <= top -> node_block N n (block_hash (nb h)) = Ok b -> b = nb h;
  ho_height n h x : 0 <= h <= top -> node_height N n (block_hash (nb h)) = Ok x -> x = h;
  ho_count n x : node_count N n = Ok x -> 0 <= x <= top;
  ho_prev h : 0 <= h < top -> header_PrevBlock (block_Header (nb (h + 1))) = block_hash (nb h);
  ho_inj h h' : 0 <= h <= top -> 0 <= h' <= top -> block_hash (nb h) = block_hash (nb h') -> h = h';
}.

Lemma serves_honest N nb top : serves N nb top -> top <= 2 ^ 30 -> honest N nb top.
Proof.
  intros HS Ht. split.
  - pose proof (sv_top _ _ _ HS). lia.
  - intros n h x Hh. rewrite (sv_hash _ _ _ HS) by done. by intros [= <-].
  - intros n h x Hh. rewrite (sv_block _ _ _ HS) by done. by intros [= <-].
  - intros n h x Hh. rewrite (sv_height _ _ _ HS) by done. by intros [= <-].
  - intros n x. rewrite (sv_count _ _ _ HS). intros [= <-]. pose proof (sv_top _ _ _ HS). lia.
  - apply HS.
  - apply HS.
Qed.

Section Node.
Context (N : node) (ord : range_order) (maxReorgDepth : Z) (nb : Z -> MsgBlock) (top s : Z).
Context (HN : honest N nb top) (Hs : 1 <= s <= top + 1) (G : good_chain s (blocks_to nb s top)).

Notation in_step := (in_step nb s).

(** The tip may go forward, and stays in step. *)
Definition forward (w w' : cworld) : Prop := forall t, s - 1 <= t <= top -> in_step t w ->
  exists t', t <= t' <= top /\ in_step t' w'.

#[export] Instance forward_preorder : PreOrder forward.
Proof.
  split; [intros w t Ht S; exists t; by split; [lia|]|]. intros a b c H1 H2 t Ht S.
  destruct (H1 t Ht S) as (t1 & Ht1 & S1). destruct (H2 t1) as (t2 & Ht2 & S2); [lia|done|].
  exists t2. by split; [lia|].
Qed.

Lemma forward_frame w w' : same_tip w w' -> undo_gone (contents (w_db (cm_world w))) (contents (w_db (cm_world w'))) ->
  (working w -> working w') -> forward w w'.
Proof.
  intros H1 H2 H3 t Ht S. exists t. split; [lia|]. eapply in_step_frame; [done..| |done]. by apply H3, S.
Qed.

Lemma good_to t : s - 1 <= t <= top -> good_chain s (blocks_to nb s t).
Proof.
  intros Ht. apply (good_blocks_prefix nb s t (Z.to_nat (top - t))); [lia|].
  by replace (t + Z.of_nat (Z.to_nat (top - t))) with top by lia.
Qed.

(** *** Catching up *)

(** A step of a computation: what it leaves when it fails, and what comes next
    when it returns. *)
Lemma st_after {W A C} (Q : W -> Prop) (m : st W A) (f : A -> st W C) w :
  (forall e w1, m w = (Err e, w1) -> Q w1) -> (forall a w1, m w = (Ok a, w1) -> Q (f a w1).2) ->
  Q ((m ≫= f) w).2.
Proof. unfold mbind, st_bind. destruct (m w) as [[a|e] w1]; eauto. Qed.

Lemma st_wrap_after {W A} pre (m : st W A) w r w1 : st_wrap pre m w = (r, w1) ->
  exists r', m w = (r', w1) /\ forall a, r = Ok a -> r' = Ok a.
Proof. unfold st_wrap. destruct (m w) as [[a|e] w']; intros [= <- <-]; by eexists. Qed.

(** The node is asked, and fails or tells the truth. *)
Lemma ask_hash {C} (Q : cworld -> Prop) pre h (f : bytes -> st cworld C) w : 0 <= h <= top ->
  Q (called w) -> Q (f (block_hash (nb h)) (called w)).2 -> Q ((st_wrap pre (core_hash N h) ≫= f) w).2.
Proof.
  intros Hh He Ho. apply st_after.
  - intros e w1 (r & E & _)%st_wrap_after. rewrite core_hash_run in E. by injection E as _ <-.
  - intros x w1 E%st_wrap_Ok. rewrite core_hash_run in E. injection E as E <-.
    by apply (ho_hash _ _ _ HN) in E as ->.
Qed.

Lemma ask_block {C} (Q : cworld -> Prop) pre h (f : MsgBlock -> st cworld C) w : 0 <= h <= top ->
  Q (called w) -> Q (f (nb h) (called w)).2 -> Q ((st_wrap pre (GetBlock N (block_hash (nb h))) ≫= f) w).2.
Proof.
  intros Hh He Ho. apply st_after.
  - intros e w1 (r & E & _)%st_wrap_after. rewrite GetBlock_run in E. by injection E as _ <-.
  - intros x w1 E%st_wrap_Ok. rewrite GetBlock_run in E. injection E as E <-.
    by apply (ho_block _ _ _ HN) in E as ->.
Qed.

(** The tip is one of the node's blocks, so its hash tells its height. *)
Lemma next_connects t w h : 0 <= t <= top -> 1 <= h <= top -> in_step t w ->
  hash_IsEqual (header_PrevBlock (block_Header (nb h))) (currentHash w) = bool_decide (h = t + 1).
Proof.
  intros Ht Hh S. rewrite (proj2 (is_tip _ _ _ _ S)). replace h with (h - 1 + 1) at 1 by lia.
  rewrite (ho_prev _ _ _ HN) by lia. destruct (hash_IsEqual _ _) eqn:E.
  - apply hash_IsEqual_eq, (ho_inj _ _ _ HN) in E; [|lia..]. by rewrite bool_decide_eq_true_2 by lia.
  - rewrite bool_decide_eq_false_2; [done|]. intros ->. replace (t + 1 - 1) with t in E by lia.
    by rewrite (proj2 (hash_IsEqual_eq _ _)) in E.
Qed.

Lemma forward_loop again n target t w : s - 1 <= t <= top -> target <= top -> in_step t w ->
  exists t', t <= t' <= top /\ in_step t' (catch_up_loop N ord maxReorgDepth again n (t + 1) target w).2.
Proof.
  pose proof (ho_top _ _ _ HN) as Htop.
  revert t w; induction n as [|n IH]; intros t w Ht Htarget S; cbn [catch_up_loop];
    (destruct (Z.ltb_spec target (t + 1)); [exists t; by split; [lia|]|]).
  { exists t. by split; [lia|]. }
  assert (Hstay : forall w', in_step t w' -> exists t', t <= t' <= top /\ in_step t' w')
    by (intros w' Hw'; exists t; by split; [lia|]).
  apply (ask_hash (fun w' => exists t', t <= t' <= top /\ in_step t' w')); [lia|by apply Hstay, in_step_called|].
  apply (ask_block (fun w' => exists t', t <= t' <= top /\ in_step t' w')); [lia|by apply Hstay, in_step_called, in_step_called|].
  assert (S2 : in_step t (called (called w))) by by apply in_step_called, in_step_called.
  set (w2 := called (called w)) in *.
  rewrite (st_bind_run (st_gets currentHash) _ w2 (currentHash w2) w2) by done.
  rewrite (next_connects t w2 (t + 1)), bool_decide_eq_true_2 by (done || lia). cbn [negb].
  destruct (in_step_index nb s ord t w2) as (w3 & E & S3); [lia|lia|apply good_to; lia|done|].
  rewrite (st_bind_run _ _ _ _ _ (proj2 (st_wrap_Ok _ _ _ _ _) E)).
  rewrite (st_bind_run (set_tip _ _) _ w3 () (with_tip w3 (t + 1) (block_hash (nb (t + 1))))) by done.
  rewrite i32_id by (unfold in_i32; lia).
  destruct (IH (t + 1) _ ltac:(lia) Htarget S3) as (t' & Ht' & S'). exists t'. by split; [lia|].
Qed.

Lemma forward_CatchUpTo fuel target : target <= top -> st_rel forward (CatchUpTo N ord maxReorgDepth fuel target).
Proof.
  intros Htarget w t Ht S. pose proof (ho_top _ _ _ HN). destruct fuel as [|fuel]; cbn [CatchUpTo]; [exists t; by split; [lia|]|].
  rewrite (st_bind_run (st_gets currentHeight) _ w (currentHeight w) w) by done.
  rewrite (proj1 (is_tip _ _ _ _ S)). destruct (Z.leb_spec target t); [exists t; by split; [lia|]|].
  rewrite i32_id by (unfold in_i32; lia). by apply forward_loop.
Qed.

(** *** A block *)

(** The check for a reorganisation only reads when the node does not know better. *)
Lemma CheckAndHandle_unanswered cp bh rw e : healthy (w_db (rw_world rw)) -> json_wf cp -> length bh = 32%nat ->
  contents (w_db (rw_world rw)) !! KeyCheckpoint = Some (json_Marshal cp) -> cp_BlockHash cp = hash_String bh ->
  node_hash N (rw_calls rw) (cp_Height cp) = Err e ->
  exists e' rw', CheckAndHandle (node_hash N) maxReorgDepth rw = (Err e', rw') /\ only_reads rw rw'.
Proof.
  intros Hd Hcp Hbh Hk Hhash Hclient.
  destruct (LoadCheckpoint_present (w_db (rw_world rw)) cp Hd Hcp Hk) as (d & E & Hd' & Hc').
  set (rw1 := mkRWorld (mkWorld d (w_mp (rw_world rw))) (rw_calls rw)).
  assert (E1 : rdb checkpoint_or_fail rw = (Ok cp, rw1)).
  { apply rdb_run. unfold checkpoint_or_fail. by rewrite (st_bind_run _ _ _ _ _ E). }
  unfold CheckAndHandle. rewrite (st_bind_run _ _ _ _ _ E1), decide_False.
  2:{ intros [_ E0]. rewrite Hhash, hash_String_Txid in E0 by done. apply (f_equal slen) in E0.
      by rewrite slen_TxidToHex in E0. }
  assert (Eh : BlockHashFromHex (cp_BlockHash cp) = Ok bh).
  { rewrite Hhash, hash_String_Txid by done. by apply TxidFromHex_ToHex. }
  rewrite Eh, (st_bind_run (st_lift _) _ rw1 bh rw1) by done.
  unfold mbind, st_bind, st_wrap, GetBlockHash. cbn [rw_calls rw1]. rewrite Hclient.
  by do 2 eexists.
Qed.

Lemma only_reads_quiet w rw : working w -> only_reads (cm_rw w) rw -> quiet w (with_rw w rw).
Proof.
  intros [H1 H2] (O1 & O2 & O3). split_and!; [by split_and!| |done]. split; [done|].
  cbn. change (typed_db (contents (w_db (rw_world rw)))). by rewrite O2.
Qed.

(** It finds none. *)
Lemma reorg_retry_same t w : 0 <= t <= top -> in_step t w -> in_step t (reorg_retry N maxReorgDepth w).2.
Proof.
  intros Ht S. unfold reorg_retry. destruct (is_saved _ _ _ _ S) as (cp & C1 & C2 & C3 & C4 & C5).
  pose proof (length_BlockHash (block_Header (nb t))) as Hl. pose proof (is_working _ _ _ _ S) as Hw.
  destruct (node_hash N (rw_calls (cm_rw w)) t) as [x|e] eqn:Eh.
  - apply (ho_hash _ _ _ HN) in Eh as E; [|lia]. subst x.
    destruct (agreeing_tip_untouched (node_hash N) maxReorgDepth cp (block_hash (nb t)) (cm_rw w)) as [_ Hag];
      [apply S|done|done|].
    destruct Hag as (rw1 & E1 & O & _); [done|done|by rewrite C3|].
    rewrite (st_bind_run _ _ _ _ _ (handle_reorg_run _ _ _ _ _ _ E1)). cbn [rr_CurrentHeight rr_CurrentHash].
    rewrite decide_True by done. destruct (only_reads_quiet w rw1 Hw O) as (_ & Hw' & Hc').
    eapply in_step_quiet; [|exact S]. destruct (is_tip _ _ _ _ S) as [T1 T2]. rewrite C3.
    split_and!; [by split_and!|by apply (working_same (with_rw w rw1))|done].
  - destruct (CheckAndHandle_unanswered cp (block_hash (nb t)) (cm_rw w) e) as (e' & rw1 & E1 & O);
      [apply S|done..|by rewrite C3|].
    unfold handle_reorg, mbind, st_bind, st_wrap, on_rw. rewrite E1. cbn [snd].
    eapply in_step_quiet; [|exact S]. by apply only_reads_quiet.
Qed.

Lemma forward_ProcessBlock fuel h : 1 <= h <= top -> st_rel forward (ProcessBlock N ord maxReorgDepth fuel (nb h)).
Proof.
  intros Hh w t Ht S. revert t w Ht S; induction fuel as [|fuel IH]; intros t w Ht S; cbn [ProcessBlock];
    [exists t; by split; [lia|]|].
  pose proof (ho_top _ _ _ HN). rewrite (st_bind_run (st_gets id) _ w w w) by done. unfold id.
  rewrite (next_connects t) by (done || lia). case_bool_decide as Eh.
  - subst h. rewrite (proj1 (is_tip _ _ _ _ S)), i32_id by (unfold in_i32; lia).
    destruct (in_step_index nb s ord t w) as (w3 & E & S3); [lia|lia|apply good_to; lia|done|].
    rewrite (st_bind_run _ _ _ _ _ (proj2 (st_wrap_Ok _ _ _ _ _) E)). exists (t + 1). by split; [lia|].
  - change (header_BlockHash (block_Header (nb h))) with (block_hash (nb h)).
    apply (st_after (fun w' => exists t', t <= t' <= top /\ in_step t' w')).
    { intros e w1 (r & E & _)%st_wrap_after. rewrite GetBlockHeaderVerbose_run in E. injection E as _ <-.
      exists t. split; [lia|]. by apply in_step_called. }
    intros x w1 E%st_wrap_Ok. rewrite GetBlockHeaderVerbose_run in E. injection E as E <-.
    apply (ho_height _ _ _ HN) in E as ->; [|lia]. change (currentHeight (called w)) with (currentHeight w).
    rewrite (proj1 (is_tip _ _ _ _ S)). apply in_step_called in S.
    destruct (Z.leb_spec h t).
    { exists t. split; [lia|]. apply reorg_retry_same; [lia|done]. }
    rewrite !i32_id by (unfold in_i32; lia). destruct (Z.ltb_spec (t + 1) h); [|lia].
    apply (st_after (fun w' => exists t', t <= t' <= top /\ in_step t' w')).
    + intros e w1 (r & E & _)%st_wrap_after.
      pose proof (forward_CatchUpTo fuel (h - 1) ltac:(lia) (called w) t Ht S) as Hf. by rewrite E in Hf.
    + intros u w1 E%st_wrap_Ok.
      destruct (forward_CatchUpTo fuel (h - 1) ltac:(lia) (called w) t Ht S) as (t1 & Ht1 & S1).
      rewrite E in S1. destruct (IH t1 w1 ltac:(lia) S1) as (t2 & Ht2 & S2). exists t2. by split; [lia|].
Qed.

(** *** The check for gaps *)

(** There is none. *)
Lemma no_header_missing t w h : s <= h <= t -> in_step t w ->
  exists w', header_missing h w = (Ok false, w') /\ quiet w w'.
Proof.
  intros Hh S. destruct (header_missing_run h w (is_working _ _ _ _ S)) as (b & w' & E & Q & Hb); [lia|].
  exists w'. split; [|done]. destruct b; [|done]. destruct Hb. eapply in_step_header; [|done|done]. lia.
Qed.

Lemma sample_loop_forward n h step t w : s <= h -> 1 <= step <= 2 ^ 26 -> h <= 2 ^ 30 + step -> t <= top -> in_step t w ->
  exists r w', sample_loop N ord n h step (-1) w = (r, w') /\ quiet w w' /\ forall g, r = Ok g -> g = -1.
Proof.
  intros Hh Hstep Hle Ht. pose proof (ho_top _ _ _ HN).
  revert h w Hh Hle; induction n as [|n IH]; intros h w Hh Hle S; cbn [sample_loop];
    rewrite (st_bind_run (st_gets currentHeight) _ w (currentHeight w) w) by done;
    rewrite (proj1 (is_tip _ _ _ _ S)); (destruct (Z.ltb_spec t h);
      [exists (Ok (-1)), w; split_and!; [done|apply quiet_refl, S|by intros g [= <-]]|]).
  { do 2 eexists. split_and!; [done|apply quiet_refl, S|done]. }
  destruct (no_header_missing t w h) as (w1 & E & Q); [lia|done|]. rewrite (st_bind_run _ _ _ _ _ E).
  rewrite Z.eqb_refl, i32_id by (unfold in_i32; lia).
  destruct (IH (h + step) w1) as (r & w2 & E2 & Q2 & Hr); [lia|lia|by eapply in_step_quiet|].
  exists r, w2. split_and!; [exact E2|by eapply quiet_trans|done].
Qed.

Lemma small_gaps_forward n h t w : s <= h -> h <= 2 ^ 30 + 1 -> t <= top -> in_step t w ->
  quiet w (small_gaps_loop N ord n h w).2.
Proof.
  intros Hh Hle Ht. pose proof (ho_top _ _ _ HN).
  revert h w Hh Hle; induction n as [|n IH]; intros h w Hh Hle S; cbn [small_gaps_loop];
    rewrite (st_bind_run (st_gets currentHeight) _ w (currentHeight w) w) by done;
    rewrite (proj1 (is_tip _ _ _ _ S)); (destruct (Z.ltb_spec t h); [apply quiet_refl, S|]).
  { apply quiet_refl, S. }
  destruct (no_header_missing t w h) as (w1 & E & Q); [lia|done|]. rewrite (st_bind_run _ _ _ _ _ E).
  rewrite i32_id by (unfold in_i32; lia). eapply quiet_trans; [exact Q|].
  apply IH; [lia|lia|by eapply in_step_quiet].
Qed.

Lemma repair_headers_forward t w : 0 <= t <= top -> s - 1 <= t -> in_step t w -> quiet w (repair_headers N ord s w).2.
Proof.
  intros Ht Hst S. pose proof (ho_top _ _ _ HN). unfold repair_headers.
  rewrite (st_bind_run (st_gets currentHeight) _ w (currentHeight w) w) by done. rewrite (proj1 (is_tip _ _ _ _ S)).
  rewrite (i32_id (t - s)), i32_id by (unfold in_i32; lia).
  pose proof (sample_step_range (t - s + 1) ltac:(lia)) as Hstep.
  destruct (sample_loop_forward (Z.to_nat (t - s + 1)) s (sample_step (t - s + 1)) t w)
    as (r & w1 & E & Q & Hr); [lia|lia|lia|lia|done|].
  destruct r as [g|e].
  - rewrite (st_bind_run _ _ _ _ _ E), (Hr g eq_refl), Z.eqb_refl.
    rewrite (st_bind_run (mret ()) _ w1 () w1) by done. destruct (1 <? _); [|done].
    eapply quiet_trans; [exact Q|]. eapply (small_gaps_forward _ _ t); [lia|lia|lia|]. by eapply in_step_quiet.
  - unfold mbind, st_bind. by rewrite E.
Qed.

Lemma VerifyAndRepairGaps_forward t w : s - 1 <= t <= top -> in_step t w -> quiet w (VerifyAndRepairGaps N ord w).2.
Proof.
  intros Ht S. pose proof (is_working _ _ _ _ S) as Hw. unfold VerifyAndRepairGaps.
  rewrite (st_bind_run (st_gets id) _ w w w) by done. unfold id. destruct (Z.leb_spec (currentHeight w) 0); [by apply quiet_refl|].
  rewrite (st_bind_run effective_start _ w s w).
  2:{ unfold effective_start. rewrite (st_bind_run (st_gets startHeight) _ w (startHeight w) w) by done.
      rewrite (is_start _ _ _ _ S). by destruct (Z.leb_spec s 0); [lia|]. }
  rewrite (proj1 (is_tip _ _ _ _ S)) in *. apply (ask_hash (quiet w)); [lia|by apply quiet_called|].
  rewrite (proj2 (hash_IsEqual_eq _ _)) by (symmetry; apply S). cbn [negb].
  eapply quiet_trans; [by apply quiet_called|]. apply (repair_headers_forward t); [lia|lia|]. by apply in_step_called.
Qed.

Lemma forward_CatchUpToTip fuel : st_rel forward (CatchUpToTip N ord maxReorgDepth fuel).
Proof.
  intros w t Ht S. pose proof (ho_top _ _ _ HN). unfold CatchUpToTip.
  rewrite (st_bind_run (st_gets id) _ w w w) by done. unfold id. destruct (_ && _); [exists t; by split; [lia|]|].
  assert (Q : forall r w', VerifyAndRepairGaps N ord w = (r, w') -> in_step t w').
  { intros r w' E. eapply in_step_quiet; [|exact S]. pose proof (VerifyAndRepairGaps_forward t w Ht S) as Q. by rewrite E in Q. }
  apply (st_after (fun w' => exists t', t <= t' <= top /\ in_step t' w')).
  { intros e w1 (r & E & _)%st_wrap_after. exists t. split; [lia|]. by eapply Q. }
  intros u w1 E%st_wrap_Ok. apply Q in E as S1.
  apply (st_after (fun w' => exists t', t <= t' <= top /\ in_step t' w')).
  { intros e w2 (r & E2 & _)%st_wrap_after. exists t. split; [lia|]. injection E2 as _ <-. by apply in_step_called. }
  intros x w2 E2%st_wrap_Ok. injection E2 as E2 <-. apply (ho_count _ _ _ HN) in E2.
  change (mkCWorld _ _ _ _ _) with (called w1).
  rewrite (st_bind_run (st_gets currentHeight) _ (called w1) (currentHeight w1) (called w1)) by done.
  rewrite i32_id by (unfold in_i32; lia). apply in_step_called in S1.
  destruct (x <=? currentHeight w1); [exists t; by split; [lia|]|].
  apply (forward_CatchUpTo fuel x); [lia|lia|done].
Qed.

End Node.
End InStep.
