(* ===== verification/OneByOne.v ===== *)
(** * The ledger, one transaction after the other

    The ledger as the protocol defines it: each transaction removes what it
    spends and adds what it creates, and the next one sees the result.  The index
    works on whole blocks; on chains in which no block spends an output of its own
    or the same output twice, the two agree. *)

From Stdlib Require Import Strings.Byte.
From S2P Require Import Prelude Bytes Hex Keys Values Json Checkpoint Pebble Store Sha256 Types Mempool MempoolFacts MempoolProps Block BlockFacts BlockOps BlockProps Reorg ReorgFacts ReorgProps ChainFacts ReorgChain Typed Total Steps Chain Follow Query QueryFacts Ledger.

Section OneByOne.
Context {B : Btcd}.

(** What the [n]-th transaction of a block spends: the first one nothing. *)
Definition tx_inputs (itx : nat * MsgTx) : list OutPoint :=
  if (itx.1 =? 0)%nat then [] else filter (fun i => IsCoinbaseInput i = false) (tx_TxIn itx.2).

(** The output it creates at an outpoint. *)
Definition tx_created_at (block : MsgBlock) (h : Z) (tx : MsgTx) (t : bytes) (v : Z) :
    option (bytes * UTXOValue) :=
  if decide (TxHash tx = t) then
    o ← tx_TxOut tx !! Z.to_nat v;
    if indexable o
    then Some (ComputeScripthash (to_PkScript o),
               mkUTXOValue (to_Value o) h (header_BlockHash (block_Header block)))
    else None
  else None.

Definition tx_apply (block : MsgBlock) (h : Z) (U : utxo_set) (itx : nat * MsgTx) : utxo_set := fun t v =>
  match tx_created_at block h itx.2 t v with
  | Some o => Some o
  | None => if decide (mkOutPoint t v ∈ tx_inputs itx) then None else U t v
  end.

(** The unspent outputs after some transactions of the block. *)
Definition txs_apply (block : MsgBlock) (h : Z) (U : utxo_set) (l : list (nat * MsgTx)) : utxo_set :=
  foldl (tx_apply block h) U l.

Fixpoint txs_history (block : MsgBlock) (h : Z) (U : utxo_set) (l : list (nat * MsgTx)) (sh : bytes) :
    list history_item :=
  match l with
  | [] => []
  | itx :: l =>
      (if decide (sh ∈ touches U itx) then [mkHistoryItem (TxidToHex (TxHash itx.2)) h] else []) ++
      txs_history block h (tx_apply block h U itx) l sh
  end.

Fixpoint seq_utxos (U : utxo_set) (h : Z) (bs : list MsgBlock) : utxo_set :=
  match bs with
  | [] => U
  | b :: bs => seq_utxos (txs_apply b h U (indexed (block_Transactions b))) (h + 1) bs
  end.

Fixpoint seq_history (U : utxo_set) (h : Z) (bs : list MsgBlock) (sh : bytes) : list history_item :=
  match bs with
  | [] => []
  | b :: bs => txs_history b h U (indexed (block_Transactions b)) sh ++
      seq_history (txs_apply b h U (indexed (block_Transactions b))) (h + 1) bs sh
  end.

(** No transaction spends an output of its own block, and none is spent twice. *)
Record plain_block (block : MsgBlock) : Prop := {
  pb_own i : i ∈ block_inputs block -> op_Hash i ∉ TxHash <$> block_Transactions block;
  pb_once : NoDup (block_inputs block);
  pb_nodup : NoDup (TxHash <$> block_Transactions block);
}.

(** ** One block *)

Lemma tx_inputs_block block : block_inputs block = indexed (block_Transactions block) ≫= tx_inputs.
Proof.
  unfold block_inputs. destruct (block_Transactions block) as [|tx txs]; [done|].
  unfold indexed. cbn [imap tail]. rewrite bind_cons. cbn [tx_inputs fst Nat.eqb app].
  change (imap (pair ∘ S) txs) with (imap (fun i x => (S i, x)) txs).
  assert (H : forall k (l : list MsgTx), filter (fun i => IsCoinbaseInput i = false) (l ≫= tx_TxIn) =
    imap (fun i x => (S (k + i), x)) l ≫= tx_inputs).
  { intros k l. revert k; induction l as [|x l IH]; intros k; [done|]. cbn [imap].
    rewrite !bind_cons, filter_app. f_equal. rewrite (IH (S k)). f_equal. apply imap_ext. intros i y _.
    unfold compose. f_equal. lia. }
  apply (H 0%nat).
Qed.

Context (block : MsgBlock) (h : Z) (HP : plain_block block).

(** The output some transactions of the block create. *)
Definition created_in (txs : list MsgTx) (t : bytes) (v : Z) : option (bytes * UTXOValue) :=
  tx ← snd <$> list_find (fun tx => TxHash tx = t) txs; tx_created_at block h tx t v.

Lemma created_in_all t v : created_in (block_Transactions block) t v = created_at block h t v.
Proof.
  unfold created_in, created_at.
  destruct (list_find (fun tx => TxHash tx = t) (block_Transactions block)) as [[i tx]|] eqn:E; [|done].
  cbn [fmap option_fmap option_map snd mbind option_bind]. apply list_find_Some in E as (_ & E & _).
  unfold tx_created_at. by rewrite decide_True.
Qed.

Lemma created_in_snoc txs tx t v : NoDup (TxHash <$> txs ++ [tx]) ->
  created_in (txs ++ [tx]) t v =
  match tx_created_at block h tx t v with Some o => Some o | None => created_in txs t v end.
Proof.
  intros Hnd. unfold created_in. destruct (list_find (fun tx => TxHash tx = t) txs) as [[i tx']|] eqn:E.
  - rewrite (list_find_app_l _ _ _ _ _ E). cbn [fmap option_fmap option_map snd mbind option_bind].
    assert (tx_created_at block h tx t v = None) as ->; [|done].
    unfold tx_created_at. rewrite decide_False; [done|]. intros Et.
    apply list_find_Some in E as (Hi & E & _). rewrite fmap_app in Hnd. apply NoDup_app in Hnd as (_ & Hd & _).
    apply (Hd t); [|apply list_elem_of_singleton; by symmetry].
    rewrite <- E. apply list_elem_of_fmap_2. by eapply list_elem_of_lookup_2.
  - rewrite list_find_app_r by done. cbn [list_find]. unfold tx_created_at.
    case_decide; cbn [fmap option_fmap option_map prod_map snd mbind option_bind]; [|done].
    rewrite decide_True by done. unfold id. destruct (tx_TxOut tx !! Z.to_nat v) as [o|]; [|done]. cbn [mbind option_bind]. by destruct (indexable o).
Qed.

Lemma created_in_txid txs t v o : created_in txs t v = Some o -> t ∈ TxHash <$> txs.
Proof.
  unfold created_in. rewrite bind_Some. intros (tx & Hf & _). apply fmap_Some in Hf as ([i tx'] & Hf & ->).
  apply list_find_Some in Hf as (Hi & <- & _). apply list_elem_of_fmap_2. by eapply list_elem_of_lookup_2.
Qed.

Lemma prefix_txs l l' : indexed (block_Transactions block) = l ++ l' ->
  block_Transactions block = l.*2 ++ l'.*2 /\ block_inputs block = (l ≫= tx_inputs) ++ (l' ≫= tx_inputs).
Proof.
  intros E. split.
  - rewrite <- fmap_app, <- E. unfold indexed. by rewrite imap_pair_snd.
  - by rewrite tx_inputs_block, E, bind_app.
Qed.

(** An input of the block spends nothing that a part of the block creates. *)
Lemma input_not_created l l' i : indexed (block_Transactions block) = l ++ l' -> i ∈ block_inputs block ->
  created_in l.*2 (op_Hash i) (op_Index i) = None.
Proof.
  intros [Et _]%prefix_txs Hi. destruct (created_in l.*2 (op_Hash i) (op_Index i)) eqn:E; [|done].
  exfalso. apply (pb_own _ HP i Hi). apply created_in_txid in E. rewrite Et, fmap_app, elem_of_app. by left.
Qed.

(** What is unspent after a part of the block. *)
Lemma txs_apply_prefix U l l' t v : indexed (block_Transactions block) = l ++ l' ->
  txs_apply block h U l t v =
  match created_in l.*2 t v with
  | Some o => Some o
  | None => if decide (mkOutPoint t v ∈ l ≫= tx_inputs) then None else U t v
  end.
Proof.
  revert l'; induction l as [|itx l IH] using rev_ind; intros l' E.
  { rewrite decide_False; [done|]. by intros ?%elem_of_nil. }
  rewrite <- app_assoc in E. cbn [app] in E. unfold txs_apply. rewrite foldl_app. cbn [foldl].
  fold (txs_apply block h U l). unfold tx_apply. rewrite (IH _ E). destruct (prefix_txs _ _ E) as [Et Ei].
  assert (Hnd : NoDup (TxHash <$> l.*2 ++ [itx.2])).
  { pose proof (pb_nodup _ HP) as Hnd. rewrite Et, fmap_cons, cons_middle, app_assoc, fmap_app in Hnd.
    by apply NoDup_app in Hnd as [? _]. }
  rewrite fmap_app. change ([itx].*2) with [itx.2]. rewrite created_in_snoc by done.
  destruct (tx_created_at block h itx.2 t v); [done|]. rewrite bind_app, bind_cons, app_nil_r.
  destruct (decide (mkOutPoint t v ∈ tx_inputs itx)) as [Hin|Hin].
  - assert (created_in l.*2 t v = None) as ->.
    { apply (input_not_created l (itx :: l') (mkOutPoint t v) E). rewrite Ei, bind_cons, !elem_of_app. tauto. }
    by rewrite decide_True by (apply elem_of_app; by right).
  - destruct (created_in l.*2 t v); [done|].
    destruct (decide (mkOutPoint t v ∈ l ≫= tx_inputs)) as [H1|H1].
    + by rewrite decide_True by (apply elem_of_app; by left).
    + rewrite decide_False; [done|]. rewrite elem_of_app. tauto.
Qed.

Lemma txs_apply_block U t v : txs_apply block h U (indexed (block_Transactions block)) t v = utxo_step block h U t v.
Proof.
  rewrite (txs_apply_prefix U _ []) by (by rewrite app_nil_r). unfold utxo_step.
  destruct (prefix_txs (indexed (block_Transactions block)) []) as [Et Ei]; [by rewrite app_nil_r|].
  rewrite <- tx_inputs_block. unfold indexed. by rewrite imap_pair_snd, created_in_all.
Qed.

Lemma omap_ext_in {A C} (f g : A -> option C) (l : list A) : (forall x, x ∈ l -> f x = g x) -> omap f l = omap g l.
Proof.
  induction l as [|x l IH]; intros H; [done|]. cbn [omap list_omap]. rewrite (H x) by left.
  rewrite IH; [done|]. intros y Hy. apply H. by right.
Qed.

(** A transaction touches the same scripthashes in both orders. *)
Lemma touches_prefix U l itx l' : indexed (block_Transactions block) = l ++ itx :: l' ->
  touches (txs_apply block h U l) itx = touches U itx.
Proof.
  intros E. unfold touches. f_equal. destruct (itx.1 =? 0)%nat eqn:E0; [done|].
  apply omap_ext_in. intros i Hi. unfold input_owner. destruct (IsCoinbaseInput i) eqn:Ec; [done|].
  destruct (prefix_txs _ _ E) as [_ Ei].
  assert (Hin : i ∈ tx_inputs itx) by (unfold tx_inputs; rewrite E0; by apply list_elem_of_filter).
  rewrite (txs_apply_prefix U l _ _ _ E).
  rewrite (input_not_created l _ i E) by (rewrite Ei, bind_cons, !elem_of_app; tauto).
  rewrite decide_False; [done|]. pose proof (pb_once _ HP) as Hnd.
  rewrite Ei, bind_cons in Hnd. apply NoDup_app in Hnd as (_ & Hd & _). intros Hl. destruct i as [t v].
  apply (Hd _ Hl). apply elem_of_app. by left.
Qed.

Lemma txs_history_suffix U l l' sh : indexed (block_Transactions block) = l ++ l' ->
  txs_history block h (txs_apply block h U l) l' sh =
  omap (fun itx => if decide (sh ∈ touches U itx) then Some (mkHistoryItem (TxidToHex (TxHash itx.2)) h) else None) l'.
Proof.
  revert l; induction l' as [|itx l' IH]; intros l E; [done|]. cbn [txs_history].
  rewrite (touches_prefix U l itx l' E). cbn [omap list_omap].
  assert (Ea : tx_apply block h (txs_apply block h U l) itx = txs_apply block h U (l ++ [itx]))
    by (unfold txs_apply; by rewrite foldl_app).
  rewrite Ea, IH by (by rewrite <- app_assoc). by case_decide.
Qed.

Lemma txs_history_block U sh : txs_history block h U (indexed (block_Transactions block)) sh = block_history U block h sh.
Proof. by apply (txs_history_suffix U []). Qed.

End OneByOne.

(** ** Chains *)

Section Chains.
Context {B : Btcd}.

(** Sets of unspent outputs are compared pointwise. *)
Definition same_utxos : relation utxo_set := fun U V => forall t v, U t v = V t v.

#[export] Instance same_utxos_equivalence : Equivalence same_utxos.
Proof.
  split; [done|intros U V H t v; by rewrite H|]. intros U V W H1 H2 t v. by rewrite H1, H2.
Qed.

#[export] Instance touches_proper : Proper (same_utxos ==> eq ==> eq) touches.
Proof.
  intros U V H itx ? <-. unfold touches. f_equal. destruct (_ =? _)%nat; [done|].
  apply omap_ext_in. intros i _. unfold input_owner. by rewrite H.
Qed.

#[export] Instance utxo_step_proper block h : Proper (same_utxos ==> same_utxos) (utxo_step block h).
Proof. intros U V H t v. by apply utxo_step_same. Qed.

#[export] Instance block_history_proper : Proper (same_utxos ==> eq ==> eq ==> eq ==> eq) block_history.
Proof.
  intros U V H block ? <- h ? <- sh ? <-. unfold block_history. apply omap_ext_in. intros itx _.
  by rewrite (touches_proper _ _ H itx itx eq_refl).
Qed.

#[export] Instance chain_utxos_proper : Proper (same_utxos ==> eq ==> eq ==> same_utxos) chain_utxos.
Proof.
  intros U V H h ? <- bs ? <-. revert U V h H; induction bs as [|b bs IH]; intros U V h H; [done|].
  cbn [chain_utxos]. apply IH. by rewrite H.
Qed.

#[export] Instance chain_history_proper : Proper (same_utxos ==> eq ==> eq ==> eq ==> eq) chain_history.
Proof.
  intros U V H h ? <- bs ? <- sh ? <-. revert U V h H; induction bs as [|b bs IH]; intros U V h H; [done|].
  cbn [chain_history]. rewrite (block_history_proper U V H b b eq_refl h h eq_refl sh sh eq_refl).
  f_equal. apply IH. by rewrite H.
Qed.

Lemma seq_agrees U h bs sh : Forall plain_block bs ->
  same_utxos (seq_utxos U h bs) (chain_utxos U h bs) /\ seq_history U h bs sh = chain_history U h bs sh.
Proof.
  intros Hp. revert U h; induction Hp as [|b bs Hb Hp IH]; intros U h; [done|].
  cbn [seq_utxos chain_utxos seq_history chain_history].
  assert (E : same_utxos (txs_apply b h U (indexed (block_Transactions b))) (utxo_step b h U))
    by (intros t v; by apply txs_apply_block).
  destruct (IH (txs_apply b h U (indexed (block_Transactions b))) (h + 1)) as [E1 E2]. split.
  - rewrite E1. by rewrite E.
  - rewrite txs_history_block, E2 by done. f_equal.
    apply (chain_history_proper _ _ E); done.
Qed.

(** The ledger is the one of the protocol. *)
Lemma ledger_one_by_one s bs sh : Forall plain_block bs ->
  same_utxos (seq_utxos no_utxos s bs) (ledger_utxos s bs) /\ seq_history no_utxos s bs sh = ledger_history s bs sh.
Proof. apply seq_agrees. Qed.

End Chains.
