(* ===== verification/LedgerProps.v ===== *)
(** * The index and the ledger: properties *)

From Stdlib Require Import Strings.Byte.
From S2P Require Import Prelude Bytes Hex Keys Values Json Checkpoint Pebble Store Sha256 Types Mempool MempoolFacts MempoolProps Block BlockFacts BlockOps BlockProps Reorg ReorgFacts ReorgProps ChainFacts ReorgChain Typed Total Steps Chain Follow FollowProps Gaps GapProps Query QueryFacts QueryProps Ledger Synced Served OneByOne.

Section Props.
Context {P : Pebble} {PL : PebbleLaws P} {PH : PebbleHealthy P PL} {B : Btcd} {BL : BtcdLaws B}.
Context {Zs : Zstd} {ZL : ZstdLaws Zs}.

Lemma synced_answered sorter ord m s bs w : synced ord s bs w ->
  ledger_answered sorter ord m (w_db (cm_world w)) s bs.
Proof.
  intros S. apply mirrors_answered; [apply (sy_working _ _ _ _ S)|by apply (synced_mirrors ord)|apply S].
Qed.

(** ** Across a reorganisation *)

Section Reorg.
Context (N : node) (ord : range_order) (maxReorgDepth : Z) (nb : Z -> MsgBlock) (top s base target : Z).
Context (HS : serves N nb top) (Hstable : node_hash N = stable_client (fun h => block_hash (nb h))).
Context (Htop : target <= top) (Hgood : good_chain s (blocks_to nb s target)).

Lemma tip_on_last w : s <= base -> synced ord s (blocks_to nb s base) w -> tip_on nb base w.
Proof.
  intros Hb S. pose proof (sy_height _ _ _ _ S) as Hh. rewrite length_blocks_to in Hh by lia. split; [lia|].
  apply (sy_hash _ _ _ _ S). by apply last_blocks_to.
Qed.

Lemma synced_grows fuel w : s - 1 <= base <= target -> 1 <= s -> tip_on nb base w ->
  synced ord s (blocks_to nb s base) w ->
  exists w', CatchUpTo N ord maxReorgDepth (S fuel) target w = (Ok (), w') /\
    synced ord s (blocks_to nb s target) w'.
Proof.
  intros Hb Hs T S. destruct (CatchUpTo_run N ord maxReorgDepth nb top HS fuel target w) as (w' & E & F);
    [rewrite (proj1 T); lia|done|by rewrite (proj1 T)|apply S|].
  exists w'. split; [done|]. eapply synced_followed; [exact S|lia|lia|done|exact F].
Qed.

Lemma rolled_wf bh : length bh = 32%nat -> in_i32 base -> json_wf (mkCheckpoint base (BlockHashToHex bh) 0).
Proof.
  intros Hl Hb. split; [done|]. split; [unfold in_i32; cbn; lia|]. change (plain (bytes_of_string (TxidToHex bh))).
  rewrite TxidToHex_32 by done. apply plain_EncodeToString.
Qed.

Lemma tip_at_rolled c bh : length bh = 32%nat -> in_i32 base ->
  c !! KeyCheckpoint = Some (json_Marshal (mkCheckpoint base (BlockHashToHex bh) 0)) -> tip_at c base bh.
Proof.
  intros Hl Hb Hk. exists (mkCheckpoint base (BlockHashToHex bh) 0). split; [by apply rolled_wf|].
  split; [done|]. split; [done|]. change (TxidToHex bh = hash_String bh). by rewrite hash_String_Txid.
Qed.

Lemma synced_crosses br fuel w : s <= base -> 1 <= s -> br <> [] ->
  synced ord s (blocks_to nb s base ++ br) w ->
  (forall i b, br !! i = Some b -> block_hash (nb (base + Z.of_nat i + 1)) <> block_hash b) ->
  Z.of_nat (length br) <= maxReorgDepth -> in_i32 maxReorgDepth -> base + Z.of_nat (length br) < target ->
  exists w', CatchUpTo N ord maxReorgDepth (S (S fuel)) target w = (Ok (), w') /\
    synced ord s (blocks_to nb s target) w'.
Proof.
  intros Hb Hs Hne S Hdiff Hdepth Hmax Htarget. destruct S as [(w0 & H0 & Hc) G Hw Hheight Hhash Hstart].
  set (pre := blocks_to nb s base) in *. pose proof (length_blocks_to nb s base ltac:(lia)) as Hlen. fold pre in Hlen.
  rewrite length_app, Nat2Z.inj_add, Hlen in Hheight. pose proof (sv_top _ _ _ HS) as Ht.
  destruct (chain_split _ _ _ _ _ _ Hc) as (wm & C1 & C2). rewrite Hlen in C2.
  replace (s - 1 + (base - s + 1)) with base in C2 by lia.
  pose proof (chain_left_ok _ _ _ _ _ C1 (no_blocks_wf _ H0)) as L.
  assert (Epre : last pre = Some (nb base)) by (by apply last_blocks_to).
  assert (Hour : our_block (contents (w_db wm)) base (block_hash (nb base))).
  { rewrite last_lookup in Epre. pose proof (cl_blocks _ _ _ _ L _ _ Epre) as H.
    replace (s - 1 + Z.of_nat (pred (length pre)) + 1) with base in H; [done|]. lia. }
  destruct (last br) as [lb|] eqn:Elast; [|by apply last_None in Elast].
  destruct (CatchUpTo_crosses N ord maxReorgDepth nb top base target wm (cm_world w) br lb w fuel)
    as (w' & wr & E & Hr & _ & Hk & Hd & Hty & Ew & T & _ & Hw'); try done; try lia.
  { apply (cl_wf _ _ _ _ L). }
  { apply Hhash. rewrite last_app. by rewrite Elast. }
  exists w'. split; [exact E|].
  assert (C3 : chain ord (s - 1) w0 pre wr).
  { eapply chain_same; [exact C1|exact Epre|exact Hr|]. rewrite Hlen.
    replace (s - 1 + (base - s + 1)) with base by lia.
    apply tip_at_rolled; [apply length_BlockHash|unfold in_i32; lia|done]. }
  destruct (index_from_chain ord nb s w0 (Z.to_nat (target - base)) H0 base wr) as [C4 E4];
    [lia|by split| |exact C3|].
  { by replace (base + Z.of_nat (Z.to_nat (target - base))) with target by lia. }
  replace (base + Z.of_nat (Z.to_nat (target - base))) with target in C4 by lia. rewrite <- Ew in C4, E4.
  split; [by exists w0|done|done| | |].
  - rewrite length_blocks_to by lia. rewrite (proj1 T). lia.
  - intros b. rewrite last_blocks_to by lia. intros [= <-]. apply T.
  - rewrite E4. unfold stored_start. rewrite Hk, json_Unmarshal_Marshal; [cbn; lia|].
    apply rolled_wf; [apply length_BlockHash|unfold in_i32; lia].
Qed.

End Reorg.

(** C2: catching up keeps the index in step with the node's chain, across a
    reorganisation or without one: when the index holds a chain that shares its
    blocks up to height [base] with the node's and then has [br] of its own, no
    more than [maxReorgDepth], [CatchUpTo] with fuel 2 returns, and the index holds
    the node's blocks up to the target and nothing else; with any overlay, every
    history, unspent list and balance it answers is that of the ledger of those
    blocks. *)
Theorem catch_up_syncs (N : node) (ord : range_order) (maxReorgDepth : Z) (nb : Z -> MsgBlock)
    (top s base target : Z) (br : list MsgBlock) (w : cworld) (fuel : nat)
    (HS : serves N nb top) (Hstable : node_hash N = stable_client (fun h => block_hash (nb h)))
    (Hs : 1 <= s) (Hbase : s - 1 <= base) (Hsync : synced ord s (blocks_to nb s base ++ br) w)
    (Hfirst : base = s - 1 -> br = [] /\ currentHash w = block_hash (nb base))
    (Hdiff : forall i b, br !! i = Some b -> block_hash (nb (base + Z.of_nat i + 1)) <> block_hash b)
    (Hdepth : Z.of_nat (length br) <= maxReorgDepth) (Hmax : in_i32 maxReorgDepth)
    (Htarget : base + Z.of_nat (length br) < target \/ (br = [] /\ base <= target)) (Htop : target <= top)
    (Hgood : good_chain s (blocks_to nb s target)) :
  exists w', CatchUpTo N ord maxReorgDepth (S (S fuel)) target w = (Ok (), w') /\
    synced ord s (blocks_to nb s target) w' /\ currentHeight w' = target /\
    forall sorter m, ledger_answered sorter ord m (w_db (cm_world w')) s (blocks_to nb s target).
Proof.
  assert (H : exists w', CatchUpTo N ord maxReorgDepth (S (S fuel)) target w = (Ok (), w') /\
    synced ord s (blocks_to nb s target) w').
  { destruct (decide (br = [])) as [->|Hne].
    - rewrite app_nil_r in Hsync. cbn [length] in Htarget.
      apply (synced_grows N ord maxReorgDepth nb top s base target HS); [done|done|lia|done| |done].
      destruct (decide (base = s - 1)) as [E|]; [|by apply (tip_on_last ord nb s); [lia|]].
      pose proof (sy_height _ _ _ _ Hsync) as Hh. rewrite length_blocks_to in Hh by lia.
      split; [lia|]. by apply Hfirst.
    - destruct Htarget as [Ht|[? _]]; [|done].
      apply (synced_crosses N ord maxReorgDepth nb top s base target HS Hstable Htop Hgood br fuel w); try done.
      destruct (decide (base = s - 1)) as [E|]; [by destruct (Hfirst E)|lia]. }
  destruct H as (w' & E & S). exists w'. split_and!; [done|done| |by intros; apply synced_answered].
  pose proof (sy_height _ _ _ _ S) as Hh. rewrite length_blocks_to in Hh; [lia|].
  destruct Htarget as [?|[_ ?]]; lia.
Qed.

(** C7: a new block keeps the index in step: when the index holds the node's
    blocks from the start height to its tip and a block [h] of the node's chain
    above the tip is handed to [ProcessBlock], the call returns [h] with fuel 2,
    whatever was missing below [h], and the index holds the node's blocks up to
    [h]: with any overlay, every history, unspent list and balance it answers is
    that of the ledger of those blocks. *)
Theorem process_block_syncs (N : node) (ord : range_order) (maxReorgDepth : Z) (nb : Z -> MsgBlock)
    (top s t h : Z) (w : cworld) (fuel : nat)
    (HS : serves N nb top) (Hs : 1 <= s <= t + 1) (Ht : tip_on nb t w) (Hh : t < h <= top)
    (Hsync : synced ord s (blocks_to nb s t) w) (Hgood : good_chain s (blocks_to nb s h)) :
  exists w', ProcessBlock N ord maxReorgDepth (S (S fuel)) (nb h) w = (Ok h, w') /\
    synced ord s (blocks_to nb s h) w' /\ tip_on nb h w' /\ tip_saved w' /\
    forall sorter m, ledger_answered sorter ord m (w_db (cm_world w')) s (blocks_to nb s h).
Proof.
  destruct Ht as [Et Ehash].
  destruct (ProcessBlock_run N ord maxReorgDepth nb top HS fuel h w) as (w' & E & F);
    [lia|lia|by rewrite Et|apply Hsync|].
  assert (S' : synced ord s (blocks_to nb s h) w') by (by eapply synced_followed; [exact Hsync|lia..| |exact F]).
  exists w'. split_and!; [done|done|apply F|apply F; lia|]. intros. by apply synced_answered.
Qed.

(** C5: what clients are told is the ledger: the database of an index in step
    with a chain, whichever overlay is on top of it, answers every scripthash from
    the ledger of that chain; and where no block of the chain spends an output of
    its own, or one output twice, that ledger is the protocol's, which takes the
    transactions one after the other. *)
Theorem clients_told_ledger (sorter : slice_sort) (ord : range_order) (mempool : MempoolOverlay)
    (s : Z) (bs : list MsgBlock) (w : cworld) (Hsync : synced ord s bs w) :
  ledger_answered sorter ord mempool (w_db (cm_world w)) s bs /\
  (Forall plain_block bs -> same_utxos (seq_utxos no_utxos s bs) (ledger_utxos s bs) /\
     forall sh, seq_history no_utxos s bs sh = ledger_history s bs sh).
Proof.
  split; [by apply synced_answered|]. intros Hp.
  split; [apply (ledger_one_by_one s bs [] Hp)|intros sh; apply (ledger_one_by_one s bs sh Hp)].
Qed.

End Props.
