(* ===== verification/LedgerSample.v ===== *)
(** * The ledger's theorems on the sample node

    The program started at height 1 on an empty database, with and without the
    block that the node has abandoned: the theorems of [LedgerProps] run on it. *)

From Stdlib Require Import Strings.Byte.
From S2P Require Import Prelude Bytes Hex Keys Values Json Checkpoint Pebble Store Sha256 Types Mempool MempoolFacts MempoolProps Block BlockFacts BlockOps BlockProps Reorg ReorgFacts ReorgProps ChainFacts ReorgChain Typed Total Steps Chain Follow FollowProps Gaps GapProps ChainSample Query QueryFacts QueryProps Ledger Synced Served OneByOne LedgerProps.

(** Chains of blocks are good by computation. *)
Lemma good_chain_check s (bs : list (@MsgBlock ModelBtcd)) : 0 <= s -> s + Z.of_nat (length bs) < 2 ^ 31 ->
  Forall valid_block bs -> Forall (fun b => Z.of_nat (block_io b) < 2 ^ 32) bs ->
  Forall (fun b => Z.of_nat (length (block_Transactions b)) < 2 ^ 32) bs -> NoDup (chain_txids bs) ->
  good_chain s bs.
Proof. rewrite !Forall_forall. by split. Qed.

Ltac good_sample := apply good_chain_check; [lia|vm_compute; reflexivity|..];
  [repeat (apply Forall_cons; split; [split; [reflexivity|by repeat constructor
     |apply (bool_decide_eq_true_1 _); vm_compute; reflexivity]|]); apply Forall_nil; exact I
  |repeat constructor|repeat constructor|apply (bool_decide_eq_true_1 _); vm_compute; reflexivity].

(** What the program indexed before the node changed its mind. *)
Definition own_chain (h : Z) : @MsgBlock ModelBtcd := if h =? 1 then block1 else block2.

Definition branch_world : @world MemPebble ModelBtcd := index_from id_order own_chain 2 1 world0.

Definition manager_fresh : cworld := manager world0 0 (replicate 32 x0f) 1 0.
Definition manager_branch : cworld := manager branch_world 2 (replicate 32 x02) 1 0.

Lemma empty_no_blocks : no_blocks (contents (w_db world0)).
Proof. intros k _. apply lookup_empty. Qed.

Lemma fresh_synced : synced id_order 1 [] manager_fresh.
Proof.
  split.
  - exists world0. split; [exact empty_no_blocks|]. by constructor.
  - good_sample.
  - split; [reflexivity|exact typed_world0].
  - reflexivity.
  - done.
  - done.
Qed.

Lemma branch_working : working manager_branch.
Proof.
  split; [apply is_none_eq; vm_compute; reflexivity|]. intros k v _ Hk. revert k v Hk.
  change (map_Forall (fun k v => value_ok k v = true) (contents (w_db branch_world))).
  apply (bool_decide_eq_true_1 _). vm_compute. reflexivity.
Qed.

Lemma branch_good : good_chain 1 [block1; block2].
Proof. good_sample. Qed.

Lemma branch_blocks : blocks_to own_chain 1 (0 + Z.of_nat 2) = [block1; block2].
Proof. reflexivity. Qed.

Lemma branch_synced : synced id_order 1 [block1; block2] manager_branch.
Proof.
  split.
  - exists world0. split; [exact empty_no_blocks|].
    change (cm_world manager_branch) with branch_world. rewrite <- branch_blocks.
    destruct (index_from_chain id_order own_chain 1 world0 2 empty_no_blocks 0 world0) as [Hc _];
      [lia|split; [reflexivity|exact typed_world0]|rewrite branch_blocks; exact branch_good|by constructor|exact Hc].
  - exact branch_good.
  - exact branch_working.
  - reflexivity.
  - by intros b [= <-].
  - apply (bool_decide_eq_true_1 _). vm_compute. reflexivity.
Qed.

Lemma node_good : good_chain 1 (blocks_to node_chain 1 3).
Proof. good_sample. Qed.

(** ** Witnesses *)

Lemma catch_up_syncs_witness :
  exists w', CatchUpTo sample_node id_order 10 2 3 manager_branch = (Ok (), w') /\
    synced id_order 1 [block1; other2; other3] w' /\ currentHeight w' = 3 /\
    forall sorter m, ledger_answered sorter id_order m (w_db (cm_world w')) 1 [block1; other2; other3].
Proof.
  apply (catch_up_syncs sample_node id_order 10 node_chain 3 1 1 3 [block2] manager_branch 0);
    [exact sample_serves | reflexivity | lia | lia | exact branch_synced | lia
    | intros [|i] b; [intros [= <-]; discriminate | discriminate]
    | cbn; lia | unfold in_i32; lia | left; cbn; lia | lia | exact node_good].
Defined.

Lemma process_block_syncs_witness :
  exists w', ProcessBlock sample_node id_order 10 2 (node_chain 3) manager_fresh = (Ok 3, w') /\
    synced id_order 1 [block1; other2; other3] w' /\ tip_on node_chain 3 w' /\ tip_saved w' /\
    forall sorter m, ledger_answered sorter id_order m (w_db (cm_world w')) 1 [block1; other2; other3].
Proof.
  apply (process_block_syncs sample_node id_order 10 node_chain 3 1 0 3 manager_fresh 0);
    [exact sample_serves | lia | split; reflexivity | lia | exact fresh_synced | exact node_good].
Defined.

Lemma plain_check (block : @MsgBlock ModelBtcd) :
  bool_decide (Forall (fun i => op_Hash i ∉ TxHash <$> block_Transactions block) (block_inputs block) /\
    NoDup (block_inputs block) /\ NoDup (TxHash <$> block_Transactions block)) = true -> plain_block block.
Proof. intros (H1 & H2 & H3)%bool_decide_eq_true_1. rewrite Forall_forall in H1. by split. Qed.

Lemma clients_told_ledger_witness :
  ledger_answered merge_sorter id_order (NewMempoolOverlay true) (w_db branch_world) 1 [block1; block2] /\
  forall sh, seq_history no_utxos 1 [block1; block2] sh = ledger_history 1 [block1; block2] sh.
Proof.
  destruct (clients_told_ledger merge_sorter id_order (NewMempoolOverlay true) 1 [block1; block2] manager_branch
    branch_synced) as [H1 H2].
  split; [exact H1|]. apply H2. repeat (apply Forall_cons; split; [by apply plain_check|]). by apply Forall_nil.
Defined.
