(* ===== verification/Writer.v ===== *)
(** * The batch writer: [internal/indexer/writer.go]

    One goroutine takes jobs from a channel of capacity 100 and runs them one at
    a time; the callers of [IndexBlock] and [IndexMempoolTx] send a job with a
    result channel of capacity 1 and wait.  [processJob] is the sequential part.
    The goroutines are a transition system: a [label] is one send, receive or
    [select] branch of one goroutine, [wstep] its effect, and a run of the
    program is a list of labels that all apply.  A job that returns is one label,
    since only the worker touches the chain manager and the overlay's writes; one
    that does not return keeps the worker from then on, and one that panics ends
    the program.  A [select] with several ready branches takes any of them.  The
    overlay has its database, as [main] gives it one: on a nil handle
    [AddTransaction] panics where [processMempoolJob] here drops the error. *)

From Stdlib Require Import Strings.Byte.
From S2P Require Import Prelude Bytes Hex Keys Values Json Checkpoint Pebble Store Sha256 Types Mempool Block Reorg Chain.

Section Writer.
Context {P : Pebble} {B : Btcd} {Zs : Zstd}.

Inductive jobType := jobTypeBlock | jobTypeMempoolTx | jobTypePrune.

Record writeResult := mkWriteResult {
  wr_height : Z;
  wr_affectedScripthashes : list string;
  wr_err : option error;
}.

(** [result] is the number of the call's channel. *)
Record writeJob := mkWriteJob {
  wj_jobType : jobType;
  wj_block : option MsgBlock;
  wj_tx : option MsgTx;
  wj_result : option nat;
}.

Definition failed (e : error) : writeResult := mkWriteResult 0 [] (Some e).

(** The writer's own fields beside the chain manager's; [ww_jobs] counts the
    jobs done, to read the clock. *)
Record wworld := mkWWorld {
  ww_cm : cworld;
  blocksIndexed : Z;
  mempoolTxsAdded : Z;
  lastBlockTime : option Z;      (* None: the zero time *)
  ww_jobs : nat;
}.

Section Jobs.
Context (N : node) (ord : range_order) (maxReorgDepth : Z) (clock : nat -> Z) (fuel : nat).

Definition on_cm {A} (c : st cworld A) : st wworld A := fun w =>
  let '(r, cm) := c (ww_cm w) in
  (r, mkWWorld cm (blocksIndexed w) (mempoolTxsAdded w) (lastBlockTime w) (ww_jobs w)).

(** ** One job *)

Definition affected_input (affected : gset string) (txIn : OutPoint) : st cworld (gset string) :=
  if IsCoinbaseInput txIn then mret affected
  else
    r ← st_try (on_db (GetScripthashForOutpoint (TxidFromHash (op_Hash txIn)) (op_Index txIn)));
    mret match r with
         | Ok (Some scripthash) => {[EncodeToString scripthash]} ∪ affected
         | _ => affected
         end.

Definition affected_output (affected : gset string) (txOut : TxOut) : gset string :=
  if IsOpReturn (to_PkScript txOut) then affected
  else if to_Value txOut =? 0 then affected
  else {[EncodeToString (ComputeScripthash (to_PkScript txOut))]} ∪ affected.

Definition affected_tx (affected : gset string) (tx : MsgTx) : st cworld (gset string) :=
  affected ← st_foldM affected_input affected (tx_TxIn tx);
  mret (foldl affected_output affected (tx_TxOut tx)).

Definition collectAffectedScripthashes (block : MsgBlock) : st cworld (list string) :=
  affected ← st_foldM affected_tx ∅ (block_Transactions block);
  mret (range_set ord 9 affected).

Definition processBlockJob (block : option MsgBlock) : st wworld writeResult :=
  match block with
  | None => mret (failed (ENew "nil block"))
  | Some block =>
      affected ← on_cm (collectAffectedScripthashes block);
      r ← st_try (on_cm (ProcessBlock N ord maxReorgDepth fuel block));
      match r with
      | Err e => mret (failed e)
      | Ok height =>
          _ ← st_modify (fun w => mkWWorld (ww_cm w) (i64 (blocksIndexed w + 1)) (mempoolTxsAdded w)
                                    (Some (clock (ww_jobs w))) (ww_jobs w));
          mret (mkWriteResult height affected None)
      end
  end.

(** The overlay's own errors are not passed on. *)
Definition processMempoolJob (tx : option MsgTx) : st wworld writeResult :=
  match tx with
  | None => mret (failed (ENew "nil transaction"))
  | Some tx =>
      now ← st_gets (fun w => clock (ww_jobs w));
      r ← st_try (on_cm (on_rw (rmp (AddTransaction ord now tx))));
      match r with
      | Err _ => mret (mkWriteResult 0 [] None)
      | Ok affected =>
          _ ← st_modify (fun w => mkWWorld (ww_cm w) (blocksIndexed w) (i64 (mempoolTxsAdded w + 1))
                                    (lastBlockTime w) (ww_jobs w));
          mret (mkWriteResult 0 affected None)
      end
  end.

Definition processPruneJob : st wworld writeResult :=
  r ← on_cm (PruneOldUndo maxReorgDepth);
  mret match r with
       | Err e => failed (EWrap "prune failed: " e "")
       | Ok _ => mkWriteResult 0 [] None
       end.

Definition processJob (job : writeJob) : st wworld writeResult :=
  match wj_jobType job with
  | jobTypeBlock => processBlockJob (wj_block job)
  | jobTypeMempoolTx => processMempoolJob (wj_tx job)
  | jobTypePrune => processPruneJob
  end.

(** How a job ends: with a result, in a panic, which ends the program, or not at
    all as far as the fuel goes: a call in it has not returned. *)
Inductive job_end :=
| JobReturns (r : writeResult)
| JobPanics (e : error)
| JobRuns.

Definition job_failed (e : error) (r : writeResult) : job_end :=
  if is_panic e then JobPanics e else if unreturned e then JobRuns else JobReturns r.

Definition job_ended (r : result writeResult) : job_end :=
  match r with
  | Err e => job_failed e (failed e)
  | Ok r => match wr_err r with Some e => job_failed e r | None => JobReturns r end
  end.

(** [processJob] with the way it ends, and the state it has come to. *)
Definition run_job (job : writeJob) (w : wworld) : job_end * wworld :=
  let '(r, w) := processJob job w in
  (job_ended r,
   mkWWorld (ww_cm w) (blocksIndexed w) (mempoolTxsAdded w) (lastBlockTime w) (S (ww_jobs w))).

(** ** The goroutines *)

Inductive worker :=
| Running
| Busy (job : writeJob)                  (* a job that has not returned *)
| Crashed (job : writeJob) (e : error)   (* a job that panicked: no goroutine goes on *)
| Draining
| Stopped.

(** A call of [IndexBlock] or [IndexMempoolTx]: at its first [select], at its
    second, or returned. *)
Inductive call :=
| Submitting (job : writeJob)
| Waiting
| Returned (r : writeResult).

Record wsys := mkWSys {
  ws_world : wworld;
  ws_jobs : list writeJob;                 (* w.jobs, oldest first *)
  ws_done : bool;                          (* w.ctx is cancelled *)
  ws_worker : worker;
  ws_calls : gmap nat call;
  ws_results : gmap nat (list writeResult);  (* the result channels *)
}.

Definition jobs_cap : nat := 100.
Definition result_cap : nat := 1.

Definition NewWriter (w : wworld) : wsys := mkWSys w [] false Running ∅ ∅.

Definition IndexBlock_job (block : option MsgBlock) (c : nat) : writeJob :=
  mkWriteJob jobTypeBlock block None (Some c).
Definition IndexMempoolTx_job (tx : option MsgTx) (c : nat) : writeJob :=
  mkWriteJob jobTypeMempoolTx None tx (Some c).
Definition prune_job : writeJob := mkWriteJob jobTypePrune None None None.

Inductive label :=
| LIndexBlock (c : nat) (block : option MsgBlock)
| LIndexMempoolTx (c : nat) (tx : option MsgTx)
| LSubmit (c : nat)      (* w.jobs <- job *)
| LRefused (c : nat)     (* the first select's ctx.Done() *)
| LReceive (c : nat)     (* res := <-result *)
| LAbandon (c : nat)     (* the second select's ctx.Done() *)
| LTriggerPrune
| LClose                 (* w.cancel() *)
| LWork                  (* the worker takes a job and runs it *)
| LStop                  (* the worker sees ctx.Done() *)
| LDrain                 (* drainJobsOnShutdown takes a job *)
| LExit.                 (* ... finds none *)

Definition begin (c : nat) (job : writeJob) (s : wsys) : option wsys :=
  match ws_calls s !! c with
  | Some _ => None
  | None => Some (mkWSys (ws_world s) (ws_jobs s) (ws_done s) (ws_worker s)
                    (<[c := Submitting job]> (ws_calls s)) (<[c := []]> (ws_results s)))
  end.

Definition finish (c : nat) (r : writeResult) (s : wsys) : wsys :=
  mkWSys (ws_world s) (ws_jobs s) (ws_done s) (ws_worker s) (<[c := Returned r]> (ws_calls s)) (ws_results s).

(** [job.result <- result], which blocks when the channel is full. *)
Definition send_result (job : writeJob) (r : writeResult) (results : gmap nat (list writeResult)) :
    option (gmap nat (list writeResult)) :=
  match wj_result job with
  | None => Some results
  | Some c =>
      let buf := default [] (results !! c) in
      if (length buf <? result_cap)%nat then Some (<[c := buf ++ [r]]> results) else None
  end.

Definition take_job (s : wsys) : option (writeJob * wsys) :=
  match ws_jobs s with
  | [] => None
  | job :: jobs =>
      Some (job, mkWSys (ws_world s) jobs (ws_done s) (ws_worker s) (ws_calls s) (ws_results s))
  end.

Definition with_results (s : wsys) (w : wworld) (results : gmap nat (list writeResult)) : wsys :=
  mkWSys w (ws_jobs s) (ws_done s) (ws_worker s) (ws_calls s) results.

Definition with_worker (s : wsys) (k : worker) : wsys :=
  mkWSys (ws_world s) (ws_jobs s) (ws_done s) k (ws_calls s) (ws_results s).

Definition push_job (s : wsys) (job : writeJob) : wsys :=
  mkWSys (ws_world s) (ws_jobs s ++ [job]) (ws_done s) (ws_worker s) (ws_calls s) (ws_results s).

(** The worker with a job that it took. *)
Definition work (job : writeJob) (s : wsys) : option wsys :=
  let '(r, w) := run_job job (ws_world s) in
  match r with
  | JobReturns r => results ← send_result job r (ws_results s); Some (with_results s w results)
  | JobPanics e => Some (with_worker (with_results s w (ws_results s)) (Crashed job e))
  | JobRuns => Some (with_worker (with_results s w (ws_results s)) (Busy job))
  end.

Definition is_crashed (k : worker) : bool := match k with Crashed _ _ => true | _ => false end.

Definition wstep (l : label) (s : wsys) : option wsys :=
  if is_crashed (ws_worker s) then None else
  match l with
  | LIndexBlock c block => begin c (IndexBlock_job block c) s
  | LIndexMempoolTx c tx => begin c (IndexMempoolTx_job tx c) s
  | LSubmit c =>
      match ws_calls s !! c with
      | Some (Submitting job) =>
          if (length (ws_jobs s) <? jobs_cap)%nat
          then let s := push_job s job in
               Some (mkWSys (ws_world s) (ws_jobs s) (ws_done s) (ws_worker s)
                       (<[c := Waiting]> (ws_calls s)) (ws_results s))
          else None
      | _ => None
      end
  | LRefused c =>
      match ws_calls s !! c with
      | Some (Submitting _) =>
          if ws_done s then Some (finish c (failed (ENew "writer is shut down")) s) else None
      | _ => None
      end
  | LReceive c =>
      match ws_calls s !! c, ws_results s !! c with
      | Some Waiting, Some (r :: rest) =>
          Some (finish c r (with_results s (ws_world s) (<[c := rest]> (ws_results s))))
      | _, _ => None
      end
  | LAbandon c =>
      match ws_calls s !! c with
      | Some Waiting =>
          if ws_done s then Some (finish c (failed (ENew "writer shut down while processing")) s) else None
      | _ => None
      end
  | LTriggerPrune => Some (if (length (ws_jobs s) <? jobs_cap)%nat then push_job s prune_job else s)
  | LClose => Some (mkWSys (ws_world s) (ws_jobs s) true (ws_worker s) (ws_calls s) (ws_results s))
  | LWork =>
      match ws_worker s, take_job s with
      | Running, Some (job, s) => work job s
      | _, _ => None
      end
  | LStop =>
      match ws_worker s with
      | Running => if ws_done s then Some (with_worker s Draining) else None
      | _ => None
      end
  | LDrain =>
      match ws_worker s, take_job s with
      | Draining, Some (job, s) =>
          results ← send_result job (failed (ENew "writer shutting down")) (ws_results s);
          Some (with_results s (ws_world s) results)
      | _, _ => None
      end
  | LExit =>
      match ws_worker s, ws_jobs s with
      | Draining, [] => Some (with_worker s Stopped)
      | _, _ => None
      end
  end.

Fixpoint wrun (ls : list label) (s : wsys) : option wsys :=
  match ls with
  | [] => Some s
  | l :: ls => s ← wstep l s; wrun ls s
  end.

(** [Stats]; [WriterStats.String] only formats it for the log. *)
Record WriterStats := mkWriterStats {
  BlocksIndexed : Z;
  MempoolTxsAdded : Z;
  LastBlockTime : option Z;
  QueueLength : nat;
}.

Definition Stats (s : wsys) : WriterStats :=
  mkWriterStats (blocksIndexed (ws_world s)) (mempoolTxsAdded (ws_world s)) (lastBlockTime (ws_world s))
    (length (ws_jobs s)).

End Jobs.
End Writer.
