(* ===== verification/WriterProps.v ===== *)
(** * The batch writer: properties

    Whatever the interleaving of the callers, the worker and the shutdown, the
    writer is the sequential run of the jobs in the order they entered the queue; no
    result is lost or sent twice, and the worker never waits for a caller.  A caller
    waits for its job, and for those before it, until the shutdown. *)

From Stdlib Require Import Strings.Byte.
From S2P Require Import Prelude Bytes Hex Keys Values Json Checkpoint Pebble Store Sha256 Types Mempool MempoolFacts MempoolProps Block BlockFacts BlockOps BlockProps Reorg ReorgFacts ReorgProps ChainFacts ReorgChain Typed Total Steps Chain Follow FollowProps Gaps GapProps ChainSample Writer.

Section WriterProps.
Context {P : Pebble} {B : Btcd} {Zs : Zstd}.
Context (N : node) (ord : range_order) (maxReorgDepth : Z) (clock : nat -> Z) (fuel : nat).

#[local] Notation wstep := (wstep N ord maxReorgDepth clock fuel).
#[local] Notation wrun := (wrun N ord maxReorgDepth clock fuel).
#[local] Notation run_job := (run_job N ord maxReorgDepth clock fuel).

(** ** The invariant of the channels *)

Definition for_call (c : nat) (job : writeJob) : Prop := wj_result job = Some c.
#[local] Instance for_call_dec c job : Decision (for_call c job).
Proof. unfold for_call. apply _. Defined.

(** The jobs of a call still queued, and the results waiting for it. *)
Definition queued (c : nat) (s : wsys) : nat := length (filter (for_call c) (ws_jobs s)).
Definition ready_results (c : nat) (s : wsys) : nat := length (default [] (ws_results s !! c)).

(** The job the worker never came back from. *)
Definition held (k : worker) : option writeJob :=
  match k with Busy job | Crashed job _ => Some job | _ => None end.
Definition busy_with (c : nat) (s : wsys) : nat :=
  match held (ws_worker s) with Some job => if decide (for_call c job) then 1 else 0 | None => 0 end.

Definition pending (c : nat) (s : wsys) : nat := queued c s + busy_with c s + ready_results c s.

Definition call_ok (c : nat) (s : wsys) : Prop :=
  match ws_calls s !! c with
  | None => pending c s = 0%nat
  | Some (Submitting job) => wj_result job = Some c /\ pending c s = 0%nat
  | Some Waiting => pending c s = 1%nat
  | Some (Returned _) => (pending c s <= 1)%nat
  end.

Definition after_shutdown (k : worker) : bool :=
  match k with Draining | Stopped => true | _ => false end.

Record wsys_inv (s : wsys) : Prop := {
  wi_jobs : (length (ws_jobs s) <= jobs_cap)%nat;
  wi_calls c : call_ok c s;
  wi_worker : after_shutdown (ws_worker s) = true -> ws_done s = true;
}.

Lemma call_load s c : wsys_inv s -> (pending c s <= 1)%nat.
Proof.
  intros I. pose proof (wi_calls _ I c) as H. unfold call_ok in H.
  destruct (ws_calls s !! c) as [[]|]; lia.
Qed.

(** The worker's send has room. *)
Lemma send_room s job jobs r : wsys_inv s -> ws_jobs s = job :: jobs ->
  exists results, send_result job r (ws_results s) = Some results.
Proof.
  intros I E. unfold send_result. destruct (wj_result job) as [c|] eqn:Ec; [|by eexists].
  pose proof (call_load s c I) as H. unfold pending, queued in H. rewrite E in H.
  rewrite filter_cons_True in H by done. unfold ready_results in H. cbn [length] in H.
  destruct (Nat.ltb_spec (length (default [] (ws_results s !! c))) result_cap) as [?|Hge]; [by eexists|].
  unfold result_cap in Hge. lia.
Qed.

Lemma send_result_load job r results results' c : send_result job r results = Some results' ->
  length (default [] (results' !! c)) =
    ((if decide (for_call c job) then 1 else 0) + length (default [] (results !! c)))%nat.
Proof.
  intros H. case_decide as E; unfold for_call in E; revert H; unfold send_result;
    destruct (wj_result job) as [c'|]; try done; try (by intros [= ->]);
    (destruct (_ <? _)%nat; [|done]); intros [= <-].
  - injection E as ->. rewrite lookup_insert_eq. cbn. rewrite length_app. cbn. lia.
  - rewrite lookup_insert_ne; [done|]. intros ->. done.
Qed.

Lemma queued_head s job jobs c : ws_jobs s = job :: jobs ->
  queued c s = ((if decide (for_call c job) then 1 else 0) + length (filter (for_call c) jobs))%nat.
Proof. intros E. unfold queued. rewrite E, filter_cons. by destruct (decide (for_call c job)). Qed.

(** Taking the oldest job, and answering it or not coming back from it. *)
Lemma inv_taken s job jobs w k results : wsys_inv s -> ws_jobs s = job :: jobs -> held (ws_worker s) = None ->
  (after_shutdown k = true -> ws_done s = true) ->
  (k = ws_worker s /\ (exists r, send_result job r (ws_results s) = Some results) \/
   held k = Some job /\ results = ws_results s) ->
  wsys_inv (mkWSys w jobs (ws_done s) k (ws_calls s) results).
Proof.
  intros I E Hheld Hk Hcase. split; cbn; [|intros c|done].
  - pose proof (wi_jobs _ I) as H. rewrite E in H. cbn in H. lia.
  - pose proof (wi_calls _ I c) as H. unfold call_ok in *. cbn [ws_calls].
    assert (Hp : pending c (mkWSys w jobs (ws_done s) k (ws_calls s) results) = pending c s).
    { unfold pending. rewrite (queued_head s job jobs c E). unfold busy_with, ready_results, queued. rewrite Hheld.
      cbn [ws_jobs ws_worker ws_results].
      destruct Hcase as [[-> [r Hs]]|[-> ->]]; [|lia].
      rewrite Hheld, (send_result_load _ _ _ _ c Hs). lia. }
    by rewrite Hp.
Qed.

Lemma inv_push s job : wsys_inv s -> (length (ws_jobs s) < jobs_cap)%nat -> wj_result job = None ->
  wsys_inv (push_job s job).
Proof.
  intros [I1 I2 I3] Hl Hr. split; cbn; [rewrite length_app; cbn; lia| |done].
  intros c. specialize (I2 c). unfold call_ok, pending, queued, busy_with, ready_results in *. cbn.
  rewrite filter_app, filter_cons_False, app_nil_r; [done|]. unfold for_call. by rewrite Hr.
Qed.

Lemma inv_begin s c job s' : wj_result job = Some c -> wsys_inv s -> begin c job s = Some s' -> wsys_inv s'.
Proof.
  intros Hc [I1 I2 I3]. unfold begin. destruct (ws_calls s !! c) as [x|] eqn:E; [done|]. intros [= <-].
  split; cbn; [done| |done]. intros c'. specialize (I2 c'). unfold call_ok, pending, queued, busy_with, ready_results in *. cbn.
  destruct (decide (c = c')) as [<-|Hne].
  - rewrite E in I2. rewrite !lookup_insert_eq. split; [done|]. cbn. lia.
  - by rewrite !lookup_insert_ne.
Qed.

Lemma inv_submit s c job : wsys_inv s -> ws_calls s !! c = Some (Submitting job) ->
  (length (ws_jobs s) < jobs_cap)%nat ->
  wsys_inv (mkWSys (ws_world s) (ws_jobs s ++ [job]) (ws_done s) (ws_worker s)
    (<[c := Waiting]> (ws_calls s)) (ws_results s)).
Proof.
  intros [I1 I2 I3] E Hl. pose proof (I2 c) as Hc. unfold call_ok in Hc. rewrite E in Hc.
  destruct Hc as (Hj & Hq). split; cbn; [rewrite length_app; cbn; lia| |done].
  intros c'. specialize (I2 c'). unfold call_ok, pending, queued, busy_with, ready_results in *. cbn. rewrite filter_app.
  destruct (decide (c = c')) as [<-|Hne].
  - rewrite lookup_insert_eq, filter_cons_True, length_app by done. cbn. lia.
  - rewrite lookup_insert_ne by done.
    rewrite filter_cons_False, app_nil_r; [done|]. unfold for_call. rewrite Hj. congruence.
Qed.

Lemma inv_finish s c r : wsys_inv s -> (exists x, ws_calls s !! c = Some x) -> wsys_inv (finish c r s).
Proof.
  intros I (x & E). pose proof I as [I1 I2 I3]. split; cbn; [done| |done]. intros c'.
  pose proof (call_load s c I) as Hl. specialize (I2 c').
  unfold call_ok, pending, queued, busy_with, ready_results in *. cbn. destruct (decide (c = c')) as [<-|Hne].
  - by rewrite lookup_insert_eq.
  - by rewrite lookup_insert_ne.
Qed.

Lemma inv_receive s c r rest : wsys_inv s -> ws_calls s !! c = Some Waiting ->
  ws_results s !! c = Some (r :: rest) ->
  wsys_inv (finish c r (with_results s (ws_world s) (<[c := rest]> (ws_results s)))).
Proof.
  intros [I1 I2 I3] E Er. split; cbn; [done| |done]. intros c'. specialize (I2 c').
  unfold call_ok, pending, queued, busy_with, ready_results in *. cbn. destruct (decide (c = c')) as [<-|Hne].
  - rewrite E, Er in I2. rewrite !lookup_insert_eq. cbn in *. lia.
  - by rewrite !lookup_insert_ne.
Qed.

Lemma inv_idle s k : wsys_inv s -> held (ws_worker s) = None -> held k = None ->
  (after_shutdown k = true -> ws_done s = true) -> wsys_inv (with_worker s k).
Proof.
  intros [I1 I2 I3] Hs Hk Hd. split; [done| |done]. intros c. specialize (I2 c).
  unfold call_ok, pending, busy_with in *. cbn. by rewrite Hk, Hs in *.
Qed.

Lemma take_job_Some (s : wsys) job s1 : take_job s = Some (job, s1) ->
  exists jobs, ws_jobs s = job :: jobs /\
    s1 = mkWSys (ws_world s) jobs (ws_done s) (ws_worker s) (ws_calls s) (ws_results s).
Proof. unfold take_job. destruct (ws_jobs s) as [|j jobs]; [done|]. intros [= -> <-]. by exists jobs. Qed.

(** The worker's step on a job. *)
Lemma work_inv job s s' : work N ord maxReorgDepth clock fuel job s = Some s' ->
  (exists r results, (run_job job (ws_world s)).1 = JobReturns r /\ send_result job r (ws_results s) = Some results /\
     s' = with_results s (run_job job (ws_world s)).2 results) \/
  (exists k, held k = Some job /\ after_shutdown k = false /\
     (forall r, (run_job job (ws_world s)).1 <> JobReturns r) /\
     s' = mkWSys (run_job job (ws_world s)).2 (ws_jobs s) (ws_done s) k (ws_calls s) (ws_results s)).
Proof.
  unfold work. destruct (run_job job (ws_world s)) as [[r|e|] w] eqn:Er; cbn [fst snd].
  - destruct (send_result _ _ _) as [results|] eqn:Es; cbn; [|done]. intros [= <-]. left. by exists r, results.
  - intros [= <-]. right. by exists (Crashed job e).
  - intros [= <-]. right. by exists (Busy job).
Qed.

Lemma wstep_inv l s s' : wsys_inv s -> wstep l s = Some s' -> wsys_inv s'.
Proof.
  intros I. unfold Writer.wstep. destruct (is_crashed (ws_worker s)) eqn:Ecr; [done|].
  destruct l as [c b|c t|c|c|c|c| | | | | |].
  - by apply inv_begin.
  - by apply inv_begin.
  - destruct (ws_calls s !! c) as [[job| |]|] eqn:E; try done.
    destruct (Nat.ltb_spec (length (ws_jobs s)) jobs_cap); [|done]. intros [= <-]. by apply inv_submit.
  - destruct (ws_calls s !! c) as [[job| |]|] eqn:E; try done. destruct (ws_done s); [|done].
    intros [= <-]. apply inv_finish; eauto.
  - destruct (ws_calls s !! c) as [[job| |]|] eqn:E; try done.
    destruct (ws_results s !! c) as [[|r rest]|] eqn:Er; try done. intros [= <-]. by apply inv_receive.
  - destruct (ws_calls s !! c) as [[job| |]|] eqn:E; try done. destruct (ws_done s); [|done].
    intros [= <-]. apply inv_finish; eauto.
  - intros [= <-]. destruct (Nat.ltb_spec (length (ws_jobs s)) jobs_cap); [|done]. by apply inv_push.
  - intros [= <-]. destruct I as [I1 I2 I3]. split; [done| |done]. exact I2.
  - destruct (ws_worker s) eqn:Ew; try done. destruct (take_job s) as [[job s1]|] eqn:Et; [|done].
    apply take_job_Some in Et as (jobs & Ej & ->).
    intros [(r & results & _ & Es & ->)|(k & Hk & Hd & _ & ->)]%work_inv; unfold with_results;
      cbn [ws_jobs ws_done ws_worker ws_calls ws_results ws_world] in *.
    + eapply inv_taken; [done|done|by rewrite Ew|by rewrite Ew|left; split; [done|by exists r]].
    + eapply inv_taken; [done|done|by rewrite Ew|by rewrite Hd|by right].
  - destruct (ws_worker s) eqn:Ew; try done. destruct (ws_done s) eqn:Ed; [|done]. intros [= <-].
    apply (inv_idle s); [done|by rewrite Ew|done|done].
  - destruct (ws_worker s) eqn:Ew; try done. destruct (take_job s) as [[job s1]|] eqn:Et; [|done].
    apply take_job_Some in Et as (jobs & Ej & ->). cbn [ws_world ws_results].
    destruct (send_result _ _ _) as [results|] eqn:Es; cbn; [|done]. intros [= <-].
    unfold with_results; cbn [ws_jobs ws_done ws_worker ws_calls].
    eapply inv_taken; [done|done|by rewrite Ew|apply I|left; split; [done|eauto]].
  - destruct (ws_worker s) eqn:Ew; try done. destruct (ws_jobs s) eqn:Ej; [|done]. intros [= <-].
    apply (inv_idle s); [done|by rewrite Ew|done|]. intros _. apply I. by rewrite Ew.
Qed.

Lemma wrun_inv ls s s' : wsys_inv s -> wrun ls s = Some s' -> wsys_inv s'.
Proof.
  revert s; induction ls as [|l ls IH]; intros s I; cbn [Writer.wrun]; [by intros [= <-]|].
  destruct (wstep l s) as [s1|] eqn:E; cbn; [|done]. apply IH. by eapply wstep_inv.
Qed.

Lemma NewWriter_inv w : wsys_inv (NewWriter w).
Proof. split; cbn; [lia| |done]. intros c. by unfold call_ok, queued, ready_results; cbn; rewrite !lookup_empty. Qed.

(** ** The order of the jobs *)

(** The job a label puts into the queue. *)
Definition pushed (l : label) (s : wsys) : list writeJob :=
  match l with
  | LSubmit c => match ws_calls s !! c with Some (Submitting job) => [job] | _ => [] end
  | LTriggerPrune => if (length (ws_jobs s) <? jobs_cap)%nat then [prune_job] else []
  | _ => []
  end.

(** All the jobs of a run, in the order they entered the queue. *)
Fixpoint sent (ls : list label) (s : wsys) : list writeJob :=
  match ls with
  | [] => []
  | l :: ls => pushed l s ++ match wstep l s with Some s' => sent ls s' | None => [] end
  end.

(** The sequential reference: one job after the other. *)
Definition run_jobs (jobs : list writeJob) (w : wworld) : wworld :=
  foldl (fun w job => (run_job job w).2) w jobs.

(** [r] answers the call [c]: it is the result of the call's job at its place in
    the sequential run, or a shutdown error. *)
Definition shutdown_errors : list error :=
  [ENew "writer is shut down"; ENew "writer shut down while processing"; ENew "writer shutting down"].

Definition answers (w0 : wworld) (done : list writeJob) (c : nat) (r : writeResult) : Prop :=
  (exists pre job post, done = pre ++ job :: post /\ wj_result job = Some c /\
     (run_job job (run_jobs pre w0)).1 = JobReturns r) \/
  exists e, e ∈ shutdown_errors /\ r = failed e.

(** Jobs that all return, one after the other. *)
Fixpoint all_return (jobs : list writeJob) (w : wworld) : Prop :=
  match jobs with
  | [] => True
  | job :: jobs => (exists r, (run_job job w).1 = JobReturns r) /\ all_return jobs (run_job job w).2
  end.

Lemma all_return_app jobs1 jobs2 w : all_return (jobs1 ++ jobs2) w <-> all_return jobs1 w /\ all_return jobs2 (run_jobs jobs1 w).
Proof. revert w; induction jobs1 as [|j jobs1 IH]; intros w; cbn; [tauto|]. rewrite IH. unfold run_jobs. cbn. tauto. Qed.

Lemma send_result_elem job r results results' c x : send_result job r results = Some results' ->
  x ∈ default [] (results' !! c) -> x ∈ default [] (results !! c) \/ (wj_result job = Some c /\ x = r).
Proof.
  unfold send_result. destruct (wj_result job) as [c'|]; [|intros [= ->]; by left].
  destruct (_ <? _)%nat; [|done]. intros [= <-]. destruct (decide (c' = c)) as [->|Hne].
  - rewrite lookup_insert_eq. cbn. rewrite elem_of_app, list_elem_of_singleton. tauto.
  - rewrite lookup_insert_ne by done. by left.
Qed.

(** The jobs the worker took have returned, but for the one that holds it. *)
Definition all_back (w0 : wworld) (worked : list writeJob) (k : worker) : Prop :=
  match held k with
  | None => all_return worked w0
  | Some job => exists pre, worked = pre ++ [job] /\ all_return pre w0 /\
      forall r, (run_job job (run_jobs pre w0)).1 <> JobReturns r
  end.

Record serial (w0 : wworld) (all : list writeJob) (s : wsys) : Prop := {
  se_jobs : exists worked drained, all = worked ++ drained ++ ws_jobs s /\
    ws_world s = run_jobs worked w0 /\ (after_shutdown (ws_worker s) = false -> drained = []) /\
    (forall c r, r ∈ default [] (ws_results s !! c) -> answers w0 worked c r) /\
    (forall c r, ws_calls s !! c = Some (Returned r) -> answers w0 worked c r) /\
    all_back w0 worked (ws_worker s);
}.

Lemma run_jobs_snoc jobs job w : run_jobs (jobs ++ [job]) w = (run_job job (run_jobs jobs w)).2.
Proof. unfold run_jobs. by rewrite foldl_app. Qed.

Lemma answers_more w0 worked job c r : answers w0 worked c r -> answers w0 (worked ++ [job]) c r.
Proof.
  intros [(pre & j & post & -> & Hj & Hr)|He]; [left|by right].
  exists pre, j, (post ++ [job]). by rewrite <- app_assoc.
Qed.

Lemma answers_last w0 worked job c r : wj_result job = Some c -> (run_job job (run_jobs worked w0)).1 = JobReturns r ->
  answers w0 (worked ++ [job]) c r.
Proof. intros Hj Hr. left. by exists worked, job, []. Qed.

Lemma serial_finish w0 all s c r : (forall worked, answers w0 worked c r) -> serial w0 all s -> serial w0 all (finish c r s).
Proof.
  intros Ha [(wk & dr & H1 & H2 & H3 & H4 & H5 & H6)]. split. exists wk, dr. cbn. split_and!; try done.
  intros c' r'. destruct (decide (c = c')) as [<-|Hne].
  - rewrite lookup_insert_eq. intros [= <-]. apply Ha.
  - rewrite lookup_insert_ne by done. apply H5.
Qed.

Lemma shutdown_answers w0 worked c e : e ∈ shutdown_errors -> answers w0 worked c (failed e).
Proof. intros He. right. by exists e. Qed.

Lemma serial_begin w0 all s c job s' : begin c job s = Some s' -> serial w0 all s -> serial w0 all s'.
Proof.
  unfold begin. destruct (ws_calls s !! c) eqn:E; [done|]. intros [= <-] [(wk & dr & H1 & H2 & H3 & H4 & H5 & H6)].
  split. exists wk, dr. cbn. split_and!; try done.
  - intros c' r. destruct (decide (c = c')) as [<-|Hne].
    + rewrite lookup_insert_eq. cbn. by rewrite elem_of_nil.
    + rewrite lookup_insert_ne by done. apply H4.
  - intros c' r. destruct (decide (c = c')) as [<-|Hne]; [by rewrite lookup_insert_eq|].
    rewrite lookup_insert_ne by done. apply H5.
Qed.

Lemma serial_work w0 all s jobs job s' : held (ws_worker s) = None -> after_shutdown (ws_worker s) = false ->
  ws_jobs s = job :: jobs ->
  work N ord maxReorgDepth clock fuel job
    (mkWSys (ws_world s) jobs (ws_done s) (ws_worker s) (ws_calls s) (ws_results s)) = Some s' ->
  serial w0 all s -> serial w0 all s'.
Proof.
  intros Eh Ew Ej Es [(wk & dr & H1 & H2 & H3 & H4 & H5 & H6)]. rewrite (H3 Ew) in *. cbn in H1.
  unfold all_back in H6. rewrite Eh in H6.
  assert (Ha : all = (wk ++ [job]) ++ [] ++ jobs) by (by rewrite H1, Ej, <- app_assoc).
  apply work_inv in Es as [(r & results & Hr & Es & ->)|(k & Hk & Hd & Hr & ->)];
    unfold with_results; cbn [ws_world ws_jobs ws_done ws_worker ws_calls ws_results] in *; rewrite H2 in Hr.
  all: split; exists (wk ++ [job]), []; cbn [ws_world ws_jobs ws_worker ws_calls ws_results].
  all: split_and!; [done|by rewrite run_jobs_snoc, H2|done| |intros c x Hx; by apply answers_more, H5|].
  - intros c x Hx. destruct (send_result_elem _ _ _ _ _ _ Es Hx) as [Hin|[Hj ->]]; [by apply answers_more, H4|].
    by apply answers_last.
  - unfold all_back. rewrite Eh. apply all_return_app. split; [done|]. split; [by exists r|done].
  - intros c x Hx. by apply answers_more, H4.
  - unfold all_back. rewrite Hk. by exists wk.
Qed.

Lemma serial_drain w0 all s job jobs results : after_shutdown (ws_worker s) = true -> ws_jobs s = job :: jobs ->
  send_result job (failed (ENew "writer shutting down")) (ws_results s) = Some results ->
  serial w0 all s ->
  serial w0 all (mkWSys (ws_world s) jobs (ws_done s) (ws_worker s) (ws_calls s) results).
Proof.
  intros Ew Ej Es [(wk & dr & H1 & H2 & H3 & H4 & H5 & H6)]. split. exists wk, (dr ++ [job]). cbn. split_and!.
  - by rewrite H1, Ej, <- app_assoc.
  - done.
  - by rewrite Ew.
  - intros c x Hx. destruct (send_result_elem _ _ _ _ _ _ Es Hx) as [Hin|[Hj ->]]; [by apply H4|].
    apply shutdown_answers. unfold shutdown_errors. set_solver.
  - done.
  - done.
Qed.

Lemma serial_idle w0 all s k : held (ws_worker s) = None -> held k = None ->
  (after_shutdown k = false -> after_shutdown (ws_worker s) = false) -> serial w0 all s -> serial w0 all (with_worker s k).
Proof.
  intros Hs Hk Hd [(wk & dr & H1 & H2 & H3 & H4 & H5 & H6)]. split. exists wk, dr. cbn. split_and!; try done.
  - intros E. by apply H3, Hd.
  - unfold all_back in *. by rewrite Hk, Hs in *.
Qed.

Lemma wstep_serial w0 all l s s' : serial w0 all s -> wstep l s = Some s' -> serial w0 (all ++ pushed l s) s'.
Proof.
  intros I. unfold Writer.wstep. destruct (is_crashed (ws_worker s)); [done|].
  destruct l as [c b|c t|c|c|c|c| | | | | |]; cbn [pushed]; rewrite ?app_nil_r.
  - intros H. by eapply serial_begin.
  - intros H. by eapply serial_begin.
  - destruct (ws_calls s !! c) as [[job| |]|] eqn:E; try done.
    destruct (Nat.ltb_spec (length (ws_jobs s)) jobs_cap); [|done]. intros [= <-].
    destruct I as [(wk & dr & H1 & H2 & H3 & H4 & H5 & H6)]. split. exists wk, dr. cbn.
    split_and!; try done; [by rewrite H1, <- !app_assoc|].
    intros c' r. destruct (decide (c = c')) as [<-|Hne]; [by rewrite lookup_insert_eq|].
    rewrite lookup_insert_ne by done. apply H5.
  - destruct (ws_calls s !! c) as [[job| |]|] eqn:E; try done. destruct (ws_done s); [|done].
    intros [= <-]. apply serial_finish; [|done]. intros. apply shutdown_answers. unfold shutdown_errors. set_solver.
  - destruct (ws_calls s !! c) as [[job| |]|] eqn:E; try done.
    destruct (ws_results s !! c) as [[|r rest]|] eqn:Er; try done. intros [= <-].
    destruct I as [(wk & dr & H1 & H2 & H3 & H4 & H5 & H6)]. split. exists wk, dr. cbn. split_and!; try done.
    + intros c' x Hx. apply H4. destruct (decide (c = c')) as [<-|Hne].
      * rewrite lookup_insert_eq in Hx. rewrite Er. cbn in *. by right.
      * by rewrite lookup_insert_ne in Hx.
    + intros c' x. destruct (decide (c = c')) as [<-|Hne].
      * rewrite lookup_insert_eq. intros [= <-]. apply H4. rewrite Er. left.
      * rewrite lookup_insert_ne by done. apply H5.
  - destruct (ws_calls s !! c) as [[job| |]|] eqn:E; try done. destruct (ws_done s); [|done].
    intros [= <-]. apply serial_finish; [|done]. intros. apply shutdown_answers. unfold shutdown_errors. set_solver.
  - intros [= <-]. destruct (_ <? _)%nat; [|by rewrite app_nil_r].
    destruct I as [(wk & dr & H1 & H2 & H3 & H4 & H5 & H6)]. split. exists wk, dr. cbn.
    split_and!; try done. by rewrite H1, <- !app_assoc.
  - intros [= <-]. destruct I as [(wk & dr & H)]. split. by exists wk, dr.
  - destruct (ws_worker s) eqn:Ew; try done. destruct (take_job s) as [[job s1]|] eqn:Et; [|done].
    apply take_job_Some in Et as (jobs & Ej & ->). intros Es. eapply serial_work; [by rewrite Ew..|done|exact Es|done].
  - destruct (ws_worker s) eqn:Ew; try done. destruct (ws_done s) eqn:Ed; [|done]. intros [= <-].
    apply serial_idle; by rewrite ?Ew.
  - destruct (ws_worker s) eqn:Ew; try done. destruct (take_job s) as [[job s1]|] eqn:Et; [|done].
    apply take_job_Some in Et as (jobs & Ej & ->). cbn [ws_world ws_results].
    destruct (send_result _ _ _) as [results|] eqn:Es; cbn; [|done]. intros [= <-].
    unfold with_results; cbn [ws_jobs ws_done ws_worker ws_calls].
    eapply serial_drain; [by rewrite Ew|done..].
  - destruct (ws_worker s) eqn:Ew; try done. destruct (ws_jobs s) eqn:Ej; [|done]. intros [= <-].
    apply serial_idle; by rewrite ?Ew.
Qed.

Lemma wrun_serial w0 all ls s s' : serial w0 all s -> wrun ls s = Some s' -> serial w0 (all ++ sent ls s) s'.
Proof.
  revert all s; induction ls as [|l ls IH]; intros all s I; cbn [Writer.wrun sent].
  { intros [= <-]. by rewrite app_nil_r. }
  destruct (wstep l s) as [s1|] eqn:E; cbn; [|done]. intros H.
  rewrite app_assoc. apply IH; [|done]. by apply wstep_serial.
Qed.

(** C6: the writer is its sequential reference: for every interleaving of
    callers, worker and shutdown, the jobs that entered the queue split into
    those the worker ran, those drained at shutdown and those still queued, in
    that order; the chain manager's state is what running the first ones one
    after the other gives, each of which has returned, but for the one the worker
    is still in or has panicked in; and whatever a call has returned, or has
    waiting in its channel, is the result its own job returned at its place in
    that sequence, or a shutdown error.  Drained jobs have no effect. *)
Theorem writer_is_sequential (w0 : wworld) (ls : list label) (s : wsys)
    (Hrun : wrun ls (NewWriter w0) = Some s) :
  exists worked drained, sent ls (NewWriter w0) = worked ++ drained ++ ws_jobs s /\
    ws_world s = run_jobs worked w0 /\ (after_shutdown (ws_worker s) = false -> drained = []) /\
    (forall c r, r ∈ default [] (ws_results s !! c) -> answers w0 worked c r) /\
    (forall c r, ws_calls s !! c = Some (Returned r) -> answers w0 worked c r) /\
    all_back w0 worked (ws_worker s).
Proof.
  assert (H0 : serial w0 [] (NewWriter w0)).
  { split. exists [], []. cbn. split_and!; try done; intros c r; by rewrite lookup_empty, ?elem_of_nil. }
  pose proof (wrun_serial w0 [] ls _ s H0 Hrun) as H. rewrite app_nil_l in H. apply H.
Qed.

(** C23: the writer's channels are large enough: in every reachable state the
    queue holds at most 100 jobs and a result channel at most one result, and
    the worker never blocks on sending a result, while it works or while it
    drains. *)
Theorem writer_never_blocks (w0 : wworld) (ls : list label) (s : wsys)
    (Hrun : wrun ls (NewWriter w0) = Some s) :
  (length (ws_jobs s) <= 100)%nat /\
  (forall c, length (default [] (ws_results s !! c)) <= 1)%nat /\
  (ws_worker s = Running -> ws_jobs s <> [] -> is_Some (wstep LWork s)) /\
  (ws_worker s = Draining -> ws_jobs s <> [] -> is_Some (wstep LDrain s)).
Proof.
  pose proof (wrun_inv ls _ s (NewWriter_inv w0) Hrun) as I. split_and!.
  - apply I.
  - intros c. pose proof (call_load s c I). unfold pending, ready_results in *. lia.
  - intros Ew Hj. unfold Writer.wstep. rewrite Ew. cbn [is_crashed]. unfold take_job.
    destruct (ws_jobs s) as [|job jobs] eqn:Ej; [done|]. unfold work. cbn [ws_world ws_results].
    destruct (run_job job (ws_world s)) as [[r|e|] w]; [|by eexists..].
    destruct (send_room s job jobs r I Ej) as [results ->]. by eexists.
  - intros Ew Hj. unfold Writer.wstep. rewrite Ew. cbn [is_crashed]. unfold take_job.
    destruct (ws_jobs s) as [|job jobs] eqn:Ej; [done|]. cbn [ws_world ws_results].
    destruct (send_room s job jobs (failed (ENew "writer shutting down")) I Ej) as [results ->]. by eexists.
Qed.

(** ** Every call returns *)

Lemma wrun_app ls1 ls2 s : wrun (ls1 ++ ls2) s = wrun ls1 s ≫= wrun ls2.
Proof.
  revert s; induction ls1 as [|l ls1 IH]; intros s; [done|]. cbn [app Writer.wrun].
  destruct (wstep l s); cbn; [apply IH|done].
Qed.

(** One job that returns. *)
Lemma work_one s job jobs r : wsys_inv s -> ws_worker s = Running -> ws_jobs s = job :: jobs ->
  (run_job job (ws_world s)).1 = JobReturns r ->
  exists s1, wstep LWork s = Some s1 /\ ws_worker s1 = Running /\ ws_jobs s1 = jobs /\
    ws_calls s1 = ws_calls s /\ ws_world s1 = (run_job job (ws_world s)).2 /\ ws_done s1 = ws_done s.
Proof.
  intros I Ew Ej Er. unfold Writer.wstep. rewrite Ew. cbn [is_crashed]. unfold take_job. rewrite Ej.
  unfold work. cbn [ws_world ws_results]. destruct (run_job job (ws_world s)) as [e w]. cbn in Er. subst e.
  destruct (send_room s job jobs r I Ej) as [results ->]. eexists. split; [done|]. by rewrite <- Ew.
Qed.

(** The running worker empties the queue. *)
Lemma work_all n s : wsys_inv s -> ws_worker s = Running -> length (ws_jobs s) = n ->
  all_return (ws_jobs s) (ws_world s) ->
  exists s', wrun (replicate n LWork) s = Some s' /\ ws_worker s' = Running /\ ws_jobs s' = [] /\
    ws_calls s' = ws_calls s.
Proof.
  revert s; induction n as [|n IH]; intros s I Ew Hn Ha.
  { exists s. split_and!; [done|done|by apply nil_length_inv|done]. }
  destruct (ws_jobs s) as [|job jobs] eqn:Ej; [done|]. destruct Ha as [[r Hr] Ha].
  destruct (work_one s job jobs r I Ew Ej Hr) as (s1 & E & Ew1 & Ej1 & Ec1 & Es1 & _).
  cbn [replicate Writer.wrun]. rewrite E. cbn. cbn in Hn.
  destruct (IH s1) as (s2 & E2 & Hw2 & Hj2 & Hc2);
    [by eapply wstep_inv|done|rewrite Ej1; lia|by rewrite Ej1, Es1|].
  exists s2. split_and!; [done|done|done|by rewrite Hc2].
Qed.

Definition own (c : nat) (l : label) : Prop := l = LSubmit c \/ l = LRefused c \/ l = LReceive c \/ l = LAbandon c.
Definition own_or_worker (c : nat) (l : label) : Prop := l = LWork \/ own c l.

Definition returned (c : nat) (s : wsys) : Prop := exists r, ws_calls s !! c = Some (Returned r).

Lemma waiting_returns c s : wsys_inv s -> ws_worker s = Running -> all_return (ws_jobs s) (ws_world s) ->
  ws_calls s !! c = Some Waiting ->
  exists ls s', Forall (own_or_worker c) ls /\ (length ls <= 101)%nat /\ wrun ls s = Some s' /\ returned c s'.
Proof.
  intros I Ew Ha E.
  destruct (work_all (length (ws_jobs s)) s I Ew eq_refl Ha) as (s1 & E1 & Hw & Hj & Hc).
  pose proof (wrun_inv _ _ _ I E1) as I1. pose proof (wi_calls _ I1 c) as Hok.
  unfold call_ok, pending, queued, busy_with in Hok. rewrite Hc, E, Hj, Hw in Hok. cbn in Hok.
  unfold ready_results in Hok. destruct (ws_results s1 !! c) as [[|r rest]|] eqn:Er; try done.
  exists (replicate (length (ws_jobs s)) LWork ++ [LReceive c]).
  rewrite wrun_app, E1. cbn [mbind option_bind Writer.wrun]. unfold Writer.wstep.
  rewrite Hw. cbn [is_crashed]. rewrite Hc, E, Er. cbn. eexists. split_and!; [| |done|].
  - apply Forall_app. split; [apply Forall_replicate; by left|repeat constructor; unfold own_or_worker, own; tauto].
  - rewrite length_app, length_replicate. pose proof (wi_jobs _ I). unfold jobs_cap in *. cbn. lia.
  - eexists. cbn. by rewrite lookup_insert_eq.
Qed.

(** The job of a call that is not yet in the queue. *)
Definition own_job (k : call) : list writeJob := match k with Submitting job => [job] | _ => [] end.

(** Room in the queue for one more job. *)
Lemma make_room c s k job : wsys_inv s -> ws_worker s = Running -> all_return (ws_jobs s ++ job) (ws_world s) ->
  ws_calls s !! c = Some k ->
  exists ls s1, Forall (own_or_worker c) ls /\ (length ls <= 1)%nat /\ wrun ls s = Some s1 /\ wsys_inv s1 /\
    ws_calls s1 !! c = Some k /\ ws_worker s1 = Running /\ (length (ws_jobs s1) < jobs_cap)%nat /\
    all_return (ws_jobs s1 ++ job) (ws_world s1).
Proof.
  intros I Ew Ha Hcall. destruct (decide (length (ws_jobs s) < jobs_cap)%nat) as [Hl|Hl].
  { exists [], s. split_and!; [by constructor|cbn; lia|done..]. }
  pose proof (wi_jobs _ I) as Hcap.
  destruct (ws_jobs s) as [|j jobs] eqn:Ej; [cbn in Hl; unfold jobs_cap in Hl; lia|].
  destruct Ha as [[r Hr] Ha].
  destruct (work_one s j jobs r I Ew Ej Hr) as (s1 & E & Ew1 & Ej1 & Ec1 & Es1 & _).
  exists [LWork], s1. cbn [Writer.wrun]. rewrite E. cbn [length] in *. split_and!;
    [repeat constructor|lia|done|by eapply wstep_inv|by rewrite Ec1|done|rewrite Ej1; lia|by rewrite Ej1, Es1].
Qed.

Lemma call_completes c s k : wsys_inv s -> ws_calls s !! c = Some k -> ws_worker s = Running ->
  all_return (ws_jobs s ++ own_job k) (ws_world s) -> returned c s \/
  exists ls s', Forall (own_or_worker c) ls /\ (length ls <= 103)%nat /\ wrun ls s = Some s' /\ returned c s'.
Proof.
  intros I Hcall Ew Ha. destruct k as [job| |r]; [right|right|left; by exists r].
  2:{ cbn in Ha. rewrite app_nil_r in Ha. destruct (waiting_returns c s I Ew Ha Hcall) as (ls' & s' & ? & ? & ? & ?).
      exists ls', s'. split_and!; [done|lia|done|done]. }
  destruct (make_room c s _ _ I Ew Ha Hcall) as (ls1 & s1 & F1 & L1 & E1 & I1 & C1 & W1 & J1 & A1).
  set (s2 := mkWSys (ws_world s1) (ws_jobs s1 ++ [job]) (ws_done s1) (ws_worker s1)
    (<[c := Waiting]> (ws_calls s1)) (ws_results s1)).
  assert (E2 : wstep (LSubmit c) s1 = Some s2).
  { unfold Writer.wstep. rewrite W1. cbn [is_crashed]. rewrite C1. by rewrite (proj2 (Nat.ltb_lt _ _) J1). }
  destruct (waiting_returns c s2) as (ls3 & s3 & F3 & L3 & E3 & R3);
    [by eapply wstep_inv|done|done|by cbn; rewrite lookup_insert_eq|].
  exists (ls1 ++ LSubmit c :: ls3), s3. split_and!.
  - apply Forall_app. split; [done|]. constructor; [unfold own_or_worker, own; tauto|done].
  - rewrite length_app. cbn. lia.
  - rewrite wrun_app, E1. cbn [mbind option_bind Writer.wrun]. by rewrite E2.
  - done.
Qed.

(** After the shutdown. *)
Lemma call_gives_up c s k : is_crashed (ws_worker s) = false -> ws_done s = true -> ws_calls s !! c = Some k ->
  returned c s \/ exists l s', own c l /\ wstep l s = Some s' /\ returned c s'.
Proof.
  intros Ec Ed E. destruct k as [job| |r]; [right|right|left; by exists r].
  - exists (LRefused c). unfold Writer.wstep. rewrite Ec, E, Ed. eexists. split_and!; [unfold own; tauto|done|].
    eexists. cbn. by rewrite lookup_insert_eq.
  - exists (LAbandon c). unfold Writer.wstep. rewrite Ec, E, Ed. eexists. split_and!; [unfold own; tauto|done|].
    eexists. cbn. by rewrite lookup_insert_eq.
Qed.

(** A worker that is in a job answers nobody. *)
Definition unanswered (c : nat) (s : wsys) : Prop :=
  ws_calls s !! c = Some Waiting /\ default [] (ws_results s !! c) = [].

Lemma busy_step job l s s' : ws_worker s = Busy job -> ws_done s = false -> l <> LClose -> wstep l s = Some s' ->
  ws_worker s' = Busy job /\ ws_done s' = false /\ (forall c, unanswered c s -> unanswered c s').
Proof.
  intros Ew Ed Hl. unfold Writer.wstep. rewrite Ew, Ed. cbn [is_crashed].
  destruct l as [c b|c t|c|c|c|c| | | | | |]; try done; unfold begin, unanswered.
  all: repeat case_match; try done; intros [= <-]; cbn; rewrite ?Ew, ?Ed; split_and!; try done; intros c' [Hc Hr].
  all: destruct (decide (c = c')) as [<-|Hne]; rewrite ?lookup_insert_eq, ?lookup_insert_ne by done; try congruence; try done.
  exfalso. match goal with E : ws_results s !! c = Some (_ :: _) |- _ => rewrite E in Hr; discriminate Hr end.
Qed.

Lemma busy_run job ls s s' : ws_worker s = Busy job -> ws_done s = false -> LClose ∉ ls -> wrun ls s = Some s' ->
  ws_worker s' = Busy job /\ (forall c, unanswered c s -> unanswered c s').
Proof.
  revert s; induction ls as [|l ls IH]; intros s Ew Ed Hl; cbn [Writer.wrun]; [by intros [= <-]|].
  destruct (wstep l s) as [s1|] eqn:E; cbn; [|done]. apply not_elem_of_cons in Hl as [Hl Hls].
  destruct (busy_step job l s s1 Ew Ed ltac:(by intros ->) E) as (W1 & D1 & U1). intros H.
  destruct (IH s1 W1 D1 Hls H) as [H1 H2]. split; [done|]. intros c Hc. by apply H2, U1.
Qed.

(** C24: when a call of [IndexBlock] or [IndexMempoolTx] returns.  In every
    reachable state: while the worker runs, and the queued jobs and the call's own
    return one after the other, the call is completed by steps of the worker and
    of the call alone, at most 103 of them: no other caller, and no shutdown, is
    needed.  After the shutdown one step of its own is enough, whatever the worker
    is in.  But a job that does not return is waited for: until the shutdown, the
    worker takes no other job, and no call that waits without an answer returns,
    whatever the others do; and after a job that panics nothing moves. *)
Theorem writer_calls_return (w0 : wworld) (ls : list label) (s : wsys) (c : nat) (k : call)
    (Hrun : wrun ls (NewWriter w0) = Some s) (Hcall : ws_calls s !! c = Some k) :
  (ws_worker s = Running -> all_return (ws_jobs s ++ own_job k) (ws_world s) ->
     returned c s \/
     exists ls' s', Forall (own_or_worker c) ls' /\ (length ls' <= 103)%nat /\ wrun ls' s = Some s' /\
       returned c s') /\
  (ws_done s = true -> is_crashed (ws_worker s) = false ->
     returned c s \/ exists l s', own c l /\ wstep l s = Some s' /\ returned c s') /\
  (forall job, ws_worker s = Busy job -> ws_done s = false -> unanswered c s ->
     forall ls' s', LClose ∉ ls' -> wrun ls' s = Some s' -> ws_worker s' = Busy job /\ unanswered c s') /\
  (is_crashed (ws_worker s) = true -> forall l, wstep l s = None).
Proof.
  pose proof (wrun_inv ls _ s (NewWriter_inv w0) Hrun) as I. split_and!.
  - by apply call_completes.
  - intros Hd Hc. by eapply call_gives_up.
  - intros job Ew Ed Hu ls' s' Hl Hr. destruct (busy_run job ls' s s' Ew Ed Hl Hr) as [H1 H2]. auto.
  - intros Hc l. unfold Writer.wstep. by rewrite Hc.
Qed.

End WriterProps.

(** ** The scripthashes of a block *)

Section Affected.
Context {P : Pebble} {PL : PebbleLaws P} {PH : PebbleHealthy P PL} {B : Btcd} {BL : BtcdLaws B}.
Context {Zs : Zstd} {ZL : ZstdLaws Zs}.

(** What a block touches according to the database [c]: the owners of the
    outputs it spends that are known there, and those it pays. *)
Definition input_owner (c : gmap bytes bytes) (i : OutPoint) : option bytes :=
  if IsCoinbaseInput i then None else c !! tkey (op_Hash i) (op_Index i).

Definition block_affects (c : gmap bytes bytes) (txs : list MsgTx) (sh : bytes) : Prop :=
  exists tx, tx ∈ txs /\
    ((exists i, i ∈ tx_TxIn tx /\ input_owner c i = Some sh) \/
     (exists o, o ∈ tx_TxOut tx /\ indexable o = true /\ sh = ComputeScripthash (to_PkScript o))).

(** A loop that adds the scripthashes [f] to a set. *)
Definition adds (S : gset string) (Q : bytes -> Prop) (S' : gset string) : Prop :=
  forall x, x ∈ S' <-> x ∈ S \/ exists sh, Q sh /\ x = EncodeToString sh.

Lemma affected_input_run S i w : working w -> length (op_Hash i) = 32%nat ->
  exists S' w', affected_input S i w = (Ok S', w') /\ quiet w w' /\
    adds S (fun sh => input_owner (contents (w_db (cm_world w))) i = Some sh) S'.
Proof.
  intros Hw Hl. unfold affected_input, input_owner. destruct (IsCoinbaseInput i).
  { exists S, w. split_and!; [done|by apply quiet_refl|]. intros x. naive_solver. }
  set (o := contents (w_db (cm_world w)) !! tkey (op_Hash i) (op_Index i)).
  assert (Hr : reads (GetScripthashForOutpoint (op_Hash i) (op_Index i)) (w_db (cm_world w)) o).
  { unfold GetScripthashForOutpoint. eapply reads_get; [apply Hw|by apply wrap_Ok, MakeTxIndexKey_Ok|].
    intros w' _. change (PrefixTxIndex :: op_Hash i ++ be_encode 4 (op_Index i)) with (tkey (op_Hash i) (op_Index i)).
    fold o. by destruct o. }
  destruct (on_db_reads _ w o Hw Hr) as (w1 & E & Q).
  rewrite (st_bind_run _ _ _ _ _ (st_try_run _ _ _ _ E)).
  destruct o as [sh|]; eexists _, w1; (split_and!; [done|done|]); intros x.
  - rewrite elem_of_union, elem_of_singleton. naive_solver.
  - naive_solver.
Qed.

Lemma affected_inputs_run l S w : working w -> Forall (fun i => length (op_Hash i) = 32%nat) l ->
  exists S' w', st_foldM affected_input S l w = (Ok S', w') /\ quiet w w' /\
    adds S (fun sh => exists i, i ∈ l /\ input_owner (contents (w_db (cm_world w))) i = Some sh) S'.
Proof.
  revert S w; induction l as [|i l IH]; intros S w Hw Hl.
  { exists S, w. split_and!; [done|by apply quiet_refl|]. intros x. set_solver. }
  apply Forall_cons in Hl as [Hi Hl]. cbn [st_foldM].
  destruct (affected_input_run S i w Hw Hi) as (S1 & w1 & E1 & Q1 & A1).
  rewrite (st_bind_run _ _ _ _ _ E1).
  destruct (IH S1 w1) as (S2 & w2 & E2 & Q2 & A2); [apply Q1|done|].
  exists S2, w2. split_and!; [done|by eapply quiet_trans|]. intros x. rewrite (A2 x), (A1 x).
  rewrite (proj2 (proj2 Q1)). set_solver.
Qed.

Lemma affected_outputs l S : adds S (fun sh => exists o, o ∈ l /\ indexable o = true /\
    sh = ComputeScripthash (to_PkScript o)) (foldl affected_output S l).
Proof.
  revert S; induction l as [|o l IH]; intros S x; [set_solver|]. cbn [foldl]. rewrite (IH _ x).
  assert (H : x ∈ affected_output S o <-> x ∈ S \/
    (indexable o = true /\ x = EncodeToString (ComputeScripthash (to_PkScript o)))).
  { unfold affected_output, indexable. destruct (IsOpReturn _); cbn; [naive_solver|].
    destruct (to_Value o =? 0); cbn; [naive_solver|]. rewrite elem_of_union, elem_of_singleton. naive_solver. }
  rewrite H. split.
  - intros [[Hx|[Hi ->]]|(sh & (o' & Ho & Hi & ->) & ->)]; [by left| |];
      right; eexists; (split; [|done]); eexists; rewrite elem_of_cons; eauto.
  - intros [Hx|(sh & (o' & [->|Ho]%elem_of_cons & Hi & ->) & ->)]; [by left; left|by left; right|].
    right. eexists. split; [|done]. by exists o'.
Qed.

Lemma affected_txs_run l S w : working w ->
  exists S' w', st_foldM affected_tx S l w = (Ok S', w') /\ quiet w w' /\
    adds S (block_affects (contents (w_db (cm_world w))) l) S'.
Proof.
  revert S w; induction l as [|tx l IH]; intros S w Hw.
  { exists S, w. split_and!; [done|by apply quiet_refl|]. intros x. unfold block_affects. set_solver. }
  cbn [st_foldM].
  destruct (affected_inputs_run (tx_TxIn tx) S w Hw) as (S1 & w1 & E1 & Q1 & A1).
  { apply Forall_forall. intros i Hi. by apply (tx_TxIn_wf tx i). }
  pose proof (affected_outputs (tx_TxOut tx) S1) as A2. set (S2 := foldl affected_output S1 (tx_TxOut tx)) in *.
  assert (Et : affected_tx S tx w = (Ok S2, w1))
    by (unfold affected_tx; by rewrite (st_bind_run _ _ _ _ _ E1)).
  rewrite (st_bind_run _ _ _ _ _ Et).
  destruct (IH S2 w1) as (S3 & w3 & E3 & Q3 & A3); [apply Q1|].
  exists S3, w3. split_and!; [done|by eapply quiet_trans|]. intros x. rewrite (A3 x), (A2 x), (A1 x).
  rewrite (proj2 (proj2 Q1)). unfold block_affects. setoid_rewrite elem_of_cons. naive_solver.
Qed.

(** What gets a history entry is affected. *)
Lemma touched_affects c bh h i tx txs sh : txs !! i = Some tx ->
  sh ∈ tx_touched c bh h (i, tx) -> block_affects c txs sh.
Proof.
  intros Htx Hsh. exists tx. split; [by eapply list_elem_of_lookup_2|]. unfold tx_touched in Hsh.
  apply list_elem_of_fmap in Hsh as (o & -> & Ho). apply elem_of_app in Ho as [Ho|Ho].
  - left. unfold tx_spent in Ho. destruct (_ =? _)%nat; [by apply elem_of_nil in Ho|].
    apply list_elem_of_omap in Ho as (op & Hop & E1). exists op. split; [done|]. unfold input_owner.
    unfold spent_by in E1. destruct (IsCoinbaseInput op); [done|].
    destruct (c !! tkey _ _) as [sh|]; [|done]. cbn in E1.
    destruct (_ !! ukey _ _ _) as [bs|]; [|done]. cbn in E1. destruct (DecodeUTXOValue bs); [|done].
    by injection E1 as <-.
  - right. unfold tx_created in Ho. apply list_elem_of_omap in Ho as ([v out] & Hv & E1).
    exists out. rewrite created_by_indexable in E1. cbn in E1. destruct (indexable out) eqn:Ei; [|done].
    split_and!; [|done|by injection E1 as <-]. unfold indexed in Hv.
    apply elem_of_lookup_imap_1 in Hv as (n & y & [= -> ->] & Hy). by eapply list_elem_of_lookup_2.
Qed.

(** The scripthashes reported for a block are exactly the owners of its
    outputs and of those outputs it spends that were confirmed before it, each
    once; every scripthash that the block gives a history entry, when it is
    indexed in that state, is among them, so its subscribers are notified.  The
    database is only read. *)
Theorem affected_scripthashes_exact (ord : range_order) (block : MsgBlock) (w : cworld) (Hw : working w) :
  exists l w', collectAffectedScripthashes ord block w = (Ok l, w') /\ NoDup l /\ quiet w w' /\
    (forall x, x ∈ l <-> exists sh, block_affects (contents (w_db (cm_world w))) (block_Transactions block) sh /\
       x = EncodeToString sh) /\
    (forall bh h i tx sh, block_Transactions block !! i = Some tx ->
       sh ∈ tx_touched (contents (w_db (cm_world w))) bh h (i, tx) -> EncodeToString sh ∈ l).
Proof.
  destruct (affected_txs_run (block_Transactions block) ∅ w Hw) as (S & w' & E & Q & A).
  exists (range_set ord 9 S), w'. unfold collectAffectedScripthashes.
  rewrite (st_bind_run _ _ _ _ _ E).
  assert (Hl : forall x, x ∈ range_set ord 9 S <-> exists sh,
    block_affects (contents (w_db (cm_world w))) (block_Transactions block) sh /\ x = EncodeToString sh).
  { intros x. rewrite elem_of_range_set, (A x). set_solver. }
  split_and!; [done|apply NoDup_range_set|done|done|].
  intros bh h i tx sh Htx Hsh. apply Hl. exists sh. split; [|done]. by eapply touched_affects.
Qed.

(** On an empty database without a start height, a block above the next one
    starts a catch-up that goes on for ever. *)
Lemma stuck_block (N : node) (ord : range_order) (maxReorgDepth : Z) (clock : nat -> Z) (fuel : nat)
    (nb : Z -> MsgBlock) (top h : Z) (w : wworld) (HS : serves N nb top) (Hh : 2 <= h <= top)
    (Hgenesis : block_hash (nb 0) <> zero_hash) (Hprev : block_hash (nb (h - 1)) <> zero_hash)
    (Hw : working (ww_cm w)) (Hempty : contents (w_db (cm_world (ww_cm w))) !! KeyCheckpoint = None)
    (Hfresh : currentHeight (ww_cm w) = 0 /\ currentHash (ww_cm w) = zero_hash) :
  (run_job N ord maxReorgDepth clock fuel (IndexBlock_job (Some (nb h)) 0) w).1 = JobRuns.
Proof.
  destruct (affected_scripthashes_exact ord (nb h) (ww_cm w) Hw) as (l & c & Ec & _ & ((T1 & T2 & T3 & T4) & Hc & Hcc) & _).
  destruct Hfresh as [F1 F2]. pose proof (sv_top _ _ _ HS) as Ht.
  assert (Ep : exists e c', ProcessBlock N ord maxReorgDepth fuel (nb h) c = (Err e, c') /\
    is_panic e = false /\ unreturned e = true).
  { destruct fuel as [|f]; [by exists out_of_fuel, c|]. cbn [ProcessBlock].
    rewrite (st_bind_run (st_gets id) _ c c c) by done.
    assert (Epv : header_PrevBlock (block_Header (nb h)) = block_hash (nb (h - 1)))
      by (rewrite <- (sv_prev _ _ _ HS) by lia; by replace (h - 1 + 1) with h by lia).
    rewrite Epv, T2, F2.
    destruct (hash_IsEqual _ _) eqn:Eq; [by apply hash_IsEqual_eq in Eq|].
    rewrite (st_bind_run (st_wrap _ _) _ c h (called c))
      by (apply st_wrap_Ok; rewrite GetBlockHeaderVerbose_run; f_equal; by apply (sv_height _ _ _ HS); lia).
    unfold id. rewrite T1, F1. destruct (Z.leb_spec h 0); [lia|].
    destruct (Z.ltb_spec (i32 (0 + 1)) h) as [_|Hge]; [|change (i32 (0 + 1)) with 1 in Hge; lia].
    rewrite i32_id by (unfold in_i32; lia).
    pose proof (full_index_never_starts N ord maxReorgDepth nb top (h - 1) (called c) f HS ltac:(lia) Hgenesis
      (wk_healthy _ Hc) ltac:(by cbn; rewrite Hcc) ltac:(split; [by cbn; rewrite T1|by cbn; rewrite T2])) as HC.
    unfold mbind, st_bind, st_wrap.
    destruct (CatchUpTo N ord maxReorgDepth f (h - 1) (called c)) as [r c']. cbn in HC. subst r. by eexists _, c'. }
  destruct Ep as (e & c' & Ep & Hp & Hu).
  unfold run_job, processJob. cbn [wj_jobType IndexBlock_job wj_block]. unfold processBlockJob.
  rewrite (st_bind_run (on_cm _) _ w l (mkWWorld c (blocksIndexed w) (mempoolTxsAdded w) (lastBlockTime w) (ww_jobs w)))
    by (unfold on_cm; by rewrite Ec).
  unfold mbind, st_bind, st_try, on_cm. cbn [ww_cm]. rewrite Ep. cbn. unfold job_failed. by rewrite Hp, Hu.
Qed.

End Affected.

(** ** Witnesses *)

Definition sample_clock (n : nat) : Z := 1700000000 + Z.of_nat n.
Definition sample_writer : wworld := mkWWorld manager1 0 0 None 0.

(** Two callers; the worker serves the first, the program shuts down, the second
    is drained. *)
Definition sample_run : list (@label ModelBtcd) :=
  [LIndexBlock 0 (Some (node_chain 2)); LIndexBlock 1 (Some (node_chain 3)); LSubmit 0; LTriggerPrune;
   LWork; LSubmit 1; LReceive 0; LWork; LClose; LStop; LDrain; LAbandon 1; LExit].

Definition sample_end : wsys :=
  default (NewWriter sample_writer)
    (wrun sample_node id_order 10 sample_clock 2 sample_run (NewWriter sample_writer)).

Lemma sample_run_ok :
  wrun sample_node id_order 10 sample_clock 2 sample_run (NewWriter sample_writer) = Some sample_end.
Proof.
  unfold sample_end. apply Some_default. apply (bool_decide_eq_true_1 _). vm_compute. reflexivity.
Qed.

Lemma writer_is_sequential_witness :
  exists worked drained, sent sample_node id_order 10 sample_clock 2 sample_run (NewWriter sample_writer) =
      worked ++ drained ++ ws_jobs sample_end /\
    ws_world sample_end = run_jobs sample_node id_order 10 sample_clock 2 worked sample_writer.
Proof.
  destruct (writer_is_sequential sample_node id_order 10 sample_clock 2 sample_writer sample_run sample_end
    sample_run_ok) as (wk & dr & H1 & H2 & _).
  exists wk, dr. split; [exact H1|exact H2].
Defined.

Lemma writer_never_blocks_witness : (length (ws_jobs sample_end) <= 100)%nat.
Proof.
  exact (proj1 (writer_never_blocks sample_node id_order 10 sample_clock 2 sample_writer sample_run sample_end
    sample_run_ok)).
Defined.

(** A call that has just begun. *)
Definition sample_pending : wsys :=
  mkWSys sample_writer [] false Running (<[0%nat := Submitting (IndexBlock_job (Some (node_chain 2)) 0)]> ∅)
    (<[0%nat := []]> ∅).

Lemma writer_calls_return_witness :
  exists ls' s', (length ls' <= 103)%nat /\
    wrun sample_node id_order 10 sample_clock 2 ls' sample_pending = Some s' /\ returned 0 s'.
Proof.
  destruct (writer_calls_return sample_node id_order 10 sample_clock 2 sample_writer
    [LIndexBlock 0 (Some (node_chain 2))] sample_pending 0 (Submitting (IndexBlock_job (Some (node_chain 2)) 0)))
    as (H & _); [reflexivity|apply lookup_insert_eq|].
  destruct (H eq_refl) as [[r Hr]|(ls' & s' & _ & H1 & H2 & H3)].
  - split; [eexists; vm_compute; reflexivity|exact I].
  - discriminate Hr.
  - exists ls', s'. split; [exact H1|split; [exact H2|exact H3]].
Defined.

(** A job that never returns, whatever the fuel: on an empty database without a
    start height, the block at height 2 is not the next one, and catching up to
    height 1 goes on for ever.  The worker is [Busy] from then on. *)
Definition sample_empty : wworld := mkWWorld manager0 0 0 None 0.

Lemma stuck_job (fuel : nat) :
  (run_job sample_node id_order 10 sample_clock fuel (IndexBlock_job (Some (node_chain 2)) 0) sample_empty).1 = JobRuns.
Proof.
  apply (stuck_block sample_node id_order 10 sample_clock fuel node_chain 3 2 sample_empty sample_serves);
    [lia|discriminate|discriminate|exact manager0_working|reflexivity|split; reflexivity].
Qed.

Lemma affected_scripthashes_exact_witness :
  exists l w', collectAffectedScripthashes id_order block2 manager1 = (Ok l, w') /\ NoDup l.
Proof.
  destruct (affected_scripthashes_exact id_order block2 manager1 manager1_working) as (l & w' & H1 & H2 & _).
  exists l, w'. split; [exact H1|exact H2].
Defined.
