(* ===== verification/Zmq.v ===== *)
(** * The ZMQ subscriber: [internal/indexer/zmq.go]

    Two goroutines receive multi-part messages from the node, check their
    sequence numbers, decode them and send the blocks and transactions on
    bounded channels, waiting when one is full; events of sequence gaps go on a
    third channel, and are dropped when it is full.  A message is the list of
    its parts.  The sockets are left to [Stream]: a message or an error of
    one arrives as a [zlabel], with [zstep] its effect, beside the receives of
    the main loop and [Stop].  btcd's decoding is an argument. *)

From Stdlib Require Import Strings.Byte.
From S2P Require Import Prelude Bytes Hex Sha256 Types.

Inductive zstream := SBlock | STx.

Record ZMQGapEvent := mkZMQGapEvent { ge_Stream : zstream; ge_Expected : Z; ge_Got : Z }.

Section Zmq.
Context {B : Btcd}.

(** [z_pending_block] is the block the goroutine waits to send. *)
Record ZMQSubscriber := mkZMQSubscriber {
  z_blockChan : list MsgBlock;
  z_txChan : list MsgTx;
  z_gapChan : list ZMQGapEvent;
  z_done : bool;
  z_blocksReceived : Z;
  z_txsReceived : Z;
  z_errors : Z;
  z_lastBlockSeq : Z;
  z_lastTxSeq : Z;
  z_seqGapsBlock : Z;
  z_seqGapsTx : Z;
  z_pending_block : option MsgBlock;
  z_pending_tx : option MsgTx;
}.

Definition NewZMQSubscriber : ZMQSubscriber := mkZMQSubscriber [] [] [] false 0 0 0 0 0 0 0 None None.

Context (block_Deserialize : bytes -> result MsgBlock) (tx_Deserialize : bytes -> result MsgTx).
Context (BlockChanSize TxChanSize : nat).

Definition gapChanSize : nat := 10.

(** A non-blocking send of a gap event. *)
Definition send_gap (e : ZMQGapEvent) (gaps : list ZMQGapEvent) : list ZMQGapEvent :=
  if (length gaps <? gapChanSize)%nat then gaps ++ [e] else gaps.

(** [last != 0 && seq != last+1] *)
Definition is_gap (last seq : Z) : bool := negb (last =? 0) && negb (seq =? u32 (last + 1)).

Definition sequence (s : zstream) (seq : Z) (z : ZMQSubscriber) : ZMQSubscriber :=
  match s with
  | SBlock =>
      let gap := is_gap (z_lastBlockSeq z) seq in
      mkZMQSubscriber (z_blockChan z) (z_txChan z)
        (if gap then send_gap (mkZMQGapEvent SBlock (u32 (z_lastBlockSeq z + 1)) seq) (z_gapChan z) else z_gapChan z)
        (z_done z) (z_blocksReceived z) (z_txsReceived z) (z_errors z) seq (z_lastTxSeq z)
        (if gap then i64 (z_seqGapsBlock z + 1) else z_seqGapsBlock z) (z_seqGapsTx z)
        (z_pending_block z) (z_pending_tx z)
  | STx =>
      let gap := is_gap (z_lastTxSeq z) seq in
      mkZMQSubscriber (z_blockChan z) (z_txChan z)
        (if gap then send_gap (mkZMQGapEvent STx (u32 (z_lastTxSeq z + 1)) seq) (z_gapChan z) else z_gapChan z)
        (z_done z) (z_blocksReceived z) (z_txsReceived z) (z_errors z) (z_lastBlockSeq z) seq
        (z_seqGapsBlock z) (if gap then i64 (z_seqGapsTx z + 1) else z_seqGapsTx z)
        (z_pending_block z) (z_pending_tx z)
  end.

(** [None] for fewer than four bytes. *)
Definition sequence_number (seqBytes : bytes) : option Z :=
  if (length seqBytes <? 4)%nat then None else Some (le_decode (take 4 seqBytes)).

Definition handleSequence (s : zstream) (seqBytes : bytes) (z : ZMQSubscriber) : ZMQSubscriber :=
  match sequence_number seqBytes with Some seq => sequence s seq z | None => z end.

Definition add_error (z : ZMQSubscriber) : ZMQSubscriber :=
  mkZMQSubscriber (z_blockChan z) (z_txChan z) (z_gapChan z) (z_done z) (z_blocksReceived z) (z_txsReceived z)
    (i64 (z_errors z + 1)) (z_lastBlockSeq z) (z_lastTxSeq z) (z_seqGapsBlock z) (z_seqGapsTx z)
    (z_pending_block z) (z_pending_tx z).

(** A message, up to the send of what it holds. *)
Definition with_block (block : MsgBlock) (z : ZMQSubscriber) : ZMQSubscriber :=
  mkZMQSubscriber (z_blockChan z) (z_txChan z) (z_gapChan z) (z_done z) (i64 (z_blocksReceived z + 1))
    (z_txsReceived z) (z_errors z) (z_lastBlockSeq z) (z_lastTxSeq z) (z_seqGapsBlock z) (z_seqGapsTx z)
    (Some block) (z_pending_tx z).

Definition with_tx (tx : MsgTx) (z : ZMQSubscriber) : ZMQSubscriber :=
  mkZMQSubscriber (z_blockChan z) (z_txChan z) (z_gapChan z) (z_done z) (z_blocksReceived z)
    (i64 (z_txsReceived z + 1)) (z_errors z) (z_lastBlockSeq z) (z_lastTxSeq z) (z_seqGapsBlock z) (z_seqGapsTx z)
    (z_pending_block z) (Some tx).

Definition recvBlock (msg : list bytes) (z : ZMQSubscriber) : ZMQSubscriber :=
  match msg with
  | topic :: blockData :: rest =>
      let z := match rest with seqBytes :: _ => handleSequence SBlock seqBytes z | [] => z end in
      match block_Deserialize blockData with
      | Err _ => add_error z
      | Ok block => with_block block z
      end
  | _ => z
  end.

Definition recvTx (msg : list bytes) (z : ZMQSubscriber) : ZMQSubscriber :=
  match msg with
  | topic :: txData :: rest =>
      let z := match rest with seqBytes :: _ => handleSequence STx seqBytes z | [] => z end in
      match tx_Deserialize txData with
      | Err _ => add_error z
      | Ok tx => with_tx tx z
      end
  | _ => z
  end.

Inductive zlabel :=
| ZBlockMsg (msg : list bytes)      (* the block socket has a message *)
| ZTxMsg (msg : list bytes)
| ZBlockSend                        (* z.blockChan <- &block *)
| ZTxSend
| ZError                            (* a socket fails; it is opened again *)
| ZTakeBlock                        (* the main loop receives *)
| ZTakeTx
| ZTakeGap
| ZStop                             (* z.cancel() *)
| ZDropBlock                        (* the send's ctx.Done() *)
| ZDropTx.

Definition set_chans (bs : list MsgBlock) (ts : list MsgTx) (gs : list ZMQGapEvent) (done : bool)
    (pb : option MsgBlock) (pt : option MsgTx) (z : ZMQSubscriber) : ZMQSubscriber :=
  mkZMQSubscriber bs ts gs done (z_blocksReceived z) (z_txsReceived z) (z_errors z) (z_lastBlockSeq z)
    (z_lastTxSeq z) (z_seqGapsBlock z) (z_seqGapsTx z) pb pt.

Definition zstep (l : zlabel) (z : ZMQSubscriber) : option ZMQSubscriber :=
  match l with
  | ZBlockMsg msg =>
      match z_pending_block z with
      | None => Some (recvBlock msg z)
      | Some _ => None
      end
  | ZTxMsg msg =>
      match z_pending_tx z with
      | None => Some (recvTx msg z)
      | Some _ => None
      end
  | ZBlockSend =>
      match z_pending_block z with
      | Some block =>
          if (length (z_blockChan z) <? BlockChanSize)%nat
          then Some (set_chans (z_blockChan z ++ [block]) (z_txChan z) (z_gapChan z) (z_done z) None
                       (z_pending_tx z) z)
          else None
      | None => None
      end
  | ZTxSend =>
      match z_pending_tx z with
      | Some tx =>
          if (length (z_txChan z) <? TxChanSize)%nat
          then Some (set_chans (z_blockChan z) (z_txChan z ++ [tx]) (z_gapChan z) (z_done z)
                       (z_pending_block z) None z)
          else None
      | None => None
      end
  | ZError => Some (add_error z)
  | ZTakeBlock =>
      match z_blockChan z with
      | _ :: bs => Some (set_chans bs (z_txChan z) (z_gapChan z) (z_done z) (z_pending_block z) (z_pending_tx z) z)
      | [] => None
      end
  | ZTakeTx =>
      match z_txChan z with
      | _ :: ts => Some (set_chans (z_blockChan z) ts (z_gapChan z) (z_done z) (z_pending_block z) (z_pending_tx z) z)
      | [] => None
      end
  | ZTakeGap =>
      match z_gapChan z with
      | _ :: gs => Some (set_chans (z_blockChan z) (z_txChan z) gs (z_done z) (z_pending_block z) (z_pending_tx z) z)
      | [] => None
      end
  | ZStop => Some (set_chans (z_blockChan z) (z_txChan z) (z_gapChan z) true (z_pending_block z) (z_pending_tx z) z)
  | ZDropBlock =>
      match z_pending_block z with
      | Some _ => if z_done z
                  then Some (set_chans (z_blockChan z) (z_txChan z) (z_gapChan z) true None (z_pending_tx z) z)
                  else None
      | None => None
      end
  | ZDropTx =>
      match z_pending_tx z with
      | Some _ => if z_done z
                  then Some (set_chans (z_blockChan z) (z_txChan z) (z_gapChan z) true (z_pending_block z) None z)
                  else None
      | None => None
      end
  end.

Fixpoint zrun (ls : list zlabel) (z : ZMQSubscriber) : option ZMQSubscriber :=
  match ls with
  | [] => Some z
  | l :: ls => z ← zstep l z; zrun ls z
  end.

(** [Stats] *)
Record ZMQStats := mkZMQStats {
  zs_BlocksReceived : Z; zs_TxsReceived : Z; zs_Errors : Z; zs_BlockQueueLen : nat; zs_TxQueueLen : nat;
  zs_SeqGapsBlock : Z; zs_SeqGapsTx : Z;
}.

Definition Stats (z : ZMQSubscriber) : ZMQStats :=
  mkZMQStats (z_blocksReceived z) (z_txsReceived z) (z_errors z) (length (z_blockChan z)) (length (z_txChan z))
    (z_seqGapsBlock z) (z_seqGapsTx z).

(** ** Reconnecting: the waits of [subscribeBlocks], in seconds *)

Definition maxBackoff : Z := 30.
Definition minDuration (a b : Z) : Z := if a <? b then a else b.
Definition next_backoff (backoff : Z) : Z := minDuration (backoff * 2) maxBackoff.

(** ** Properties *)

(** What arrived, decoded, and the sequence numbers that arrived. *)
Definition block_of (l : zlabel) : option MsgBlock :=
  match l with
  | ZBlockMsg (_ :: blockData :: _) => to_option (block_Deserialize blockData)
  | _ => None
  end.
Definition tx_of (l : zlabel) : option MsgTx :=
  match l with
  | ZTxMsg (_ :: txData :: _) => to_option (tx_Deserialize txData)
  | _ => None
  end.
Definition seq_of (s : zstream) (l : zlabel) : option Z :=
  match s, l with
  | SBlock, ZBlockMsg (_ :: _ :: seqBytes :: _) => sequence_number seqBytes
  | STx, ZTxMsg (_ :: _ :: seqBytes :: _) => sequence_number seqBytes
  | _, _ => None
  end.

(** What the main loop took. *)
Definition took_block (l : zlabel) (z : ZMQSubscriber) : list MsgBlock :=
  match l with ZTakeBlock => take 1 (z_blockChan z) | _ => [] end.
Definition took_tx (l : zlabel) (z : ZMQSubscriber) : list MsgTx :=
  match l with ZTakeTx => take 1 (z_txChan z) | _ => [] end.

Fixpoint taken {A} (took : zlabel -> ZMQSubscriber -> list A) (ls : list zlabel) (z : ZMQSubscriber) : list A :=
  match ls with
  | [] => []
  | l :: ls => took l z ++ match zstep l z with Some z => taken took ls z | None => [] end
  end.

(** The losses a list of sequence numbers shows: the neighbours that are not
    consecutive modulo 2^32, except those after a 0. *)
Definition shows_loss (ab : Z * Z) : bool :=
  negb (bool_decide (ab.1 = 0)) && negb (bool_decide (ab.2 = (ab.1 + 1) `mod` 2 ^ 32)).
Definition losses (seqs : list Z) : Z := Z.of_nat (length (filter (fun ab => shows_loss ab = true) (zip seqs (tail seqs)))).

(** Counted from the last number before, 0 for none. *)
Fixpoint gaps_after (last : Z) (seqs : list Z) : Z :=
  match seqs with
  | [] => 0
  | s :: seqs => (if is_gap last s then 1 else 0) + gaps_after s seqs
  end.

Lemma gaps_after_losses s seqs : gaps_after s seqs = losses (s :: seqs).
Proof.
  unfold losses. cbn [tail]. revert s; induction seqs as [|s' seqs IH]; intros s; [done|].
  cbn [gaps_after]. rewrite (IH s').
  change (zip (s :: s' :: seqs) (s' :: seqs)) with ((s, s') :: zip (s' :: seqs) seqs). rewrite filter_cons.
  assert (E : is_gap s s' = shows_loss (s, s')).
  { unfold is_gap, shows_loss. cbn [fst snd]. fold (u32 (s + 1)).
    f_equal; f_equal; [destruct (Z.eqb_spec s 0)|destruct (Z.eqb_spec s' (u32 (s + 1)))]; by case_bool_decide. }
  rewrite E. destruct (shows_loss (s, s')); case_decide; try done; cbn [length]; lia.
Qed.

Lemma gaps_after_zero seqs : gaps_after 0 seqs = losses seqs.
Proof. destruct seqs as [|s seqs]; [done|]. cbn [gaps_after]. by rewrite gaps_after_losses. Qed.

(** The invariant of a run. *)
Record zinv (bs : list MsgBlock) (ts : list MsgTx) (gb gt : Z) (z : ZMQSubscriber) : Prop := {
  zi_blocks : bs = z_blockChan z ++ option_list (z_pending_block z);
  zi_txs : ts = z_txChan z ++ option_list (z_pending_tx z);
  zi_block_cap : (length (z_blockChan z) <= BlockChanSize)%nat;
  zi_tx_cap : (length (z_txChan z) <= TxChanSize)%nat;
  zi_gap_cap : (length (z_gapChan z) <= gapChanSize)%nat;
  zi_gaps_block : z_seqGapsBlock z = i64 gb;
  zi_gaps_tx : z_seqGapsTx z = i64 gt;
}.

Lemma zinv_gap s seq bs ts gb gt z : zinv bs ts gb gt z ->
  zinv bs ts
    (match s with SBlock => gb + (if is_gap (z_lastBlockSeq z) seq then 1 else 0) | STx => gb end)
    (match s with SBlock => gt | STx => gt + (if is_gap (z_lastTxSeq z) seq then 1 else 0) end)
    (sequence s seq z).
Proof.
  assert (Hcap : forall e gs, (length gs <= gapChanSize)%nat -> (length (send_gap e gs) <= gapChanSize)%nat).
  { intros e gs. unfold send_gap. destruct (Nat.ltb_spec (length gs) gapChanSize); [|done].
    rewrite length_app. cbn. lia. }
  assert (Hi : forall a b, a = i64 b -> i64 (a + 1) = i64 (b + 1)).
  { intros a b ->. unfold i64. rewrite Z.add_shuffle0. f_equal.
    replace ((b + 2 ^ 63) `mod` 2 ^ 64 - 2 ^ 63 + 2 ^ 63 + 1) with ((b + 2 ^ 63) `mod` 2 ^ 64 + 1) by lia.
    rewrite Zplus_mod_idemp_l. f_equal. lia. }
  intros [H1 H2 H3 H4 H5 H6 H7]. destruct s; unfold sequence; destruct (is_gap _ seq);
    split; cbn; auto; by rewrite Z.add_0_r.
Qed.

(** The numbers a label brings change the count, and the last number. *)
Definition last_after (s : zstream) (l : zlabel) (last : Z) : Z := default last (seq_of s l).
Definition gap_of (s : zstream) (l : zlabel) (last : Z) : Z :=
  match seq_of s l with Some seq => if is_gap last seq then 1 else 0 | None => 0 end.

Definition not_dropped (l : zlabel) : Prop := l <> ZDropBlock /\ l <> ZDropTx.

Lemma zinv_seq s l last seqs : gaps_after last (option_list (seq_of s l) ++ seqs) =
  gap_of s l last + gaps_after (last_after s l last) seqs.
Proof. unfold gap_of, last_after. by destruct (seq_of s l). Qed.

(** The state after the sequence number of a message. *)
Definition after_seq (s : zstream) (rest : list bytes) (z : ZMQSubscriber) : ZMQSubscriber :=
  match rest with seqBytes :: _ => handleSequence s seqBytes z | [] => z end.

Lemma after_seq_inv s t d rest bs ts gb gt z (l : zlabel) :
  l = match s with SBlock => ZBlockMsg (t :: d :: rest) | STx => ZTxMsg (t :: d :: rest) end ->
  zinv bs ts gb gt z ->
  zinv bs ts (gb + gap_of SBlock l (z_lastBlockSeq z)) (gt + gap_of STx l (z_lastTxSeq z)) (after_seq s rest z) /\
  z_lastBlockSeq (after_seq s rest z) = last_after SBlock l (z_lastBlockSeq z) /\
  z_lastTxSeq (after_seq s rest z) = last_after STx l (z_lastTxSeq z) /\
  z_pending_block (after_seq s rest z) = z_pending_block z /\ z_pending_tx (after_seq s rest z) = z_pending_tx z.
Proof.
  intros -> Hi. unfold after_seq, handleSequence, gap_of, last_after, seq_of.
  destruct rest as [|sb rest]; [destruct s; by rewrite !Z.add_0_r|].
  destruct s; cbn; destruct (sequence_number sb) as [q|]; cbn [default]; rewrite ?Z.add_0_r; try done.
  - split; [exact (zinv_gap SBlock q _ _ _ _ _ Hi)|done].
  - split; [exact (zinv_gap STx q _ _ _ _ _ Hi)|done].
Qed.

Lemma zinv_recvBlock msg bs ts gb gt z : zinv bs ts gb gt z -> z_pending_block z = None ->
  let l := ZBlockMsg msg in
  zinv (bs ++ option_list (block_of l)) ts (gb + gap_of SBlock l (z_lastBlockSeq z))
    (gt + gap_of STx l (z_lastTxSeq z)) (recvBlock msg z) /\
  z_lastBlockSeq (recvBlock msg z) = last_after SBlock l (z_lastBlockSeq z) /\
  z_lastTxSeq (recvBlock msg z) = last_after STx l (z_lastTxSeq z).
Proof.
  intros Hi Hp l. unfold recvBlock, l.
  destruct msg as [|t [|d rest]]; [by rewrite app_nil_r, !Z.add_0_r|by rewrite app_nil_r, !Z.add_0_r|].
  fold (after_seq SBlock rest z).
  destruct (after_seq_inv SBlock t d rest bs ts gb gt z _ eq_refl Hi) as (H1 & H2 & H3 & H4 & _).
  cbn [block_of]. destruct (block_Deserialize d) as [b|e]; cbn [to_option option_list].
  - split; [|done]. destruct H1 as [E1 E2 E3 E4 E5 E6 E7]. rewrite H4, Hp, app_nil_r in E1.
    split; cbn; try done. by rewrite E1.
  - split; [|done]. rewrite app_nil_r. by destruct H1.
Qed.

Lemma zinv_recvTx msg bs ts gb gt z : zinv bs ts gb gt z -> z_pending_tx z = None ->
  let l := ZTxMsg msg in
  zinv bs (ts ++ option_list (tx_of l)) (gb + gap_of SBlock l (z_lastBlockSeq z))
    (gt + gap_of STx l (z_lastTxSeq z)) (recvTx msg z) /\
  z_lastBlockSeq (recvTx msg z) = last_after SBlock l (z_lastBlockSeq z) /\
  z_lastTxSeq (recvTx msg z) = last_after STx l (z_lastTxSeq z).
Proof.
  intros Hi Hp l. unfold recvTx, l.
  destruct msg as [|t [|d rest]]; [by rewrite app_nil_r, !Z.add_0_r|by rewrite app_nil_r, !Z.add_0_r|].
  fold (after_seq STx rest z).
  destruct (after_seq_inv STx t d rest bs ts gb gt z _ eq_refl Hi) as (H1 & H2 & H3 & _ & H4).
  cbn [tx_of]. destruct (tx_Deserialize d) as [b|e]; cbn [to_option option_list].
  - split; [|done]. destruct H1 as [E1 E2 E3 E4 E5 E6 E7]. rewrite H4, Hp, app_nil_r in E2.
    split; cbn; try done. by rewrite E2.
  - split; [|done]. rewrite app_nil_r. by destruct H1.
Qed.

Lemma zinv_step l z z' bs ts gb gt : zinv bs ts gb gt z -> zstep l z = Some z' -> not_dropped l ->
  exists bs' ts', bs ++ option_list (block_of l) = took_block l z ++ bs' /\
    ts ++ option_list (tx_of l) = took_tx l z ++ ts' /\
    zinv bs' ts' (gb + gap_of SBlock l (z_lastBlockSeq z)) (gt + gap_of STx l (z_lastTxSeq z)) z' /\
    z_lastBlockSeq z' = last_after SBlock l (z_lastBlockSeq z) /\
    z_lastTxSeq z' = last_after STx l (z_lastTxSeq z).
Proof.
  intros Hi Hs [Hn1 Hn2]. pose proof Hi as [E1 E2 E3 E4 E5 E6 E7].
  destruct l as [msg|msg| | | | | | | | |]; cbn [zstep] in Hs; try done.
  - destruct (z_pending_block z) eqn:Ep; [done|]. injection Hs as <-.
    exists (bs ++ option_list (block_of (ZBlockMsg msg))), ts. split; [done|].
    split; [by rewrite app_nil_r|by apply zinv_recvBlock].
  - destruct (z_pending_tx z) eqn:Ep; [done|]. injection Hs as <-.
    exists bs, (ts ++ option_list (tx_of (ZTxMsg msg))). split; [by rewrite app_nil_r|].
    split; [done|by apply zinv_recvTx].
  - destruct (z_pending_block z) as [b|] eqn:Ep; [|done].
    destruct (Nat.ltb_spec (length (z_blockChan z)) BlockChanSize); [|done]. injection Hs as <-.
    exists bs, ts. rewrite !app_nil_r, !Z.add_0_r. split_and!; try done. split; cbn; try done.
    + by rewrite app_nil_r.
    + rewrite length_app. cbn. lia.
  - destruct (z_pending_tx z) as [t|] eqn:Ep; [|done].
    destruct (Nat.ltb_spec (length (z_txChan z)) TxChanSize); [|done]. injection Hs as <-.
    exists bs, ts. rewrite !app_nil_r, !Z.add_0_r. split_and!; try done. split; cbn; try done.
    + by rewrite app_nil_r.
    + rewrite length_app. cbn. lia.
  - injection Hs as <-. exists bs, ts. rewrite !app_nil_r, !Z.add_0_r. split_and!; done.
  - destruct (z_blockChan z) as [|b ch] eqn:Ec; [done|]. injection Hs as <-.
    exists (ch ++ option_list (z_pending_block z)), ts. rewrite !app_nil_r, !Z.add_0_r.
    split_and!; [by rewrite E1; cbn [took_block]; rewrite Ec|done| |done..]. split; cbn in *; try done. lia.
  - destruct (z_txChan z) as [|t ch] eqn:Ec; [done|]. injection Hs as <-.
    exists bs, (ch ++ option_list (z_pending_tx z)). rewrite !app_nil_r, !Z.add_0_r.
    split_and!; [done|by rewrite E2; cbn [took_tx]; rewrite Ec| |done..]. split; cbn in *; try done. lia.
  - destruct (z_gapChan z) as [|g ch] eqn:Ec; [done|]. injection Hs as <-.
    exists bs, ts. rewrite !app_nil_r, !Z.add_0_r. split_and!; try done. split; cbn in *; try done. lia.
  - injection Hs as <-. exists bs, ts. rewrite !app_nil_r, !Z.add_0_r. split_and!; done.
Qed.

Lemma zinv_run ls : forall z z' bs ts gb gt, zinv bs ts gb gt z -> zrun ls z = Some z' -> Forall not_dropped ls ->
  exists bs' ts', bs ++ omap block_of ls = taken took_block ls z ++ bs' /\
    ts ++ omap tx_of ls = taken took_tx ls z ++ ts' /\
    zinv bs' ts' (gb + gaps_after (z_lastBlockSeq z) (omap (seq_of SBlock) ls))
      (gt + gaps_after (z_lastTxSeq z) (omap (seq_of STx) ls)) z'.
Proof.
  induction ls as [|l ls IH]; intros z z' bs ts gb gt Hi; cbn [zrun].
  { intros [= <-] _. exists bs, ts. cbn. by rewrite !app_nil_r, !Z.add_0_r. }
  destruct (zstep l z) as [z1|] eqn:Es; [|done]. intros Hr [Hl Hls]%Forall_cons. cbn [mbind option_bind] in Hr.
  destruct (zinv_step l z z1 bs ts gb gt Hi Es Hl) as (bs1 & ts1 & H1 & H2 & Hi1 & HB & HT).
  destruct (IH z1 z' bs1 ts1 _ _ Hi1 Hr Hls) as (bs2 & ts2 & G1 & G2 & Hi2).
  exists bs2, ts2. cbn [taken]. rewrite Es.
  assert (Ho : forall {A} (f : zlabel -> option A), omap f (l :: ls) = option_list (f l) ++ omap f ls)
    by (intros A f; cbn; by destruct (f l)).
  rewrite !Ho, !zinv_seq, <- HB, <- HT, !Z.add_assoc. split_and!; [| |done].
  - by rewrite app_assoc, H1, <- !app_assoc, G1.
  - by rewrite app_assoc, H2, <- !app_assoc, G2.
Qed.

(** The subscriber loses nothing and counts what the node lost: in every run
    up to the shutdown, the blocks the main loop has received, those in the
    channel and the one waiting to be sent are exactly the well-formed blocks
    that arrived, in order, and the same for transactions; the channels keep to
    their sizes; and the gaps counted on each stream are the neighbours in its
    sequence numbers that are not consecutive modulo 2^32, except after a 0. *)
Theorem zmq_streams_exact (ls : list zlabel) (z : ZMQSubscriber)
    (Hrun : zrun ls NewZMQSubscriber = Some z) (Hls : Forall not_dropped ls) :
  omap block_of ls = taken took_block ls NewZMQSubscriber ++ z_blockChan z ++ option_list (z_pending_block z) /\
  omap tx_of ls = taken took_tx ls NewZMQSubscriber ++ z_txChan z ++ option_list (z_pending_tx z) /\
  (length (z_blockChan z) <= BlockChanSize)%nat /\ (length (z_txChan z) <= TxChanSize)%nat /\
  (length (z_gapChan z) <= 10)%nat /\
  z_seqGapsBlock z = i64 (losses (omap (seq_of SBlock) ls)) /\
  z_seqGapsTx z = i64 (losses (omap (seq_of STx) ls)).
Proof.
  destruct (zinv_run ls NewZMQSubscriber z [] [] 0 0) as (bs & ts & H1 & H2 & [E1 E2 E3 E4 E5 E6 E7]);
    [split; cbn; auto with lia|done..|].
  cbn [z_lastBlockSeq z_lastTxSeq NewZMQSubscriber app] in *. rewrite !gaps_after_zero, !Z.add_0_l in *.
  subst bs ts. done.
Qed.

End Zmq.

(** ** Witness: a block is lost between numbers 5 and 7 *)

Definition sample_decode (bs : bytes) : result (@MsgBlock ModelBtcd) :=
  match bs with [] => Err (ENew "EOF") | _ => Ok (mkBlock (mkHeader bs bs) []) end.
Definition sample_decode_tx (bs : bytes) : result (@MsgTx ModelBtcd) :=
  match bs with [] => Err (ENew "EOF") | _ => Ok (mkTx bs [] []) end.

Definition topic : bytes := [x72; x61; x77].
Definition sample_stream : list zlabel :=
  [ZBlockMsg [topic; [x01]; le_encode 4 5]; ZBlockSend; ZTxMsg [topic; [x03]]; ZTakeBlock;
   ZBlockMsg [topic; [x02]; le_encode 4 7]; ZTakeGap; ZTxSend].

Definition sample_subscriber : @ZMQSubscriber ModelBtcd :=
  default NewZMQSubscriber (zrun sample_decode sample_decode_tx 10 1000 sample_stream NewZMQSubscriber).

Lemma sample_stream_run :
  zrun sample_decode sample_decode_tx 10 1000 sample_stream NewZMQSubscriber = Some sample_subscriber.
Proof. apply Some_default, (bool_decide_eq_true_1 _). vm_compute. reflexivity. Qed.

Lemma zmq_streams_exact_witness :
  omap (block_of sample_decode) sample_stream =
    taken sample_decode sample_decode_tx 10 1000 took_block sample_stream NewZMQSubscriber ++
    z_blockChan sample_subscriber ++ option_list (z_pending_block sample_subscriber) /\
  z_seqGapsBlock sample_subscriber = i64 (losses (omap (seq_of SBlock) sample_stream)).
Proof.
  destruct (zmq_streams_exact sample_decode sample_decode_tx 10 1000 sample_stream sample_subscriber
    sample_stream_run) as (H1 & _ & _ & _ & _ & H2 & _).
  { repeat (apply Forall_cons_2; [split; discriminate|]). apply Forall_nil_2. }
  split; [exact H1|exact H2].
Defined.

Example one_loss : losses [5; 7] = 1 /\ losses [0; 7] = 0.
Proof. vm_compute. done. Qed.
