(* ===== verification/Stream.v ===== *)
(** * The goroutines of the subscriber: [internal/indexer/zmq.go]

    [subscribeBlocks] and [subscribeTxs] open a socket, receive from it until it
    fails, and wait longer and longer between attempts; [Stop] cancels them,
    waits for both and closes the channels.  A [glabel] is one action of one
    goroutine, of the main loop or of [Stop], [gstep] its effect; what a
    goroutine does with a message is [recvBlock] and [recvTx] of [Zmq].  The
    answers of the sockets are part of the labels.  The two loops have the same
    text but for the names, and are one definition with the stream an
    argument. *)

From Stdlib Require Import Strings.Byte.
From S2P Require Import Prelude Bytes Hex Sha256 Types Zmq.

(** ** The sockets *)

(** What the library answers: [zmq.NewSocket(zmq.SUB)], and the methods of the
    socket. *)
Record zmq_answers := mkAnswers {
  NewSocket : result unit;
  Connect : string -> result unit;
  SetSubscribe : string -> result unit;
}.

(** [syscall.EAGAIN] *)
Definition EAGAIN : Z := 11.

(** The state of these is the number of open sockets. *)
Definition open_socket (a : zmq_answers) : st nat unit :=
  _ ← st_lift (NewSocket a); st_modify S.

Definition close_socket : st nat unit := st_modify pred.

(** [if err := ...; err != nil { socket.Close(); return nil, err }] *)
Definition or_close (r : result unit) : st nat unit :=
  match r with
  | Ok _ => mret ()
  | Err e => _ ← close_socket; st_fail e
  end.

Definition newSubSocket (a : zmq_answers) (addr topic : string) : st nat unit :=
  _ ← open_socket a;
  _ ← or_close (Connect a addr);
  or_close (SetSubscribe a topic).

(** [defer sock.Close()] around the rest of the function. *)
Definition defer_close {A} (m : st nat A) : st nat A := fun n =>
  let '(r, n) := m n in (r, (close_socket n).2).

Definition create_socket (a : zmq_answers) : st nat unit :=
  st_wrap "failed to create ZMQ socket: " (open_socket a).

(** The error of a connection names the address and the setting to look at. *)
Definition connect_error (what option addr : string) (e : error) : error :=
  EWrap ("failed to connect to " +:+ what +:+ " ZMQ at " +:+ addr +:+ ": ") e
    (string_of_bytes [x0a] +:+ "Ensure Bitcoin Core is configured with: " +:+ option +:+ "=" +:+ addr).

Definition test_connect (a : zmq_answers) (what option addr : string) : st nat unit :=
  match Connect a addr with
  | Ok _ => mret ()
  | Err e => st_fail (connect_error what option addr e)
  end.

(** [ab] and [at_] answer for the first and the second socket. *)
Definition testConnections (ab at_ : zmq_answers) (blockAddr txAddr : string) : st nat unit :=
  _ ← create_socket ab;
  defer_close (
    _ ← test_connect ab "block" "zmqpubrawblock" blockAddr;
    _ ← create_socket at_;
    defer_close (test_connect at_ "tx" "zmqpubrawtx" txAddr)).

(** ** The configuration *)

(** Sizes of channels are never negative here. *)
Record ZMQConfig := mkZMQConfig {
  cfg_BlockAddr : string;
  cfg_TxAddr : string;
  cfg_BlockChanSize : nat;
  cfg_TxChanSize : nat;
}.

Definition DefaultZMQConfig : ZMQConfig :=
  mkZMQConfig "tcp://127.0.0.1:28332" "tcp://127.0.0.1:28333" 10 1000.

(** ** The goroutines *)

Inductive gphase :=
| GIdle          (* before Start *)
| GTop           (* at the top of the loop of subscribeBlocks, subscribeTxs *)
| GOpening       (* in newSubSocket *)
| GWaiting       (* in waitBackoff *)
| GPolling       (* at the top of the loop of recvBlocks, recvTxs *)
| GReceiving     (* in RecvMessageBytes *)
| GSending       (* in the select that sends *)
| GReturned.     (* after wg.Done() *)

#[export] Instance gphase_eq_dec : EqDecision gphase.
Proof. solve_decision. Defined.

#[export] Instance zstream_eq_dec : EqDecision zstream.
Proof. solve_decision. Defined.

Inductive gstop := GRunning | GStopping | GStopped.

#[export] Instance gstop_eq_dec : EqDecision gstop.
Proof. solve_decision. Defined.

Record goroutine := mkGoroutine { g_phase : gphase; g_backoff : Z }.

Definition other_stream (s : zstream) : zstream := match s with SBlock => STx | STx => SBlock end.

Section Stream.
Context {B : Btcd}.

Record Subscriber := mkSubscriber {
  u_sub : ZMQSubscriber;               (* channels, context and counters *)
  u_block : goroutine;
  u_tx : goroutine;
  u_sockets : nat;                     (* open sockets *)
  u_stop : gstop;                      (* GStopped: the channels are closed *)
  u_crashed : bool;                    (* a send on a closed channel *)
}.

Definition new_Subscriber : Subscriber :=
  mkSubscriber NewZMQSubscriber (mkGoroutine GIdle 0) (mkGoroutine GIdle 0) 0 GRunning false.

(** [NewZMQSubscriber]; [n] sockets of others are open. *)
Definition New (ab at_ : zmq_answers) (config : ZMQConfig) (n : nat) : result Subscriber * nat :=
  (_ ← testConnections ab at_ (cfg_BlockAddr config) (cfg_TxAddr config); mret new_Subscriber) n.

Context (block_Deserialize : bytes -> result MsgBlock) (tx_Deserialize : bytes -> result MsgTx).
Context (AsErrno : error -> Z) (config : ZMQConfig).

Notation zstep := (zstep block_Deserialize tx_Deserialize (cfg_BlockChanSize config) (cfg_TxChanSize config)).
Notation zrun := (zrun block_Deserialize tx_Deserialize (cfg_BlockChanSize config) (cfg_TxChanSize config)).

Definition isZMQTimeout (e : error) : bool := AsErrno e =? EAGAIN.

Inductive glabel :=
| GStart
| GLoop (s : zstream)                              (* z.ctx.Err() != nil *)
| GOpen (s : zstream) (a : zmq_answers)            (* newSubSocket *)
| GTimer (s : zstream)                             (* waitBackoff: <-t.C *)
| GGiveUp (s : zstream)                            (* waitBackoff: <-z.ctx.Done() *)
| GPoll (s : zstream)                              (* the select with default *)
| GRecv (s : zstream) (r : result (list bytes))    (* RecvMessageBytes(0) *)
| GSend (s : zstream)                              (* z.blockChan <- &block *)
| GDrop (s : zstream)                              (* <-z.ctx.Done() beside it *)
| GTakeBlock                                       (* the main loop receives *)
| GTakeTx
| GTakeGap
| GCancel                                          (* Stop: z.cancel() *)
| GClose.                                          (* Stop: wg.Wait() returned *)

Definition routine (s : zstream) (u : Subscriber) : goroutine :=
  match s with SBlock => u_block u | STx => u_tx u end.

Definition addr_of (s : zstream) : string :=
  match s with SBlock => cfg_BlockAddr config | STx => cfg_TxAddr config end.

Definition topic_of (s : zstream) : string := match s with SBlock => "rawblock" | STx => "rawtx" end.

Definition set_routine (s : zstream) (g : goroutine) (u : Subscriber) : Subscriber :=
  match s with
  | SBlock => mkSubscriber (u_sub u) g (u_tx u) (u_sockets u) (u_stop u) (u_crashed u)
  | STx => mkSubscriber (u_sub u) (u_block u) g (u_sockets u) (u_stop u) (u_crashed u)
  end.

Definition set_sockets (n : nat) (u : Subscriber) : Subscriber :=
  mkSubscriber (u_sub u) (u_block u) (u_tx u) n (u_stop u) (u_crashed u).

Definition set_sub (z : ZMQSubscriber) (u : Subscriber) : Subscriber :=
  mkSubscriber z (u_block u) (u_tx u) (u_sockets u) (u_stop u) (u_crashed u).

Definition set_stop (k : gstop) (u : Subscriber) : Subscriber :=
  mkSubscriber (u_sub u) (u_block u) (u_tx u) (u_sockets u) k (u_crashed u).

Definition crash (u : Subscriber) : Subscriber :=
  mkSubscriber (u_sub u) (u_block u) (u_tx u) (u_sockets u) (u_stop u) true.

(** The goroutine moves on; its backoff stays. *)
Definition set_phase (s : zstream) (p : gphase) (u : Subscriber) : Subscriber :=
  set_routine s (mkGoroutine p (g_backoff (routine s u))) u.

Definition pending (s : zstream) (z : ZMQSubscriber) : bool :=
  match s with
  | SBlock => match z_pending_block z with Some _ => true | None => false end
  | STx => match z_pending_tx z with Some _ => true | None => false end
  end.

(** The step of the channels and counters that [l] is. *)
Definition message_label (s : zstream) (msg : list bytes) : zlabel :=
  match s with SBlock => ZBlockMsg msg | STx => ZTxMsg msg end.
Definition send_label (s : zstream) : zlabel := match s with SBlock => ZBlockSend | STx => ZTxSend end.
Definition drop_label (s : zstream) : zlabel := match s with SBlock => ZDropBlock | STx => ZDropTx end.

Definition zlabel_of (l : glabel) : option zlabel :=
  match l with
  | GRecv s (Ok msg) => Some (message_label s msg)
  | GRecv _ (Err e) => if isZMQTimeout e then None else Some ZError
  | GSend s => Some (send_label s)
  | GDrop s => Some (drop_label s)
  | GTakeBlock => Some ZTakeBlock
  | GTakeTx => Some ZTakeTx
  | GTakeGap => Some ZTakeGap
  | GCancel => Some ZStop
  | _ => None
  end.

Definition step_sub (l : zlabel) (u : Subscriber) : option Subscriber :=
  z ← zstep l (u_sub u); Some (set_sub z u).

Definition at_phase (s : zstream) (p : gphase) (u : Subscriber) : bool := bool_decide (g_phase (routine s u) = p).

(** Whether handling the message sends an event on [gapChan]. *)
Definition reports_gap (s : zstream) (msg : list bytes) (z : ZMQSubscriber) : bool :=
  match msg with
  | _ :: _ :: seqBytes :: _ =>
      match sequence_number seqBytes with
      | Some seq => is_gap (match s with SBlock => z_lastBlockSeq z | STx => z_lastTxSeq z end) seq
      | None => false
      end
  | _ => false
  end.

(** [socket.Close()], and on to phase [p]. *)
Definition close_and (s : zstream) (p : gphase) (u : Subscriber) : Subscriber :=
  set_phase s p (set_sockets (close_socket (u_sockets u)).2 u).

Definition open_step (s : zstream) (a : zmq_answers) (u : Subscriber) : Subscriber :=
  match newSubSocket a (addr_of s) (topic_of s) (u_sockets u) with
  | (Ok _, n) => set_routine s (mkGoroutine GPolling 1) (set_sockets n u)
  | (Err _, n) => set_phase s GWaiting (set_sockets n u)
  end.

Definition recv_step (s : zstream) (r : result (list bytes)) (u : Subscriber) : option Subscriber :=
  match r with
  | Ok msg =>
      if bool_decide (u_stop u = GStopped) && reports_gap s msg (u_sub u) then Some (crash u)
      else
        u ← step_sub (message_label s msg) u;
        Some (set_phase s (if pending s (u_sub u) then GSending else GPolling) u)
  | Err e =>
      if isZMQTimeout e then Some (set_phase s GPolling u)
      else u ← step_sub ZError u; Some (close_and s GWaiting u)
  end.

Definition send_step (s : zstream) (u : Subscriber) : option Subscriber :=
  if bool_decide (u_stop u = GStopped) then Some (crash u)
  else u ← step_sub (send_label s) u; Some (set_phase s GPolling u).

Definition timer_step (s : zstream) (u : Subscriber) : Subscriber :=
  set_routine s (mkGoroutine GTop (next_backoff (g_backoff (routine s u)))) u.

(** What [z.wg] does not wait for. *)
Definition not_running (s : zstream) (u : Subscriber) : bool := at_phase s GIdle u || at_phase s GReturned u.

Definition gstep (l : glabel) (u : Subscriber) : option Subscriber :=
  if u_crashed u then None else
  match l with
  | GStart =>
      if at_phase SBlock GIdle u && at_phase STx GIdle u
      then Some (set_routine SBlock (mkGoroutine GTop 1) (set_routine STx (mkGoroutine GTop 1) u))
      else None
  | GLoop s =>
      if at_phase s GTop u then Some (set_phase s (if z_done (u_sub u) then GReturned else GOpening) u) else None
  | GOpen s a => if at_phase s GOpening u then Some (open_step s a u) else None
  | GTimer s => if at_phase s GWaiting u then Some (timer_step s u) else None
  | GGiveUp s =>
      if at_phase s GWaiting u && z_done (u_sub u) then Some (set_phase s GReturned u) else None
  | GPoll s =>
      if at_phase s GPolling u
      then Some (if z_done (u_sub u) then close_and s GTop u else set_phase s GReceiving u)
      else None
  | GRecv s r => if at_phase s GReceiving u then recv_step s r u else None
  | GSend s => if at_phase s GSending u then send_step s u else None
  | GDrop s =>
      if at_phase s GSending u then u ← step_sub (drop_label s) u; Some (close_and s GTop u) else None
  | GTakeBlock => step_sub ZTakeBlock u
  | GTakeTx => step_sub ZTakeTx u
  | GTakeGap => step_sub ZTakeGap u
  | GCancel =>
      match u_stop u with
      | GRunning => u ← step_sub ZStop u; Some (set_stop GStopping u)
      | _ => None
      end
  | GClose =>
      match u_stop u with
      | GStopping => if not_running SBlock u && not_running STx u then Some (set_stop GStopped u) else None
      | _ => None
      end
  end.

Fixpoint grun (ls : list glabel) (u : Subscriber) : option Subscriber :=
  match ls with
  | [] => Some u
  | l :: ls => u ← gstep l u; grun ls u
  end.

End Stream.

(** [ZMQStats.String] *)
Definition String_ZMQStats (s : ZMQStats) : string :=
  "ZMQ: " +:+ itoa (zs_BlocksReceived s) +:+ " blocks, " +:+ itoa (zs_TxsReceived s) +:+ " txs received, " +:+
  itoa (zs_Errors s) +:+ " errors, gaps: blocks=" +:+ itoa (zs_SeqGapsBlock s) +:+ " txs=" +:+
  itoa (zs_SeqGapsTx s) +:+ ", queues: blocks=" +:+ itoa (Z.of_nat (zs_BlockQueueLen s)) +:+ " txs=" +:+
  itoa (Z.of_nat (zs_TxQueueLen s)).
