(* ===== verification/StreamProps.v ===== *)
(** * The goroutines of the subscriber: properties

    What the goroutines do to the channels and counters is a run of [Zmq], so its
    theorems hold of them; their sockets, their waits and the order of [Stop]. *)

From Stdlib Require Import Strings.Byte.
From S2P Require Import Prelude Bytes Hex Sha256 Types Zmq Stream.

(** ** Opening and testing sockets *)

Lemma newSubSocket_sockets a addr topic n :
  (newSubSocket a addr topic n).2 = match (newSubSocket a addr topic n).1 with Ok _ => S n | Err _ => n end.
Proof.
  unfold newSubSocket, open_socket, or_close, close_socket, st_lift, st_modify, st_fail, mbind, st_bind, mret, st_ret.
  destruct (NewSocket a) as [[]|]; [|done]. destruct (Connect a addr) as [[]|]; [|done].
  by destruct (SetSubscribe a topic) as [[]|].
Qed.

(** The test at the start leaves no socket open; it passes when both sockets are
    made and connect, and its error names the first that does not. *)
Lemma testConnections_result ab at_ blockAddr txAddr n :
  (testConnections ab at_ blockAddr txAddr n).2 = n /\
  (testConnections ab at_ blockAddr txAddr n).1 =
    match NewSocket ab, Connect ab blockAddr, NewSocket at_, Connect at_ txAddr with
    | Err e, _, _, _ => Err (EWrap "failed to create ZMQ socket: " e "")
    | _, Err e, _, _ => Err (connect_error "block" "zmqpubrawblock" blockAddr e)
    | _, _, Err e, _ => Err (EWrap "failed to create ZMQ socket: " e "")
    | _, _, _, Err e => Err (connect_error "tx" "zmqpubrawtx" txAddr e)
    | _, _, _, _ => Ok ()
    end.
Proof.
  unfold testConnections, create_socket, open_socket, test_connect, defer_close, close_socket, st_wrap, wrap, st_lift,
    st_modify, st_fail, mbind, st_bind, mret, st_ret.
  destruct (NewSocket ab) as [[]|], (Connect ab blockAddr) as [[]|], (NewSocket at_) as [[]|],
    (Connect at_ txAddr) as [[]|]; done.
Qed.

(** ** The invariant *)

(** Between [newSubSocket] and [socket.Close()]. *)
Definition has_socket (p : gphase) : bool :=
  match p with GPolling | GReceiving | GSending => true | _ => false end.

(** No message and no send from here without opening a socket. *)
Definition is_quiet (p : gphase) : bool := match p with GIdle | GTop | GReturned => true | _ => false end.

Definition backoffs : list Z := [1; 2; 4; 8; 16; 30].

Lemma next_backoff_in b : b ∈ backoffs -> next_backoff b ∈ backoffs.
Proof.
  intros H. assert (E : Forall (fun b => next_backoff b ∈ backoffs) backoffs).
  { apply (bool_decide_eq_true_1 _). reflexivity. }
  by apply (proj1 (Forall_forall _ _) E).
Qed.

(** How many steps of its own a cancelled goroutine has left, at most. *)
Definition rank (p : gphase) : nat :=
  match p with
  | GReturned => 0
  | GIdle | GTop => 1
  | GWaiting | GPolling => 2
  | GOpening | GSending => 3
  | GReceiving => 4
  end.

(** The goroutine whose step it is. *)
Definition stream_of (l : glabel) : option zstream :=
  match l with
  | GLoop s | GOpen s _ | GTimer s | GGiveUp s | GPoll s | GRecv s _ | GSend s | GDrop s => Some s
  | _ => None
  end.

Section Props.
Context {B : Btcd}.
Context (block_Deserialize : bytes -> result MsgBlock) (tx_Deserialize : bytes -> result MsgTx).
Context (AsErrno : error -> Z) (config : ZMQConfig).

Notation zstep := (zstep block_Deserialize tx_Deserialize (cfg_BlockChanSize config) (cfg_TxChanSize config)).
Notation zrun := (zrun block_Deserialize tx_Deserialize (cfg_BlockChanSize config) (cfg_TxChanSize config)).
Notation gstep := (gstep block_Deserialize tx_Deserialize AsErrno config).
Notation grun := (grun block_Deserialize tx_Deserialize AsErrno config).
Notation step_sub := (step_sub block_Deserialize tx_Deserialize config).
Notation zlabel_of := (zlabel_of AsErrno).

Definition phase_of (s : zstream) (u : Subscriber) : gphase := g_phase (routine s u).

Record stream_inv (u : Subscriber) : Prop := {
  ti_crashed : u_crashed u = false;
  ti_sockets : u_sockets u = (Nat.b2n (has_socket (phase_of SBlock u)) + Nat.b2n (has_socket (phase_of STx u)))%nat;
  ti_pending s : pending s (u_sub u) = bool_decide (phase_of s u = GSending);
  ti_backoff s : phase_of s u = GIdle \/ g_backoff (routine s u) ∈ backoffs;
  ti_done : z_done (u_sub u) = bool_decide (u_stop u <> GRunning);
  ti_stopped s : u_stop u = GStopped -> is_quiet (phase_of s u) = true;
}.

Lemma new_inv : stream_inv new_Subscriber.
Proof. split; try done; intros []; try done; by left. Qed.

(** ** The steps of [Zmq] seen from here *)

Lemma step_sub_Some l u u' : step_sub l u = Some u' <-> exists z, zstep l (u_sub u) = Some z /\ u' = set_sub z u.
Proof. unfold Stream.step_sub. destruct (zstep l (u_sub u)); cbn; naive_solver. Qed.

Lemma after_sequence s q z : z_done (sequence s q z) = z_done z /\ forall s', pending s' (sequence s q z) = pending s' z.
Proof. destruct s; split; try done; by intros []. Qed.

Lemma message_frame s msg z z' : zstep (message_label s msg) z = Some z' ->
  z_done z' = z_done z /\ pending (other_stream s) z' = pending (other_stream s) z.
Proof.
  assert (Hs : forall rest, z_done (after_seq s rest z) = z_done z /\
    forall s', pending s' (after_seq s rest z) = pending s' z).
  { intros [|sb rest]; cbn [after_seq]; [done|]. unfold handleSequence.
    destruct (sequence_number sb); [apply after_sequence|done]. }
  destruct s; cbn [message_label Zmq.zstep];
    [destruct (z_pending_block z); [done|]|destruct (z_pending_tx z); [done|]]; intros [= <-].
  - unfold recvBlock. destruct msg as [|t [|d rest]]; [done..|]. fold (after_seq SBlock rest z).
    destruct (Hs rest) as [H1 H2]. by destruct (block_Deserialize d); split; try done; apply (H2 STx).
  - unfold recvTx. destruct msg as [|t [|d rest]]; [done..|]. fold (after_seq STx rest z).
    destruct (Hs rest) as [H1 H2]. by destruct (tx_Deserialize d); split; try done; apply (H2 SBlock).
Qed.

Lemma message_enabled s msg z : pending s z = false -> exists z', zstep (message_label s msg) z = Some z'.
Proof.
  destruct s; cbn [pending message_label Zmq.zstep].
  - destruct (z_pending_block z); [done|]. intros _. by eexists.
  - destruct (z_pending_tx z); [done|]. intros _. by eexists.
Qed.

Lemma send_frame s l z z' : l = send_label s \/ l = drop_label s -> zstep l z = Some z' ->
  z_done z' = z_done z /\ pending s z' = false /\ pending (other_stream s) z' = pending (other_stream s) z.
Proof.
  intros Hl. destruct s, Hl as [-> | ->]; cbn [send_label drop_label Zmq.zstep];
    [destruct (z_pending_block z)|destruct (z_pending_block z)|destruct (z_pending_tx z)|destruct (z_pending_tx z)];
    try done; try case_match; try done; intros [= <-]; cbn; by subst.
Qed.

Lemma take_frame l z z' : l = ZTakeBlock \/ l = ZTakeTx \/ l = ZTakeGap \/ l = ZError -> zstep l z = Some z' ->
  z_done z' = z_done z /\ forall s, pending s z' = pending s z.
Proof.
  intros [-> | [-> | [-> | ->]]]; cbn [Zmq.zstep]; try case_match; try done; intros [= <-]; by split; [|intros []].
Qed.

(** ** One step of a goroutine *)

(** It goes to phase [q] with backoff [b], [n] sockets open, and [z] sent and
    counted. *)
Definition move (s : zstream) (q : gphase) (b : Z) (n : nat) (z : ZMQSubscriber) (u : Subscriber) : Subscriber :=
  set_routine s (mkGoroutine q b) (set_sockets n (set_sub z u)).

Record moves (s : zstream) (zl : option zlabel) (u : Subscriber) (q : gphase) (b : Z) (n : nat) (z : ZMQSubscriber) : Prop := {
  mv_sub : match zl with Some l => zstep l (u_sub u) = Some z | None => z = u_sub u end;
  mv_sockets : (n + Nat.b2n (has_socket (phase_of s u)) = u_sockets u + Nat.b2n (has_socket q))%nat;
  mv_done : z_done z = z_done (u_sub u);
  mv_pending : pending s z = bool_decide (q = GSending);
  mv_other : pending (other_stream s) z = pending (other_stream s) (u_sub u);
  mv_backoff : b ∈ backoffs;
  mv_quiet : z_done (u_sub u) = true -> is_quiet (phase_of s u) = true -> is_quiet q = true;
  mv_rank : z_done (u_sub u) = true -> (rank q < rank (phase_of s u))%nat;
}.

Lemma phase_move s q b n z u : phase_of s (move s q b n z u) = q.
Proof. by destruct s. Qed.
Lemma phase_move_other s q b n z u : phase_of (other_stream s) (move s q b n z u) = phase_of (other_stream s) u.
Proof. by destruct s. Qed.

Lemma inv_move s zl u q b n z : stream_inv u -> moves s zl u q b n z -> stream_inv (move s q b n z u).
Proof.
  intros [I1 I2 I3 I4 I5 I6] [M1 M2 M3 M4 M5 M6 M7 M8].
  assert (Hq : u_stop u = GStopped -> z_done (u_sub u) = true) by (intros E; by rewrite I5, E).
  split.
  - by destruct s.
  - destruct s; cbn in *; unfold phase_of in *; cbn in *; lia.
  - intros s'. destruct (decide (s' = s)) as [-> |Hs]; [by destruct s|].
    assert (s' = other_stream s) as -> by (by destruct s, s'). rewrite phase_move_other, <- I3, <- M5. by destruct s.
  - intros s'. destruct (decide (s' = s)) as [-> |Hs]; [right; by destruct s|].
    assert (s' = other_stream s) as -> by (by destruct s, s'). specialize (I4 (other_stream s)). by destruct s.
  - transitivity (z_done z); [by destruct s|]. rewrite M3, I5. by destruct s.
  - intros s' Hst. assert (Hst' : u_stop u = GStopped) by (by destruct s).
    destruct (decide (s' = s)) as [-> |Hs]; [rewrite phase_move; auto|].
    assert (s' = other_stream s) as -> by (by destruct s, s'). rewrite phase_move_other. auto.
Qed.

Lemma at_phase_true s p u : at_phase s p u = true <-> phase_of s u = p.
Proof. unfold at_phase. apply bool_decide_eq_true. Qed.

Lemma set_phase_move s q n z u : set_phase s q (set_sockets n (set_sub z u)) = move s q (g_backoff (routine s u)) n z u.
Proof. by destruct s. Qed.

Lemma set_sub_id u : set_sub (u_sub u) u = u.
Proof. by destruct u. Qed.
Lemma set_sockets_id u : set_sockets (u_sockets u) u = u.
Proof. by destruct u. Qed.

(** A step that leaves channels and counters alone. *)
Lemma moves_still s u q b n : stream_inv u -> phase_of s u <> GSending -> q <> GSending ->
  (n + Nat.b2n (has_socket (phase_of s u)) = u_sockets u + Nat.b2n (has_socket q))%nat ->
  b ∈ backoffs ->
  (z_done (u_sub u) = true -> is_quiet (phase_of s u) = true -> is_quiet q = true) ->
  (z_done (u_sub u) = true -> (rank q < rank (phase_of s u))%nat) ->
  moves s None u q b n (u_sub u).
Proof.
  intros I Hp Hq Hn Hb H1 H2. split; try done. rewrite (ti_pending u I s). by rewrite !bool_decide_false.
Qed.

Lemma has_backoff s u : stream_inv u -> phase_of s u <> GIdle -> g_backoff (routine s u) ∈ backoffs.
Proof. intros I Hp. by destruct (ti_backoff u I s). Qed.

Lemma has_sockets s u : stream_inv u -> has_socket (phase_of s u) = true -> u_sockets u <> 0%nat.
Proof. intros I. rewrite (ti_sockets u I). destruct s; intros ->; cbn; lia. Qed.

Lemma still_move s q n u : set_phase s q (set_sockets n u) = move s q (g_backoff (routine s u)) n (u_sub u) u.
Proof. by destruct s, u. Qed.

Lemma still_phase s q u : set_phase s q u = move s q (g_backoff (routine s u)) (u_sockets u) (u_sub u) u.
Proof. by destruct s, u. Qed.

Lemma recv_moves s r u u' : stream_inv u -> phase_of s u = GReceiving ->
  recv_step block_Deserialize tx_Deserialize AsErrno config s r u = Some u' ->
  exists q b n z, u' = move s q b n z u /\ moves s (zlabel_of (GRecv s r)) u q b n z.
Proof.
  intros I Hp. pose proof (has_backoff s u I ltac:(by rewrite Hp)) as Hb.
  pose proof (has_sockets s u I ltac:(by rewrite Hp)) as Hn.
  assert (Hk : u_stop u <> GStopped) by (intros E; pose proof (ti_stopped u I s E) as Hq; by rewrite Hp in Hq).
  assert (Hpend : pending s (u_sub u) = false) by (rewrite (ti_pending u I s); by rewrite Hp).
  unfold recv_step. destruct r as [msg|e]; cbn [Stream.zlabel_of].
  - rewrite (bool_decide_false (u_stop u = GStopped)) by done. cbn [andb].
    destruct (step_sub (message_label s msg) u) as [u1|] eqn:E1; [|done]. intros [= <-].
    apply step_sub_Some in E1 as (z & Hz & ->). destruct (message_frame s msg _ _ Hz) as [F1 F2].
    eexists _, _, _, z. split; [by rewrite <- (set_sockets_id (set_sub z u)) at 2; apply set_phase_move|].
    cbn [u_sub set_sub u_sockets]. split; try done.
    + rewrite Hp. by destruct (pending s z).
    + by destruct (pending s z).
    + intros _. rewrite Hp. by destruct (pending s z).
    + intros _. rewrite Hp. destruct (pending s z); cbn; lia.
  - destruct (isZMQTimeout AsErrno e).
    + intros [= <-]. rewrite still_phase. eexists _, _, _, _. split; [done|].
      apply moves_still; rewrite ?Hp; try done. intros _. cbn. lia.
    + destruct (step_sub ZError u) as [u1|] eqn:E1; [|done]. intros [= <-].
      apply step_sub_Some in E1 as (z & Hz & ->).
      destruct (take_frame ZError (u_sub u) z ltac:(auto) Hz) as [F1 F2].
      unfold close_and. eexists _, _, _, z. split; [apply set_phase_move|]. split; try done.
      * rewrite Hp. cbn. lia.
      * by rewrite F2, Hpend.
      * intros _. by rewrite Hp.
      * intros _. rewrite Hp. cbn. lia.
Qed.

Lemma send_moves s l u u1 q n : stream_inv u -> phase_of s u = GSending -> l = send_label s \/ l = drop_label s ->
  step_sub l u = Some u1 -> q <> GSending ->
  (n + 1 = u_sockets u + Nat.b2n (has_socket q))%nat -> (rank q < 3)%nat ->
  exists z, set_phase s q (set_sockets n u1) = move s q (g_backoff (routine s u)) n z u /\
    moves s (Some l) u q (g_backoff (routine s u)) n z.
Proof.
  intros I Hp Hl (z & Hz & ->)%step_sub_Some Hq Hn Hr. destruct (send_frame s l _ _ Hl Hz) as (F1 & F2 & F3).
  exists z. split; [apply set_phase_move|]. split; try done.
  - by rewrite Hp.
  - by rewrite F2, bool_decide_false.
  - apply has_backoff; [done|]. by rewrite Hp.
  - intros _. by rewrite Hp.
  - intros _. by rewrite Hp.
Qed.

Lemma routine_step l s u u' : stream_inv u -> stream_of l = Some s -> gstep l u = Some u' ->
  exists q b n z, u' = move s q b n z u /\ moves s (zlabel_of l) u q b n z.
Proof.
  intros I Hl. unfold Stream.gstep. rewrite (ti_crashed u I).
  destruct l as [|o|o a|o|o|o|o r|o|o| | | | |]; cbn in Hl; try done; injection Hl as ->;
    destruct (at_phase s _ u) eqn:Hp; cbn [andb]; try done; apply at_phase_true in Hp;
    pose proof (has_backoff s u I ltac:(by rewrite Hp)) as Hb.
  - intros [= <-]. rewrite still_phase. eexists _, _, _, _. split; [done|].
    apply moves_still; rewrite ?Hp; try done; destruct (z_done (u_sub u)); try done. intros _; cbn; lia.
  - intros [= <-]. unfold open_step.
    pose proof (newSubSocket_sockets a (addr_of config s) (topic_of s) (u_sockets u)) as Hn.
    destruct (newSubSocket a _ _ _) as [[v|e] n]; cbn [fst snd] in Hn; subst n.
    + eexists GPolling, 1, _, (u_sub u). split; [by destruct s, u|]. apply moves_still; rewrite ?Hp; try done.
      * cbn. lia.
      * by left.
      * intros _. cbn. lia.
    + rewrite still_move. eexists _, _, _, _. split; [done|]. apply moves_still; rewrite ?Hp; try done.
      intros _. cbn. lia.
  - intros [= <-]. eexists GTop, _, (u_sockets u), (u_sub u). split; [by destruct s, u|].
    apply moves_still; rewrite ?Hp; try done; [by apply next_backoff_in|]. intros _. cbn. lia.
  - destruct (z_done (u_sub u)); [|done]. intros [= <-]. rewrite still_phase. eexists _, _, _, _. split; [done|].
    apply moves_still; rewrite ?Hp; try done. intros _. cbn. lia.
  - pose proof (has_sockets s u I ltac:(by rewrite Hp)) as Hn. intros [= <-].
    destruct (z_done (u_sub u)) eqn:Ed.
    + unfold close_and. rewrite still_move. eexists _, _, _, _. split; [done|].
      apply moves_still; rewrite ?Hp; try done; cbn; lia.
    + rewrite still_phase. eexists _, _, _, _. split; [done|]. apply moves_still; rewrite ?Hp, ?Ed; done.
  - by apply recv_moves.
  - pose proof (has_sockets s u I ltac:(by rewrite Hp)) as Hn. unfold send_step.
    rewrite bool_decide_false by (intros E; pose proof (ti_stopped u I s E) as Hq; by rewrite Hp in Hq).
    destruct (step_sub _ u) as [u1|] eqn:E1; [|done]. intros [= <-].
    destruct (send_moves s _ u u1 GPolling (u_sockets u) I Hp (or_introl eq_refl) E1) as (z & H1 & H2); [done|cbn; lia..|].
    exists GPolling, (g_backoff (routine s u)), (u_sockets u), z. split; [|done]. rewrite <- H1.
    apply step_sub_Some in E1 as (z' & _ & ->). by destruct s.
  - pose proof (has_sockets s u I ltac:(by rewrite Hp)) as Hn.
    destruct (step_sub _ u) as [u1|] eqn:E1; [|done]. intros [= <-].
    assert (Hs : u_sockets u1 = u_sockets u) by (by apply step_sub_Some in E1 as (z & _ & ->)).
    destruct (send_moves s _ u u1 GTop (pred (u_sockets u)) I Hp (or_intror eq_refl) E1) as (z & H1 & H2); [done|cbn; lia..|].
    exists GTop, (g_backoff (routine s u)), (pred (u_sockets u)), z. split; [|done]. rewrite <- H1.
    unfold close_and. by rewrite Hs.
Qed.

(** ** Every step *)

(** The step of [Zmq] it is, if any. *)
Definition sub_step (l : glabel) (u u' : Subscriber) : Prop :=
  match zlabel_of l with
  | Some zl => zstep zl (u_sub u) = Some (u_sub u')
  | None => u_sub u' = u_sub u
  end.

Definition left_over (u : Subscriber) : nat := (rank (phase_of SBlock u) + rank (phase_of STx u))%nat.

Definition own_steps (ls : list glabel) : nat := length (filter (fun l => is_Some (stream_of l)) ls).

Lemma left_over_move s q b n z u :
  (left_over (move s q b n z u) + rank (phase_of s u) = left_over u + rank q)%nat.
Proof. unfold left_over. destruct s; unfold phase_of; cbn; lia. Qed.

(** The channels and counters change and nothing else does. *)
Lemma inv_set_sub l z u : stream_inv u -> zstep l (u_sub u) = Some z ->
  l = ZTakeBlock \/ l = ZTakeTx \/ l = ZTakeGap \/ l = ZError -> stream_inv (set_sub z u).
Proof.
  intros [I1 I2 I3 I4 I5 I6] Hz Hl. destruct (take_frame l _ _ Hl Hz) as [F1 F2]. split; try done.
  - intros s. cbn. rewrite F2, I3. by destruct s.
  - cbn. by rewrite F1, I5.
Qed.

Record step_ok (l : glabel) (u u' : Subscriber) : Prop := {
  so_inv : stream_inv u';
  so_sub : sub_step l u u';
  so_done : z_done (u_sub u) = true -> z_done (u_sub u') = true;
  so_left : z_done (u_sub u) = true -> (left_over u' + own_steps [l] <= left_over u)%nat;
}.

Lemma take_ok l zl u u' : stream_inv u -> zlabel_of l = Some zl -> own_steps [l] = 0%nat ->
  zl = ZTakeBlock \/ zl = ZTakeTx \/ zl = ZTakeGap -> step_sub zl u = Some u' -> step_ok l u u'.
Proof.
  intros I Hl Ho Hzl (z & Hz & ->)%step_sub_Some.
  assert (Hzl' : zl = ZTakeBlock \/ zl = ZTakeTx \/ zl = ZTakeGap \/ zl = ZError) by tauto.
  destruct (take_frame zl _ _ Hzl' Hz) as [F1 _]. split.
  - by eapply inv_set_sub.
  - unfold sub_step. by rewrite Hl.
  - intros H. cbn. by rewrite F1.
  - intros _. rewrite Ho. unfold left_over, phase_of. cbn. lia.
Qed.

Lemma step_all l u u' : stream_inv u -> gstep l u = Some u' -> step_ok l u u'.
Proof.
  intros I Hs. destruct (stream_of l) as [s|] eqn:Hl.
  { destruct (routine_step l s u u' I Hl Hs) as (q & b & n & z & -> & M). split.
    - by eapply inv_move.
    - pose proof (mv_sub _ _ _ _ _ _ _ M) as H. unfold sub_step.
      assert (E : u_sub (move s q b n z u) = z) by (by destruct s). rewrite E. by destruct (zlabel_of l).
    - assert (E : u_sub (move s q b n z u) = z) by (by destruct s). rewrite E. by rewrite (mv_done _ _ _ _ _ _ _ M).
    - intros Hd. pose proof (mv_rank _ _ _ _ _ _ _ M Hd). pose proof (left_over_move s q b n z u).
      assert (own_steps [l] = 1%nat) as -> by (unfold own_steps; rewrite filter_cons_True by (by rewrite Hl); done). lia. }
  assert (Ho : own_steps [l] = 0%nat) by (unfold own_steps; rewrite filter_cons_False by (rewrite Hl; by intros [? ?]); done).
  unfold Stream.gstep in Hs. rewrite (ti_crashed u I) in Hs. pose proof I as [I1 I2 I3 I4 I5 I6].
  destruct l; try done; [|by eapply take_ok; eauto..| |].
  - destruct (at_phase SBlock GIdle u) eqn:H1, (at_phase STx GIdle u) eqn:H2; try done. injection Hs as <-.
    apply at_phase_true in H1, H2. split; try done.
    + split; try done; cbn.
      * by rewrite I2, H1, H2.
      * intros s. rewrite I3. destruct s; by rewrite ?H1, ?H2.
      * intros s. right. destruct s; by left.
      * by intros [].
    + intros _. rewrite Ho. unfold left_over. rewrite H1, H2. cbn. lia.
  - destruct (u_stop u) eqn:Ek; try done. unfold Stream.step_sub in Hs. cbn in Hs. injection Hs as <-.
    split; try done.
    intros _; rewrite Ho; unfold left_over, phase_of; cbn; lia.
  - destruct (u_stop u) eqn:Ek; try done. destruct (not_running SBlock u && not_running STx u) eqn:Hq; [|done].
    injection Hs as <-. apply andb_prop in Hq as [Hq1 Hq2].
    assert (Hq : forall s, is_quiet (phase_of s u) = true).
    { intros s. assert (Hs : not_running s u = true) by (by destruct s). unfold not_running in Hs.
      apply orb_prop in Hs as [Hs|Hs]; apply at_phase_true in Hs; by rewrite Hs. }
    split; try done.
    + split; try done; cbn. intros s _. exact (Hq s).
    + intros _; rewrite Ho; unfold left_over, phase_of; cbn; lia.
Qed.

Lemma run_all ls : forall u u', stream_inv u -> grun ls u = Some u' ->
  stream_inv u' /\ zrun (omap zlabel_of ls) (u_sub u) = Some (u_sub u') /\
  (z_done (u_sub u) = true -> z_done (u_sub u') = true /\ (left_over u' + own_steps ls <= left_over u)%nat).
Proof.
  induction ls as [|l ls IH]; intros u u' I; cbn [Stream.grun].
  { intros [= <-]. split_and!; [done|done|]. intros Hd. split; [done|]. unfold own_steps. cbn. lia. }
  destruct (gstep l u) as [u1|] eqn:E1; [|done]. cbn [mbind option_bind]. intros Hr.
  destruct (step_all l u u1 I E1) as [S1 S2 S3 S4]. destruct (IH u1 u' S1 Hr) as (R1 & R2 & R3). split_and!; [done| |].
  - unfold sub_step in S2. cbn. destruct (zlabel_of l) as [zl|] eqn:El; cbn; [by rewrite S2|by rewrite <- S2].
  - intros Hd. destruct (R3 (S3 Hd)) as [G1 G2]. specialize (S4 Hd). split; [done|].
    assert (own_steps (l :: ls) = (own_steps [l] + own_steps ls)%nat) as ->
      by (unfold own_steps; by rewrite <- length_app, <- filter_app). lia.
Qed.

(** ** Until [Stop], nothing is dropped *)

Lemma zstep_done l z z' : zstep l z = Some z' -> z_done z' = false -> z_done z = false /\ not_dropped l.
Proof.
  intros Hz Hd. destruct (z_done z) eqn:E.
  - exfalso. assert (z_done z' = true); [|by rewrite Hd in *].
    destruct l as [msg|msg| | | | | | | | |].
    1: by destruct (message_frame SBlock msg _ _ Hz) as [-> _].
    1: by destruct (message_frame STx msg _ _ Hz) as [-> _].
    1: by destruct (send_frame SBlock ZBlockSend _ _ (or_introl eq_refl) Hz) as [-> _].
    1: by destruct (send_frame STx ZTxSend _ _ (or_introl eq_refl) Hz) as [-> _].
    1-4: match type of Hz with Zmq.zstep _ _ _ _ ?l _ = _ =>
           by destruct (take_frame l _ _ ltac:(auto) Hz) as [-> _] end.
    + by injection Hz as <-.
    + by destruct (send_frame SBlock ZDropBlock _ _ (or_intror eq_refl) Hz) as [-> _].
    + by destruct (send_frame STx ZDropTx _ _ (or_intror eq_refl) Hz) as [-> _].
  - split; [done|]. destruct l; try by split. all: exfalso; cbn in Hz; rewrite E in Hz; by case_match.
Qed.

Lemma zrun_not_dropped ls : forall z z', zrun ls z = Some z' -> z_done z' = false -> z_done z = false /\ Forall not_dropped ls.
Proof.
  induction ls as [|l ls IH]; intros z z'; cbn [Zmq.zrun]; [by intros [= <-]|].
  destruct (zstep l z) as [z1|] eqn:E; [|done]. cbn [mbind option_bind]. intros Hr Hd.
  destruct (IH z1 z' Hr Hd) as [H1 H2]. destruct (zstep_done l z z1 E H1) as [H3 H4]. split; [done|by constructor].
Qed.

(** ** After [Stop] has cancelled *)

(** The goroutine can go on, whatever its socket answers, without a receive of
    the main loop. *)
Definition can_go_on (s : zstream) (u : Subscriber) : Prop :=
  match phase_of s u with
  | GTop => is_Some (gstep (GLoop s) u)
  | GOpening => forall a, is_Some (gstep (GOpen s a) u)
  | GWaiting => is_Some (gstep (GGiveUp s) u)
  | GPolling => is_Some (gstep (GPoll s) u)
  | GReceiving => forall r, is_Some (gstep (GRecv s r) u)
  | GSending => is_Some (gstep (GDrop s) u)
  | GIdle | GReturned => False
  end.

(** The socket's answers are [a] and [r]; the main loop takes nothing. *)
Definition answered (a : zmq_answers) (r : result (list bytes)) (l : glabel) : Prop :=
  match l with
  | GOpen _ a' => a' = a
  | GRecv _ r' => r' = r
  | GLoop _ | GGiveUp _ | GPoll _ | GDrop _ | GClose => True
  | _ => False
  end.

Lemma not_running_phase s u : not_running s u = true <-> phase_of s u = GIdle \/ phase_of s u = GReturned.
Proof. unfold not_running. by rewrite orb_true_iff, !at_phase_true. Qed.

Lemma goes_on s u : stream_inv u -> u_stop u <> GRunning -> not_running s u = true \/ can_go_on s u.
Proof.
  intros I Hk. assert (Hd : z_done (u_sub u) = true) by (rewrite (ti_done u I); by apply bool_decide_true).
  assert (Hat : at_phase s (phase_of s u) u = true) by (by apply at_phase_true).
  unfold can_go_on. destruct (phase_of s u) eqn:Hp; try (left; apply not_running_phase; by auto).
  all: right; unfold Stream.gstep; rewrite (ti_crashed u I), Hat; cbn [andb]; rewrite ?Hd; try done.
  - intros r. unfold recv_step. destruct r as [msg|e].
    + case_match; [done|]. destruct (message_enabled s msg (u_sub u)) as [z Hz];
        [by rewrite (ti_pending u I s), Hp|]. unfold Stream.step_sub. rewrite Hz. done.
    + by case_match.
  - assert (Hpend : pending s (u_sub u) = true) by (rewrite (ti_pending u I s); by rewrite Hp).
    unfold Stream.step_sub. destruct s; cbn in Hpend; cbn [drop_label Zmq.zstep]; rewrite Hd;
      [destruct (z_pending_block _)|destruct (z_pending_tx _)]; done.
Qed.

Lemma goes_one s u a r : stream_inv u -> u_stop u <> GRunning -> not_running s u = false ->
  exists l u', gstep l u = Some u' /\ answered a r l /\ stream_of l = Some s.
Proof.
  intros I Hk Hn. destruct (goes_on s u I Hk) as [H|H]; [by rewrite Hn in H|]. unfold can_go_on in H.
  destruct (phase_of s u); try done.
  - destruct H as [u' H]. by exists (GLoop s), u'.
  - destruct (H a) as [u' H']. by exists (GOpen s a), u'.
  - destruct H as [u' H]. by exists (GGiveUp s), u'.
  - destruct H as [u' H]. by exists (GPoll s), u'.
  - destruct (H r) as [u' H']. by exists (GRecv s r), u'.
  - destruct H as [u' H]. by exists (GDrop s), u'.
Qed.

Lemma routine_keeps_stop l s u u' : stream_inv u -> stream_of l = Some s -> gstep l u = Some u' -> u_stop u' = u_stop u.
Proof. intros I Hl Hg. destruct (routine_step l s u u' I Hl Hg) as (q & b & n & z & -> & _). by destruct s. Qed.

Lemma winds_down k : forall u a r, stream_inv u -> u_stop u <> GRunning -> (left_over u <= k)%nat ->
  exists ls u', grun ls u = Some u' /\ Forall (answered a r) ls /\ (length ls <= k)%nat /\
    stream_inv u' /\ u_stop u' = u_stop u /\ not_running SBlock u' = true /\ not_running STx u' = true.
Proof.
  induction k as [|k IH]; intros u a r I Hk Hl; destruct (not_running SBlock u && not_running STx u) eqn:Hn.
  1,3: apply andb_prop in Hn as [H1 H2]; exists [], u; split_and!; try done; cbn; lia.
  all: assert (Hs : exists s, not_running s u = false)
      by (apply andb_false_iff in Hn as [?|?]; eauto); destruct Hs as [s Hs].
  - exfalso. assert (Hr : (rank (phase_of s u) <= left_over u)%nat) by (unfold left_over; destruct s; lia).
    assert (Hz : phase_of s u = GReturned) by (destruct (phase_of s u); cbn in Hr; done || lia).
    by rewrite (proj2 (not_running_phase s u) (or_intror Hz)) in Hs.
  - destruct (goes_one s u a r I Hk Hs) as (l & u1 & E1 & Ha & Hst).
    destruct (step_all l u u1 I E1) as [S1 _ _ S4].
    pose proof (routine_keeps_stop l s u u1 I Hst E1) as Hstop.
    assert (Hd : z_done (u_sub u) = true) by (rewrite (ti_done u I); by apply bool_decide_true).
    specialize (S4 Hd). assert (Ho : own_steps [l] = 1%nat)
      by (unfold own_steps; rewrite filter_cons_True by (by rewrite Hst); done).
    destruct (IH u1 a r S1 ltac:(by rewrite Hstop) ltac:(lia)) as (ls & u' & R1 & R2 & R3 & R4 & R5 & R6).
    exists (l :: ls), u'. cbn [Stream.grun]. rewrite E1. split_and!; [done|by constructor|cbn; lia|done|by rewrite R5|by destruct R6..].
Qed.

(** ** The theorems *)

Lemma left_over_max u : (left_over u <= 8)%nat.
Proof. unfold left_over. destruct (phase_of SBlock u), (phase_of STx u); cbn; lia. Qed.

Lemma stopped_no_socket u : stream_inv u -> u_stop u = GStopped \/ not_running SBlock u && not_running STx u = true ->
  u_sockets u = 0%nat /\ forall s, pending s (u_sub u) = false.
Proof.
  intros I H. assert (Hq : forall s, is_quiet (phase_of s u) = true).
  { destruct H as [H|[H1 H2]%andb_prop]; [intros s; by apply (ti_stopped u I)|].
    intros s. assert (Hs : not_running s u = true) by (by destruct s).
    apply not_running_phase in Hs as [-> | ->]; done. }
  split.
  - rewrite (ti_sockets u I). pose proof (Hq SBlock). pose proof (Hq STx).
    by destruct (phase_of SBlock u), (phase_of STx u).
  - intros s. rewrite (ti_pending u I s). specialize (Hq s). by destruct (phase_of s u).
Qed.

(** Until [Stop], the streams and the gaps are as [Zmq] has them. *)
Lemma run_streams ls u : grun ls new_Subscriber = Some u -> u_stop u = GRunning ->
  omap (block_of block_Deserialize) (omap zlabel_of ls) =
    taken block_Deserialize tx_Deserialize (cfg_BlockChanSize config) (cfg_TxChanSize config) took_block
      (omap zlabel_of ls) NewZMQSubscriber ++ z_blockChan (u_sub u) ++ option_list (z_pending_block (u_sub u)) /\
  omap (tx_of tx_Deserialize) (omap zlabel_of ls) =
    taken block_Deserialize tx_Deserialize (cfg_BlockChanSize config) (cfg_TxChanSize config) took_tx
      (omap zlabel_of ls) NewZMQSubscriber ++ z_txChan (u_sub u) ++ option_list (z_pending_tx (u_sub u)) /\
  z_seqGapsBlock (u_sub u) = i64 (losses (omap (seq_of SBlock) (omap zlabel_of ls))) /\
  z_seqGapsTx (u_sub u) = i64 (losses (omap (seq_of STx) (omap zlabel_of ls))) /\
  (length (z_blockChan (u_sub u)) <= cfg_BlockChanSize config)%nat /\
  (length (z_txChan (u_sub u)) <= cfg_TxChanSize config)%nat.
Proof.
  intros Hrun Hk. destruct (run_all ls _ u new_inv Hrun) as (I & Hz & _).
  destruct (zrun_not_dropped _ _ _ Hz) as [_ Hn]; [by rewrite (ti_done u I), Hk|].
  destruct (zinv_run block_Deserialize tx_Deserialize (cfg_BlockChanSize config) (cfg_TxChanSize config)
    _ NewZMQSubscriber (u_sub u) [] [] 0 0 ltac:(split; cbn; auto with lia) Hz Hn)
    as (bs & ts & H1 & H2 & [E1 E2 E3 E4 _ E6 E7]). cbn [app z_lastBlockSeq z_lastTxSeq NewZMQSubscriber] in *.
  rewrite gaps_after_zero, Z.add_0_l in E6, E7. by subst bs ts.
Qed.

(** C19: the two goroutines with their sockets implement the subscriber of [Zmq]:
    whatever the sockets answer and however the goroutines, the main loop and
    [Stop] interleave, the run is a run of its channels and counters; it never
    sends on a closed channel; the open sockets are exactly those of the
    goroutines that receive; a goroutine waits 1, 2, 4, 8, 16 or 30 seconds
    between attempts and has something to send exactly in its select; and until
    [Stop] the main loop has got, or will find in the channel or waiting for it,
    every well-formed block and transaction that arrived, in order, across all
    reconnections, and the gaps counted are those of the sequence numbers. *)
Theorem subscriber_run_refines (ls : list glabel) (u : Subscriber) (Hrun : grun ls new_Subscriber = Some u) :
  zrun (omap zlabel_of ls) NewZMQSubscriber = Some (u_sub u) /\
  u_crashed u = false /\
  u_sockets u = (Nat.b2n (has_socket (phase_of SBlock u)) + Nat.b2n (has_socket (phase_of STx u)))%nat /\
  (forall s, phase_of s u = GIdle \/ g_backoff (routine s u) ∈ [1; 2; 4; 8; 16; 30]) /\
  (forall s, pending s (u_sub u) = true <-> phase_of s u = GSending) /\
  (u_stop u = GRunning ->
     omap (block_of block_Deserialize) (omap zlabel_of ls) =
       taken block_Deserialize tx_Deserialize (cfg_BlockChanSize config) (cfg_TxChanSize config) took_block
         (omap zlabel_of ls) NewZMQSubscriber ++
       z_blockChan (u_sub u) ++ option_list (z_pending_block (u_sub u)) /\
     omap (tx_of tx_Deserialize) (omap zlabel_of ls) =
       taken block_Deserialize tx_Deserialize (cfg_BlockChanSize config) (cfg_TxChanSize config) took_tx
         (omap zlabel_of ls) NewZMQSubscriber ++
       z_txChan (u_sub u) ++ option_list (z_pending_tx (u_sub u)) /\
     z_seqGapsBlock (u_sub u) = i64 (losses (omap (seq_of SBlock) (omap zlabel_of ls))) /\
     z_seqGapsTx (u_sub u) = i64 (losses (omap (seq_of STx) (omap zlabel_of ls)))).
Proof.
  destruct (run_all ls _ u new_inv Hrun) as (I & Hz & _). split_and!; try apply I; [done|..].
  - intros s. rewrite (ti_pending u I s). apply bool_decide_eq_true.
  - intros Hk. destruct (run_streams ls u Hrun Hk) as (H1 & H2 & H3 & H4 & _). done.
Qed.

(** C20: [Stop] ends: once it has cancelled, the goroutines have at most eight
    steps left between them, whatever the sockets answer; until both have
    returned, each can go on without the main loop receiving anything; when they
    have, no socket is open and no block waits to be sent, and [Stop] can close
    the channels; so for any answers of the sockets it does so after at most nine
    steps, and no send on a closed channel follows. *)
Theorem subscriber_stops (ls : list glabel) (u : Subscriber)
    (Hrun : grun ls new_Subscriber = Some u) (Hstop : u_stop u <> GRunning) :
  (forall ls' u', grun ls' u = Some u' -> (own_steps ls' <= 8)%nat /\ u_crashed u' = false) /\
  (forall s, not_running s u = true \/ can_go_on s u) /\
  (not_running SBlock u && not_running STx u = true ->
     u_sockets u = 0%nat /\ (forall s, pending s (u_sub u) = false) /\
     (u_stop u = GStopping -> is_Some (gstep GClose u))) /\
  (forall a r, exists ls' u', grun ls' u = Some u' /\ Forall (answered a r) ls' /\ (length ls' <= 9)%nat /\
     u_stop u' = GStopped /\ u_sockets u' = 0%nat).
Proof.
  destruct (run_all ls _ u new_inv Hrun) as (I & _ & _).
  assert (Hd : z_done (u_sub u) = true) by (rewrite (ti_done u I); by apply bool_decide_true).
  pose proof (left_over_max u) as Hmax.
  assert (Hclose : forall v, stream_inv v -> not_running SBlock v && not_running STx v = true -> u_stop v = GStopping ->
    gstep GClose v = Some (set_stop GStopped v)).
  { intros v Iv Hn Hv. unfold Stream.gstep. by rewrite (ti_crashed v Iv), Hv, Hn. }
  split_and!.
  - intros ls' u' Hr. destruct (run_all ls' u u' I Hr) as (I' & _ & H). destruct (H Hd) as [_ H'].
    split; [lia|apply I'].
  - intros s. by apply goes_on.
  - intros Hn. destruct (stopped_no_socket u I (or_intror Hn)) as [H1 H2]. split_and!; [done..|].
    intros Hk. by rewrite (Hclose u I Hn Hk).
  - intros a r. destruct (winds_down 8 u a r I Hstop Hmax) as (ls' & v & E & Ha & Hlen & Iv & Hk & Hn1 & Hn2).
    assert (Hn : not_running SBlock v && not_running STx v = true) by (by rewrite Hn1, Hn2).
    destruct (stopped_no_socket v Iv (or_intror Hn)) as [Hs _]. destruct (u_stop u) eqn:Eu; [done| |].
    + exists (ls' ++ [GClose]), (set_stop GStopped v).
      assert (Happ : forall l1 l2 x, grun (l1 ++ l2) x = y ← grun l1 x; grun l2 y).
      { intros l1 l2. induction l1 as [|l l1 IH]; intros x; [done|]. cbn. destruct (gstep l x); [apply IH|done]. }
      rewrite Happ, E. cbn [mbind option_bind Stream.grun]. rewrite (Hclose v Iv Hn Hk). split_and!; try done.
      * apply Forall_app. split; [done|by constructor].
      * rewrite length_app. cbn. lia.
    + exists ls', v. split_and!; try done. lia.
Qed.

End Props.

(** ** Witnesses *)

Definition good_answers : zmq_answers := mkAnswers (Ok ()) (fun _ => Ok ()) (fun _ => Ok ()).
Definition refused : zmq_answers := mkAnswers (Ok ()) (fun _ => Err (ENew "connection refused")) (fun _ => Ok ()).

(** Only this error is a timeout. *)
Definition sample_AsErrno (e : error) : Z := if decide (e = ENew "resource temporarily unavailable") then EAGAIN else 104.

(** The node is not there at first; a block comes, the connection breaks and is
    made again; the channel has room for one block, so the second waits. *)
Definition sample_reconnect : list glabel :=
  [GStart; GLoop SBlock; GOpen SBlock refused; GTimer SBlock; GLoop STx; GOpen STx good_answers;
   GLoop SBlock; GOpen SBlock good_answers; GPoll SBlock; GRecv SBlock (Ok [topic; [x01]; le_encode 4 5]); GSend SBlock;
   GPoll SBlock; GRecv SBlock (Err (ENew "resource temporarily unavailable")); GPoll SBlock;
   GRecv SBlock (Err (ENew "connection reset")); GTimer SBlock; GLoop SBlock; GOpen SBlock good_answers; GPoll SBlock;
   GRecv SBlock (Ok [topic; [x02]; le_encode 4 6])].

Definition sample_config : ZMQConfig := mkZMQConfig "tcp://127.0.0.1:28332" "tcp://127.0.0.1:28333" 1 1.

#[local] Notation sample_grun ls :=
  (grun sample_decode sample_decode_tx sample_AsErrno sample_config ls (@new_Subscriber ModelBtcd)).

Definition reconnect_end (ls : list glabel) : @Subscriber ModelBtcd := default new_Subscriber (sample_grun ls).

Lemma sample_reconnect_run : sample_grun sample_reconnect = Some (reconnect_end sample_reconnect).
Proof. apply Some_default, (bool_decide_eq_true_1 _). vm_compute. reflexivity. Qed.

Lemma sample_cancel_run :
  sample_grun (sample_reconnect ++ [GCancel]) = Some (reconnect_end (sample_reconnect ++ [GCancel])).
Proof. apply Some_default, (bool_decide_eq_true_1 _). vm_compute. reflexivity. Qed.

Lemma subscriber_run_refines_witness :
  u_sockets (reconnect_end sample_reconnect) = 2%nat /\
  phase_of SBlock (reconnect_end sample_reconnect) = GSending /\
  u_crashed (reconnect_end sample_reconnect) = false.
Proof.
  split; [vm_compute; reflexivity|]. split; [vm_compute; reflexivity|].
  exact (proj1 (proj2 (subscriber_run_refines sample_decode sample_decode_tx sample_AsErrno sample_config
    sample_reconnect _ sample_reconnect_run))).
Defined.

Lemma subscriber_stops_witness :
  exists ls' u', grun sample_decode sample_decode_tx sample_AsErrno sample_config ls'
    (reconnect_end (sample_reconnect ++ [GCancel])) = Some u' /\ u_stop u' = GStopped /\ u_sockets u' = 0%nat.
Proof.
  destruct (proj2 (proj2 (proj2 (subscriber_stops sample_decode sample_decode_tx sample_AsErrno sample_config
    _ _ sample_cancel_run ltac:(vm_compute; discriminate)))) good_answers (Err (ENew "connection reset")))
    as (ls' & u' & H1 & _ & _ & H2 & H3).
  exists ls', u'. split; [exact H1|]. split; [exact H2|exact H3].
Defined.

(** The configuration the program starts with at the node of the sample. *)
Example default_tested :
  testConnections good_answers refused (cfg_BlockAddr DefaultZMQConfig) (cfg_TxAddr DefaultZMQConfig) 0%nat =
    (Err (connect_error "tx" "zmqpubrawtx" "tcp://127.0.0.1:28333" (ENew "connection refused")), 0%nat).
Proof. vm_compute. reflexivity. Qed.
