(* ===== verification/GoFloat.v ===== *)
(** * [float64]: the part of it the request handlers use

    Values and arithmetic are those of [SpecFloat] at binary64, which is
    executable and free of axioms.  [ParseFloat] is [strconv.ParseFloat] on the
    literals the JSON scanner lets through.  Converting a value to an integer
    type that cannot hold it is implementation-dependent in Go: a [platform]
    says what the implementation does there. *)

From Stdlib Require Import Strings.Byte Floats.SpecFloat.
From S2P Require Import Prelude Bytes Hex.

Definition float64 : Type := spec_float.
Definition binary64_prec : Z := 53.
Definition binary64_emax : Z := 1024.

#[export] Instance float64_eq_dec : EqDecision float64.
Proof. solve_decision. Defined.

Definition round64 (neg : bool) (m e : Z) (l : location) : float64 :=
  binary_round_aux binary64_prec binary64_emax neg m e l.

(** [float64(z)], the nearest value, and [z * 2^e]. *)
Definition scaled (z e : Z) : float64 := binary_normalize binary64_prec binary64_emax z e false.
Definition float_of_Z (z : Z) : float64 := scaled z 0.

Definition float_add (a b : float64) : float64 := SFadd binary64_prec binary64_emax a b.
Definition float_div (a b : float64) : float64 := SFdiv binary64_prec binary64_emax a b.
Definition float_gtb (a b : float64) : bool := SFltb b a.

(** ** Parsing *)

(** Where a literal is being read: digits so far, digits after the point, the
    exponent and its sign. *)
Inductive num_part := PInt | PFrac | PExp.
Record num_acc := mkNumAcc {
  na_part : num_part; na_digits : Z; na_frac : Z; na_exp : Z; na_expneg : bool;
}.

Definition num_byte (a : num_acc) (c : byte) : num_acc :=
  let z := Z_of_byte c in
  if is_digit c then
    let d := z - 48 in
    match na_part a with
    | PInt => mkNumAcc PInt (na_digits a * 10 + d) (na_frac a) (na_exp a) (na_expneg a)
    | PFrac => mkNumAcc PFrac (na_digits a * 10 + d) (na_frac a + 1) (na_exp a) (na_expneg a)
    | PExp =>
        (* strconv stops counting once the exponent is past every float *)
        mkNumAcc PExp (na_digits a) (na_frac a)
          (if na_exp a <? 10000 then na_exp a * 10 + d else na_exp a) (na_expneg a)
    end
  else if z =? 46 then mkNumAcc PFrac (na_digits a) (na_frac a) (na_exp a) (na_expneg a)
  else if (z =? 101) || (z =? 69) then mkNumAcc PExp (na_digits a) (na_frac a) (na_exp a) (na_expneg a)
  else if z =? 45 then mkNumAcc (na_part a) (na_digits a) (na_frac a) (na_exp a) true
  else a.

(** [m * 10^e], correctly rounded. *)
Definition decimal (neg : bool) (m e : Z) : float64 :=
  if m =? 0 then S754_zero neg
  else if 0 <=? e then
    scaled (if neg then - (m * 10 ^ e) else m * 10 ^ e) 0
  else
    let '(q, e', l) := SFdiv_core_binary binary64_prec binary64_emax m 0 (10 ^ (- e)) 0 in
    round64 neg q e' l.

(** [None]: out of range. *)
Definition ParseFloat (lit : bytes) : option float64 :=
  let '(neg, digits) := match lit with
                        | c :: rest => if decide (c = x2d) then (true, rest) else (false, lit)
                        | [] => (false, [])
                        end in
  let a := foldl num_byte (mkNumAcc PInt 0 0 0 false) digits in
  let e := (if na_expneg a then - na_exp a else na_exp a) - na_frac a in
  match decimal neg (na_digits a) e with
  | S754_infinity _ | S754_nan => None
  | f => Some f
  end.

(** ** Conversion to integers *)

(** The integer part, towards zero; [None] for what has none. *)
Definition truncate (f : float64) : option Z :=
  match f with
  | S754_zero _ => Some 0
  | S754_finite s m e =>
      let a := if 0 <=? e then Z.pos m * 2 ^ e else Z.pos m / 2 ^ (- e) in
      Some (if s then - a else a)
  | _ => None
  end.

(** What the implementation decides: what it converts an unrepresentable value
    to, and the largest buffer it allocates, which has room for the headers of one
    answer. *)
Record platform := mkPlatform {
  conv32 : float64 -> Z;
  conv64 : float64 -> Z;
  conv32_range : forall f, in_i32 (conv32 f);
  conv64_range : forall f, in_i64 (conv64 f);
  max_buffer : Z;
  max_buffer_headers : 2016 * 80 <= max_buffer;
}.

Section Conv.
Context (C : platform).

Definition to_int32 (f : float64) : Z :=
  match truncate f with
  | Some z => if decide (in_i32 z) then z else conv32 C f
  | None => conv32 C f
  end.

(** [int] has 64 bits. *)
Definition to_int64 (f : float64) : Z :=
  match truncate f with
  | Some z => if decide (in_i64 z) then z else conv64 C f
  | None => conv64 C f
  end.

Lemma to_int32_range f : in_i32 (to_int32 f).
Proof. unfold to_int32. destruct (truncate f); [case_decide; [done|]|]; apply conv32_range. Qed.

Lemma to_int64_range f : in_i64 (to_int64 f).
Proof. unfold to_int64. destruct (truncate f); [case_decide; [done|]|]; apply conv64_range. Qed.

Lemma to_int32_of f z : truncate f = Some z -> in_i32 z -> to_int32 f = z.
Proof. intros E H. unfold to_int32. rewrite E. by rewrite decide_True. Qed.

Lemma to_int64_of f z : truncate f = Some z -> in_i64 z -> to_int64 f = z.
Proof. intros E H. unfold to_int64. rewrite E. by rewrite decide_True. Qed.
End Conv.

(** The amd64 instruction gives the smallest integer; [make] takes 48-bit sizes. *)
#[refine] Definition amd64 : platform := {| conv32 _ := - 2 ^ 31; conv64 _ := - 2 ^ 63; max_buffer := 2 ^ 48 |}.
Proof. all: done. Defined.

Example ParseFloat_ex :
  (ParseFloat (bytes_of_string "0.1") ≫= truncate, ParseFloat (bytes_of_string "-12.9e1") ≫= truncate,
   ParseFloat (bytes_of_string "1e400")) = (Some 0, Some (-129), None).
Proof. vm_compute. reflexivity. Qed.

Example ParseFloat_tenth :
  ParseFloat (bytes_of_string "0.1") = Some (S754_finite false 7205759403792794 (-56)).
Proof. vm_compute. reflexivity. Qed.

(** ** Small integers are exact *)

Lemma digits2_pos_log m : Z.pos (digits2_pos m) = Z.log2 (Z.pos m) + 1.
Proof.
  induction m as [m IH|m IH|]; [| |done]; cbn [digits2_pos]; rewrite Pos2Z.inj_succ, IH.
  - rewrite Pos2Z.inj_xI, Z.log2_succ_double by lia. lia.
  - rewrite Pos2Z.inj_xO, Z.log2_double by lia. lia.
Qed.

Lemma digits2_shift z k : 0 < z -> 0 <= k -> Zdigits2 (z * 2 ^ k) = Z.log2 z + 1 + k.
Proof.
  intros Hz Hk. pose proof (Z.pow_pos_nonneg 2 k ltac:(lia) ltac:(lia)).
  pose proof (Z.mul_pos_pos z (2 ^ k) Hz ltac:(lia)).
  destruct (z * 2 ^ k) as [|m|m] eqn:E; [lia| |lia]. cbn [Zdigits2].
  rewrite digits2_pos_log, <- E, Z.log2_mul_pow2 by lia. lia.
Qed.

Lemma iter_xO p n : Z.pos (Pos.iter xO p n) = Z.pos p * 2 ^ Z.pos n.
Proof.
  induction n as [|n IH] using Pos.peano_ind; [cbn [Pos.iter]; rewrite Z.pow_1_r; lia|].
  rewrite Pos.iter_succ, (Pos2Z.inj_succ n), Z.pow_succ_r, Pos2Z.inj_xO, IH by lia. lia.
Qed.

Lemma iter_shr n m : 0 < m ->
  SpecFloat.iter_pos shr_1 n (Build_shr_record (m * 2 ^ Z.pos n) false false) = Build_shr_record m false false.
Proof.
  assert (H1 : forall x, 0 < x -> shr_1 (Build_shr_record (2 * x) false false) = Build_shr_record x false false)
    by (intros [|x|x] Hx; try lia; done).
  revert m; induction n as [n IH|n IH|]; intros m Hm; cbn [SpecFloat.iter_pos].
  - replace (m * 2 ^ Z.pos n~1) with (2 * (m * 2 ^ Z.pos n * 2 ^ Z.pos n)).
    2:{ replace (Z.pos n~1) with (Z.pos n + Z.pos n + 1) by lia. rewrite !Z.pow_add_r by lia. ring. }
    pose proof (Z.pow_pos_nonneg 2 (Z.pos n) ltac:(lia) ltac:(lia)). rewrite H1 by nia. rewrite IH by nia. by apply IH.
  - replace (m * 2 ^ Z.pos n~0) with (m * 2 ^ Z.pos n * 2 ^ Z.pos n)
      by (replace (Z.pos n~0) with (Z.pos n + Z.pos n) by lia; rewrite Z.pow_add_r by lia; ring).
    pose proof (Z.pow_pos_nonneg 2 (Z.pos n) ltac:(lia) ltac:(lia)). rewrite IH by nia. by apply IH.
  - rewrite Z.pow_1_r, Z.mul_comm. by apply H1.
Qed.

(** The float of an integer of at most 53 bits. *)
Definition pad (z : Z) : Z := 52 - Z.log2 (Z.abs z).
Definition exact (z : Z) : float64 :=
  match Z.abs z * 2 ^ pad z with
  | Z.pos m => S754_finite (z <? 0) m (- pad z)
  | _ => S754_zero false
  end.

Definition small (z : Z) : Prop := Z.abs z < 2 ^ 53.

Lemma pad_range z : small z -> z <> 0 -> 0 <= pad z <= 52.
Proof.
  unfold small, pad. intros H Hz. pose proof (Z.log2_nonneg (Z.abs z)).
  assert (Z.log2 (Z.abs z) < 53) by (apply Z.log2_lt_pow2; lia). lia.
Qed.

Lemma fexp_small d : -1000 <= d -> fexp binary64_prec binary64_emax d = d - 53.
Proof. unfold fexp, emin, binary64_prec, binary64_emax. lia. Qed.

(** Rounding [m * 2^k] at exponent [-k] when [k] is at least the padding. *)
Lemma round_exact s m k : 0 < m < 2 ^ 53 -> 52 - Z.log2 m <= k ->
  round64 s (m * 2 ^ k) (- k) loc_Exact =
  match m * 2 ^ (52 - Z.log2 m) with
  | Z.pos p => S754_finite s p (- (52 - Z.log2 m))
  | _ => S754_zero s
  end.
Proof.
  intros Hm Hk. set (d := 52 - Z.log2 m) in *. pose proof (Z.log2_nonneg m).
  assert (Z.log2 m < 53) by (apply Z.log2_lt_pow2; lia).
  assert (Hd : 0 <= d) by lia.
  assert (Hdig : Zdigits2 (m * 2 ^ d) = 53) by (rewrite digits2_shift by lia; lia).
  assert (Hshr : shr_fexp binary64_prec binary64_emax (m * 2 ^ k) (- k) loc_Exact =
    (Build_shr_record (m * 2 ^ d) false false, - d)).
  { unfold shr_fexp. rewrite digits2_shift, fexp_small by lia.
    replace (Z.log2 m + 1 + k + - k - 53 - - k) with (k - d) by lia.
    cbn [shr_record_of_loc]. destruct (k - d) as [|n|n] eqn:E; [|  |lia]; unfold shr.
    - by replace k with d by lia.
    - replace (m * 2 ^ k) with (m * 2 ^ d * 2 ^ Z.pos n)
        by (rewrite <- Z.mul_assoc, <- Z.pow_add_r by lia; do 2 f_equal; lia).
      rewrite iter_shr by (pose proof (Z.pow_pos_nonneg 2 d ltac:(lia) ltac:(lia)); nia). f_equal. lia. }
  unfold round64, binary_round_aux. rewrite Hshr. cbn [shr_m loc_of_shr_record round_nearest_even].
  assert (Hshr2 : shr_fexp binary64_prec binary64_emax (m * 2 ^ d) (- d) loc_Exact =
    (Build_shr_record (m * 2 ^ d) false false, - d)).
  { unfold shr_fexp. rewrite Hdig, fexp_small by lia. by replace (53 + - d - 53 - - d) with 0 by lia. }
  rewrite Hshr2. cbn [shr_m].
  pose proof (Z.pow_pos_nonneg 2 d ltac:(lia) ltac:(lia)). destruct (m * 2 ^ d) as [|p|p] eqn:E; [nia| |nia].
  rewrite (proj2 (Z.leb_le _ _)); [done|]. unfold binary64_emax, binary64_prec. lia.
Qed.

Lemma scaled_exact z k : z <> 0 -> small z -> 0 <= k -> scaled (z * 2 ^ k) (- k) = exact z.
Proof.
  intros Hz Hs Hk. pose proof (pad_range z Hs Hz) as Hp. unfold small in Hs.
  pose proof (Z.pow_pos_nonneg 2 k ltac:(lia) ltac:(lia)) as H2k. pose proof (Z.log2_nonneg (Z.abs z)).
  assert (Hr : forall s p, Z.pos p = Z.abs z * 2 ^ k ->
    binary_round binary64_prec binary64_emax s p (- k) =
    match Z.abs z * 2 ^ pad z with Z.pos m => S754_finite s m (- pad z) | _ => S754_zero s end).
  { intros s p E. unfold binary_round.
    assert (Hd : Z.pos (digits2_pos p) = Z.log2 (Z.abs z) + 1 + k)
      by (rewrite digits2_pos_log, E, Z.log2_mul_pow2 by lia; lia).
    rewrite Hd, fexp_small by lia. replace (Z.log2 (Z.abs z) + 1 + k + - k - 53) with (- pad z) by (unfold pad; lia).
    unfold shl_align. destruct (- pad z - - k) as [|n|n] eqn:En.
    - rewrite E. apply (round_exact s (Z.abs z) k); [lia|unfold pad in *; lia].
    - rewrite E. apply (round_exact s (Z.abs z) k); [lia|unfold pad in *; lia].
    - rewrite iter_xO, E. replace (Z.abs z * 2 ^ k * 2 ^ Z.pos n) with (Z.abs z * 2 ^ pad z)
        by (rewrite <- Z.mul_assoc, <- Z.pow_add_r by lia; do 2 f_equal; lia).
      apply (round_exact s (Z.abs z) (pad z)); [lia|unfold pad; lia]. }
  unfold scaled, binary_normalize, exact.
  assert (Hpos : exists m, Z.abs z * 2 ^ pad z = Z.pos m).
  { pose proof (Z.pow_pos_nonneg 2 (pad z) ltac:(lia) ltac:(lia)). destruct (Z.abs z * 2 ^ pad z) eqn:E; [nia| |nia]. by eexists. }
  destruct Hpos as [m Em]. rewrite Em in *.
  destruct (z * 2 ^ k) as [|p|p] eqn:E; [nia| |].
  - rewrite (Hr false p), (proj2 (Z.ltb_ge _ _)) by nia. done.
  - rewrite (Hr true p), (proj2 (Z.ltb_lt _ _)) by nia. done.
Qed.

Lemma float_of_Z_exact z : small z -> z <> 0 -> float_of_Z z = exact z.
Proof. intros Hs Hz. rewrite <- (scaled_exact z 0) by done. unfold float_of_Z. by rewrite Z.mul_1_r. Qed.

Lemma exact_pos z : small z -> z <> 0 -> exists m, Z.pos m = Z.abs z * 2 ^ pad z /\
  exact z = S754_finite (z <? 0) m (- pad z).
Proof.
  intros Hs Hz. pose proof (pad_range z Hs Hz). pose proof (Z.pow_pos_nonneg 2 (pad z) ltac:(lia) ltac:(lia)).
  unfold exact. destruct (Z.abs z * 2 ^ pad z) as [|m|m] eqn:E; [nia| |nia]. by exists m.
Qed.

Lemma truncate_float_of_Z z : small z -> truncate (float_of_Z z) = Some z.
Proof.
  intros Hs. destruct (decide (z = 0)) as [->|Hz]; [done|].
  rewrite float_of_Z_exact by done. destruct (exact_pos z Hs Hz) as (m & Em & ->).
  pose proof (pad_range z Hs Hz). unfold truncate. f_equal.
  assert (Ha : (if 0 <=? - pad z then Z.pos m * 2 ^ (- pad z) else Z.pos m / 2 ^ (- - pad z)) = Z.abs z).
  { case_match eqn:E; [apply Z.leb_le in E; replace (pad z) with 0 in * by lia; lia|].
    rewrite Z.opp_involutive, Em. apply Z.div_mul. pose proof (Z.pow_pos_nonneg 2 (pad z) ltac:(lia) ltac:(lia)). lia. }
  rewrite Ha. destruct (z <? 0) eqn:E; lia.
Qed.

Lemma align_exact z k m : 0 <= pad z <= k -> Z.pos m = Z.abs z * 2 ^ pad z ->
  Z.pos (fst (shl_align m (- pad z) (- k))) = Z.abs z * 2 ^ k.
Proof.
  intros Hk Em. unfold shl_align. replace (- k - - pad z) with (- (k - pad z)) by lia.
  destruct (- (k - pad z)) as [|n|n] eqn:E; cbn [fst]; [rewrite Em; do 2 f_equal; lia|lia|].
  rewrite iter_xO, Em, <- Z.mul_assoc, <- Z.pow_add_r by lia. do 2 f_equal. lia.
Qed.

Lemma float_add_of_Z a b : small a -> small b -> small (a + b) ->
  float_add (float_of_Z a) (float_of_Z b) = float_of_Z (a + b).
Proof.
  intros Ha Hb Hab. destruct (decide (a = 0)) as [->|Ha0].
  { unfold float_add. cbn [float_of_Z scaled binary_normalize SFadd]. rewrite Z.add_0_l.
    destruct (decide (b = 0)) as [->|Hb0]; [done|]. rewrite (float_of_Z_exact b) by done.
    by destruct (exact_pos b Hb Hb0) as (m & _ & ->). }
  destruct (decide (b = 0)) as [->|Hb0].
  { rewrite Z.add_0_r, (float_of_Z_exact a) by done. by destruct (exact_pos a Ha Ha0) as (m & _ & ->). }
  rewrite (float_of_Z_exact a), (float_of_Z_exact b) by done.
  destruct (exact_pos a Ha Ha0) as (ma & Ema & ->), (exact_pos b Hb Hb0) as (mb & Emb & ->).
  pose proof (pad_range a Ha Ha0). pose proof (pad_range b Hb Hb0).
  unfold float_add, SFadd. set (k := Z.max (pad a) (pad b)).
  replace (Z.min (- pad a) (- pad b)) with (- k) by lia.
  rewrite (align_exact a k ma), (align_exact b k mb) by (done || lia).
  assert (Hsum : cond_Zopp (a <? 0) (Z.abs a * 2 ^ k) + cond_Zopp (b <? 0) (Z.abs b * 2 ^ k) = (a + b) * 2 ^ k).
  { unfold cond_Zopp. destruct (a <? 0) eqn:E1, (b <? 0) eqn:E2; nia. }
  rewrite Hsum. destruct (decide (a + b = 0)) as [->|Hn]; [done|].
  change (scaled ((a + b) * 2 ^ k) (- k) = float_of_Z (a + b)).
  rewrite scaled_exact, float_of_Z_exact by (done || lia). done.
Qed.

(** Comparison with a positive integer. *)
Lemma mantissa_compare a b ma mb : pad a = pad b -> 0 < a -> 0 < b -> 0 <= pad b ->
  Z.pos ma = Z.abs a * 2 ^ pad a -> Z.pos mb = Z.abs b * 2 ^ pad b -> (ma ?= mb)%positive = (a ?= b).
Proof.
  intros Hp Ha Hb H0 Ema Emb. pose proof (Z.pow_pos_nonneg 2 (pad b) ltac:(lia) H0).
  change ((ma ?= mb)%positive) with (Z.pos ma ?= Z.pos mb). rewrite Ema, Emb, Hp, !Z.abs_eq by lia.
  destruct (Z.compare_spec a b); [apply Z.compare_eq_iff|apply Z.compare_lt_iff|apply Z.compare_gt_iff]; nia.
Qed.

Lemma float_gtb_of_Z a b : small a -> small b -> 0 < b -> float_gtb (float_of_Z a) (float_of_Z b) = (b <? a).
Proof.
  intros Ha Hb Hpos. unfold float_gtb, SFltb. rewrite (float_of_Z_exact b) by (done || lia).
  destruct (exact_pos b Hb ltac:(lia)) as (mb & Emb & ->). rewrite (proj2 (Z.ltb_ge b 0)) by lia.
  destruct (decide (a = 0)) as [->|Ha0]; [cbn; symmetry; apply Z.ltb_ge; lia|].
  rewrite (float_of_Z_exact a) by done. destruct (exact_pos a Ha Ha0) as (ma & Ema & ->).
  destruct (Z.ltb_spec a 0) as [Hn|Hn]; cbn [SFcompare]; [symmetry; apply Z.ltb_ge; lia|].
  pose proof (pad_range a Ha Ha0). pose proof (pad_range b Hb ltac:(lia)).
  assert (Hlog : forall x y, 0 < x -> 0 < y -> pad x < pad y -> y < x).
  { intros x y Hx Hy Hp. unfold pad in Hp. rewrite !Z.abs_eq in Hp by lia.
    apply Z.log2_lt_cancel. lia. }
  destruct (Z.compare_spec (- pad b) (- pad a)) as [E|E|E].
  - change (Pos.compare_cont Eq mb ma) with (mb ?= ma)%positive.
    rewrite (mantissa_compare b a mb ma) by (done || lia).
    unfold Z.ltb. by destruct (b ?= a).
  - symmetry. apply Z.ltb_lt. apply Hlog; lia.
  - symmetry. apply Z.ltb_ge. apply Z.lt_le_incl, Hlog; lia.
Qed.

(** ** Integers that are printed and parsed *)

Lemma num_byte_digits s acc v : digits_value acc s = Some v ->
  foldl num_byte (mkNumAcc PInt acc 0 0 false) s = mkNumAcc PInt v 0 0 false.
Proof.
  revert acc; induction s as [|c s IH]; intros acc; cbn [digits_value foldl]; [by intros [= ->]|].
  destruct (is_digit c) eqn:Hc; [|done]. unfold num_byte at 2. rewrite Hc. apply IH.
Qed.

Lemma float_of_Z_finite z : small z ->
  float_of_Z z = S754_zero false \/ exists s m e, float_of_Z z = S754_finite s m e.
Proof.
  intros Hs. destruct (decide (z = 0)) as [->|Hz]; [by left|]. right.
  rewrite float_of_Z_exact by done. destruct (exact_pos z Hs Hz) as (m & _ & ->). by do 3 eexists.
Qed.

Lemma ParseFloat_itoa z : small z -> ParseFloat (itoa_bytes z) = Some (float_of_Z z).
Proof.
  intros Hs. unfold ParseFloat, itoa_bytes.
  destruct (digits_fuel (Z.abs z) (S (Z.to_nat (Z.log2 (Z.abs z))))) as (H1 & H2 & c & s & H3 & _);
    [lia|lia|].
  rewrite H3 in *. apply num_byte_digits in H1.
  assert (Hc : c <> x2d) by (intros ->; by inversion_clear H2).
  assert (Hfin : match float_of_Z z with S754_infinity _ | S754_nan => None | f => Some f end = Some (float_of_Z z))
    by (destruct (float_of_Z_finite z Hs) as [-> | (? & ? & ? & ->)]; done).
  assert (Hd : forall neg : bool, (if neg then z < 0 else 0 <= z) -> decimal neg (Z.abs z) 0 = float_of_Z z).
  { intros neg Hn. unfold decimal. destruct (Z.eqb_spec (Z.abs z) 0) as [E0|E0].
    - destruct neg; [lia|]. by replace z with 0 by lia.
    - cbn [Z.leb Z.compare]. change (10 ^ 0) with 1. rewrite Z.mul_1_r. unfold float_of_Z. f_equal. destruct neg; lia. }
  destruct (Z.ltb_spec z 0) as [Hz|Hz]; [rewrite decide_True by done|rewrite decide_False by done];
    rewrite H1; cbn [na_expneg na_exp na_frac na_digits]; change (0 - 0) with 0; by rewrite Hd.
Qed.
