(* ===== verification/Rpc.v ===== *)
(** * Requests: [internal/electrum/handlers.go] and [processRequest] of [server.go]

    A line from a client is a JSON text; the handlers read its parameters and
    answer from the database, the overlay, the node and the server's own state.
    Values of type [interface{}] are a [gv].  A handler is a computation over
    the server's state whose error is the [*Error] it returns; a run-time panic
    is an error too, which no handler turns into a response.  The node, btcd's
    messages beyond [Btcd], the width of a string on a terminal and the
    conversions Go leaves to the implementation are arguments.  The client of
    the node is never nil: [NewServer] is given a connected one. *)

From Stdlib Require Import Strings.Byte.
From S2P Require Import Prelude Bytes Hex Keys Values Json Checkpoint Pebble Store Sha256 Types Mempool Block Reorg Query Server GoFloat.

(** ** Values *)

Inductive gv : Type :=
| VNil
| VBool (b : bool)
| VFloat (f : float64)
| VInt (z : Z)
| VStr (s : string)
| VList (l : list gv)
| VMap (l : list (string * gv)).

(** A key set twice keeps the later value. *)
Definition map_set (l : list (string * gv)) (k : string) (v : gv) : list (string * gv) :=
  filter (fun kv => kv.1 <> k) l ++ [(k, v)].

(** A JSON value decoded into an [interface{}]; a number out of range is an
    error. *)
Fixpoint decode_any (v : json) : result gv :=
  match v with
  | JNull => Ok VNil
  | JBool b => Ok (VBool b)
  | JNum lit => match ParseFloat lit with Some f => Ok (VFloat f) | None => Err JsonTypeError end
  | JStr s => Ok (VStr (string_of_bytes s))
  | JArr l =>
      VList <$> (fix go l := match l with
                             | [] => Ok []
                             | v :: l => v ← decode_any v; l ← go l; Ok (v :: l)
                             end) l
  | JObj l =>
      VMap <$> (fix go acc l := match l with
                                | [] => Ok acc
                                | (k, v) :: l => v ← decode_any v; go (map_set acc (string_of_bytes k) v) l
                                end) [] l
  end.

Fixpoint decode_anys (l : list json) : result (list gv) :=
  match l with
  | [] => Ok []
  | v :: l => v ← decode_any v; l ← decode_anys l; Ok (v :: l)
  end.

(** [var args \[\]interface{}; json.Unmarshal(params, &args)]: [None] on an
    error.  An absent [params] is an empty text, [null] leaves [args] nil. *)
Definition Unmarshal_args (params : option json) : option (list gv) :=
  match params with
  | Some JNull => Some []
  | Some (JArr l) => to_option (decode_anys l)
  | _ => None
  end.

(** ** Requests and responses *)

(** [Params] is the raw text of a value, which is parsed already here. *)
Record Request := mkRequest {
  rq_JsonRPC : string; rq_ID : gv; rq_Method : string; rq_Params : option json;
}.

Definition zeroRequest : Request := mkRequest "" VNil "" None.

Definition decode_request_field (st : Request * option error) (kv : bytes * json) : Request * option error :=
  let '(r, e) := st in
  let '(k, v) := kv in
  let k := fold_name k in
  if decide (k = fold_name (bytes_of_string "jsonrpc")) then
    let '(s, e') := decode_string (rq_JsonRPC r) v in
    (mkRequest s (rq_ID r) (rq_Method r) (rq_Params r), save_error e e')
  else if decide (k = fold_name (bytes_of_string "id")) then
    match decode_any v with
    | Ok id => (mkRequest (rq_JsonRPC r) id (rq_Method r) (rq_Params r), e)
    | Err e' => (r, save_error e (Some e'))
    end
  else if decide (k = fold_name (bytes_of_string "method")) then
    let '(s, e') := decode_string (rq_Method r) v in
    (mkRequest (rq_JsonRPC r) (rq_ID r) s (rq_Params r), save_error e e')
  else if decide (k = fold_name (bytes_of_string "params")) then
    (mkRequest (rq_JsonRPC r) (rq_ID r) (rq_Method r) (Some v), e)
  else st.

Definition decode_request (v : json) : result Request :=
  match v with
  | JNull => Ok zeroRequest
  | JObj l => match foldl decode_request_field (zeroRequest, None) l with
              | (r, None) => Ok r
              | (_, Some e) => Err e
              end
  | _ => Err JsonTypeError
  end.

(** [json.Unmarshal(data, &reqs)]; on an error the requests are not used. *)
Definition decode_requests (v : json) : result (list Request) :=
  match v with
  | JNull => Ok []
  | JArr l => foldM (fun rs v => r ← decode_request v; Ok (rs ++ [r])) [] l
  | _ => Err JsonTypeError
  end.

(** [rpc_Error]'s code and message are in [rs_Error]; the result is there when
    it is nil. *)
Record Response := mkResponse { rs_ID : gv; rs_Result : gv; rs_Error : option error }.

Definition ErrCodeParse : Z := -32700.
Definition ErrCodeMethodNotFound : Z := -32601.

(** [MarshalJSON], as the value that is written. *)
Definition Error_value (e : error) : gv :=
  match e with
  | ESentinel code message =>
      VMap [("code"%string, VInt (default 0 (parse_int (bytes_of_string code)))); ("message"%string, VStr message)]
  | _ => VNil
  end.

Definition MarshalJSON (r : Response) : gv :=
  match rs_Error r with
  | Some e => VMap [("jsonrpc"%string, VStr "2.0"); ("id"%string, rs_ID r); ("error"%string, Error_value e)]
  | None => VMap [("jsonrpc"%string, VStr "2.0"); ("id"%string, rs_ID r); ("result"%string, rs_Result r)]
  end.

(** [sendResponses]: the value that is marshalled and sent. *)
Definition sendResponses (resps : list Response) : gv :=
  match resps with
  | [r] => MarshalJSON r
  | _ => VList (MarshalJSON <$> resps)
  end.

Definition bytesTrimSpace (b : bytes) : bytes :=
  let skip := fix skip (b : bytes) := match b with
                                      | c :: b' => if is_space c then skip b' else b
                                      | [] => []
                                      end in
  reverse (skip (reverse (skip b))).

(** ** btcd *)

Record TxIn := mkTxIn {
  ti_PreviousOutPoint : OutPoint; ti_SignatureScript : bytes; ti_Witness : list bytes; ti_Sequence : Z;
}.

Class BtcdTx {B : Btcd} := {
  tx_Version : MsgTx -> Z;
  tx_LockTime : MsgTx -> Z;
  tx_Inputs : MsgTx -> list TxIn;
  WitnessHash : MsgTx -> bytes;
  SerializeSize : MsgTx -> Z;
  SerializeSizeStripped : MsgTx -> Z;
  tx_Deserialize : bytes -> result MsgTx;
  NewHashFromStr : string -> result bytes;
}.

(** The node, as far as it is called here. *)
Record rpc_node {B : Btcd} := mkRpcNode {
  rn_GetBlockHash : rpc_client;
  rn_EstimateSmartFee : nat -> Z -> result (option float64);      (* its FeeRate *)
  rn_SendRawTransaction : nat -> MsgTx -> result bytes;
  rn_GetRawTransaction : nat -> bytes -> result MsgTx;
}.
Arguments rpc_node B : clear implicits.

Section Handlers.
Context {P : Pebble} {B : Btcd} {T : BtcdTx} {Zs : Zstd}.

(** [Server], as far as the handlers use it; [sv_calls] counts the calls of the
    node. *)
Record sworld := mkSWorld {
  sv_world : world;
  sv_subs : SubscriptionManager;
  sv_cache : StatusCache;
  sv_calls : nat;
}.

Definition sdb {A} (c : st pdb A) : st sworld A := fun w =>
  let '(r, w1) := in_db c (sv_world w) in (r, mkSWorld w1 (sv_subs w) (sv_cache w) (sv_calls w)).

Definition mempool : st sworld MempoolOverlay := st_gets (fun w => w_mp (sv_world w)).

Definition on_subs (f : SubscriptionManager -> SubscriptionManager) : st sworld unit :=
  st_modify (fun w => mkSWorld (sv_world w) (f (sv_subs w)) (sv_cache w) (sv_calls w)).

Definition on_cache (f : StatusCache -> StatusCache) : st sworld unit :=
  st_modify (fun w => mkSWorld (sv_world w) (sv_subs w) (f (sv_cache w)) (sv_calls w)).

Definition client {A} (f : nat -> result A) : st sworld A := fun w =>
  (f (sv_calls w), mkSWorld (sv_world w) (sv_subs w) (sv_cache w) (S (sv_calls w))).

Definition invalid {A} (message : string) : st sworld A := st_fail (rpc_Error ErrCodeInvalidParams message).
Definition failing {A} (message : string) : st sworld A := st_fail (rpc_Error ErrCodeInternal message).

(** [args, err := ...; err != nil || len(args) < n] *)
Definition need_args (n : nat) (message : string) (params : option json) : st sworld (list gv) :=
  match Unmarshal_args params with
  | Some args => if (length args <? n)%nat then invalid message else mret args
  | None => invalid message
  end.

(** [args\[i\].(string)] and [args\[i\].(float64)], of an index in range. *)
Definition string_arg (i : nat) (message : string) (args : list gv) : st sworld string :=
  match args !! i with Some (VStr s) => mret s | _ => invalid message end.
Definition float_arg (i : nat) (message : string) (args : list gv) : st sworld float64 :=
  match args !! i with Some (VFloat f) => mret f | _ => invalid message end.

(** [checkpoint, err := db.LoadCheckpoint(); if err != nil { ... err.Error() }] *)
Definition load_checkpoint : st sworld Checkpoint :=
  '(checkpoint, err) ← sdb LoadCheckpoint;
  match err with Some e => failing (Error e) | None => mret checkpoint end.

Section Conn.
Context (N : rpc_node B) (C : platform) (sorter : slice_sort) (ord : range_order).
Context (StringWidth : string -> Z) (config_StartHeight : Z).

Definition client_GetBlockHash (height : Z) : st sworld bytes :=
  client (fun n => rn_GetBlockHash N n height).

(** ** The status of a scripthash *)

Definition ComputeScripthashStatusHex (scripthashHex : string) : st sworld string :=
  cached ← st_gets (fun w => GetIfClean scripthashHex (sv_cache w));
  match cached with
  | Some status => mret status
  | None =>
      sh ← st_lift (DecodeString scripthashHex);
      m ← mempool;
      status ← sdb (ComputeScripthashStatus sorter ord m sh);
      _ ← on_cache (SetClean scripthashHex status);
      mret status
  end.

(** ** server.* *)

Fixpoint repeat_string (s : string) (n : nat) : string :=
  match n with O => "" | S n => s +:+ repeat_string s n end.

Definition padRight (s : string) (width : Z) : string :=
  let pad := width - StringWidth s in
  s +:+ repeat_string " " (Z.to_nat pad).

Definition server_version : string := "electrum-go/0.1.0".

(** The name of the client is only logged. *)
Definition handleServerVersion (params : option json) : st sworld gv :=
  mret (VList [VStr server_version; VStr "1.4"]).

Definition banner_start (checkpoint : Checkpoint) : Z :=
  let start := cp_StartHeight checkpoint in
  let start := if start =? 0 then i32 config_StartHeight else start in
  if start <? 0 then cp_Height checkpoint else start.

Definition handleServerBanner (params : option json) : st sworld gv :=
  '(checkpoint, _) ← sdb LoadCheckpoint;
  let start := banner_start checkpoint in
  let innerWidth := 60 in
  let line text := ("║ " +:+ padRight text (innerWidth - 2) +:+ " ║")%string in
  let rule := repeat_string "═" 60 in
  mret (VStr (
    "╔" +:+ rule +:+ "╗" +:+ newline +:+
    line "electrum-go Server" +:+ newline +:+
    line "Forward-Indexing • Pruned Node Ready" +:+ newline +:+
    "╠" +:+ rule +:+ "╣" +:+ newline +:+
    line ("Indexed from block: " +:+ fmt_d start) +:+ newline +:+
    line ("Current height: " +:+ fmt_d (cp_Height checkpoint)) +:+ newline +:+
    line "" +:+ newline +:+
    line ("⚠️  DO NOT IMPORT WALLETS BEFORE block " +:+ fmt_d start) +:+ newline +:+
    line "    Create a fresh wallet." +:+ newline +:+
    line "" +:+ newline +:+
    line "GitHub: github.com/ripsline/electrum-go" +:+ newline +:+
    "╚" +:+ rule +:+ "╝")%string).

Definition handleServerDonationAddress (params : option json) : st sworld gv := mret (VStr "").
Definition handleServerPeersSubscribe (params : option json) : st sworld gv := mret (VList []).
Definition handleServerPing (params : option json) : st sworld gv := mret VNil.

Definition handleServerFeatures (params : option json) : st sworld gv :=
  h0 ← st_try (client_GetBlockHash 0);
  let genesisHash := match h0 with Ok h0 => hash_String h0 | Err _ => ""%string end in
  mret (VMap [("server_version", VStr server_version); ("protocol_min", VStr "1.4");
              ("protocol_max", VStr "1.4"); ("genesis_hash", VStr genesisHash);
              ("hash_function", VStr "sha256"); ("hosts", VMap [])]%string).

(** ** Headers *)

Definition handleHeadersSubscribe (writer : conn) (params : option json) : st sworld gv :=
  _ ← on_subs (SubscribeHeaders writer);
  checkpoint ← load_checkpoint;
  if cp_Height checkpoint =? 0 then failing "no blocks indexed"
  else
    headerHex ← internal (sdb (GetHeaderHex (cp_Height checkpoint)));
    mret (VMap [("height"%string, VInt (cp_Height checkpoint)); ("hex"%string, VStr headerHex)]).

Definition handleBlockHeader (params : option json) : st sworld gv :=
  args ← need_args 1 "expected [height]" params;
  height ← float_arg 0 "height must be a number" args;
  headerHex ← internal (sdb (GetHeaderHex (to_int32 C height)));
  mret (if (1 <? length args)%nat then VMap [("header"%string, VStr headerHex)] else VStr headerHex).

(** [for i := int32(startHeight); i < end; i++]; [n] is the number of rounds,
    and [i] stays below an [int32], so it does not wrap. *)
Fixpoint headers_loop (n : nat) (i : Z) (headers : bytes) : st sworld bytes :=
  match n with
  | O => mret headers
  | S n =>
      header ← internal (sdb (GetHeader i));
      headers_loop n (i + 1) (headers ++ header)
  end.

(** [headers.Grow(n)] of an empty buffer panics on a negative size, and with
    [bytes.ErrTooLarge] on one that the allocator refuses. *)
Definition negative_size : error := go_panic "bytes.Buffer.Grow: negative count".
Definition too_large : error := go_panic "bytes.Buffer: too large".

Definition grow_panic (n : Z) : option error :=
  if n <? 0 then Some negative_size else if max_buffer C <? n then Some too_large else None.

Definition buffer_Grow (n : Z) : st sworld unit :=
  match grow_panic n with Some e => st_fail e | None => mret () end.

Definition max_headers : float64 := float_of_Z 2016.

Definition handleBlockHeaders (params : option json) : st sworld gv :=
  args ← need_args 2 "expected [start_height, count]" params;
  startHeight ← float_arg 0 "start_height must be a number" args;
  count ← float_arg 1 "count must be a number" args;
  let count := if float_gtb count max_headers then max_headers else count in
  _ ← buffer_Grow (i64 (to_int64 C count * 80));
  let first := to_int32 C startHeight in
  let bound := to_int32 C (float_add startHeight count) in
  headers ← headers_loop (Z.to_nat (bound - first)) first [];
  mret (VMap [("count"%string, VInt (Z.max 0 (bound - first))); ("hex"%string, VStr (EncodeToString headers));
              ("max"%string, VInt 2016)]).

(** ** Fees *)

Definition handleEstimateFee (params : option json) : st sworld gv :=
  let numBlocks := match Unmarshal_args params with
                   | Some (VFloat n :: _) => to_int64 C n
                   | _ => 6
                   end in
  r ← st_try (client (fun n => rn_EstimateSmartFee N n numBlocks));
  mret (VFloat (match r with Ok (Some feeRate) => feeRate | _ => float_of_Z (-1) end)).

Definition relay_fee : float64 := default (float_of_Z 0) (ParseFloat (bytes_of_string "0.00001")).

Definition handleRelayFee (params : option json) : st sworld gv := mret (VFloat relay_fee).

(** ** Scripthashes *)

Definition parseScripthashParam (params : option json) : st sworld bytes :=
  args ← need_args 1 "expected [scripthash]" params;
  scripthashHex ← string_arg 0 "scripthash must be a hex string" args;
  match DecodeString scripthashHex with
  | Err _ => invalid "invalid scripthash hex"
  | Ok scripthash =>
      if decide (length scripthash <> 32%nat) then invalid "scripthash must be 32 bytes"
      else mret scripthash
  end.

Definition history_value (e : history_item) : gv :=
  VMap [("tx_hash"%string, VStr (hi_tx_hash e)); ("height"%string, VInt (hi_height e))].

Definition handleScripthashGetHistory (params : option json) : st sworld gv :=
  scripthash ← parseScripthashParam params;
  m ← mempool;
  history ← internal (sdb (GetScripthashHistory sorter ord m scripthash));
  mret (VList (history_value <$> history)).

Definition handleScripthashGetBalance (params : option json) : st sworld gv :=
  scripthash ← parseScripthashParam params;
  m ← mempool;
  bal ← internal (sdb (GetScripthashBalance ord m scripthash));
  mret (VMap [("confirmed"%string, VInt (bal_confirmed bal)); ("unconfirmed"%string, VInt (bal_unconfirmed bal))]).

Definition unspent_value (u : unspent_item) : gv :=
  VMap [("tx_hash"%string, VStr (ui_tx_hash u)); ("tx_pos"%string, VInt (ui_tx_pos u));
        ("height"%string, VInt (ui_height u)); ("value"%string, VInt (ui_value u))].

Definition handleScripthashListUnspent (params : option json) : st sworld gv :=
  scripthash ← parseScripthashParam params;
  m ← mempool;
  utxos ← internal (sdb (GetScripthashUnspent ord m scripthash));
  mret (VList (unspent_value <$> utxos)).

Definition handleScripthashSubscribe (writer : conn) (params : option json) : st sworld gv :=
  scripthash ← parseScripthashParam params;
  let scripthashHex := EncodeToString scripthash in
  _ ← on_subs (SubscribeScripthash writer scripthashHex);
  status ← internal (ComputeScripthashStatusHex scripthashHex);
  mret (if decide (status = ""%string) then VNil else VStr status).

Definition handleScripthashUnsubscribe (writer : conn) (params : option json) : st sworld gv :=
  scripthash ← parseScripthashParam params;
  _ ← on_subs (UnsubscribeScripthash writer (EncodeToString scripthash));
  mret (VBool true).

Definition mempool_value (txid : string) : gv :=
  VMap [("tx_hash"%string, VStr txid); ("height"%string, VInt 0); ("fee"%string, VInt 0)].

Definition handleScripthashGetMempool (params : option json) : st sworld gv :=
  scripthash ← parseScripthashParam params;
  m ← mempool;
  mret (VList (mempool_value <$> GetScripthashTransactions ord scripthash m)).

(** ** Transactions *)

Definition hasWitness (msg : MsgTx) : bool :=
  existsb (fun i => negb (bool_decide (ti_Witness i = []))) (tx_Inputs msg).

(** A field with [omitempty]. *)
Definition unless_empty (name : string) (v : gv) : list (string * gv) :=
  match v with
  | VStr s => if decide (s = ""%string) then [] else [(name, v)]
  | VInt z => if z =? 0 then [] else [(name, v)]
  | VList [] | VNil => []
  | _ => [(name, v)]
  end.

Definition vin_value (i : TxIn) : gv :=
  let coinbase := IsCoinbaseInput (ti_PreviousOutPoint i) in
  let script := EncodeToString (ti_SignatureScript i) in
  VMap (
    (if coinbase then []
     else unless_empty "txid" (VStr (hash_String (op_Hash (ti_PreviousOutPoint i)))) ++
          unless_empty "vout" (VInt (op_Index (ti_PreviousOutPoint i)))) ++
    [("sequence"%string, VInt (ti_Sequence i))] ++
    (if coinbase then unless_empty "coinbase" (VStr script)
     else [("scriptSig"%string, VMap [("hex"%string, VStr script)])]) ++
    unless_empty "txinwitness" (VList ((fun item => VStr (EncodeToString item)) <$> ti_Witness i))).

(** [float64(value) / 1e8] *)
Definition coins (value : Z) : float64 := float_div (float_of_Z value) (float_of_Z 100000000).

Definition vout_value (i : nat) (out : TxOut) : gv :=
  VMap [("value"%string, VFloat (coins (to_Value out))); ("n"%string, VInt (Z.of_nat i));
        ("scriptPubKey"%string, VMap [("hex"%string, VStr (EncodeToString (to_PkScript out)))])].

Definition tx_weight (msg : MsgTx) : Z :=
  let totalSize := SerializeSize msg in
  let baseSize := SerializeSizeStripped msg in
  baseSize * 4 + (totalSize - baseSize).

Definition tx_vsize (msg : MsgTx) : Z := Z.quot (tx_weight msg + 3) 4.

(** [Confirmations] and [Blockhash], when the height is known. *)
Definition verbose_position (height : Z) : st sworld (Z * string) :=
  if 0 <? height then
    '(checkpoint, err) ← sdb LoadCheckpoint;
    let confirmations := if decide (err = None /\ height <= cp_Height checkpoint)
                         then i32 (i32 (cp_Height checkpoint - height) + 1) else 0 in
    bh ← st_try (client_GetBlockHash height);
    mret (confirmations, match bh with Ok bh => hash_String bh | Err _ => ""%string end)
  else mret (0, ""%string).

Definition buildVerboseTx (txHex : string) (height : Z) : st sworld gv :=
  match DecodeString txHex with
  | Err _ => failing "invalid tx hex"
  | Ok txBytes =>
      msg ← internal (st_lift (tx_Deserialize txBytes));
      let txid := hash_String (TxHash msg) in
      let hash := if hasWitness msg then hash_String (WitnessHash msg) else txid in
      '(confirmations, blockhash) ← verbose_position height;
      mret (VMap ([("hex", VStr txHex); ("txid", VStr txid); ("hash", VStr hash);
                   ("version", VInt (tx_Version msg)); ("size", VInt (SerializeSize msg));
                   ("vsize", VInt (tx_vsize msg)); ("weight", VInt (tx_weight msg));
                   ("locktime", VInt (tx_LockTime msg)); ("vin", VList (vin_value <$> tx_Inputs msg));
                   ("vout", VList (imap vout_value (tx_TxOut msg)))]%string ++
                  unless_empty "confirmations" (VInt confirmations) ++
                  unless_empty "blockhash" (VStr blockhash)))
  end.

Definition getTxFromCore (txidStr : string) : st sworld string :=
  match NewHashFromStr txidStr with
  | Err _ => invalid "invalid txid"
  | Ok txHash =>
      rawTx ← st_try (client (fun n => rn_GetRawTransaction N n txHash));
      match rawTx with
      | Err e => failing ("transaction not found: " +:+ Error e)
      | Ok msg =>
          buf ← internal (st_lift (tx_Serialize msg));
          mret (EncodeToString buf)
      end
  end.

Definition verbose_arg (args : list gv) : bool :=
  match args !! 1%nat with Some (VBool v) => v | _ => false end.

Definition handleTransactionGet (params : option json) : st sworld gv :=
  args ← need_args 1 "expected [txid]" params;
  txidStr ← string_arg 0 "txid must be a string" args;
  let verbose := verbose_arg args in
  found ← sdb (getTxFromDB txidStr);
  match found with
  | Some (hexStr, height) => if (verbose : bool) then buildVerboseTx hexStr height else mret (VStr hexStr)
  | None =>
      hexStr ← getTxFromCore txidStr;
      if (verbose : bool) then buildVerboseTx hexStr 0 else mret (VStr hexStr)
  end.

Definition handleTransactionBroadcast (params : option json) : st sworld gv :=
  args ← need_args 1 "expected [raw_tx]" params;
  rawTxHex ← string_arg 0 "raw_tx must be a hex string" args;
  match DecodeString rawTxHex with
  | Err _ => invalid "invalid hex"
  | Ok rawTxBytes =>
      match tx_Deserialize rawTxBytes with
      | Err e => invalid ("invalid transaction: " +:+ Error e)
      | Ok msgTx =>
          txHash ← st_try (client (fun n => rn_SendRawTransaction N n msgTx));
          match txHash with
          | Err e => failing ("broadcast failed: " +:+ Error e)
          | Ok txHash => mret (VStr (hash_String txHash))
          end
      end
  end.

Definition proof_value (p : MerkleProof) : gv :=
  VMap [("block_height"%string, VInt (mp_BlockHeight p)); ("pos"%string, VInt (Z.of_nat (mp_Pos p)));
        ("merkle"%string, VList (VStr <$> mp_Merkle p))].

Definition handleTransactionGetMerkle (params : option json) : st sworld gv :=
  args ← need_args 2 "expected [txid, height]" params;
  txidStr ← string_arg 0 "txid must be a string" args;
  heightFloat ← float_arg 1 "height must be a number" args;
  match TxidFromHex txidStr with
  | Err _ => invalid "invalid txid"
  | Ok txid =>
      proof ← internal (sdb (GetTransactionMerkleProof txid (to_int32 C heightFloat)));
      mret (proof_value proof)
  end.

Definition handleTransactionIdFromPos (params : option json) : st sworld gv :=
  st_fail (rpc_Error ErrCodeMethodNotFound "id_from_pos not yet implemented").

Definition handleMempoolFeeHistogram (params : option json) : st sworld gv := mret (VList []).

(** ** Dispatch *)

(** The [switch]'s cases. *)
Definition methods (writer : conn) : list (string * (option json -> st sworld gv)) := [
  ("server.version", handleServerVersion);
  ("server.banner", handleServerBanner);
  ("server.donation_address", handleServerDonationAddress);
  ("server.peers.subscribe", handleServerPeersSubscribe);
  ("server.ping", handleServerPing);
  ("server.features", handleServerFeatures);
  ("blockchain.headers.subscribe", handleHeadersSubscribe writer);
  ("blockchain.block.header", handleBlockHeader);
  ("blockchain.block.headers", handleBlockHeaders);
  ("blockchain.estimatefee", handleEstimateFee);
  ("blockchain.relayfee", handleRelayFee);
  ("blockchain.scripthash.get_history", handleScripthashGetHistory);
  ("blockchain.scripthash.get_balance", handleScripthashGetBalance);
  ("blockchain.scripthash.listunspent", handleScripthashListUnspent);
  ("blockchain.scripthash.subscribe", handleScripthashSubscribe writer);
  ("blockchain.scripthash.unsubscribe", handleScripthashUnsubscribe writer);
  ("blockchain.scripthash.get_mempool", handleScripthashGetMempool);
  ("blockchain.transaction.get", handleTransactionGet);
  ("blockchain.transaction.broadcast", handleTransactionBroadcast);
  ("blockchain.transaction.get_merkle", handleTransactionGetMerkle);
  ("blockchain.transaction.id_from_pos", handleTransactionIdFromPos);
  ("mempool.get_fee_histogram", handleMempoolFeeHistogram)]%string.

Fixpoint switch (method : string) (cases : list (string * (option json -> st sworld gv))) :
    option (option json -> st sworld gv) :=
  match cases with
  | [] => None
  | (name, handler) :: cases => if decide (method = name) then Some handler else switch method cases
  end.

Definition handleMethod (writer : conn) (method : string) (params : option json) : st sworld gv :=
  match switch method (methods writer) with
  | Some handler => handler params
  | None => st_fail (rpc_Error ErrCodeMethodNotFound ("unknown method: " +:+ method))
  end.

(** ** A line from the client *)

Definition respond (writer : conn) (req : Request) : st sworld Response :=
  r ← st_try (handleMethod writer (rq_Method req) (rq_Params req));
  match r with
  | Ok result => mret (mkResponse (rq_ID req) result None)
  | Err e => if is_panic e then st_fail e else mret (mkResponse (rq_ID req) VNil (Some e))
  end.

Definition parse_error (e : error) : Response :=
  mkResponse VNil VNil (Some (rpc_Error ErrCodeParse ("Parse error: " +:+ Error e))).

Definition processRequest (writer : conn) (data : bytes) : st sworld (list Response) :=
  let trimmed := bytesTrimSpace data in
  match trimmed with
  | [] => mret []
  | c :: _ =>
      if decide (c = x5b) then
        match v ← json_parse trimmed; decode_requests v with
        | Err e => mret [parse_error e]
        | Ok reqs =>
            st_foldM (fun responses req => r ← respond writer req; mret (responses ++ [r])) [] reqs
        end
      else
        match v ← json_parse trimmed; decode_request v with
        | Err e => mret [parse_error e]
        | Ok req => r ← respond writer req; mret [r]
        end
  end.

(** What [serve] does with a line: nothing is sent when there is no response. *)
Definition serve_line (writer : conn) (line : bytes) : st sworld (option gv) :=
  match line with
  | [] => mret None
  | _ =>
      responses ← processRequest writer line;
      mret (match responses with [] => None | _ => Some (sendResponses responses) end)
  end.

(** ** Notifications *)

Definition NotifyScripthashStatusHex (scripthashHex : string) : st sworld (gset conn * (string * option string)) :=
  status ← ComputeScripthashStatusHex scripthashHex;
  sm ← st_gets sv_subs;
  mret (NotifyScripthash scripthashHex status sm).

Definition MarkScripthashDirtyMany (scripthashHexes : list string) : st sworld unit :=
  on_cache (MarkDirtyMany scripthashHexes).

End Conn.
End Handlers.
