(* ===== verification/RpcProps.v ===== *)
(** * Properties of the request handlers

    Two judgements follow the structure of a handler: [served], what it may
    change, and [answers], that its only errors are [*Error] values.  Only
    [buffer_Grow] escapes the second. *)

From Stdlib Require Import Strings.Byte.
From S2P Require Import Prelude Bytes Hex Keys Values Json Checkpoint Pebble Store Sha256 Types Mempool MempoolFacts MempoolProps Block BlockFacts BlockOps BlockProps Reorg Query QueryFacts QueryProps Server ServerProps GoFloat Rpc.

Lemma GetIfClean_SetClean sh status c : GetIfClean sh (SetClean sh status c) = Some status.
Proof. unfold GetIfClean, SetClean. cbn. rewrite decide_False by set_solver. apply lookup_insert_eq. Qed.

Lemma GetIfClean_dirty sh c : GetIfClean sh (MarkDirtyMany [sh] c) = None.
Proof. unfold GetIfClean. rewrite decide_True; [done|]. cbn. set_solver. Qed.

Section Serve.
Context {P : Pebble} {PL : PebbleLaws P} {B : Btcd} {T : BtcdTx} {Zs : Zstd}.

(** ** What a request may change *)

(** Nothing in the database or the overlay, and only its own connection's
    subscriptions. *)
Definition served (writer : conn) (w w' : sworld) : Prop :=
  contents (w_db (sv_world w')) = contents (w_db (sv_world w)) /\
  w_mp (sv_world w') = w_mp (sv_world w) /\
  forall other, other <> writer ->
    (forall sh, subscribed (sv_subs w') other sh <-> subscribed (sv_subs w) other sh) /\
    (other ∈ headerSubs (sv_subs w') <-> other ∈ headerSubs (sv_subs w)).

#[export] Instance served_preorder writer : PreOrder (served writer).
Proof.
  split; [done|]. intros a b c (H1 & H2 & H3) (E1 & E2 & E3). split_and!; [by rewrite E1|by rewrite E2|].
  intros o Ho. destruct (H3 o Ho) as [F1 F2], (E3 o Ho) as [G1 G2]. split; [|tauto].
  intros sh. by rewrite G1.
Qed.

Lemma rel_sdb {A} writer (m : st pdb A) : st_rel db_same m -> st_rel (served writer) (sdb m).
Proof.
  intros Hm w. specialize (Hm (w_db (sv_world w))). unfold sdb, in_db.
  by destruct (m (w_db (sv_world w))) as [r d].
Qed.

Lemma rel_client {A} writer (f : nat -> result A) : st_rel (served writer) (client f).
Proof. intros w. done. Qed.

Lemma rel_on_cache writer f : st_rel (served writer) (on_cache f).
Proof. intros w. done. Qed.

Lemma rel_mempool writer : st_rel (served writer) mempool.
Proof. intros w. done. Qed.

Lemma rel_internal {W A} (R : relation W) (m : st W A) : st_rel R m -> st_rel R (internal m).
Proof. intros Hm w. specialize (Hm w). unfold internal. by destruct (m w) as [[a|e] w']. Qed.

Lemma rel_subscribe writer sh : st_rel (served writer) (on_subs (SubscribeScripthash writer sh)).
Proof.
  intros w. split_and!; [done..|]. intros o Ho. split; [|done]. intros sh'. cbn.
  unfold subscribed. cbn. rewrite elem_set_insert. naive_solver.
Qed.

Lemma rel_unsubscribe writer sh : st_rel (served writer) (on_subs (UnsubscribeScripthash writer sh)).
Proof.
  intros w. split_and!; [done..|]. intros o Ho. split; [|done]. intros sh'. cbn.
  unfold subscribed. cbn. rewrite elem_set_delete. naive_solver.
Qed.

Lemma rel_subscribe_headers writer : st_rel (served writer) (on_subs (SubscribeHeaders writer)).
Proof. intros w. split_and!; [done..|]. intros o Ho. split; [done|]. cbn. set_solver. Qed.

Ltac solve_serve := repeat first [progress solve_rel | apply rel_internal | apply st_rel_try | apply rel_sdb].

#[local] Hint Resolve rel_sdb rel_client rel_on_cache rel_mempool rel_internal rel_subscribe rel_unsubscribe
  rel_subscribe_headers : st_rel.

Lemma rel_history_step acc kv : st_rel db_same (history_entry_step acc kv).
Proof.
  destruct acc as [[history seen] cache]. unfold history_entry_step.
  destruct (ParseHistoryKey kv.1) as [[[[sh h] i] x]|]; [|solve_rel].
  apply st_rel_bind; [apply _|destruct (cache !! h); solve_rel|]. solve_rel.
Qed.
#[local] Hint Resolve rel_history_step : st_rel.

Lemma rel_history sorter ord m sh : st_rel db_same (GetScripthashHistory sorter ord m sh).
Proof. unfold GetScripthashHistory. solve_rel. Qed.
Lemma rel_balance ord m sh : st_rel db_same (GetScripthashBalance ord m sh).
Proof. unfold GetScripthashBalance. solve_rel. Qed.
Lemma rel_unspent ord m sh : st_rel db_same (GetScripthashUnspent ord m sh).
Proof. unfold GetScripthashUnspent. solve_rel. Qed.
#[local] Hint Resolve rel_history rel_balance rel_unspent : st_rel.
Lemma rel_status sorter ord m sh : st_rel db_same (ComputeScripthashStatus sorter ord m sh).
Proof. unfold ComputeScripthashStatus. solve_rel. Qed.
Lemma rel_proof t h : st_rel db_same (GetTransactionMerkleProof t h).
Proof. unfold GetTransactionMerkleProof. solve_rel. Qed.
Lemma rel_GetHeaderHex h : st_rel db_same (GetHeaderHex h).
Proof. unfold GetHeaderHex. solve_rel. Qed.
Lemma rel_GetTxPos t : st_rel db_same (GetTxPos t).
Proof. unfold GetTxPos. solve_rel. Qed.
Lemma rel_GetTxBlob h : st_rel db_same (GetTxBlob h).
Proof. unfold GetTxBlob. solve_rel. Qed.
Lemma rel_GetTxOffsets h : st_rel db_same (GetTxOffsets h).
Proof. unfold GetTxOffsets. solve_rel. Qed.
#[local] Hint Resolve rel_GetTxPos rel_GetTxBlob rel_GetTxOffsets : st_rel.
Lemma rel_getTxFromDB t : st_rel db_same (getTxFromDB t).
Proof. unfold getTxFromDB. solve_serve. Qed.
#[local] Hint Resolve rel_status rel_proof rel_GetHeaderHex rel_getTxFromDB : st_rel.

(** ** Its errors *)

Definition rpc_err (e : error) : Prop := exists Code Message, e = rpc_Error Code Message.

Definition answers {W A} (m : st W A) : Prop := forall w e, (m w).1 = Err e -> rpc_err e.

Lemma answers_ret {W A} (a : A) : answers (mret a : st W A).
Proof. by intros w e. Qed.
Lemma answers_gets {W A} (f : W -> A) : answers (st_gets f).
Proof. by intros w e. Qed.
Lemma answers_modify {W} (f : W -> W) : answers (st_modify f).
Proof. by intros w e. Qed.
Lemma answers_bind {W A D} (m : st W A) (f : A -> st W D) :
  answers m -> (forall a, answers (f a)) -> answers (m ≫= f).
Proof.
  intros Hm Hf w e. specialize (Hm w). unfold mbind, st_bind.
  destruct (m w) as [[a|e1] w1]; cbn in *; [apply Hf|]. intros [= <-]. by apply Hm.
Qed.
Lemma answers_fail {W A} Code Message : answers (@st_fail W A (rpc_Error Code Message)).
Proof. intros w e [= <-]. by do 2 eexists. Qed.
Lemma answers_internal {W A} (m : st W A) : answers (internal m).
Proof. intros w e. unfold internal. destruct (m w) as [[a|e1] w1]; [done|]. intros [= <-]. by do 2 eexists. Qed.
Lemma answers_try {W A} (m : st W A) : answers (st_try m).
Proof. intros w e. unfold st_try. by destruct (m w). Qed.
Lemma answers_sdb {A} (m : st pdb A) : answers m -> answers (sdb m).
Proof.
  intros Hm w e. specialize (Hm (w_db (sv_world w))). unfold sdb, in_db.
  destruct (m (w_db (sv_world w))) as [r d]. apply Hm.
Qed.
Lemma answers_LoadCheckpoint : answers LoadCheckpoint.
Proof.
  intros w e. unfold LoadCheckpoint, get, mbind, st_bind.
  destruct (pebble_Get _ w) as [[v|e1] w1]; [done|]. by case_decide.
Qed.

#[local] Hint Resolve answers_ret answers_gets answers_modify answers_fail answers_internal answers_try
  answers_sdb answers_LoadCheckpoint : answers.

Ltac solve_answers :=
  repeat first
    [ progress intros
    | solve [eauto 3 with answers]
    | apply answers_bind
    | apply answers_sdb
    | match goal with
      | |- answers (if ?b then _ else _) => destruct b
      | |- answers (match ?x with _ => _ end) => destruct x
      end ].

Lemma answers_getTxFromDB t : answers (getTxFromDB t).
Proof. unfold getTxFromDB. solve_answers. Qed.
#[local] Hint Resolve answers_getTxFromDB : answers.
Lemma answers_need_args n s params : answers (need_args n s params).
Proof. unfold need_args, invalid. solve_answers. Qed.
Lemma answers_string_arg n s args : answers (string_arg n s args).
Proof. unfold string_arg, invalid. solve_answers. Qed.
Lemma answers_float_arg n s args : answers (float_arg n s args).
Proof. unfold float_arg, invalid. solve_answers. Qed.
#[local] Hint Resolve answers_need_args answers_string_arg answers_float_arg : answers.
Lemma answers_parse params : answers (parseScripthashParam params).
Proof. unfold parseScripthashParam, invalid. solve_answers. Qed.
#[local] Hint Resolve answers_parse : answers.

Lemma rel_need_args writer n s params : st_rel (served writer) (need_args n s params).
Proof. unfold need_args, invalid. solve_rel. Qed.
Lemma rel_string_arg writer n s args : st_rel (served writer) (string_arg n s args).
Proof. unfold string_arg, invalid. solve_rel. Qed.
Lemma rel_float_arg writer n s args : st_rel (served writer) (float_arg n s args).
Proof. unfold float_arg, invalid. solve_rel. Qed.
#[local] Hint Resolve rel_need_args rel_string_arg rel_float_arg : st_rel.
Lemma rel_parse writer params : st_rel (served writer) (parseScripthashParam params).
Proof. unfold parseScripthashParam, invalid. solve_rel. Qed.
#[local] Hint Resolve rel_parse : st_rel.


Context (N : rpc_node B) (C : platform) (sorter : slice_sort) (ord : range_order).
Context (StringWidth : string -> Z) (config_StartHeight : Z).

Lemma rel_status_hex writer sh : st_rel (served writer) (ComputeScripthashStatusHex sorter ord sh).
Proof. unfold ComputeScripthashStatusHex. solve_serve. Qed.
Lemma rel_load_checkpoint writer : st_rel (served writer) load_checkpoint.
Proof. unfold load_checkpoint, failing. solve_serve. Qed.
Lemma answers_load_checkpoint : answers load_checkpoint.
Proof. unfold load_checkpoint, failing. solve_answers. Qed.
#[local] Hint Resolve rel_status_hex rel_load_checkpoint : st_rel.
#[local] Hint Resolve answers_load_checkpoint : answers.

Lemma rel_headers_loop writer n i bs : st_rel (served writer) (headers_loop n i bs).
Proof. revert i bs; induction n as [|n IH]; intros i bs; cbn [headers_loop]; solve_serve. Qed.
Lemma answers_headers_loop n i bs : answers (headers_loop n i bs).
Proof. revert i bs; induction n as [|n IH]; intros i bs; cbn [headers_loop]; solve_answers. Qed.
#[local] Hint Resolve rel_headers_loop : st_rel.
#[local] Hint Resolve answers_headers_loop : answers.

Lemma rel_verbose writer h d : st_rel (served writer) (buildVerboseTx N h d).
Proof. unfold buildVerboseTx, failing, verbose_position, client_GetBlockHash. solve_serve. Qed.
Lemma answers_verbose h d : answers (buildVerboseTx N h d).
Proof. unfold buildVerboseTx, failing, verbose_position, client_GetBlockHash. solve_answers. Qed.
Lemma rel_core writer t : st_rel (served writer) (getTxFromCore N t).
Proof. unfold getTxFromCore, failing, invalid. solve_serve. Qed.
Lemma answers_core t : answers (getTxFromCore N t).
Proof. unfold getTxFromCore, failing, invalid. solve_answers. Qed.
#[local] Hint Resolve rel_verbose rel_core : st_rel.
#[local] Hint Resolve answers_verbose answers_core : answers.

(** ** The switch *)

Notation methods := (methods N C sorter ord StringWidth config_StartHeight).
Notation handleMethod := (handleMethod N C sorter ord StringWidth config_StartHeight).
Notation respond := (respond N C sorter ord StringWidth config_StartHeight).
Notation processRequest := (processRequest N C sorter ord StringWidth config_StartHeight).

Ltac unfold_handler :=
  unfold handleServerVersion, handleServerBanner, handleServerDonationAddress, handleServerPeersSubscribe,
    handleServerPing, handleServerFeatures, handleHeadersSubscribe, handleBlockHeader, handleEstimateFee,
    handleRelayFee, handleScripthashGetHistory, handleScripthashGetBalance, handleScripthashListUnspent,
    handleScripthashSubscribe, handleScripthashUnsubscribe, handleScripthashGetMempool, handleTransactionGet,
    handleTransactionBroadcast, handleTransactionGetMerkle, handleTransactionIdFromPos,
    handleMempoolFeeHistogram, client_GetBlockHash, on_subs, on_cache, mempool, invalid, failing.

Lemma switch_Forall (Q : string -> (option json -> st sworld gv) -> Prop) method cases f :
  Forall (fun c => Q c.1 c.2) cases -> switch method cases = Some f -> Q method f.
Proof.
  induction 1 as [|[name h] cases Hh _ IH]; cbn [switch]; [done|].
  case_decide as E; [|exact IH]. intros [= <-]. by subst.
Qed.

Lemma methods_served writer : Forall (fun c => forall params, st_rel (served writer) (c.2 params)) (methods writer).
Proof.
  unfold methods. repeat (apply Forall_cons_2; [cbn [snd]; intros params|]); [..|apply Forall_nil_2].
  all: try (unfold handleHeadersSubscribe, handleScripthashSubscribe, handleScripthashUnsubscribe, failing;
            solve_serve; fail).
  all: try (unfold handleBlockHeaders, buffer_Grow, grow_panic; solve_serve; fail).
  all: unfold_handler; solve_serve.
Qed.

Lemma methods_answer writer : Forall (fun c => c.1 <> "blockchain.block.headers"%string ->
  forall params, answers (c.2 params)) (methods writer).
Proof.
  unfold methods. repeat (apply Forall_cons_2; [cbn [fst snd]; intros Hn params; try done|]); [..|apply Forall_nil_2].
  all: unfold_handler; solve_answers.
Qed.

(** ** Block headers *)

Notation handleBlockHeaders := (handleBlockHeaders C).

(** The count asked for, cut to 2016. *)
Definition cut_count (count : float64) : float64 := if float_gtb count max_headers then max_headers else count.

(** What a request's buffer panics with. *)
Definition bad_count (params : option json) : option error :=
  match Unmarshal_args params with
  | Some (VFloat _ :: VFloat count :: _) => grow_panic C (i64 (to_int64 C (cut_count count) * 80))
  | _ => None
  end.

Lemma grow_panic_inv n e : grow_panic C n = Some e -> e = negative_size \/ e = too_large.
Proof. unfold grow_panic. destruct (n <? 0); [|destruct (_ <? n)]; naive_solver. Qed.

Lemma block_headers_cases params w :
  match bad_count params with
  | Some e => handleBlockHeaders params w = (Err e, w)
  | None => forall e, (handleBlockHeaders params w).1 = Err e -> rpc_err e
  end.
Proof.
  unfold bad_count, handleBlockHeaders, need_args.
  destruct (Unmarshal_args params) as [args|]; [|by apply answers_fail].
  destruct args as [|a1 [|a2 rest]]; [by apply answers_fail|by destruct a1; apply answers_fail|].
  cbn [length Nat.ltb Nat.leb].
  destruct a1 as [| |start| | | |]; try by apply answers_fail.
  destruct a2 as [| |count| | | |]; try by apply answers_fail.
  change (if float_gtb count max_headers then max_headers else count) with (cut_count count).
  rewrite (st_bind_run (mret _) _ w (VFloat start :: VFloat count :: rest) w) by done.
  rewrite (st_bind_run (float_arg 0 _ _) _ w start w) by done.
  rewrite (st_bind_run (float_arg 1 _ _) _ w count w) by done.
  unfold buffer_Grow. fold (cut_count count).
  destruct (grow_panic C (i64 (to_int64 C (cut_count count) * 80))) as [e|]; [done|].
  intros e. revert w e. change (answers (_ ← mret (M := st sworld) ();
    headers ← headers_loop (Z.to_nat (to_int32 C (float_add start (cut_count count)) - to_int32 C start))
      (to_int32 C start) [];
    mret (VMap [("count"%string, VInt (Z.max 0 (to_int32 C (float_add start (cut_count count)) - to_int32 C start)));
      ("hex"%string, VStr (EncodeToString headers)); ("max"%string, VInt 2016)]))).
  solve_answers.
Qed.

(** ** A whole line *)

Definition crash_of (req : Request) : option error :=
  if decide (rq_Method req = "blockchain.block.headers"%string) then bad_count (rq_Params req) else None.

Lemma rpc_err_no_panic e : rpc_err e -> is_panic e = false.
Proof.
  intros (Code & Message & ->). unfold is_panic, rpc_Error. cbn.
  case_bool_decide as E; [|done]. exfalso. unfold fmt_d, itoa in E.
  apply (f_equal (fun s => parse_int (bytes_of_string s))) in E.
  rewrite bytes_of_string_of_bytes, parse_int_itoa in E. by vm_compute in E.
Qed.

Lemma handle_cases writer req w :
  match crash_of req with
  | Some e => handleMethod writer (rq_Method req) (rq_Params req) w = (Err e, w)
  | None => forall e, (handleMethod writer (rq_Method req) (rq_Params req) w).1 = Err e -> rpc_err e
  end.
Proof.
  unfold crash_of. case_decide as Hm.
  - rewrite Hm. apply block_headers_cases.
  - unfold handleMethod, Rpc.handleMethod. destruct (switch _ _) as [h|] eqn:E; [|apply answers_fail].
    assert (Ha : forall params, answers (h params)); [|apply Ha].
    apply (switch_Forall (fun name h => name <> "blockchain.block.headers"%string -> forall params, answers (h params))
      _ _ _ (methods_answer writer) E Hm).
Qed.

Lemma crash_of_inv req e : crash_of req = Some e -> e = negative_size \/ e = too_large.
Proof.
  unfold crash_of, bad_count. case_decide; [|done].
  repeat case_match; try done; apply grow_panic_inv.
Qed.

Lemma respond_cases writer req w :
  match crash_of req with
  | Some e => exists w', respond writer req w = (Err e, w')
  | None => exists r w', respond writer req w = (Ok r, w') /\ rs_ID r = rq_ID req /\
      forall e, rs_Error r = Some e -> rpc_err e
  end.
Proof.
  pose proof (handle_cases writer req w) as H. unfold respond, Rpc.respond.
  destruct (crash_of req) as [e|] eqn:Ec.
  - rewrite (st_bind_run _ _ _ _ _ (st_try_run _ _ _ _ H)). exists w. apply crash_of_inv in Ec as [-> | ->]; done.
  - destruct (handleMethod writer (rq_Method req) (rq_Params req) w) as [r w1] eqn:E.
    rewrite (st_bind_run _ _ _ _ _ (st_try_run _ _ _ _ E)).
    destruct r as [v|e]; [do 2 eexists; split_and!; [done..|]; by intros e|]. cbn [fst] in H.
    rewrite (rpc_err_no_panic e) by (by apply H). do 2 eexists. split_and!; [done..|].
    intros e' [= <-]. by apply H.
Qed.

Lemma rel_respond writer req : st_rel (served writer) (respond writer req).
Proof.
  unfold respond, Rpc.respond. apply st_rel_bind; [apply _| |intros [v|e]; solve_serve].
  apply st_rel_try. unfold handleMethod, Rpc.handleMethod.
  destruct (switch _ _) as [h|] eqn:E; [|solve_serve].
  by apply (switch_Forall (fun _ h => forall params, st_rel (served writer) (h params))
    _ _ _ (methods_served writer) E).
Qed.

(** The requests of a line: none on a blank one, several in an array. *)
Definition requests_of (data : bytes) : result (list Request) :=
  match bytesTrimSpace data with
  | [] => Ok []
  | (c :: _) as trimmed =>
      v ← json_parse trimmed;
      if decide (c = x5b) then decode_requests v else r ← decode_request v; Ok [r]
  end.

Definition answer_all (writer : conn) (rs : list Response) (reqs : list Request) : st sworld (list Response) :=
  st_foldM (fun responses req => r ← respond writer req; mret (responses ++ [r])) rs reqs.

Lemma processRequest_eq writer data w :
  processRequest writer data w =
  match requests_of data with
  | Err e => (Ok [parse_error e], w)
  | Ok reqs => answer_all writer [] reqs w
  end.
Proof.
  unfold processRequest, Rpc.processRequest, requests_of, answer_all.
  destruct (bytesTrimSpace data) as [|c rest]; [done|].
  case_decide; destruct (json_parse (c :: rest)) as [v|e]; cbn [mbind result_bind]; try done.
  - by destruct (decode_requests v).
  - destruct (decode_request v) as [r|e]; cbn [mbind result_bind st_foldM]; [|done].
    unfold mbind, st_bind. by destruct (respond writer r w) as [[x|e] w1].
Qed.

Lemma answer_all_cases writer reqs : forall rs w,
  match answer_all writer rs reqs w with
  | (Ok rs', _) => Forall (fun req => crash_of req = None) reqs /\ exists new, rs' = rs ++ new /\
      rs_ID <$> new = rq_ID <$> reqs /\ Forall (fun r => forall e, rs_Error r = Some e -> rpc_err e) new
  | (Err e, _) => Exists (fun req => crash_of req = Some e) reqs
  end.
Proof.
  induction reqs as [|req reqs IH]; intros rs w; unfold answer_all; cbn [st_foldM].
  { split; [by apply Forall_nil|]. exists []. by rewrite app_nil_r. }
  pose proof (respond_cases writer req w) as H. destruct (crash_of req) as [e|] eqn:Ec.
  - destruct H as [w' H].
    rewrite (st_bind_err _ _ w e w'); [by left|]. by rewrite (st_bind_err _ _ _ _ _ H).
  - destruct H as (r & w' & H & Hid & He).
    rewrite (st_bind_run _ _ w (rs ++ [r]) w') by (by rewrite (st_bind_run _ _ _ _ _ H)).
    specialize (IH (rs ++ [r]) w'). fold (answer_all writer (rs ++ [r]) reqs).
    destruct (answer_all writer (rs ++ [r]) reqs w') as [[rs'|e] w2]; [|by right].
    destruct IH as (Hc & new & -> & Hids & Hn). split; [by constructor|]. exists (r :: new).
    split_and!; [by rewrite <- app_assoc|by rewrite !fmap_cons, Hid, Hids|by constructor].
Qed.

(** C16: every request is answered, and only one kind can crash the server: a
    line that does not decode gets one parse error; any other gets one response
    per request, in order and with its id, each either a result or an [*Error],
    unless one of its requests asks for block headers with a count for which the
    size of the buffer is negative or too large to allocate, in which case the
    line ends in that run-time panic, which the connection's goroutine does not
    recover. *)
Theorem requests_answered (writer : conn) (data : bytes) (w : sworld) :
  match requests_of data, processRequest writer data w with
  | Err e, r => r = (Ok [parse_error e], w)
  | Ok reqs, (Ok rs, _) => Forall (fun req => crash_of req = None) reqs /\ rs_ID <$> rs = rq_ID <$> reqs /\
      Forall (fun r => forall e, rs_Error r = Some e -> rpc_err e) rs
  | Ok reqs, (Err e, _) =>
      Exists (fun req => crash_of req = Some e) reqs /\ (e = negative_size \/ e = too_large)
  end.
Proof.
  rewrite processRequest_eq. destruct (requests_of data) as [reqs|e]; [|done].
  pose proof (answer_all_cases writer reqs [] w) as H.
  destruct (answer_all writer [] reqs w) as [[rs|e] w'].
  - destruct H as (Hc & new & -> & Hids & Hn). done.
  - split; [done|]. apply Exists_exists in H as (req & _ & E). by eapply crash_of_inv.
Qed.

Lemma rel_answer_all writer reqs rs : st_rel (served writer) (answer_all writer rs reqs).
Proof.
  unfold answer_all. apply st_rel_foldM; [apply _|]. intros rs' req.
  apply st_rel_bind; [apply _|apply rel_respond|solve_rel].
Qed.

(** C17: requests only read: whatever a client sends, and whether it is answered
    or fails, the contents of the database and the overlay are unchanged, and so
    is every subscription of every other connection. *)
Theorem requests_only_read (writer : conn) (line : bytes) (w : sworld) :
  served writer w (serve_line N C sorter ord StringWidth config_StartHeight writer line w).2.
Proof.
  revert w. change (st_rel (served writer)
    (serve_line N C sorter ord StringWidth config_StartHeight writer line)).
  unfold serve_line. destruct line as [|c line]; [solve_rel|].
  apply st_rel_bind; [apply _| |solve_rel]. intros w. rewrite processRequest_eq.
  destruct (requests_of (c :: line)) as [reqs|e]; [apply rel_answer_all|done].
Qed.

(** ** Parameters that are integers *)

Definition int_param (z : Z) : json := JNum (itoa_bytes z).

Lemma decode_int z : small z -> decode_any (int_param z) = Ok (VFloat (float_of_Z z)).
Proof. intros Hz. unfold int_param. cbn [decode_any]. by rewrite ParseFloat_itoa. Qed.

Lemma Unmarshal_ints a b : small a -> small b ->
  Unmarshal_args (Some (JArr [int_param a; int_param b])) = Some [VFloat (float_of_Z a); VFloat (float_of_Z b)].
Proof.
  intros Ha Hb. unfold Unmarshal_args. cbn [decode_anys].
  rewrite (decode_int a Ha). cbn [mbind result_bind]. by rewrite (decode_int b Hb).
Qed.

Lemma to_int64_of_Z z : small z -> to_int64 C (float_of_Z z) = z.
Proof.
  intros Hz. apply to_int64_of; [by apply truncate_float_of_Z|]. unfold small, in_i64 in *. lia.
Qed.

Lemma to_int32_of_Z z : in_i32 z -> to_int32 C (float_of_Z z) = z.
Proof.
  intros Hz. apply to_int32_of; [apply truncate_float_of_Z|done]. unfold small, in_i32 in *. lia.
Qed.

Lemma small_2016 : small 2016.
Proof. unfold small. lia. Qed.

Lemma cut_count_of_Z n : small n -> cut_count (float_of_Z n) = float_of_Z (Z.min n 2016).
Proof.
  intros Hn. unfold cut_count, max_headers. rewrite (float_gtb_of_Z n 2016 Hn small_2016) by lia.
  destruct (Z.ltb_spec 2016 n); f_equal; lia.
Qed.

(** Block headers with a negative count crash the server: a line that
    decodes and has a request for block headers with integers as start and
    count, the count below zero, ends in the panic of [bytes.Buffer.Grow],
    whatever the state and the other requests. *)
Theorem negative_header_count_crashes (writer : conn) (data : bytes) (reqs : list Request) (id : gv)
    (version : string) (start count : Z) (w : sworld)
    (Hdata : requests_of data = Ok reqs)
    (Hreq : mkRequest version id "blockchain.block.headers"
              (Some (JArr [int_param start; int_param count])) ∈ reqs)
    (Hstart : Z.abs start < 2 ^ 53) (Hcount : - 2 ^ 53 < count < 0) :
  exists e w', processRequest writer data w = (Err e, w') /\ (e = negative_size \/ e = too_large).
Proof.
  rewrite processRequest_eq, Hdata. pose proof (answer_all_cases writer reqs [] w) as H.
  assert (Hsm : small count) by (unfold small; lia).
  destruct (answer_all writer [] reqs w) as [[rs|e] w'].
  - destruct H as [H _]. rewrite Forall_forall in H. apply H in Hreq. revert Hreq.
    unfold crash_of, bad_count. cbn [rq_Method rq_Params]. rewrite decide_True by done.
    rewrite Unmarshal_ints, cut_count_of_Z, Z.min_l, to_int64_of_Z by (done || lia).
    unfold grow_panic. rewrite i64_id, (proj2 (Z.ltb_lt _ _)) by (unfold in_i64; lia). done.
  - exists e, w'. split; [done|]. apply Exists_exists in H as (req & _ & E). by eapply crash_of_inv.
Qed.

(** ** Headers that are there *)

Context {PH : PebbleHealthy P PL}.

Definition header_at (c : gmap bytes bytes) (h : Z) : option bytes := c !! (PrefixHeader :: be_encode 4 (u32 h)).

(** The headers of [n] heights, if none is missing. *)
Fixpoint headers_from (c : gmap bytes bytes) (n : nat) (h : Z) : option bytes :=
  match n with
  | O => Some []
  | S n => header ← header_at c h; rest ← headers_from c n (h + 1); Some (header ++ rest)
  end.

Lemma sdb_run {A} (m : st pdb A) w r d : m (w_db (sv_world w)) = (r, d) ->
  sdb m w = (r, mkSWorld (mkWorld d (w_mp (sv_world w))) (sv_subs w) (sv_cache w) (sv_calls w)).
Proof. intros E. unfold sdb, in_db. by rewrite E. Qed.

Lemma internal_run {W A} (m : st W A) w a w' : m w = (Ok a, w') -> internal m w = (Ok a, w').
Proof. intros E. unfold internal. by rewrite E. Qed.

Lemma headers_loop_run n : forall h acc w, 0 <= h -> healthy (w_db (sv_world w)) ->
  match headers_from (contents (w_db (sv_world w))) n h with
  | Some bs => exists w', headers_loop n h acc w = (Ok (acc ++ bs), w')
  | None => exists m w', headers_loop n h acc w = (Err (rpc_Error ErrCodeInternal m), w')
  end.
Proof.
  induction n as [|n IH]; intros h acc w H0 Hw; cbn [headers_from headers_loop].
  { exists w. by rewrite app_nil_r. }
  unfold header_at. destruct (contents (w_db (sv_world w)) !! _) as [hd|] eqn:E; cbn [mbind option_bind].
  - destruct (reads_GetHeader h hd (w_db (sv_world w)) Hw H0 E) as (d & E1 & Hd & Hc).
    set (w1 := mkSWorld (mkWorld d (w_mp (sv_world w))) (sv_subs w) (sv_cache w) (sv_calls w)).
    assert (Hc1 : contents (w_db (sv_world w1)) = contents (w_db (sv_world w))) by exact Hc.
    rewrite (st_bind_run _ _ _ _ _ (internal_run _ _ _ _ (sdb_run _ _ _ _ E1))).
    specialize (IH (h + 1) (acc ++ hd) w1 ltac:(lia) Hd). rewrite Hc1 in IH.
    destruct (headers_from _ n (h + 1)) as [bs|]; cbn [mbind option_bind]; [by rewrite <- app_assoc in IH|done].
  - destruct (GetHeader_absent h (w_db (sv_world w)) Hw H0 E) as (e & d & E1 & _).
    exists (Error e). eexists. apply st_bind_err. unfold internal. by rewrite (sdb_run _ _ _ _ E1).
Qed.

(** A request for block headers is answered exactly: for a start and a count
    from 0, the answer is the concatenation of the headers of the first
    [min count 2016] heights with their number, when the database has all of
    them, and an internal error otherwise. *)
Theorem block_headers_served (h n : Z) (w : sworld)
    (Hw : healthy (w_db (sv_world w))) (Hh : 0 <= h) (Hn : 0 <= n < 2 ^ 53)
    (Hend : h + Z.min n 2016 < 2 ^ 31) :
  let k := Z.min n 2016 in
  match headers_from (contents (w_db (sv_world w))) (Z.to_nat k) h,
    (handleBlockHeaders (Some (JArr [int_param h; int_param n])) w).1 with
  | Some bs, r => r = Ok (VMap [("count", VInt k); ("hex", VStr (EncodeToString bs)); ("max", VInt 2016)]%string)
  | None, r => exists Message, r = Err (rpc_Error ErrCodeInternal Message)
  end.
Proof.
  assert (Hsh : small h) by (unfold small; lia). assert (Hsn : small n) by (unfold small; lia).
  set (k := Z.min n 2016). assert (Hk : 0 <= k <= 2016) by lia.
  unfold handleBlockHeaders, Rpc.handleBlockHeaders, need_args. rewrite Unmarshal_ints by done.
  cbn [length Nat.ltb Nat.leb].
  rewrite (st_bind_run (mret _) _ w [VFloat (float_of_Z h); VFloat (float_of_Z n)] w) by done.
  rewrite (st_bind_run (float_arg 0 _ _) _ w (float_of_Z h) w) by done.
  rewrite (st_bind_run (float_arg 1 _ _) _ w (float_of_Z n) w) by done.
  change (if float_gtb (float_of_Z n) max_headers then max_headers else float_of_Z n) with (cut_count (float_of_Z n)).
  rewrite cut_count_of_Z by done. fold k.
  rewrite float_add_of_Z, to_int64_of_Z, !to_int32_of_Z by (unfold small, in_i32; lia).
  rewrite (st_bind_run (buffer_Grow C _) _ w () w).
  2:{ unfold buffer_Grow, grow_panic. pose proof (max_buffer_headers C).
      rewrite i64_id, !(proj2 (Z.ltb_ge _ _)) by (unfold in_i64; lia). done. }
  replace (h + k - h) with k by lia.
  pose proof (headers_loop_run (Z.to_nat k) h [] w Hh Hw) as H.
  destruct (headers_from _ _ _) as [bs|].
  - destruct H as [w' E]. rewrite (st_bind_run _ _ _ _ _ E). cbn [fst mret st_ret]. by rewrite Z.max_r by lia.
  - destruct H as (m & w' & E). rewrite (st_bind_err _ _ _ _ _ E). by exists m.
Qed.

(** ** Subscribing *)

Context {BL : BtcdLaws B}.

Definition status_of (history : list history_item) : string :=
  match history with [] => ""%string | _ => EncodeToString (Sum256 (status_text history)) end.

(** A request for one scripthash. *)
Definition scripthash_param (sh : bytes) : json := JArr [JStr (bytes_of_string (EncodeToString sh))].

Lemma parse_scripthash sh w : length sh = 32%nat ->
  parseScripthashParam (Some (scripthash_param sh)) w = (Ok sh, w).
Proof.
  intros Hl. unfold parseScripthashParam, need_args, Unmarshal_args, scripthash_param.
  cbn [decode_anys decode_any mbind result_bind to_option length Nat.ltb Nat.leb].
  rewrite string_of_bytes_of_string.
  rewrite (st_bind_run (mret _) _ w [VStr (EncodeToString sh)] w) by done.
  rewrite (st_bind_run (string_arg 0 _ _) _ w (EncodeToString sh) w) by done.
  rewrite DecodeString_EncodeToString. by rewrite decide_False by (by intros []).
Qed.

Lemma status_reads m sh d : healthy d -> length sh = 32%nat -> exists history,
  reads (GetScripthashHistory sorter ord m sh) d history /\
  reads (ComputeScripthashStatus sorter ord m sh) d (status_of history).
Proof.
  intros Hd Hl. pose proof (history_run sorter ord m sh d Hd Hl) as Hr. eexists. split; [exact Hr|].
  destruct Hr as (d' & E & Hd' & Hc). exists d'. split; [|done].
  unfold ComputeScripthashStatus. rewrite (st_bind_run _ _ _ _ _ E). unfold status_of.
  by destruct (history_of _ _ _ _ _).
Qed.

Lemma status_of_empty history : status_of history = ""%string <-> history = [].
Proof.
  split; [|by intros ->]. destruct history as [|e l]; [done|]. cbn [status_of]. intros H.
  apply (f_equal slen) in H. rewrite slen_EncodeToString, length_Sum256 in H. by vm_compute in H.
Qed.

Lemma status_hex_run sh w : healthy (w_db (sv_world w)) -> length sh = 32%nat ->
  GetIfClean (EncodeToString sh) (sv_cache w) = None ->
  exists history d, reads (GetScripthashHistory sorter ord (w_mp (sv_world w)) sh) (w_db (sv_world w)) history /\
    ComputeScripthashStatusHex sorter ord (EncodeToString sh) w =
      (Ok (status_of history), mkSWorld (mkWorld d (w_mp (sv_world w))) (sv_subs w)
         (SetClean (EncodeToString sh) (status_of history) (sv_cache w)) (sv_calls w)).
Proof.
  intros Hd Hl Hdirty.
  destruct (status_reads (w_mp (sv_world w)) sh (w_db (sv_world w)) Hd Hl) as (history & Hr & d & E & _ & _).
  exists history, d. split; [done|]. unfold ComputeScripthashStatusHex.
  rewrite (st_bind_run (st_gets _) _ w None w) by (unfold st_gets; by rewrite Hdirty).
  rewrite DecodeString_EncodeToString, (st_bind_run (st_lift _) _ w sh w) by done.
  rewrite (st_bind_run mempool _ w (w_mp (sv_world w)) w) by done.
  by rewrite (st_bind_run _ _ _ _ _ (sdb_run _ _ _ _ E)).
Qed.

(** Subscribing to a scripthash whose status is not cached, and what is computed
    after it is marked dirty. *)
Lemma subscribe_run (writer : conn) (sh : bytes) (w : sworld)
    (Hd : healthy (w_db (sv_world w))) (Hl : length sh = 32%nat)
    (Hdirty : GetIfClean (EncodeToString sh) (sv_cache w) = None) :
  exists history d, reads (GetScripthashHistory sorter ord (w_mp (sv_world w)) sh) (w_db (sv_world w)) history /\
    handleScripthashSubscribe sorter ord writer (Some (scripthash_param sh)) w =
      (Ok (if decide (history = []) then VNil else VStr (status_of history)),
       mkSWorld (mkWorld d (w_mp (sv_world w))) (SubscribeScripthash writer (EncodeToString sh) (sv_subs w))
         (SetClean (EncodeToString sh) (status_of history) (sv_cache w)) (sv_calls w)).
Proof.
  clear StringWidth. set (hx := EncodeToString sh) in *.
  set (w0 := mkSWorld (sv_world w) (SubscribeScripthash writer hx (sv_subs w)) (sv_cache w) (sv_calls w)).
  destruct (status_hex_run sh w0 Hd Hl Hdirty) as (history & d & Hr & E). fold hx in E. exists history, d.
  split; [exact Hr|]. unfold handleScripthashSubscribe. rewrite (st_bind_run _ _ _ _ _ (parse_scripthash sh w Hl)). fold hx.
  rewrite (st_bind_run (on_subs _) _ w () w0) by done.
  rewrite (st_bind_run _ _ _ _ _ (internal_run _ _ _ _ E)). cbn [mret st_ret].
  do 2 f_equal. pose proof (status_of_empty history). repeat case_decide; try done; tauto.
Qed.

Lemma dirty_run (sh : bytes) (w : sworld) (Hd : healthy (w_db (sv_world w))) (Hl : length sh = 32%nat) :
  exists history w', reads (GetScripthashHistory sorter ord (w_mp (sv_world w)) sh) (w_db (sv_world w)) history /\
    (MarkScripthashDirtyMany [EncodeToString sh] ≫= fun _ => ComputeScripthashStatusHex sorter ord (EncodeToString sh)) w =
      (Ok (status_of history), w').
Proof.
  clear StringWidth. set (hx := EncodeToString sh) in *.
  set (w1 := mkSWorld (sv_world w) (sv_subs w) (MarkDirtyMany [hx] (sv_cache w)) (sv_calls w)).
  destruct (status_hex_run sh w1 Hd Hl) as (history & d & Hr & E); [apply GetIfClean_dirty|].
  exists history. eexists. split; [exact Hr|].
  by rewrite (st_bind_run (MarkScripthashDirtyMany [hx]) _ w () w1) by done.
Qed.

End Serve.

(** ** Witnesses *)

#[export] Instance ModelBtcdTx : @BtcdTx ModelBtcd := {
  tx_Version _ := 2;
  tx_LockTime _ := 0;
  tx_Inputs t := (fun i => mkTxIn i [] [] 4294967295) <$> @tx_TxIn ModelBtcd t;
  WitnessHash t := @TxHash ModelBtcd t;
  SerializeSize t := Z.of_nat (length (mt_hash t));
  SerializeSizeStripped t := Z.of_nat (length (mt_hash t));
  tx_Deserialize bs := Ok (mkTx bs [] []);
  NewHashFromStr s := TxidFromHex s;
}.

Definition sample_rpc_node : rpc_node ModelBtcd := @mkRpcNode ModelBtcd
  (fun _ _ => Ok (replicate 32 x01)) (fun _ _ => Ok None) (fun _ _ => Ok (replicate 32 x05))
  (fun _ _ => Err (ENew "no such transaction")).

Definition sample_server : @sworld MemPebble ModelBtcd :=
  mkSWorld indexed2 NewSubscriptionManager NewStatusCache 0.

Definition headers_request : bytes :=
  text "{'id':1,'method':'blockchain.block.headers','params':[0,-1]}".

(** A count for which [int(count)*80] wraps to a positive size. *)
Lemma wrapped_header_count_crashes :
  crash_of amd64 (mkRequest "" (VFloat (float_of_Z 1)) "blockchain.block.headers"
    (Some (JArr [int_param 0; int_param (-150000000000000000)]))) = Some too_large.
Proof. vm_compute. reflexivity. Qed.

Lemma negative_header_count_crashes_witness : exists e w',
  processRequest sample_rpc_node amd64 merge_sorter id_order (fun s => Z.of_nat (slen s)) 0 1%positive
    headers_request sample_server = (Err e, w') /\ (e = negative_size \/ e = too_large).
Proof.
  apply (negative_header_count_crashes sample_rpc_node amd64 merge_sorter id_order (fun s => Z.of_nat (slen s)) 0
    1%positive headers_request
    [mkRequest "" (VFloat (float_of_Z 1)) "blockchain.block.headers" (Some (JArr [int_param 0; int_param (-1)]))]
    (VFloat (float_of_Z 1)) "" 0 (-1) sample_server);
    [vm_compute; reflexivity | left | reflexivity | split; reflexivity].
Defined.

(** The headers of heights 1 and 2. *)
Lemma sample_headers :
  is_Some (headers_from (contents (w_db (sv_world sample_server))) (Z.to_nat (Z.min 2 2016)) 1).
Proof. apply (bool_decide_eq_true_1 _). vm_compute. reflexivity. Qed.

Lemma block_headers_served_witness : exists bs,
  (handleBlockHeaders amd64 (Some (JArr [int_param 1; int_param 2])) sample_server).1 =
    Ok (VMap [("count"%string, VInt (Z.min 2 2016)); ("hex"%string, VStr (EncodeToString bs));
              ("max"%string, VInt 2016)]).
Proof.
  pose proof (block_headers_served amd64 1 2 sample_server indexed2_healthy ltac:(discriminate)
    ltac:(split; [discriminate|reflexivity]) ltac:(reflexivity)) as H.
  pose proof sample_headers as Hs. cbv zeta in H.
  destruct (headers_from (contents (w_db (sv_world sample_server))) (Z.to_nat (Z.min 2 2016)) 1) as [bs|].
  - exists bs. exact H.
  - destruct Hs as [bs Hs]. discriminate Hs.
Defined.
