(* ===== verification/Conn.v ===== *)
(** * Writing to a connection: [ConnWriter] of [internal/electrum/server.go]

    [Send] and [TrySend] look at the flag [closed] and then send on the channel;
    [writeLoop] takes from it and writes; [Close] sets the flag, closes both
    channels and waits for the loop.  The goroutines interleave between those
    actions: a [clabel] is one of them, [cstep] its effect.  A send on a closed
    channel is a run-time panic, which ends the process.  [CWrite n] is a call of
    [conn.Write] of which the connection takes the first [n] bytes: the code drops
    the count and the error, so a write cut short is followed by the next message. *)

From Stdlib Require Import Strings.Byte.
From S2P Require Import Prelude Bytes.

(** A call of [Send] or [TrySend]: past the flag, or returned, with its result
    ([nil] or [true] on success). *)
Inductive csend :=
| Checked (try : bool) (data : bytes)
| Sent (ok : bool).

(** How far [Close] has come. *)
Inductive cclose := NotClosing | FlagSet | DoneClosed | ChClosed | Closed.

Record ConnWriter := mkConnWriter {
  cw_ch : list bytes;              (* w.ch, oldest first *)
  cw_close : cclose;
  cw_running : bool;               (* writeLoop has not returned *)
  cw_written : list bytes;         (* the calls of w.conn.Write *)
  cw_wire : list bytes;            (* what the connection took of each *)
  cw_calls : gmap nat csend;
  cw_panicked : bool;
}.

Definition NewConnWriter : ConnWriter := mkConnWriter [] NotClosing true [] [] ∅ false.

Definition flag_set (w : ConnWriter) : bool :=
  match cw_close w with NotClosing => false | _ => true end.
Definition done_closed (w : ConnWriter) : bool :=
  match cw_close w with NotClosing | FlagSet => false | _ => true end.
Definition ch_closed (w : ConnWriter) : bool :=
  match cw_close w with ChClosed | Closed => true | _ => false end.

Inductive clabel :=
| CCheck (c : nat) (try : bool) (data : bytes)   (* atomic.LoadInt32(&w.closed) *)
| CPush (c : nat)                                (* w.ch <- data *)
| CFull (c : nat)                                (* TrySend's default *)
| CClose                                         (* CompareAndSwapInt32 *)
| CCloseDone                                     (* close(w.done) *)
| CCloseCh                                       (* close(w.ch) *)
| CCloseWait                                     (* w.wg.Wait() *)
| CWrite (n : nat)                               (* data := <-w.ch; _, _ = w.conn.Write(data) *)
| CEmpty                                         (* _, ok := <-w.ch; !ok *)
| CDone.                                         (* <-w.done *)

Section Writer.
Context (bufSize : nat).

Definition with_call (c : nat) (k : csend) (w : ConnWriter) : ConnWriter :=
  mkConnWriter (cw_ch w) (cw_close w) (cw_running w) (cw_written w) (cw_wire w) (<[c := k]> (cw_calls w)) (cw_panicked w).

Definition with_close (k : cclose) (w : ConnWriter) : ConnWriter :=
  mkConnWriter (cw_ch w) k (cw_running w) (cw_written w) (cw_wire w) (cw_calls w) (cw_panicked w).

Definition stop_loop (w : ConnWriter) : ConnWriter :=
  mkConnWriter (cw_ch w) (cw_close w) false (cw_written w) (cw_wire w) (cw_calls w) (cw_panicked w).

Definition panic (w : ConnWriter) : ConnWriter :=
  mkConnWriter (cw_ch w) (cw_close w) (cw_running w) (cw_written w) (cw_wire w) (cw_calls w) true.

Definition push (data : bytes) (w : ConnWriter) : ConnWriter :=
  mkConnWriter (cw_ch w ++ [data]) (cw_close w) (cw_running w) (cw_written w) (cw_wire w) (cw_calls w) (cw_panicked w).

Definition cstep (l : clabel) (w : ConnWriter) : option ConnWriter :=
  if cw_panicked w then None else
  match l with
  | CCheck c try data =>
      match cw_calls w !! c with
      | Some _ => None
      | None => Some (with_call c (if flag_set w then Sent false else Checked try data) w)
      end
  | CPush c =>
      match cw_calls w !! c with
      | Some (Checked _ data) =>
          if ch_closed w then Some (panic w)
          else if (length (cw_ch w) <? bufSize)%nat then Some (with_call c (Sent true) (push data w))
          else None
      | _ => None
      end
  | CFull c =>
      match cw_calls w !! c with
      | Some (Checked true _) =>
          if negb (ch_closed w) && (bufSize <=? length (cw_ch w))%nat then Some (with_call c (Sent false) w)
          else None
      | _ => None
      end
  | CClose => Some (if flag_set w then w else with_close FlagSet w)
  | CCloseDone => match cw_close w with FlagSet => Some (with_close DoneClosed w) | _ => None end
  | CCloseCh => match cw_close w with DoneClosed => Some (with_close ChClosed w) | _ => None end
  | CCloseWait =>
      match cw_close w with
      | ChClosed => if cw_running w then None else Some (with_close Closed w)
      | _ => None
      end
  | CWrite n =>
      match cw_running w, cw_ch w with
      | true, data :: ch =>
          Some (mkConnWriter ch (cw_close w) true (cw_written w ++ [data]) (cw_wire w ++ [take n data])
            (cw_calls w) (cw_panicked w))
      | _, _ => None
      end
  | CEmpty =>
      match cw_running w, cw_ch w with
      | true, [] => if ch_closed w then Some (stop_loop w) else None
      | _, _ => None
      end
  | CDone => if cw_running w && done_closed w then Some (stop_loop w) else None
  end.

Fixpoint crun (ls : list clabel) (w : ConnWriter) : option ConnWriter :=
  match ls with
  | [] => Some w
  | l :: ls => w ← cstep l w; crun ls w
  end.

(** ** Properties *)

(** The messages that entered the channel during a run, in order. *)
Definition accepted1 (l : clabel) (w : ConnWriter) : list bytes :=
  match l with
  | CPush c =>
      match cw_calls w !! c with
      | Some (Checked _ data) => if ch_closed w then [] else [data]
      | _ => []
      end
  | _ => []
  end.

Fixpoint accepted (ls : list clabel) (w : ConnWriter) : list bytes :=
  match ls with
  | [] => []
  | l :: ls => accepted1 l w ++ match cstep l w with Some w => accepted ls w | None => [] end
  end.

(** One step: what it adds, and what it keeps. *)
Lemma cstep_content l w w' : cstep l w = Some w' ->
  cw_written w' ++ cw_ch w' = (cw_written w ++ cw_ch w) ++ accepted1 l w /\
  ((length (cw_ch w) <= bufSize)%nat -> (length (cw_ch w') <= bufSize)%nat) /\
  (Forall2 prefix (cw_wire w) (cw_written w) -> Forall2 prefix (cw_wire w') (cw_written w')).
Proof.
  unfold cstep. destruct (cw_panicked w); [done|]. intros H.
  assert (Hsame : forall w1, Some w1 = Some w' -> cw_written w1 = cw_written w -> cw_wire w1 = cw_wire w -> cw_ch w1 = cw_ch w ->
    accepted1 l w = [] -> cw_written w' ++ cw_ch w' = (cw_written w ++ cw_ch w) ++ accepted1 l w /\
    ((length (cw_ch w) <= bufSize)%nat -> (length (cw_ch w') <= bufSize)%nat) /\
    (Forall2 prefix (cw_wire w) (cw_written w) -> Forall2 prefix (cw_wire w') (cw_written w'))).
  { intros w1 [= ->] -> -> -> ->. by rewrite app_nil_r. }
  destruct l as [c try data|c|c| | | | | | |]; cbn [accepted1] in *.
  - destruct (cw_calls w !! c); [done|]. by apply (Hsame _ H).
  - destruct (cw_calls w !! c) as [[try data|]|]; [|done..].
    destruct (ch_closed w); [by apply (Hsame _ H)|].
    destruct (Nat.ltb_spec (length (cw_ch w)) bufSize); [|done]. injection H as <-. cbn.
    split_and!; [by rewrite app_assoc|rewrite length_app; cbn; lia|done].
  - destruct (cw_calls w !! c) as [[[] data|]|]; [|done..].
    destruct (negb (ch_closed w) && _); [by apply (Hsame _ H)|done].
  - destruct (flag_set w); by apply (Hsame _ H).
  - destruct (cw_close w); [done|by apply (Hsame _ H)|done..].
  - destruct (cw_close w); [done|done|by apply (Hsame _ H)|done..].
  - destruct (cw_close w); try done. destruct (cw_running w); [done|by apply (Hsame _ H)].
  - destruct (cw_running w); [|done]. destruct (cw_ch w) as [|data ch] eqn:E; [done|]. injection H as <-. cbn.
    split_and!; [by rewrite <- app_assoc, app_nil_r|lia|].
    intros H. apply Forall2_app; [done|]. constructor; [apply prefix_take|done].
  - destruct (cw_running w); [|done]. destruct (cw_ch w) eqn:E; [|done].
    destruct (ch_closed w); [by apply (Hsame _ H)|done].
  - destruct (cw_running w && done_closed w); [by apply (Hsame _ H)|done].
Qed.

(** C29: a connection is written its messages in order: in every run, what has been
    handed to [conn.Write] followed by what is buffered is exactly the sequence of
    messages that [Send] and [TrySend] accepted, none lost, repeated or reordered,
    and at most [bufSize] are buffered; of each message handed over, in this order,
    the connection has taken a prefix (the code does not look whether it took all). *)
Theorem conn_writer_in_order (ls : list clabel) (w : ConnWriter) (Hrun : crun ls NewConnWriter = Some w) :
  cw_written w ++ cw_ch w = accepted ls NewConnWriter /\ (length (cw_ch w) <= bufSize)%nat /\
  Forall2 prefix (cw_wire w) (cw_written w).
Proof.
  assert (H : forall w0, crun ls w0 = Some w -> (length (cw_ch w0) <= bufSize)%nat ->
    Forall2 prefix (cw_wire w0) (cw_written w0) ->
    cw_written w ++ cw_ch w = (cw_written w0 ++ cw_ch w0) ++ accepted ls w0 /\ (length (cw_ch w) <= bufSize)%nat /\
    Forall2 prefix (cw_wire w) (cw_written w)).
  { clear Hrun. induction ls as [|l ls IH]; intros w0; cbn [crun accepted].
    - intros [= ->]. by rewrite app_nil_r.
    - destruct (cstep l w0) as [w1|] eqn:E; [|done]. intros Hr Hl Hp.
      destruct (cstep_content l w0 w1 E) as (H1 & H2 & H4).
      destruct (IH w1 Hr (H2 Hl) (H4 Hp)) as [-> H3]. by rewrite H1, app_assoc. }
  apply (H NewConnWriter Hrun); [cbn; lia|constructor].
Qed.

(** No call is between its check and its send. *)
Definition quiescent (w : ConnWriter) : Prop := forall c try data, cw_calls w !! c <> Some (Checked try data).

(** Closing the channel only when no call is there. *)
Fixpoint orderly (ls : list clabel) (w : ConnWriter) : Prop :=
  match ls with
  | [] => True
  | l :: ls => (l = CCloseCh -> quiescent w) /\ match cstep l w with Some w => orderly ls w | None => True end
  end.

Definition safe (w : ConnWriter) : Prop := cw_panicked w = false /\ (ch_closed w = true -> quiescent w).

Lemma quiescent_insert w c k : quiescent w -> (forall try data, k <> Checked try data) ->
  quiescent (with_call c k w).
Proof.
  intros Hq Hk c' try data. cbn. destruct (decide (c = c')) as [->|].
  - rewrite lookup_insert_eq. intros [= E]. by eapply Hk.
  - rewrite lookup_insert_ne by done. apply Hq.
Qed.

Lemma ch_closed_flag w : ch_closed w = true -> flag_set w = true.
Proof. unfold ch_closed, flag_set. by destruct (cw_close w). Qed.

Lemma cstep_safe l w w' : safe w -> (l = CCloseCh -> quiescent w) -> cstep l w = Some w' -> safe w'.
Proof.
  intros [Hp Hq] Hl. unfold cstep. rewrite Hp. unfold safe.
  destruct l as [c try data|c|c| | | | | | |].
  - destruct (cw_calls w !! c); [done|]. intros [= <-]. split; [done|]. intros Hc.
    rewrite (ch_closed_flag w Hc). by apply quiescent_insert; [apply Hq|].
  - destruct (cw_calls w !! c) as [[try data|]|] eqn:Ec; [|done..].
    destruct (ch_closed w) eqn:Hc; [by destruct (Hq eq_refl c try data)|].
    destruct (_ <? _)%nat; [|done]. intros [= <-]. split; [done|].
    intros H. change (ch_closed w = true) in H. congruence.
  - destruct (cw_calls w !! c) as [[[] data|]|]; [|done..].
    destruct (ch_closed w) eqn:Hc; [done|]. destruct (_ <=? _)%nat; [|done].
    intros [= <-]. split; [done|]. intros H. change (ch_closed w = true) in H. congruence.
  - intros [= <-]. destruct (flag_set w) eqn:E; [done|]. by split.
  - destruct (cw_close w) eqn:E; try done. intros [= <-]. by split.
  - destruct (cw_close w) eqn:E; try done. intros [= <-]. split; [done|]. intros _. by apply Hl.
  - destruct (cw_close w) eqn:E; try done. destruct (cw_running w); [done|]. intros [= <-]. split; [done|].
    intros _. apply Hq. unfold ch_closed. by rewrite E.
  - destruct (cw_running w), (cw_ch w); try done. intros [= <-]. split; [done|exact Hq].
  - destruct (cw_running w), (cw_ch w); try done. destruct (ch_closed w) eqn:E; [|done]. intros [= <-].
    split; [done|]. intros _. by apply Hq.
  - destruct (cw_running w && done_closed w); [|done]. intros [= <-]. by split.
Qed.

(** C25: closing a connection races with notifications: a call of [Send] or
    [TrySend] that has looked at the flag before [Close] sets it, and sends after
    [Close] has closed the channel, panics, from every reachable state in which
    such a call is under way; and this is the only way to panic: when no call is
    between its check and its send at the moment the channel is closed, the run
    is free of panics. *)
Theorem close_races_with_send (ls : list clabel) (w : ConnWriter) (Hrun : crun ls NewConnWriter = Some w) :
  (forall c try data, cw_panicked w = false -> cw_close w = NotClosing ->
     cw_calls w !! c = Some (Checked try data) ->
     exists w', crun [CClose; CCloseDone; CCloseCh; CPush c] w = Some w' /\ cw_panicked w' = true) /\
  (orderly ls NewConnWriter -> cw_panicked w = false).
Proof.
  split.
  - intros c try data Hp Hc Hk. destruct w as [ch close running written wire calls p]. cbn in *. subst.
    cbn. rewrite Hk. by eexists.
  - assert (H : forall w0, safe w0 -> orderly ls w0 -> crun ls w0 = Some w -> safe w).
    { clear Hrun. induction ls as [|l ls IH]; intros w0 Hs; cbn [orderly crun]; [by intros _ [= <-]|].
      intros [Hl Ho]. destruct (cstep l w0) as [w1|] eqn:E; [|done].
      apply IH; [by eapply cstep_safe|done]. }
    intros Ho. apply (H NewConnWriter); [by split|done..].
Qed.

End Writer.

(** ** Witnesses *)

(** A notification, a response and the end of the connection. *)
Definition sample_messages : list clabel :=
  [CCheck 0 true [x41]; CPush 0; CCheck 1 false [x42]; CWrite 1; CPush 1; CCheck 2 true [x43]].

Definition sample_conn : ConnWriter :=
  mkConnWriter [[x42]] NotClosing true [[x41]] [[x41]]
    (<[2%nat := Checked true [x43]]> (<[1%nat := Sent true]> (<[1%nat := Checked false [x42]]>
      (<[0%nat := Sent true]> (<[0%nat := Checked true [x41]]> ∅))))) false.

Lemma sample_messages_run : crun 1000 sample_messages NewConnWriter = Some sample_conn.
Proof. vm_compute. reflexivity. Qed.

Lemma conn_writer_in_order_witness :
  cw_written sample_conn ++ cw_ch sample_conn = [[x41]; [x42]] /\ (length (cw_ch sample_conn) <= 1000)%nat /\
  Forall2 prefix (cw_wire sample_conn) (cw_written sample_conn).
Proof. exact (conn_writer_in_order 1000 sample_messages sample_conn sample_messages_run). Defined.

Lemma close_races_with_send_witness : exists w',
  crun 1000 [CClose; CCloseDone; CCloseCh; CPush 2] sample_conn = Some w' /\ cw_panicked w' = true.
Proof.
  destruct (close_races_with_send 1000 sample_messages sample_conn sample_messages_run) as [H _].
  apply (H 2%nat true [x43]); [reflexivity|reflexivity|apply lookup_insert_eq].
Defined.
