(* ===== verification/Serve.v ===== *)
(** * Connections: [Start], [Stop] and [handleConnection] of
    [internal/electrum/server.go]

    The accept loop gives each connection a slot of [connLimiter], adds it to the
    wait group and starts a goroutine, which counts it, reads and answers lines
    until the scanner ends or the server is cancelled, and then runs its deferred
    function.  [Stop] cancels, closes the listener and waits for the wait group, ten
    seconds at most.  A [slabel] is one action of one goroutine, [sstep] its effect:
    the actions of the accept loop on one connection can have those of [Stop]
    between them.  A line is handled in one action, its responses leaving in order
    ([Conn] has the writing); what the scanner and the clock answer is part of the
    label.  The server is listening from the start: [Start] has called [Listen]. *)

From Stdlib Require Import Strings.Byte.
From S2P Require Import Prelude Bytes Hex Keys Values Json Checkpoint Pebble Store Sha256 Types Mempool Block Query Server GoFloat Rpc.

(** How far [handleConnection] is; the phases after [CEnding] are the calls of
    its deferred function that have returned. *)
Inductive cphase :=
| CStarting       (* go s.handleConnection(conn) *)
| CLooping        (* at the top of the loop of serve *)
| CReading        (* in scanner.Scan() *)
| CEnding         (* serve returned *)
| CReleased       (* <-s.connLimiter *)
| CUnsubscribed   (* s.subs.Unsubscribe(writer) *)
| CWriterClosed   (* writer.Close() *)
| CConnClosed     (* conn.Close() *)
| CUncounted      (* atomic.AddInt64(&s.activeConnCount, -1) *)
| CFinished.      (* s.wg.Done() *)

#[export] Instance cphase_eq_dec : EqDecision cphase.
Proof. solve_decision. Defined.

(** Where the loop of [Start] is; the connection it holds is not yet a
    goroutine. *)
Inductive acceptor :=
| AAccepting           (* in listener.Accept() *)
| AAccepted (c : conn) (* Accept has returned *)
| ASlot (c : conn)     (* s.connLimiter <- struct{}{} *)
| AAdded (c : conn)    (* s.wg.Add(1) *)
| AReturned.

#[export] Instance acceptor_eq_dec : EqDecision acceptor.
Proof. solve_decision. Defined.

Inductive stopping :=
| NotStopped
| StopWaiting     (* cancelled; the listener is closed next, and the group waited for *)
| StopDone        (* s.wg.Wait() has returned, done is closed *)
| StopAll         (* Stop has seen it *)
| StopTimeout.

#[export] Instance stopping_eq_dec : EqDecision stopping.
Proof. solve_decision. Defined.

Definition maxRequestSize : Z := 10 * 1024 * 1024.

Section Serve.
Context {P : Pebble} {B : Btcd} {T : BtcdTx} {Zs : Zstd}.

Record Server := mkServer {
  s_state : sworld;                (* database, overlay, subscriptions, cache *)
  s_connLimiter : nat;             (* the elements in the channel *)
  s_conns : gmap conn cphase;      (* the goroutines *)
  s_connCount : Z;
  s_activeConnCount : Z;
  s_cancelled : bool;
  s_listening : bool;
  s_acceptor : acceptor;
  s_stop : stopping;
  s_out : list (conn * gv);        (* what sendResponses sent *)
  s_crashed : bool;
}.

Definition NewServer (w : sworld) : Server := mkServer w 0 ∅ 0 0 false true AAccepting NotStopped [] false.

Inductive slabel :=
| SAccept (c : conn)               (* Accept returns a connection *)
| SAcceptError                     (* Accept fails *)
| SSelect                          (* the select on connLimiter *)
| SAdd                             (* s.wg.Add(1) *)
| SGo                              (* go s.handleConnection(conn) *)
| SBegin (c : conn)
| SLoop (c : conn)                 (* the select of serve *)
| SLine (c : conn) (line : bytes)  (* Scan returns true *)
| SScanEnd (c : conn)              (* Scan returns false: end, error, deadline, too long *)
| SRelease (c : conn)
| SUnsubscribe (c : conn)
| SCloseWriter (c : conn)
| SCloseConn (c : conn)
| SUncount (c : conn)
| SFinish (c : conn)
| SCancel                          (* Stop: s.cancel() *)
| SCloseListener
| SWaited                          (* s.wg.Wait() returns *)
| SAllDone                         (* Stop: <-done *)
| STimeout.                        (* Stop: <-time.After(10 * time.Second) *)

#[export] Instance slabel_eq_dec : EqDecision slabel.
Proof. solve_decision. Defined.

Section Steps.
Context (N : rpc_node B) (C : platform) (sorter : slice_sort) (ord : range_order).
Context (StringWidth : string -> Z) (config_StartHeight : Z) (MaxConnections : nat).

Definition with_phase (c : conn) (p : cphase) (s : Server) : Server :=
  mkServer (s_state s) (s_connLimiter s) (<[c := p]> (s_conns s)) (s_connCount s) (s_activeConnCount s)
    (s_cancelled s) (s_listening s) (s_acceptor s) (s_stop s) (s_out s) (s_crashed s).

(** Goroutine [c] goes from phase [p] to [q]. *)
Definition goes (c : conn) (p q : cphase) (s : Server) : option Server :=
  if decide (s_conns s !! c = Some p) then Some (with_phase c q s) else None.

(** Whether the goroutine has not called [wg.Done()]. *)
Definition waited_for (p : cphase) : bool := negb (bool_decide (p = CFinished)).

(** Whether the accept loop has called [wg.Add(1)] for a goroutine that it has
    not started yet. *)
Definition added (a : acceptor) : bool := match a with AAdded _ => true | _ => false end.

(** The counter of the wait group is zero. *)
Definition group_done (s : Server) : bool :=
  bool_decide (map_Forall (fun _ p => waited_for p = false) (s_conns s)) && negb (added (s_acceptor s)).

Definition count_active (d : Z) (s : Server) : Server :=
  mkServer (s_state s) (s_connLimiter s) (s_conns s) (s_connCount s) (i64 (s_activeConnCount s + d))
    (s_cancelled s) (s_listening s) (s_acceptor s) (s_stop s) (s_out s) (s_crashed s).

Definition with_acceptor (a : acceptor) (s : Server) : Server :=
  mkServer (s_state s) (s_connLimiter s) (s_conns s) (s_connCount s) (s_activeConnCount s)
    (s_cancelled s) (s_listening s) a (s_stop s) (s_out s) (s_crashed s).

(** The slot is taken, or the connection closed, without waiting. *)
Definition take_slot (c : conn) (s : Server) : Server :=
  if (s_connLimiter s <? MaxConnections)%nat
  then mkServer (s_state s) (S (s_connLimiter s)) (s_conns s) (s_connCount s) (s_activeConnCount s)
         (s_cancelled s) (s_listening s) (ASlot c) (s_stop s) (s_out s) (s_crashed s)
  else with_acceptor AAccepting s.

Definition begin_conn (s : Server) : Server :=
  mkServer (s_state s) (s_connLimiter s) (s_conns s) (i64 (s_connCount s + 1)) (i64 (s_activeConnCount s + 1))
    (s_cancelled s) (s_listening s) (s_acceptor s) (s_stop s) (s_out s) (s_crashed s).

Definition release_slot (s : Server) : Server :=
  mkServer (s_state s) (pred (s_connLimiter s)) (s_conns s) (s_connCount s) (s_activeConnCount s)
    (s_cancelled s) (s_listening s) (s_acceptor s) (s_stop s) (s_out s) (s_crashed s).

Definition with_state (w : sworld) (out : list (conn * gv)) (crashed : bool) (s : Server) : Server :=
  mkServer w (s_connLimiter s) (s_conns s) (s_connCount s) (s_activeConnCount s)
    (s_cancelled s) (s_listening s) (s_acceptor s) (s_stop s) (s_out s ++ out) crashed.

(** [processRequest] and [sendResponses] on a scanned line; a panic ends the
    process. *)
Definition handle_line (c : conn) (line : bytes) (s : Server) : Server :=
  match serve_line N C sorter ord StringWidth config_StartHeight c line (s_state s) with
  | (Ok (Some v), w) => with_state w [(c, v)] false s
  | (Ok None, w) => with_state w [] false s
  | (Err _, w) => with_state w [] true s
  end.

Definition unsubscribe (c : conn) (s : Server) : Server :=
  with_state (on_subs (Unsubscribe ord c) (s_state s)).2 [] false s.

Definition stop_step (cancelled listening : bool) (k : stopping) (s : Server) : Server :=
  mkServer (s_state s) (s_connLimiter s) (s_conns s) (s_connCount s) (s_activeConnCount s)
    cancelled listening (s_acceptor s) k (s_out s) (s_crashed s).

(** A line that [bufio.ScanLines] can give. *)
Definition scannable (line : bytes) : bool :=
  (Z.of_nat (length line) <? maxRequestSize) && bool_decide (x0a ∉ line).

Definition sstep (l : slabel) (s : Server) : option Server :=
  if s_crashed s then None else
  match l with
  | SAccept c =>
      match s_acceptor s with
      | AAccepting => if s_listening s && bool_decide (s_conns s !! c = None) then Some (with_acceptor (AAccepted c) s) else None
      | _ => None
      end
  | SAcceptError =>
      match s_acceptor s with
      | AAccepting => Some (with_acceptor (if s_cancelled s then AReturned else AAccepting) s)
      | _ => None
      end
  | SSelect => match s_acceptor s with AAccepted c => Some (take_slot c s) | _ => None end
  | SAdd => match s_acceptor s with ASlot c => Some (with_acceptor (AAdded c) s) | _ => None end
  | SGo =>
      match s_acceptor s with
      | AAdded c => Some (with_phase c CStarting (with_acceptor AAccepting s))
      | _ => None
      end
  | SBegin c => begin_conn <$> goes c CStarting CLooping s
  | SLoop c => goes c CLooping (if s_cancelled s then CEnding else CReading) s
  | SLine c line => if scannable line then handle_line c line <$> goes c CReading CLooping s else None
  | SScanEnd c => goes c CReading CEnding s
  | SRelease c => release_slot <$> goes c CEnding CReleased s
  | SUnsubscribe c => unsubscribe c <$> goes c CReleased CUnsubscribed s
  | SCloseWriter c => goes c CUnsubscribed CWriterClosed s
  | SCloseConn c => goes c CWriterClosed CConnClosed s
  | SUncount c => count_active (-1) <$> goes c CConnClosed CUncounted s
  | SFinish c => goes c CUncounted CFinished s
  | SCancel =>
      match s_stop s with
      | NotStopped => Some (stop_step true (s_listening s) StopWaiting s)
      | _ => None
      end
  | SCloseListener =>
      match s_stop s with
      | StopWaiting => Some (stop_step (s_cancelled s) false StopWaiting s)
      | _ => None
      end
  | SWaited =>
      match s_stop s with
      | StopWaiting =>
          if negb (s_listening s) && group_done s then Some (stop_step (s_cancelled s) false StopDone s) else None
      | _ => None
      end
  | SAllDone =>
      match s_stop s with
      | StopDone => Some (stop_step (s_cancelled s) (s_listening s) StopAll s)
      | _ => None
      end
  | STimeout =>
      match s_stop s with
      | StopWaiting | StopDone =>
          if negb (s_listening s) then Some (stop_step (s_cancelled s) false StopTimeout s) else None
      | _ => None
      end
  end.

Fixpoint srun (ls : list slabel) (s : Server) : option Server :=
  match ls with
  | [] => Some s
  | l :: ls => s ← sstep l s; srun ls s
  end.

End Steps.
End Serve.
