(* ===== verification/Config.v ===== *)
(** * Configuration and start-up: [internal/config/config.go] and
    [cmd/server/wire.go]

    The configuration as loaded from a file or from the defaults, overridden by
    the flags and validated; the credentials of the node; the height indexing
    starts from.  The operating system's answers and the TOML decoder are
    arguments.  [strconv.Quote] appears only in messages and is one too.  Log
    lines and the warnings printed to the terminal are left out. *)

From Stdlib Require Import Strings.Byte SpecFloat.
From S2P Require Import Prelude Bytes Hex GoFloat.

(** ** Strings *)

(** [strings.HasPrefix] *)
Definition HasPrefix (s pre : string) : bool := String.prefix pre s.

(** [strings.Join] *)
Definition Join (sep : string) (l : list string) : string := String.concat sep l.

(** [strings.IndexByte] and [strings.LastIndexByte]; [None] is -1. *)
Definition IndexByte (s : bytes) (c : byte) : option nat := fst <$> list_find (fun b => b = c) s.
Definition LastIndexByte (s : bytes) (c : byte) : option nat :=
  (fun i => (length s - S i)%nat) <$> IndexByte (reverse s) c.

(** The runes of [unicode.IsSpace] in UTF-8. *)
Definition space_runes : list bytes :=
  ((fun z => [byte_of_Z z]) <$> [9; 10; 11; 12; 13; 32]) ++
  ((fun z => [byte_of_Z 194; byte_of_Z z]) <$> [133; 160]) ++
  [[byte_of_Z 225; byte_of_Z 154; byte_of_Z 128]] ++
  ((fun z => [byte_of_Z 226; byte_of_Z 128; byte_of_Z z]) <$>
     [128; 129; 130; 131; 132; 133; 134; 135; 136; 137; 138; 168; 169; 175]) ++
  [[byte_of_Z 226; byte_of_Z 129; byte_of_Z 159]; [byte_of_Z 227; byte_of_Z 128; byte_of_Z 128]].

(** Cut the leading ones of [runes]; each round removes a byte at least. *)
Fixpoint trim_left (runes : list bytes) (n : nat) (s : bytes) : bytes :=
  match n with
  | O => s
  | S n =>
      match list_find (fun r => take (length r) s = r) runes with
      | Some (_, r) => trim_left runes n (drop (length r) s)
      | None => s
      end
  end.

(** [strings.TrimSpace]: no rune of [space_runes] is a suffix of a longer rune,
    so the end is trimmed as the start is. *)
Definition TrimSpace (s : bytes) : bytes :=
  let s := trim_left space_runes (length s) s in
  reverse (trim_left (reverse <$> space_runes) (length s) (reverse s)).

(** [strings.ToLower], as far as a comparison with ASCII words can tell: beside
    the letters A to Z, only U+0130 and U+212A become ASCII letters. *)
Fixpoint ToLower (s : bytes) : bytes :=
  match s with
  | [] => []
  | c :: s1 =>
      let z := Z_of_byte c in
      if (65 <=? z) && (z <=? 90) then byte_of_Z (z + 32) :: ToLower s1
      else
        match s1 with
        | [] => [c]
        | c2 :: s2 =>
            if (z =? 196) && (Z_of_byte c2 =? 176) then x69 :: ToLower s2
            else
              match s2 with
              | c3 :: s3 =>
                  if (z =? 226) && (Z_of_byte c2 =? 132) && (Z_of_byte c3 =? 170) then x6b :: ToLower s3
                  else c :: ToLower s1
              | [] => c :: ToLower s1
              end
        end
  end.

(** [filepath.Clean] and [filepath.Dir] on Unix. *)
Fixpoint split_path (s : bytes) (cur : bytes) : list bytes :=
  match s with
  | [] => [reverse cur]
  | c :: s => if decide (c = x2f) then reverse cur :: split_path s [] else split_path s (c :: cur)
  end.

(** [stack] holds the elements kept, the last one first. *)
Definition clean_step (rooted : bool) (stack : list bytes) (e : bytes) : list bytes :=
  if decide (e = [] \/ e = [x2e]) then stack
  else if decide (e = [x2e; x2e]) then
    match stack with
    | top :: rest => if decide (top = [x2e; x2e]) then e :: stack else rest
    | [] => if rooted then [] else [e]
    end
  else e :: stack.

Fixpoint join_path (l : list bytes) : bytes :=
  match l with
  | [] => []
  | [e] => e
  | e :: l => e ++ x2f :: join_path l
  end.

Definition Clean (path : bytes) : bytes :=
  let rooted := bool_decide (head path = Some x2f) in
  let out := join_path (reverse (foldl (clean_step rooted) [] (split_path path []))) in
  if rooted then x2f :: out else if decide (out = []) then [x2e] else out.

Definition Dir (path : string) : string :=
  let s := bytes_of_string path in
  let n := match LastIndexByte s x2f with Some i => S i | None => O end in
  string_of_bytes (Clean (take n s)).

(** [net.SplitHostPort]; the error is an [*AddrError]. *)
Definition addrErr {A} (addr why : string) : result A :=
  Err (ENew (if decide (addr = ""%string) then why else "address " +:+ addr +:+ ": " +:+ why)).

Definition SplitHostPort (hostport : string) : result (string * string) :=
  let s := bytes_of_string hostport in
  let missingPort := "missing port in address"%string in
  let tooManyColons := "too many colons in address"%string in
  match LastIndexByte s x3a with
  | None => addrErr hostport missingPort
  | Some i =>
      (* host, and the offsets j and k of the bracket checks *)
      '(host, j, k) ←
        (if decide (head s = Some x5b) then
           match IndexByte s x5d with
           | None => addrErr hostport "missing ']' in address"
           | Some end_ =>
               if (S end_ =? length s)%nat then addrErr hostport missingPort
               else if (S end_ =? i)%nat then Ok (drop 1 (take end_ s), 1%nat, S end_)
               else if decide (s !! S end_ = Some x3a) then addrErr hostport tooManyColons
               else addrErr hostport missingPort
           end
         else
           let host := take i s in
           match IndexByte host x3a with
           | Some _ => addrErr hostport tooManyColons
           | None => Ok (host, 0%nat, 0%nat)
           end);
      match IndexByte (drop j s) x5b, IndexByte (drop k s) x5d with
      | Some _, _ => addrErr hostport "unexpected '[' in address"
      | None, Some _ => addrErr hostport "unexpected ']' in address"
      | None, None => Ok (string_of_bytes host, string_of_bytes (drop (S i) s))
      end
  end.

(** ** [time.Duration] *)

Definition Second : Z := 1000000000.
Definition Minute : Z := 60 * Second.

(** [fmtFrac]: the fraction [v / 10^prec] without trailing zeros, and what is
    left of [v]; [print] once a digit other than 0 was seen. *)
Fixpoint fmtFrac (prec : nat) (print : bool) (v : Z) (w : bytes) : bytes * Z :=
  match prec with
  | O => (if print then x2e :: w else w, v)
  | S prec =>
      let d := v `mod` 10 in
      let print := print || negb (d =? 0) in
      fmtFrac prec print (v / 10) (if print then digit d :: w else w)
  end.

(** [Duration.String] *)
Definition Duration_String (d : Z) : string :=
  let u := Z.abs d in
  let frac prec unit := let '(w, v) := fmtFrac prec false u (bytes_of_string unit) in
                        itoa_bytes v ++ w in
  let text :=
    if u =? 0 then bytes_of_string "0s"
    else if u <? 1000 then frac 0%nat "ns"%string
    else if u <? 1000000 then frac 3%nat "µs"%string
    else if u <? Second then frac 6%nat "ms"%string
    else
      let '(w, v) := fmtFrac 9 false u (bytes_of_string "s") in
      let seconds := itoa_bytes (v `mod` 60) ++ w in
      let minutes := v / 60 in
      if minutes =? 0 then seconds
      else
        let rest := itoa_bytes (minutes `mod` 60) ++ x6d :: seconds in
        if minutes / 60 =? 0 then rest else itoa_bytes (minutes / 60) ++ x68 :: rest in
  string_of_bytes (if d <? 0 then x2d :: text else text).

(** ** The configuration *)

Record MetricsConfig := mkMetricsConfig { Metrics_Enabled : bool; Metrics_Listen : string }.

Record ServerConfig := mkServerConfig {
  Server_Listen : string;
  Server_MaxConnections : Z;
  Server_RequestTimeoutSeconds : Z;
  Server_RequestTimeout : Z;      (* a time.Duration *)
}.

Record BitcoinConfig := mkBitcoinConfig {
  Bitcoin_RPCHost : string;
  Bitcoin_RPCUser : string;
  Bitcoin_RPCPass : string;
  Bitcoin_RPCCookiePath : string;
  Bitcoin_ZMQBlockAddr : string;
  Bitcoin_ZMQTxAddr : string;
}.

Record StorageConfig := mkStorageConfig { Storage_DBPath : string; Storage_MaxReorgDepth : Z }.

Record IndexerConfig := mkIndexerConfig {
  Indexer_StartHeight : Z;
  Indexer_CheckpointInterval : Z;
  Indexer_UndoPruneInterval : Z;
}.

Record LoggingConfig := mkLoggingConfig { Logging_Level : string; Logging_LogRequests : bool }.

Record Config := mkConfig {
  cfg_Server : ServerConfig;
  cfg_Bitcoin : BitcoinConfig;
  cfg_Storage : StorageConfig;
  cfg_Indexer : IndexerConfig;
  cfg_Logging : LoggingConfig;
  cfg_Metrics : MetricsConfig;
}.

Definition DefaultConfig : Config :=
  mkConfig
    (mkServerConfig "127.0.0.1:50001" 100 30 (30 * Second))
    (mkBitcoinConfig "127.0.0.1:48332" "electrumgo" "" "" "tcp://127.0.0.1:28332" "tcp://127.0.0.1:28333")
    (mkStorageConfig "./data/index.db" 144)
    (mkIndexerConfig (-1) 100 1000)
    (mkLoggingConfig "info" false)
    (mkMetricsConfig false "127.0.0.1:9101").

Definition with_server (f : ServerConfig -> ServerConfig) (c : Config) : Config :=
  mkConfig (f (cfg_Server c)) (cfg_Bitcoin c) (cfg_Storage c) (cfg_Indexer c) (cfg_Logging c) (cfg_Metrics c).
Definition with_bitcoin (f : BitcoinConfig -> BitcoinConfig) (c : Config) : Config :=
  mkConfig (cfg_Server c) (f (cfg_Bitcoin c)) (cfg_Storage c) (cfg_Indexer c) (cfg_Logging c) (cfg_Metrics c).
Definition with_storage (f : StorageConfig -> StorageConfig) (c : Config) : Config :=
  mkConfig (cfg_Server c) (cfg_Bitcoin c) (f (cfg_Storage c)) (cfg_Indexer c) (cfg_Logging c) (cfg_Metrics c).
Definition with_indexer (f : IndexerConfig -> IndexerConfig) (c : Config) : Config :=
  mkConfig (cfg_Server c) (cfg_Bitcoin c) (cfg_Storage c) (f (cfg_Indexer c)) (cfg_Logging c) (cfg_Metrics c).

(** What the program asks of the operating system and of its TOML library. *)
Record environment := mkEnvironment {
  os_ReadFile : string -> result bytes;
  os_Stat : string -> result bool;          (* the file's IsDir() *)
  os_MkdirAll : string -> result unit;
  toml_Unmarshal : bytes -> Config -> result Config;
  strconv_Quote : string -> string;         (* the verb q *)
}.

Section Environment.
Context (E : environment).

(** [if b { errs = append(errs, msg) }] *)
Definition err_if (b : bool) (msg : string) : list string := if b then [msg] else [].

Definition is_empty (s : string) : bool := bool_decide (s = ""%string).

Definition server_errors (s : ServerConfig) : list string :=
  err_if (is_empty (Server_Listen s)) "server.listen is required" ++
  err_if (Server_MaxConnections s <=? 0) "server.max_connections must be positive" ++
  err_if (Server_RequestTimeoutSeconds s <=? 0) "server.request_timeout_seconds must be positive".

Definition auth_errors (b : BitcoinConfig) : list string :=
  let cookieSet := negb (is_empty (Bitcoin_RPCCookiePath b)) in
  let userPassSet := negb (is_empty (Bitcoin_RPCUser b)) && negb (is_empty (Bitcoin_RPCPass b)) in
  let quoted := strconv_Quote E (Bitcoin_RPCCookiePath b) in
  if cookieSet && negb (is_empty (Bitcoin_RPCPass b))
  then ["bitcoin: set either rpc_cookie_path or rpc_user/rpc_pass, not both"%string]
  else if negb cookieSet && negb userPassSet
  then ["bitcoin: either rpc_cookie_path or both rpc_user and rpc_pass must be set"%string]
  else if cookieSet then
    match os_Stat E (Bitcoin_RPCCookiePath b) with
    | Err err => ["bitcoin.rpc_cookie_path " +:+ quoted +:+ ": " +:+ Error err]
    | Ok IsDir => err_if IsDir ("bitcoin.rpc_cookie_path " +:+ quoted +:+ " is a directory")
    end
  else [].

Definition bitcoin_errors (b : BitcoinConfig) : list string :=
  err_if (is_empty (Bitcoin_RPCHost b)) "bitcoin.rpc_host is required" ++
  auth_errors b ++
  err_if (is_empty (Bitcoin_ZMQBlockAddr b)) "bitcoin.zmq_block_addr is required" ++
  err_if (negb (HasPrefix (Bitcoin_ZMQBlockAddr b) "tcp://")) "bitcoin.zmq_block_addr must start with tcp://" ++
  err_if (is_empty (Bitcoin_ZMQTxAddr b)) "bitcoin.zmq_tx_addr is required" ++
  err_if (negb (HasPrefix (Bitcoin_ZMQTxAddr b) "tcp://")) "bitcoin.zmq_tx_addr must start with tcp://".

Definition storage_errors (s : StorageConfig) : list string :=
  err_if (is_empty (Storage_DBPath s)) "storage.db_path is required" ++
  err_if (Storage_MaxReorgDepth s <=? 0) "storage.max_reorg_depth must be positive".

Definition indexer_errors (i : IndexerConfig) : list string :=
  err_if (Indexer_StartHeight i <? -1) "indexer.start_height must be >= -1" ++
  err_if (Indexer_CheckpointInterval i <=? 0) "indexer.checkpoint_interval must be positive" ++
  err_if (Indexer_UndoPruneInterval i <=? 0) "indexer.undo_prune_interval must be positive".

Definition validLevels : list string := ["debug"; "info"; "warn"; "error"]%string.

Definition valid_level (level : string) : bool :=
  bool_decide (string_of_bytes (ToLower (bytes_of_string level)) ∈ validLevels).

Definition logging_errors (l : LoggingConfig) : list string :=
  err_if (negb (valid_level (Logging_Level l))) "logging.level must be one of: debug, info, warn, error".

Definition metrics_errors (m : MetricsConfig) : list string :=
  if Metrics_Enabled m then
    if is_empty (Metrics_Listen m) then ["metrics.listen is required when metrics.enabled = true"%string]
    else
      match SplitHostPort (Metrics_Listen m) with
      | Err err => ["metrics.listen " +:+ strconv_Quote E (Metrics_Listen m) +:+ ": " +:+ Error err]
      | Ok _ => []
      end
  else [].

Definition config_errors (c : Config) : list string :=
  server_errors (cfg_Server c) ++ bitcoin_errors (cfg_Bitcoin c) ++ storage_errors (cfg_Storage c) ++
  indexer_errors (cfg_Indexer c) ++ logging_errors (cfg_Logging c) ++ metrics_errors (cfg_Metrics c).

Definition Validate (c : Config) : result unit :=
  match config_errors c with
  | [] => Ok ()
  | errs => Err (ENew (Join "; " errs))
  end.

(** [time.Duration(n) * time.Second] *)
Definition LoadFromFile (path : string) : result Config :=
  data ← wrap ("failed to read config file " +:+ path +:+ ": ") (os_ReadFile E path);
  cfg ← wrap ("failed to parse config file " +:+ path +:+ ": ") (toml_Unmarshal E data DefaultConfig);
  let cfg := with_server (fun s =>
    mkServerConfig (Server_Listen s) (Server_MaxConnections s) (Server_RequestTimeoutSeconds s)
      (i64 (Server_RequestTimeoutSeconds s * Second))) cfg in
  _ ← wrap "invalid configuration: " (Validate cfg);
  Ok cfg.

Definition ReadRPCCookie (path : string) : result (string * string) :=
  data ← wrap ("failed to read rpc cookie " +:+ path +:+ ": ") (os_ReadFile E path);
  let s := TrimSpace data in
  let malformed := Err (ENew ("rpc cookie " +:+ path +:+ ": malformed, expected user:pass")) in
  match IndexByte s x3a with
  | None => malformed
  | Some idx =>
      if (idx =? 0)%nat || (idx =? length s - 1)%nat then malformed
      else Ok (string_of_bytes (take idx s), string_of_bytes (drop (S idx) s))
  end.

Definition EnsureDBDirectory (c : Config) : result unit :=
  let dir := Dir (Storage_DBPath (cfg_Storage c)) in
  let dir := if is_empty dir || bool_decide (dir = "."%string) then Storage_DBPath (cfg_Storage c) else dir in
  wrap ("failed to create database directory " +:+ dir +:+ ": ") (os_MkdirAll E dir).

Definition fmt_bool (b : bool) : string := if b then "true" else "false".

Definition auth_line (b : BitcoinConfig) : string :=
  if is_empty (Bitcoin_RPCCookiePath b)
  then "    RPC User:         " +:+ Bitcoin_RPCUser b +:+ newline +:+
       "    RPC Pass:         " +:+ (if is_empty (Bitcoin_RPCPass b) then "(empty)" else "****")%string
  else "    RPC Auth:         cookie (" +:+ Bitcoin_RPCCookiePath b +:+ ")".

(** [Config.String] *)
Definition Config_String (c : Config) : string :=
  let field name value := ("    " +:+ name +:+ value +:+ newline)%string in
  "Configuration:" +:+ newline +:+
  "  Server:" +:+ newline +:+
  field "Listen:           " (Server_Listen (cfg_Server c)) +:+
  field "Max Connections:  " (fmt_d (Server_MaxConnections (cfg_Server c))) +:+
  field "Request Timeout:  " (Duration_String (Server_RequestTimeout (cfg_Server c))) +:+
  "  Bitcoin:" +:+ newline +:+
  field "RPC Host:         " (Bitcoin_RPCHost (cfg_Bitcoin c)) +:+
  auth_line (cfg_Bitcoin c) +:+ newline +:+
  field "ZMQ Block:        " (Bitcoin_ZMQBlockAddr (cfg_Bitcoin c)) +:+
  field "ZMQ Tx:           " (Bitcoin_ZMQTxAddr (cfg_Bitcoin c)) +:+
  "  Storage:" +:+ newline +:+
  field "DB Path:          " (Storage_DBPath (cfg_Storage c)) +:+
  field "Max Reorg Depth:  " (fmt_d (Storage_MaxReorgDepth (cfg_Storage c)) +:+ " blocks") +:+
  "  Indexer:" +:+ newline +:+
  field "Start Height:     " (fmt_d (Indexer_StartHeight (cfg_Indexer c))) +:+
  field "Checkpoint Every: " (fmt_d (Indexer_CheckpointInterval (cfg_Indexer c)) +:+ " blocks") +:+
  field "Prune Undo Every: " (fmt_d (Indexer_UndoPruneInterval (cfg_Indexer c)) +:+ " blocks") +:+
  "  Logging:" +:+ newline +:+
  field "Level:            " (Logging_Level (cfg_Logging c)) +:+
  field "Log Requests:     " (fmt_bool (Logging_LogRequests (cfg_Logging c))) +:+
  "  Metrics:" +:+ newline +:+
  "    /metrics:         " +:+
  (if Metrics_Enabled (cfg_Metrics c) then "enabled (" +:+ Metrics_Listen (cfg_Metrics c) +:+ ")"
   else "disabled")%string.

(** ** [wire.go] *)

Definition defaultPaths : list string :=
  ["config.toml"; "./config/config.toml"; "/etc/electrum-go/config.toml"]%string.

Definition loadConfig (configFile : string) : result Config :=
  if negb (is_empty configFile) then LoadFromFile configFile
  else
    match list_find (fun path => is_Ok (os_Stat E path) = true) defaultPaths with
    | Some (_, path) => LoadFromFile path
    | None => Ok DefaultConfig
    end.

(** The command line, [-9999] standing for no start height. *)
Record flags := mkFlags {
  fl_configFile : string; fl_listen : string; fl_rpcHost : string; fl_rpcUser : string;
  fl_rpcPass : string; fl_rpcCookie : string; fl_dbPath : string; fl_startHeight : Z;
}.

Definition or_else (flag old : string) : string := if is_empty flag then old else flag.

Definition override_auth (rpcUser rpcPass rpcCookie : string) (b : BitcoinConfig) : BitcoinConfig :=
  let b := if is_empty rpcCookie then b
           else mkBitcoinConfig (Bitcoin_RPCHost b) "" "" rpcCookie (Bitcoin_ZMQBlockAddr b) (Bitcoin_ZMQTxAddr b) in
  let b := if is_empty rpcUser then b
           else mkBitcoinConfig (Bitcoin_RPCHost b) rpcUser (Bitcoin_RPCPass b) ""
                  (Bitcoin_ZMQBlockAddr b) (Bitcoin_ZMQTxAddr b) in
  if is_empty rpcPass then b
  else mkBitcoinConfig (Bitcoin_RPCHost b) (Bitcoin_RPCUser b) rpcPass ""
         (Bitcoin_ZMQBlockAddr b) (Bitcoin_ZMQTxAddr b).

Definition applyOverrides (f : flags) (cfg : Config) : Config :=
  let cfg := with_server (fun s =>
    mkServerConfig (or_else (fl_listen f) (Server_Listen s)) (Server_MaxConnections s)
      (Server_RequestTimeoutSeconds s) (Server_RequestTimeout s)) cfg in
  let cfg := with_bitcoin (fun b =>
    mkBitcoinConfig (or_else (fl_rpcHost f) (Bitcoin_RPCHost b)) (Bitcoin_RPCUser b) (Bitcoin_RPCPass b)
      (Bitcoin_RPCCookiePath b) (Bitcoin_ZMQBlockAddr b) (Bitcoin_ZMQTxAddr b)) cfg in
  let cfg := with_bitcoin (override_auth (fl_rpcUser f) (fl_rpcPass f) (fl_rpcCookie f)) cfg in
  let cfg := with_storage (fun s =>
    mkStorageConfig (or_else (fl_dbPath f) (Storage_DBPath s)) (Storage_MaxReorgDepth s)) cfg in
  if fl_startHeight f =? -9999 then cfg
  else with_indexer (fun i =>
         mkIndexerConfig (fl_startHeight f) (Indexer_CheckpointInterval i) (Indexer_UndoPruneInterval i)) cfg.

(** The part of [main] that ends before the database is opened. *)
Definition configure (f : flags) : result Config :=
  cfg ← wrap "Failed to load configuration: " (loadConfig (fl_configFile f));
  let cfg := applyOverrides f cfg in
  _ ← wrap "Invalid configuration after applying flags: " (Validate cfg);
  Ok cfg.

(** The credentials of [connectToBitcoinCore]. *)
Definition credentials (cfg : Config) : result (string * string) :=
  let b := cfg_Bitcoin cfg in
  if is_empty (Bitcoin_RPCCookiePath b) then Ok (Bitcoin_RPCUser b, Bitcoin_RPCPass b)
  else ReadRPCCookie (Bitcoin_RPCCookiePath b).

(** [BlockchainInfo], as far as it is used. *)
Record BlockchainInfo := mkBlockchainInfo {
  info_Blocks : Z;
  info_VerificationProgress : float64;
  info_Pruned : bool;
  info_PruneHeight : Z;
}.

Definition ibdMinProgress : float64 := default (float_of_Z 0) (ParseFloat (bytes_of_string "0.9999")).

(** What [waitForIBD] selects on: the context, or a tick and the answer to its
    RPC. *)
Inductive ibd_event := IbdCancel | IbdTick (r : result BlockchainInfo).

Definition context_Canceled : error := ESentinel "context.Canceled" "context canceled".

Definition ibd_complete (info : BlockchainInfo) : bool :=
  SFleb ibdMinProgress (info_VerificationProgress info).

(** The loop, over the events that come; [None] is still waiting. *)
Fixpoint ibd_loop (events : list ibd_event) : option (result BlockchainInfo) :=
  match events with
  | [] => None
  | IbdCancel :: _ => Some (Err context_Canceled)
  | IbdTick (Err _) :: events => ibd_loop events
  | IbdTick (Ok updated) :: events => if ibd_complete updated then Some (Ok updated) else ibd_loop events
  end.

Definition waitForIBD (info : BlockchainInfo) (events : list ibd_event) : option (result BlockchainInfo) :=
  if ibd_complete info then Some (Ok info) else ibd_loop events.

Definition determineStartHeight (cfg : Config) (info : BlockchainInfo) : Z :=
  let start := Indexer_StartHeight (cfg_Indexer cfg) in
  if start =? -1 then i32 (info_Blocks info)
  else if start =? 0 then 0
  else if 0 <? start then i32 start
  else i32 (info_Blocks info).

(** [time.Duration(cfg.Indexer.UndoPruneInterval) * time.Minute], the period of
    the main loop's prune ticker. *)
Definition prune_period (cfg : Config) : Z := i64 (Indexer_UndoPruneInterval (cfg_Indexer cfg) * Minute).

End Environment.
