(* ===== verification/ConfigProps.v ===== *)
(** * Configuration: properties *)

From Stdlib Require Import Strings.Byte.
From S2P Require Import Prelude Bytes Hex GoFloat Config.

(** ** Validation *)

Lemma err_if_nil b msg : err_if b msg = [] <-> b = false.
Proof. by destruct b. Qed.

Lemma is_empty_true s : is_empty s = true <-> s = ""%string.
Proof. unfold is_empty. by rewrite bool_decide_eq_true. Qed.
Lemma is_empty_false s : is_empty s = false <-> s <> ""%string.
Proof. unfold is_empty. by rewrite bool_decide_eq_false. Qed.

#[local] Arguments is_empty : simpl never.

Section Environment.
Context (E : environment).

(** Exactly one way to authenticate, and a cookie file that is there. *)
Definition auth_ok (b : BitcoinConfig) : Prop :=
  (Bitcoin_RPCCookiePath b <> ""%string /\ Bitcoin_RPCPass b = ""%string /\
   os_Stat E (Bitcoin_RPCCookiePath b) = Ok false) \/
  (Bitcoin_RPCCookiePath b = ""%string /\ Bitcoin_RPCUser b <> ""%string /\ Bitcoin_RPCPass b <> ""%string).

Record config_ok (c : Config) : Prop := {
  ok_listen : Server_Listen (cfg_Server c) <> ""%string;
  ok_connections : 0 < Server_MaxConnections (cfg_Server c);
  ok_timeout : 0 < Server_RequestTimeoutSeconds (cfg_Server c);
  ok_host : Bitcoin_RPCHost (cfg_Bitcoin c) <> ""%string;
  ok_auth : auth_ok (cfg_Bitcoin c);
  ok_block_addr : HasPrefix (Bitcoin_ZMQBlockAddr (cfg_Bitcoin c)) "tcp://" = true;
  ok_tx_addr : HasPrefix (Bitcoin_ZMQTxAddr (cfg_Bitcoin c)) "tcp://" = true;
  ok_path : Storage_DBPath (cfg_Storage c) <> ""%string;
  ok_depth : 0 < Storage_MaxReorgDepth (cfg_Storage c);
  ok_start : -1 <= Indexer_StartHeight (cfg_Indexer c);
  ok_checkpoint : 0 < Indexer_CheckpointInterval (cfg_Indexer c);
  ok_prune : 0 < Indexer_UndoPruneInterval (cfg_Indexer c);
  ok_level : valid_level (Logging_Level (cfg_Logging c)) = true;
  ok_metrics : Metrics_Enabled (cfg_Metrics c) = true ->
    is_Ok (SplitHostPort (Metrics_Listen (cfg_Metrics c))) = true;
}.

Lemma auth_errors_nil b : auth_errors E b = [] <-> auth_ok b.
Proof.
  unfold auth_errors, auth_ok.
  destruct (is_empty (Bitcoin_RPCCookiePath b)) eqn:E1, (is_empty (Bitcoin_RPCPass b)) eqn:E2,
    (is_empty (Bitcoin_RPCUser b)) eqn:E3; cbn [negb andb];
    rewrite ?is_empty_true, ?is_empty_false in *;
    try (split; [done|intuition congruence]); try (split; [|done]; by auto).
  all: destruct (os_Stat E (Bitcoin_RPCCookiePath b)) as [[]|]; cbn; split; try done; intuition congruence.
Qed.

Lemma metrics_errors_nil m : metrics_errors E m = [] <->
  (Metrics_Enabled m = true -> is_Ok (SplitHostPort (Metrics_Listen m)) = true).
Proof.
  unfold metrics_errors. destruct (Metrics_Enabled m); [|naive_solver].
  destruct (is_empty (Metrics_Listen m)) eqn:E1.
  - apply is_empty_true in E1. rewrite E1. split; [done|]. intros H. by specialize (H eq_refl).
  - destruct (SplitHostPort _); cbn; naive_solver.
Qed.

Lemma prefix_nonempty s p : HasPrefix s p = true -> p <> ""%string -> s <> ""%string.
Proof. intros H Hp ->. by destruct p. Qed.

Lemma config_errors_nil c : config_errors E c = [] <-> config_ok c.
Proof.
  unfold config_errors, server_errors, bitcoin_errors, storage_errors, indexer_errors, logging_errors.
  rewrite !app_nil, !err_if_nil, auth_errors_nil, metrics_errors_nil, !negb_false_iff, !is_empty_false,
    !Z.leb_gt, !Z.ltb_ge.
  split; [intros; constructor; tauto|]. intros [].
  assert (tcp : "tcp://"%string <> ""%string) by done.
  repeat split; eauto using prefix_nonempty.
Qed.

Lemma Validate_Ok c : Validate E c = Ok () <-> config_ok c.
Proof. rewrite <- config_errors_nil. unfold Validate. by destruct (config_errors E c). Qed.

(** What the flags do to a configuration that is accepted. *)
Record flags_win (f : flags) (loaded cfg : Config) : Prop := {
  fw_listen : Server_Listen (cfg_Server cfg) = or_else (fl_listen f) (Server_Listen (cfg_Server loaded));
  fw_host : Bitcoin_RPCHost (cfg_Bitcoin cfg) = or_else (fl_rpcHost f) (Bitcoin_RPCHost (cfg_Bitcoin loaded));
  fw_path : Storage_DBPath (cfg_Storage cfg) = or_else (fl_dbPath f) (Storage_DBPath (cfg_Storage loaded));
  fw_start : Indexer_StartHeight (cfg_Indexer cfg) =
    if fl_startHeight f =? -9999 then Indexer_StartHeight (cfg_Indexer loaded) else fl_startHeight f;
  fw_user : fl_rpcUser f <> ""%string ->
    Bitcoin_RPCCookiePath (cfg_Bitcoin cfg) = ""%string /\
    credentials E cfg = Ok (fl_rpcUser f, Bitcoin_RPCPass (cfg_Bitcoin cfg));
  fw_pass : fl_rpcPass f <> ""%string ->
    Bitcoin_RPCCookiePath (cfg_Bitcoin cfg) = ""%string /\
    credentials E cfg = Ok (Bitcoin_RPCUser (cfg_Bitcoin cfg), fl_rpcPass f);
  fw_cookie : fl_rpcCookie f <> ""%string -> fl_rpcUser f = ""%string -> fl_rpcPass f = ""%string ->
    credentials E cfg = ReadRPCCookie E (fl_rpcCookie f);
  fw_half : fl_rpcCookie f <> ""%string -> (fl_rpcUser f = ""%string <-> fl_rpcPass f = ""%string);
  fw_conflict : fl_rpcCookie f <> ""%string -> fl_rpcUser f <> ""%string -> fl_rpcPass f <> ""%string ->
    credentials E cfg = Ok (fl_rpcUser f, fl_rpcPass f);
  fw_auth : fl_rpcUser f = ""%string -> fl_rpcPass f = ""%string -> fl_rpcCookie f = ""%string ->
    credentials E cfg = credentials E loaded;
  fw_server : Server_MaxConnections (cfg_Server cfg) = Server_MaxConnections (cfg_Server loaded) /\
    Server_RequestTimeout (cfg_Server cfg) = Server_RequestTimeout (cfg_Server loaded);
  fw_zmq : Bitcoin_ZMQBlockAddr (cfg_Bitcoin cfg) = Bitcoin_ZMQBlockAddr (cfg_Bitcoin loaded) /\
    Bitcoin_ZMQTxAddr (cfg_Bitcoin cfg) = Bitcoin_ZMQTxAddr (cfg_Bitcoin loaded);
  fw_intervals : Storage_MaxReorgDepth (cfg_Storage cfg) = Storage_MaxReorgDepth (cfg_Storage loaded) /\
    Indexer_CheckpointInterval (cfg_Indexer cfg) = Indexer_CheckpointInterval (cfg_Indexer loaded) /\
    Indexer_UndoPruneInterval (cfg_Indexer cfg) = Indexer_UndoPruneInterval (cfg_Indexer loaded);
  fw_others : cfg_Logging cfg = cfg_Logging loaded /\ cfg_Metrics cfg = cfg_Metrics loaded;
}.

Lemma is_empty_nil : is_empty "" = true.
Proof. reflexivity. Qed.

Lemma overrides_win f loaded : config_ok (applyOverrides f loaded) -> flags_win f loaded (applyOverrides f loaded).
Proof.
  intros Hok. destruct Hok as [_ _ _ _ Ha _ _ _ _ _ _ _ _ _]. revert Ha.
  destruct loaded as [[] [] [] [] ? ?], f as [? listen host user pass cookie path start].
  unfold applyOverrides, override_auth, auth_ok. cbn.
  assert (Hg : forall s, is_empty s = true /\ s = ""%string \/ is_empty s = false /\ s <> ""%string).
  { intros s. destruct (is_empty s) eqn:H; [left; by rewrite is_empty_true in H|right; by rewrite is_empty_false in H]. }
  destruct (Hg user) as [[-> Hu]|[-> Hu]], (Hg pass) as [[-> Hp]|[-> Hp]], (Hg cookie) as [[E0 Hc]|[E0 Hc]];
    rewrite ?E0; destruct (start =? -9999) eqn:Es; cbn; rewrite ?is_empty_nil, ?E0; intros Ha;
    (split; unfold credentials; cbn; rewrite ?Es, ?is_empty_nil, ?E0; intuition congruence).
Qed.

(** C30: the program goes past its configuration exactly when a file or the
    defaults load and the result, overridden by the flags, is valid: positive
    limits and intervals, one way to authenticate, addresses of the right form.
    What it goes on with satisfies all of that.  Each flag that is given holds: the
    listen address, the RPC host, the database path, the start height; the user and
    the password replace a cookie, and a cookie given alone is what is read.  Of
    the flags that conflict, a cookie with only one of user and password is
    refused, and a cookie with both is dropped without an error, whatever the
    comment in [main] says.  Every setting without a flag is that of the file. *)
Theorem startup_config_valid (f : flags) (cfg : Config) :
  configure E f = Ok cfg <->
  exists loaded, loadConfig E (fl_configFile f) = Ok loaded /\ cfg = applyOverrides f loaded /\ config_ok cfg /\
    flags_win f loaded cfg.
Proof.
  unfold configure. split.
  - destruct (loadConfig E _) as [loaded|] eqn:Hload; [|done]. cbn.
    destruct (Validate E _) as [[]|] eqn:Hv; [|done]. cbn. intros [= <-].
    exists loaded. apply Validate_Ok in Hv. split_and!; [done|done|done|]. by apply overrides_win.
  - intros (loaded & Hload & -> & Hok & _). rewrite Hload. cbn.
    apply Validate_Ok in Hok. by rewrite Hok.
Qed.
End Environment.

(** ** The cookie file *)

Lemma IndexByte_Some s c i : IndexByte s c = Some i <->
  s = take i s ++ c :: drop (S i) s /\ length (take i s) = i /\ c ∉ take i s.
Proof.
  unfold IndexByte. split.
  - destruct (list_find _ s) as [[j x]|] eqn:F; [|done]. cbn. intros [= ->].
    apply list_find_Some in F as (H1 & <- & H2). split_and!.
    + symmetry. by apply take_drop_middle.
    + apply length_take_le. apply lookup_lt_Some in H1. lia.
    + intros (k & Hk)%list_elem_of_lookup. apply lookup_take_Some in Hk as [Hk Hlt].
      by apply (H2 k x).
  - intros (H1 & H2 & H3). assert (Hl : s !! i = Some c).
    { rewrite H1. rewrite lookup_app_r by lia. by rewrite H2, Nat.sub_diag. }
    assert (list_find (fun b => b = c) s = Some (i, c)) as ->; [|done].
    apply list_find_Some. split_and!; [done|done|]. intros j y Hj Hlt ->. apply H3.
    apply list_elem_of_lookup. exists j. by rewrite lookup_take_lt.
Qed.

Lemma IndexByte_None s c : IndexByte s c = None <-> c ∉ s.
Proof.
  unfold IndexByte. rewrite fmap_None, list_find_None, Forall_forall. naive_solver.
Qed.

(** The credentials read from a cookie file are the two parts of its
    trimmed text at the first colon; they are read exactly when neither part
    is empty. *)
Theorem cookie_read_exactly (E : environment) (path user pass : string) :
  ReadRPCCookie E path = Ok (user, pass) <->
  exists data, os_ReadFile E path = Ok data /\
    TrimSpace data = bytes_of_string user ++ x3a :: bytes_of_string pass /\
    x3a ∉ bytes_of_string user /\ user <> ""%string /\ pass <> ""%string.
Proof.
  unfold ReadRPCCookie. destruct (os_ReadFile E path) as [data|]; [|by split; [|intros (? & ? & _)]].
  cbn. set (s := TrimSpace data). split.
  - destruct (IndexByte s x3a) as [i|] eqn:Hi; [|done].
    apply IndexByte_Some in Hi as (H1 & H2 & H3).
    destruct (Nat.eqb_spec i 0) as [|Hi0], (Nat.eqb_spec i (length s - 1)) as [|Hi1]; try done. cbn.
    intros [= <- <-]. exists data. rewrite !bytes_of_string_of_bytes. split_and!; [done..| |].
    + intros Hu. apply (f_equal bytes_of_string) in Hu. rewrite bytes_of_string_of_bytes in Hu.
      rewrite Hu in H2. by destruct i.
    + intros Hp. apply (f_equal bytes_of_string) in Hp. rewrite bytes_of_string_of_bytes in Hp.
      apply (f_equal length) in H1. rewrite Hp, length_app, H2 in H1. cbn in H1. lia.
  - intros (data' & [= <-] & Hs & Hc & Hu & Hp). fold s in Hs.
    set (u := bytes_of_string user) in *. set (p := bytes_of_string pass) in *.
    assert (Hu' : u <> []).
    { intros Hu'. apply Hu. rewrite <- (string_of_bytes_of_string user). fold u. by rewrite Hu'. }
    assert (Hp' : p <> []).
    { intros Hp'. apply Hp. rewrite <- (string_of_bytes_of_string pass). fold p. by rewrite Hp'. }
    assert (IndexByte s x3a = Some (length u)) as ->.
    { apply IndexByte_Some. rewrite Hs, take_app_length, cons_middle, app_assoc.
      rewrite drop_app_length' by (rewrite length_app; cbn; lia). by rewrite <- app_assoc. }
    assert (length s = S (length u + length p)) as ->
      by (rewrite Hs, length_app; cbn; lia).
    rewrite (proj2 (Nat.eqb_neq (length u) 0)) by (by destruct u).
    rewrite (proj2 (Nat.eqb_neq (length u) _)) by (destruct p; cbn; [done|lia]). cbn.
    rewrite Hs, take_app_length, cons_middle, app_assoc, drop_app_length' by (rewrite length_app; cbn; lia).
    unfold u, p. by rewrite !string_of_bytes_of_string.
Qed.

(** ** What the log shows *)

(** The configuration that is logged does not depend on the password, beyond
    whether there is one. *)
Lemma logged_config_hides_password (c : Config) (user pass pass' : string)
    (Hpass : pass <> ""%string) (Hpass' : pass' <> ""%string) :
  let with_pass p := with_bitcoin (fun b =>
    mkBitcoinConfig (Bitcoin_RPCHost b) user p (Bitcoin_RPCCookiePath b) (Bitcoin_ZMQBlockAddr b) (Bitcoin_ZMQTxAddr b)) c in
  Config_String (with_pass pass) = Config_String (with_pass pass').
Proof.
  apply is_empty_false in Hpass, Hpass'. cbn zeta. unfold Config_String, auth_line. cbn.
  by rewrite Hpass, Hpass'.
Qed.

(** ** Settings that are accepted and do not do what they say *)

Definition sample_env : environment :=
  mkEnvironment
    (fun path => if decide (path = "cookie"%string)
                 then Ok (bytes_of_string ("__cookie__:0123abcd" +:+ newline))
                 else Err (ENew "no such file"))
    (fun path => if decide (path = "cookie"%string) then Ok false else Err (ENew "no such file"))
    (fun _ => Ok ()) (fun _ c => Ok c) (fun s => s).

Definition sample_flags (cookie user pass : string) (start : Z) : flags :=
  mkFlags "" "" "" user pass cookie "" start.

Definition sample_config : Config :=
  applyOverrides (sample_flags "cookie" "" "" (-9999)) DefaultConfig.

Example sample_configured : configure sample_env (sample_flags "cookie" "" "" (-9999)) = Ok sample_config.
Proof. vm_compute. reflexivity. Qed.

(** The defaults alone are not valid: credentials have to be given. *)
Example defaults_refused : is_Ok (configure sample_env (sample_flags "" "" "" (-9999))) = false.
Proof. vm_compute. reflexivity. Qed.

Example host_port_v6 : SplitHostPort "[::1]:9101" = Ok ("::1", "9101")%string.
Proof. vm_compute. reflexivity. Qed.
Example host_port_missing : is_Ok (SplitHostPort "localhost") = false.
Proof. vm_compute. reflexivity. Qed.
Example db_dir : Dir "./data/index.db" = "data"%string /\ Dir "/var/lib//x/../db" = "/var/lib"%string /\
  Dir "index.db" = "."%string.
Proof. vm_compute. done. Qed.
Example durations : Duration_String (30 * Second) = "30s"%string /\
  Duration_String (90 * Second) = "1m30s"%string /\ Duration_String 1500000 = "1.5ms"%string.
Proof. vm_compute. done. Qed.

(** Both a cookie and a user with a password on the command line: the cookie is
    dropped without an error, although [main] validates again to catch this. *)
Lemma conflicting_flags_accepted :
  exists cfg, configure sample_env (sample_flags "cookie" "alice" "secret" (-9999)) = Ok cfg /\
    Bitcoin_RPCCookiePath (cfg_Bitcoin cfg) = ""%string.
Proof. eexists. vm_compute. done. Qed.

(** A start height past the [int32] range is accepted and becomes a negative
    one, so [main] sets none; the prune interval is counted in minutes and
    overflows into a negative period. *)
Lemma large_settings_accepted :
  (exists cfg, configure sample_env (sample_flags "cookie" "" "" (2 ^ 31)) = Ok cfg /\
     forall info, determineStartHeight cfg info < 0) /\
  (exists cfg, Validate sample_env cfg = Ok () /\ prune_period cfg < 0).
Proof.
  split.
  - eexists. split; [vm_compute; reflexivity|]. intros info. vm_compute. done.
  - exists (with_indexer (fun i => mkIndexerConfig (Indexer_StartHeight i) (Indexer_CheckpointInterval i) 153722868)
              sample_config). vm_compute. done.
Qed.

(** ** Witnesses *)

Lemma startup_config_valid_witness : config_ok sample_env sample_config.
Proof.
  destruct (proj1 (startup_config_valid sample_env (sample_flags "cookie" "" "" (-9999)) sample_config)
    sample_configured) as (loaded & _ & _ & H & _). exact H.
Defined.

Lemma cookie_read_exactly_witness : ReadRPCCookie sample_env "cookie" = Ok ("__cookie__", "0123abcd")%string.
Proof.
  apply (cookie_read_exactly sample_env "cookie" "__cookie__" "0123abcd").
  eexists. split; [reflexivity|]. split; [vm_compute; reflexivity|].
  split; [|split; discriminate]. apply (bool_decide_eq_true_1 _). vm_compute. reflexivity.
Defined.
