(* ===== verification/Live.v ===== *)
(** * The command: [cmd/server/main.go], [run.go], [mempool.go]

    How the program puts its parts together: start-up, and the main loop, which
    takes one event after the other from the ZMQ channels and the tickers and
    hands it to the writer, the chain manager or the server.  One event is one
    step here.  The writer runs the main loop's jobs while the loop waits for
    them; only prune jobs are queued, and are run by an event of their own or
    before the next job.  A job that panics ends the program, and one that has not
    returned keeps the loop waiting: neither is an error that the loop's code sees,
    and both end the step here.  Log lines and metrics are left out. *)

From Stdlib Require Import Strings.Byte.
From S2P Require Import Prelude Bytes Hex Keys Values Json Checkpoint Pebble Store Sha256 Types Mempool Block Reorg Query Server Chain Writer GoFloat Config Rpc.

(** [strings.Contains] *)
Fixpoint Contains (s substr : string) : bool :=
  String.prefix substr s ||
  match s with
  | EmptyString => false
  | String _ s => Contains s substr
  end.

Definition isReorgError (err : error) : bool :=
  let msg := Error err in
  Contains msg "reorg" || Contains msg "does not connect" || Contains msg "gap detected" ||
  Contains msg "rolled back".

(** A panic in another goroutine ends the program, without the deferred calls of
    [main]. *)
Definition goroutine_panic (e : error) : error := ESentinel "goroutine" (Error e).

(** [time.NewTicker] panics on a duration that is not positive. *)
Definition bad_interval : error := go_panic "non-positive interval for NewTicker".

Definition NewTicker {W} (d : Z) : st W unit := if 0 <? d then mret () else st_fail bad_interval.

(** The streams of [ZMQGapEvent]. *)
Inductive stream := StreamBlock | StreamTx.

Section Live.
Context {P : Pebble} {B : Btcd} {T : BtcdTx} {Zs : Zstd}.

(** A notification as it is sent, to the connections that subscribe. *)
Inductive notification :=
| NewBlock (to : gset conn) (height : Z) (headerHex : string)
| Status (to : gset conn) (scripthash : string) (status : option string).

(** The RPCs of [reconcileMempool]. *)
Record pool_node := mkPoolNode {
  pn_GetRawMempool : nat -> result (list bytes);
  pn_GetRawTransaction : nat -> bytes -> result MsgTx;
}.

Record mworld := mkMWorld {
  mw_writer : wworld;
  mw_prunes : nat;                  (* the prune jobs in the writer's queue *)
  mw_subs : SubscriptionManager;
  mw_cache : StatusCache;
  mw_sent : list notification;      (* the oldest first *)
  blocksProcessed : Z;
  txsIndexed : Z;
}.

Definition mw_world (w : mworld) : world := rw_world (cm_rw (ww_cm (mw_writer w))).

Section Loop.
Context (N : node) (M : pool_node) (sorter : slice_sort) (ord : range_order) (cfg : Config).
Context (clock : nat -> Z) (fuel : nat).

Let maxReorgDepth : Z := Storage_MaxReorgDepth (cfg_Storage cfg).

(** ** The parts *)

Definition on_writer {A} (c : st wworld A) : st mworld A := fun w =>
  let '(r, ww) := c (mw_writer w) in
  (r, mkMWorld ww (mw_prunes w) (mw_subs w) (mw_cache w) (mw_sent w) (blocksProcessed w) (txsIndexed w)).

Definition on_chain {A} (c : st cworld A) : st mworld A := on_writer (on_cm c).

(** The server works on the same database and overlay. *)
Definition on_server {A} (c : st sworld A) : st mworld A := fun w =>
  let cm := ww_cm (mw_writer w) in
  let '(r, s) := c (mkSWorld (mw_world w) (mw_subs w) (mw_cache w) 0) in
  let cm := mkCWorld (mkRWorld (sv_world s) (rw_calls (cm_rw cm))) (currentHeight cm) (currentHash cm)
              (startHeight cm) (pruneHeight cm) in
  (r, mkMWorld (mkWWorld cm (blocksIndexed (mw_writer w)) (mempoolTxsAdded (mw_writer w))
                  (lastBlockTime (mw_writer w)) (ww_jobs (mw_writer w)))
        (mw_prunes w) (sv_subs s) (sv_cache s) (mw_sent w) (blocksProcessed w) (txsIndexed w)).

Definition set_prunes (f : nat -> nat) : st mworld unit := st_modify (fun w =>
  mkMWorld (mw_writer w) (f (mw_prunes w)) (mw_subs w) (mw_cache w) (mw_sent w) (blocksProcessed w) (txsIndexed w)).

Definition send (n : notification) : st mworld unit := st_modify (fun w =>
  mkMWorld (mw_writer w) (mw_prunes w) (mw_subs w) (mw_cache w) (mw_sent w ++ [n]) (blocksProcessed w) (txsIndexed w)).

Definition count_block : st mworld unit := st_modify (fun w =>
  mkMWorld (mw_writer w) (mw_prunes w) (mw_subs w) (mw_cache w) (mw_sent w) (i64 (blocksProcessed w + 1)) (txsIndexed w)).

Definition count_tx : st mworld unit := st_modify (fun w =>
  mkMWorld (mw_writer w) (mw_prunes w) (mw_subs w) (mw_cache w) (mw_sent w) (blocksProcessed w) (i64 (txsIndexed w + 1))).

(** ** The writer's calls, as the main loop makes them *)

Definition writer_job (job : writeJob) : st mworld writeResult := on_writer (fun w =>
  let '(r, w) := run_job N ord maxReorgDepth clock fuel job w in
  (match r with
   | JobReturns r => Ok r
   | JobPanics e => Err (goroutine_panic e)
   | JobRuns => Err out_of_fuel
   end, w)).

(** The worker takes the queued prune jobs first. *)
Fixpoint run_prunes (n : nat) : st mworld unit :=
  match n with
  | O => mret ()
  | S n => _ ← writer_job prune_job; run_prunes n
  end.

Definition flush_prunes : st mworld unit :=
  n ← st_gets mw_prunes;
  _ ← run_prunes n;
  set_prunes (fun _ => O).

Definition writer_result (r : writeResult) : result (Z * list string) :=
  match wr_err r with
  | Some e => Err e
  | None => Ok (wr_height r, wr_affectedScripthashes r)
  end.

(** The error the call returns is part of the result. *)
Definition writer_IndexBlock (block : MsgBlock) : st mworld (result (Z * list string)) :=
  _ ← flush_prunes;
  r ← writer_job (IndexBlock_job (Some block) 0);
  mret (writer_result r).

Definition writer_IndexMempoolTx (tx : MsgTx) : st mworld (result (list string)) :=
  _ ← flush_prunes;
  r ← writer_job (IndexMempoolTx_job (Some tx) 0);
  mret (snd <$> writer_result r).

Definition TriggerPrune : st mworld unit :=
  set_prunes (fun n => if (n <? jobs_cap)%nat then S n else n).

(** ** The server's calls *)

Definition server_NotifyNewBlock (height : Z) (headerHex : string) : st mworld unit :=
  subs ← st_gets mw_subs;
  let '(to, (height, headerHex)) := NotifyNewBlock height headerHex subs in
  send (NewBlock to height headerHex).

Definition notify_status (shHex : string) : st mworld unit :=
  r ← st_try (on_server (NotifyScripthashStatusHex sorter ord shHex));
  match r with
  | Err _ => mret ()
  | Ok (to, (sh, status)) => send (Status to sh status)
  end.

(** [if len(affected) > 0 { ... }] *)
Definition notify_affected (affected : list string) : st mworld unit :=
  match affected with
  | [] => mret ()
  | _ =>
      _ ← on_server (MarkScripthashDirtyMany affected);
      st_foldM (fun _ shHex => notify_status shHex) () affected
  end.

(** ** [reconcileMempool] *)

(** One round of the backfill; the result is [affectedSet]. *)
Definition backfill_tx (affectedSet : gset string) (h : bytes) : st mworld (gset string) :=
  let txidHex := hash_String h in
  m ← st_gets (fun w => w_mp (mw_world w));
  if HasTx txidHex m then mret affectedSet
  else
    match NewHashFromStr txidHex with
    | Err _ => mret affectedSet
    | Ok hash =>
        rawTx ← st_try (on_chain (rpc (fun n => pn_GetRawTransaction M n hash)));
        match rawTx with
        | Err _ => mret affectedSet
        | Ok rawTx =>
            aff ← writer_IndexMempoolTx rawTx;
            mret match aff with
                 | Err _ => affectedSet
                 | Ok aff => list_to_set aff ∪ affectedSet
                 end
        end
    end.

Definition reconcileMempool : st mworld (result (list string)) :=
  r ← st_try (on_chain (rpc (pn_GetRawMempool M)));
  match r with
  | Err e => mret (Err e)
  | Ok txids =>
      let valid : gset string := list_to_set (hash_String <$> txids) in
      r ← st_try (on_chain (on_rw (rmp (ReconcileWith ord valid))));
      match r with
      | Err e => mret (Err e)
      | Ok (_, affected) =>
          affectedSet ← st_foldM backfill_tx (list_to_set affected) txids;
          mret (Ok (range_set ord 9 affectedSet))
      end
  end.

(** ** The main loop *)

Inductive event :=
| EvDone                              (* ctx.Done() *)
| EvBlock (block : option MsgBlock)   (* None: the channel is closed *)
| EvTx (tx : option MsgTx)
| EvGap (gap : option stream)
| EvPruneTick
| EvReorgTick
| EvReconTick
| EvStatsTick
| EvWorker.                           (* the worker runs a queued prune job *)

(** [None]: the loop goes on; [Some]: it returns. *)
Definition outcome : Type := option (option error).
Definition continue : outcome := None.
Definition return_nil : outcome := Some None.

(** [err := chainManager.CatchUpToTip()], and what is done with it: only a
    pruned gap ends the loop. *)
Definition catch_up : st mworld outcome :=
  r ← st_try (on_chain (CatchUpToTip N ord maxReorgDepth fuel));
  match r with
  | Err e => if is_panic e || unreturned e then st_fail e
             else if errors_Is e "ErrPrunedGap" then mret (Some (Some e)) else mret continue
  | Ok _ => mret continue
  end.

Definition on_block (block : MsgBlock) : st mworld outcome :=
  r ← writer_IndexBlock block;
  match r with
  | Err e => if isReorgError e then catch_up else mret continue
  | Ok (height, affected) =>
      _ ← count_block;
      match header_Serialize (block_Header block) with
      | Err _ => mret continue
      | Ok header =>
          _ ← server_NotifyNewBlock height (EncodeToString header);
          _ ← notify_affected affected;
          n ← st_gets blocksProcessed;
          _ ← (if Z.rem n (Indexer_UndoPruneInterval (cfg_Indexer cfg)) =? 0 then TriggerPrune else mret ());
          mret continue
      end
  end.

Definition on_tx (tx : MsgTx) : st mworld outcome :=
  r ← writer_IndexMempoolTx tx;
  match r with
  | Err _ => mret continue
  | Ok affected => _ ← count_tx; _ ← notify_affected affected; mret continue
  end.

(** After a gap in the transactions the affected scripthashes are dropped. *)
Definition on_gap (gap : stream) : st mworld outcome :=
  match gap with
  | StreamBlock => catch_up
  | StreamTx => _ ← reconcileMempool; mret continue
  end.

Definition on_reorg_tick : st mworld outcome :=
  r ← st_try (on_chain (GetBlockCount N));
  match r with
  | Err _ => mret continue
  | Ok blockCount =>
      height ← on_chain GetCurrentHeight;
      if height <? i32 blockCount then catch_up else mret continue
  end.

Definition on_recon_tick : st mworld outcome :=
  r ← reconcileMempool;
  match r with
  | Err _ => mret continue
  | Ok affected => _ ← notify_affected affected; mret continue
  end.

Definition run_queued_prune : st mworld outcome :=
  n ← st_gets mw_prunes;
  match n with
  | O => mret continue
  | S n => _ ← set_prunes (fun _ => n); _ ← writer_job prune_job; mret continue
  end.

Definition main_event (e : event) : st mworld outcome :=
  match e with
  | EvDone | EvBlock None | EvTx None | EvGap None => mret return_nil
  | EvBlock (Some block) => on_block block
  | EvTx (Some tx) => on_tx tx
  | EvGap (Some gap) => on_gap gap
  | EvPruneTick => _ ← TriggerPrune; mret continue
  | EvReorgTick => on_reorg_tick
  | EvReconTick => on_recon_tick
  | EvStatsTick => mret continue
  | EvWorker => run_queued_prune
  end.

(** The loop of [runMainLoop] over the events that come. *)
Fixpoint main_loop (events : list event) : st mworld outcome :=
  match events with
  | [] => mret continue
  | e :: events =>
      r ← main_event e;
      match r with
      | None => main_loop events
      | Some _ => mret r
      end
  end.

(** The tickers of the pruning, the statistics, the tip check and the
    reconciliation. *)
Definition runMainLoop (events : list event) : st mworld outcome :=
  _ ← NewTicker (prune_period cfg);
  _ ← NewTicker Minute;
  _ ← NewTicker (30 * Second);
  _ ← NewTicker (5 * Minute);
  main_loop events.

(** ** Start-up: [main] from the overlay on *)

Definition start_chain (info : BlockchainInfo) : st cworld unit :=
  _ ← st_try (on_rw (rmp LoadFromDatabase));
  _ ← st_wrap "Failed to initialize chain manager: " (Initialize N maxReorgDepth);
  _ ← (if info_Pruned info && (0 <? info_PruneHeight info) then SetPruneHeight (i32 (info_PruneHeight info))
       else mret ());
  '(checkpoint, _) ← on_db LoadCheckpoint;
  if decide (cp_Height checkpoint = 0 /\ cp_BlockHash checkpoint = ""%string)
  then
    let startFrom := determineStartHeight cfg info in
    if 0 <? startFrom
    then st_wrap "Failed to set start height: " (SetStartHeight N startFrom)
    else mret ()
  else mret ().

(** [Ok false]: halted for the operator. *)
Definition startup (info : BlockchainInfo) : st mworld bool :=
  _ ← on_chain (start_chain info);
  _ ← reconcileMempool;
  r ← st_try (on_chain (CatchUpToTip N ord maxReorgDepth fuel));
  match r with
  | Ok _ => mret true
  | Err e => if errors_Is e "ErrPrunedGap" then mret false
             else st_fail (EWrap "Catch-up failed: " e "")
  end.

End Loop.

(** The state [main] starts from. *)
Definition main_world (db : pdb) : mworld :=
  mkMWorld (mkWWorld (NewChainManager (mkRWorld (mkWorld db (NewMempoolOverlay true)) 0)) 0 0 None 0) 0
    NewSubscriptionManager NewStatusCache [] 0 0.

End Live.
