(* ===== verification/LiveFacts.v ===== *)
(** * What changes the status of a scripthash

    The status as a function of the database's contents and the overlay, the
    data it depends on, and what each of the program's operations does to that
    data. *)

From Stdlib Require Import Strings.Byte.
From S2P Require Import Prelude Bytes Hex Keys Values Json Checkpoint Pebble Store Sha256 Types Mempool MempoolFacts MempoolProps Block BlockFacts BlockOps BlockProps Reorg ReorgFacts ReorgProps ChainFacts Query QueryFacts QueryProps Server ServerProps Typed Total Steps Chain Follow Gaps Writer WriterProps GoFloat Rpc RpcProps Config Live.

(** ** The data a status depends on *)

(** Two databases agree on the keys that start with [p]. *)
Definition agree_on (p : bytes) (c c' : gmap bytes bytes) : Prop :=
  forall k, p `prefix_of` k -> c' !! k = c !! k.

Lemma StronglySorted_filter {A} (R : A -> A -> Prop) (Q : A -> Prop) `{!forall x, Decision (Q x)} l :
  StronglySorted R l -> StronglySorted R (filter Q l).
Proof.
  induction 1 as [|x l _ IH Hx]; [constructor|]. rewrite filter_cons. case_decide; [|done].
  constructor; [done|]. rewrite Forall_forall in *. intros y [_ Hy]%list_elem_of_filter. by apply Hx.
Qed.

(** The entries with the prefix itself; a scan may also visit shorter keys. *)
Definition with_prefix (p : bytes) (l : list (bytes * bytes)) : list (bytes * bytes) :=
  filter (fun kv => p `prefix_of` kv.1) l.

Lemma with_prefix_agree p c c' : agree_on p c c' ->
  with_prefix p (entries_in p (PrefixUpperBound p) c') = with_prefix p (entries_in p (PrefixUpperBound p) c).
Proof.
  intros Ha. unfold with_prefix.
  assert (Hin : forall kv, kv ∈ filter (fun kv => p `prefix_of` kv.1) (entries_in p (PrefixUpperBound p) c') <->
    kv ∈ filter (fun kv => p `prefix_of` kv.1) (entries_in p (PrefixUpperBound p) c)).
  { intros [k v]. rewrite !list_elem_of_filter, !entries_in_spec. cbn [fst].
    split; intros (Hp & H1 & H2); [rewrite <- Ha|rewrite Ha]; done. }
  apply (StronglySorted_unique_strong entry_le); [|apply StronglySorted_filter, entries_in_sorted..|].
  - intros [k v] [k' v'] H1 H2 L1 L2. apply Hin in H1.
    assert (k = k') as <-.
    { unfold entry_le, bytes_le in L1, L2. cbn in *. apply bytes_compare_eq.
      rewrite (bytes_compare_antisym k k') in L2. by destruct (bytes_compare k k'). }
    apply list_elem_of_filter in H1 as (_ & H1), H2 as (_ & H2).
    apply entries_in_spec in H1 as [H1 _], H2 as [H2 _]. congruence.
  - apply NoDup_Permutation; [apply NoDup_filter; eapply NoDup_fmap_1, entries_in_NoDup..|done].
Qed.

Section Status.
Context {P : Pebble} {PL : PebbleLaws P} {PH : PebbleHealthy P PL} {B : Btcd} {BL : BtcdLaws B} {Zs : Zstd}.

Definition history_prefix (sh : bytes) : bytes := PrefixHistory :: sh.
Definition txids_key (h : Z) : bytes := PrefixBlockTx :: be_encode 4 (u32 h).

(** The history keys of [sh], and the txids of the blocks they name. *)
Definition same_confirmed (sh : bytes) (c c' : gmap bytes bytes) : Prop :=
  agree_on (history_prefix sh) c c' /\
  forall h i x, in_i32 h -> in_u32 i -> in_u32 x -> is_Some (c !! hkey sh h i x) ->
    c' !! txids_key h = c !! txids_key h.

(** Keys that are too short are skipped. *)
Lemma history_items_prefix sh c : length sh = 32%nat -> history_items c sh =
  omap (history_key_item c) (with_prefix (history_prefix sh)
    (entries_in (history_prefix sh) (PrefixUpperBound (history_prefix sh)) c)).
Proof.
  intros Hl. unfold history_items. change (PrefixHistory :: sh) with (history_prefix sh).
  assert (He : forall kv, kv ∈ entries_in (history_prefix sh) (PrefixUpperBound (history_prefix sh)) c ->
    ~ history_prefix sh `prefix_of` kv.1 -> history_key_item c kv = None).
  { intros [k v] [_ Hb]%entries_in_spec Hn. unfold history_key_item. cbn [fst] in *.
    destruct (ParseHistoryKey k) as [[[[sh' h] i] x]|] eqn:Ep; [|done]. destruct Hn.
    assert (sh' = sh) as -> by (by eapply history_bounds_inv).
    apply ParseHistoryKey_Ok in Ep as (_ & _ & _ & _ & ->). by eexists. }
  unfold with_prefix. revert He.
  generalize (entries_in (history_prefix sh) (PrefixUpperBound (history_prefix sh)) c) as l.
  induction l as [|kv l IH]; intros He; [done|]. rewrite filter_cons. cbn [omap list_omap].
  rewrite IH by set_solver. case_decide; [done|]. by rewrite He by (done || set_solver).
Qed.

Lemma history_items_same sh c c' : length sh = 32%nat -> same_confirmed sh c c' ->
  history_items c' sh = history_items c sh.
Proof.
  intros Hl [Ha Ht]. rewrite !(history_items_prefix sh) by done. rewrite (with_prefix_agree _ c c') by done.
  assert (He : forall kv, kv ∈ with_prefix (history_prefix sh)
      (entries_in (history_prefix sh) (PrefixUpperBound (history_prefix sh)) c) ->
    history_key_item c' kv = history_key_item c kv).
  { intros [k v] [Hp [Hk Hb]%entries_in_spec]%list_elem_of_filter. unfold history_key_item. cbn [fst].
    destruct (ParseHistoryKey k) as [[[[sh' h] i] x]|] eqn:Ep; [|done].
    assert (sh' = sh) as -> by (by eapply history_bounds_inv).
    apply ParseHistoryKey_Ok in Ep as (_ & Hh & Hi & Hx & ->).
    unfold history_tx, block_txids_at. unfold txids_key in Ht. rewrite (Ht h i x); [done..|]. by eexists. }
  revert He. generalize (with_prefix (history_prefix sh)
    (entries_in (history_prefix sh) (PrefixUpperBound (history_prefix sh)) c)) as l.
  induction l as [|kv l IH]; intros He; [done|]. cbn [omap list_omap].
  rewrite He by set_solver. rewrite IH by set_solver. done.
Qed.

Definition status_now (sorter : slice_sort) (ord : range_order) (w : world) (sh : bytes) : string :=
  status_of (history_of sorter ord (w_mp w) (contents (w_db w)) sh).

(** All that a status depends on is as it was. *)
Definition same_status_data (sh : bytes) (w w' : world) : Prop :=
  same_confirmed sh (contents (w_db w)) (contents (w_db w')) /\
  byScripthash (w_mp w') !! EncodeToString sh = byScripthash (w_mp w) !! EncodeToString sh.

Lemma status_same sorter ord sh w w' : length sh = 32%nat -> same_status_data sh w w' ->
  status_now sorter ord w' sh = status_now sorter ord w sh.
Proof.
  intros Hl [Hc Hm]. unfold status_now, history_of. rewrite (history_items_same sh _ _ Hl Hc).
  unfold overlay_items, GetScripthashTransactions. by rewrite Hm.
Qed.

Lemma status_now_reads sorter ord w sh : healthy (w_db w) -> length sh = 32%nat ->
  reads (ComputeScripthashStatus sorter ord (w_mp w) sh) (w_db w) (status_now sorter ord w sh).
Proof.
  intros Hd Hl. destruct (history_run sorter ord (w_mp w) sh (w_db w) Hd Hl) as (d' & E & Hd' & Hc).
  exists d'. split; [|done]. unfold ComputeScripthashStatus. rewrite (st_bind_run _ _ _ _ _ E).
  unfold status_now, status_of. by destruct (history_of _ _ _ _ _).
Qed.

Lemma same_confirmed_refl sh c : same_confirmed sh c c.
Proof. by split. Qed.

(** Nothing under the two prefixes changes. *)
Lemma same_confirmed_frame sh c c' :
  (forall k, head k = Some PrefixHistory \/ head k = Some PrefixBlockTx -> c' !! k = c !! k) ->
  same_confirmed sh c c'.
Proof.
  intros H. split; [|intros; apply H; by right]. intros k [r ->]. apply H. by left.
Qed.

Lemma same_data_refl sh w : same_status_data sh w w.
Proof. split; [apply same_confirmed_refl|done]. Qed.

Lemma same_data_trans sh w1 w2 w3 : same_status_data sh w1 w2 -> same_status_data sh w2 w3 ->
  same_status_data sh w1 w3.
Proof.
  intros [[A1 A2] A3] [[B1 B2] B3]. split; [split|by rewrite B3].
  - intros k Hk. by rewrite B1, A1.
  - intros h i x Hh Hi Hx Hs. rewrite <- (A2 h i x) by done. apply (B2 h i x); [done..|].
    rewrite A1; [done|]. by eexists.
Qed.

Lemma same_data_overlay sh w w' : confirmed_same (contents (w_db w)) (contents (w_db w')) ->
  byScripthash (w_mp w') !! EncodeToString sh = byScripthash (w_mp w) !! EncodeToString sh ->
  same_status_data sh w w'.
Proof.
  intros Hc Hm. split; [|done]. apply same_confirmed_frame. intros k Hk. apply Hc.
  unfold confirmed_key. destruct Hk as [-> | ->]; done.
Qed.

End Status.

(** ** Indexing a block *)

Section IndexBlock.
Context {P : Pebble} {PL : PebbleLaws P} {B : Btcd} {BL : BtcdLaws B} {Zs : Zstd}.

(** A block changes no history but those of the scripthashes it affects. *)
Lemma block_same_confirmed c c' block h undo hss sh : indexed_block c c' block h undo hss ->
  in_i32 h -> (forall s y z, length s = 32%nat -> c !! hkey s h y z = None) ->
  length sh = 32%nat -> ~ block_affects c (block_Transactions block) sh -> same_confirmed sh c c'.
Proof.
  intros (ops & Bb & Hc) Hh Hfresh Hsh Hn.
  destruct (block_batch_parts _ _ _ _ _ _ Bb)
    as (header & buf & raws & z & d & cp & _ & _ & _ & _ & _ & _ & _ & _ & Hops).
  split.
  - intros k [r ->]. eapply block_key; [done|done|by apply Hc| |by left].
    intros o Ho E. exfalso. destruct Ho as [| | | | |e He| | | | | |]; try discriminate E.
    apply elem_mjoin in He as (n & hs & Hhs & He).
    destruct (Forall2_lookup_r _ _ _ _ _ (bb_hist _ _ _ _ _ _ Bb) Hhs) as ([n' tx] & Htx & (Hall & _ & Ht)).
    rewrite Forall_forall in Hall. destruct (Hall e He) as (_ & _ & Hl & _).
    rewrite lookup_indexed in Htx. destruct (block_Transactions block !! n) as [tx'|] eqn:Et; [|done].
    injection Htx as <- <-. cbn in E. injection E as E. apply app_inj_1 in E as [<- _]; [|lia].
    apply Hn. eapply touched_affects; [done|]. apply Ht. by apply list_elem_of_fmap_2.
  - intros h' i x Hh' Hi Hx [v Hv]. eapply block_key; [done|done|by apply Hc| |by left].
    intros o Ho E. exfalso. destruct Ho; try discriminate E. apply cons_inj in E as [_ E].
    apply be32_inj in E; [|apply u32_range..]. apply u32_inj in E; [|done..]. subst h'.
    by rewrite Hfresh in Hv.
Qed.

(** *** The overlay *)

Lemma unindex_other h bs ks k : k ∉ ks -> foldl (unindex_scripthash h) bs ks !! k = bs !! k.
Proof.
  revert bs; induction ks as [|k' ks IH]; intros bs Hk; [done|]. cbn [foldl].
  rewrite IH by set_solver. unfold unindex_scripthash.
  destruct (bs !! k') as [s|] eqn:E; [|done]. assert (k' <> k) by set_solver.
  case_decide; [by rewrite lookup_delete_ne|by rewrite lookup_insert_ne].
Qed.

Lemma index_other h bs ks k : k ∉ ks -> foldl (index_scripthash h) bs ks !! k = bs !! k.
Proof.
  revert bs; induction ks as [|k' ks IH]; intros bs Hk; [done|]. cbn [foldl].
  rewrite IH by set_solver. unfold index_scripthash. by rewrite lookup_insert_ne by set_solver.
Qed.

(** Only transactions in [H] are removed; the index of [k] changes only with
    one that is filed under [k]. *)
Definition drops (H : string -> Prop) (k : string) (w w' : world) : Prop :=
  (forall h t, transactions (w_mp w') !! h = Some t -> transactions (w_mp w) !! h = Some t) /\
  ((forall h t, H h -> transactions (w_mp w) !! h = Some t -> k ∉ EncodeToString <$> mt_Scripthashes t) ->
   byScripthash (w_mp w') !! k = byScripthash (w_mp w) !! k).

#[export] Instance drops_preorder H k : PreOrder (drops H k).
Proof.
  split; [by split|]. intros a b c [H1 H2] [E1 E2]. split; [auto|]. intros Hk.
  rewrite E2; [by apply H2|]. intros h t Hh Ht. by eapply Hk; [|apply H1].
Qed.

Lemma drops_same H k {A} (m : st world A) : st_rel world_same m -> st_rel (drops H k) m.
Proof. intros Hm w. destruct (Hm w) as [E _]. by split; rewrite E. Qed.

Lemma drops_in_db H k {A} (m : st pdb A) : st_rel db_same m -> st_rel (drops H k) (in_db m).
Proof. intros Hm. by apply drops_same, rel_in_db. Qed.

Lemma drops_RemoveOutput H k t v : st_rel (drops H k) (RemoveOutput t v).
Proof. intros w. by split. Qed.

Lemma drops_RemoveTransaction (H : string -> Prop) k ord txid : H (TxidToHex txid) ->
  st_rel (drops H k) (RemoveTransaction ord txid).
Proof.
  intros Hh w. unfold RemoveTransaction.
  destruct (remove_run ord 0 (TxidToHex txid) w) as (l & w' & -> & Hm & _). cbn [snd].
  split; rewrite Hm.
  - intros h t. rewrite forget_lookup. by case_decide.
  - intros Hk. unfold forget. destruct (transactions (w_mp w) !! TxidToHex txid) as [t|] eqn:E; [|done].
    cbn [forget_transaction byScripthash]. apply unindex_other. by eapply Hk.
Qed.

Lemma st_rel_foldM_elem {W A C} (R : relation W) `{!PreOrder R} (f : C -> A -> st W C) l b :
  (forall b x, x ∈ l -> st_rel R (f b x)) -> st_rel R (st_foldM f b l).
Proof.
  revert b; induction l as [|x l IH]; intros b Hf; [apply st_rel_ret, _|]. cbn [st_foldM].
  apply st_rel_bind; [done|apply Hf; set_solver|]. intros b'. apply IH. set_solver.
Qed.

#[local] Hint Resolve drops_in_db drops_RemoveOutput : st_rel.

Lemma drops_index_tx (H : string -> Prop) k ord bh h acc i tx : H (TxidToHex (TxHash tx)) ->
  st_rel (drops H k) (index_tx ord bh h acc (i, tx)).
Proof.
  intros Hh. assert (Hr := drops_RemoveTransaction H k ord (TxHash tx) Hh).
  unfold index_tx, index_input. solve_rel.
Qed.

Lemma drops_IndexBlock k ord block h :
  st_rel (drops (fun x => exists tx, tx ∈ block_Transactions block /\ x = TxidToHex (TxHash tx)) k)
    (IndexBlock ord block h).
Proof.
  unfold IndexBlock, index_batch. apply st_rel_bind; [apply _| |].
  2:{ intros b w. unfold st_wrap, in_db. by destruct (batch_Commit b (w_db w)) as [[] ?]; split. }
  apply st_rel_bind; [apply _|apply st_rel_lift, _|]. intros header.
  apply st_rel_bind; [apply _| |].
  - apply st_rel_foldM_elem; [apply _|]. intros b [i tx] Hin. apply drops_index_tx.
    exists tx. split; [|done]. unfold indexed in Hin. apply elem_of_lookup_imap_1 in Hin as (n & y & [= -> ->] & Hy).
    by eapply list_elem_of_lookup_2.
  - intros acc. solve_rel.
Qed.

(** The overlay's records of the block's transactions name only scripthashes
    that the block affects. *)
Definition overlay_agrees (block : MsgBlock) (w : world) : Prop :=
  forall tx t sh, tx ∈ block_Transactions block ->
    transactions (w_mp w) !! TxidToHex (TxHash tx) = Some t -> sh ∈ mt_Scripthashes t ->
    block_affects (contents (w_db w)) (block_Transactions block) sh.

Lemma IndexBlock_same_data ord block h w w' sh : IndexBlock ord block h w = (Ok (), w') ->
  NoDup (TxHash <$> block_Transactions block) -> in_i32 h ->
  (forall s y z, length s = 32%nat -> contents (w_db w) !! hkey s h y z = None) ->
  overlay_agrees block w -> length sh = 32%nat ->
  ~ block_affects (contents (w_db w)) (block_Transactions block) sh -> same_status_data sh w w'.
Proof.
  intros E Hnd Hh Hfresh Hag Hsh Hn.
  destruct (IndexBlock_Ok ord block h w w' Hnd E) as (undo & hss & Hix).
  split; [by eapply block_same_confirmed|].
  destruct (drops_IndexBlock (EncodeToString sh) ord block h w) as [_ Hd]. rewrite E in Hd. apply Hd.
  intros x t (tx & Htx & ->) Ht (s & Es & Hs)%list_elem_of_fmap. apply (inj EncodeToString) in Es as <-.
  apply Hn. by eapply Hag.
Qed.

End IndexBlock.

(** ** The overlay's operations *)

Section Overlay.
Context {P : Pebble} {PL : PebbleLaws P} {B : Btcd} {BL : BtcdLaws B}.

(** [AddTransaction] changes the data of what it reports only. *)
Lemma AddTransaction_same_data ord now tx w sh :
  (forall l, (AddTransaction ord now tx w).1 = Ok l -> EncodeToString sh ∉ l) ->
  same_status_data sh w (AddTransaction ord now tx w).2.
Proof.
  destruct (AddTransaction_outcome ord now tx w) as [?|e w' _ [Hm Hc]|t outs aff w' R _ _ _ Hm Hc]; intros Hl.
  - apply same_data_refl.
  - apply same_data_overlay; [intros k _; by rewrite Hc|by rewrite Hm].
  - apply same_data_overlay; [done|]. rewrite Hm.
    rewrite (proj1 (proj2 (proj2 (record_fields ord t outs aff (w_mp w))))). apply index_other.
    intros Hin. apply (Hl _ eq_refl). rewrite elem_of_range_keys in Hin. by apply elem_of_range_keys.
Qed.

Lemma AddTransaction_confirmed ord now tx w :
  confirmed_same (contents (w_db w)) (contents (w_db (AddTransaction ord now tx w).2)).
Proof.
  destruct (AddTransaction_outcome ord now tx w) as [?|e w' _ [_ Hc]|t outs aff w' R _ _ _ _ Hc];
    [done|by intros k _; rewrite Hc|done].
Qed.

(** Reconciling changes the index of what it reports only. *)
Lemma reconcile_txs_kept ord valid l acc w acc' w' k :
  st_foldM (reconcile_tx ord valid) acc l w = (Ok acc', w') ->
  (acc.2 ⊆ acc'.2) /\ (k ∈ acc'.2 \/ byScripthash (w_mp w') !! k = byScripthash (w_mp w) !! k) /\
  confirmed_same (contents (w_db w)) (contents (w_db w')).
Proof.
  revert acc w; induction l as [|[i h] l IH]; intros acc w.
  { intros [= -> ->]. split_and!; [done|by right|done]. }
  cbn [st_foldM].
  intros (acc1 & w1 & E1 & E2)%st_bind_Ok. destruct (IH _ _ E2) as (H1 & H2 & H3).
  destruct acc as [r a]. unfold reconcile_tx in E1. case_decide as Hv.
  { injection E1 as <- <-. done. }
  destruct (remove_run ord (3 + i) h w) as (ks & w1' & E & Hm & Hc & Hks).
  rewrite (st_bind_run _ _ _ _ _ E) in E1. injection E1 as <- <-. cbn [snd] in *.
  split_and!; [set_solver| |intros k' Hk'; by rewrite H3, Hc].
  destruct (decide (k ∈ ks)) as [Hk|Hk]; [left; set_solver|].
  destruct H2 as [?|H2]; [by left|]. right. rewrite H2, Hm. unfold forget.
  destruct (transactions (w_mp w) !! h) as [t|] eqn:Et; [|done]. apply unindex_other. intros Hin.
  apply Hk, Hks. by exists t.
Qed.

Lemma reconcile_outputs_kept valid l acc k :
  (acc.1.2 ⊆ (foldl (reconcile_output valid) acc l).1.2) /\
  (k ∈ (foldl (reconcile_output valid) acc l).1.2 \/
   byScripthash (foldl (reconcile_output valid) acc l).2 !! k = byScripthash acc.2 !! k).
Proof.
  revert acc; induction l as [|ka l IH]; intros acc; [split; [done|by right]|]. cbn [foldl].
  destruct (IH (reconcile_output valid acc ka)) as [H1 H2].
  destruct acc as [[r a] m]. unfold reconcile_output in *. case_decide; [done|]. cbn [fst snd] in *.
  split; [set_solver|]. destruct H2 as [?|H2]; [by left|].
  set (sk := EncodeToString _) in *. destruct (decide (k = sk)) as [->|Hne]; [left; set_solver|].
  right. rewrite H2. cbn [byScripthash]. apply (unindex_other _ _ [sk]). set_solver.
Qed.

Lemma ReconcileWith_same_data ord valid w n l w' sh : ReconcileWith ord valid w = (Ok (n, l), w') ->
  EncodeToString sh ∉ l -> same_status_data sh w w'.
Proof.
  unfold ReconcileWith. rewrite (st_bind_run (st_gets w_mp) _ w (w_mp w) w) by done.
  intros ([r a] & w1 & E1 & E)%st_bind_Ok Hl.
  rewrite (st_bind_run (st_gets w_mp) _ w1 (w_mp w1) w1) in E by done.
  destruct (reconcile_txs_kept _ _ _ _ _ _ _ (EncodeToString sh) E1) as (_ & H2 & H3).
  pose proof (reconcile_outputs_kept valid (range_map ord 1 (outputs (w_mp w1))) (r, a, w_mp w1)
    (EncodeToString sh)) as [H4 H5].
  destruct (foldl (reconcile_output valid) _ _) as [[r2 a2] m2]. cbn [fst snd] in *.
  injection E as <- <- <-. rewrite elem_of_range_set in Hl.
  apply same_data_overlay; [done|]. cbn [w_mp byScripthash].
  destruct H5 as [?|H5]; [done|]. destruct H2 as [?|H2]; [set_solver|]. by rewrite H5, H2.
Qed.

End Overlay.

(** ** Health *)

Section Health.
Context {P : Pebble} {PL : PebbleLaws P} {PH : PebbleHealthy P PL} {B : Btcd} {BL : BtcdLaws B} {Zs : Zstd}
  {ZL : ZstdLaws Zs}.

Lemma keeps_commit b : st_rel (keeps healthy) (batch_Commit b).
Proof. intros d Hd. by apply healthy_commit. Qed.

#[local] Hint Resolve keeps_Get keeps_NewIter keeps_get keeps_LoadCheckpoint keeps_GetHeader keeps_commit : st_rel.

Lemma keeps_GetScripthashForOutpoint t v : st_rel (keeps healthy) (GetScripthashForOutpoint t v).
Proof. unfold GetScripthashForOutpoint. solve_rel. Qed.
Lemma keeps_GetUTXO sh t v : st_rel (keeps healthy) (GetUTXO sh t v).
Proof. unfold GetUTXO. solve_rel. Qed.
Lemma keeps_NewPrefixIterator p : st_rel (keeps healthy) (NewPrefixIterator p).
Proof. unfold NewPrefixIterator. solve_rel. Qed.
#[local] Hint Resolve keeps_GetScripthashForOutpoint keeps_GetUTXO keeps_NewPrefixIterator : st_rel.

Lemma keeps_PruneUndoData mx : st_rel (keeps healthy) (PruneUndoData mx).
Proof.
  unfold PruneUndoData. apply st_rel_bind; [apply _|solve_rel|]. intros [it|e]; [|solve_rel].
  destruct (prune_loop _ _ _ _) as [[b n] err]. solve_rel.
Qed.

(** On a healthy engine pruning has no error. *)
Lemma prune_loop_total mx b n es : exists b' n', prune_loop mx b n es = (b', n', None).
Proof.
  revert b n; induction es as [|[k v] es IH]; intros b n; [by exists b, n|]. cbn [prune_loop].
  destruct (ParseUndoKey k) as [[h bh]|e]; [|apply IH]. destruct (h <? mx); [|apply IH].
  destruct (batch_Delete_total b k) as [b' ->]. apply IH.
Qed.

Lemma PruneUndoData_healthy mx d : healthy d -> exists n, (PruneUndoData mx d).1 = Ok (n, None).
Proof.
  intros Hd. unfold PruneUndoData, NewPrefixIterator, st_wrap, st_try, mbind, st_bind.
  destruct (healthy_iter [PrefixUndo] (PrefixUpperBound [PrefixUndo]) d Hd) as (H1 & it & E & He).
  destruct (pebble_NewIter _ _ d) as [r d1]. cbn in E, H1. subst r. cbn.
  destruct (prune_loop_total mx pebble_NewBatch 0 (it_entries it)) as (b & n & ->). rewrite He.
  destruct (n >? 0); [|by exists n]. destruct (healthy_commit b d1 H1) as [_ H2].
  destruct (batch_Commit b d1) as [r d2]. cbn in H2. subst r. by exists n.
Qed.

Lemma PruneOldUndoData_healthy mx tip d : healthy d -> exists n, (PruneOldUndoData mx tip d).1 = Ok (Ok n).
Proof.
  intros Hd. unfold PruneOldUndoData. case_match; [by exists 0|].
  destruct (PruneUndoData_healthy (i32 (tip - i32 mx)) d Hd) as [n E].
  unfold mbind, st_bind. destruct (PruneUndoData _ d) as [r d']. cbn in E. subst r. by exists n.
Qed.

Definition keepsW : relation world := fun w w' => keeps healthy (w_db w) (w_db w').

#[export] Instance keepsW_preorder : PreOrder keepsW.
Proof. unfold keepsW, keeps. split; [by intros w|]. intros a b c H1 H2 H. by apply H2, H1. Qed.

Lemma keepsW_in_db {A} (m : st pdb A) : st_rel (keeps healthy) m -> st_rel keepsW (in_db m).
Proof. intros Hm w. specialize (Hm (w_db w)). unfold in_db, keepsW. by destruct (m (w_db w)). Qed.
Lemma keepsW_mdb {A} (m : st pdb A) : st_rel (keeps healthy) m -> st_rel keepsW (mdb m).
Proof. intros Hm w. unfold mdb. destruct (mp_hasdb _); [by apply keepsW_in_db|by intros H]. Qed.
Lemma keepsW_mdb_wrap {A} pre (m : st pdb A) : st_rel (keeps healthy) m -> st_rel keepsW (mdb (st_wrap pre m)).
Proof. intros Hm. by apply keepsW_mdb, st_rel_wrap. Qed.
Lemma keepsW_put_mp m : st_rel keepsW (put_mp m).
Proof. by intros w H. Qed.
#[local] Hint Resolve keepsW_in_db keepsW_mdb keepsW_mdb_wrap keepsW_put_mp : st_rel.

Lemma keepsW_persist t : st_rel keepsW (persistTransaction t).
Proof. unfold persistTransaction. solve_rel. Qed.
Lemma keepsW_unpersist t : st_rel keepsW (unpersistTransaction t).
Proof. unfold unpersistTransaction. solve_rel. Qed.
#[local] Hint Resolve keepsW_persist keepsW_unpersist : st_rel.

Lemma keepsW_add_input acc i : st_rel keepsW (add_input acc i).
Proof. unfold add_input. solve_rel. Qed.
#[local] Hint Resolve keepsW_add_input : st_rel.

Lemma keepsW_AddTransaction ord now tx : st_rel keepsW (AddTransaction ord now tx).
Proof. unfold AddTransaction. solve_rel. Qed.

Lemma keepsW_remove ord n h : st_rel keepsW (removeTransactionLocked ord n h).
Proof. unfold removeTransactionLocked. solve_rel. Qed.
#[local] Hint Resolve keepsW_remove : st_rel.

Lemma keepsW_reconcile_tx ord valid acc x : st_rel keepsW (reconcile_tx ord valid acc x).
Proof. unfold reconcile_tx. solve_rel. Qed.
#[local] Hint Resolve keepsW_reconcile_tx : st_rel.

Lemma keepsW_ReconcileWith ord valid : st_rel keepsW (ReconcileWith ord valid).
Proof. unfold ReconcileWith. solve_rel. Qed.

(** *** Queries *)

Lemma keeps_GetBlockTxids h : st_rel (keeps healthy) (GetBlockTxids h).
Proof. unfold GetBlockTxids, get_value. solve_rel. Qed.
#[local] Hint Resolve keeps_GetBlockTxids : st_rel.

Lemma keeps_history_step acc kv : st_rel (keeps healthy) (history_entry_step acc kv).
Proof.
  destruct acc as [[history seen] cache]. unfold history_entry_step.
  destruct (ParseHistoryKey kv.1) as [[[[sh h] i] x]|]; [|solve_rel].
  apply st_rel_bind; [apply _|destruct (cache !! h); solve_rel|]. solve_rel.
Qed.
#[local] Hint Resolve keeps_history_step : st_rel.

Lemma keeps_history sorter ord m sh : st_rel (keeps healthy) (GetScripthashHistory sorter ord m sh).
Proof. unfold GetScripthashHistory. solve_rel. Qed.
Lemma keeps_balance ord m sh : st_rel (keeps healthy) (GetScripthashBalance ord m sh).
Proof. unfold GetScripthashBalance. solve_rel. Qed.
Lemma keeps_unspent ord m sh : st_rel (keeps healthy) (GetScripthashUnspent ord m sh).
Proof. unfold GetScripthashUnspent. solve_rel. Qed.
#[local] Hint Resolve keeps_history keeps_balance keeps_unspent : st_rel.
Lemma keeps_status sorter ord m sh : st_rel (keeps healthy) (ComputeScripthashStatus sorter ord m sh).
Proof. unfold ComputeScripthashStatus. solve_rel. Qed.
Lemma keeps_proof t h : st_rel (keeps healthy) (GetTransactionMerkleProof t h).
Proof. unfold GetTransactionMerkleProof. solve_rel. Qed.
Lemma keeps_GetHeaderHex h : st_rel (keeps healthy) (GetHeaderHex h).
Proof. unfold GetHeaderHex. solve_rel. Qed.
Lemma keeps_getTxFromDB t : st_rel (keeps healthy) (getTxFromDB t).
Proof.
  unfold getTxFromDB, GetTxPos, GetTxBlob, GetTxOffsets, get_value.
  repeat first [progress solve_rel | apply rel_internal].
Qed.

End Health.
