(* ===== verification/Requests.v ===== *)
(** * What a client's request does

    One interface for the relations that every request keeps: it asks how the
    calls of the server, the database and the node relate their states, and gives
    the relation for whatever a client sends. *)

From Stdlib Require Import Strings.Byte.
From S2P Require Import Prelude Bytes Hex Keys Values Json Checkpoint Pebble Store Sha256 Types Mempool MempoolFacts MempoolProps Block BlockFacts BlockOps BlockProps Reorg Query QueryFacts QueryProps Server ServerProps Typed Total Steps Chain Follow Gaps Writer WriterProps GoFloat Rpc RpcProps Config Live LiveFacts.

Section Requests.
Context {P : Pebble} {PL : PebbleLaws P} {PH : PebbleHealthy P PL} {B : Btcd} {BL : BtcdLaws B} {Zs : Zstd}.
Context (sorter : slice_sort) (ord : range_order).

(** A relation that the calls a handler makes for [writer] keep. *)
Class RequestRel (R : relation sworld) (writer : conn) : Prop := {
  rr_preorder :: PreOrder R;
  rr_sdb {A} (m : st pdb A) : st_rel db_same m -> st_rel (keeps healthy) m -> st_rel R (sdb m);
  rr_client {A} (f : nat -> result A) : st_rel R (client f);
  rr_subscribe sh : st_rel R (on_subs (SubscribeScripthash writer sh));
  rr_unsubscribe sh : st_rel R (on_subs (UnsubscribeScripthash writer sh));
  rr_headers : st_rel R (on_subs (SubscribeHeaders writer));
  rr_status sh : st_rel R (ComputeScripthashStatusHex sorter ord (EncodeToString sh));
}.

Context (R : relation sworld) (writer : conn) {RR : RequestRel R writer}.

Lemma rr_mempool : st_rel R mempool.
Proof. intros w. cbn. reflexivity. Qed.

#[local] Hint Resolve keeps_Get keeps_NewIter keeps_get keeps_LoadCheckpoint keeps_GetHeader keeps_GetBlockTxids
  keeps_history keeps_balance keeps_unspent keeps_status keeps_proof keeps_GetHeaderHex keeps_getTxFromDB
  rel_history rel_balance rel_unspent rel_status rel_proof rel_GetHeaderHex rel_getTxFromDB
  rr_sdb rr_client rr_mempool rr_subscribe rr_unsubscribe rr_headers rr_status : st_rel.

Ltac solve_request := repeat first [progress solve_rel | apply rel_internal | apply st_rel_try | apply rr_sdb].

Lemma request_need_args n s params : st_rel R (need_args n s params).
Proof. unfold need_args, invalid. solve_rel. Qed.
Lemma request_string_arg n s args : st_rel R (string_arg n s args).
Proof. unfold string_arg, invalid. solve_rel. Qed.
Lemma request_float_arg n s args : st_rel R (float_arg n s args).
Proof. unfold float_arg, invalid. solve_rel. Qed.
#[local] Hint Resolve request_need_args request_string_arg request_float_arg : st_rel.
Lemma request_parse params : st_rel R (parseScripthashParam params).
Proof. unfold parseScripthashParam, invalid. solve_rel. Qed.
Lemma request_load_checkpoint : st_rel R load_checkpoint.
Proof. unfold load_checkpoint, failing. solve_request. Qed.
#[local] Hint Resolve request_parse request_load_checkpoint : st_rel.
Lemma request_headers_loop n i bs : st_rel R (headers_loop n i bs).
Proof. revert i bs; induction n as [|n IH]; intros i bs; cbn [headers_loop]; solve_request. Qed.
#[local] Hint Resolve request_headers_loop : st_rel.

Section Handlers.
Context {T : BtcdTx} (N : rpc_node B) (C : platform) (StringWidth : string -> Z) (config_StartHeight : Z).

Lemma request_verbose h d : st_rel R (buildVerboseTx N h d).
Proof. unfold buildVerboseTx, failing, verbose_position, client_GetBlockHash. solve_request. Qed.
Lemma request_core t : st_rel R (getTxFromCore N t).
Proof. unfold getTxFromCore, failing, invalid. solve_request. Qed.
#[local] Hint Resolve request_verbose request_core : st_rel.

Notation methods := (methods N C sorter ord StringWidth config_StartHeight).

Lemma methods_rel : Forall (fun c => forall params, st_rel R (c.2 params)) (methods writer).
Proof.
  unfold methods. repeat (apply Forall_cons_2; [cbn [snd]; intros params|]); [..|apply Forall_nil_2].
  all: try (unfold handleHeadersSubscribe, handleScripthashSubscribe, handleScripthashUnsubscribe, failing;
            solve_request; fail).
  all: try (unfold handleBlockHeaders, buffer_Grow, grow_panic; solve_request; fail).
  all: unfold handleServerVersion, handleServerBanner, handleServerDonationAddress, handleServerPeersSubscribe,
    handleServerPing, handleServerFeatures, handleBlockHeader, handleEstimateFee,
    handleRelayFee, handleScripthashGetHistory, handleScripthashGetBalance, handleScripthashListUnspent,
    handleScripthashGetMempool, handleTransactionGet,
    handleTransactionBroadcast, handleTransactionGetMerkle, handleTransactionIdFromPos,
    handleMempoolFeeHistogram, client_GetBlockHash, invalid, failing; solve_request.
Qed.

Lemma request_rel line :
  st_rel R (serve_line N C sorter ord StringWidth config_StartHeight writer line).
Proof.
  unfold serve_line. destruct line as [|c line]; [solve_rel|].
  apply st_rel_bind; [apply _| |solve_rel]. intros w. rewrite processRequest_eq.
  destruct (requests_of (c :: line)) as [reqs|e]; [|done]. revert w.
  match goal with |- forall w, R w (?m w).2 => change (st_rel R m) end.
  unfold answer_all. apply st_rel_foldM; [apply _|]. intros rs' req.
  apply st_rel_bind; [apply _| |solve_rel].
  unfold respond. apply st_rel_bind; [apply _| |intros [v|e]; solve_request].
  apply st_rel_try. unfold handleMethod.
  destruct (switch _ _) as [h|] eqn:E; [|solve_request].
  by apply (switch_Forall (fun _ h => forall params, st_rel R (h params)) _ _ _ (methods_rel) E).
Qed.

End Handlers.
End Requests.
