(* ===== verification/LiveProps.v ===== *)
(** * The main loop: properties

    The statuses the server gives out are those of its data at that moment, as
    long as the loop meets events it announces; a block is announced to exactly
    those it concerns; what the loop does without announcing it. *)

From Stdlib Require Import Strings.Byte.
From S2P Require Import Prelude Bytes Hex Keys Values Json Checkpoint Pebble Store Sha256 Types Mempool MempoolFacts MempoolProps Block BlockFacts BlockOps BlockProps Reorg ReorgFacts ReorgProps ChainFacts Query QueryFacts QueryProps Server ServerProps Typed Total Steps Chain Follow Gaps GapProps Writer WriterProps GoFloat Rpc RpcProps Config Live LiveFacts Requests.

(** ** Calls that return *)

(** From a state of [I], [m] returns without an error, in a state of [Q]. *)
Definition yields {W A} (I : W -> Prop) (m : st W A) (Q : A -> W -> Prop) : Prop :=
  forall w, I w -> exists a w', m w = (Ok a, w') /\ Q a w'.

Section Yields.
Context {W : Type}.

Lemma yields_ret {A} (I : W -> Prop) (a : A) : yields I (mret a) (fun _ => I).
Proof. intros w Hw. by exists a, w. Qed.

Lemma yields_bind {A C} (I : W -> Prop) (Q : A -> W -> Prop) (R : C -> W -> Prop) (m : st W A) (f : A -> st W C) :
  yields I m Q -> (forall a, yields (Q a) (f a) R) -> yields I (m ≫= f) R.
Proof.
  intros Hm Hf w Hw. destruct (Hm w Hw) as (a & w1 & E & H1). rewrite (st_bind_run _ _ _ _ _ E). by apply Hf.
Qed.

Lemma yields_weaken {A} (I : W -> Prop) (Q R : A -> W -> Prop) (m : st W A) :
  yields I m Q -> (forall a w, Q a w -> R a w) -> yields I m R.
Proof. intros Hm HQ w Hw. destruct (Hm w Hw) as (a & w' & E & H). exists a, w'. auto. Qed.

Lemma yields_foldM {A C} (J : C -> W -> Prop) (f : C -> A -> st W C) l b :
  (forall b x, x ∈ l -> yields (J b) (f b x) J) -> yields (J b) (st_foldM f b l) J.
Proof.
  revert b; induction l as [|x l IH]; intros b Hf; [intros w Hw; by exists b, w|]. cbn [st_foldM].
  eapply yields_bind; [apply Hf; set_solver|]. intros b'. apply IH. set_solver.
Qed.

End Yields.

(** ** Cached statuses *)

Section Cache.
Context {P : Pebble} {PL : PebbleLaws P} {PH : PebbleHealthy P PL} {B : Btcd} {BL : BtcdLaws B} {Zs : Zstd}.
Context (sorter : slice_sort) (ord : range_order).

Notation status_now := (status_now sorter ord).

(** Every clean status is that of a scripthash now, but for those in [S]. *)
Definition coherent_but (S : gset string) (c : StatusCache) (w : world) : Prop :=
  forall hx st, GetIfClean hx c = Some st -> hx ∉ S ->
    exists sh, length sh = 32%nat /\ hx = EncodeToString sh /\ st = status_now w sh.

Lemma coherent_new S w : coherent_but S NewStatusCache w.
Proof. intros hx st H. unfold GetIfClean in H. cbn in H. by rewrite lookup_empty in H. Qed.

Lemma coherent_weaken S S' c w : S ⊆ S' -> coherent_but S c w -> coherent_but S' c w.
Proof. intros HS Hc hx st H Hn. apply Hc; [done|set_solver]. Qed.

(** The data changes for the scripthashes in [S] only. *)
Lemma coherent_change S c w w' : coherent_but S c w ->
  (forall sh, length sh = 32%nat -> EncodeToString sh ∉ S -> same_status_data sh w w') -> coherent_but S c w'.
Proof.
  intros Hc Hs hx st H Hn. destruct (Hc hx st H Hn) as (sh & Hl & -> & ->). exists sh. split_and!; [done..|].
  symmetry. by apply status_same, Hs.
Qed.

Lemma coherent_same S c w w' : contents (w_db w') = contents (w_db w) -> w_mp w' = w_mp w ->
  coherent_but S c w -> coherent_but S c w'.
Proof.
  intros H1 H2 Hc. apply (coherent_change _ _ w); [done|]. intros sh _ _.
  apply same_data_overlay; [intros k _; by rewrite H1|by rewrite H2].
Qed.

Lemma coherent_dirty l c w : coherent_but (list_to_set l) c w -> coherent_but ∅ (MarkDirtyMany l c) w.
Proof.
  intros Hc hx st H _. unfold GetIfClean, MarkDirtyMany in *. cbn in H. case_decide as Hn; [done|].
  apply Hc; [|set_solver]. unfold GetIfClean. by rewrite decide_False by set_solver.
Qed.

Lemma coherent_clean S c w sh : coherent_but S c w -> length sh = 32%nat ->
  coherent_but S (SetClean (EncodeToString sh) (status_now w sh) c) w.
Proof.
  intros Hc Hl hx st H Hn. unfold GetIfClean, SetClean in H. cbn in H. case_decide as Hd; [done|].
  apply lookup_insert_Some in H as [[<- <-]|[Hne H]]; [by exists sh|].
  apply Hc; [|done]. unfold GetIfClean. by rewrite decide_False by set_solver.
Qed.

(** *** A call of the server *)

(** The data and the subscriptions of others are left, the engine healthy and
    the cache current. *)
Definition tends (w w' : sworld) : Prop :=
  contents (w_db (sv_world w')) = contents (w_db (sv_world w)) /\
  w_mp (sv_world w') = w_mp (sv_world w) /\
  (healthy (w_db (sv_world w)) -> healthy (w_db (sv_world w')) /\
     forall S, coherent_but S (sv_cache w) (sv_world w) -> coherent_but S (sv_cache w') (sv_world w')).

#[export] Instance tends_preorder : PreOrder tends.
Proof.
  split; [done|]. intros a b c (A1 & A2 & A3) (B1 & B2 & B3).
  split_and!; [by rewrite B1|by rewrite B2|]. intros Ha. destruct (A3 Ha) as [Hb A4].
  destruct (B3 Hb) as [Hc B4]. split; [done|]. auto.
Qed.

(** A read of the database. *)
Lemma tends_sdb {A} (m : st pdb A) : st_rel db_same m -> st_rel (keeps healthy) m -> st_rel tends (sdb m).
Proof.
  intros H1 H2 w. specialize (H1 (w_db (sv_world w))). specialize (H2 (w_db (sv_world w))).
  unfold sdb, in_db. destruct (m (w_db (sv_world w))) as [r d]. cbn [snd] in *.
  split_and!; [done..|]. intros Hw. split; [by apply H2|]. intros S. by apply coherent_same.
Qed.

(** Neither the data nor the cache. *)
Lemma tends_same w w' : sv_world w' = sv_world w -> sv_cache w' = sv_cache w -> tends w w'.
Proof. intros H1 H2. unfold tends. by rewrite H1, H2. Qed.

(** The status of a scripthash, cached or not, is its status now. *)
Lemma compute_status_run sh w : healthy (w_db (sv_world w)) -> length sh = 32%nat ->
  coherent_but ∅ (sv_cache w) (sv_world w) ->
  exists w', ComputeScripthashStatusHex sorter ord (EncodeToString sh) w = (Ok (status_now (sv_world w) sh), w') /\
    sv_subs w' = sv_subs w.
Proof.
  intros Hd Hl Hc. destruct (GetIfClean (EncodeToString sh) (sv_cache w)) as [st|] eqn:Eg.
  - exists w. unfold ComputeScripthashStatusHex. rewrite (st_bind_run (st_gets _) _ w (Some st) w) by (unfold st_gets; by rewrite Eg).
    destruct (Hc _ _ Eg) as (sh' & _ & E%(inj EncodeToString) & ->); [set_solver|]. by subst sh'.
  - unfold ComputeScripthashStatusHex. rewrite (st_bind_run (st_gets _) _ w None w) by (unfold st_gets; by rewrite Eg).
    rewrite DecodeString_EncodeToString, (st_bind_run (st_lift _) _ w sh w) by done.
    rewrite (st_bind_run mempool _ w (w_mp (sv_world w)) w) by done.
    destruct (status_now_reads sorter ord (sv_world w) sh Hd Hl) as (d & E & _ & _).
    rewrite (st_bind_run _ _ _ _ _ (sdb_run _ _ _ _ E)). by eexists.
Qed.

Lemma status_bad_length m sh d : length sh <> 32%nat ->
  exists e, ComputeScripthashStatus sorter ord m sh d = (Err e, d).
Proof.
  intros Hl. unfold ComputeScripthashStatus, GetScripthashHistory, MakeHistoryPrefix, check_len, check.
  rewrite bool_decide_eq_false_2 by (intros E; apply Hl; unfold ScripthashLength in E; lia).
  by eexists.
Qed.

Lemma tends_compute sh : st_rel tends (ComputeScripthashStatusHex sorter ord (EncodeToString sh)).
Proof.
  intros w. unfold ComputeScripthashStatusHex.
  destruct (GetIfClean (EncodeToString sh) (sv_cache w)) as [st|] eqn:Eg.
  { rewrite (st_bind_run (st_gets _) _ w (Some st) w) by (unfold st_gets; by rewrite Eg). done. }
  rewrite (st_bind_run (st_gets _) _ w None w) by (unfold st_gets; by rewrite Eg).
  rewrite DecodeString_EncodeToString, (st_bind_run (st_lift _) _ w sh w) by done.
  rewrite (st_bind_run mempool _ w (w_mp (sv_world w)) w) by done.
  set (m := w_mp (sv_world w)).
  pose proof (tends_sdb _ (rel_status sorter ord m sh) (keeps_status sorter ord m sh) w) as Ht.
  destruct (sdb (ComputeScripthashStatus sorter ord m sh) w) as [[st|e] w1] eqn:E; cbn [snd] in Ht;
    [|by rewrite (st_bind_err _ _ _ _ _ E)].
  rewrite (st_bind_run _ _ _ _ _ E). cbn. split_and!; [apply Ht..|]. intros Hd.
  destruct Ht as (H1 & H2 & H3). destruct (H3 Hd) as [Hd1 H4]. split; [done|]. intros S Hc.
  cbn [sv_cache sv_world].
  destruct (decide (length sh = 32%nat)) as [Hl|Hl].
  - destruct (status_now_reads sorter ord (sv_world w) sh Hd Hl) as (d & E' & _ & _).
    unfold sdb, in_db in E. unfold m in E. rewrite E' in E. injection E as <- <-. cbn [sv_cache sv_world] in *.
    apply coherent_same with (sv_world w); [done..|]. by apply coherent_clean.
  - destruct (status_bad_length m sh (w_db (sv_world w)) Hl) as [e E']. unfold sdb, in_db in E. by rewrite E' in E.
Qed.

(** Whatever a client sends. *)
#[export] Instance tends_rel writer : RequestRel sorter ord tends writer.
Proof.
  split.
  - apply _.
  - intros A m. apply tends_sdb.
  - intros A f w. by apply tends_same.
  - intros sh w. by apply tends_same.
  - intros sh w. by apply tends_same.
  - intros w. by apply tends_same.
  - apply tends_compute.
Qed.

End Cache.
(** *** The loop's state *)

Section Live.
Context {P : Pebble} {PL : PebbleLaws P} {PH : PebbleHealthy P PL} {B : Btcd} {BL : BtcdLaws B} {T : BtcdTx}.
Context {Zs : Zstd} {ZL : ZstdLaws Zs}.
Context (N : node) (M : pool_node) (sorter : slice_sort) (ord : range_order) (cfg : Config).
Context (clock : nat -> Z) (fuel : nat).

Notation status_now := (status_now sorter ord).

Definition mw_cm (w : mworld) : cworld := ww_cm (mw_writer w).

Definition with_writer (w : mworld) (ww : wworld) : mworld :=
  mkMWorld ww (mw_prunes w) (mw_subs w) (mw_cache w) (mw_sent w) (blocksProcessed w) (txsIndexed w).

Lemma on_writer_run {A} (c : st wworld A) w r ww : c (mw_writer w) = (r, ww) -> on_writer c w = (r, with_writer w ww).
Proof. unfold on_writer. by intros ->. Qed.

(** What is not the writer's. *)
Definition same_server (w w' : mworld) : Prop :=
  mw_subs w' = mw_subs w /\ mw_cache w' = mw_cache w /\ mw_sent w' = mw_sent w /\
  blocksProcessed w' = blocksProcessed w /\ txsIndexed w' = txsIndexed w.

#[export] Instance same_server_preorder : PreOrder same_server.
Proof.
  split; [done|]. intros a b c (A1 & A2 & A3 & A4 & A5) (B1 & B2 & B3 & B4 & B5). unfold same_server.
  by rewrite B1, B2, B3, B4, B5.
Qed.

(** *** Prune jobs *)

(** Only undo records may be gone. *)
Definition undo_frame (w w' : world) : Prop :=
  (forall k, contents (w_db w') !! k = contents (w_db w) !! k \/
     (head k = Some PrefixUndo /\ contents (w_db w') !! k = None)) /\ w_mp w' = w_mp w.

#[export] Instance undo_frame_preorder : PreOrder undo_frame.
Proof.
  split; [by split; [left|]|]. intros a b c [A1 A2] [B1 B2]. split; [|by rewrite B2]. intros k.
  destruct (B1 k) as [-> |?]; [apply A1|by right].
Qed.

Lemma undo_frame_other w w' k : undo_frame w w' -> head k <> Some PrefixUndo ->
  contents (w_db w') !! k = contents (w_db w) !! k.
Proof. intros [H _] Hk. by destruct (H k) as [?|[? _]]. Qed.

Definition pruned (w w' : mworld) : Prop :=
  same_server w w' /\ same_tip (mw_cm w) (mw_cm w') /\ undo_frame (mw_world w) (mw_world w') /\
  (working (mw_cm w) -> working (mw_cm w')).

#[export] Instance pruned_preorder : PreOrder pruned.
Proof.
  split.
  - intros w. by split_and!.
  - intros a b c (A1 & A2 & A3 & A4) (B1 & B2 & B3 & B4). split_and!; [by etrans|by eapply same_tip_trans|by etrans|auto].
Qed.

Lemma prunable_undo mx k : prunable mx k = true -> head k = Some PrefixUndo.
Proof.
  unfold prunable. destruct (ParseUndoKey k) as [[h bh]|e] eqn:E; [|done]. intros _.
  apply ParseUndoKey_Ok in E. by destruct_and! E; subst.
Qed.

Lemma prune_undo_only mx tip d k : contents (PruneOldUndoData mx tip d).2 !! k = contents d !! k \/
  (head k = Some PrefixUndo /\ contents (PruneOldUndoData mx tip d).2 !! k = None).
Proof.
  unfold PruneOldUndoData. case_match; [by left|].
  destruct (PruneUndoData_cases (i32 (tip - i32 mx)) d) as (n & err & d' & E & Hc & _).
  rewrite (st_bind_run _ _ _ _ _ E). destruct err; cbn; destruct Hc as [-> | ->]; try by left.
  all: rewrite map_lookup_filter; destruct (contents d !! k); [|by left]; cbn.
  all: destruct (prunable _ k) eqn:Ep; [right; by split; [eapply prunable_undo|]|by left].
Qed.

Lemma prune_kept mx tip d : healthy d -> typed_db (contents d) ->
  healthy (PruneOldUndoData mx tip d).2 /\ typed_db (contents (PruneOldUndoData mx tip d).2).
Proof.
  intros Hd Ht. unfold PruneOldUndoData. case_match; [done|].
  pose proof (keeps_PruneUndoData (i32 (tip - i32 mx)) d Hd) as H1.
  pose proof (PruneUndoData_typed (i32 (tip - i32 mx)) d Ht) as H2.
  destruct (PruneUndoData_cases (i32 (tip - i32 mx)) d) as (n & err & d' & E & _).
  rewrite (st_bind_run _ _ _ _ _ E). rewrite E in H1, H2. by destruct err.
Qed.

Lemma prune_job_run w : exists r w', writer_job N ord cfg clock fuel prune_job w = (r, w') /\ pruned w w' /\
  mw_prunes w' = mw_prunes w /\ (working (mw_cm w) -> is_Ok r = true).
Proof.
  unfold writer_job. set (mx := Storage_MaxReorgDepth (cfg_Storage cfg)).
  set (d := w_db (mw_world w)). set (tip := currentHeight (mw_cm w)).
  pose proof (prune_undo_only mx tip d) as H1. pose proof (prune_kept mx tip d) as H2.
  assert (H3 : working (mw_cm w) -> exists n, (PruneOldUndoData mx tip d).1 = Ok (Ok n))
    by (intros [Hd _]; by apply PruneOldUndoData_healthy).
  destruct (PruneOldUndoData mx tip d) as [r d'] eqn:E. cbn [fst snd] in *.
  assert (exists x, run_job N ord mx clock fuel prune_job (mw_writer w) =
    (x, mkWWorld (with_rw (mw_cm w) (mkRWorld (mkWorld d' (w_mp (mw_world w))) (rw_calls (cm_rw (mw_cm w)))))
          (blocksIndexed (mw_writer w)) (mempoolTxsAdded (mw_writer w)) (lastBlockTime (mw_writer w)) (S (ww_jobs (mw_writer w)))) /\
    (working (mw_cm w) -> exists r, x = JobReturns r))
    as (x & Ex & Hx).
  { unfold run_job, processJob. cbn [wj_jobType prune_job]. unfold processPruneJob, on_cm, PruneOldUndo.
    assert (Et : (tip0 ← st_gets currentHeight; on_db (PruneOldUndoData mx tip0)) (mw_cm w) =
      (r, with_rw (mw_cm w) (mkRWorld (mkWorld d' (w_mp (mw_world w))) (rw_calls (cm_rw (mw_cm w)))))).
    { rewrite (st_bind_run (st_gets currentHeight) _ (mw_cm w) tip (mw_cm w)) by done. by apply on_db_run. }
    unfold mw_cm in Et. unfold mbind, st_bind in *. rewrite Et.
    destruct r as [r|e]; (eexists; split; [done|]); intros [n Hn]%H3; [|done]. injection Hn as ->. by eexists. }
  eexists _, _. split; [by apply on_writer_run; rewrite Ex|]. split_and!; [|done|].
  - split_and!; [done..| |].
    + split; [exact H1|done].
    + intros [Hd Ht]. destruct (H2 Hd Ht). by split.
  - intros [y ->]%Hx. done.
Qed.

Lemma run_prunes_run n w : exists r w', run_prunes N ord cfg clock fuel n w = (r, w') /\ pruned w w' /\
  (working (mw_cm w) -> r = Ok ()).
Proof.
  revert w; induction n as [|n IH]; intros w; cbn [run_prunes]; [by exists (Ok ()), w|].
  destruct (prune_job_run w) as (r & w1 & E & H & _ & Hr). destruct r as [r|e].
  - rewrite (st_bind_run _ _ _ _ _ E). destruct (IH w1) as (r2 & w2 & E2 & H2 & Hr2). exists r2, w2.
    split_and!; [done|by etrans|]. intros Hw. by apply Hr2, H.
  - rewrite (st_bind_err _ _ _ _ _ E). exists (Err e), w1. split_and!; [done..|]. by intros Hw%Hr.
Qed.

Lemma flush_run w : exists r w', flush_prunes N ord cfg clock fuel w = (r, w') /\ pruned w w' /\
  (working (mw_cm w) -> r = Ok ()).
Proof.
  unfold flush_prunes. rewrite (st_bind_run (st_gets mw_prunes) _ w (mw_prunes w) w) by done.
  destruct (run_prunes_run (mw_prunes w) w) as (r & w1 & E & H & Hr). destruct r as [[]|e].
  - rewrite (st_bind_run _ _ _ _ _ E). do 2 eexists. split; [done|]. split; [|done].
    destruct H as (H1 & H2 & H3 & H4). by split_and!.
  - rewrite (st_bind_err _ _ _ _ _ E). by exists (Err e), w1.
Qed.

Lemma flush_working w : working (mw_cm w) -> exists w', flush_prunes N ord cfg clock fuel w = (Ok (), w') /\ pruned w w'.
Proof. intros Hw. destruct (flush_run w) as (r & w' & E & H & Hr). rewrite (Hr Hw) in E. by exists w'. Qed.

(** *** The invariant *)

Record inv (S : gset string) (w : mworld) : Prop := {
  inv_working : working (mw_cm w);
  inv_coherent : coherent_but sorter ord S (mw_cache w) (mw_world w);
}.

Lemma inv_weaken S S' w : S ⊆ S' -> inv S w -> inv S' w.
Proof. intros HS [H1 H2]. split; [done|by eapply coherent_weaken]. Qed.

(** No status depends on undo records. *)
Lemma undo_frame_data sh w w' : undo_frame w w' -> same_status_data sh w w'.
Proof.
  intros H. split; [|by rewrite (proj2 H)]. apply same_confirmed_frame. intros k Hk. apply (undo_frame_other _ _ _ H).
  by destruct Hk as [-> | ->].
Qed.

Lemma inv_pruned S w w' : pruned w w' -> inv S w -> inv S w'.
Proof.
  intros ((_ & H1 & _) & _ & H2 & H3) [I1 I2]. split; [auto|]. rewrite H1.
  apply (coherent_change _ _ _ _ (mw_world w)); [done|]. intros sh _ _. by apply undo_frame_data.
Qed.

(** Another world for the parts to work on. *)
Definition with_world (w : mworld) (w1 : world) : mworld :=
  with_writer w (mkWWorld (with_rw (mw_cm w) (mkRWorld w1 (rw_calls (cm_rw (mw_cm w)))))
    (blocksIndexed (mw_writer w)) (mempoolTxsAdded (mw_writer w)) (lastBlockTime (mw_writer w)) (ww_jobs (mw_writer w))).

Lemma inv_new_world S w w' w1 : inv S w -> mw_world w' = w1 -> mw_cache w' = mw_cache w ->
  keepsW (mw_world w) w1 -> confirmed_same (contents (w_db (mw_world w))) (contents (w_db w1)) ->
  (forall sh, length sh = 32%nat -> EncodeToString sh ∉ S -> same_status_data sh (mw_world w) w1) -> inv S w'.
Proof.
  intros [[I1 I2] I3] Hw Hc Hh Hs Hd. split.
  - split; [change (cm_world (mw_cm w')) with (mw_world w'); rewrite Hw; by apply Hh|].
    change (cm_world (mw_cm w')) with (mw_world w'). rewrite Hw. by eapply typed_same.
  - rewrite Hw, Hc. by eapply coherent_change.
Qed.

(** Strings that are the hexadecimal form of some bytes. *)
Definition hexes (l : list string) : Prop := Forall (fun x => exists sh, x = EncodeToString sh) l.

(** Handing a transaction to the overlay. *)
Lemma mempool_job_run tx S : yields (inv S) (writer_job N ord cfg clock fuel (IndexMempoolTx_job (Some tx) 0))
  (fun r w' => exists l, r = mkWriteResult 0 l None /\ inv (list_to_set l ∪ S) w' /\ hexes l).
Proof.
  intros w Hi. set (now := clock (ww_jobs (mw_writer w))).
  pose proof (AddTransaction_same_data ord now tx (mw_world w)) as H1.
  pose proof (AddTransaction_confirmed ord now tx (mw_world w)) as H2.
  pose proof (keepsW_AddTransaction ord now tx (mw_world w)) as H3.
  assert (H4 : forall l, (AddTransaction ord now tx (mw_world w)).1 = Ok l -> hexes l).
  { destruct (AddTransaction_outcome ord now tx (mw_world w)) as [?| |t outs aff w' R _ _ _ _ _]; intros l; [|done|].
    - intros [= <-]. constructor.
    - intros [= <-]. apply Forall_forall. intros x Hx. apply elem_of_range_keys in Hx as [sh Hx].
      exists sh. by eapply rec_affected. }
  destruct (AddTransaction ord now tx (mw_world w)) as [r w1] eqn:E. cbn [fst snd] in *.
  set (l := match r with Ok l => l | Err _ => [] end).
  assert (exists ww, run_job N ord (Storage_MaxReorgDepth (cfg_Storage cfg)) clock fuel
      (IndexMempoolTx_job (Some tx) 0) (mw_writer w) = (JobReturns (mkWriteResult 0 l None), ww) /\
      cm_world (ww_cm ww) = w1) as (ww & Ew & Hw1).
  { unfold run_job, processJob. cbn [wj_jobType IndexMempoolTx_job wj_tx]. unfold processMempoolJob.
    rewrite (st_bind_run (st_gets _) _ (mw_writer w) now (mw_writer w)) by done.
    unfold mbind, st_bind, st_try, on_cm, on_rw, rmp.
    change (rw_world (cm_rw (ww_cm (mw_writer w)))) with (mw_world w). rewrite E.
    destruct r as [l'|e]; by eexists. }
  eexists _, (with_writer w ww). split; [by apply on_writer_run; rewrite Ew|].
  exists l. split; [done|]. split.
  - apply (inv_new_world _ w _ w1); [eapply inv_weaken; [|done]; set_solver|done|done|done|done|].
    intros sh Hl Hn. apply H1. unfold l in Hn. intros l' ->. set_solver.
  - unfold l. destruct r; [by apply H4|constructor].
Qed.

Lemma IndexMempoolTx_run tx S : yields (inv S) (writer_IndexMempoolTx N ord cfg clock fuel tx)
  (fun r w' => exists l, r = Ok l /\ inv (list_to_set l ∪ S) w' /\ hexes l).
Proof.
  intros w Hi. unfold writer_IndexMempoolTx. destruct (flush_working w) as (w1 & E1 & H1); [apply Hi|].
  rewrite (st_bind_run _ _ _ _ _ E1). destruct (mempool_job_run tx S w1) as (r & w2 & E2 & l & -> & H2);
    [by eapply inv_pruned|].
  rewrite (st_bind_run _ _ _ _ _ E2). exists (Ok l), w2. split; [done|]. by exists l.
Qed.

(** *** The server's calls *)

Definition server_of (w : mworld) : sworld := mkSWorld (mw_world w) (mw_subs w) (mw_cache w) 0.

Definition served_as (w : mworld) (s : sworld) : mworld :=
  mkMWorld (mw_writer (with_world w (sv_world s))) (mw_prunes w) (sv_subs s) (sv_cache s) (mw_sent w)
    (blocksProcessed w) (txsIndexed w).

Lemma on_server_run {A} (c : st sworld A) w r s : c (server_of w) = (r, s) -> on_server c w = (r, served_as w s).
Proof. unfold on_server, server_of. by intros ->. Qed.

Lemma inv_served S w s : tends sorter ord (server_of w) s -> inv S w -> inv S (served_as w s).
Proof.
  intros (H1 & H2 & H3) [[I1 I2] I3]. destruct (H3 I1) as [H4 H5]. split; [|by apply H5]. split; [done|].
  cbn. by rewrite H1.
Qed.

(** Only what is sent, the cache and the engine's own state may differ. *)
Record still (w w' : mworld) : Prop := {
  sl_subs : mw_subs w' = mw_subs w;
  sl_prunes : mw_prunes w' = mw_prunes w;
  sl_blocks : blocksProcessed w' = blocksProcessed w;
  sl_tip : same_tip (mw_cm w) (mw_cm w');
  sl_contents : contents (w_db (mw_world w')) = contents (w_db (mw_world w));
  sl_overlay : w_mp (mw_world w') = w_mp (mw_world w);
}.

#[export] Instance still_preorder : PreOrder still.
Proof.
  split; [by intros w; split|]. intros a b c [A1 A2 A3 A4 A5 A6] [B1 B2 B3 B4 B5 B6].
  split; try congruence. by eapply same_tip_trans.
Qed.

(** The notification of a scripthash, with its status now. *)
Definition status_message (w : mworld) (sh : bytes) : notification :=
  let status := status_now (mw_world w) sh in
  Status (default ∅ (scripthashSubs (mw_subs w) !! EncodeToString sh)) (EncodeToString sh)
    (if decide (status = ""%string) then None else Some status).

Lemma still_message w w' sh : still w w' -> status_message w' sh = status_message w sh.
Proof.
  intros [H1 _ _ _ H5 H6]. unfold status_message, LiveFacts.status_now. by rewrite H1, H5, H6.
Qed.

Lemma tends_notify sh : st_rel (tends sorter ord) (NotifyScripthashStatusHex sorter ord (EncodeToString sh)).
Proof.
  unfold NotifyScripthashStatusHex. apply st_rel_bind; [apply _|apply tends_compute|]. intros st. solve_rel.
Qed.

Lemma notify_status_inv S hx : (exists sh, hx = EncodeToString sh) ->
  yields (inv S) (notify_status sorter ord hx) (fun _ => inv S).
Proof.
  intros [sh ->] w Hi. unfold notify_status.
  pose proof (tends_notify sh (server_of w)) as Ht.
  destruct (NotifyScripthashStatusHex sorter ord (EncodeToString sh) (server_of w)) as [r s] eqn:E.
  rewrite (st_bind_run _ _ _ _ _ (st_try_run _ _ _ _ (on_server_run _ _ _ _ E))).
  pose proof (inv_served S w s Ht Hi) as Hs.
  destruct r as [[to [x st]]|e]; [|by eexists _, _]. eexists _, _. split; [done|]. by destruct Hs.
Qed.

Lemma notify_status_sent w sh : inv ∅ w -> length sh = 32%nat ->
  exists w', notify_status sorter ord (EncodeToString sh) w = (Ok (), w') /\ still w w' /\ inv ∅ w' /\
    mw_sent w' = mw_sent w ++ [status_message w sh].
Proof.
  intros Hi Hl. destruct (notify_status_inv ∅ (EncodeToString sh) (ex_intro _ sh eq_refl) w Hi) as ([] & w' & E & Hi').
  exists w'. split; [exact E|]. revert E. unfold notify_status.
  destruct (compute_status_run sorter ord sh (server_of w)) as (s & Ec & Hsubs); [apply Hi|done|apply Hi|].
  pose proof (tends_compute sorter ord sh (server_of w)) as Ht. rewrite Ec in Ht. cbn [snd] in Ht.
  assert (En : NotifyScripthashStatusHex sorter ord (EncodeToString sh) (server_of w) =
    (Ok (NotifyScripthash (EncodeToString sh) (status_now (mw_world w) sh) (mw_subs w)), s)).
  { unfold NotifyScripthashStatusHex. rewrite (st_bind_run _ _ _ _ _ Ec).
    rewrite (st_bind_run (st_gets sv_subs) _ s (sv_subs s) s) by done. rewrite Hsubs. done. }
  rewrite (st_bind_run _ _ _ _ _ (st_try_run _ _ _ _ (on_server_run _ _ _ _ En))).
  unfold NotifyScripthash. intros [= <-]. destruct Ht as (H1 & H2 & _).
  split_and!; [|done|done]. by split.
Qed.

Lemma mark_dirty_run l w : on_server (MarkScripthashDirtyMany l) w =
  (Ok (), served_as w (mkSWorld (mw_world w) (mw_subs w) (MarkDirtyMany l (mw_cache w)) 0)).
Proof. by apply on_server_run. Qed.

Lemma inv_dirty l w : inv (list_to_set l) w ->
  inv ∅ (served_as w (mkSWorld (mw_world w) (mw_subs w) (MarkDirtyMany l (mw_cache w)) 0)).
Proof. intros [[I1 I2] I3]. split; [by split|]. by apply coherent_dirty. Qed.

Lemma notify_affected_inv l : hexes l ->
  yields (inv (list_to_set l)) (notify_affected sorter ord l) (fun _ => inv ∅).
Proof.
  intros Hl w Hi. unfold notify_affected. destruct l as [|x l]; [by exists (), w|].
  rewrite (st_bind_run _ _ _ _ _ (mark_dirty_run (x :: l) w)).
  apply (yields_foldM (fun _ => inv ∅)); [|by apply inv_dirty]. intros b y Hy. apply notify_status_inv.
  unfold hexes in Hl. rewrite Forall_forall in Hl. by apply Hl.
Qed.

(** Each affected scripthash once, with the status it has now. *)
Lemma notify_affected_sent shs w : Forall (fun sh => length sh = 32%nat) shs ->
  inv (list_to_set (EncodeToString <$> shs)) w ->
  exists w', notify_affected sorter ord (EncodeToString <$> shs) w = (Ok (), w') /\ still w w' /\ inv ∅ w' /\
    mw_sent w' = mw_sent w ++ (status_message w <$> shs).
Proof.
  intros Hl Hi.
  assert (Hloop : forall l w0, Forall (fun sh => length sh = 32%nat) l -> inv ∅ w0 -> exists w',
    st_foldM (fun _ shHex => notify_status sorter ord shHex) () (EncodeToString <$> l) w0 = (Ok (), w') /\ still w0 w' /\
    inv ∅ w' /\ mw_sent w' = mw_sent w0 ++ (status_message w0 <$> l)).
  { induction l as [|sh l IH]; intros w0 H0 Hi0.
    { exists w0. split_and!; [done|done|done|by rewrite app_nil_r]. }
    apply Forall_cons in H0 as [Hsh H0]. rewrite !fmap_cons. cbn [st_foldM].
    destruct (notify_status_sent w0 sh Hi0 Hsh) as (w1 & E1 & S1 & I1 & M1). rewrite (st_bind_run _ _ _ _ _ E1).
    destruct (IH w1 H0 I1) as (w2 & E2 & S2 & I2 & M2). exists w2. split_and!; [done|by etrans|done|].
    rewrite M2, M1, <- app_assoc. apply (f_equal (app (mw_sent w0))), (f_equal (cons (status_message w0 sh))), list_fmap_ext. intros i sh' _. by apply still_message. }
  unfold notify_affected. destruct shs as [|sh shs].
  { exists w. split_and!; [done|done|done|by rewrite app_nil_r]. }
  rewrite fmap_cons. rewrite (st_bind_run _ _ _ _ _ (mark_dirty_run _ w)).
  destruct (Hloop (sh :: shs) _ Hl (inv_dirty (EncodeToString <$> sh :: shs) w Hi)) as (w' & E & S' & I' & M').
  exists w'. split_and!; [exact E| |done|exact M']. destruct S' as [S1 S2 S3 S4 S5 S6]. by split.
Qed.

(** *** Reconciling with the node's mempool *)

Definition hex_set (s : gset string) : Prop := forall x, x ∈ s -> exists sh, x = EncodeToString sh.

Lemma reconcile_txs_run valid l acc w : hex_set acc.2 ->
  exists acc' w', st_foldM (reconcile_tx ord valid) acc l w = (Ok acc', w') /\ hex_set acc'.2.
Proof.
  revert acc w; induction l as [|[i h] l IH]; intros acc w Ha; [by exists acc, w|]. cbn [st_foldM].
  destruct acc as [r a]. unfold reconcile_tx at 2. case_decide.
  { rewrite (st_bind_run _ _ w (r, a) w) by done. by apply IH. }
  destruct (remove_run ord (3 + i) h w) as (ks & w1 & E & _ & _ & Hks).
  rewrite (st_bind_run _ _ w (r + 1, list_to_set ks ∪ a) w1) by (by rewrite (st_bind_run _ _ _ _ _ E)).
  apply IH. cbn. intros x [Hx|Hx]%elem_of_union; [|by apply Ha].
  apply elem_of_list_to_set, Hks in Hx as (t & _ & (sh & -> & _)%list_elem_of_fmap). by exists sh.
Qed.

Lemma reconcile_outputs_hex valid l acc : hex_set acc.1.2 -> hex_set (foldl (reconcile_output valid) acc l).1.2.
Proof.
  revert acc; induction l as [|ka l IH]; intros acc Ha; [done|]. cbn [foldl]. apply IH.
  destruct acc as [[r a] m]. unfold reconcile_output. case_decide; [done|]. cbn.
  intros x [->%elem_of_singleton|Hx]%elem_of_union; [by eexists|by apply Ha].
Qed.

Lemma ReconcileWith_hexes valid w : exists n l w', ReconcileWith ord valid w = (Ok (n, l), w') /\ hexes l.
Proof.
  unfold ReconcileWith. rewrite (st_bind_run (st_gets w_mp) _ w (w_mp w) w) by done.
  destruct (reconcile_txs_run valid (indexed (range_map ord 0 (transactions (w_mp w))).*1) (0, ∅) w)
    as ([r a] & w1 & E & Ha); [by intros x Hx%elem_of_empty|]. rewrite (st_bind_run _ _ _ _ _ E).
  rewrite (st_bind_run (st_gets w_mp) _ w1 (w_mp w1) w1) by done.
  pose proof (reconcile_outputs_hex valid (range_map ord 1 (outputs (w_mp w1))) (r, a, w_mp w1) Ha) as Hh.
  destruct (foldl (reconcile_output valid) _ _) as [[r2 a2] m2]. do 3 eexists. split; [done|].
  apply Forall_forall. intros x Hx%elem_of_range_set. by apply Hh.
Qed.

(** A call of the node changes nothing. *)
Lemma rpc_inv {A} (f : nat -> result A) S w : inv S w ->
  exists w', on_chain (rpc f) w = (f (rw_calls (cm_rw (mw_cm w))), w') /\ inv S w' /\
    same_tip (mw_cm w) (mw_cm w').
Proof. intros [[H1 H2] H3]. eexists. split_and!; [done|by split|done..]. Qed.

Definition pending (affected : gset string) (w : mworld) : Prop := inv affected w /\ hex_set affected.

Lemma backfill_run b h : yields (pending b) (backfill_tx N M ord cfg clock fuel b h) pending.
Proof.
  intros w [Hi Hb]. unfold backfill_tx.
  rewrite (st_bind_run (st_gets _) _ w (w_mp (mw_world w)) w) by done.
  destruct (HasTx _ _); [by exists b, w|]. destruct (NewHashFromStr _) as [hash|e]; [|by exists b, w].
  destruct (rpc_inv (fun n => pn_GetRawTransaction M n hash) b w Hi) as (w1 & E1 & Hi1 & _).
  rewrite (st_bind_run _ _ _ _ _ (st_try_run _ _ _ _ E1)). destruct (pn_GetRawTransaction M _ hash) as [tx|e];
    [|by exists b, w1].
  destruct (IndexMempoolTx_run tx b w1 Hi1) as (r & w2 & E2 & l & -> & Hi2 & Hl).
  rewrite (st_bind_run _ _ _ _ _ E2). do 2 eexists. split; [done|].
  split; [done|]. intros x [Hx|Hx]%elem_of_union; [|by apply Hb].
  unfold hexes in Hl. rewrite Forall_forall in Hl. apply elem_of_list_to_set in Hx. by apply Hl.
Qed.

Lemma reconcileMempool_run : yields (inv ∅) (reconcileMempool N M ord cfg clock fuel) (fun r w' =>
  match r with Ok l => inv (list_to_set l) w' /\ hexes l | Err _ => inv ∅ w' end).
Proof.
  intros w Hi. destruct (rpc_inv (pn_GetRawMempool M) ∅ w Hi) as (w1 & E1 & Hi1 & _).
  unfold reconcileMempool. rewrite (st_bind_run _ _ _ _ _ (st_try_run _ _ _ _ E1)).
  destruct (pn_GetRawMempool M _) as [txids|e]; [|by do 2 eexists]. set (valid := list_to_set (hash_String <$> txids)).
  destruct (ReconcileWith_hexes valid (mw_world w1)) as (n & l & w2 & E2 & Hl).
  pose proof (ReconcileWith_same_data ord valid (mw_world w1) n l w2) as H1.
  pose proof (keepsW_ReconcileWith ord valid (mw_world w1)) as H2. rewrite E2 in H2. cbn [snd] in H2.
  assert (H3 : confirmed_same (contents (w_db (mw_world w1))) (contents (w_db w2))).
  { unfold ReconcileWith in E2.
    rewrite (st_bind_run (st_gets w_mp) _ _ (w_mp (mw_world w1)) (mw_world w1)) in E2 by done.
    apply st_bind_Ok in E2 as ([r a] & w3 & E3 & E2).
    destruct (reconcile_txs_kept _ _ _ _ _ _ _ "" E3) as (_ & _ & H3).
    rewrite (st_bind_run (st_gets w_mp) _ w3 (w_mp w3) w3) in E2 by done.
    destruct (foldl (reconcile_output valid) _ _) as [[r2 a2] m2]. by injection E2 as _ _ <-. }
  assert (E4 : on_chain (on_rw (rmp (ReconcileWith ord valid))) w1 = (Ok (n, l), with_world w1 w2)).
  { unfold on_chain. apply on_writer_run. unfold on_cm, on_rw, rmp.
    change (rw_world (cm_rw (ww_cm (mw_writer w1)))) with (mw_world w1). by rewrite E2. }
  rewrite (st_bind_run _ _ _ _ _ (st_try_run _ _ _ _ E4)). cbv beta iota.
  assert (Hp : pending (list_to_set l) (with_world w1 w2)).
  { split.
    - apply (inv_new_world _ w1 _ w2); [eapply inv_weaken; [|exact Hi1]; set_solver|done..|].
      intros sh _ Hn. apply H1; [done|]. set_solver.
    - intros x Hx%elem_of_list_to_set. unfold hexes in Hl. rewrite Forall_forall in Hl. by apply Hl. }
  destruct (yields_foldM pending (backfill_tx N M ord cfg clock fuel) txids (list_to_set l)
    (fun b x _ => backfill_run b x) _ Hp) as (a & w3 & E5 & Hi3 & Ha).
  rewrite (st_bind_run _ _ _ _ _ E5). do 2 eexists. split; [done|]. cbn. split.
  - eapply inv_weaken; [|exact Hi3]. intros x Hx. apply elem_of_list_to_set. by apply elem_of_range_set.
  - apply Forall_forall. intros x Hx%elem_of_range_set. by apply Ha.
Qed.

(** *** A block that connects *)

(** The next block of the chain, which the node has checked; nothing of its
    height is indexed yet. *)
Record connects (block : MsgBlock) (w : mworld) : Prop := {
  cn_prev : header_PrevBlock (block_Header block) = currentHash (mw_cm w);
  cn_height : 0 <= currentHeight (mw_cm w) < 2 ^ 31 - 1;
  cn_valid : valid_block block;
  cn_io : Z.of_nat (block_io block) < 2 ^ 32;
  cn_fresh s y z : length s = 32%nat ->
    contents (w_db (mw_world w)) !! hkey s (currentHeight (mw_cm w) + 1) y z = None;
  cn_overlay : overlay_agrees block (mw_world w);
}.

Lemma affects_same c c' txs sh : (forall k, head k <> Some PrefixUndo -> c' !! k = c !! k) ->
  block_affects c' txs sh <-> block_affects c txs sh.
Proof.
  intros H. unfold block_affects, input_owner.
  assert (E : forall i, (if IsCoinbaseInput i then None else c' !! tkey (op_Hash i) (op_Index i)) =
    (if IsCoinbaseInput i then None else c !! tkey (op_Hash i) (op_Index i))).
  { intros i. destruct (IsCoinbaseInput i); [done|by apply H]. }
  by setoid_rewrite E.
Qed.

Lemma connects_frame block w w' : same_tip (mw_cm w) (mw_cm w') -> undo_frame (mw_world w) (mw_world w') ->
  connects block w -> connects block w'.
Proof.
  intros (T1 & T2 & _) F [H1 H2 H3 H4 H5 H6]. split; [by rewrite T2|by rewrite T1|done|done| |].
  - intros s y z Hs. rewrite T1, (undo_frame_other _ _ _ F) by done. by apply H5.
  - intros tx t sh Htx. rewrite (proj2 F). intros Ht Hsh. apply (affects_same _ _ _ _ (fun k => undo_frame_other _ _ k F)). by eapply H6.
Qed.

Lemma ProcessBlock_tip n block w : working w -> header_PrevBlock (block_Header block) = currentHash w ->
  0 <= currentHeight w < 2 ^ 31 - 1 -> valid_block block -> Z.of_nat (block_io block) < 2 ^ 32 ->
  exists w1, IndexBlock ord block (currentHeight w + 1) (cm_world w) = (Ok (), w1) /\
    ProcessBlock N ord (Storage_MaxReorgDepth (cfg_Storage cfg)) (S n) block w =
      (Ok (currentHeight w + 1), with_tip (with_rw w (mkRWorld w1 (rw_calls (cm_rw w)))) (currentHeight w + 1) (block_hash block)) /\
    working (with_rw w (mkRWorld w1 (rw_calls (cm_rw w)))).
Proof.
  intros Hw Hp Hh Hv Hio. cbn [ProcessBlock]. rewrite (st_bind_run (st_gets id) _ w w w) by done. unfold id.
  rewrite (proj2 (hash_IsEqual_eq _ _) Hp). rewrite i32_id by (unfold in_i32; lia).
  destruct (index_step ord block (currentHeight w + 1) w) as (w1 & E1 & E2 & Hw1 & _);
    [done|lia|unfold in_i32; lia|done..|].
  rewrite (st_bind_run _ _ _ _ _ (proj2 (st_wrap_Ok _ _ _ _ _) E2)). by exists w1.
Qed.

(** Collecting leaves the overlay. *)
Lemma collect_overlay block : st_rel (fun w w' => w_mp (cm_world w') = w_mp (cm_world w))
  (collectAffectedScripthashes ord block).
Proof.
  assert (HP : PreOrder (fun w w' => w_mp (cm_world w') = w_mp (cm_world w)))
    by (split; [done|intros a b c H1 H2; by rewrite H2]).
  assert (Hdb : forall A (m : st pdb A), st_rel (fun w w' => w_mp (cm_world w') = w_mp (cm_world w)) (on_db m)).
  { intros A m w. unfold on_db, on_rw, rdb, in_db. by destruct (m _). }
  unfold collectAffectedScripthashes, affected_tx, affected_input.
  repeat first [progress solve_rel | apply st_rel_try | apply st_rel_foldM; [apply _|] | apply Hdb].
Qed.

Lemma affects_length c txs sh : typed_db c -> block_affects c txs sh -> length sh = 32%nat.
Proof.
  intros Ht (tx & _ & [(i & _ & E)|(o & _ & _ & ->)]); [|apply length_ComputeScripthash].
  unfold input_owner in E. destruct (IsCoinbaseInput i); [done|].
  apply Ht in E; [|apply confirmed_tkey]. by apply bool_decide_eq_true in E.
Qed.

Lemma hexes_list (Q : bytes -> Prop) l : NoDup l -> (forall x, x ∈ l <-> exists sh, Q sh /\ x = EncodeToString sh) ->
  exists shs, l = EncodeToString <$> shs /\ NoDup shs /\ forall sh, sh ∈ shs <-> Q sh.
Proof.
  intros Hnd Hl.
  assert (exists shs, l = EncodeToString <$> shs) as [shs ->].
  { assert (Hh : hexes l) by (apply Forall_forall; intros x Hx; apply Hl in Hx as (sh & _ & ->); by exists sh).
    clear Hl Hnd. induction Hh as [|x l [sh ->] _ [shs ->]]; [by exists []|by exists (sh :: shs)]. }
  exists shs. split_and!; [done|by eapply NoDup_fmap_1|]. intros sh. rewrite <- (list_elem_of_fmap_inj EncodeToString), Hl.
  split; [|intros; by exists sh]. by intros (sh' & Hs & ->%(inj EncodeToString)).
Qed.

(** The writer's answer to a connecting block, and what it leaves pending. *)
Lemma block_job_run n block w : fuel = S n -> inv ∅ w -> connects block w ->
  exists shs w1 w', writer_job N ord cfg clock fuel (IndexBlock_job (Some block) 0) w =
      (Ok (mkWriteResult (currentHeight (mw_cm w) + 1) (EncodeToString <$> shs) None), w') /\
    NoDup shs /\ (forall sh, sh ∈ shs <-> block_affects (contents (w_db (mw_world w))) (block_Transactions block) sh) /\
    undo_frame (mw_world w) w1 /\ IndexBlock ord block (currentHeight (mw_cm w) + 1) w1 = (Ok (), mw_world w') /\
    same_server w w' /\ mw_prunes w' = mw_prunes w /\
    currentHeight (mw_cm w') = currentHeight (mw_cm w) + 1 /\ currentHash (mw_cm w') = block_hash block /\
    inv (list_to_set (EncodeToString <$> shs)) w'.
Proof.
  intros Hn [I1 I2] Hc.
  destruct (affected_scripthashes_exact ord block (mw_cm w) I1) as (l & c1 & E1 & Hnd & ((T1 & T2 & T3 & T4) & Hw1 & Hc1) & Hl & _).
  pose proof (collect_overlay block (mw_cm w)) as Hm1. rewrite E1 in Hm1. cbn [snd] in Hm1.
  change (cm_world (mw_cm w)) with (mw_world w) in *.
  destruct (hexes_list _ l Hnd Hl) as (shs & -> & Hnds & Hshs).
  destruct (ProcessBlock_tip n block c1) as (w2 & Ei & Ep & Hw2);
    [done|by rewrite T2; apply Hc|rewrite T1; apply Hc|apply Hc|apply Hc|].
  rewrite T1 in Ei, Ep. set (h := currentHeight (mw_cm w) + 1) in *.
  set (c2 := with_tip _ h _) in Ep.
  set (ww' := mkWWorld c2 (i64 (blocksIndexed (mw_writer w) + 1)) (mempoolTxsAdded (mw_writer w))
    (Some (clock (ww_jobs (mw_writer w)))) (S (ww_jobs (mw_writer w)))).
  assert (Ew : run_job N ord (Storage_MaxReorgDepth (cfg_Storage cfg)) clock fuel (IndexBlock_job (Some block) 0) (mw_writer w) =
    (JobReturns (mkWriteResult h (EncodeToString <$> shs) None), ww')).
  { unfold run_job, processJob. cbn [wj_jobType IndexBlock_job wj_block]. unfold processBlockJob.
    rewrite (st_bind_run (on_cm _) _ (mw_writer w) (EncodeToString <$> shs)
      (mkWWorld c1 (blocksIndexed (mw_writer w)) (mempoolTxsAdded (mw_writer w)) (lastBlockTime (mw_writer w)) (ww_jobs (mw_writer w))))
      by (unfold on_cm; change (ww_cm (mw_writer w)) with (mw_cm w); by rewrite E1).
    rewrite Hn. unfold mbind, st_bind, st_try, on_cm. cbn [ww_cm]. by rewrite Ep. }
  exists shs, (cm_world c1), (with_writer w ww'). split; [by apply on_writer_run; rewrite Ew|].
  assert (Hf : undo_frame (mw_world w) (cm_world c1)) by (split; [intros k; left; by rewrite Hc1|done]).
  split_and!; try done.
  - split; [destruct Hw2; by split|]. cbn [with_writer mw_cache].
    apply (coherent_change _ _ _ _ (cm_world c1)).
    { apply (coherent_change _ _ _ _ (mw_world w)); [eapply coherent_weaken; [|done]; set_solver|].
      intros sh _ _. by apply undo_frame_data. }
    intros sh Hsh Hnot. eapply (IndexBlock_same_data ord block h); [exact Ei|apply Hc| | | |done|].
    + pose proof (cn_height _ _ Hc). unfold in_i32, h. lia.
    + intros s y z Hs. rewrite Hc1. by apply (cn_fresh _ _ Hc).
    + intros tx t s Htx. rewrite Hm1, Hc1. apply (cn_overlay _ _ Hc tx t s Htx).
    + rewrite Hc1. intros Ha%Hshs. apply Hnot, elem_of_list_to_set. by apply list_elem_of_fmap_2.
Qed.

(** What the event of a connecting block does. *)
Record announced (block : MsgBlock) (w w' : mworld) (shs : list bytes) : Prop := {
  an_height : currentHeight (mw_cm w') = currentHeight (mw_cm w) + 1;
  an_hash : currentHash (mw_cm w') = block_hash block;
  an_indexed : exists w0 w1, undo_frame (mw_world w) w0 /\
    IndexBlock ord block (currentHeight (mw_cm w) + 1) w0 = (Ok (), w1) /\
    contents (w_db (mw_world w')) = contents (w_db w1) /\ w_mp (mw_world w') = w_mp w1;
  an_nodup : NoDup shs;
  an_affected sh : sh ∈ shs <-> block_affects (contents (w_db (mw_world w))) (block_Transactions block) sh;
  an_sent : exists header, header_Serialize (block_Header block) = Ok header /\
    mw_sent w' = mw_sent w ++
      NewBlock (headerSubs (mw_subs w)) (currentHeight (mw_cm w) + 1) (EncodeToString header) ::
      (status_message w' <$> shs);
  an_subs : mw_subs w' = mw_subs w;
  an_prunes : mw_prunes w' =
    if Z.rem (i64 (blocksProcessed w + 1)) (Indexer_UndoPruneInterval (cfg_Indexer cfg)) =? 0 then 1%nat else 0%nat;
}.

Lemma flush_prunes_none w w' : flush_prunes N ord cfg clock fuel w = (Ok (), w') -> mw_prunes w' = 0%nat.
Proof.
  unfold flush_prunes. rewrite (st_bind_run (st_gets mw_prunes) _ w (mw_prunes w) w) by done.
  intros ([] & w1 & _ & E)%st_bind_Ok. by injection E as <-.
Qed.

Lemma block_event_run n block w : fuel = S n -> inv ∅ w -> connects block w ->
  exists shs w', main_event N M sorter ord cfg clock fuel (EvBlock (Some block)) w = (Ok continue, w') /\
    announced block w w' shs /\ inv ∅ w'.
Proof.
  intros Hn Hi Hc. cbn [main_event]. unfold on_block.
  destruct (flush_working w) as (w1 & E1 & H1); [apply Hi|]. pose proof (flush_prunes_none _ _ E1) as Hp1.
  pose proof (inv_pruned ∅ w w1 H1 Hi) as Hi1.
  destruct H1 as ((S1 & S2 & S3 & S4 & S5) & T1 & F1 & _).
  pose proof (connects_frame block w w1 T1 F1 Hc) as Hc1.
  destruct (block_job_run n block w1 Hn Hi1 Hc1)
    as (shs & w0 & w2 & E2 & Hnd & Haff & Hf & Ei & (U1 & U2 & U3 & U4 & U5) & Hp2 & Hh & Hhash & Hi2).
  assert (Eh : currentHeight (mw_cm w1) = currentHeight (mw_cm w)) by apply T1. rewrite Eh in E2, Ei, Hh.
  set (h := currentHeight (mw_cm w) + 1) in *.
  assert (E3 : writer_IndexBlock N ord cfg clock fuel block w = (Ok (Ok (h, EncodeToString <$> shs)), w2)).
  { unfold writer_IndexBlock. by rewrite (st_bind_run _ _ _ _ _ E1), (st_bind_run _ _ _ _ _ E2). }
  rewrite (st_bind_run _ _ _ _ _ E3).
  destruct (header_Serialize (block_Header block)) as [header|] eqn:Eser;
    [|pose proof (vb_header _ (cn_valid _ _ Hc)) as Hs; by rewrite Eser in Hs].
  set (w3 := mkMWorld (mw_writer w2) (mw_prunes w2) (mw_subs w2) (mw_cache w2) (mw_sent w2) (i64 (blocksProcessed w2 + 1)) (txsIndexed w2)).
  rewrite (st_bind_run count_block _ w2 () w3) by done. cbv beta iota.
  set (w4 := mkMWorld (mw_writer w3) (mw_prunes w3) (mw_subs w3) (mw_cache w3)
    (mw_sent w3 ++ [NewBlock (headerSubs (mw_subs w3)) h (EncodeToString header)]) (blocksProcessed w3) (txsIndexed w3)).
  rewrite (st_bind_run (server_NotifyNewBlock _ _) _ w3 () w4) by done.
  destruct (notify_affected_sent shs w4) as (w5 & E5 & [L1 L2 L3 L4 L5 L6] & Hi5 & Hsent).
  { apply Forall_forall. intros sh Hsh%Haff. by eapply affects_length; [apply Hi1|]. }
  { destruct Hi2. by split. }
  rewrite (st_bind_run _ _ _ _ _ E5). rewrite (st_bind_run (st_gets blocksProcessed) _ w5 (blocksProcessed w5) w5) by done.
  rewrite L3. change (blocksProcessed w4) with (i64 (blocksProcessed w2 + 1)). rewrite U4, S4.
  set (due := Z.rem _ _ =? 0).
  assert (exists w6, (if due then TriggerPrune else mret ()) w5 = (Ok (), w6) /\
    w6 = mkMWorld (mw_writer w5) (if due then 1%nat else 0%nat) (mw_subs w5) (mw_cache w5) (mw_sent w5) (blocksProcessed w5) (txsIndexed w5))
    as (w6 & E6 & ->).
  { assert (Hp5 : mw_prunes w5 = 0%nat) by (rewrite L2; cbn; by rewrite Hp2).
    destruct due; eexists; (split; [|reflexivity]).
    - unfold TriggerPrune, set_prunes, st_modify. by rewrite Hp5.
    - rewrite <- Hp5. by destruct w5. }
  rewrite (st_bind_run _ _ _ _ _ E6). do 2 eexists. split; [done|]. split; [|destruct Hi5; by split].
  split; try done.
  - etrans; [apply L4|exact Hh].
  - etrans; [apply L4|exact Hhash].
  - exists w0, (mw_world w2). split_and!; [|done|done|done].
    by etrans.
  - intros sh. rewrite Haff. apply affects_same. intros k. by apply undo_frame_other.
  - exists header. split; [done|]. cbn [mw_sent]. rewrite Hsent. cbn [mw_sent w4]. rewrite <- app_assoc.
    change (mw_sent w3) with (mw_sent w2). change (mw_subs w3) with (mw_subs w2). rewrite U3, S3, U1, S1.
    apply (f_equal (app (mw_sent w))), (f_equal (cons _)), list_fmap_ext. intros i sh _.
    symmetry. change (status_message w5 sh = status_message w4 sh). apply still_message. by split.
  - cbn. by rewrite L1, <- S1, <- U1.
Qed.

(** *** The other events *)

Lemma tx_event_run tx : yields (inv ∅) (on_tx N sorter ord cfg clock fuel tx) (fun _ => inv ∅).
Proof.
  intros w Hi. unfold on_tx. destruct (IndexMempoolTx_run tx ∅ w Hi) as (r & w1 & E1 & l & -> & Hi1 & Hl).
  rewrite (st_bind_run _ _ _ _ _ E1).
  rewrite (st_bind_run count_tx _ w1 () (mkMWorld (mw_writer w1) (mw_prunes w1) (mw_subs w1) (mw_cache w1) (mw_sent w1)
    (blocksProcessed w1) (i64 (txsIndexed w1 + 1)))) by done.
  destruct (notify_affected_inv l Hl (mkMWorld (mw_writer w1) (mw_prunes w1) (mw_subs w1) (mw_cache w1) (mw_sent w1)
    (blocksProcessed w1) (i64 (txsIndexed w1 + 1)))) as (u & w2 & E2 & Hi2).
  { eapply inv_weaken; [|destruct Hi1; split; [done|]; eassumption]. set_solver. }
  rewrite (st_bind_run _ _ _ _ _ E2). by exists continue, w2.
Qed.

Lemma recon_event_run : yields (inv ∅) (on_recon_tick N M sorter ord cfg clock fuel) (fun _ => inv ∅).
Proof.
  intros w Hi. unfold on_recon_tick. destruct (reconcileMempool_run w Hi) as (r & w1 & E1 & H1).
  rewrite (st_bind_run _ _ _ _ _ E1). destruct r as [l|e]; [|by exists continue, w1]. destruct H1 as [Hi1 Hl].
  destruct (notify_affected_inv l Hl w1 Hi1) as (u & w2 & E2 & Hi2).
  rewrite (st_bind_run _ _ _ _ _ E2). by exists continue, w2.
Qed.

Lemma prune_event_run : yields (inv ∅) (run_queued_prune N ord cfg clock fuel) (fun _ => inv ∅).
Proof.
  intros w Hi. unfold run_queued_prune. rewrite (st_bind_run (st_gets mw_prunes) _ w (mw_prunes w) w) by done.
  destruct (mw_prunes w) as [|k]; [by exists continue, w|].
  rewrite (st_bind_run (set_prunes _) _ w () (mkMWorld (mw_writer w) k (mw_subs w) (mw_cache w) (mw_sent w)
    (blocksProcessed w) (txsIndexed w))) by done.
  destruct (prune_job_run (mkMWorld (mw_writer w) k (mw_subs w) (mw_cache w) (mw_sent w) (blocksProcessed w) (txsIndexed w)))
    as (r & w1 & E1 & H1 & _ & Hr).
  destruct r as [r|e]; [|destruct Hi as [Hi _]; by specialize (Hr Hi)].
  rewrite (st_bind_run _ _ _ _ _ E1). exists continue, w1. split; [done|].
  eapply inv_pruned; [exact H1|]. destruct Hi. by split.
Qed.

(** Events the loop announces, or that change nothing a client sees. *)
Definition quiet_event (e : event) (w : mworld) : Prop :=
  match e with
  | EvBlock (Some block) => connects block w
  | EvGap (Some _) => False
  | EvReorgTick =>
      match node_count N (rw_calls (cm_rw (mw_cm w))) with
      | Ok tip => i32 tip <= currentHeight (mw_cm w)
      | Err _ => True
      end
  | _ => True
  end.

Lemma event_inv n e w : fuel = S n -> quiet_event e w -> inv ∅ w ->
  inv ∅ (main_event N M sorter ord cfg clock fuel e w).2.
Proof.
  intros Hn Hq Hi. destruct e as [|[b|]|[tx|]|[g|]| | | | |]; cbn [main_event quiet_event] in *; try done.
  - destruct (block_event_run n b w Hn Hi Hq) as (shs & w' & E & _ & H). cbn [main_event] in E. by rewrite E.
  - destruct (tx_event_run tx w Hi) as (r & w' & E & H). by rewrite E.
  - destruct Hi as [H1 H2]. by split.
  - destruct (rpc_inv (node_count N) ∅ w Hi) as (w1 & E1 & Hi1 & T1 & _).
    unfold on_reorg_tick, GetBlockCount.
    rewrite (st_bind_run _ _ _ _ _ (st_try_run _ _ _ _ E1)).
    destruct (node_count N _) as [tip|]; [|done].
    rewrite (st_bind_run (on_chain GetCurrentHeight) _ w1 (currentHeight (mw_cm w1)) w1) by (by destruct w1 as [[[]]]).
    rewrite T1. destruct (Z.ltb_spec (currentHeight (mw_cm w)) (i32 tip)); [lia|done].
  - destruct (recon_event_run w Hi) as (r & w' & E & H). by rewrite E.
  - destruct (prune_event_run w Hi) as (r & w' & E & H). by rewrite E.
Qed.

(** One event, one line of a client, the end of a connection. *)
Inductive live_step : relation mworld :=
| ls_event e w : quiet_event e w -> live_step w (main_event N M sorter ord cfg clock fuel e w).2
| ls_request (R : rpc_node B) (C : platform) (StringWidth : string -> Z) (config_StartHeight : Z) writer line w :
    live_step w (on_server (serve_line R C sorter ord StringWidth config_StartHeight writer line) w).2
| ls_disconnect writer w : live_step w (on_server (on_subs (Unsubscribe ord writer)) w).2.

Lemma on_server_inv {A} (c : st sworld A) S w : st_rel (tends sorter ord) c -> inv S w -> inv S (on_server c w).2.
Proof.
  intros Hc Hi. specialize (Hc (server_of w)). destruct (c (server_of w)) as [r s] eqn:E.
  rewrite (on_server_run _ _ _ _ E). by apply inv_served.
Qed.

Lemma live_inv n w w' : fuel = S n -> rtc live_step w w' -> inv ∅ w -> inv ∅ w'.
Proof.
  intros Hn. induction 1 as [|w w1 w' Hs _ IH]; [done|]. intros Hi. apply IH. destruct Hs.
  - by eapply event_inv.
  - apply on_server_inv; [|done]. apply (request_rel sorter ord (tends sorter ord) writer).
  - apply on_server_inv; [|done]. intros s. by apply tends_same.
Qed.

(** C14: the server gives out current statuses: from a working database with
    nothing cached, after any sequence of connecting blocks, transactions,
    reconciliations, prunes, lines of clients and disconnections, the status of a
    scripthash that the server answers with, cached or not, is the one computed
    from the database and the overlay of that moment. *)
Theorem served_statuses_current (n : nat) (w0 w : mworld) (sh : bytes)
    (Hfuel : fuel = S n) (Hw : working (mw_cm w0)) (Hcache : mw_cache w0 = NewStatusCache)
    (Hreach : rtc live_step w0 w) (Hl : length sh = 32%nat) :
  exists status,
    reads (ComputeScripthashStatus sorter ord (w_mp (mw_world w)) sh) (w_db (mw_world w)) status /\
    (on_server (ComputeScripthashStatusHex sorter ord (EncodeToString sh)) w).1 = Ok status.
Proof.
  assert (Hi : inv ∅ w).
  { eapply live_inv; [done..|]. split; [done|]. rewrite Hcache. apply coherent_new. }
  exists (status_now (mw_world w) sh). split; [by apply status_now_reads; [apply Hi|]|].
  destruct (compute_status_run sorter ord sh (server_of w)) as (s & E & _); [apply Hi|done|apply Hi|].
  by rewrite (on_server_run _ _ _ _ E).
Qed.

(** C15: a block is announced to whom it concerns: when the next block of the
    chain arrives, the loop goes on, the tip is the block and it is indexed (on a
    database from which only undo records may have gone); the subscribers of
    headers receive its height and header, and then, for each scripthash that it
    pays or whose confirmed output it spends, and for no other, the subscribers
    receive the status the scripthash has with the block, once; a prune is queued
    as often as configured. *)
Theorem block_event_announced (n : nat) (block : MsgBlock) (w : mworld)
    (Hfuel : fuel = S n) (Hi : inv ∅ w) (Hc : connects block w) :
  exists shs w', main_event N M sorter ord cfg clock fuel (EvBlock (Some block)) w = (Ok continue, w') /\
    announced block w w' shs.
Proof. destruct (block_event_run n block w Hfuel Hi Hc) as (shs & w' & H1 & H2 & _). by exists shs, w'. Qed.

(** *** What is not announced *)

(** The tip check when the node is ahead. *)
Lemma tip_check_run (nb : Z -> MsgBlock) (top : Z) (n : nat) (w : mworld)
    (HS : serves N nb top) (Hbig : top <= 2 ^ 30) (Hfuel : fuel = S n)
    (Hh : 0 <= currentHeight (mw_cm w) < top) (Hs : 1 <= startHeight (mw_cm w) <= currentHeight (mw_cm w) + 1)
    (Ht : tip_on nb (currentHeight (mw_cm w)) (mw_cm w)) (Hw : working (mw_cm w))
    (Hp : pruneHeight (mw_cm w) <= currentHeight (mw_cm w)) :
  exists w', main_event N M sorter ord cfg clock fuel EvReorgTick w = (Ok continue, w') /\
    tip_on nb top (mw_cm w') /\ working (mw_cm w') /\
    (forall h, startHeight (mw_cm w) <= h <= top -> has_header (mw_world w') h) /\
    same_server w w'.
Proof.
  cbn [main_event]. unfold on_reorg_tick. pose proof (sv_top _ _ _ HS) as Htop.
  set (w1 := with_writer w (mkWWorld (called (mw_cm w)) (blocksIndexed (mw_writer w)) (mempoolTxsAdded (mw_writer w))
    (lastBlockTime (mw_writer w)) (ww_jobs (mw_writer w)))).
  assert (E1 : on_chain (GetBlockCount N) w = (Ok top, w1)).
  { unfold on_chain. apply on_writer_run. unfold on_cm, GetBlockCount, rpc, on_rw.
    by rewrite (sv_count _ _ _ HS). }
  rewrite (st_bind_run _ _ _ _ _ (st_try_run _ _ _ _ E1)).
  rewrite (st_bind_run (on_chain GetCurrentHeight) _ w1 (currentHeight (mw_cm w)) w1) by done.
  rewrite i32_id by (unfold in_i32; lia).
  destruct (Z.ltb_spec (currentHeight (mw_cm w)) top) as [_|]; [|lia].
  pose proof (CatchUpToTip_run N ord (Storage_MaxReorgDepth (cfg_Storage cfg)) nb top (called (mw_cm w)) n
    HS Hbig ltac:(cbn; lia) Hs Ht ltac:(by apply (working_same (mw_cm w)))) as H.
  change (currentHeight (called (mw_cm w))) with (currentHeight (mw_cm w)) in H.
  change (pruneHeight (called (mw_cm w))) with (pruneHeight (mw_cm w)) in H.
  assert ((0 <? pruneHeight (mw_cm w)) && (currentHeight (mw_cm w) <? pruneHeight (mw_cm w)) = false) as E
    by (destruct (Z.ltb_spec (currentHeight (mw_cm w)) (pruneHeight (mw_cm w))); [lia|by rewrite andb_false_r]).
  rewrite E in H. destruct H as (c' & E2 & T2 & W2 & _ & H2).
  unfold catch_up. rewrite Hfuel.
  assert (E3 : on_chain (CatchUpToTip N ord (Storage_MaxReorgDepth (cfg_Storage cfg)) (S n)) w1 =
    (Ok (), with_writer w1 (mkWWorld c' (blocksIndexed (mw_writer w)) (mempoolTxsAdded (mw_writer w))
      (lastBlockTime (mw_writer w)) (ww_jobs (mw_writer w))))).
  { unfold on_chain. apply on_writer_run. unfold on_cm. cbn [w1 with_writer mw_writer ww_cm]. by rewrite E2. }
  rewrite (st_bind_run _ _ _ _ _ (st_try_run _ _ _ _ E3)). eexists. split; [done|]. by split_and!.
Qed.

(** C21: catching up is complete and silent: when the periodic tip check finds
    the node ahead, on a node that serves the chain and has not pruned what is
    missing, the loop goes on with its tip at the node's, and every height from
    the start height has its header; but nothing is sent to anyone, and the
    cached statuses stay as they were, clean or dirty, whatever the blocks that
    were caught up changed. *)
Theorem tip_check_catches_up_silently (nb : Z -> MsgBlock) (top : Z) (n : nat) (w : mworld)
    (HS : serves N nb top) (Hbig : top <= 2 ^ 30) (Hfuel : fuel = S n)
    (Hh : 0 <= currentHeight (mw_cm w) < top) (Hs : 1 <= startHeight (mw_cm w) <= currentHeight (mw_cm w) + 1)
    (Ht : tip_on nb (currentHeight (mw_cm w)) (mw_cm w)) (Hw : working (mw_cm w))
    (Hp : pruneHeight (mw_cm w) <= currentHeight (mw_cm w)) :
  exists w', main_event N M sorter ord cfg clock fuel EvReorgTick w = (Ok continue, w') /\
    tip_on nb top (mw_cm w') /\ working (mw_cm w') /\
    (forall h, startHeight (mw_cm w) <= h <= top -> has_header (mw_world w') h) /\
    same_server w w'.
Proof. by eapply tip_check_run. Qed.

End Live.
