(* ===== verification/LiveSample.v ===== *)
(** * A run of the main loop

    The sample chain of [BlockProps] and the node of [ChainSample], with one
    client that subscribes: the witnesses of [LiveProps], and runs that show what
    the loop's clients are told wrongly. *)

From Stdlib Require Import Strings.Byte.
From S2P Require Import Prelude Bytes Hex Keys Values Json Checkpoint Pebble Store Sha256 Types Mempool MempoolFacts MempoolProps Block BlockFacts BlockOps BlockProps Reorg ReorgFacts ReorgProps ChainFacts ReorgChain Query QueryFacts QueryProps Server ServerProps Typed Total Steps Chain Follow FollowProps Gaps GapProps ChainSample Writer WriterProps GoFloat Rpc RpcProps Config ConfigProps Live LiveFacts LiveProps.

Definition sample_sh : bytes := ComputeScripthash sample_script.

Definition sample_pool : @pool_node ModelBtcd :=
  mkPoolNode (fun _ => Ok []) (fun _ _ => Err (ENew "no such transaction")).

(** One block behind, a prune queued, and a client subscribed to headers and to
    a scripthash. *)
Definition sample_main : @mworld MemPebble ModelBtcd :=
  mkMWorld (mkWWorld manager1 0 0 None 0) 1
    (SubscribeHeaders 1%positive (SubscribeScripthash 1%positive (EncodeToString sample_sh) NewSubscriptionManager))
    NewStatusCache [] 0 0.

Definition sample_event (e : event) : st mworld outcome :=
  main_event sample_node sample_pool merge_sorter id_order sample_config sample_clock 2 e.

Lemma sample_inv w : working (mw_cm w) -> mw_cache w = NewStatusCache -> inv merge_sorter id_order ∅ w.
Proof. intros Hw Hc. split; [done|]. rewrite Hc. apply coherent_new. Qed.

Lemma sample_connects : connects block2 sample_main.
Proof.
  split; [reflexivity|split; [discriminate|reflexivity]| |reflexivity|exact (fr_hist _ _ _ block2_fresh)|].
  - split; [reflexivity|by repeat constructor|apply (bool_decide_eq_true_1 _); vm_compute; reflexivity].
  - intros tx t sh _ Ht. exfalso.
    assert (E : transactions (w_mp (mw_world sample_main)) = ∅) by (apply (bool_decide_eq_true_1 _); vm_compute; reflexivity).
    rewrite E, lookup_empty in Ht. discriminate Ht.
Qed.

(** The client's line. *)
Definition subscribe_line : bytes :=
  text "{'id':1,'method':'blockchain.scripthash.subscribe','params':['" ++
  bytes_of_string (EncodeToString sample_sh) ++ text "']}".

Definition sample_serve (w : mworld) : mworld :=
  (on_server (serve_line sample_rpc_node amd64 merge_sorter id_order (fun s => Z.of_nat (slen s)) 0 1%positive
     subscribe_line) w).2.

(** The block comes, the client asks, and the overlay is reconciled. *)
Definition sample_run1 : mworld := (sample_event (EvBlock (Some block2)) sample_main).2.
Definition sample_run2 : mworld := sample_serve sample_run1.
Definition sample_run3 : mworld := (sample_event EvReconTick sample_run2).2.

Lemma sample_run_steps :
  rtc (live_step sample_node sample_pool merge_sorter id_order sample_config sample_clock 2) sample_main sample_run3.
Proof.
  refine (rtc_l _ _ _ _ (ls_event _ _ _ _ _ _ _ (EvBlock (Some block2)) sample_main sample_connects) _).
  refine (rtc_l _ _ _ _ (ls_request _ _ _ _ _ _ _ sample_rpc_node amd64 _ _ _ _ sample_run1) _).
  exact (rtc_once _ _ (ls_event _ _ _ _ _ _ _ EvReconTick sample_run2 I)).
Qed.

Lemma served_statuses_current_witness : exists status,
  reads (ComputeScripthashStatus merge_sorter id_order (w_mp (mw_world sample_run3)) sample_sh)
    (w_db (mw_world sample_run3)) status /\
  (on_server (ComputeScripthashStatusHex merge_sorter id_order (EncodeToString sample_sh)) sample_run3).1 = Ok status.
Proof.
  apply (served_statuses_current sample_node sample_pool merge_sorter id_order sample_config sample_clock 2
    1 sample_main sample_run3 sample_sh eq_refl manager1_working eq_refl sample_run_steps (length_ComputeScripthash _)).
Defined.

Lemma block_event_announced_witness : exists shs w',
  sample_event (EvBlock (Some block2)) sample_main = (Ok continue, w') /\
  announced merge_sorter id_order sample_config block2 sample_main w' shs.
Proof.
  apply (block_event_announced sample_node sample_pool merge_sorter id_order sample_config sample_clock 2
    1 block2 sample_main eq_refl (sample_inv sample_main manager1_working eq_refl) sample_connects).
Defined.

Lemma tip_check_catches_up_silently_witness : exists w',
  sample_event EvReorgTick sample_main = (Ok continue, w') /\ tip_on node_chain 3 (mw_cm w') /\
  same_server sample_main w'.
Proof.
  destruct (tip_check_catches_up_silently sample_node sample_pool merge_sorter id_order sample_config sample_clock 2
    node_chain 3 1 sample_main sample_serves) as (w' & H1 & H2 & _ & _ & H3);
    [lia|reflexivity|cbn; lia|cbn; lia|split; reflexivity|exact manager1_working|cbn; lia|].
  exists w'. split; [exact H1|]. split; [exact H2|exact H3].
Defined.

(** ** What clients are told wrongly *)

Definition sample_status (w : mworld) : option string :=
  to_option (on_server (ComputeScripthashStatusHex merge_sorter id_order (EncodeToString sample_sh)) w).1.

Definition sample_truth (w : mworld) : string := status_now merge_sorter id_order (mw_world w) sample_sh.

Definition sample_asked : mworld :=
  (on_server (ComputeScripthashStatusHex merge_sorter id_order (EncodeToString sample_sh)) sample_main).2.
Definition sample_ticked : mworld := (sample_event EvReorgTick sample_asked).2.

(** The node's blocks pay the client's scripthash.  Once a status was computed,
    the tip check that indexes them leaves it in place: the client is told
    nothing, and a new subscription answers with the old status. *)
Lemma stale_status_after_tip_check :
  currentHeight (mw_cm sample_ticked) = 3 /\ mw_sent sample_ticked = [] /\
  sample_status sample_ticked = sample_status sample_main /\
  sample_status sample_ticked <> Some (sample_truth sample_ticked).
Proof.
  split_and!.
  - vm_compute. reflexivity.
  - vm_compute. reflexivity.
  - vm_compute. reflexivity.
  - vm_compute. discriminate.
Qed.

(** The unspent outputs of a scripthash as the client sees them: transaction,
    index and height. *)
Definition sample_unspent (w : mworld) (sh : bytes) : list (string * Z * Z) :=
  match (GetScripthashUnspent id_order (w_mp (mw_world w)) sh (w_db (mw_world w))).1 with
  | Ok l => (fun u => (ui_tx_hash u, ui_tx_pos u, ui_height u)) <$> l
  | Err _ => []
  end.

Definition sample_readded : mworld := (sample_event (EvTx (Some (spender x21 x10))) sample_run1).2.

(** The node publishes the transactions of a new block on the transaction stream
    too; one that is taken after its block is put back into the overlay, and its
    output is listed as confirmed and as unconfirmed. *)
Lemma confirmed_tx_listed_twice :
  let sh := ComputeScripthash sample_script2 in
  let txid := EncodeToString (replicate 32 x21) in
  filter (fun u => u.1.1 = txid) (sample_unspent sample_run1 sh) = [(txid, 0, 2)] /\
  filter (fun u => u.1.1 = txid) (sample_unspent sample_readded sh) = [(txid, 0, 2); (txid, 0, 0)].
Proof.
  cbv zeta. split; apply (bool_decide_eq_true_1 _); vm_compute; reflexivity.
Qed.
