(* ===== verification/StartupProps.v ===== *)
(** * Start-up as a whole: properties

    From a fresh or a saved database, [start_chain] finds the tip, the overlay is
    reconciled with the node's mempool, and [CatchUpToTip] completes the index;
    what it leaves is where the theorems on the main loop begin. *)

From Stdlib Require Import Strings.Byte.
From S2P Require Import Prelude Bytes Hex Keys Values Json Checkpoint Pebble Store Sha256 Types Mempool MempoolFacts MempoolProps Block BlockFacts BlockOps BlockProps Reorg ReorgFacts ReorgProps ChainFacts ReorgChain Query QueryFacts QueryProps Server ServerProps Typed Total Steps Chain Follow FollowProps Gaps GapProps ChainSample Writer WriterProps GoFloat Rpc RpcProps Config ConfigProps Live LiveFacts LiveProps LiveSample.

Section Props.
Context {P : Pebble} {PL : PebbleLaws P} {PH : PebbleHealthy P PL} {B : Btcd} {BL : BtcdLaws B} {T : BtcdTx}.
Context {Zs : Zstd} {ZL : ZstdLaws Zs}.
Context (N : node) (M : pool_node) (sorter : slice_sort) (ord : range_order) (cfg : Config).
Context (clock : nat -> Z) (fuel : nat).

(** ** What reconciling leaves alone *)

(** The manager's fields and the cache stay. *)
Definition boot (w w' : mworld) : Prop := same_tip (mw_cm w) (mw_cm w') /\ mw_cache w' = mw_cache w.

#[export] Instance boot_preorder : PreOrder boot.
Proof.
  split; [by intros w|]. intros a b c [H1 H2] [E1 E2]. split; [by eapply same_tip_trans|by rewrite E2].
Qed.

Lemma boot_chain {A} (c : st cworld A) : st_rel same_tip c -> st_rel boot (on_chain c).
Proof.
  intros Hc w. specialize (Hc (ww_cm (mw_writer w))). unfold on_chain, on_writer, on_cm, boot, mw_cm.
  by destruct (c _).
Qed.

Lemma tip_on_rw {A} (c : st rworld A) : st_rel same_tip (on_rw c).
Proof. intros w. unfold on_rw. by destruct (c (cm_rw w)). Qed.
Lemma tip_rpc {A} (f : nat -> result A) : st_rel same_tip (rpc f).
Proof. apply tip_on_rw. Qed.

Lemma boot_mempool_job tx : st_rel boot (writer_job N ord cfg clock fuel (IndexMempoolTx_job (Some tx) 0)).
Proof.
  intros w. unfold writer_job, on_writer, run_job. cbn [processJob IndexMempoolTx_job wj_jobType wj_tx processMempoolJob].
  unfold mbind, st_bind, st_gets, st_try, on_cm, on_rw, rmp. cbn.
  destruct (AddTransaction _ _ _ _) as [[l|e] w1]; done.
Qed.

Lemma boot_flush : st_rel boot (flush_prunes N ord cfg clock fuel).
Proof. intros w. destruct (flush_run N ord cfg clock fuel w) as (r & w' & -> & ((_ & H2 & _) & H3 & _) & _). done. Qed.

Lemma boot_gets {A} (f : mworld -> A) : st_rel boot (st_gets f).
Proof. intros w. reflexivity. Qed.
#[local] Hint Resolve boot_chain tip_on_rw tip_rpc boot_mempool_job boot_flush boot_gets : st_rel.

Lemma boot_IndexMempoolTx tx : st_rel boot (writer_IndexMempoolTx N ord cfg clock fuel tx).
Proof. unfold writer_IndexMempoolTx. solve_rel. Qed.
#[local] Hint Resolve boot_IndexMempoolTx : st_rel.

Lemma boot_backfill b h : st_rel boot (backfill_tx N M ord cfg clock fuel b h).
Proof. unfold backfill_tx. solve_rel. Qed.
#[local] Hint Resolve boot_backfill : st_rel.

Lemma boot_reconcile : st_rel boot (reconcileMempool N M ord cfg clock fuel).
Proof. unfold reconcileMempool. solve_rel. Qed.

(** ** [start_chain] *)

Notation maxReorgDepth := (Storage_MaxReorgDepth (cfg_Storage cfg)).

(** Loading the overlay only reads the database. *)
Lemma load_overlay w : working w -> exists r w', st_try (on_rw (rmp LoadFromDatabase)) w = (Ok r, w') /\ quiet w w'.
Proof.
  intros [Hd Ht]. set (r := LoadFromDatabase (cm_world w)).
  exists r.1, (with_rw w (mkRWorld r.2 (rw_calls (cm_rw w)))). split.
  { unfold st_try, on_rw, rmp, r, cm_world. by destruct (LoadFromDatabase (rw_world (cm_rw w))). }
  assert (Hc : contents (w_db r.2) = contents (w_db (cm_world w))) by apply LoadFromDatabase_frame.
  split_and!; [done| |exact Hc]. split; [|change (typed_db (contents (w_db r.2))); by rewrite Hc].
  change (healthy (w_db r.2)). assert (Hk : keepsW (cm_world w) r.2); [|by apply Hk].
  unfold r, LoadFromDatabase. generalize (cm_world w). 
  change (st_rel keepsW (m ← st_gets w_mp; if negb (mp_hasdb m) then mret () else
    it ← in_db (st_wrap "failed to create mempool iterator: " (NewPrefixIterator [PrefixMempool]));
    put_mp (foldl load_entry m (it_entries it)))).
  pose proof @keepsW_in_db. pose proof @keepsW_put_mp. pose proof @keeps_NewPrefixIterator. solve_rel; auto with st_rel.
Qed.

(** [Initialize] on a database without a checkpoint. *)
Lemma Initialize_fresh w : working w -> contents (w_db (cm_world w)) !! KeyCheckpoint = None ->
  exists w', Initialize N maxReorgDepth w = (Ok (), w') /\ working w' /\
    contents (w_db (cm_world w')) = contents (w_db (cm_world w)) /\ currentHeight w' = 0.
Proof.
  intros Hw Hk. destruct Hw as [Hd Ht].
  destruct (LoadCheckpoint_absent (w_db (cm_world w)) Hd Hk) as (d & E & Hd' & Hc').
  set (w1 := with_rw w (mkRWorld (mkWorld d (w_mp (cm_world w))) (rw_calls (cm_rw w)))).
  assert (E1 : st_wrap "reorg check failed: " (on_rw (CheckAndHandle (node_hash N) maxReorgDepth)) w =
    (Ok (mkReorgResult false 0 [] 0 0 []), w1)).
  { apply st_wrap_Ok, on_rw_run. unfold CheckAndHandle, checkpoint_or_fail, rdb, in_db, mbind, st_bind.
    change (rw_world (cm_rw w)) with (cm_world w). by rewrite E. }
  unfold Initialize. rewrite (st_bind_run _ _ _ _ _ E1).
  assert (Hw1 : working w1) by (split; [done|]; change (typed_db (contents d)); by rewrite Hc').
  assert (Hr : forall v, working v -> contents (w_db (cm_world v)) = contents (w_db (cm_world w)) ->
    reads LoadCheckpoint (w_db (cm_world v)) (zeroCheckpoint, None)).
  { intros v [Hv _] Ev. apply LoadCheckpoint_absent; [done|by rewrite Ev]. }
  assert (Hst : reads GetChainState (w_db (cm_world w1)) (mkChainState 0 zero_hash)).
  { destruct (Hr w1 Hw1 Hc') as (d2 & E2 & Hd2 & Hc2). exists d2. split; [|done].
    unfold GetChainState, checkpoint_or_fail, mbind, st_bind. by rewrite E2. }
  destruct (on_db_reads GetChainState w1 _ Hw1 Hst) as (w2 & E2 & (_ & Hw2 & C2)).
  rewrite (st_bind_run _ _ _ _ _ (proj2 (st_wrap_Ok _ _ _ _ _) E2)). cbn [cs_Height cs_BlockHash].
  set (w3 := with_tip w2 0 zero_hash).
  rewrite (st_bind_run (set_tip _ _) _ w2 () w3) by done.
  assert (Hw3 : working w3) by (by apply (working_same w2)).
  assert (C3 : contents (w_db (cm_world w3)) = contents (w_db (cm_world w)))
    by (change (cm_world w3) with (cm_world w2); by rewrite C2).
  destruct (on_db_reads LoadCheckpoint w3 _ Hw3 (Hr w3 Hw3 C3)) as (w4 & E4 & (T4 & Hw4 & C4)).
  rewrite (st_bind_run _ _ _ _ _ E4). rewrite decide_False by (cbn; lia). exists w4.
  split_and!; [done|done|by rewrite C4|by rewrite (proj1 T4)].
Qed.

Lemma prune_Initialize w : pruneHeight (Initialize N maxReorgDepth w).2 = pruneHeight w.
Proof.
  set (R := fun w w' : cworld => pruneHeight w' = pruneHeight w).
  assert (HR : PreOrder R) by (split; [by intros ?|intros a b c H1 H2; unfold R in *; congruence]).
  assert (H1 : forall A (c : st rworld A), st_rel R (on_rw c)) by (intros A c v; unfold on_rw, R; by destruct (c _)).
  assert (H2 : forall h x, st_rel R (set_tip h x)) by (by intros h x v).
  assert (H3 : forall h, st_rel R (set_start h)) by (by intros h v).
  assert (H : st_rel R (Initialize N maxReorgDepth)); [|apply H].
  unfold Initialize, on_db. apply st_rel_bind; [done|by apply st_rel_wrap|]. intros _.
  apply st_rel_bind; [done|by apply st_rel_wrap|]. intros s. apply st_rel_bind; [done|done|]. intros _.
  apply st_rel_bind; [done|done|]. intros [c e]. case_decide; [done|by apply st_rel_ret].
Qed.

(** What start-up finds: no checkpoint, and a height to start from; or the
    checkpoint of a block of the node's chain.  The tip is [h], and [s] the first
    height to index. *)
Inductive startable (info : BlockchainInfo) (nb : Z -> MsgBlock) (db : pdb) (s : Z) : Z -> Prop :=
| start_fresh : contents db !! KeyCheckpoint = None -> determineStartHeight cfg info = s -> startable info nb db s (s - 1)
| start_saved cp h : json_wf cp -> contents db !! KeyCheckpoint = Some (json_Marshal cp) -> cp_Height cp = h ->
    cp_BlockHash cp = hash_String (block_hash (nb h)) -> cp_StartHeight cp = s -> startable info nb db s h.

(** The prune height the chain manager is told; 0 for none. *)
Definition told_prune (info : BlockchainInfo) : Z :=
  if info_Pruned info && (0 <? info_PruneHeight info) then i32 (info_PruneHeight info) else 0.

Lemma tell_prune info w : working w -> pruneHeight w = 0 -> exists w',
  (if info_Pruned info && (0 <? info_PruneHeight info) then SetPruneHeight (i32 (info_PruneHeight info)) else mret ()) w
    = (Ok (), w') /\ working w' /\ cm_world w' = cm_world w /\ currentHeight w' = currentHeight w /\
  currentHash w' = currentHash w /\ startHeight w' = startHeight w /\ pruneHeight w' = told_prune info.
Proof.
  intros Hw Hp. unfold told_prune. destruct (info_Pruned info && (0 <? info_PruneHeight info)).
  - eexists. split; [reflexivity|]. by split_and!; [apply (working_same w)|..].
  - exists w. by split_and!.
Qed.

(** The last part of [start_chain]. *)
Definition first_start (info : BlockchainInfo) : st cworld unit :=
  '(checkpoint, _) ← on_db LoadCheckpoint;
  if decide (cp_Height checkpoint = 0 /\ cp_BlockHash checkpoint = ""%string)
  then
    let startFrom := determineStartHeight cfg info in
    if 0 <? startFrom then st_wrap "Failed to set start height: " (SetStartHeight N startFrom) else mret ()
  else mret ().

Lemma first_start_saved info cp w : working w -> json_wf cp -> cp_BlockHash cp <> ""%string ->
  contents (w_db (cm_world w)) !! KeyCheckpoint = Some (json_Marshal cp) ->
  exists w', first_start info w = (Ok (), w') /\ quiet w w'.
Proof.
  intros Hw Hcp Hne Hk. destruct (on_db_reads LoadCheckpoint w (cp, None) Hw) as (w' & E & Q).
  { apply LoadCheckpoint_present; [apply Hw|done..]. }
  exists w'. unfold first_start. rewrite (st_bind_run _ _ _ _ _ E), decide_False by (by intros [_ ?]). done.
Qed.

Lemma first_start_fresh info nb top s w : serves N nb top -> 1 <= s <= top -> working w -> currentHeight w <= 0 ->
  contents (w_db (cm_world w)) !! KeyCheckpoint = None -> determineStartHeight cfg info = s ->
  exists w', first_start info w = (Ok (), w') /\ tip_on nb (s - 1) w' /\ working w' /\ startHeight w' = s /\
    pruneHeight w' = pruneHeight w.
Proof.
  intros HS Hs Hw Hc Hk Hd. destruct (on_db_reads LoadCheckpoint w (zeroCheckpoint, None) Hw) as (w1 & E & (T1 & Hw1 & _)).
  { apply LoadCheckpoint_absent; [apply Hw|done]. }
  destruct (SetStartHeight_run N nb top s w1 HS Hs Hw1) as (w2 & E2 & T2 & S2 & Hw2 & P2 & _); [by rewrite (proj1 T1)|].
  exists w2. unfold first_start. rewrite (st_bind_run _ _ _ _ _ E), decide_True by done. rewrite Hd.
  destruct (Z.ltb_spec 0 s); [|lia]. split; [by apply st_wrap_Ok|]. split_and!; [done..|].
  rewrite P2. apply T1.
Qed.

Lemma start_chain_run info nb top db s h w : serves N nb top -> 1 <= s <= h + 1 -> 0 <= h <= top ->
  s <= top -> working w -> contents (w_db (cm_world w)) = contents db -> pruneHeight w = 0 -> startable info nb db s h ->
  exists w', start_chain N cfg info w = (Ok (), w') /\ tip_on nb h w' /\ working w' /\ startHeight w' = s /\
    pruneHeight w' = told_prune info.
Proof.
  intros HS Hs Hh Hst Hw Hdb Hp Hstart. unfold start_chain. fold (first_start info).
  destruct (load_overlay w Hw) as (r & w1 & E1 & (T1 & Hw1 & C1)). rewrite (st_bind_run _ _ _ _ _ E1).
  assert (Hpr : forall w2, Initialize N maxReorgDepth w1 = (Ok (), w2) -> pruneHeight w2 = 0).
  { intros w2 E. pose proof (prune_Initialize w1) as H. rewrite E in H. cbn in H. rewrite H.
    destruct T1 as (_ & _ & _ & ->). done. }
  destruct Hstart as [Hk Hd|cp h Hcp Hk Eh Ehash Es].
  - destruct (Initialize_fresh w1 Hw1) as (w2 & E2 & Hw2 & C2 & H2); [by rewrite C1, Hdb|].
    rewrite (st_bind_run (st_wrap _ _) _ _ _ _ (proj2 (st_wrap_Ok _ _ _ _ _) E2)).
    destruct (tell_prune info w2 Hw2 (Hpr _ E2)) as (w3 & E3 & Hw3 & W3 & H3 & _ & _ & P3).
    rewrite (st_bind_run _ _ _ _ _ E3).
    destruct (first_start_fresh info nb top s w3 HS) as (w4 & E4 & T4 & Hw4 & S4 & P4); [lia|done|by rewrite H3, H2| |done|].
    { by rewrite W3, C2, C1, Hdb. }
    exists w4. split_and!; [done..|]. by rewrite P4.
  - destruct (Initialize_run N nb top HS maxReorgDepth h cp w1) as (w2 & E2 & T2 & Hw2 & C2 & S2);
      [done|done|done|by rewrite C1, Hdb|done..|].
    rewrite (st_bind_run (st_wrap _ _) _ _ _ _ (proj2 (st_wrap_Ok _ _ _ _ _) E2)).
    destruct (tell_prune info w2 Hw2 (Hpr _ E2)) as (w3 & E3 & Hw3 & W3 & H3 & X3 & G3 & P3).
    rewrite (st_bind_run _ _ _ _ _ E3).
    destruct (first_start_saved info cp w3 Hw3 Hcp) as (w4 & E4 & (H4 & X4 & G4 & P4) & Hw4 & _).
    { rewrite Ehash, (hash_String_hex (block_hash (nb h))) by apply length_BlockHash. intros E0.
      apply (f_equal slen) in E0. rewrite slen_EncodeToString, length_reverse in E0.
      unfold block_hash in E0. by rewrite (length_BlockHash (block_Header (nb h))) in E0. }
    { by rewrite W3, C2, C1, Hdb. }
    exists w4. split_and!; [done| |done| |].
    + destruct T2 as [T2 T2']. split; congruence.
    + rewrite G4, G3, S2, Es. by destruct (Z.ltb_spec 0 s); [|lia].
    + by rewrite P4.
Qed.

(** ** [startup] *)

Definition with_cm (w : mworld) (cm : cworld) : mworld :=
  with_writer w (mkWWorld cm (blocksIndexed (mw_writer w)) (mempoolTxsAdded (mw_writer w))
    (lastBlockTime (mw_writer w)) (ww_jobs (mw_writer w))).

Lemma on_chain_run {A} (c : st cworld A) w r cm : c (mw_cm w) = (r, cm) -> on_chain c w = (r, with_cm w cm).
Proof. intros E. unfold on_chain. apply on_writer_run. unfold on_cm. unfold mw_cm in E. by rewrite E. Qed.

(** Reconciling keeps what start-up has found. *)
Lemma reconcile_keeps w : working (mw_cm w) -> mw_cache w = NewStatusCache -> exists r w',
  reconcileMempool N M ord cfg clock fuel w = (Ok r, w') /\ working (mw_cm w') /\
  same_tip (mw_cm w) (mw_cm w') /\ mw_cache w' = NewStatusCache.
Proof.
  intros Hw Hc. assert (Hi : inv sorter ord ∅ w) by (split; [done|]; rewrite Hc; apply coherent_new).
  destruct (reconcileMempool_run N M sorter ord cfg clock fuel w Hi) as (r & w' & E & H).
  pose proof (boot_reconcile w) as Hb. rewrite E in Hb. cbn [snd] in Hb. destruct Hb as [Ht Hcache].
  exists r, w'. split_and!; [done| |done|by rewrite Hcache].
  destruct r as [l|e]; [by destruct H as [[? _] _]|by destruct H].
Qed.

(** C8: start-up is complete or refused: on a healthy database that is fresh, with
    a height to start from, or was saved at a block of the node's chain, with a
    node that serves that chain, [startup] returns: it halts for the operator when
    the node has pruned blocks above the saved tip, and otherwise the tip is the
    node's and every height from the first one indexed has its header, whatever
    the node's mempool answers; and from then on, after any sequence of events and
    requests of the main loop, the statuses the server gives out are the current
    ones. *)
Theorem startup_complete (info : BlockchainInfo) (nb : Z -> MsgBlock) (top s h : Z) (db : pdb) (n : nat)
    (HS : serves N nb top) (Hbig : top <= 2 ^ 30) (Hs : 1 <= s <= h + 1) (Hh : 0 <= h <= top) (Hst : s <= top)
    (Hd : healthy db) (Ht : typed_db (contents db)) (Hstart : startable info nb db s h) (Hfuel : fuel = S n) :
  exists w, startup N M ord cfg clock fuel info (main_world db) = (Ok (negb (h <? told_prune info)), w) /\
    (told_prune info <= h ->
       tip_on nb top (mw_cm w) /\ (forall x, s <= x <= top -> has_header (mw_world w) x) /\
       forall w' sh, rtc (live_step N M sorter ord cfg clock fuel) w w' -> length sh = 32%nat ->
         exists status, reads (ComputeScripthashStatus sorter ord (w_mp (mw_world w')) sh) (w_db (mw_world w')) status /\
           (on_server (ComputeScripthashStatusHex sorter ord (EncodeToString sh)) w').1 = Ok status).
Proof.
  destruct (start_chain_run info nb top db s h (mw_cm (main_world db)) HS Hs Hh Hst) as (c1 & E1 & T1 & Hw1 & S1 & P1);
    [by split|done|done|done|].
  unfold startup. rewrite (st_bind_run _ _ _ _ _ (on_chain_run _ (main_world db) _ _ E1)).
  destruct (reconcile_keeps (with_cm (main_world db) c1)) as (r & w2 & E2 & Hw2 & (H2 & X2 & G2 & P2) & C2); [done|done|].
  rewrite (st_bind_run _ _ _ _ _ E2). cbn [mw_cm with_cm with_writer mw_writer ww_cm] in *.
  change (mw_cm (with_cm (main_world db) c1)) with c1 in *.
  assert (Hc2 : currentHeight (mw_cm w2) = h) by (rewrite H2; apply T1).
  pose proof (CatchUpToTip_run N ord maxReorgDepth nb top (mw_cm w2) n HS Hbig ltac:(lia) ltac:(lia)
    ltac:(split; [done|rewrite X2, Hc2; apply T1]) Hw2) as HC.
  rewrite Hc2, P2, P1, G2, S1 in HC. rewrite Hfuel.
  assert (Hb : (0 <? told_prune info) && (h <? told_prune info) = (h <? told_prune info)).
  { destruct (Z.ltb_spec h (told_prune info)), (Z.ltb_spec 0 (told_prune info)); done || lia. }
  rewrite Hb in HC. destruct (Z.ltb_spec h (told_prune info)) as [Hp|Hp].
  - destruct HC as (e & EC & He). exists (with_cm w2 (mw_cm w2)).
    rewrite (st_bind_run _ _ _ _ _ (st_try_run _ _ _ _ (on_chain_run _ w2 _ _ EC))), He.
    split; [done|lia].
  - destruct HC as (c3 & EC & T3 & Hw3 & _ & Hall). exists (with_cm w2 c3).
    rewrite (st_bind_run _ _ _ _ _ (st_try_run _ _ _ _ (on_chain_run _ w2 _ _ EC))).
    split; [done|]. intros _. split; [exact T3|]. split; [exact Hall|]. intros w' sh Hrun Hl.
    rewrite <- Hfuel in Hrun.
    assert (Hi : inv sorter ord ∅ w').
    { eapply live_inv; [exact Hfuel|exact Hrun|]. split; [exact Hw3|].
      change (mw_cache (with_cm w2 c3)) with (mw_cache w2). rewrite C2. apply coherent_new. }
    exists (status_now sorter ord (mw_world w') sh). split; [by apply status_now_reads; [apply Hi|]|].
    destruct (compute_status_run sorter ord sh (server_of w')) as (v & E & _); [apply Hi|done|apply Hi|].
    by rewrite (on_server_run _ _ _ _ E).
Qed.

End Props.

(** ** Witness: the first start of the sample program *)

Definition first_config : Config := with_indexer (fun i => mkIndexerConfig 1 (Indexer_CheckpointInterval i)
  (Indexer_UndoPruneInterval i)) ConfigProps.sample_config.

Definition no_prune : BlockchainInfo := mkBlockchainInfo 3 (float_of_Z 1) false 0.

Lemma startup_complete_witness : exists w,
  startup sample_node sample_pool id_order first_config sample_clock 1 no_prune (main_world (w_db world0)) = (Ok true, w) /\
  tip_on node_chain 3 (mw_cm w).
Proof.
  destruct (startup_complete sample_node sample_pool merge_sorter id_order first_config sample_clock 1 no_prune
    node_chain 3 1 0 (w_db world0) 0 sample_serves) as (w & E & H); [lia|lia|lia|lia| | | |reflexivity|].
  - apply manager0_working.
  - exact typed_world0.
  - apply (start_fresh first_config no_prune node_chain (w_db world0) 1); vm_compute; reflexivity.
  - exists w. split; [exact E|]. exact (proj1 (H ltac:(vm_compute; discriminate))).
Defined.
