(* ===== verification/LedgerLive.v ===== *)
(** * The running server and the ledger

    The whole program against a node that answers truthfully when it answers:
    from the first start on, through blocks, transactions, gaps, reconciliations,
    prunes, requests, disconnections and restarts, whatever calls of the node
    fail, the index stays in step with the node's chain, and what a client is told
    about a scripthash is the ledger of the blocks up to the tip. *)

From Stdlib Require Import Strings.Byte.
From S2P Require Import Prelude Bytes Hex Keys Values Json Checkpoint Pebble Store Sha256 Types Mempool MempoolFacts MempoolProps Block BlockFacts BlockOps BlockProps Reorg ReorgFacts ReorgProps ChainFacts ReorgChain Query QueryFacts QueryProps Server ServerProps Typed Total Steps Chain Follow FollowProps Gaps GapProps ChainSample Ledger Synced Served InStep LedgerSample Writer WriterProps GoFloat Rpc RpcProps Config ConfigProps Live LiveFacts Requests LiveProps LiveSample StartupProps.

Section Live.
Context {P : Pebble} {PL : PebbleLaws P} {PH : PebbleHealthy P PL} {B : Btcd} {BL : BtcdLaws B} {T : BtcdTx}.
Context {Zs : Zstd} {ZL : ZstdLaws Zs}.

(** ** The server only looks at the data *)

Definition looks (w w' : sworld) : Prop :=
  contents (w_db (sv_world w')) = contents (w_db (sv_world w)) /\
  (healthy (w_db (sv_world w)) -> healthy (w_db (sv_world w'))).

#[export] Instance looks_preorder : PreOrder looks.
Proof. split; [done|]. intros a b c [A1 A2] [B1 B2]. split; [by rewrite B1|auto]. Qed.

Lemma looks_same w w' : sv_world w' = sv_world w -> looks w w'.
Proof. unfold looks. by intros ->. Qed.

Lemma looks_sdb {A} (m : st pdb A) : st_rel db_same m -> st_rel (keeps healthy) m -> st_rel looks (sdb m).
Proof.
  intros H1 H2 w. specialize (H1 (w_db (sv_world w))). specialize (H2 (w_db (sv_world w))).
  unfold sdb, in_db. destruct (m (w_db (sv_world w))) as [r d]. by split.
Qed.

Lemma looks_status sorter ord shHex : st_rel looks (ComputeScripthashStatusHex sorter ord shHex).
Proof.
  unfold ComputeScripthashStatusHex. apply st_rel_bind; [apply _|by apply st_rel_gets; apply _|].
  intros [st|]; [by apply st_rel_ret; apply _|]. apply st_rel_bind; [apply _|by apply st_rel_lift; apply _|].
  intros sh. apply st_rel_bind; [apply _|intros w; by apply looks_same|]. intros m.
  apply st_rel_bind; [apply _|apply looks_sdb; [apply rel_status|apply keeps_status]|]. intros status.
  apply st_rel_bind; [apply _|intros w; by apply looks_same|]. intros _. by apply st_rel_ret; apply _.
Qed.

#[export] Instance looks_rel sorter ord writer : RequestRel sorter ord looks writer.
Proof.
  split.
  - apply _.
  - intros A m. apply looks_sdb.
  - intros A f w. by apply looks_same.
  - intros sh w. by apply looks_same.
  - intros sh w. by apply looks_same.
  - intros w. by apply looks_same.
  - intros sh. apply looks_status.
Qed.

Section Node.
Context (N : node) (M : pool_node) (sorter : slice_sort) (ord : range_order) (cfg : Config).
Context (clock : nat -> Z) (fuel : nat) (nb : Z -> MsgBlock) (top s : Z).
Context (HN : honest N nb top) (Hs : 1 <= s <= top + 1) (G : good_chain s (blocks_to nb s top)).

Notation forward := (forward nb top s).
Notation in_step := (in_step nb s).
Notation maxReorgDepth := (Storage_MaxReorgDepth (cfg_Storage cfg)).

(** ** The parts of the main loop *)

Definition onward (w w' : mworld) : Prop := forward (mw_cm w) (mw_cm w').

#[export] Instance onward_preorder : PreOrder onward.
Proof. unfold onward. split; [by intros w|]. intros a b c H1 H2. by etrans. Qed.

Definition onwardW (w w' : wworld) : Prop := forward (ww_cm w) (ww_cm w').

#[export] Instance onwardW_preorder : PreOrder onwardW.
Proof. unfold onwardW. split; [by intros w|]. intros a b c H1 H2. by etrans. Qed.

Lemma onward_same w w' : mw_cm w' = mw_cm w -> onward w w'.
Proof. unfold onward. by intros ->. Qed.

Lemma onwardW_cm {A} (c : st cworld A) : st_rel forward c -> st_rel onwardW (on_cm c).
Proof. intros Hc w. specialize (Hc (ww_cm w)). unfold on_cm, onwardW. by destruct (c (ww_cm w)). Qed.

Lemma onward_writer {A} (c : st wworld A) : st_rel onwardW c -> st_rel onward (on_writer c).
Proof. intros Hc w. specialize (Hc (mw_writer w)). unfold on_writer, onward, mw_cm. by destruct (c (mw_writer w)). Qed.

Lemma onward_chain {A} (c : st cworld A) : st_rel forward c -> st_rel onward (on_chain c).
Proof. intros Hc. by apply onward_writer, onwardW_cm. Qed.

Lemma onward_server {A} (c : st sworld A) : st_rel looks c -> st_rel onward (on_server c).
Proof.
  intros Hc w. specialize (Hc (server_of w)). unfold on_server, onward, mw_cm. fold (server_of w).
  destruct (c (server_of w)) as [r v]. destruct Hc as [H1 H2]. cbn [snd sv_world server_of] in *.
  apply forward_frame; [by split_and!|intros k _; left; cbn; by rewrite H1|].
  intros [W1 W2]. split; cbn; [by apply H2|by rewrite H1].
Qed.

(** What touches the overlay and its keys only. *)
Lemma forward_rmp {A} (m : st world A) : (forall w, confirmed_same (contents (w_db w)) (contents (w_db (m w).2))) ->
  st_rel keepsW m -> st_rel forward (on_rw (rmp m)).
Proof.
  intros Hm Hk w. unfold on_rw, rmp. specialize (Hm (cm_world w)). specialize (Hk (cm_world w)).
  unfold cm_world in *. destruct (m (rw_world (cm_rw w))) as [r w1].
  apply forward_frame; [by split_and!|intros k H; left; by apply Hm|].
  intros [W1 W2]. split; cbn; [by apply Hk|by eapply typed_same].
Qed.

Lemma forward_rpc {A} (f : nat -> result A) : st_rel forward (rpc f).
Proof. intros w. apply forward_frame; [by split_and!|done|by apply (working_same w)]. Qed.

Lemma ReconcileWith_confirmed valid w :
  confirmed_same (contents (w_db w)) (contents (w_db (ReconcileWith ord valid w).2)).
Proof.
  destruct (ReconcileWith_hexes ord valid w) as (n & l & w' & E & _). rewrite E.
  unfold ReconcileWith in E. rewrite (st_bind_run (st_gets w_mp) _ w (w_mp w) w) in E by done.
  apply st_bind_Ok in E as ([r a] & w1 & E1 & E).
  rewrite (st_bind_run (st_gets w_mp) _ w1 (w_mp w1) w1) in E by done.
  destruct (foldl _ _ _) as [[r2 a2] m2]. injection E as <- <- <-.
  by destruct (reconcile_txs_kept _ _ _ _ _ _ _ "" E1) as (_ & _ & H).
Qed.

Lemma forward_collect block : st_rel forward (collectAffectedScripthashes ord block).
Proof.
  intros w t Ht S.
  destruct (affected_scripthashes_exact ord block w (is_working _ _ _ _ S)) as (l & w' & E & _ & Q & _).
  rewrite E. exists t. split; [lia|]. by eapply in_step_quiet.
Qed.

Lemma onward_pruned w w' : pruned w w' -> onward w w'.
Proof. intros (_ & H1 & H2 & H3). apply forward_frame; [done| |done]. intros k _. apply H2. Qed.

Lemma onward_flush : st_rel onward (flush_prunes N ord cfg clock fuel).
Proof. intros w. destruct (flush_run N ord cfg clock fuel w) as (r & w' & -> & H & _). by apply onward_pruned. Qed.

Lemma onward_job job : st_rel onwardW (processJob N ord maxReorgDepth clock fuel job) ->
  st_rel onward (writer_job N ord cfg clock fuel job).
Proof.
  intros Hj. apply onward_writer. intros w. specialize (Hj w). unfold run_job.
  by destruct (processJob _ _ _ _ _ _ w).
Qed.

Lemma onwardW_modify f : (forall w, ww_cm (f w) = ww_cm w) -> st_rel onwardW (st_modify f).
Proof. intros H w. unfold st_modify, onwardW. cbn. by rewrite H. Qed.

#[local] Hint Resolve onwardW_cm forward_collect onwardW_modify : st_rel.

Lemma onward_block_job h : 1 <= h <= top ->
  st_rel onward (writer_job N ord cfg clock fuel (IndexBlock_job (Some (nb h)) 0)).
Proof.
  intros Hh. apply onward_job. cbn [processJob IndexBlock_job wj_jobType wj_block processBlockJob].
  pose proof (forward_ProcessBlock N ord maxReorgDepth nb top s HN Hs G fuel h Hh) as H. solve_rel.
Qed.

Lemma onward_tx_job tx : st_rel onward (writer_job N ord cfg clock fuel (IndexMempoolTx_job (Some tx) 0)).
Proof.
  apply onward_job. cbn [processJob IndexMempoolTx_job wj_jobType wj_tx processMempoolJob].
  assert (H : forall now, st_rel forward (on_rw (rmp (AddTransaction ord now tx)))).
  { intros now. apply forward_rmp; [intros w; apply AddTransaction_confirmed|apply keepsW_AddTransaction]. }
  solve_rel.
Qed.

#[local] Hint Resolve onward_chain onward_server onward_flush onward_block_job onward_tx_job looks_status forward_rpc : st_rel.

Lemma onward_IndexBlock h : 1 <= h <= top -> st_rel onward (writer_IndexBlock N ord cfg clock fuel (nb h)).
Proof. intros Hh. pose proof (onward_block_job h Hh). unfold writer_IndexBlock. solve_rel. Qed.

Lemma onward_IndexMempoolTx tx : st_rel onward (writer_IndexMempoolTx N ord cfg clock fuel tx).
Proof. unfold writer_IndexMempoolTx. solve_rel. Qed.

Lemma onward_modify f : (forall w, mw_cm (f w) = mw_cm w) -> st_rel onward (st_modify f).
Proof. intros H w. apply onward_same, H. Qed.

Lemma onward_set_prunes f : st_rel onward (set_prunes f).
Proof. by apply onward_modify. Qed.
Lemma onward_send n : st_rel onward (send n).
Proof. by apply onward_modify. Qed.
Lemma onward_count_block : st_rel onward count_block.
Proof. by apply onward_modify. Qed.
Lemma onward_count_tx : st_rel onward count_tx.
Proof. by apply onward_modify. Qed.
#[local] Hint Resolve onward_IndexBlock onward_IndexMempoolTx onward_set_prunes onward_send onward_count_block onward_count_tx : st_rel.

Lemma onward_notify_status shHex : st_rel onward (notify_status sorter ord shHex).
Proof.
  assert (H : st_rel looks (NotifyScripthashStatusHex sorter ord shHex)).
  { unfold NotifyScripthashStatusHex. apply st_rel_bind; [apply _|apply looks_status|]. intros st.
    apply st_rel_bind; [apply _|by apply st_rel_gets; apply _|]. intros sm. by apply st_rel_ret; apply _. }
  unfold notify_status. solve_rel.
Qed.
#[local] Hint Resolve onward_notify_status : st_rel.

Lemma onward_notify l : st_rel onward (notify_affected sorter ord l).
Proof.
  assert (H : st_rel looks (MarkScripthashDirtyMany l)) by (intros w; by apply looks_same).
  unfold notify_affected. solve_rel.
Qed.
#[local] Hint Resolve onward_notify : st_rel.

Lemma onward_backfill b h : st_rel onward (backfill_tx N M ord cfg clock fuel b h).
Proof. unfold backfill_tx. solve_rel. Qed.
#[local] Hint Resolve onward_backfill : st_rel.

Lemma onward_reconcile : st_rel onward (reconcileMempool N M ord cfg clock fuel).
Proof.
  unfold reconcileMempool.
  assert (H : forall valid, st_rel forward (on_rw (rmp (ReconcileWith ord valid)))).
  { intros valid. apply forward_rmp; [apply ReconcileWith_confirmed|apply keepsW_ReconcileWith]. }
  solve_rel.
Qed.
#[local] Hint Resolve onward_reconcile : st_rel.

Lemma onward_catch_up : st_rel onward (catch_up N ord cfg fuel).
Proof.
  pose proof (forward_CatchUpToTip N ord maxReorgDepth nb top s HN Hs G fuel) as H. unfold catch_up. solve_rel.
Qed.
#[local] Hint Resolve onward_catch_up : st_rel.

Lemma onward_prune : st_rel onward (run_queued_prune N ord cfg clock fuel).
Proof.
  assert (H : st_rel onward (writer_job N ord cfg clock fuel prune_job)).
  { intros w. destruct (prune_job_run N ord cfg clock fuel w) as (r & w' & -> & H & _). by apply onward_pruned. }
  unfold run_queued_prune. solve_rel.
Qed.
#[local] Hint Resolve onward_prune : st_rel.

(** The blocks that arrive are of the node's chain. *)
Definition chain_event (e : event) : Prop :=
  match e with
  | EvBlock (Some block) => exists h, 1 <= h <= top /\ block = nb h
  | _ => True
  end.

Lemma onward_event e : chain_event e -> st_rel onward (main_event N M sorter ord cfg clock fuel e).
Proof.
  assert (HG : st_rel forward GetCurrentHeight) by (by apply st_rel_gets; apply _).
  assert (HT : st_rel onward TriggerPrune) by (apply onward_set_prunes).
  intros He. destruct e as [|[b|]|[tx|]|[g|]| | | | |]; cbn [main_event chain_event] in *.
  2:{ destruct He as (h & Hh & ->). pose proof (onward_IndexBlock h Hh). unfold on_block, server_NotifyNewBlock. solve_rel. }
  all: unfold on_tx, on_gap, on_reorg_tick, GetBlockCount, on_recon_tick; solve_rel.
Qed.

(** ** Start-up *)

(** The databases to start on: a fresh one, when there is a height to start
    from, and one in step with the node's chain up to [t], as the program leaves
    it. *)
Inductive servable (info : BlockchainInfo) (db : pdb) : Z -> Prop :=
| servable_fresh : healthy db -> typed_db (contents db) -> no_blocks (contents db) ->
    contents db !! KeyCheckpoint = None -> determineStartHeight cfg info = s -> servable info db (s - 1)
| servable_saved t cp : healthy db -> typed_db (contents db) -> mirrors (contents db) s (blocks_to nb s t) ->
    json_wf cp -> contents db !! KeyCheckpoint = Some (json_Marshal cp) -> cp_Height cp = t ->
    cp_BlockHash cp = hash_String (block_hash (nb t)) -> cp_StartHeight cp = s -> servable info db t.

Lemma in_step_servable info t w : in_step t w -> servable info (w_db (cm_world w)) t.
Proof.
  intros [M1 M2 M3 M4 (cp & C1 & C2 & C3 & C4 & C5)]. by eapply servable_saved; [apply M2|apply M2|..].
Qed.

Lemma fresh_in_step w cp c : no_blocks c -> contents (w_db (cm_world w)) = <[KeyCheckpoint := json_Marshal cp]> c ->
  working w -> tip_on nb (s - 1) w -> startHeight w = s -> json_wf cp -> cp_Height cp = s - 1 ->
  cp_BlockHash cp = hash_String (block_hash (nb (s - 1))) -> cp_StartHeight cp = s -> in_step (s - 1) w.
Proof.
  intros H0 Hc Hw Tp Es C1 C3 C4 C5. split; [|done..|].
  - rewrite blocks_to_nil. apply no_blocks_mirrors. intros k Hk. rewrite Hc, lookup_insert_ne; [by apply H0|].
    intros <-. destruct Hk as (p & [= <-] & Hp). by destruct_or! Hp.
  - exists cp. by rewrite Hc, lookup_insert_eq.
Qed.

Lemma saved_hash_some cp t : cp_BlockHash cp = hash_String (block_hash (nb t)) -> cp_BlockHash cp <> ""%string.
Proof.
  intros Ehash E. pose proof (length_BlockHash (block_Header (nb t))) as Hl. unfold block_hash in Ehash.
  rewrite Ehash, hash_String_hex in E by done. apply (f_equal slen) in E.
  by rewrite slen_EncodeToString, length_reverse, Hl in E.
Qed.

(** The prune height is none of the index's business. *)
Lemma told_quiet info w u w' : (if info_Pruned info && (0 <? info_PruneHeight info)
    then SetPruneHeight (i32 (info_PruneHeight info)) else mret ()) w = (Ok u, w') -> working w ->
  working w' /\ cm_world w' = cm_world w /\ currentHeight w' = currentHeight w /\
  currentHash w' = currentHash w /\ startHeight w' = startHeight w.
Proof. destruct (_ && _); intros [= _ <-] Hw; split_and!; try done. by apply (working_same w). Qed.

(** What [start_chain] leaves when it returns. *)
Lemma start_chain_in_step info db h w u w' : servable info db h -> 0 <= h <= top -> contents (w_db (cm_world w)) = contents db ->
  working w -> pruneHeight w = 0 -> start_chain N cfg info w = (Ok u, w') -> in_step h w'.
Proof.
  intros Hdb Hh Hc Hw Hp. unfold start_chain. fold (first_start N cfg info).
  destruct (load_overlay w Hw) as (r & w1 & E1 & (T1 & Hw1 & C1)). rewrite (st_bind_run _ _ _ _ _ E1).
  intros (u2 & w2 & E2%st_wrap_Ok & E)%st_bind_Ok. apply st_bind_Ok in E as (u3 & w3 & E3 & E).
  pose proof (ho_top _ _ _ HN) as Htop. rewrite Hc in C1. destruct Hdb as [Hd Ht H0 Hk Hst|t cp Hd Ht Hm Hcp Hk Et Ehash Es].
  - destruct (Initialize_fresh N cfg w1 Hw1) as (w2' & E2' & Hw2 & C2 & H2); [by rewrite C1|].
    rewrite E2 in E2'. injection E2' as _ <-.
    destruct (told_quiet info w2 u3 w3 E3 Hw2) as (Hw3 & W3 & H3 & _ & _).
    unfold first_start in E. destruct (on_db_reads LoadCheckpoint w3 (zeroCheckpoint, None) Hw3) as (w4 & E4 & ((T4 & _) & Hw4 & C4)).
    { apply LoadCheckpoint_absent; [apply Hw3|]. by rewrite W3, C2, C1. }
    rewrite (st_bind_run _ _ _ _ _ E4), decide_True, Hst in E by done. destruct (Z.ltb_spec 0 s); [|lia].
    apply st_wrap_Ok in E. destruct (node_hash N (rw_calls (cm_rw w4)) (s - 1)) as [x|e] eqn:Eh.
    + apply (ho_hash _ _ _ HN) in Eh as E5; [|lia]. subst x.
      destruct (SetStartHeight_known N nb s w4 Eh) as (w5 & E5 & T5 & S5 & Hw5 & _ & cp & K1 & K2 & K3 & K4 & K5);
        [lia|done|by rewrite T4, H3, H2|].
      rewrite E in E5. injection E5 as _ <-.
      apply (fresh_in_step w' cp (contents db)); try done. by rewrite K2, C4, W3, C2, C1.
    + exfalso. unfold SetStartHeight in E. rewrite (st_bind_run (st_gets id) _ w4 w4 w4) in E by done. unfold id in E.
      rewrite T4, H3, H2 in E. cbn [Z.ltb Z.compare] in E. destruct (Z.leb_spec s 0); [lia|].
      apply st_bind_Ok in E as (x & w5 & E5%st_wrap_Ok & _). rewrite core_hash_run, Eh in E5. done.
  - destruct (node_hash N (rw_calls (cm_rw w1)) t) as [x|e] eqn:Eh.
    + apply (ho_hash _ _ _ HN) in Eh as E5; [|lia]. subst x.
      destruct (Initialize_known N nb maxReorgDepth t cp w1 Eh Hw1 Hcp) as (w2' & E2' & T2 & Hw2 & C2 & S2);
        [by rewrite C1|done|done|].
      rewrite E2 in E2'. injection E2' as _ <-.
      destruct (told_quiet info w2 u3 w3 E3 Hw2) as (Hw3 & W3 & H3 & X3 & G3).
      destruct (first_start_saved N cfg info cp w3 Hw3 Hcp) as (w4 & E4 & Q4);
        [by eapply saved_hash_some|by rewrite W3, C2, C1|].
      rewrite E4 in E. injection E as _ <-. eapply in_step_quiet; [exact Q4|]. split; [|done| | |].
      * by rewrite W3, C2, C1.
      * destruct T2 as [T2 T2']. split; congruence.
      * rewrite G3, S2, Es. by destruct (Z.ltb_spec 0 s); [|lia].
      * exists cp. by rewrite W3, C2, C1.
    + exfalso. destruct (CheckAndHandle_unanswered N maxReorgDepth cp (block_hash (nb t)) (cm_rw w1) e) as (e' & rw & E5 & _);
        [apply Hw1|done|apply length_BlockHash| |done|by rewrite Et|].
      { change (rw_world (cm_rw w1)) with (cm_world w1). by rewrite C1. }
      unfold Initialize in E2. apply st_bind_Ok in E2 as (x & w5 & E2%st_wrap_Ok & _).
      unfold on_rw in E2. by rewrite E5 in E2.
Qed.

Lemma startup_in_step info db h w b : servable info db h -> s - 1 <= h <= top ->
  startup N M ord cfg clock fuel info (main_world db) = (Ok b, w) ->
  exists t, h <= t <= top /\ in_step t (mw_cm w).
Proof.
  intros Hdb Hh. unfold startup. intros (u & w1 & E1 & E)%st_bind_Ok.
  assert (S1 : in_step h (mw_cm w1)).
  { unfold on_chain, on_writer, on_cm in E1. cbn [main_world mw_writer ww_cm] in E1.
    match type of E1 with context [start_chain N cfg info ?c] => set (c0 := c) in E1 end.
    destruct (start_chain N cfg info c0) as [r c1] eqn:Ec. injection E1 as -> <-.
    eapply (start_chain_in_step info db h c0); [done|lia|done| |done|exact Ec].
    by destruct Hdb; split. }
  assert (H : onward w1 w).
  { apply (f_equal snd) in E. cbn [snd] in E. rewrite <- E. clear E1 S1 E. revert w1.
    match goal with |- forall w1, onward w1 (?m w1).2 => change (st_rel onward m) end.
    pose proof onward_reconcile as H1.
    pose proof (forward_CatchUpToTip N ord maxReorgDepth nb top s HN Hs G fuel) as H2. apply onward_chain in H2.
    solve_rel. }
  destruct (H h ltac:(lia) S1) as (t & Ht & S). by exists t.
Qed.

End Node.
(** ** What a client is told *)

Section Program.
Context (sorter : slice_sort) (ord : range_order) (cfg : Config) (nb : Z -> MsgBlock) (top s : Z).

(** The result of a client's call for a scripthash, in the state [w]. *)
Definition told (method : string) (sh : bytes) (w : mworld) (v : gv) : Prop :=
  forall (R : rpc_node B) (C : platform) (StringWidth : string -> Z) (config_StartHeight : Z) (writer : conn),
    (on_server (handleMethod R C sorter ord StringWidth config_StartHeight writer method
       (Some (scripthash_param sh))) w).1 = Ok v.

Definition balance_value (b : balance) : gv :=
  VMap [("confirmed"%string, VInt (bal_confirmed b)); ("unconfirmed"%string, VInt (bal_unconfirmed b))].

Lemma told_query {A} method sh w (q : MempoolOverlay -> bytes -> st pdb A) (f : A -> gv) a :
  length sh = 32%nat ->
  (forall (R : rpc_node B) (C : platform) (StringWidth : string -> Z) (config_StartHeight : Z) (writer : conn) params,
     handleMethod R C sorter ord StringWidth config_StartHeight writer method params =
     (scripthash ← parseScripthashParam params; m ← mempool;
      x ← internal (sdb (q m scripthash)); mret (f x))) ->
  reads (q (w_mp (mw_world w)) sh) (w_db (mw_world w)) a -> told method sh w (f a).
Proof.
  intros Hl Hm (d & E & _) R C SW csh writer. rewrite Hm. unfold on_server. fold (server_of w).
  rewrite (st_bind_run _ _ _ _ _ (parse_scripthash sh (server_of w) Hl)).
  rewrite (st_bind_run mempool _ (server_of w) (w_mp (mw_world w)) (server_of w)) by done.
  by rewrite (st_bind_run _ _ _ _ _ (internal_run _ _ _ _ (sdb_run _ (server_of w) _ _ E))).
Qed.

(** Every scripthash is answered from the ledger of the blocks [bs]. *)
Definition ledger_served (bs : list MsgBlock) (w : mworld) : Prop := forall sh, length sh = 32%nat ->
  (exists l, told "blockchain.scripthash.get_history" sh w (VList (history_value <$> l)) /\
     is_history ord (w_mp (mw_world w)) s bs sh l) /\
  (exists l, told "blockchain.scripthash.listunspent" sh w (VList (unspent_value <$> l)) /\
     is_unspent ord (w_mp (mw_world w)) s bs sh l) /\
  (exists b, told "blockchain.scripthash.get_balance" sh w (balance_value b) /\
     is_balance ord (w_mp (mw_world w)) s bs sh b).

Lemma in_step_served t w : good_chain s (blocks_to nb s t) -> in_step nb s t (mw_cm w) ->
  ledger_served (blocks_to nb s t) w.
Proof.
  intros Gt S sh Hl.
  destruct (mirrors_answered sorter ord (w_mp (mw_world w)) (w_db (mw_world w)) s (blocks_to nb s t))
    with (sh := sh) as ((l & H1 & H2) & (u & H3 & H4) & (b & H5 & H6)); [apply S|apply S|done|done|].
  split_and!; [exists l|exists u|exists b]; (split; [|done]).
  - by apply (told_query _ _ _ (GetScripthashHistory sorter ord) (fun l => VList (history_value <$> l))).
  - by apply (told_query _ _ _ (GetScripthashUnspent ord) (fun l => VList (unspent_value <$> l))).
  - by apply (told_query _ _ _ (GetScripthashBalance ord) balance_value).
Qed.

(** One event of the main loop, one line of a client, the end of a connection, or
    a restart on the database as it is.  The node is another one at each step, as
    far as its answers tell; what it answers is the truth about one chain. *)
Inductive ledger_step : relation mworld :=
| lst_event N M clock fuel e w : honest N nb top -> chain_event nb top e ->
    ledger_step w (main_event N M sorter ord cfg clock fuel e w).2
| lst_request (R : rpc_node B) (C : platform) (StringWidth : string -> Z) (config_StartHeight : Z) writer line w :
    ledger_step w (on_server (serve_line R C sorter ord StringWidth config_StartHeight writer line) w).2
| lst_disconnect writer w : ledger_step w (on_server (on_subs (Unsubscribe ord writer)) w).2
| lst_restart N M clock fuel info d b w w' : honest N nb top ->
    healthy d -> contents d = contents (w_db (mw_world w)) ->
    startup N M ord cfg clock fuel info (main_world d) = (Ok b, w') -> ledger_step w w'.

Lemma step_in_step t w w' : 1 <= s <= top + 1 -> good_chain s (blocks_to nb s top) -> ledger_step w w' ->
  s - 1 <= t <= top -> in_step nb s t (mw_cm w) -> exists t', t <= t' <= top /\ in_step nb s t' (mw_cm w').
Proof.
  intros Hs G Hstep Ht S. destruct Hstep as [N M clock fuel e w HN He|R C SW csh writer line w|writer w
    |N M clock fuel info d b w w' HN Hd Hc E].
  - by apply (onward_event N M sorter ord cfg clock fuel nb top s HN Hs G e He w t Ht S).
  - apply (onward_server nb top s); [|done..]. apply (request_rel sorter ord looks writer).
  - apply (onward_server nb top s); [|done..]. intros v. by apply looks_same.
  - eapply (startup_in_step N M ord cfg clock fuel nb top s HN Hs G info d t); [|done|exact E].
    destruct S as [M1 M2 _ _ (cp & C1 & C2 & C3 & C4 & C5)].
    eapply servable_saved; try rewrite Hc; try done. apply M2.
Qed.

Lemma steps_in_step w w' : 1 <= s <= top + 1 -> good_chain s (blocks_to nb s top) -> rtc ledger_step w w' ->
  forall t, s - 1 <= t <= top -> in_step nb s t (mw_cm w) -> exists t', t <= t' <= top /\ in_step nb s t' (mw_cm w').
Proof.
  intros Hs G. induction 1 as [w|w w1 w2 Hstep _ IH]; intros t Ht S; [by exists t; split; [lia|]|].
  destruct (step_in_step t w w1 Hs G Hstep Ht S) as (t1 & Ht1 & S1).
  destruct (IH t1) as (t2 & Ht2 & S2); [lia|done|]. exists t2. by split; [lia|].
Qed.

End Program.

(** When the node answers every call, the tip check brings the rest. *)
Lemma tip_check_in_step (N : node) (M : pool_node) (sorter : slice_sort) (ord : range_order) (cfg : Config)
    (clock : nat -> Z) (n : nat) (nb : Z -> MsgBlock) (top s t : Z) (w : mworld) :
  serves N nb top -> top <= 2 ^ 30 -> 1 <= s <= top + 1 -> good_chain s (blocks_to nb s top) -> s - 1 <= t <= top ->
  in_step nb s t (mw_cm w) -> pruneHeight (mw_cm w) <= t ->
  in_step nb s top (mw_cm (main_event N M sorter ord cfg clock (S n) EvReorgTick w).2).
Proof.
  intros HS Hbig Hs G Ht S Hp. pose proof (serves_honest _ _ _ HS Hbig) as HN.
  destruct (onward_event N M sorter ord cfg clock (Datatypes.S n) nb top s HN Hs G EvReorgTick I w t Ht S)
    as (t' & Ht' & S').
  destruct (decide (t = top)) as [->|]; [by replace t' with top in S' by lia|].
  destruct (is_tip _ _ _ _ S) as [E1 E2].
  destruct (tip_check_run N M sorter ord cfg clock (Datatypes.S n) nb top n w) as (w' & E & [T1 _] & _);
    [done|done|done|lia|rewrite (is_start _ _ _ _ S); lia|by split; [|rewrite E1]|apply S|lia|].
  rewrite E in S' |- *. cbn [snd] in *. by rewrite (proj1 (is_tip _ _ _ _ S')) in T1; subst t'.
Qed.

(** C1: the server serves the ledger: started on a fresh database, or on one it
    left in step with the node's chain, against a node that may fail any call and
    learn of new blocks at any time but never tells an untruth about that chain,
    and after any sequence of blocks of the chain, in any order and repeated,
    transactions, gaps, reconciliations, checks and prunes, of lines of clients and
    disconnections, and of restarts, there is a height [t], not below the one the
    program started from, such that the tip, in memory and in the checkpoint, is
    block [t], and whatever scripthash a client asks for, its history, unspent
    outputs and balance are those of the ledger of the blocks up to [t] and of the
    overlay of that moment; and once a tip check finds the node answering every
    call, and nothing it needs pruned, they are those of the whole chain. *)
Theorem server_serves_ledger (N : node) (M : pool_node) (sorter : slice_sort) (ord : range_order) (cfg : Config)
    (clock : nat -> Z) (fuel : nat) (info : BlockchainInfo) (nb : Z -> MsgBlock) (top s h : Z) (db : pdb)
    (b : bool) (w0 w : mworld)
    (HN : honest N nb top) (Hs : 1 <= s) (Hh : s - 1 <= h <= top) (Hgood : good_chain s (blocks_to nb s top))
    (Hdb : servable cfg nb s info db h)
    (Hstart : startup N M ord cfg clock fuel info (main_world db) = (Ok b, w0))
    (Hrun : rtc (ledger_step sorter ord cfg nb top) w0 w) :
  exists t, h <= t <= top /\ tip_on nb t (mw_cm w) /\ tip_saved (mw_cm w) /\
    ledger_served sorter ord s (blocks_to nb s t) w /\
    forall N' M' clock' n, serves N' nb top -> pruneHeight (mw_cm w) <= t ->
      let w' := (main_event N' M' sorter ord cfg clock' (S n) EvReorgTick w).2 in
      tip_on nb top (mw_cm w') /\ ledger_served sorter ord s (blocks_to nb s top) w'.
Proof.
  assert (Hs' : 1 <= s <= top + 1) by lia.
  destruct (startup_in_step N M ord cfg clock fuel nb top s HN Hs' Hgood info db h w0 b Hdb Hh Hstart) as (t0 & Ht0 & S0).
  destruct (steps_in_step sorter ord cfg nb top s w0 w Hs' Hgood Hrun t0 ltac:(lia) S0) as (t & Ht & S).
  exists t. split; [lia|]. split; [apply S|]. split.
  { destruct (is_saved _ _ _ _ S) as (cp & C1 & C2 & C3 & C4 & _). destruct (is_tip _ _ _ _ S) as [T1 T2].
    exists cp. rewrite T1, T2. done. }
  split; [apply in_step_served; [|done]; apply (good_to nb top s Hgood t); lia|].
  intros N' M' clock' n HS Hp w'. pose proof (ho_top _ _ _ HN).
  assert (S' : in_step nb s top (mw_cm w')) by (apply (tip_check_in_step N' M' sorter ord cfg clock' n nb top s t w); done || lia).
  split; [apply S'|]. by apply in_step_served.
Qed.

End Live.

(** ** Witness: the first start of the sample program, a block and a request *)

Lemma sample_servable : servable first_config node_chain 1 no_prune (w_db world0) 0.
Proof.
  apply (servable_fresh first_config node_chain 1 no_prune (w_db world0));
    [reflexivity|exact typed_world0|exact empty_no_blocks|reflexivity|vm_compute; reflexivity].
Qed.

Lemma sample_block_event : chain_event node_chain 3 (EvBlock (Some other3)).
Proof. exists 3. by split; [lia|]. Qed.

Definition sample_start : result bool * @mworld MemPebble ModelBtcd :=
  startup sample_node sample_pool id_order first_config sample_clock 1 no_prune (main_world (w_db world0)).

Lemma sample_start_run : sample_start = (Ok true, sample_start.2).
Proof.
  assert (E : sample_start.1 = Ok true) by (vm_compute; reflexivity). rewrite <- E. apply surjective_pairing.
Qed.

Definition sample_blocked : mworld := (main_event sample_node sample_pool merge_sorter id_order first_config
  sample_clock 1 (EvBlock (Some other3)) sample_start.2).2.

Lemma server_serves_ledger_witness : exists t, 0 <= t <= 3 /\ tip_on node_chain t (mw_cm (sample_serve sample_blocked)) /\
  ledger_served merge_sorter id_order 1 (blocks_to node_chain 1 t) (sample_serve sample_blocked).
Proof.
  pose proof (serves_honest _ _ _ sample_serves ltac:(lia)) as HN.
  destruct (server_serves_ledger sample_node sample_pool merge_sorter id_order first_config sample_clock 1 no_prune
    node_chain 3 1 0 (w_db world0) true sample_start.2 (sample_serve sample_blocked)) as (t & Ht & Htip & _ & Hserved & _);
    [exact HN|lia|lia|exact node_good|exact sample_servable|exact sample_start_run|
    |exists t; split; [exact Ht|split; [exact Htip|exact Hserved]]].
  apply (rtc_l _ _ sample_blocked).
  - exact (lst_event merge_sorter id_order first_config node_chain 3 sample_node sample_pool sample_clock 1
      (EvBlock (Some other3)) sample_start.2 HN sample_block_event).
  - apply rtc_once. exact (lst_request merge_sorter id_order first_config node_chain 3 sample_rpc_node amd64
      (fun s => Z.of_nat (slen s)) 0 1%positive subscribe_line sample_blocked).
Defined.
