(* ===== verification/Metrics.v ===== *)
(** * The metrics: [internal/metrics/metrics.go]

    The collectors, their registration, the sampler of the database's size and
    [ObserveBitcoinRPC].  What a collector does with a call is the Prometheus
    library's business: the program's part is the sequence of calls it makes, and a
    computation that is metered has that sequence as part of its state.  The
    durations observed come from the clock and are not recorded. *)

From Stdlib Require Import Strings.Byte Strings.Ascii Strings.String.
From S2P Require Import Prelude Bytes GoFloat Types.

(** ** The collectors *)

Inductive collector :=
| ChainHeight | BitcoinCoreHeight | MempoolTxCount | ActiveConnections | Subscriptions | DBSizeBytes | Info
| BlocksIndexed | MempoolTxsReceived | MempoolTxsIndexed | Reorgs | ZMQSeqGaps | BitcoinRPCErrors
| ElectrumRPCDuration | BlockIndexDuration | BitcoinRPCDuration.

#[export] Instance collector_eq_dec : EqDecision collector.
Proof. solve_decision. Defined.

Inductive collector_kind := Gauge | Counter | Histogram.

Record Opts := mkOpts { o_kind : collector_kind; o_Name : string; o_Help : string; o_labels : list string }.

Definition opts (c : collector) : Opts :=
  match c with
  | ChainHeight => mkOpts Gauge "electrum_go_chain_height"
      "Currently indexed chain tip height." []
  | BitcoinCoreHeight => mkOpts Gauge "electrum_go_bitcoin_core_height"
      "Last-seen bitcoind tip height from periodic checks." []
  | MempoolTxCount => mkOpts Gauge "electrum_go_mempool_tx_count"
      "Current number of transactions in the mempool overlay." []
  | ActiveConnections => mkOpts Gauge "electrum_go_active_connections"
      "Currently open Electrum client connections." []
  | Subscriptions => mkOpts Gauge "electrum_go_subscriptions"
      "Active subscriptions by type (scripthash, header, conn)." ["type"]
  | DBSizeBytes => mkOpts Gauge "electrum_go_db_size_bytes"
      "Pebble database on-disk size in bytes (sampled periodically)." []
  | Info => mkOpts Gauge "electrum_go_info"
      "Build and runtime metadata; always set to 1." ["version"; "commit"; "chain"]
  | BlocksIndexed => mkOpts Counter "electrum_go_blocks_indexed_total"
      "Total blocks successfully indexed." []
  | MempoolTxsReceived => mkOpts Counter "electrum_go_mempool_txs_received_total"
      "Total mempool transactions received from ZMQ." []
  | MempoolTxsIndexed => mkOpts Counter "electrum_go_mempool_txs_indexed_total"
      "Total mempool transactions successfully added to the overlay." []
  | Reorgs => mkOpts Counter "electrum_go_reorgs_total"
      "Total chain reorganizations detected." []
  | ZMQSeqGaps => mkOpts Counter "electrum_go_zmq_seq_gaps_total"
      "Total ZMQ sequence gaps detected, by stream." ["stream"]
  | BitcoinRPCErrors => mkOpts Counter "electrum_go_bitcoin_rpc_errors_total"
      "Total errors returned by bitcoind RPC calls." []
  | ElectrumRPCDuration => mkOpts Histogram "electrum_go_electrum_rpc_duration_seconds"
      "Electrum method handler latency in seconds, by method." ["method"]
  | BlockIndexDuration => mkOpts Histogram "electrum_go_block_index_duration_seconds"
      "Time to index a single block in seconds." []
  | BitcoinRPCDuration => mkOpts Histogram "electrum_go_bitcoin_rpc_duration_seconds"
      "bitcoind RPC call latency in seconds, by method." ["method"]
  end%string.

(** The slice of [Init]. *)
Definition collectors : list collector := [
  ChainHeight; BitcoinCoreHeight; MempoolTxCount; ActiveConnections;
  Subscriptions; DBSizeBytes; Info;
  BlocksIndexed; MempoolTxsReceived; MempoolTxsIndexed; Reorgs;
  ZMQSeqGaps; BitcoinRPCErrors;
  ElectrumRPCDuration; BlockIndexDuration; BitcoinRPCDuration].

(** ** Calls *)

Inductive mcall :=
| MSet (c : collector) (labels : list string) (v : float64)
| MInc (c : collector) (labels : list string)
| MDec (c : collector) (labels : list string)
| MObserve (c : collector) (labels : list string).

Definition call_collector (m : mcall) : collector :=
  match m with MSet c _ _ | MInc c _ | MDec c _ | MObserve c _ => c end.
Definition call_labels (m : mcall) : list string :=
  match m with MSet _ l _ | MInc _ l | MDec _ l | MObserve _ l => l end.

(** The calls the type of a collector has; [WithLabelValues] panics on another
    number of labels than its own (and on one that is not UTF-8, which no label
    the program makes is). *)
Definition call_ok (m : mcall) : bool :=
  (length (call_labels m) =? length (o_labels (opts (call_collector m))))%nat &&
  match m, o_kind (opts (call_collector m)) with
  | (MSet _ _ _ | MDec _ _), Gauge | MInc _ _, (Gauge | Counter) | MObserve _ _, Histogram => true
  | _, _ => false
  end.

(** What a reader of the exporter sees of one: the increments of a counter, the
    last value a gauge was set to. *)
Definition is_increment (c : collector) (m : mcall) : bool :=
  match m with MInc c' _ => bool_decide (c' = c) | _ => false end.

Definition increments (c : collector) (l : list mcall) : Z :=
  Z.of_nat (length (filter (fun m => is_increment c m = true) l)).

Definition last_set (c : collector) (l : list mcall) : option float64 :=
  foldl (fun v m => match m with MSet c' _ v' => if decide (c' = c) then Some v' else v | _ => v end) None l.

(** ** Metered computations *)

Section Metered.
Context {W : Type}.

Definition lift {A} (m : st W A) : st (W * list mcall) A := fun '(w, t) =>
  let '(r, w) := m w in (r, (w, t)).

(** A call the collector has not panics, and is not made. *)
Definition bad_labels : error := go_panic "inconsistent label cardinality".

Definition emit (m : mcall) : st (W * list mcall) unit := fun '(w, t) =>
  if call_ok m then (Ok (), (w, t ++ [m])) else (Err bad_labels, (w, t)).

Fixpoint emits (l : list mcall) : st (W * list mcall) unit :=
  match l with
  | [] => mret ()
  | m :: l => _ ← emit m; emits l
  end.

Lemma emits_run l w t : forallb call_ok l = true -> emits l (w, t) = (Ok (), (w, t ++ l)).
Proof.
  revert t; induction l as [|m l IH]; intros t; cbn [emits forallb]; [by rewrite app_nil_r|].
  intros [Hm Hl]%andb_true_iff. unfold mbind, st_bind, emit. rewrite Hm, IH by done. by rewrite <- app_assoc.
Qed.

Definition ObserveBitcoinRPC (method : string) (failed : bool) : list mcall :=
  MObserve BitcoinRPCDuration [method] :: (if failed then [MInc BitcoinRPCErrors []] else []).

(** [x, err := client.Call(); metrics.ObserveBitcoinRPC(method, rpcStart, err)] *)
Definition observed {A} (method : string) (m : st W A) : st (W * list mcall) A :=
  r ← st_try (lift m);
  _ ← emits (ObserveBitcoinRPC method (negb (is_Ok r)));
  st_lift r.

(** [erases m' m]: without its metrics, [m'] is [m]. *)
Definition erases {A} (m' : st (W * list mcall) A) (m : st W A) : Prop := forall w t,
  exists d, m' (w, t) = ((m w).1, ((m w).2, t ++ d)) /\ forallb call_ok d = true.

Lemma erases_lift {A} (m : st W A) : erases (lift m) m.
Proof. intros w t. exists []. rewrite app_nil_r. unfold lift. by destruct (m w). Qed.

Lemma erases_ret {A} (a : A) : erases (mret a) (mret a).
Proof. intros w t. exists []. by rewrite app_nil_r. Qed.

Lemma erases_fail {A} e : erases (st_fail (A := A) e) (st_fail e).
Proof. intros w t. exists []. by rewrite app_nil_r. Qed.

Lemma erases_bind {A C} (m' : st (W * list mcall) A) (m : st W A) (f' : A -> st (W * list mcall) C) f :
  erases m' m -> (forall a, erases (f' a) (f a)) -> erases (m' ≫= f') (m ≫= f).
Proof.
  intros Hm Hf w t. destruct (Hm w t) as (d & E & Hd). unfold mbind, st_bind. rewrite E.
  destruct (m w) as [[a|e] w1]; cbn [fst snd]; [|by exists d].
  destruct (Hf a w1 (t ++ d)) as (d' & E' & Hd'). exists (d ++ d'). rewrite E', app_assoc. split; [done|].
  by rewrite forallb_app, Hd, Hd'.
Qed.

(** Emitting is no step of the plain computation. *)
Lemma erases_emits {A} l (m' : st (W * list mcall) A) (m : st W A) : forallb call_ok l = true ->
  erases m' m -> erases (_ ← emits l; m') m.
Proof.
  intros Hl Hm w t. destruct (Hm w (t ++ l)) as (d & E & Hd). exists (l ++ d).
  unfold mbind, st_bind. rewrite (emits_run _ _ _ Hl), E, app_assoc. split; [done|]. by rewrite forallb_app, Hl, Hd.
Qed.

Lemma erases_try {A} (m' : st (W * list mcall) A) (m : st W A) : erases m' m -> erases (st_try m') (st_try m).
Proof.
  intros Hm w t. destruct (Hm w t) as (d & E & Hd). exists d. unfold st_try. rewrite E. by destruct (m w).
Qed.

Lemma erases_wrap {A} pre (m' : st (W * list mcall) A) (m : st W A) : erases m' m ->
  erases (st_wrap pre m') (st_wrap pre m).
Proof.
  intros Hm w t. destruct (Hm w t) as (d & E & Hd). exists d. unfold st_wrap. rewrite E.
  by destruct (m w) as [[a|e] w1].
Qed.

Lemma ObserveBitcoinRPC_ok method failed : forallb call_ok (ObserveBitcoinRPC method failed) = true.
Proof. by destruct failed. Qed.

Lemma observed_run {A} method (m : st W A) w t : observed method m (w, t) =
  ((m w).1, ((m w).2, t ++ ObserveBitcoinRPC method (negb (is_Ok (m w).1)))).
Proof.
  unfold observed, mbind, st_bind, st_try, lift. destruct (m w) as [r w1].
  by rewrite (emits_run _ _ _ (ObserveBitcoinRPC_ok method (negb (is_Ok r)))).
Qed.

Lemma erases_observed {A} method (m : st W A) : erases (observed method m) m.
Proof. intros w t. rewrite observed_run. eexists. split; [done|]. apply ObserveBitcoinRPC_ok. Qed.

End Metered.

Create HintDb erases.
#[export] Hint Resolve erases_lift erases_ret erases_fail erases_observed : erases.

(** [solve_erases]: follow the code. *)
Ltac solve_erases :=
  repeat first
    [ progress intros
    | solve [eauto 3 with erases]
    | apply erases_emits; [reflexivity|]
    | apply erases_wrap | apply erases_try
    | apply erases_bind
    | match goal with
      | |- erases (if ?b then _ else _) _ => destruct b
      | |- erases (match ?x with _ => _ end) _ => destruct x
      end ].

(** ** Registration *)

(** The names and labels the library takes:
    [[a-zA-Z_:][a-zA-Z0-9_:]*] and [[a-zA-Z_][a-zA-Z0-9_]*]. *)
Definition name_start (colon : bool) (c : ascii) : bool :=
  let n := N_of_ascii c in
  ((97 <=? n)%N && (n <=? 122)%N) || ((65 <=? n)%N && (n <=? 90)%N) || (n =? 95)%N || (colon && (n =? 58)%N).

Definition name_char (colon : bool) (c : ascii) : bool :=
  let n := N_of_ascii c in name_start colon c || ((48 <=? n)%N && (n <=? 57)%N).

Definition valid_name (colon : bool) (name : string) : bool :=
  match list_ascii_of_string name with
  | [] => false
  | c :: l => name_start colon c && forallb (name_char colon) l
  end.

Definition valid_opts (o : Opts) : bool :=
  valid_name true (o_Name o) && forallb (valid_name false) (o_labels o) && bool_decide (NoDup (o_labels o)).

(** A registry takes each name once, and [MustRegister] panics otherwise. *)
Class Prometheus := {
  Registry : Type;
  NewRegistry : Registry;
  MustRegister : Opts -> Registry -> result Registry;
}.

Class PrometheusLaws (R : Prometheus) := {
  registered : Registry -> list string;
  registered_new : registered NewRegistry = [];
  MustRegister_new o r : valid_opts o = true -> o_Name o ∉ registered r ->
    exists r', MustRegister o r = Ok r' /\ registered r' = o_Name o :: registered r;
  MustRegister_again o r : o_Name o ∈ registered r -> exists e, MustRegister o r = Err e;
}.

Section Init.
Context {R : Prometheus}.

Definition register (c : collector) : st (Registry * list mcall) unit := fun '(r, t) =>
  match MustRegister (opts c) r with
  | Ok r => (Ok (), (r, t))
  | Err e => (Err e, (r, t))
  end.

Definition Init (chain version commit : string) : st (Registry * list mcall) unit :=
  _ ← st_foldM (fun _ c => register c) () collectors;
  emits [MSet Info [version; commit; chain] (float_of_Z 1)].

Context {L : PrometheusLaws R}.

Lemma opts_valid c : valid_opts (opts c) = true.
Proof. destruct c; vm_compute; reflexivity. Qed.

Lemma register_all l r t : NoDup (o_Name ∘ opts <$> l) -> (forall c, c ∈ l -> o_Name (opts c) ∉ registered r) ->
  exists r', st_foldM (fun _ c => register c) () l (r, t) = (Ok (), (r', t)) /\
    registered r' = reverse (o_Name ∘ opts <$> l) ++ registered r.
Proof.
  revert r; induction l as [|c l IH]; intros r Hnd Hl; [by exists r|]. rewrite fmap_cons in Hnd.
  apply NoDup_cons in Hnd as [Hn Hnd]. cbn [st_foldM].
  destruct (MustRegister_new (opts c) r (opts_valid c)) as (r1 & E & Hr1); [apply Hl; by left|].
  rewrite (st_bind_run (register c) _ (r, t) () (r1, t)) by (unfold register; by rewrite E).
  destruct (IH r1 Hnd) as (r2 & E2 & Hr2).
  { intros c' Hc'. rewrite Hr1, elem_of_cons. intros [Ec|Hin]; [|by apply (Hl c'); [right|]].
    apply Hn. change ((o_Name ∘ opts) c ∈ o_Name ∘ opts <$> l). unfold compose. rewrite <- Ec.
    by apply (list_elem_of_fmap_2 (o_Name ∘ opts)). }
  exists r2. rewrite E2, Hr2, Hr1, fmap_cons, reverse_cons, <- app_assoc. done.
Qed.

Lemma collector_listed c : c ∈ collectors.
Proof. apply list_elem_of_In. destruct c; cbn; tauto. Qed.

Lemma names_distinct : NoDup (o_Name ∘ opts <$> collectors).
Proof. apply (bool_decide_eq_true_1 _). vm_compute. reflexivity. Qed.

(** Metrics are initialised once: [Init] on the program's registry returns,
    every collector of the package is exported under a name of its own, and a
    second [Init] panics. *)
Theorem metrics_registered_once (chain version commit : string) (t : list mcall) :
  exists r, Init chain version commit (NewRegistry, t) =
      (Ok (), (r, t ++ [MSet Info [version; commit; chain] (float_of_Z 1)])) /\
    (forall c, o_Name (opts c) ∈ registered r) /\ NoDup (registered r) /\
    forall t', exists e, Init chain version commit (r, t') = (Err e, (r, t')).
Proof.
  destruct (register_all collectors NewRegistry t names_distinct) as (r & E & Hr).
  { intros c _. rewrite registered_new. by intros ?%elem_of_nil. }
  rewrite registered_new, app_nil_r in Hr. exists r. unfold Init. rewrite (st_bind_run _ _ _ _ _ E).
  assert (Hall : forall c, o_Name (opts c) ∈ registered r).
  { intros c. rewrite Hr, elem_of_reverse. apply (list_elem_of_fmap_2 (o_Name ∘ opts)), collector_listed. }
  split_and!; [done|done|rewrite Hr, reverse_Permutation; apply names_distinct|].
  intros t'. destruct (MustRegister_again (opts ChainHeight) r (Hall _)) as [e Ee]. exists e.
  unfold collectors. cbn [st_foldM]. unfold mbind, st_bind, register. by rewrite Ee.
Qed.

End Init.

(** A registry that is the list of its names. *)
#[export] Instance NameRegistry : Prometheus := {
  Registry := list string;
  NewRegistry := [];
  MustRegister o r := if decide (o_Name o ∈ r) then Err (ENew "duplicate metrics collector registration attempted")
                      else Ok (o_Name o :: r);
}.

#[export] Instance NameRegistryLaws : PrometheusLaws NameRegistry.
Proof.
  apply (Build_PrometheusLaws NameRegistry (fun r => r)).
  - done.
  - intros o r _ Hr. exists (o_Name o :: r). cbn. by rewrite decide_False.
  - intros o r Hr. cbn. rewrite decide_True by done. by eexists.
Defined.

Lemma metrics_registered_once_witness : exists r : @Registry NameRegistry,
  (Init "main" "v1" "abc" (NewRegistry, [])).1 = Ok () /\ NoDup (registered r) /\
  (forall c, o_Name (opts c) ∈ registered r).
Proof.
  destruct (metrics_registered_once (L := NameRegistryLaws) "main" "v1" "abc" []) as (r & E & Hall & Hnd & _).
  exists r. rewrite E. split; [reflexivity|]. split; [exact Hnd|exact Hall].
Defined.

(** ** The exporter *)

(** [net.Listen] and [srv.Serve] are arguments; the error ends the goroutine. *)
Definition ServeMetrics (listen : string -> result unit) (serve : error) (addr : string) : error :=
  match listen addr with
  | Err err => err
  | Ok _ => serve
  end.

(** ** The size of the database *)

(** What [filepath.Walk] visits: an entry, or the error it met there.  The
    callback never stops the walk, so the walk itself has no error. *)
Record FileInfo := mkFileInfo { fi_IsDir : bool; fi_Size : Z }.

Definition walk_entry (total : Z) (f : result FileInfo) : Z :=
  match f with
  | Err _ => total
  | Ok info => if fi_IsDir info then total else i64 (total + fi_Size info)
  end.

Definition sample (files : list (result FileInfo)) : list mcall :=
  [MSet DBSizeBytes [] (float_of_Z (foldl walk_entry 0 files))].

(** The goroutine of [StartDBSizeSampler]: it samples at once, then at each tick
    until the context is done. *)
Inductive sampler := SamplerStarted | SamplerWaiting | SamplerReturned.

Inductive sampler_label :=
| LSampleNow (files : list (result FileInfo))
| LTick (files : list (result FileInfo))
| LCancelled.

Definition sampler_step (cancelled : bool) (l : sampler_label) (s : sampler * list mcall) :
    option (sampler * list mcall) :=
  match l, s with
  | LSampleNow files, (SamplerStarted, t) => Some (SamplerWaiting, t ++ sample files)
  | LTick files, (SamplerWaiting, t) => Some (SamplerWaiting, t ++ sample files)
  | LCancelled, (SamplerWaiting, t) => if cancelled then Some (SamplerReturned, t) else None
  | _, _ => None
  end.

(** The sum of the sizes of the regular files, as long as it fits. *)
Definition file_sizes (files : list (result FileInfo)) : Z :=
  foldr (fun f total => match f with Ok info => if fi_IsDir info then total else fi_Size info + total | Err _ => total end)
    0 files.

Lemma walk_total files total : Forall (fun f => forall info, f = Ok info -> 0 <= fi_Size info) files ->
  0 <= total -> total + file_sizes files < 2 ^ 63 -> foldl walk_entry total files = total + file_sizes files.
Proof.
  intros Hf. revert total; induction Hf as [|f files Hi Hf IH]; intros total H0 Hlt; cbn [foldl file_sizes foldr] in *; [lia|].
  assert (Hpos : 0 <= file_sizes files).
  { clear -Hf. induction Hf as [|f files Hi _ IH]; cbn [file_sizes foldr]; [lia|].
    destruct f as [info|]; [|done]. specialize (Hi info eq_refl). destruct (fi_IsDir info); [done|]. fold (file_sizes files). lia. }
  fold (file_sizes files) in *. unfold walk_entry at 2. destruct f as [info|]; [|by apply IH].
  specialize (Hi info eq_refl). destruct (fi_IsDir info); [by apply IH|].
  rewrite i64_id by (unfold in_i64; lia). rewrite IH by lia. lia.
Qed.

(** The sampler sets the gauge to the size of the regular files at each round,
    the first before it waits; once the context is done it can return, and then
    it makes no further call. *)
Theorem database_size_sampled (cancelled : bool) (files : list (result FileInfo)) (t : list mcall)
    (Hsize : Forall (fun f => forall info, f = Ok info -> 0 <= fi_Size info) files)
    (Hsum : file_sizes files < 2 ^ 63) :
  sampler_step cancelled (LSampleNow files) (SamplerStarted, t) =
    Some (SamplerWaiting, t ++ [MSet DBSizeBytes [] (float_of_Z (file_sizes files))]) /\
  sampler_step cancelled (LTick files) (SamplerWaiting, t) =
    Some (SamplerWaiting, t ++ [MSet DBSizeBytes [] (float_of_Z (file_sizes files))]) /\
  sampler_step true LCancelled (SamplerWaiting, t) = Some (SamplerReturned, t) /\
  forall l, sampler_step cancelled l (SamplerReturned, t) = None.
Proof.
  cbn [sampler_step]. unfold sample. rewrite walk_total by (done || lia).
  split_and!; [done..|]. by intros [].
Qed.

Lemma database_size_sampled_witness :
  sampler_step false (LTick [Ok (mkFileInfo true 4096); Ok (mkFileInfo false 700); Err (ENew "gone")]) (SamplerWaiting, []) =
    Some (SamplerWaiting, [MSet DBSizeBytes [] (float_of_Z 700)]).
Proof.
  apply (database_size_sampled false [Ok (mkFileInfo true 4096); Ok (mkFileInfo false 700); Err (ENew "gone")] []);
    [|reflexivity].
  repeat (apply Forall_cons; split; [intros i; first [intros [= <-]; cbn; lia|discriminate]|]). by apply Forall_nil.
Defined.
