(* ===== verification/Metered.v ===== *)
(** * What the chain manager reports: the metrics in [internal/indexer/chain.go]
    and [block.go], [cmd/server/run.go] and [main.go]

    The chain manager's operations with the calls they make on the collectors.
    Without those calls they are the operations of [Chain]. *)

From Stdlib Require Import Strings.Byte.
From S2P Require Import Prelude Bytes Hex Json Checkpoint Pebble Store Types Mempool Block Reorg ReorgChain Chain GoFloat Metrics.

Section Metered.
Context {P : Pebble} {B : Btcd} {Zs : Zstd}.
Context (N : node) (ord : range_order) (maxReorgDepth : Z).

Notation mst := (st (cworld * list mcall)).

(** [IndexBlock] reports when its batch is committed. *)
Definition index_m (block : MsgBlock) (height : Z) : mst unit :=
  _ ← lift (index ord block height);
  emits [MObserve BlockIndexDuration []; MInc BlocksIndexed []; MSet ChainHeight [] (float_of_Z height)].

Definition Initialize_m : mst unit :=
  result ← st_wrap "reorg check failed: " (lift (on_rw (CheckAndHandle (node_hash N) maxReorgDepth)));
  _ ← (if rr_ReorgDetected result then emits [MInc Reorgs []] else mret ());
  state ← st_wrap "failed to get chain state: " (lift (on_db GetChainState));
  _ ← lift (set_tip (cs_Height state) (cs_BlockHash state));
  '(checkpoint, err) ← lift (on_db LoadCheckpoint);
  if decide (err = None /\ 0 < cp_StartHeight checkpoint)
  then lift (set_start (cp_StartHeight checkpoint))
  else mret ().

Definition reorg_retry_m : mst Z :=
  _ ← emits [MInc Reorgs []];
  lift (reorg_retry N maxReorgDepth).

Fixpoint catch_up_loop_m (again : mst unit) (n : nat) (height targetHeight : Z) : mst unit :=
  if targetHeight <? height then mret ()
  else
    match n with
    | O => st_fail out_of_fuel
    | S n =>
        hash ← st_wrap ("failed to get block hash at height " +:+ fmt_d height +:+ ": ")
                 (observed "getblockhash" (core_hash N height));
        block ← st_wrap ("failed to get block at height " +:+ fmt_d height +:+ ": ")
                  (observed "getblock" (GetBlock N hash));
        tip ← lift (st_gets currentHash);
        if negb (hash_IsEqual (header_PrevBlock (block_Header block)) tip)
        then _ ← lift (handle_reorg N maxReorgDepth "reorg during catch-up: "); again
        else
          _ ← st_wrap ("failed to index block " +:+ fmt_d height +:+ ": ") (index_m block height);
          _ ← lift (set_tip height (header_BlockHash (block_Header block)));
          catch_up_loop_m again n (i32 (height + 1)) targetHeight
    end.

Fixpoint CatchUpTo_m (fuel : nat) (targetHeight : Z) : mst unit :=
  match fuel with
  | O => st_fail out_of_fuel
  | S fuel =>
      tip ← lift (st_gets currentHeight);
      if targetHeight <=? tip then mret ()
      else catch_up_loop_m (CatchUpTo_m fuel targetHeight) (Z.to_nat (targetHeight - tip))
             (i32 (tip + 1)) targetHeight
  end.

Fixpoint ProcessBlock_m (fuel : nat) (block : MsgBlock) : mst Z :=
  match fuel with
  | O => st_fail out_of_fuel
  | S fuel =>
      let blockHash := header_BlockHash (block_Header block) in
      cm ← lift (st_gets id);
      if hash_IsEqual (header_PrevBlock (block_Header block)) (currentHash cm) then
        let newHeight := i32 (currentHeight cm + 1) in
        _ ← st_wrap ("failed to index block at height " +:+ fmt_d newHeight +:+ ": ")
              (index_m block newHeight);
        _ ← lift (set_tip newHeight blockHash);
        mret newHeight
      else
        actualHeight ← st_wrap "block not found in Core: " (lift (GetBlockHeaderVerbose N blockHash));
        if actualHeight <=? currentHeight cm then reorg_retry_m
        else if i32 (currentHeight cm + 1) <? actualHeight then
          _ ← st_wrap "catch-up failed: " (CatchUpTo_m fuel (i32 (actualHeight - 1)));
          ProcessBlock_m fuel block
        else reorg_retry_m
  end.

(** ** Gaps *)

Fixpoint repair_loop_m (n : nat) (height endHeight : Z) : mst unit :=
  if endHeight <? height then mret ()
  else
    match n with
    | O => st_fail out_of_fuel
    | S n =>
        hash ← st_wrap ("failed to get block hash at " +:+ fmt_d height +:+ ": ") (lift (core_hash N height));
        block ← st_wrap ("failed to get block at " +:+ fmt_d height +:+ ": ") (lift (GetBlock N hash));
        _ ← st_wrap ("failed to index block " +:+ fmt_d height +:+ ": ") (index_m block height);
        repair_loop_m n (i32 (height + 1)) endHeight
    end.

Definition repairGap_m (startHeight endHeight : Z) : mst unit :=
  repair_loop_m (Z.to_nat (endHeight - startHeight + 1)) startHeight endHeight.

Definition repair_wrapped_m (gapStart gapEnd : Z) : mst unit :=
  st_wrap ("failed to repair gap " +:+ fmt_d gapStart +:+ "-" +:+ fmt_d gapEnd +:+ ": ")
    (repairGap_m gapStart gapEnd).

Fixpoint sample_loop_m (n : nat) (height step gapStart : Z) : mst Z :=
  tip ← lift (st_gets currentHeight);
  if tip <? height then mret gapStart
  else
    match n with
    | O => st_fail out_of_fuel
    | S n =>
        missing ← lift (header_missing height);
        if (missing : bool)
        then sample_loop_m n (i32 (height + step)) step (if gapStart =? -1 then height else gapStart)
        else if gapStart =? -1 then sample_loop_m n (i32 (height + step)) step (-1)
        else
          _ ← repair_wrapped_m gapStart (height - 1);
          sample_loop_m n (i32 (height + step)) step (-1)
    end.

Fixpoint small_gaps_loop_m (n : nat) (height : Z) : mst unit :=
  tip ← lift (st_gets currentHeight);
  if tip <? height then mret ()
  else
    match n with
    | O => st_fail out_of_fuel
    | S n =>
        missing ← lift (header_missing height);
        if (missing : bool) then
          gapEnd ← lift (gap_end (Z.to_nat (tip - height)) height);
          _ ← repair_wrapped_m height gapEnd;
          small_gaps_loop_m n (i32 (gapEnd + 1))
        else small_gaps_loop_m n (i32 (height + 1))
    end.

Definition repair_headers_m (effectiveStart : Z) : mst unit :=
  tip ← lift (st_gets currentHeight);
  let step := sample_step (i32 (i32 (tip - effectiveStart) + 1)) in
  let rounds := Z.to_nat (tip - effectiveStart + 1) in
  gapStart ← sample_loop_m rounds effectiveStart step (-1);
  _ ← (if gapStart =? -1 then mret () else repair_wrapped_m gapStart tip);
  if 1 <? step then small_gaps_loop_m rounds effectiveStart else mret ().

Definition VerifyAndRepairGaps_m : mst unit :=
  cm ← lift (st_gets id);
  if currentHeight cm <=? 0 then mret ()
  else
    effectiveStart ← lift effective_start;
    tipHash ← st_wrap "failed to get tip hash from Core: " (lift (core_hash N (currentHeight cm)));
    if negb (hash_IsEqual tipHash (currentHash cm)) then lift (reset_tip N effectiveStart)
    else repair_headers_m effectiveStart.

Definition CatchUpToTip_m (fuel : nat) : mst unit :=
  cm ← lift (st_gets id);
  if (0 <? pruneHeight cm) && (currentHeight cm <? pruneHeight cm)
  then st_fail (EWrap "" ErrPrunedGap
         (": indexed tip is at " +:+ fmt_d (currentHeight cm) +:+
          " but bitcoind has pruned blocks below " +:+ fmt_d (pruneHeight cm)))
  else
    _ ← st_wrap "gap repair failed: " VerifyAndRepairGaps_m;
    blockCount ← st_wrap "failed to get block count: " (lift (GetBlockCount N));
    let coreTip := i32 blockCount in
    tip ← lift (st_gets currentHeight);
    if coreTip <=? tip then mret () else CatchUpTo_m fuel coreTip.

(** ** Without its metrics it is the chain manager *)

Lemma erases_index block h : erases (index_m block h) (index ord block h).
Proof.
  intros w t. unfold index_m, mbind, st_bind, lift. destruct (index ord block h w) as [[[]|e] w1]; [rewrite emits_run by done|].
  - eexists. split; [done|reflexivity].
  - exists []. by rewrite app_nil_r.
Qed.

Lemma erases_when {W A} (b : bool) l (m' : st (W * list mcall) A) (m : st W A) : forallb call_ok l = true ->
  erases m' m -> erases (_ ← (if b then emits l else mret ()); m') m.
Proof. intros Hl Hm. destruct b; [by apply erases_emits|]. exact Hm. Qed.

#[local] Hint Resolve erases_index : erases.

Lemma erases_Initialize : erases Initialize_m (Initialize N maxReorgDepth).
Proof.
  unfold Initialize_m, Initialize. apply erases_bind; [solve_erases|]. intros r.
  apply erases_when; [reflexivity|]. solve_erases.
Qed.

Lemma erases_retry : erases reorg_retry_m (reorg_retry N maxReorgDepth).
Proof. unfold reorg_retry_m. solve_erases. Qed.
#[local] Hint Resolve erases_retry : erases.

Lemma erases_loop again' again n h target : erases again' again ->
  erases (catch_up_loop_m again' n h target) (catch_up_loop N ord maxReorgDepth again n h target).
Proof.
  intros Ha. revert h; induction n as [|n IH]; intros h; cbn [catch_up_loop_m catch_up_loop]; solve_erases.
Qed.
#[local] Hint Resolve erases_loop : erases.

Lemma erases_CatchUpTo fuel target : erases (CatchUpTo_m fuel target) (CatchUpTo N ord maxReorgDepth fuel target).
Proof. induction fuel as [|fuel IH]; cbn [CatchUpTo_m CatchUpTo]; solve_erases. Qed.
#[local] Hint Resolve erases_CatchUpTo : erases.

Lemma erases_ProcessBlock fuel block :
  erases (ProcessBlock_m fuel block) (ProcessBlock N ord maxReorgDepth fuel block).
Proof. induction fuel as [|fuel IH]; cbn [ProcessBlock_m ProcessBlock]; solve_erases. Qed.

Lemma erases_repair_loop n s e : erases (repair_loop_m n s e) (repair_loop N ord n s e).
Proof. revert s; induction n as [|n IH]; intros s; cbn [repair_loop_m repair_loop]; solve_erases. Qed.

Lemma erases_repair s e : erases (repair_wrapped_m s e) (repair_wrapped N ord s e).
Proof. apply erases_wrap, erases_repair_loop. Qed.
#[local] Hint Resolve erases_repair : erases.

Lemma erases_sample n h step g : erases (sample_loop_m n h step g) (sample_loop N ord n h step g).
Proof. revert h g; induction n as [|n IH]; intros h g; cbn [sample_loop_m sample_loop]; solve_erases. Qed.

Lemma erases_small n h : erases (small_gaps_loop_m n h) (small_gaps_loop N ord n h).
Proof. revert h; induction n as [|n IH]; intros h; cbn [small_gaps_loop_m small_gaps_loop]; solve_erases. Qed.
#[local] Hint Resolve erases_sample erases_small : erases.

Lemma erases_repair_headers s : erases (repair_headers_m s) (repair_headers N ord s).
Proof. unfold repair_headers_m, repair_headers. solve_erases. Qed.
#[local] Hint Resolve erases_repair_headers : erases.

Lemma erases_Verify : erases VerifyAndRepairGaps_m (VerifyAndRepairGaps N ord).
Proof. unfold VerifyAndRepairGaps_m, VerifyAndRepairGaps. solve_erases. Qed.
#[local] Hint Resolve erases_Verify : erases.

Lemma erases_CatchUpToTip fuel : erases (CatchUpToTip_m fuel) (CatchUpToTip N ord maxReorgDepth fuel).
Proof. unfold CatchUpToTip_m, CatchUpToTip. solve_erases. Qed.

(** Metrics never interfere: the chain manager with its calls on the collectors
    returns what it returns without them, error or not, and leaves the same state;
    every call is one the collector has, with as many labels as it was made with, so
    that none panics. *)
Theorem metrics_never_interfere :
  erases Initialize_m (Initialize N maxReorgDepth) /\
  (forall fuel target, erases (CatchUpTo_m fuel target) (CatchUpTo N ord maxReorgDepth fuel target)) /\
  (forall fuel block, erases (ProcessBlock_m fuel block) (ProcessBlock N ord maxReorgDepth fuel block)) /\
  (forall s e, erases (repair_wrapped_m s e) (repair_wrapped N ord s e)) /\
  erases VerifyAndRepairGaps_m (VerifyAndRepairGaps N ord) /\
  (forall fuel, erases (CatchUpToTip_m fuel) (CatchUpToTip N ord maxReorgDepth fuel)).
Proof.
  split_and!; [apply erases_Initialize|apply erases_CatchUpTo|apply erases_ProcessBlock|apply erases_repair
    |apply erases_Verify|apply erases_CatchUpToTip].
Qed.

End Metered.
