(* ===== verification/MeteredProps.v ===== *)
(** * What the metrics of the chain say

    A block that is processed leaves the gauge of the height at its own.  On one
    chain of a node that tells the truth the counter of blocks and the gauge follow
    the tip; across a reorganisation they do not, and the counter of
    reorganisations does not follow reorganisations. *)

From Stdlib Require Import Strings.Byte.
From S2P Require Import Prelude Bytes Hex Keys Values Json Checkpoint Pebble Store Sha256 Types Mempool MempoolFacts MempoolProps Block BlockFacts BlockOps BlockProps Reorg ReorgFacts ReorgProps ChainFacts ReorgChain Typed Total Steps Chain Follow FollowProps Gaps GapProps ChainSample Query QueryFacts QueryProps Ledger Synced Served InStep LedgerSample LedgerLive GoFloat Metrics Metered.

Section Reported.

(** The calls [d] say: the chain grew from [t] to [t'], and [k] reorganisations
    were counted. *)
Record reported (t t' k : Z) (d : list mcall) : Prop := {
  rp_blocks : increments BlocksIndexed d = t' - t;
  rp_height : last_set ChainHeight d = if t <? t' then Some (float_of_Z t') else None;
  rp_reorgs : increments Reorgs d = k;
}.

Lemma increments_app c d d' : increments c (d ++ d') = increments c d + increments c d'.
Proof. unfold increments. rewrite filter_app, length_app. lia. Qed.

Lemma last_set_app c d d' : last_set c (d ++ d') =
  match last_set c d' with Some v => Some v | None => last_set c d end.
Proof.
  unfold last_set. rewrite foldl_app. generalize (foldl (fun v m => match m with MSet c' _ v' =>
    if decide (c' = c) then Some v' else v | _ => v end) None d) as v0.
  induction d' as [|m d' IH] using rev_ind; intros v0; [done|]. rewrite !foldl_app. cbn [foldl].
  destruct m as [c' l v|c' l|c' l|c' l]; try apply IH. case_decide; [done|apply IH].
Qed.

Lemma reported_none t d : increments BlocksIndexed d = 0 -> last_set ChainHeight d = None -> increments Reorgs d = 0 ->
  reported t t 0 d.
Proof. intros H1 H2 H3. split; [lia|by rewrite Z.ltb_irrefl|done]. Qed.

Lemma reported_observe t method failed : reported t t 0 (ObserveBitcoinRPC method failed).
Proof. destruct failed; by apply reported_none. Qed.

Lemma reported_app t t1 t2 k1 k2 d1 d2 : t <= t1 <= t2 -> reported t t1 k1 d1 -> reported t1 t2 k2 d2 ->
  reported t t2 (k1 + k2) (d1 ++ d2).
Proof.
  intros Ht [A1 A2 A3] [B1 B2 B3]. split; [rewrite increments_app; lia| |rewrite increments_app; lia].
  rewrite last_set_app, B2, A2. destruct (Z.ltb_spec t1 t2), (Z.ltb_spec t t1), (Z.ltb_spec t t2); try lia; try done.
  by replace t2 with t1 by lia.
Qed.

End Reported.

Section Follows.
Context {P : Pebble} {PL : PebbleLaws P} {PH : PebbleHealthy P PL} {B : Btcd} {BL : BtcdLaws B}.
Context {Zs : Zstd} {ZL : ZstdLaws Zs}.
Context (N : node) (ord : range_order) (maxReorgDepth : Z) (nb : Z -> MsgBlock) (top s : Z).
Context (HN : honest N nb top) (Hs : 1 <= s <= top + 1) (G : good_chain s (blocks_to nb s top)).

Notation in_step := (in_step nb s).

(** From the height [t0] and the calls [tr0] on, the tip has gone forward, at most
    to [hi], and the calls say so. *)
Definition charted (hi t0 : Z) (tr0 : list mcall) (k : Z) (w : cworld * list mcall) : Prop := exists t d,
  w.2 = tr0 ++ d /\ t0 <= t <= hi /\ in_step t w.1 /\ reported t0 t k d.

Lemma charted_here hi t w tr : t <= hi -> in_step t w -> charted hi t tr 0 (w, tr).
Proof. intros Ht S. exists t, []. rewrite app_nil_r. split_and!; [done|lia|done|done|by apply reported_none]. Qed.

Lemma charted_then hi t0 tr0 k d t1 k' w : t0 <= t1 -> reported t0 t1 k d -> charted hi t1 (tr0 ++ d) k' w ->
  charted hi t0 tr0 (k + k') w.
Proof.
  intros Ht R (t & d' & E & Ht' & S & R'). exists t, (d ++ d'). rewrite app_assoc.
  split_and!; [done|lia|lia|done|]. eapply reported_app; [|done..]. lia.
Qed.

Lemma charted_weaken hi hi' t0 tr0 k w : hi <= hi' -> charted hi t0 tr0 k w -> charted hi' t0 tr0 k w.
Proof. intros Hle (t & d & E & Ht & H). exists t, d. split_and!; [done|lia|lia|apply H|apply H]. Qed.

(** Calls that say nothing about the chain. *)
Lemma charted_quiet hi t tr d k w : reported t t 0 d -> charted hi t (tr ++ d) k w -> charted hi t tr k w.
Proof. intros R H. replace k with (0 + k) by lia. by eapply charted_then; [|exact R|]. Qed.

Lemma charted_observed hi t tr method failed k w : charted hi t (tr ++ ObserveBitcoinRPC method failed) k w ->
  charted hi t tr k w.
Proof. apply charted_quiet, reported_observe. Qed.

Lemma ask_hash_m {C} (Q : cworld * list mcall -> Prop) pre h (f : bytes -> st (cworld * list mcall) C) w tr :
  0 <= h <= top -> Q (called w, tr ++ ObserveBitcoinRPC "getblockhash" true) ->
  Q (f (block_hash (nb h)) (called w, tr ++ ObserveBitcoinRPC "getblockhash" false)).2 ->
  Q ((st_wrap pre (observed "getblockhash" (core_hash N h)) ≫= f) (w, tr)).2.
Proof.
  intros Hh He Ho. unfold mbind, st_bind, st_wrap. rewrite observed_run, core_hash_run. cbn [fst snd].
  destruct (node_hash N (rw_calls (cm_rw w)) h) as [x|e] eqn:E; [|done]. by apply (ho_hash _ _ _ HN) in E as ->.
Qed.

Lemma ask_block_m {C} (Q : cworld * list mcall -> Prop) pre h (f : MsgBlock -> st (cworld * list mcall) C) w tr :
  0 <= h <= top -> Q (called w, tr ++ ObserveBitcoinRPC "getblock" true) ->
  Q (f (nb h) (called w, tr ++ ObserveBitcoinRPC "getblock" false)).2 ->
  Q ((st_wrap pre (observed "getblock" (GetBlock N (block_hash (nb h)))) ≫= f) (w, tr)).2.
Proof.
  intros Hh He Ho. unfold mbind, st_bind, st_wrap. rewrite observed_run, GetBlock_run. cbn [fst snd].
  destruct (node_block N (rw_calls (cm_rw w)) (block_hash (nb h))) as [x|e] eqn:E; [|done].
  by apply (ho_block _ _ _ HN) in E as ->.
Qed.

(** Indexing the next block is reported as such. *)
Lemma index_m_run t w tr : s - 1 <= t -> t + 1 <= top -> in_step t w -> exists w1 d,
  index_m ord (nb (t + 1)) (t + 1) (w, tr) = (Ok (), (w1, tr ++ d)) /\ reported t (t + 1) 0 d /\
  in_step (t + 1) (with_tip w1 (t + 1) (block_hash (nb (t + 1)))).
Proof.
  intros Ht Htop S. assert (Gt : good_chain s (blocks_to nb s (t + 1))) by (apply (good_to nb top s G); lia).
  destruct (in_step_index nb s ord t w) as (w1 & E & S1); [lia|lia|done|done|].
  exists w1, [MObserve BlockIndexDuration []; MInc BlocksIndexed []; MSet ChainHeight [] (float_of_Z (t + 1))].
  split_and!; [|split; [replace (t + 1 - t) with 1 by lia; done|by destruct (Z.ltb_spec t (t + 1)); [|lia]|done]|done].
  unfold index_m, mbind, st_bind, lift. rewrite E. by apply emits_run.
Qed.

Lemma charted_loop again n target t w tr : s - 1 <= t -> t <= target <= top -> in_step t w ->
  charted target t tr 0 (catch_up_loop_m N ord maxReorgDepth again n (t + 1) target (w, tr)).2.
Proof.
  pose proof (ho_top _ _ _ HN) as Htop.
  revert t w tr; induction n as [|n IH]; intros t w tr Ht Htarget S; cbn [catch_up_loop_m];
    (destruct (Z.ltb_spec target (t + 1)); [by apply charted_here; [lia|]|]).
  { by apply charted_here; [lia|]. }
  apply ask_hash_m; [lia|apply (charted_observed _ _ _ "getblockhash" true)|apply (charted_observed _ _ _ "getblockhash" false)].
  { apply charted_here; [lia|by apply in_step_called]. }
  apply ask_block_m; [lia|apply (charted_observed _ _ _ "getblock" true)|apply (charted_observed _ _ _ "getblock" false)].
  { apply charted_here; [lia|by apply in_step_called, in_step_called]. }
  set (w2 := called (called w)). assert (S2 : in_step t w2) by by apply in_step_called, in_step_called.
  generalize ((tr ++ ObserveBitcoinRPC "getblockhash" false) ++ ObserveBitcoinRPC "getblock" false) as tr2. intros tr2.
  rewrite (st_bind_run (lift (st_gets currentHash)) _ (w2, tr2) (currentHash w2) (w2, tr2)) by done.
  rewrite (next_connects N nb top s HN t w2 (t + 1)), bool_decide_eq_true_2 by (done || lia). cbn [negb].
  destruct (index_m_run t w2 tr2) as (w3 & d & E & R & S3); [lia|lia|done|].
  rewrite (st_bind_run _ _ _ _ _ (proj2 (st_wrap_Ok _ _ _ _ _) E)).
  rewrite (st_bind_run (lift (set_tip _ _)) _ _ () (with_tip w3 (t + 1) (block_hash (nb (t + 1))), tr2 ++ d)) by done.
  rewrite i32_id by (unfold in_i32; lia). replace 0 with (0 + 0) by lia.
  eapply (charted_then _ t); [|exact R|]; [lia|]. by apply IH; [lia|lia|].
Qed.

Lemma charted_CatchUpTo fuel target t w tr : s - 1 <= t <= top -> target <= top -> in_step t w ->
  charted (Z.max t target) t tr 0 (CatchUpTo_m N ord maxReorgDepth fuel target (w, tr)).2.
Proof.
  intros Ht Htarget S. pose proof (ho_top _ _ _ HN). destruct fuel as [|fuel]; cbn [CatchUpTo_m];
    [by apply charted_here; [lia|]|].
  rewrite (st_bind_run (lift (st_gets currentHeight)) _ (w, tr) (currentHeight w) (w, tr)) by done.
  rewrite (proj1 (is_tip _ _ _ _ S)). destruct (Z.leb_spec target t); [by apply charted_here; [lia|]|].
  rewrite i32_id, Z.max_r by (unfold in_i32; lia). by apply charted_loop; [lia|lia|].
Qed.

(** A block: one that is indexed already counts as a reorganisation. *)
Definition counted (fuel : nat) (h t : Z) (w : cworld) : Z :=
  if (h <=? t) && (0 <? fuel)%nat && is_Ok (node_height N (rw_calls (cm_rw w)) (block_hash (nb h))) then 1 else 0.

Lemma charted_ProcessBlock fuel h t w tr : 1 <= h <= top -> s - 1 <= t <= top -> in_step t w ->
  charted (Z.max t h) t tr (counted fuel h t w) (ProcessBlock_m N ord maxReorgDepth fuel (nb h) (w, tr)).2.
Proof.
  intros Hh Ht S. pose proof (ho_top _ _ _ HN). revert t w tr Ht S; induction fuel as [|fuel IH]; intros t w tr Ht S;
    cbn [ProcessBlock_m].
  { unfold counted. rewrite andb_false_r. apply charted_here; [lia|done]. }
  assert (E0 : counted (Datatypes.S fuel) h t w =
    if (h <=? t) && is_Ok (node_height N (rw_calls (cm_rw w)) (block_hash (nb h))) then 1 else 0)
    by (unfold counted; by rewrite andb_true_r).
  rewrite (st_bind_run (lift (st_gets id)) _ (w, tr) w (w, tr)) by done. unfold id.
  rewrite (next_connects N nb top s HN t) by (done || lia). case_bool_decide as Eh.
  - subst h. rewrite E0. rewrite (proj1 (is_tip _ _ _ _ S)), i32_id by (unfold in_i32; lia).
    destruct (Z.leb_spec (t + 1) t); [lia|]. cbn [andb].
    destruct (index_m_run t w tr) as (w3 & d & E & R & S3); [lia|lia|done|].
    rewrite (st_bind_run _ _ _ _ _ (proj2 (st_wrap_Ok _ _ _ _ _) E)).
    exists (t + 1), d. split_and!; [done|lia|lia|done|done].
  - change (header_BlockHash (block_Header (nb h))) with (block_hash (nb h)).
    unfold mbind at 1, st_bind at 1, st_wrap at 1, lift at 1. rewrite GetBlockHeaderVerbose_run.
    destruct (node_height N (rw_calls (cm_rw w)) (block_hash (nb h))) as [x|e] eqn:E; rewrite E0; cbn [is_Ok].
    2:{ rewrite andb_false_r. apply charted_here; [lia|by apply in_step_called]. }
    apply (ho_height _ _ _ HN) in E as ->; [|lia]. change (currentHeight (called w)) with (currentHeight w).
    cbn [wrap]. rewrite (proj1 (is_tip _ _ _ _ S)). apply in_step_called in S.
    destruct (Z.leb_spec h t) as [Hle|Hlt]; cbn [andb].
    + unfold reorg_retry_m, mbind, st_bind, lift. rewrite emits_run by done.
      pose proof (reorg_retry_same N maxReorgDepth nb top s HN t (called w) ltac:(lia) S) as S1.
      destruct (reorg_retry N maxReorgDepth (called w)) as [r w1]. exists t, [MInc Reorgs []].
      split_and!; [done|lia|lia|done|]. split; [by rewrite Z.sub_diag|by rewrite Z.ltb_irrefl|done].
    + rewrite !i32_id by (unfold in_i32; lia). destruct (Z.ltb_spec (t + 1) h); [|lia].
      pose proof (charted_CatchUpTo fuel (h - 1) t (called w) tr Ht ltac:(lia) S) as Hc.
      unfold mbind at 1, st_bind at 1, st_wrap at 1.
      destruct (CatchUpTo_m N ord maxReorgDepth fuel (h - 1) (called w, tr)) as [[u|e] [w1 tr1]]; cbn [fst snd] in *;
        [|by eapply charted_weaken; [|exact Hc]; lia].
      destruct Hc as (t1 & d & Etr & Ht1 & S1 & R1). cbn [fst snd] in *. subst tr1.
      specialize (IH t1 w1 (tr ++ d) ltac:(lia) S1).
      assert (E1 : counted fuel h t1 w1 = 0) by (unfold counted; by destruct (Z.leb_spec h t1); [lia|]).
      rewrite E1, Z.max_r in IH by lia. rewrite Z.max_r by lia. replace 0 with (0 + 0) by lia.
      by eapply charted_then; [|exact R1|exact IH]; lia.
Qed.

(** The check for gaps finds none, and reports nothing: [silent]. *)
Definition silent {A} (w : cworld) (m' : st (cworld * list mcall) A) (m : st cworld A) : Prop := forall tr,
  m' (w, tr) = ((m w).1, ((m w).2, tr)).

Lemma silent_lift {A} w (m : st cworld A) : silent w (lift m) m.
Proof. intros tr. unfold lift. by destruct (m w). Qed.

Lemma silent_ret {A} w (a : A) : silent w (mret a) (mret a).
Proof. done. Qed.

Lemma silent_fail {A} w e : silent w (st_fail (A := A) e) (st_fail e).
Proof. done. Qed.

Lemma silent_bind {A C} w (m' : st (cworld * list mcall) A) (m : st cworld A)
    (f' : A -> st (cworld * list mcall) C) (f : A -> st cworld C) : silent w m' m ->
  (forall a w1, m w = (Ok a, w1) -> silent w1 (f' a) (f a)) -> silent w (m' ≫= f') (m ≫= f).
Proof.
  intros Hm Hf tr. unfold mbind, st_bind. rewrite Hm. destruct (m w) as [[a|e] w1] eqn:E; [|done]. by apply Hf.
Qed.

Lemma silent_wrap {A} w pre (m' : st (cworld * list mcall) A) (m : st cworld A) : silent w m' m ->
  silent w (st_wrap pre m') (st_wrap pre m).
Proof. intros Hm tr. unfold st_wrap. rewrite Hm. by destruct (m w) as [[a|e] w1]. Qed.

#[local] Hint Resolve silent_lift silent_ret silent_fail : core.

Lemma sample_loop_silent n h step t w : s <= h -> 1 <= step <= 2 ^ 26 -> h <= 2 ^ 30 + step -> t <= top -> in_step t w ->
  silent w (sample_loop_m N ord n h step (-1)) (sample_loop N ord n h step (-1)).
Proof.
  intros Hh Hstep Hle Ht. pose proof (ho_top _ _ _ HN).
  revert h w Hh Hle; induction n as [|n IH]; intros h w Hh Hle S; cbn [sample_loop_m sample_loop].
  all: apply silent_bind; [done|]; intros tip w0 [= <- <-]; rewrite (proj1 (is_tip _ _ _ _ S)).
  all: destruct (Z.ltb_spec t h); [done|].
  { done. }
  destruct (no_header_missing nb top s Hs t w h) as (w1 & E & Q); [lia|done|].
  apply silent_bind; [done|]. rewrite E. intros b w0 [= <- <-].
  rewrite Z.eqb_refl, i32_id by (unfold in_i32; lia). apply IH; [lia|lia|by eapply in_step_quiet].
Qed.

Lemma small_gaps_silent n h t w : s <= h -> h <= 2 ^ 30 + 1 -> t <= top -> in_step t w ->
  silent w (small_gaps_loop_m N ord n h) (small_gaps_loop N ord n h).
Proof.
  intros Hh Hle Ht. pose proof (ho_top _ _ _ HN).
  revert h w Hh Hle; induction n as [|n IH]; intros h w Hh Hle S; cbn [small_gaps_loop_m small_gaps_loop].
  all: apply silent_bind; [done|]; intros tip w0 [= <- <-]; rewrite (proj1 (is_tip _ _ _ _ S)).
  all: destruct (Z.ltb_spec t h); [done|].
  { done. }
  destruct (no_header_missing nb top s Hs t w h) as (w1 & E & Q); [lia|done|].
  apply silent_bind; [done|]. rewrite E. intros b w0 [= <- <-].
  rewrite i32_id by (unfold in_i32; lia). apply IH; [lia|lia|by eapply in_step_quiet].
Qed.

Lemma repair_headers_silent t w : 0 <= t <= top -> s - 1 <= t -> in_step t w ->
  silent w (repair_headers_m N ord s) (repair_headers N ord s).
Proof.
  intros Ht Hst S. pose proof (ho_top _ _ _ HN). unfold repair_headers_m, repair_headers.
  apply silent_bind; [done|]; intros tip w0 [= <- <-]; rewrite (proj1 (is_tip _ _ _ _ S)).
  rewrite (i32_id (t - s)), i32_id by (unfold in_i32; lia).
  pose proof (sample_step_range (t - s + 1) ltac:(lia)) as Hstep.
  set (n := Z.to_nat (t - s + 1)). set (step := sample_step (t - s + 1)) in *.
  apply silent_bind; [by apply (sample_loop_silent _ _ _ t); [lia|lia|lia|lia|]|]. intros g w1 E.
  destruct (sample_loop_forward N ord nb top s HN Hs n s step t w) as (r & w2 & E2 & Q & Hr); [lia|lia|lia|lia|done|].
  rewrite E in E2. injection E2 as <- <-. rewrite (Hr g eq_refl), Z.eqb_refl.
  apply silent_bind; [done|]. intros [] w2 [= <-]. destruct (1 <? step); [|done].
  apply (small_gaps_silent _ _ t); [lia|lia|lia|]. by eapply in_step_quiet.
Qed.

Lemma effective_start_run t w : in_step t w -> effective_start w = (Ok s, w).
Proof.
  intros S. unfold effective_start. rewrite (st_bind_run (st_gets startHeight) _ w (startHeight w) w) by done.
  rewrite (is_start _ _ _ _ S). by destruct (Z.leb_spec s 0); [lia|].
Qed.

Lemma Verify_silent t w : s - 1 <= t <= top -> in_step t w ->
  silent w (VerifyAndRepairGaps_m N ord) (VerifyAndRepairGaps N ord).
Proof.
  intros Ht S. unfold VerifyAndRepairGaps_m, VerifyAndRepairGaps.
  apply silent_bind; [done|]. unfold id. intros cm w0 [= <- <-]. destruct (Z.leb_spec (currentHeight w) 0); [done|].
  apply silent_bind; [done|]. intros s' w1 E. rewrite (effective_start_run t w S) in E. injection E as <- <-.
  apply silent_bind; [by apply silent_wrap|]. intros x w1 E%st_wrap_Ok.
  rewrite core_hash_run in E. injection E as E <-. rewrite (proj1 (is_tip _ _ _ _ S)) in *.
  apply (ho_hash _ _ _ HN) in E as ->; [|lia]. rewrite (proj2 (hash_IsEqual_eq _ _)) by (symmetry; apply S).
  apply (repair_headers_silent t); [lia|lia|by apply in_step_called].
Qed.

Lemma charted_CatchUpToTip fuel t w tr : s - 1 <= t <= top -> in_step t w ->
  charted top t tr 0 (CatchUpToTip_m N ord maxReorgDepth fuel (w, tr)).2.
Proof.
  intros Ht S. pose proof (ho_top _ _ _ HN). unfold CatchUpToTip_m.
  assert (Here : forall w', in_step t w' -> charted top t tr 0 (w', tr)) by (intros; by apply charted_here; [lia|]).
  rewrite (st_bind_run (lift (st_gets id)) _ (w, tr) w (w, tr)) by done. unfold id. destruct (_ && _); [by apply Here|].
  pose proof (VerifyAndRepairGaps_forward N ord nb top s HN Hs t w Ht S) as Q.
  unfold mbind at 1, st_bind at 1, st_wrap at 1. rewrite (Verify_silent t w Ht S tr).
  destruct (VerifyAndRepairGaps N ord w) as [[u|e] w1]; cbn [fst snd] in *;
    [|by apply Here; eapply in_step_quiet].
  apply (in_step_quiet _ _ _ _ _ Q) in S.
  assert (Ec : lift (GetBlockCount N) (w1, tr) = (node_count N (rw_calls (cm_rw w1)), (called w1, tr))) by done.
  apply in_step_called in S. cbn [wrap]. unfold mbind at 1, st_bind at 1, st_wrap at 1. rewrite Ec.
  destruct (node_count N (rw_calls (cm_rw w1))) as [x|e] eqn:E; [|by apply Here]. cbn [wrap].
  apply (ho_count _ _ _ HN) in E. rewrite i32_id by (unfold in_i32; lia).
  rewrite (st_bind_run (lift (st_gets currentHeight)) _ (called w1, tr) (currentHeight (called w1)) (called w1, tr)) by done.
  destruct (x <=? currentHeight (called w1)); [by apply Here|].
  eapply charted_weaken; [|by apply charted_CatchUpTo; [lia|lia|]]. lia.
Qed.

(** Blocks announced and checks of the tip, in any order; an error is logged. *)
Inductive delivery := Announced (h : Z) | TipChecked.

Definition deliver (fuel : nat) (e : delivery) : st (cworld * list mcall) unit :=
  match e with
  | Announced h => _ ← st_try (ProcessBlock_m N ord maxReorgDepth fuel (nb h)); mret ()
  | TipChecked => _ ← st_try (CatchUpToTip_m N ord maxReorgDepth fuel); mret ()
  end.

Definition deliver_all (fuel : nat) (l : list delivery) : st (cworld * list mcall) unit :=
  st_foldM (fun _ e => deliver fuel e) () l.

Definition on_chain (e : delivery) : Prop := match e with Announced h => 1 <= h <= top | TipChecked => True end.

Definition announcements (l : list delivery) : Z :=
  foldr (fun e k => (if e is Announced _ then 1 else 0) + k) 0 l.

Lemma try_snd {A} (m : st (cworld * list mcall) A) x : (_ ← st_try m; mret ()) x = (Ok (), (m x).2).
Proof. unfold mbind, st_bind, st_try. by destruct (m x). Qed.

Lemma charted_deliver fuel e t w tr : on_chain e -> s - 1 <= t <= top -> in_step t w -> exists k w1,
  deliver fuel e (w, tr) = (Ok (), w1) /\ charted top t tr k w1 /\ 0 <= k <= announcements [e].
Proof.
  intros He Ht S. destruct e as [h|]; cbn [deliver]; rewrite try_snd; do 2 eexists; (split; [done|]).
  - split; [eapply charted_weaken; [|by apply charted_ProcessBlock]; cbn in He; lia|].
    change (announcements [Announced h]) with 1. unfold counted. destruct (_ && _); lia.
  - split; [by apply charted_CatchUpToTip|]. change (announcements [TipChecked]) with 0. lia.
Qed.

Lemma announcements_cons e l : announcements (e :: l) = announcements [e] + announcements l.
Proof. unfold announcements. cbn [foldr]. lia. Qed.

Lemma charted_deliver_all fuel l t w tr : Forall on_chain l -> s - 1 <= t <= top -> in_step t w -> exists k w1,
  deliver_all fuel l (w, tr) = (Ok (), w1) /\ charted top t tr k w1 /\ 0 <= k <= announcements l.
Proof.
  intros Hl. revert t w tr; induction Hl as [|e l He Hl IH]; intros t w tr Ht S.
  { exists 0, (w, tr). split_and!; [done|apply charted_here; [lia|done]|done|done]. }
  destruct (charted_deliver fuel e t w tr He Ht S) as (k & [w1 tr1] & E & (t1 & d & Etr & Ht1 & S1 & R1) & Hk).
  cbn [fst snd] in *. subst tr1. destruct (IH t1 w1 (tr ++ d) ltac:(lia) S1) as (k2 & w2 & E2 & C2 & Hk2).
  exists (k + k2), w2. unfold deliver_all. cbn [st_foldM]. rewrite (st_bind_run _ _ _ _ _ E).
  split_and!; [exact E2|by eapply charted_then; [|exact R1|exact C2]; lia|lia|].
  rewrite announcements_cons. lia.
Qed.

(** A block that is processed, whatever the node, the chain and the state. *)
Lemma processed_reported (N' : node) (depth : Z) fuel block w tr h x :
  ProcessBlock_m N' ord depth fuel block (w, tr) = (Ok h, x) ->
  exists d, x.2 = tr ++ d /\ currentHeight x.1 = h /\ last_set ChainHeight d = Some (float_of_Z h) /\
    1 <= increments BlocksIndexed d.
Proof.
  revert w tr; induction fuel as [|fuel IH]; intros w tr; cbn [ProcessBlock_m]; [done|].
  rewrite (st_bind_run (lift (st_gets id)) _ (w, tr) w (w, tr)) by done. unfold id.
  destruct (hash_IsEqual _ _).
  - unfold index_m, mbind, st_bind, st_wrap, lift, set_tip, st_modify.
    destruct (index ord block _ w) as [[[]|e] w1]; [|done]. rewrite emits_run by done. cbn. intros [= <- <-].
    eexists. split; [done|]. by split_and!.
  - unfold mbind at 1, st_bind at 1, st_wrap at 1, lift at 1.
    destruct (GetBlockHeaderVerbose N' _ w) as [[a|e] w1]; [|done]. cbn [wrap].
    assert (Hr : forall y, reorg_retry_m N' depth (w1, tr) = (Ok h, y) -> False).
    { intros y. unfold reorg_retry_m, reorg_retry, mbind, st_bind, lift. rewrite emits_run by done.
      by destruct (handle_reorg _ _ _ _) as [[v|e] w2]. }
    destruct (a <=? currentHeight w); [by intros ?%Hr|]. destruct (_ <? a); [|by intros ?%Hr].
    unfold mbind at 1, st_bind at 1, st_wrap at 1.
    destruct (erases_CatchUpTo N' ord depth fuel (i32 (a - 1)) w1 tr) as (d1 & E & _). rewrite E.
    destruct (CatchUpTo _ _ _ _ _ w1) as [[u|e] w2]; cbn [fst snd wrap]; [|done].
    intros (d & Ex & Hh & Hd & Hb)%IH. exists (d1 ++ d). rewrite Ex, <- app_assoc. split_and!; [done|done| |].
    + by rewrite last_set_app, Hd.
    + rewrite increments_app. assert (0 <= increments BlocksIndexed d1) by (unfold increments; lia). lia.
Qed.

(** C31: The metrics of the chain: on one chain, without a reorganisation or a gap,
    and against a node that may fail any call but does not lie, whatever blocks of
    it are announced and whenever the tip is checked, the counter of blocks goes up
    by as many as the tip does, and the gauge of the height is the tip from the
    first block on.  And on any chain, with any node and from any state, a block
    that is processed without an error, through a catch-up and reorganisations or
    not, is counted and leaves the gauge at its height, which is the tip. *)
Theorem metrics_follow_tip (fuel : nat) (l : list delivery) (t : Z) (w : cworld) (tr : list mcall)
    (Hl : Forall on_chain l) (Ht : s - 1 <= t <= top) (Hw : in_step t w) :
  (exists w' d, deliver_all fuel l (w, tr) = (Ok (), (w', tr ++ d)) /\
    t <= currentHeight w' <= top /\ in_step (currentHeight w') w' /\
    increments BlocksIndexed d = currentHeight w' - t /\
    last_set ChainHeight (tr ++ d) =
      (if t <? currentHeight w' then Some (float_of_Z (currentHeight w')) else last_set ChainHeight tr) /\
    0 <= increments Reorgs d <= announcements l) /\
  (forall (N' : node) (depth : Z) (n : nat) (block : MsgBlock) (c : cworld) (calls : list mcall) (h : Z) x,
     ProcessBlock_m N' ord depth n block (c, calls) = (Ok h, x) ->
     exists d, x.2 = calls ++ d /\ currentHeight x.1 = h /\ last_set ChainHeight (calls ++ d) = Some (float_of_Z h) /\
       1 <= increments BlocksIndexed d).
Proof.
  destruct (charted_deliver_all fuel l t w tr Hl Ht Hw) as (k & [w' tr'] & E & (t' & d & Etr & Ht' & S & [R1 R2 R3]) & Hk).
  cbn [fst snd] in *. subst tr'. split.
  - exists w', d. rewrite (proj1 (is_tip _ _ _ _ S)).
    split_and!; [done|lia|lia|done|done| |lia|lia]. rewrite last_set_app, R2. by destruct (t <? t').
  - intros N' depth n block c calls h x (d' & Ex & Hh & Hd & Hb)%processed_reported. exists d'.
    split_and!; [done|done| |done]. by rewrite last_set_app, Hd.
Qed.

(** What the counter of reorganisations counts: a block that is already indexed
    and is announced again, on a chain on which nothing was reorganised. *)
Theorem duplicate_block_counts_as_reorg (fuel : nat) (h t : Z) (w : cworld) (tr : list mcall)
    (Hh : 1 <= h <= t) (Ht : s - 1 <= t <= top) (Hw : in_step t w)
    (Hnode : node_height N (rw_calls (cm_rw w)) (block_hash (nb h)) = Ok h) :
  exists w' d, (ProcessBlock_m N ord maxReorgDepth (S fuel) (nb h) (w, tr)).2 = (w', tr ++ d) /\
    in_step t w' /\ increments Reorgs d = 1 /\ increments BlocksIndexed d = 0.
Proof.
  destruct (charted_ProcessBlock (S fuel) h t w tr) as (t' & d & Etr & Ht' & S & [R1 R2 R3]); [lia|done|done|].
  rewrite Z.max_l in Ht' by lia. assert (t' = t) as -> by lia. rewrite Z.sub_diag in R1.
  eexists _, d. split; [rewrite <- Etr; apply surjective_pairing|]. split_and!; [done| |done].
  rewrite R3. unfold counted. rewrite Hnode. by destruct (Z.leb_spec h t); [|lia].
Qed.

End Follows.

(** ** Witnesses *)

(** The sample program, started at block 1 and about to index it. *)
Definition metered_start : cworld := (SetStartHeight sample_node 1 manager_fresh).2.

Definition metered_checkpoint : Checkpoint := mkCheckpoint 0 (hash_String (block_hash (node_chain 0))) 1.

Lemma metered_start_in_step : in_step node_chain 1 0 metered_start.
Proof.
  apply (fresh_in_step node_chain 1 metered_start metered_checkpoint ∅).
  - intros k _. apply lookup_empty.
  - apply (bool_decide_eq_true_1 _). vm_compute. reflexivity.
  - split; [apply is_none_eq; vm_compute; reflexivity|]. intros k v _ Hk. revert k v Hk.
    change (map_Forall (fun k v => value_ok k v = true) (contents (w_db (cm_world metered_start)))).
    apply (bool_decide_eq_true_1 _). vm_compute. reflexivity.
  - split; vm_compute; reflexivity.
  - vm_compute. reflexivity.
  - split_and!; [unfold in_i32; cbn; lia..|]. unfold metered_checkpoint, cp_BlockHash.
    rewrite hash_String_hex by apply length_BlockHash. apply plain_EncodeToString.
  - reflexivity.
  - reflexivity.
  - reflexivity.
Qed.

Lemma metrics_follow_tip_witness : exists w' d,
  deliver_all sample_node id_order 10 node_chain 2 [Announced 3; TipChecked] (metered_start, []) = (Ok (), (w', d)) /\
  currentHeight w' = 3 /\ increments BlocksIndexed d = 3 /\ last_set ChainHeight d = Some (float_of_Z 3).
Proof.
  pose proof (serves_honest _ _ _ sample_serves ltac:(lia)) as HN.
  destruct (metrics_follow_tip sample_node id_order 10 node_chain 3 1 HN ltac:(lia) node_good 2 [Announced 3; TipChecked] 0
    metered_start []) as ((w' & d & E & _ & _ & Hb & Hh & _) & _);
    [repeat (apply Forall_cons; split; [cbn; lia|]); by apply Forall_nil|lia|exact metered_start_in_step|].
  exists w', d. split; [exact E|].
  assert (H3 : currentHeight w' = 3).
  { change w' with (fst (w', [] ++ d)). change (w', [] ++ d) with (snd (Ok (A := unit) (), (w', [] ++ d))). rewrite <- E.
    vm_compute. reflexivity. }
  rewrite H3 in Hb, Hh. split_and!; [exact H3|exact Hb|exact Hh].
Defined.

(** The same program once it has caught up, and block 2 announced again. *)
Definition metered_synced : cworld := (CatchUpToTip sample_node id_order 10 1 metered_start).2.

Lemma metered_synced_in_step : in_step node_chain 1 3 metered_synced.
Proof.
  pose proof (serves_honest _ _ _ sample_serves ltac:(lia)) as HN.
  destruct (forward_CatchUpToTip sample_node id_order 10 node_chain 3 1 HN ltac:(lia) node_good 1 metered_start 0 ltac:(lia)
    metered_start_in_step) as (t & Ht & S). fold metered_synced in S.
  assert (E : currentHeight metered_synced = 3) by (vm_compute; reflexivity).
  rewrite (proj1 (is_tip _ _ _ _ S)) in E. by subst t.
Qed.

Lemma duplicate_block_counts_as_reorg_witness : exists w' d,
  (ProcessBlock_m sample_node id_order 10 1 (node_chain 2) (metered_synced, [])).2 = (w', d) /\
  in_step node_chain 1 3 w' /\ increments Reorgs d = 1.
Proof.
  pose proof (serves_honest _ _ _ sample_serves ltac:(lia)) as HN.
  destruct (duplicate_block_counts_as_reorg sample_node id_order 10 node_chain 3 1 HN ltac:(lia) node_good 0 2 3
    metered_synced []) as (w' & d & E & S & R & _);
    [lia|lia|exact metered_synced_in_step|exact (sv_height _ _ _ sample_serves _ 2 ltac:(lia))|].
  exists w', d. split; [exact E|]. split; [exact S|exact R].
Defined.
