(* ===== verification/NodeInfo.v ===== *)
(** * The node at start-up: [connectToBitcoinCore] and [getBlockchainInfo] of
    [cmd/server/wire.go]

    The connection to Bitcoin Core, and its answer to getblockchaininfo, decoded
    as [encoding/json] decodes it into a struct: [warnings] is an array in newer
    versions and a string in older ones.  The RPC library is an argument; what is
    kept of the answer is what the program uses, but every field is checked. *)

From Stdlib Require Import Strings.Byte SpecFloat.
From S2P Require Import Prelude Bytes Hex Json Checkpoint GoFloat Config ConfigProps.

(** ** The connection *)

(** [rpcclient.ConnConfig]; HTTP POST without TLS. *)
Record ConnConfig := mkConnConfig { Host : string; User : string; Pass : string }.

Record rpc_library := mkRpcLibrary {
  rpcclient_New : ConnConfig -> result unit;
  client_GetBlockCount : ConnConfig -> result Z;
}.

(** The state is the number of clients that were not shut down. *)
Definition connectToBitcoinCore (E : environment) (R : rpc_library) (cfg : Config) : st nat ConnConfig :=
  '(user, pass) ← st_lift (credentials E cfg);
  let connCfg := mkConnConfig (Bitcoin_RPCHost (cfg_Bitcoin cfg)) user pass in
  _ ← st_wrap "failed to create RPC client: " (_ ← st_lift (rpcclient_New R connCfg); st_modify S);
  match client_GetBlockCount R connCfg with
  | Err err => _ ← st_modify pred; st_fail (EWrap "failed to connect: " err "")
  | Ok _ => mret connCfg
  end.

(** ** The answer *)

Inductive kind := KString | KInt64 | KFloat64 | KBool | KStrings.

#[export] Instance kind_eq_dec : EqDecision kind.
Proof. solve_decision. Defined.

(** The fields of [BlockchainInfo] but [Warnings]. *)
Definition info_fields : list (string * kind) := [
  ("chain", KString); ("blocks", KInt64); ("headers", KInt64); ("bestblockhash", KString);
  ("difficulty", KFloat64); ("time", KInt64); ("mediantime", KInt64); ("verificationprogress", KFloat64);
  ("initialblockdownload", KBool); ("chainwork", KString); ("size_on_disk", KInt64); ("pruned", KBool);
  ("pruneheight", KInt64); ("automatic_pruning", KBool); ("prune_target_size", KInt64)]%string.

Definition decode_int64 (v : json) : option Z :=
  match v with
  | JNum lit =>
      match parse_int lit with
      | Some z => if decide (in_i64 z) then Some z else None
      | None => None
      end
  | _ => None
  end.

Definition decode_float64 (v : json) : option float64 :=
  match v with JNum lit => ParseFloat lit | _ => None end.

(** An element of a [[]string]; null leaves the element as it is. *)
Definition is_string (v : json) : bool := match v with JStr _ | JNull => true | _ => false end.

(** Whether the value can be stored in a field of the kind; null always can. *)
Definition fits (k : kind) (v : json) : bool :=
  match v with
  | JNull => true
  | JStr _ => bool_decide (k = KString)
  | JBool _ => bool_decide (k = KBool)
  | JNum _ =>
      match k with
      | KInt64 => match decode_int64 v with Some _ => true | None => false end
      | KFloat64 => match decode_float64 v with Some _ => true | None => false end
      | _ => false
      end
  | JArr l => bool_decide (k = KStrings) && forallb is_string l
  | JObj _ => false
  end.

Definition is_warnings (key : bytes) : bool := bool_decide (fold_name key = fold_name (bytes_of_string "warnings")).

(** The struct with its [warnings] field of kind [w]; no two names fold to the
    same. *)
Definition field_of (w : kind) (key : bytes) : option (string * kind) :=
  match list_find (fun f => fold_name (bytes_of_string f.1) = fold_name key) info_fields with
  | Some (_, f) => Some f
  | None => if is_warnings key then Some ("warnings"%string, w) else None
  end.

(** A value that fits is stored. *)
Definition store (name : string) (v : json) (i : BlockchainInfo) : BlockchainInfo :=
  match v with
  | JNull => i
  | _ =>
      if decide (name = "blocks"%string) then
        mkBlockchainInfo (default 0 (decode_int64 v)) (info_VerificationProgress i) (info_Pruned i) (info_PruneHeight i)
      else if decide (name = "verificationprogress"%string) then
        mkBlockchainInfo (info_Blocks i) (default (float_of_Z 0) (decode_float64 v)) (info_Pruned i) (info_PruneHeight i)
      else if decide (name = "pruned"%string) then
        mkBlockchainInfo (info_Blocks i) (info_VerificationProgress i)
          (match v with JBool b => b | _ => info_Pruned i end) (info_PruneHeight i)
      else if decide (name = "pruneheight"%string) then
        mkBlockchainInfo (info_Blocks i) (info_VerificationProgress i) (info_Pruned i) (default 0 (decode_int64 v))
      else i
  end.

(** The first error is kept, and decoding goes on. *)
Definition decode_info_field (w : kind) (s : BlockchainInfo * option error) (kv : bytes * json) :
    BlockchainInfo * option error :=
  let '(i, e) := s in
  match field_of w kv.1 with
  | None => s
  | Some (name, k) =>
      if fits k kv.2 then (store name kv.2 i, e) else (i, save_error e (Some JsonTypeError))
  end.

Definition zeroInfo : BlockchainInfo := mkBlockchainInfo 0 (float_of_Z 0) false 0.

Definition Unmarshal_info (w : kind) (data : bytes) : result BlockchainInfo :=
  match json_parse data with
  | Err e => Err e
  | Ok JNull => Ok zeroInfo
  | Ok (JObj l) =>
      match foldl (decode_info_field w) (zeroInfo, None) l with
      | (i, None) => Ok i
      | (_, Some e) => Err e
      end
  | Ok _ => Err JsonTypeError
  end.

(** [answer]: what the RPC returned. *)
Definition getBlockchainInfo (answer : result bytes) : result BlockchainInfo :=
  data ← wrap "getblockchaininfo RPC failed: " answer;
  match Unmarshal_info KStrings data with
  | Ok info => Ok info
  | Err err =>
      match Unmarshal_info KString data with
      | Err _ => Err (EWrap "failed to parse getblockchaininfo: " err "")
      | Ok legacyInfo => Ok legacyInfo
      end
  end.

(** ** Properties *)

(** An error leaves no client behind, and the credentials come from the cookie
    file exactly when one is set. *)
Lemma connect_result E R cfg n :
  match connectToBitcoinCore E R cfg n with
  | (Ok c, n') =>
      n' = S n /\ Host c = Bitcoin_RPCHost (cfg_Bitcoin cfg) /\ credentials E cfg = Ok (User c, Pass c) /\
      is_Ok (client_GetBlockCount R c) = true
  | (Err _, n') => n' = n
  end.
Proof.
  unfold connectToBitcoinCore, st_wrap, st_lift, st_modify, st_fail, mbind, st_bind, mret, st_ret.
  destruct (credentials E cfg) as [[user pass]|]; [|done]. cbn.
  destruct (rpcclient_New R _) as [[]|]; [|done]. cbn.
  destruct (client_GetBlockCount R _) eqn:E1; [|done]. cbn. by rewrite E1.
Qed.

(** The fields but [warnings], which decide what is decoded. *)
Definition others (l : list (bytes * json)) : list (bytes * json) := filter (fun kv => is_warnings kv.1 = false) l.
Definition warnings (l : list (bytes * json)) : list json := snd <$> filter (fun kv => is_warnings kv.1 = true) l.

Definition field_fits (kv : bytes * json) : bool :=
  match field_of KStrings kv.1 with None => true | Some (_, k) => fits k kv.2 end.

Lemma field_of_warnings w key : is_warnings key = true -> field_of w key = Some ("warnings"%string, w).
Proof.
  intros H. pose proof H as E. unfold is_warnings in E. apply bool_decide_eq_true in E.
  unfold field_of. rewrite H. by rewrite E.
Qed.

Lemma field_of_others w w' key : is_warnings key = false -> field_of w key = field_of w' key.
Proof. intros H. unfold field_of. by rewrite H. Qed.

Lemma save_error_None e e' : save_error e e' = None <-> e = None /\ e' = None.
Proof. destruct e, e'; naive_solver. Qed.

Lemma decode_warnings w i e key v : is_warnings key = true ->
  decode_info_field w (i, e) (key, v) = (i, if fits w v then e else save_error e (Some JsonTypeError)).
Proof.
  intros H. unfold decode_info_field. cbn [fst snd]. rewrite (field_of_warnings w key H).
  destruct (fits w v); [|done]. by destruct v.
Qed.

(** What the first field does not fit changes no later one. *)
Lemma decode_error w i e kv : (decode_info_field w (i, e) kv).1 = (decode_info_field w (i, None) kv).1.
Proof. unfold decode_info_field. destruct (field_of w kv.1) as [[name k]|]; [|done]. by destruct (fits k kv.2). Qed.

(** What the fields but [warnings] say. *)
Definition read_info (l : list (bytes * json)) : BlockchainInfo :=
  foldl (fun i kv => (decode_info_field KStrings (i, None) kv).1) zeroInfo l.

Lemma decode_split w l : forall i e, exists e',
  foldl (decode_info_field w) (i, e) l =
    (foldl (fun i kv => (decode_info_field KStrings (i, None) kv).1) i (others l), e') /\
  (e' = None <-> e = None /\ Forall (fun kv => field_fits kv = true) (others l) /\
     Forall (fun v => fits w v = true) (warnings l)).
Proof.
  induction l as [|[key v] l IH]; intros i e.
  { exists e. split; [done|]. split; [|by intros [? _]]. intros ->. split_and!; [done|apply Forall_nil_2..]. }
  cbn [foldl]. unfold others, warnings in *. destruct (is_warnings key) eqn:H.
  - rewrite (decode_warnings w i e key v H), filter_cons_False, filter_cons_True by (cbn; by rewrite H).
    destruct (IH i (if fits w v then e else save_error e (Some JsonTypeError))) as (e' & H1 & H2).
    exists e'. split; [done|]. rewrite H2, fmap_cons, Forall_cons. cbn [snd].
    destruct (fits w v); [naive_solver|]. rewrite save_error_None. naive_solver.
  - rewrite filter_cons_True, filter_cons_False by (cbn; by rewrite H). cbn [foldl].
    assert (Hk : decode_info_field w (i, e) (key, v) =
      ((decode_info_field KStrings (i, None) (key, v)).1,
       if field_fits (key, v) then e else save_error e (Some JsonTypeError))).
    { unfold decode_info_field, field_fits. cbn [fst snd]. rewrite (field_of_others w KStrings key H).
      destruct (field_of KStrings key) as [[name k]|]; [|done]. by destruct (fits k v). }
    rewrite Hk. destruct (IH (decode_info_field KStrings (i, None) (key, v)).1
      (if field_fits (key, v) then e else save_error e (Some JsonTypeError))) as (e' & H1 & H2).
    exists e'. split; [done|]. rewrite H2, Forall_cons.
    destruct (field_fits (key, v)); [naive_solver|]. rewrite save_error_None. naive_solver.
Qed.

Lemma Unmarshal_info_ok w data l i : json_parse data = Ok (JObj l) ->
  Unmarshal_info w data = Ok i <->
  i = read_info (others l) /\ Forall (fun kv => field_fits kv = true) (others l) /\
  Forall (fun v => fits w v = true) (warnings l).
Proof.
  intros E. unfold Unmarshal_info. rewrite E.
  destruct (decode_split w l zeroInfo None) as (e' & -> & H). fold (read_info (others l)).
  destruct e' as [e|]; naive_solver.
Qed.

(** Both formats are read alike: an object is accepted exactly when each field
    has its type, null counting as any, and the [warnings] are all arrays of
    strings or all strings; what is read does not depend on them. *)
Lemma info_both_formats data l i : json_parse data = Ok (JObj l) ->
  getBlockchainInfo (Ok data) = Ok i <->
  i = read_info (others l) /\ Forall (fun kv => field_fits kv = true) (others l) /\
  (Forall (fun v => fits KStrings v = true) (warnings l) \/ Forall (fun v => fits KString v = true) (warnings l)).
Proof.
  intros E. pose proof (fun j => Unmarshal_info_ok KStrings data l j E) as H1.
  pose proof (fun j => Unmarshal_info_ok KString data l j E) as H2.
  unfold getBlockchainInfo. cbn [wrap mbind result_bind].
  destruct (Unmarshal_info KStrings data) as [i1|e1].
  { specialize (H1 i1). destruct (H2 i). naive_solver. }
  destruct (Unmarshal_info KString data) as [i2|e2].
  { split; [naive_solver|]. intros (-> & Hf & [Hw|Hw]); [by destruct (H1 (read_info (others l))) as [_ ?]; naive_solver|].
    by apply H2. }
  split; [done|]. intros (-> & Hf & [Hw|Hw]); exfalso.
  - assert (Err (A:=BlockchainInfo) e1 = Ok (read_info (others l))) by (by apply H1). done.
  - assert (Err (A:=BlockchainInfo) e2 = Ok (read_info (others l))) by (by apply H2). done.
Qed.

Definition core_answer (warnings : string) : bytes :=
  text ("{'chain':'main','blocks':840000,'verificationprogress':0.99995,'pruned':true,'pruneheight':839000," ++
        "'difficulty':8.6e13,'warnings':" ++ warnings ++ "}").

Example both_formats :
  getBlockchainInfo (Ok (core_answer "['old version']")) = getBlockchainInfo (Ok (core_answer "'old version'")) /\
  getBlockchainInfo (Ok (core_answer "''")) =
    Ok (mkBlockchainInfo 840000 (default (float_of_Z 0) (ParseFloat (bytes_of_string "0.99995"))) true 839000) /\
  is_Ok (getBlockchainInfo (Ok (core_answer "3"))) = false.
Proof. vm_compute. done. Qed.
