(* ===== verification/Handle.v ===== *)
(** * Handles and readers: [Open] and [Close] of [internal/storage/storage.go],
    and [byteReader] of [internal/indexer/chain.go]

    The database handle with the reference it holds on the block cache, and the
    reader header bytes are decoded from.  [Pebble]'s own opening and closing are
    arguments. *)

From Stdlib Require Import Strings.Byte.
From S2P Require Import Prelude Bytes Pebble.

(** ** The database handle *)

Section Handle.
Context {P : Pebble}.
Context (pebble_Open : string -> result pdb) (pebble_Close : pdb -> result unit).

Record DB := mkDB { db_pebble : option pdb; db_path : string; db_cache : bool }.

(** The state is the number of references the program holds on caches. *)
Definition NewCache : st nat unit := st_modify S.
Definition Unref : st nat unit := st_modify pred.

Definition Open (path : string) : st nat DB :=
  _ ← NewCache;
  match pebble_Open path with
  | Err err => _ ← Unref; st_fail (EWrap ("failed to open pebble database at " +:+ path +:+ ": ") err "")
  | Ok db => mret (mkDB (Some db) path true)
  end.

Definition Close : st (DB * nat) unit := fun '(db, refs) =>
  match db_pebble db with
  | None => (Ok (), (db, refs))
  | Some p =>
      match pebble_Close p with
      | Err err => (Err (EWrap "failed to close database: " err ""), (db, refs))
      | Ok _ => (Ok (), (mkDB None (db_path db) false, if db_cache db then (Unref refs).2 else refs))
      end
  end.

(** An [Open] that fails holds no reference; [Close] gives the one of the handle
    back once, however often it is called, and keeps it as long as it fails. *)
Lemma Open_result path n : Open path n =
  match pebble_Open path with
  | Ok p => (Ok (mkDB (Some p) path true), S n)
  | Err err => (Err (EWrap ("failed to open pebble database at " +:+ path +:+ ": ") err ""), n)
  end.
Proof. unfold Open, NewCache, Unref, st_modify, st_fail, mbind, st_bind, mret, st_ret. by destruct (pebble_Open path). Qed.

Lemma Close_result path n m db k : Open path n = (Ok db, m) ->
  match Close (db, k) with
  | (Ok _, (db', k')) => k' = pred k /\ Close (db', k') = (Ok (), (db', k'))
  | (Err _, s) => s = (db, k)
  end.
Proof.
  rewrite Open_result. destruct (pebble_Open path) as [p|]; [|done]. intros [= <- _].
  unfold Close. cbn. by destruct (pebble_Close p).
Qed.

End Handle.

(** ** The reader *)

Record byteReader := newByteReader { r_data : bytes; r_pos : nat }.

(** [Read] into a buffer of [n] bytes; past the end its error is not [io.EOF]. *)
Definition Read (n : nat) : st byteReader bytes := fun r =>
  if (length (r_data r) <=? r_pos r)%nat then (Err (ENew "EOF"), r)
  else
    let p := take n (drop (r_pos r) (r_data r)) in
    (Ok p, newByteReader (r_data r) (r_pos r + length p)).

(** [io.ReadFull]: reads until the buffer is full or an error comes. *)
Fixpoint ReadFull (fuel n : nat) (got : bytes) : st byteReader bytes :=
  if (n <=? length got)%nat then mret got
  else
    match fuel with
    | O => st_fail (ENew "out of fuel")
    | S fuel => p ← Read (n - length got); ReadFull fuel n (got ++ p)
    end.

(** Two rounds are enough: a read that gives less than asked has come to the
    end.  So a decoder of fixed fields gets the fields one after the other, or
    the error. *)
Lemma ReadFull_takes n r : ReadFull 2 n [] r =
  if (n =? 0)%nat then (Ok [], r)
  else if (r_pos r + n <=? length (r_data r))%nat
  then (Ok (take n (drop (r_pos r) (r_data r))), newByteReader (r_data r) (r_pos r + n))
  else (Err (ENew "EOF"), newByteReader (r_data r) (r_pos r `max` length (r_data r))).
Proof.
  destruct r as [data pos]. cbn [r_data r_pos].
  destruct n as [|n]; [done|]. cbn [ReadFull length Nat.eqb]. change (S n <=? 0)%nat with false. cbn match. unfold mbind, st_bind, Read at 1. cbn [r_data r_pos].
  rewrite Nat.sub_0_r. cbn [app]. destruct (Nat.leb_spec (length data) pos) as [Hp|Hp].
  { destruct (Nat.leb_spec (pos + S n) (length data)); [lia|]. by rewrite Nat.max_l by lia. }
  assert (Hl : length (take (S n) (drop pos data)) = (S n `min` (length data - pos))%nat)
    by (by rewrite length_take, length_drop).
  rewrite Hl. destruct (Nat.leb_spec (S n) (S n `min` (length data - pos))) as [H|H].
  - destruct (Nat.leb_spec (pos + S n) (length data)); [|lia]. unfold mret, st_ret.
    replace (S n `min` (length data - pos))%nat with (S n) by lia. done.
  - destruct (Nat.leb_spec (pos + S n) (length data)); [lia|]. unfold Read. cbn [r_data r_pos].
    rewrite Nat.min_r by lia. destruct (Nat.leb_spec (length data) (pos + (length data - pos))); [|lia].
    replace (pos + (length data - pos))%nat with (pos `max` length data)%nat by lia. done.
Qed.
