(* ===== verification/Main.v ===== *)
(** * [main] of [cmd/server/main.go]

    The order in which the program opens its parts, catches up, serves and
    closes again.  [Config], [NodeInfo], [Live] and [Stream] have the functions it
    calls.  The deferred calls run when [main] returns or panics, and not when
    [log.Fatalf] or the panic of another goroutine ends the process, or while a call
    has not returned.  Every resource and every start is recorded in a trace.  The
    goroutines that serve the connections are in [Serve] and [Conn], not here. *)

From Stdlib Require Import Strings.Byte.
From S2P Require Import Prelude Bytes Hex Keys Values Json Checkpoint Pebble Store Sha256 Types Mempool Block Reorg Query Server Chain Writer GoFloat Config NodeInfo Rpc Live Zmq Stream Handle.

Inductive resource := RDb | RClient | RContext | RWriter | RZmq.

Inductive action :=
| Acquire (r : resource)
| Release (r : resource)     (* the deferred call *)
| ServerStart                (* go electrumServer.Start() *)
| ZmqStart
| ServerStop
| Halt.                      (* haltForOperator *)

#[export] Instance resource_eq_dec : EqDecision resource.
Proof. solve_decision. Defined.
#[export] Instance action_eq_dec : EqDecision action.
Proof. solve_decision. Defined.

(** How a part of [main] ends. *)
Inductive ending (A : Type) :=
| Next (a : A)
| Return
| Fatal (e : error)          (* log.Fatalf *)
| Panicked (e : error)       (* a panic in [main]'s goroutine *)
| Killed (e : error)         (* a panic in another goroutine *)
| Blocked.                   (* a call has not returned yet *)
Arguments Next {A} a.
Arguments Return {A}.
Arguments Fatal {A} e.
Arguments Panicked {A} e.
Arguments Killed {A} e.
Arguments Blocked {A}.

Section Main.
Context {P : Pebble} {B : Btcd} {T : BtcdTx} {Zs : Zstd}.

Record mstate := mkMState { ms_world : mworld; ms_trace : list action }.

Definition main_m (A : Type) : Type := mstate -> ending A * mstate.

#[export] Instance main_ret : MRet main_m := fun A a s => (Next a, s).
#[export] Instance main_bind : MBind main_m := fun A C f m s =>
  match m s with
  | (Next a, s) => f a s
  | (Return, s) => (Return, s)
  | (Fatal e, s) => (Fatal e, s)
  | (Panicked e, s) => (Panicked e, s)
  | (Killed e, s) => (Killed e, s)
  | (Blocked, s) => (Blocked, s)
  end.

Definition log (a : action) (s : mstate) : mstate := mkMState (ms_world s) (ms_trace s ++ [a]).

Definition act (a : action) : main_m unit := fun s => (Next (), log a s).
Definition return_now {A} : main_m A := fun s => (Return, s).
Definition fatal {A} (e : error) : main_m A := fun s => (Fatal e, s).
Definition block {A} : main_m A := fun s => (Blocked, s).

(** [if err != nil { log.Fatalf("<pre>%v", err) }] *)
Definition or_fatal {A} (pre : string) (r : result A) : main_m A :=
  match r with
  | Ok a => mret a
  | Err e => fatal (EWrap pre e "")
  end.

(** A call that panics, or has not returned, gives no result. *)
Definition call_ending {A} (r : result A) : ending (result A) :=
  match r with
  | Err e => if is_panic e then Panicked e
             else if errors_Is e "goroutine" then Killed e
             else if unreturned e then Blocked else Next r
  | Ok _ => Next r
  end.

Definition on_world {A} (c : st mworld A) : main_m (result A) := fun s =>
  let '(r, w) := c (ms_world s) in (call_ending r, mkMState w (ms_trace s)).

Definition runs_defers {A} (e : ending A) : bool :=
  match e with Next _ | Return | Panicked _ => true | Fatal _ | Killed _ | Blocked => false end.

(** The rest of [main] after [r] was made and its release deferred. *)
Definition holding {A} (r : resource) (rest : main_m A) : main_m A := fun s =>
  let '(e, s) := rest (log (Acquire r) s) in
  (e, if runs_defers e then log (Release r) s else s).

(** ** The parts *)

Record outside := mkOutside {
  o_env : environment;
  o_rpc : rpc_library;
  o_pebble_Open : string -> result pdb;
  o_blockchaininfo : result bytes;       (* getblockchaininfo *)
  o_ibd : list ibd_event;                (* what waitForIBD gets *)
  o_zmq_block : zmq_answers;             (* the sockets of testConnections *)
  o_zmq_tx : zmq_answers;
  o_events : list event;                 (* what runMainLoop gets *)
  o_cancelled : bool;                    (* the context is cancelled while halted *)
}.

Context (N : node) (M : pool_node) (sorter : slice_sort) (ord : range_order).
Context (clock : nat -> Z) (fuel : nat) (Out : outside).

Definition wait_ibd (info : BlockchainInfo) : main_m BlockchainInfo :=
  match waitForIBD info (o_ibd Out) with
  | None => block
  | Some (Ok info) => mret info
  | Some (Err e) => if errors_Is e "context.Canceled" then return_now else fatal (EWrap "IBD wait failed: " e "")
  end.

(** It waits for the context. *)
Definition haltForOperator : main_m unit :=
  _ ← act Halt; if o_cancelled Out then mret () else block.

Definition start_zmq (cfg : Config) : main_m unit :=
  or_fatal "Failed to initialize ZMQ: "
    (testConnections (o_zmq_block Out) (o_zmq_tx Out) (Bitcoin_ZMQBlockAddr (cfg_Bitcoin cfg))
       (Bitcoin_ZMQTxAddr (cfg_Bitcoin cfg)) 0%nat).1.

(** The loop waits for the next event when those given have run out; it has no
    error of its own. *)
Definition serve (cfg : Config) : main_m unit :=
  _ ← act ServerStart;
  _ ← act ZmqStart;
  loop ← on_world (runMainLoop N M sorter ord cfg clock fuel (o_events Out));
  match loop with
  | Ok (Some loopErr) =>
      _ ← act ServerStop;
      match loopErr with
      | Some e => if errors_Is e "ErrPrunedGap" then haltForOperator else mret ()
      | None => mret ()
      end
  | _ => block
  end.

Definition catch_up_and_serve (cfg : Config) : main_m unit :=
  r ← on_world (on_chain (CatchUpToTip N ord (Storage_MaxReorgDepth (cfg_Storage cfg)) fuel));
  match r with
  | Err e =>
      if errors_Is e "ErrPrunedGap" then _ ← haltForOperator; return_now
      else fatal (EWrap "Catch-up failed: " e "")
  | Ok _ => serve cfg
  end.

Definition live (cfg : Config) : main_m unit :=
  _ ← on_world (reconcileMempool N M ord cfg clock fuel);
  _ ← start_zmq cfg;
  holding RZmq (catch_up_and_serve cfg).

Definition with_node (cfg : Config) : main_m unit :=
  info ← or_fatal "Failed to get blockchain info: " (getBlockchainInfo (o_blockchaininfo Out));
  info ← wait_ibd info;
  r ← on_world (on_chain (start_chain N cfg info));
  _ ← or_fatal "" r;
  holding RWriter (live cfg).

Definition with_db (cfg : Config) : main_m unit :=
  _ ← or_fatal "Failed to connect to Bitcoin Core: " (connectToBitcoinCore (o_env Out) (o_rpc Out) cfg 0%nat).1;
  holding RClient (holding RContext (with_node cfg)).

(** The state is [None] as long as no database was opened. *)
Definition main (showVersion : bool) (f : flags) : ending unit * option mstate :=
  if showVersion then (Return, None) else
  match
    cfg ← configure (o_env Out) f;
    _ ← wrap "Failed to create database directory: " (EnsureDBDirectory (o_env Out) cfg);
    db ← wrap "Failed to open database: " (Open (o_pebble_Open Out) (Storage_DBPath (cfg_Storage cfg)) 0%nat).1;
    Ok (cfg, db_pebble db)
  with
  | Err e => (Fatal e, None)
  | Ok (_, None) => (Blocked, None)     (* a handle just opened has its database *)
  | Ok (cfg, Some db) =>
      let '(e, s) := holding RDb (with_db cfg) (mkMState (main_world db) []) in (e, Some s)
  end.

End Main.
