(* ===== verification/MainProps.v ===== *)
(** * [main]: properties

    What is opened is closed in reverse order exactly when [main] returns or panics, and
    clients are served only after start-up has ended well. *)

From Stdlib Require Import Strings.Byte.
From S2P Require Import Prelude Bytes Hex Keys Values Json Checkpoint Pebble Store Sha256 Types Mempool MempoolFacts MempoolProps Block BlockFacts BlockOps BlockProps Reorg Query QueryFacts QueryProps Server Chain Follow Gaps ChainSample Writer WriterProps GoFloat Config ConfigProps NodeInfo Rpc RpcProps Live LiveFacts LiveProps LiveSample Zmq Stream Handle Main.

(** ** Traces *)

Definition acquired (t : list action) : list resource :=
  omap (fun a => match a with Acquire r => Some r | _ => None end) t.
Definition released (t : list action) : list resource :=
  omap (fun a => match a with Release r => Some r | _ => None end) t.

Lemma acquired_app t1 t2 : acquired (t1 ++ t2) = acquired t1 ++ acquired t2.
Proof. apply omap_app. Qed.
Lemma released_app t1 t2 : released (t1 ++ t2) = released t1 ++ released t2.
Proof. apply omap_app. Qed.

Lemma released_releases l : released (Release <$> l) = l.
Proof. induction l as [|r l IH]; [done|]. cbn. by rewrite <- IH at 2. Qed.
Lemma acquired_releases l : acquired (Release <$> l) = [].
Proof. by induction l. Qed.

(** What ends so has released what it acquired, the last first, and nothing
    was done in between; or it has released nothing. *)
Definition closes {A} (e : ending A) (t : list action) : Prop :=
  match e with
  | Next _ | Return | Panicked _ => exists body, t = body ++ (Release <$> reverse (acquired body)) /\ released body = []
  | Fatal _ | Killed _ | Blocked => released t = []
  end.

Lemma closes_runs {A} (e : ending A) t : closes e t =
  if runs_defers e
  then exists body, t = body ++ (Release <$> reverse (acquired body)) /\ released body = []
  else released t = [].
Proof. by destruct e. Qed.

Section Props.
Context {P : Pebble} {B : Btcd} {T : BtcdTx} {Zs : Zstd}.

(** [m] opens resources of [rs], in that order, and closes them. *)
Definition scoped {A} (rs : list resource) (m : main_m A) : Prop :=
  forall s e s', m s = (e, s') -> exists t,
    ms_trace s' = ms_trace s ++ t /\ closes e t /\ acquired t `prefix_of` rs.

(** [m] opens and closes none. *)
Definition plain {A} (m : main_m A) : Prop :=
  forall s e s', m s = (e, s') -> exists t, ms_trace s' = ms_trace s ++ t /\ acquired t = [] /\ released t = [].

Lemma plain_scoped {A} rs (m : main_m A) : plain m -> scoped rs m.
Proof.
  intros H s e s' E. destruct (H s e s' E) as (t & H1 & H2 & H3). exists t. split; [done|].
  rewrite H2. split; [|apply prefix_nil]. rewrite closes_runs. destruct (runs_defers e); [|done].
  exists t. by rewrite H2, app_nil_r.
Qed.

Lemma plain_same {A} (m : main_m A) : (forall s, ms_trace (m s).2 = ms_trace s) -> plain m.
Proof. intros H s e s' E. exists []. rewrite app_nil_r. split; [|done]. by rewrite <- (H s), E. Qed.

Lemma plain_ret {A} (a : A) : plain (mret a).
Proof. by apply plain_same. Qed.
Lemma plain_block {A} : plain (block : main_m A).
Proof. by apply plain_same. Qed.
Lemma plain_return {A} : plain (return_now : main_m A).
Proof. by apply plain_same. Qed.
Lemma plain_fatal {A} e : plain (fatal e : main_m A).
Proof. by apply plain_same. Qed.
Lemma plain_or_fatal {A} pre (r : result A) : plain (or_fatal pre r).
Proof. destruct r; [apply plain_ret|apply plain_fatal]. Qed.
Lemma plain_on_world {A} (c : st mworld A) : plain (on_world c).
Proof. apply plain_same. intros s. unfold on_world. by destruct (c (ms_world s)). Qed.
Lemma plain_act a : acquired [a] = [] -> released [a] = [] -> plain (act a).
Proof. intros H1 H2 s e s' [= <- <-]. by exists [a]. Qed.

Lemma scoped_bind {A C} rs (m : main_m A) (f : A -> main_m C) : plain m -> (forall a, scoped rs (f a)) -> scoped rs (m ≫= f).
Proof.
  intros Hm Hf s e s'. unfold mbind, main_bind.
  destruct (m s) as [e1 s1] eqn:E1. destruct (Hm s e1 s1 E1) as (t1 & H1 & H2 & H3).
  assert (Hend : forall e : ending C, ms_trace s1 = ms_trace s ++ t1 /\ closes e t1 /\ acquired t1 `prefix_of` rs).
  { intros e0. rewrite H2. split_and!; [done| |apply prefix_nil]. rewrite closes_runs. destruct (runs_defers e0); [|done].
    exists t1. by rewrite H2, app_nil_r. }
  destruct e1 as [a| |er|er|er|]; [|intros [= <- <-]; by exists t1..].
  intros E. destruct (Hf a s1 e s' E) as (t2 & G1 & G2 & G3). exists (t1 ++ t2).
  rewrite G1, H1, <- app_assoc, acquired_app, H2. split_and!; [done| |done].
  rewrite closes_runs in *. destruct (runs_defers e).
  - destruct G2 as (body & -> & Hb). exists (t1 ++ body).
    rewrite acquired_app, released_app, H2, H3, <- app_assoc. done.
  - by rewrite released_app, H3, G2.
Qed.

Lemma scoped_holding {A} r rs (m : main_m A) : scoped rs m -> scoped (r :: rs) (holding r m).
Proof.
  intros H s e s'. unfold holding. destruct (m (log (Acquire r) s)) as [e1 s1] eqn:E1.
  destruct (H _ _ _ E1) as (t & H1 & H2 & H3). cbn in H1. rewrite <- app_assoc in H1. intros [= <- <-].
  rewrite closes_runs in H2. destruct (runs_defers e1) eqn:Er.
  - exists ((Acquire r :: t) ++ [Release r]). cbn [ms_trace log]. rewrite H1, <- app_assoc. split; [done|].
    rewrite closes_runs. rewrite Er. destruct H2 as (body & -> & Hb). split.
    + exists (Acquire r :: body). split; [|done]. cbn [acquired omap list_omap]. fold (acquired body).
      rewrite reverse_cons, fmap_app. cbn. by rewrite <- app_assoc.
    + rewrite acquired_app. cbn [acquired omap list_omap]. rewrite app_nil_r.
      change (r :: acquired (body ++ (Release <$> reverse (acquired body))) `prefix_of` r :: rs). by apply prefix_cons.
  - exists (Acquire r :: t). split; [done|]. rewrite closes_runs. rewrite Er. split; [done|].
    change (r :: acquired t `prefix_of` r :: rs). by apply prefix_cons.
Qed.

Context (N : node) (M : pool_node) (sorter : slice_sort) (ord : range_order).
Context (clock : nat -> Z) (fuel : nat) (Out : outside).

Lemma plain_bind {A C} (m : main_m A) (f : A -> main_m C) : plain m -> (forall a, plain (f a)) -> plain (m ≫= f).
Proof.
  intros Hm Hf s e s'. unfold mbind, main_bind.
  destruct (m s) as [e1 s1] eqn:E1. destruct (Hm s e1 s1 E1) as (t1 & H1 & H2 & H3).
  destruct e1 as [a| |er|er|er|]; [|intros [= <- <-]; by exists t1..].
  intros E. destruct (Hf a s1 e s' E) as (t2 & G1 & G2 & G3). exists (t1 ++ t2).
  by rewrite G1, H1, <- app_assoc, acquired_app, released_app, H2, H3, G2, G3.
Qed.

Create HintDb main_plain.
#[local] Hint Resolve plain_ret plain_block plain_return plain_fatal plain_or_fatal plain_on_world : main_plain.
#[local] Hint Extern 1 (plain (act _)) => (apply plain_act; reflexivity) : main_plain.
#[local] Hint Extern 1 (plain (_ ≫= _)) => (apply plain_bind; [|intros ?]) : main_plain.
#[local] Hint Extern 2 (plain match ?x with _ => _ end) => destruct x : main_plain.

Lemma plain_halt : plain (haltForOperator Out).
Proof. unfold haltForOperator. auto with main_plain. Qed.
#[local] Hint Resolve plain_halt : main_plain.

Lemma plain_serve cfg : plain (serve N M sorter ord clock fuel Out cfg).
Proof. unfold serve. eauto 12 with main_plain. Qed.

Lemma plain_catch_up cfg : plain (catch_up_and_serve N M sorter ord clock fuel Out cfg).
Proof. pose proof plain_serve. unfold catch_up_and_serve. eauto 12 with main_plain. Qed.

Lemma plain_wait_ibd info : plain (wait_ibd Out info).
Proof. unfold wait_ibd. auto with main_plain. Qed.

Lemma scoped_main cfg : scoped [RDb; RClient; RContext; RWriter; RZmq] (holding RDb (with_db N M sorter ord clock fuel Out cfg)).
Proof.
  apply scoped_holding, scoped_bind; [apply plain_or_fatal|intros _].
  do 2 apply scoped_holding. apply scoped_bind; [apply plain_or_fatal|intros info0].
  apply scoped_bind; [apply plain_wait_ibd|intros info]. apply scoped_bind; [apply plain_on_world|intros r].
  apply scoped_bind; [apply plain_or_fatal|intros _].
  apply scoped_holding. apply scoped_bind; [apply plain_on_world|intros _].
  apply scoped_bind; [apply plain_or_fatal|intros _].
  apply scoped_holding, plain_scoped, plain_catch_up.
Qed.

(** ** Serving *)

(** The node has finished its initial download; a record, for [done] not to
    evaluate the comparison. *)
Record downloaded (info : BlockchainInfo) : Prop := { dl_complete : ibd_complete info = true }.

Lemma ibd_loop_complete events i : ibd_loop events = Some (Ok i) -> downloaded i.
Proof.
  induction events as [|ev events IH]; [discriminate|]. cbn [ibd_loop]. destruct ev as [|[up|er]]; [discriminate| |exact IH].
  destruct (ibd_complete up) eqn:E; [|exact IH]. intros [= <-]. constructor. exact E.
Qed.

Lemma waitForIBD_complete info events i : waitForIBD info events = Some (Ok i) -> downloaded i.
Proof.
  unfold waitForIBD. destruct (ibd_complete info) eqn:E; [|apply ibd_loop_complete]. intros [= <-]. constructor. exact E.
Qed.

Lemma wait_ibd_state info s : (wait_ibd Out info s).2 = s.
Proof.
  unfold wait_ibd. destruct (waitForIBD info (o_ibd Out)) as [[i|er]|]; [reflexivity| |reflexivity].
  destruct (errors_Is er _); reflexivity.
Qed.

Lemma wait_ibd_inv info i s s1 : wait_ibd Out info s = (Next i, s1) -> downloaded i /\ s1 = s.
Proof.
  unfold wait_ibd. destruct (waitForIBD info (o_ibd Out)) as [[j|er]|] eqn:Ei; [|destruct (errors_Is er _); discriminate|discriminate].
  intros [= <- <-]. split; [exact (waitForIBD_complete _ _ _ Ei)|reflexivity].
Qed.

(** What the start of the server comes after. *)
Definition served (cfg : Config) (info : BlockchainInfo) (w w1 : mworld) : Prop :=
  startup N M ord cfg clock fuel info w = (Ok true, w1) /\
  (testConnections (o_zmq_block Out) (o_zmq_tx Out) (Bitcoin_ZMQBlockAddr (cfg_Bitcoin cfg))
     (Bitcoin_ZMQTxAddr (cfg_Bitcoin cfg)) 0%nat).1 = Ok ().

Notation loop cfg := (runMainLoop N M sorter ord cfg clock fuel (o_events Out)).

Ltac no_start Hin := exfalso; apply (bool_decide_eq_true_2 _) in Hin; vm_compute in Hin; discriminate Hin.

(** How the program ends once it serves, by what the main loop came to. *)
Definition loop_ending (r : result outcome) : ending unit :=
  match r with
  | Ok None => Blocked
  | Ok (Some None) => Next ()
  | Ok (Some (Some er)) => if errors_Is er "ErrPrunedGap" && negb (o_cancelled Out) then Blocked else Next ()
  | Err er => if is_panic er then Panicked er else if errors_Is er "goroutine" then Killed er else Blocked
  end.

Lemma serve_result cfg s e s' : serve N M sorter ord clock fuel Out cfg s = (e, s') ->
  ms_world s' = (loop cfg (ms_world s)).2 /\ e = loop_ending (loop cfg (ms_world s)).1.
Proof.
  unfold serve, act, on_world, call_ending, haltForOperator, mbind, main_bind, mret, main_ret, log, block. cbn [ms_world ms_trace].
  destruct (loop cfg (ms_world s)) as [[out|er] w]; cbn; [destruct out as [[er|]|]|].
  - destruct (errors_Is er "ErrPrunedGap"); cbn; [|by intros [= <- <-]].
    destruct (o_cancelled Out); by intros [= <- <-].
  - by intros [= <- <-].
  - by intros [= <- <-].
  - destruct (is_panic er); [by intros [= <- <-]|]. destruct (errors_Is er "goroutine"); [by intros [= <- <-]|].
    destruct (unreturned er); by intros [= <- <-].
Qed.

(** *** The main loop fails only where a call in it panics or does not return *)

Definition abrupt (e : error) : bool := is_panic e || errors_Is e "goroutine" || unreturned e.
Definition abruptly {A} (m : st mworld A) : Prop := forall w e, (m w).1 = Err e -> abrupt e = true.

Lemma abruptly_Ok {A} (m : st mworld A) : (forall w, is_Ok (m w).1 = true) -> abruptly m.
Proof. intros H w e E. specialize (H w). by rewrite E in H. Qed.
Lemma abruptly_ret {A} (a : A) : abruptly (mret a).
Proof. by apply abruptly_Ok. Qed.
Lemma abruptly_gets {A} (f : mworld -> A) : abruptly (st_gets f).
Proof. by apply abruptly_Ok. Qed.
Lemma abruptly_modify f : abruptly (st_modify f).
Proof. by apply abruptly_Ok. Qed.
Lemma abruptly_try {A} (m : st mworld A) : abruptly (st_try m).
Proof. apply abruptly_Ok. intros w. unfold st_try. by destruct (m w). Qed.
Lemma abruptly_fail {A} e : abrupt e = true -> abruptly (st_fail e : st mworld A).
Proof. intros H w e' [= <-]. done. Qed.
Lemma abruptly_bind {A C} (m : st mworld A) (f : A -> st mworld C) : abruptly m -> (forall a, abruptly (f a)) -> abruptly (m ≫= f).
Proof.
  intros Hm Hf w e. unfold mbind, st_bind. specialize (Hm w). destruct (m w) as [[a|e1] w1]; [apply Hf|].
  cbn. intros [= <-]. by apply Hm.
Qed.
Lemma abruptly_foldM {A C} (f : C -> A -> st mworld C) l b : (forall b x, abruptly (f b x)) -> abruptly (st_foldM f b l).
Proof. intros Hf. revert b; induction l as [|x l IH]; intros b; [apply abruptly_ret|]. by apply abruptly_bind. Qed.

Lemma abruptly_writer cfg job : abruptly (writer_job N ord cfg clock fuel job).
Proof.
  intros w e. unfold writer_job, on_writer. destruct (run_job _ _ _ _ _ _ _) as [[r|er|] ww]; [done|..]; by intros [= <-].
Qed.

Create HintDb abrupt.
#[local] Hint Resolve abruptly_ret abruptly_gets abruptly_modify abruptly_try abruptly_writer abruptly_foldM : abrupt.
#[local] Hint Extern 1 (abruptly (_ ≫= _)) => (apply abruptly_bind; [|intros ?]) : abrupt.
#[local] Hint Extern 2 (abruptly match ?x with _ => _ end) => destruct x eqn:? : abrupt.

Lemma abruptly_flush cfg : abruptly (flush_prunes N ord cfg clock fuel).
Proof.
  assert (H : forall n, abruptly (run_prunes N ord cfg clock fuel n)) by (induction n; cbn [run_prunes]; auto with abrupt).
  unfold flush_prunes, set_prunes. auto with abrupt.
Qed.

Lemma abruptly_notify l : abruptly (notify_affected sorter ord l).
Proof.
  assert (H : forall x, abruptly (notify_status sorter ord x)) by (intros x; unfold notify_status, send; auto with abrupt).
  unfold notify_affected. destruct l; [auto with abrupt|]. apply abruptly_bind; [by apply abruptly_Ok|]. auto with abrupt.
Qed.

Lemma abruptly_catch_up cfg : abruptly (catch_up N ord cfg fuel).
Proof.
  unfold catch_up. apply abruptly_bind; [auto with abrupt|]. intros [[]|e]; [auto with abrupt|].
  destruct (is_panic e || unreturned e) eqn:E; [|auto with abrupt]. apply abruptly_fail. unfold abrupt.
  destruct (is_panic e); [done|]. cbn in E. rewrite E. by rewrite orb_true_r.
Qed.

Lemma abruptly_reconcile cfg : abruptly (reconcileMempool N M ord cfg clock fuel).
Proof.
  pose proof (abruptly_flush cfg) as Hf.
  assert (H : forall b h, abruptly (backfill_tx N M ord cfg clock fuel b h)).
  { intros b h. unfold backfill_tx, writer_IndexMempoolTx. eauto 12 with abrupt. }
  unfold reconcileMempool. eauto 12 with abrupt.
Qed.
#[local] Hint Resolve abruptly_flush abruptly_notify abruptly_catch_up abruptly_reconcile : abrupt.

Lemma abruptly_sends h x : abruptly (server_NotifyNewBlock h x).
Proof. unfold server_NotifyNewBlock, send. auto with abrupt. Qed.
#[local] Hint Resolve abruptly_sends : abrupt.

Lemma abruptly_event cfg e : abruptly (main_event N M sorter ord cfg clock fuel e).
Proof.
  assert (HG : abruptly (on_chain GetCurrentHeight)) by (apply abruptly_Ok; by intros w).
  unfold main_event, on_block, on_tx, on_gap, on_reorg_tick, on_recon_tick, run_queued_prune, writer_IndexBlock,
    writer_IndexMempoolTx, count_block, count_tx, TriggerPrune, set_prunes.
  destruct e as [|[b|]|[tx|]|[[]|]| | | | |]; eauto 25 with abrupt.
Qed.

Lemma abruptly_loop cfg evs : abruptly (main_loop N M sorter ord cfg clock fuel evs).
Proof.
  pose proof (abruptly_event cfg) as H. induction evs as [|e evs IH]; cbn [main_loop]; auto with abrupt.
Qed.

(** The tickers. *)
Lemma loop_started cfg evs w : 0 < prune_period cfg ->
  runMainLoop N M sorter ord cfg clock fuel evs w = main_loop N M sorter ord cfg clock fuel evs w.
Proof. intros H. unfold runMainLoop, NewTicker. destruct (Z.ltb_spec 0 (prune_period cfg)); [done|lia]. Qed.

Lemma loop_not_started cfg evs w : prune_period cfg <= 0 ->
  runMainLoop N M sorter ord cfg clock fuel evs w = (Err bad_interval, w).
Proof. intros H. unfold runMainLoop, NewTicker. destruct (Z.ltb_spec 0 (prune_period cfg)); [lia|done]. Qed.

Lemma bind_inv {A C} (m : main_m A) (f : A -> main_m C) s e s' : (m ≫= f) s = (e, s') ->
  (exists a s1, m s = (Next a, s1) /\ f a s1 = (e, s')) \/ s' = (m s).2.
Proof.
  unfold mbind, main_bind. destruct (m s) as [[a| |er|er|er|] s1]; [left; by exists a, s1|..]; intros [= <- <-]; by right.
Qed.

Lemma or_fatal_inv {A} pre (r : result A) a s s1 : or_fatal pre r s = (Next a, s1) -> r = Ok a /\ s1 = s.
Proof. destruct r; [|done]. by intros [= <- <-]. Qed.
Lemma or_fatal_state {A} pre (r : result A) s : (or_fatal pre r s).2 = s.
Proof. by destruct r. Qed.

Lemma on_world_inv {A} (c : st mworld A) r s s1 : on_world c s = (Next r, s1) ->
  c (ms_world s) = (r, ms_world s1) /\ ms_trace s1 = ms_trace s.
Proof.
  unfold on_world, call_ending. destruct (c (ms_world s)) as [[a|er] w]; [by intros [= <- <-]|].
  repeat case_match; try discriminate. by intros [= <- <-].
Qed.
(** A call that failed abruptly has given no result. *)
Lemma on_world_quiet {A} (c : st mworld A) r s s1 : abruptly c -> on_world c s = (Next r, s1) -> is_Ok r = true.
Proof.
  intros Hc. specialize (Hc (ms_world s)). unfold on_world, call_ending.
  destruct (c (ms_world s)) as [[a|er] w]; [by intros [= <- _]|]. specialize (Hc er eq_refl). unfold abrupt in Hc.
  destruct (is_panic er); [done|]. destruct (errors_Is er "goroutine"); [done|]. cbn in Hc. by rewrite Hc.
Qed.

Lemma on_world_trace {A} (c : st mworld A) s : ms_trace (on_world c s).2 = ms_trace s.
Proof. unfold on_world. by destruct (c (ms_world s)). Qed.

Lemma holding_inv {A} r (m : main_m A) s e s' : holding r m s = (e, s') ->
  exists s1, m (log (Acquire r) s) = (e, s1) /\ ms_world s' = ms_world s1 /\
    (ServerStart ∈ ms_trace s' -> ServerStart ∈ ms_trace s1).
Proof.
  unfold holding. destruct (m _) as [e1 s1]. intros [= <- <-]. exists s1. split; [done|].
  destruct (runs_defers e1); [|done]. split; [done|]. cbn. intros [?|Hin]%elem_of_app; [done|no_start Hin].
Qed.

Lemma start_log a s : a <> ServerStart -> ServerStart ∉ ms_trace s -> ServerStart ∉ ms_trace (log a s).
Proof. intros Ha Hs [?|Hin]%elem_of_app; [done|]. by apply list_elem_of_singleton in Hin. Qed.

Lemma catch_up_serving cfg s e s' : ServerStart ∉ ms_trace s ->
  catch_up_and_serve N M sorter ord clock fuel Out cfg s = (e, s') -> ServerStart ∈ ms_trace s' ->
  exists v w1, on_chain (CatchUpToTip N ord (Storage_MaxReorgDepth (cfg_Storage cfg)) fuel) (ms_world s) = (Ok v, w1) /\
    ms_world s' = (loop cfg w1).2 /\ e = loop_ending (loop cfg w1).1.
Proof.
  intros Hs E Hin. apply bind_inv in E as [(r & s1 & E1 & E2)| ->]; [|by rewrite on_world_trace in Hin].
  apply on_world_inv in E1 as [E1 Ht]. destruct r as [v|er].
  - apply serve_result in E2. by exists v, (ms_world s1).
  - exfalso. rewrite <- Ht in Hs. destruct (errors_Is er "ErrPrunedGap").
    + revert E2. unfold haltForOperator, act, block, mbind, main_bind, mret, main_ret, return_now.
      destruct (o_cancelled Out); intros [= <- <-]; revert Hin; by apply start_log.
    + by injection E2 as <- <-.
Qed.

Lemma serving cfg s e s' : ServerStart ∉ ms_trace s ->
  with_node N M sorter ord clock fuel Out cfg s = (e, s') -> ServerStart ∈ ms_trace s' ->
  exists info w1, downloaded info /\ served cfg info (ms_world s) w1 /\
    ms_world s' = (loop cfg w1).2 /\ e = loop_ending (loop cfg w1).1.
Proof.
  intros Hs E Hin.
  apply bind_inv in E as [(info0 & s1 & E1 & E)| ->]; [|by rewrite or_fatal_state in Hin].
  apply or_fatal_inv in E1 as [_ ->].
  apply bind_inv in E as [(info & s1 & E1 & E)| ->].
  2: by rewrite wait_ibd_state in Hin.
  apply wait_ibd_inv in E1 as [Hi ->].
  apply bind_inv in E as [(r & sA & EA & E)| ->]; [|by rewrite on_world_trace in Hin].
  apply on_world_inv in EA as [EA HA].
  apply bind_inv in E as [([] & s1 & E1 & E)| ->]; [|by rewrite or_fatal_state, HA in Hin].
  apply or_fatal_inv in E1 as [-> ->]. apply holding_inv in E as (s2 & E & Hw & Htr). apply Htr in Hin.
  assert (HsA : ServerStart ∉ ms_trace (log (Acquire RWriter) sA)) by (apply start_log; [done|by rewrite HA]).
  apply bind_inv in E as [(r & sB & EB & E)| ->]; [|by rewrite on_world_trace in Hin].
  pose proof (on_world_quiet _ _ _ _ (abruptly_reconcile cfg) EB) as Hr. destruct r as [r|]; [|done].
  apply on_world_inv in EB as [EB HB]. cbn [log ms_world] in EB. rewrite <- HB in HsA.
  apply bind_inv in E as [([] & s1 & E1 & E)| ->]; [|unfold start_zmq in Hin; by rewrite or_fatal_state in Hin].
  apply or_fatal_inv in E1 as [Ez ->]. apply holding_inv in E as (s3 & E & Hw' & Htr'). apply Htr' in Hin.
  apply catch_up_serving in E as (v & w1 & EC & Hl & He); [|by apply start_log|done].
  exists info, w1. split; [done|]. split; [split; [|done]|].
  - cbn [log ms_world] in EC. unfold startup, mbind, st_bind, st_try. by rewrite EA, EB, EC.
  - by rewrite Hw, Hw'.
Qed.

(** C22: the life of the program: it opens the database, the connection to the
    node, its context, the writer and the subscriber in this order, and when
    [main] returns or panics it has closed exactly those it opened, the last one
    first and after everything else; while a call has not returned, or when
    [log.Fatalf] or the panic of another goroutine ends it, nothing has been closed.
    It listens for clients only with a valid configuration, after the node has
    finished its initial download, both ZMQ addresses have answered, and start-up
    has ended well in a state that has caught up.  From then on: with a prune
    interval whose period is not positive (a valid configuration can have one, for
    the product overflows), the program ends in the panic of [time.NewTicker] in
    that state; with any other one the state is what the main loop makes of it, and
    the program ends as the loop does: it waits for the next event, returns when
    the loop does (halting first when the node has pruned the gap), and fails only
    where a call in the loop panics or does not return.  (The goroutines of the
    connections are not part of this; where they panic is said in [requests_answered]
    and [close_races_with_send].) *)
Theorem main_lifecycle (showVersion : bool) (f : flags) (e : ending unit) (s : mstate)
    (Hmain : main N M sorter ord clock fuel Out showVersion f = (e, Some s)) :
  closes e (ms_trace s) /\
  acquired (ms_trace s) `prefix_of` [RDb; RClient; RContext; RWriter; RZmq] /\
  (ServerStart ∈ ms_trace s -> exists cfg db info w1,
     configure (o_env Out) f = Ok cfg /\ o_pebble_Open Out (Storage_DBPath (cfg_Storage cfg)) = Ok db /\
     ibd_complete info = true /\ served cfg info (main_world db) w1 /\
     (prune_period cfg <= 0 -> e = Panicked bad_interval /\ ms_world s = w1) /\
     (0 < prune_period cfg ->
        let '(r, w) := main_loop N M sorter ord cfg clock fuel (o_events Out) w1 in
        ms_world s = w /\ e = loop_ending r /\ (forall er, r = Err er -> abrupt er = true))).
Proof.
  unfold main in Hmain. destruct showVersion; [done|].
  destruct (configure (o_env Out) f) as [cfg|] eqn:E1; [|done]. cbn [mbind result_bind] in Hmain.
  destruct (EnsureDBDirectory (o_env Out) cfg); [|discriminate Hmain].
  rewrite Open_result in Hmain.
  destruct (o_pebble_Open Out (Storage_DBPath (cfg_Storage cfg))) as [db|] eqn:E2; [|discriminate Hmain].
  cbn [wrap mbind result_bind fst db_pebble] in Hmain.
  destruct (holding RDb (with_db N M sorter ord clock fuel Out cfg) (mkMState (main_world db) [])) as [e1 s1] eqn:E3.
  injection Hmain as <- <-.
  destruct (scoped_main cfg _ _ _ E3) as (t & H1 & H2 & H3). cbn in H1. rewrite H1. split_and!; [done..|].
  rewrite <- H1. clear t H1 H2 H3. intros Hin.
  apply holding_inv in E3 as (s2 & E & Hw & Htr). apply Htr in Hin.
  apply bind_inv in E as [(c & s3 & E4 & E)| ->]; [|rewrite or_fatal_state in Hin; no_start Hin].
  apply or_fatal_inv in E4 as [_ ->]. apply holding_inv in E as (s4 & E & Hw' & Htr'). apply Htr' in Hin.
  apply holding_inv in E as (s5 & E & Hw'' & Htr''). apply Htr'' in Hin.
  apply serving in E as (info & w1 & G1 & G2 & G3 & G4); [|intros Hin'; no_start Hin'|done].
  exists cfg, db, info, w1. destruct G1 as [G1]. split; [reflexivity|]. split; [exact E2|]. split; [exact G1|].
  split; [exact G2|]. split; intros Hp.
  - rewrite (loop_not_started _ _ _ Hp) in G3, G4. split; [exact G4|]. by rewrite Hw, Hw', Hw''.
  - rewrite (loop_started _ _ _ Hp) in G3, G4. pose proof (abruptly_loop cfg (o_events Out) w1) as Ha.
    destruct (main_loop _ _ _ _ _ _ _ _ w1) as [r w]. split; [by rewrite Hw, Hw', Hw''|]. split; [exact G4|exact Ha].
Qed.

End Props.

(** ** Witness: a first start at height 1, one round of the main loop *)

Definition sample_info : string :=
  "{'chain':'regtest','blocks':3,'verificationprogress':1,'pruned':false,'warnings':''}".

Definition all_well : zmq_answers := mkAnswers (Ok ()) (fun _ => Ok ()) (fun _ => Ok ()).

Definition sample_outside (db : @pdb MemPebble) (tx_socket : zmq_answers) (events : list event) : outside :=
  mkOutside sample_env (mkRpcLibrary (fun _ => Ok ()) (fun _ => Ok 3)) (fun _ => Ok db) (Ok (text sample_info)) []
    all_well tx_socket events true.

#[local] Notation sample_program events tx_socket :=
  (main sample_node sample_pool merge_sorter id_order sample_clock 2
     (sample_outside (w_db world0) tx_socket events) false (sample_flags "cookie" "" "" 1)).

Definition program_end (tx_socket : zmq_answers) (events : list event) : @mstate MemPebble ModelBtcd :=
  default (mkMState sample_main []) (sample_program events tx_socket).2.

Lemma sample_program_run :
  sample_program [EvStatsTick; EvDone] all_well = (Next (), Some (program_end all_well [EvStatsTick; EvDone])).
Proof.
  apply injective_projections; [vm_compute; reflexivity|].
  apply Some_default. apply (bool_decide_eq_true_1 _). vm_compute. reflexivity.
Qed.

Lemma sample_program_trace : ms_trace (program_end all_well [EvStatsTick; EvDone]) =
  [Acquire RDb; Acquire RClient; Acquire RContext; Acquire RWriter; Acquire RZmq; ServerStart; ZmqStart; ServerStop;
   Release RZmq; Release RWriter; Release RContext; Release RClient; Release RDb].
Proof. vm_compute. reflexivity. Qed.

Lemma main_lifecycle_witness : exists cfg info w1,
  served sample_node sample_pool id_order sample_clock 2
    (sample_outside (w_db world0) all_well [EvStatsTick; EvDone]) cfg info (main_world (w_db world0)) w1 /\
  currentHeight (ww_cm (mw_writer (ms_world (program_end all_well [EvStatsTick; EvDone])))) = 3.
Proof.
  destruct (main_lifecycle sample_node sample_pool merge_sorter id_order sample_clock 2
    (sample_outside (w_db world0) all_well [EvStatsTick; EvDone]) false (sample_flags "cookie" "" "" 1) (Next ())
    (program_end all_well [EvStatsTick; EvDone]) sample_program_run) as (_ & _ & H).
  destruct H as (cfg & db & info & w1 & _ & Hdb & _ & H & _ & _).
  { rewrite sample_program_trace. apply (bool_decide_eq_true_1 _). vm_compute. reflexivity. }
  injection Hdb as <-. exists cfg, info, w1. split; [exact H|]. vm_compute. reflexivity.
Defined.
