(* ===== verification/Pipeline.v ===== *)
(** * From the sockets to the index: the subscriber and the main loop together

    [runMainLoop] of [cmd/server/run.go] receives from the channels the
    goroutines of [internal/indexer/zmq.go] send on.  The state of [Stream] and
    that of [Live] side by side, with a step for each action of a goroutine, each
    receive of the main loop with what it does with the value, and each of its
    ticks. *)

From Stdlib Require Import Strings.Byte.
From S2P Require Import Prelude Bytes Hex Keys Values Json Checkpoint Pebble Store Sha256 Types Mempool Block Reorg Query Server Chain Writer GoFloat Config Rpc Live Zmq Stream StreamProps.

Section Pipeline.
Context {P : Pebble} {B : Btcd} {T : BtcdTx} {Zs : Zstd}.
Context (N : node) (M : pool_node) (sorter : slice_sort) (ord : range_order) (cfg : Config).
Context (clock : nat -> Z) (fuel : nat).
Context (block_Deserialize : bytes -> result MsgBlock) (tx_Deserialize : bytes -> result MsgTx).
Context (AsErrno : error -> Z).

(** The sizes [main] asks for. *)
Definition zmqConfig : ZMQConfig :=
  mkZMQConfig (Bitcoin_ZMQBlockAddr (cfg_Bitcoin cfg)) (Bitcoin_ZMQTxAddr (cfg_Bitcoin cfg)) 10 1000.

Record pipeline := mkPipeline {
  p_sub : Subscriber;
  p_world : mworld;
  p_loop : result outcome;      (* [Ok continue]: the main loop runs *)
}.

Inductive plabel :=
| PSub (l : glabel)             (* a goroutine, Start or Stop *)
| PBlock                        (* case block, ok := <-zmqSub.BlockChan() *)
| PTx
| PGap
| PTick (e : event).            (* the context, a ticker or the worker *)

Definition is_take (l : glabel) : bool :=
  match l with GTakeBlock | GTakeTx | GTakeGap => true | _ => false end.

Definition is_tick (e : event) : bool :=
  match e with EvBlock _ | EvTx _ | EvGap _ => false | _ => true end.

Definition stream_of_gap (g : ZMQGapEvent) : stream :=
  match ge_Stream g with SBlock => StreamBlock | STx => StreamTx end.

Definition on_event (e : event) (sub : Subscriber) (p : pipeline) : pipeline :=
  let '(r, w) := main_event N M sorter ord cfg clock fuel e (p_world p) in mkPipeline sub w r.

(** A receive: the oldest value, or not [ok] once the channel is closed and
    empty; [None] while the main loop has to wait. *)
Definition receive {A} (chan : list A) (l : glabel) (ev : option A -> event) (p : pipeline) : option pipeline :=
  match chan with
  | a :: _ =>
      sub ← gstep block_Deserialize tx_Deserialize AsErrno zmqConfig l (p_sub p);
      Some (on_event (ev (Some a)) sub p)
  | [] => if bool_decide (u_stop (p_sub p) = GStopped) then Some (on_event (ev None) (p_sub p) p) else None
  end.

Definition running (p : pipeline) : bool := bool_decide (p_loop p = Ok continue).

Definition pstep (l : plabel) (p : pipeline) : option pipeline :=
  match l with
  | PSub l =>
      if is_take l then None
      else
        sub ← gstep block_Deserialize tx_Deserialize AsErrno zmqConfig l (p_sub p);
        Some (mkPipeline sub (p_world p) (p_loop p))
  | PBlock => if running p then receive (z_blockChan (u_sub (p_sub p))) GTakeBlock EvBlock p else None
  | PTx => if running p then receive (z_txChan (u_sub (p_sub p))) GTakeTx EvTx p else None
  | PGap =>
      if running p
      then receive (z_gapChan (u_sub (p_sub p))) GTakeGap (fun g => EvGap (stream_of_gap <$> g)) p
      else None
  | PTick e => if running p && is_tick e then Some (on_event e (p_sub p) p) else None
  end.

Fixpoint prun (ls : list plabel) (p : pipeline) : option pipeline :=
  match ls with
  | [] => Some p
  | l :: ls => p ← pstep l p; prun ls p
  end.

Definition start_pipeline (w : mworld) : pipeline := mkPipeline new_Subscriber w (Ok continue).

End Pipeline.
