(* ===== verification/PipelineProps.v ===== *)
(** * From the sockets to the index: properties

    What the main loop handles is what arrived; and without new arrivals it
    catches up with the channels. *)

From Stdlib Require Import Strings.Byte.
From S2P Require Import Prelude Bytes Hex Keys Values Json Checkpoint Pebble Store Sha256 Types Mempool MempoolFacts MempoolProps Block BlockFacts BlockOps BlockProps Reorg Query QueryFacts QueryProps Server Chain ChainSample Writer WriterProps GoFloat Config ConfigProps Rpc RpcProps Live LiveSample Zmq Stream StreamProps Pipeline.

Section Props.
Context {P : Pebble} {B : Btcd} {T : BtcdTx} {Zs : Zstd}.
Context (N : node) (M : pool_node) (sorter : slice_sort) (ord : range_order) (cfg : Config).
Context (clock : nat -> Z) (fuel : nat).
Context (block_Deserialize : bytes -> result MsgBlock) (tx_Deserialize : bytes -> result MsgTx).
Context (AsErrno : error -> Z).

Notation zmqConfig := (zmqConfig cfg).
Notation gstep := (gstep block_Deserialize tx_Deserialize AsErrno zmqConfig).
Notation grun := (grun block_Deserialize tx_Deserialize AsErrno zmqConfig).
Notation pstep := (pstep N M sorter ord cfg clock fuel block_Deserialize tx_Deserialize AsErrno).
Notation prun := (prun N M sorter ord cfg clock fuel block_Deserialize tx_Deserialize AsErrno).
Notation main_loop := (main_loop N M sorter ord cfg clock fuel).
Notation main_event := (main_event N M sorter ord cfg clock fuel).
Notation zlabel_of := (zlabel_of AsErrno).
Notation taken := (taken block_Deserialize tx_Deserialize (cfg_BlockChanSize zmqConfig) (cfg_TxChanSize zmqConfig)).
Notation z_of p := (u_sub (p_sub p)).

(** ** What the main loop handles *)

Definition event_of (l : plabel) (p : pipeline) : option event :=
  match l with
  | PSub _ => None
  | PBlock => Some (EvBlock (head (z_blockChan (z_of p))))
  | PTx => Some (EvTx (head (z_txChan (z_of p))))
  | PGap => Some (EvGap (stream_of_gap <$> head (z_gapChan (z_of p))))
  | PTick e => Some e
  end.

Fixpoint handled (ls : list plabel) (p : pipeline) : list event :=
  match ls with
  | [] => []
  | l :: ls => option_list (event_of l p) ++ match pstep l p with Some p => handled ls p | None => [] end
  end.

(** The step of the subscriber. *)
Definition sub_label (l : plabel) (p : pipeline) : option glabel :=
  match l with
  | PSub l => Some l
  | PBlock => (fun _ => GTakeBlock) <$> head (z_blockChan (z_of p))
  | PTx => (fun _ => GTakeTx) <$> head (z_txChan (z_of p))
  | PGap => (fun _ => GTakeGap) <$> head (z_gapChan (z_of p))
  | PTick _ => None
  end.

Fixpoint sub_labels (ls : list plabel) (p : pipeline) : list glabel :=
  match ls with
  | [] => []
  | l :: ls => option_list (sub_label l p) ++ match pstep l p with Some p => sub_labels ls p | None => [] end
  end.

Lemma receive_Some {A} (chan : list A) l ev p p' :
  receive N M sorter ord cfg clock fuel block_Deserialize tx_Deserialize AsErrno chan l ev p = Some p' ->
  exists sub, p' = on_event N M sorter ord cfg clock fuel (ev (head chan)) sub p /\
    match head chan with Some _ => gstep l (p_sub p) = Some sub | None => sub = p_sub p end.
Proof.
  unfold receive. destruct chan as [|a chan]; cbn.
  - case_bool_decide; [|done]. intros [= <-]. by eexists.
  - destruct (gstep l (p_sub p)) as [sub|]; [|done]. cbn. intros [= <-]. by exists sub.
Qed.

(** One step: the subscriber's, and the event the loop handles. *)
Lemma pstep_parts l p p' : pstep l p = Some p' ->
  match sub_label l p with Some gl => gstep gl (p_sub p) = Some (p_sub p') | None => p_sub p' = p_sub p end /\
  match event_of l p with
  | Some e => p_loop p = Ok continue /\ main_event e (p_world p) = (p_loop p', p_world p')
  | None => p_world p' = p_world p /\ p_loop p' = p_loop p
  end.
Proof.
  assert (Hev : forall e sub, main_event e (p_world p) =
    (p_loop (on_event N M sorter ord cfg clock fuel e sub p), p_world (on_event N M sorter ord cfg clock fuel e sub p)) /\
    p_sub (on_event N M sorter ord cfg clock fuel e sub p) = sub).
  { intros e sub. unfold on_event. by destruct (main_event e (p_world p)). }
  unfold Pipeline.pstep. destruct l as [gl| | | |e]; cbn [sub_label event_of].
  - destruct (is_take gl); [done|]. destruct (gstep gl (p_sub p)) as [sub|] eqn:E; [|done]. cbn. by intros [= <-].
  - destruct (running p) eqn:Er; [|done]. intros (sub & -> & H)%receive_Some. apply bool_decide_eq_true in Er.
    destruct (Hev (EvBlock (head (z_blockChan (z_of p)))) sub) as [H1 H2]. rewrite H2. split; [|done].
    by destruct (head (z_blockChan (z_of p))).
  - destruct (running p) eqn:Er; [|done]. intros (sub & -> & H)%receive_Some. apply bool_decide_eq_true in Er.
    destruct (Hev (EvTx (head (z_txChan (z_of p)))) sub) as [H1 H2]. rewrite H2. split; [|done].
    by destruct (head (z_txChan (z_of p))).
  - destruct (running p) eqn:Er; [|done]. intros (sub & -> & H)%receive_Some. apply bool_decide_eq_true in Er.
    destruct (Hev (EvGap (stream_of_gap <$> head (z_gapChan (z_of p)))) sub) as [H1 H2]. rewrite H2. split; [|done].
    by destruct (head (z_gapChan (z_of p))).
  - destruct (running p) eqn:Er; [|done]. apply bool_decide_eq_true in Er. destruct (is_tick e); [|done]. cbn.
    intros [= <-]. destruct (Hev e (p_sub p)) as [H1 H2]. by rewrite H2.
Qed.

Lemma prun_sub ls : forall p p', prun ls p = Some p' -> grun (sub_labels ls p) (p_sub p) = Some (p_sub p').
Proof.
  induction ls as [|l ls IH]; intros p p'; cbn [Pipeline.prun sub_labels]; [by intros [= <-]|].
  destruct (pstep l p) as [p1|] eqn:E; [|done]. cbn [mbind option_bind]. intros Hr.
  destruct (pstep_parts l p p1 E) as [H _]. specialize (IH p1 p' Hr).
  destruct (sub_label l p) as [g|].
  - change (grun (g :: sub_labels ls p1) (p_sub p) = Some (p_sub p')). cbn [Stream.grun]. by rewrite H.
  - change (grun (sub_labels ls p1) (p_sub p) = Some (p_sub p')). by rewrite <- H.
Qed.

Lemma prun_ended ls : forall p p', p_loop p <> Ok continue -> prun ls p = Some p' ->
  handled ls p = [] /\ p_world p' = p_world p /\ p_loop p' = p_loop p.
Proof.
  induction ls as [|l ls IH]; intros p p' He; cbn [Pipeline.prun handled]; [by intros [= <-]|].
  destruct (pstep l p) as [p1|] eqn:E; [|done]. cbn [mbind option_bind]. intros Hr.
  destruct (pstep_parts l p p1 E) as [_ H]. destruct (event_of l p); [by destruct H as [? _]|].
  destruct H as [H1 H2]. destruct (IH p1 p' ltac:(by rewrite H2) Hr) as (G1 & G2 & G3).
  by rewrite G1, G2, G3, H1, H2.
Qed.

(** The loop's state is what [main_loop] makes of the events. *)
Lemma prun_main ls : forall p p', p_loop p = Ok continue -> prun ls p = Some p' ->
  main_loop (handled ls p) (p_world p) = (p_loop p', p_world p').
Proof.
  induction ls as [|l ls IH]; intros p p' Hc; cbn [Pipeline.prun handled].
  { intros [= <-]. by rewrite Hc. }
  destruct (pstep l p) as [p1|] eqn:E; [|done]. cbn [mbind option_bind]. intros Hr.
  destruct (pstep_parts l p p1 E) as [_ H]. destruct (event_of l p) as [e|].
  - destruct H as [_ H]. change (main_loop (e :: handled ls p1) (p_world p) = (p_loop p', p_world p')). cbn [Live.main_loop]. unfold mbind, st_bind. rewrite H.
    destruct (decide (p_loop p1 = Ok continue)) as [Hc1|Hc1].
    + rewrite Hc1. unfold continue at 1. by apply IH.
    + destruct (prun_ended ls p1 p' Hc1 Hr) as (-> & -> & ->).
      destruct (p_loop p1) as [o|er]; [|done]. by destruct o.
  - destruct H as [H1 H2]. rewrite <- H1. apply IH; [by rewrite H2|done].
Qed.

(** ** What was taken *)

Definition block_in (e : event) : option MsgBlock := match e with EvBlock b => b | _ => None end.
Definition tx_in (e : event) : option MsgTx := match e with EvTx t => t | _ => None end.

Lemma omap_option_list {A C} (f : A -> option C) (o : option A) : omap f (option_list o) = option_list (o ≫= f).
Proof. destruct o as [a|]; [|done]. cbn. by destruct (f a). Qed.

(** A step of the subscriber inside a run. *)
Lemma taken_cons {A} (took : zlabel -> ZMQSubscriber -> list A) gl rest u u1 : stream_inv u -> gstep gl u = Some u1 ->
  taken took (omap zlabel_of (gl :: rest)) (u_sub u) =
    match zlabel_of gl with Some zl => took zl (u_sub u) | None => [] end ++ taken took (omap zlabel_of rest) (u_sub u1).
Proof.
  intros I E. pose proof (so_sub _ _ _ _ _ _ _ (step_all _ _ _ _ gl u u1 I E)) as Hs. unfold sub_step in Hs.
  change (omap zlabel_of (gl :: rest)) with
    (match zlabel_of gl with Some zl => zl :: omap zlabel_of rest | None => omap zlabel_of rest end).
  destruct (zlabel_of gl) as [zl|]; cbn [Zmq.taken]; by rewrite Hs.
Qed.

Lemma took_none gl zl z : is_take gl = false -> zlabel_of gl = Some zl -> took_block zl z = [] /\ took_tx zl z = [].
Proof. destruct gl as [|s|s a|s|s|s|s r|s|s| | | | |]; try done; try destruct s; try destruct r; cbn; try case_match; naive_solver. Qed.

Lemma pstep_taken l p p1 : stream_inv (p_sub p) -> pstep l p = Some p1 -> forall rest,
  taken took_block (omap zlabel_of (option_list (sub_label l p) ++ rest)) (z_of p) =
    option_list (event_of l p ≫= block_in) ++ taken took_block (omap zlabel_of rest) (z_of p1) /\
  taken took_tx (omap zlabel_of (option_list (sub_label l p) ++ rest)) (z_of p) =
    option_list (event_of l p ≫= tx_in) ++ taken took_tx (omap zlabel_of rest) (z_of p1).
Proof.
  intros I E rest. destruct (pstep_parts l p p1 E) as [H _].
  destruct (sub_label l p) as [gl|] eqn:Hl.
  - change (option_list (Some gl) ++ rest) with (gl :: rest). rewrite !(taken_cons _ gl rest _ _ I H).
    unfold sub_label in Hl. destruct l as [l'| | | |]; try done; cbn [event_of mbind option_bind block_in tx_in].
    + injection Hl as ->. assert (Ht : is_take gl = false) by (cbn in E; by destruct (is_take gl)).
      destruct (zlabel_of gl) as [zl|] eqn:Ez; [|done]. by destruct (took_none gl zl (z_of p) Ht Ez) as [-> ->].
    + destruct (z_blockChan (z_of p)) as [|b bs] eqn:Ec; [done|]. injection Hl as <-. cbn. by rewrite Ec.
    + destruct (z_txChan (z_of p)) as [|b bs] eqn:Ec; [done|]. injection Hl as <-. cbn. by rewrite Ec.
    + destruct (z_gapChan (z_of p)) as [|b bs] eqn:Ec; [done|]. injection Hl as <-. done.
  - change (option_list (@None glabel) ++ rest) with rest. rewrite H. unfold sub_label in Hl.
    destruct l as [l'| | | |e]; try done; cbn [event_of mbind option_bind block_in tx_in].
    + by destruct (z_blockChan (z_of p)).
    + by destruct (z_txChan (z_of p)).
    + cbn in E. destruct (running p && is_tick e) eqn:Et; [|done]. apply andb_prop in Et as [_ Et]. by destruct e.
Qed.

Lemma prun_taken ls : forall p p', stream_inv (p_sub p) -> prun ls p = Some p' ->
  taken took_block (omap zlabel_of (sub_labels ls p)) (z_of p) = omap block_in (handled ls p) /\
  taken took_tx (omap zlabel_of (sub_labels ls p)) (z_of p) = omap tx_in (handled ls p).
Proof.
  induction ls as [|l ls IH]; intros p p' I; cbn [Pipeline.prun sub_labels handled]; [done|].
  destruct (pstep l p) as [p1|] eqn:E; [|done]. cbn [mbind option_bind]. intros Hr.
  destruct (pstep_taken l p p1 I E (sub_labels ls p1)) as [H1 H2]. rewrite H1, H2, !omap_app, !omap_option_list.
  assert (I1 : stream_inv (p_sub p1)).
  { destruct (pstep_parts l p p1 E) as [H _]. destruct (sub_label l p) as [gl|]; [|by rewrite H].
    exact (so_inv _ _ _ _ _ _ _ (step_all _ _ _ _ gl _ _ I H)). }
  destruct (IH p1 p' I1 Hr) as [-> ->]. done.
Qed.

(** ** What arrived *)

Definition arrived_block (l : plabel) : option MsgBlock :=
  match l with
  | PSub (GRecv SBlock (Ok (_ :: blockData :: _))) => to_option (block_Deserialize blockData)
  | _ => None
  end.
Definition arrived_tx (l : plabel) : option MsgTx :=
  match l with
  | PSub (GRecv STx (Ok (_ :: txData :: _))) => to_option (tx_Deserialize txData)
  | _ => None
  end.

Lemma arrived_label l p : (sub_label l p ≫= zlabel_of) ≫= block_of block_Deserialize = arrived_block l /\
  (sub_label l p ≫= zlabel_of) ≫= tx_of tx_Deserialize = arrived_tx l.
Proof.
  unfold sub_label. destruct l as [gl| | | |e]; cbn [mbind option_bind arrived_block arrived_tx]; try done.
  - destruct gl as [|s|s a|s|s|s|s r|s|s| | | | |]; try done; try (by destruct s).
    destruct r as [msg|er]; [|cbn; by destruct (isZMQTimeout AsErrno er), s].
    destruct s, msg as [|t [|d rest]]; done.
  - by destruct (z_blockChan (z_of p)).
  - by destruct (z_txChan (z_of p)).
  - by destruct (z_gapChan (z_of p)).
Qed.

Lemma omap_omap {A C D} (f : A -> option C) (g : C -> option D) (l : list A) :
  omap g (omap f l) = omap (fun a => f a ≫= g) l.
Proof. induction l as [|a l IH]; [done|]. cbn. destruct (f a) as [c|]; cbn; [|done]. destruct (g c); by rewrite IH. Qed.

Lemma prun_arrived ls : forall p p', prun ls p = Some p' ->
  omap (block_of block_Deserialize) (omap zlabel_of (sub_labels ls p)) = omap arrived_block ls /\
  omap (tx_of tx_Deserialize) (omap zlabel_of (sub_labels ls p)) = omap arrived_tx ls.
Proof.
  induction ls as [|l ls IH]; intros p p'; cbn [Pipeline.prun sub_labels]; [done|].
  destruct (pstep l p) as [p1|] eqn:E; [|done]. cbn [mbind option_bind]. intros Hr.
  destruct (IH p1 p' Hr) as [G1 G2]. destruct (arrived_label l p) as [H1 H2].
  rewrite !omap_app, G1, G2, !omap_option_list, H1, H2.
  change (l :: ls) with ([l] ++ ls). rewrite !omap_app. change [l] with (option_list (Some l)).
  by rewrite !omap_option_list.
Qed.

(** ** Draining *)

(** What is left for the main loop, a block to be sent counting twice. *)
Definition backlog (p : pipeline) : nat :=
  (length (z_blockChan (z_of p)) + 2 * Nat.b2n (pending SBlock (z_of p)))%nat.

Definition drains (l : plabel) : Prop := l = PBlock \/ l = PSub (GSend SBlock).

Lemma take_block p b bs : stream_inv (p_sub p) -> p_loop p = Ok continue -> z_blockChan (z_of p) = b :: bs ->
  exists p', pstep PBlock p = Some p' /\ stream_inv (p_sub p') /\ u_stop (p_sub p') = u_stop (p_sub p) /\
    S (backlog p') = backlog p.
Proof.
  intros I Hc Hb.
  assert (E : gstep GTakeBlock (p_sub p) =
    Some (set_sub (set_chans bs (z_txChan (z_of p)) (z_gapChan (z_of p)) (z_done (z_of p)) (z_pending_block (z_of p))
                     (z_pending_tx (z_of p)) (z_of p)) (p_sub p))).
  { unfold Stream.gstep, Stream.step_sub. rewrite (ti_crashed _ I). cbn [Zmq.zstep]. by rewrite Hb. }
  set (sub := set_sub _ _) in E.
  exists (on_event N M sorter ord cfg clock fuel (EvBlock (Some b)) sub p). split_and!.
  - unfold Pipeline.pstep, running. rewrite bool_decide_true by done. unfold receive. rewrite Hb, E. done.
  - assert (p_sub (on_event N M sorter ord cfg clock fuel (EvBlock (Some b)) sub p) = sub) as ->
      by (unfold on_event; by destruct (main_event _ _)).
    exact (so_inv _ _ _ _ _ _ _ (step_all _ _ _ _ _ _ _ I E)).
  - unfold on_event. by destruct (main_event _ _).
  - unfold backlog. rewrite Hb. unfold on_event. by destruct (main_event _ _).
Qed.

Lemma send_block p : stream_inv (p_sub p) -> u_stop (p_sub p) = GRunning -> z_blockChan (z_of p) = [] ->
  pending SBlock (z_of p) = true ->
  exists p', pstep (PSub (GSend SBlock)) p = Some p' /\ stream_inv (p_sub p') /\ u_stop (p_sub p') = u_stop (p_sub p) /\
    S (backlog p') = backlog p /\ p_loop p' = p_loop p.
Proof.
  intros I Hk Hb Hp. pose proof (ti_pending _ I SBlock) as Hph. rewrite Hp in Hph. symmetry in Hph.
  apply bool_decide_eq_true in Hph. cbn [pending] in Hp.
  destruct (z_pending_block (z_of p)) as [b|] eqn:Epb; [|done].
  assert (E : exists sub, gstep (GSend SBlock) (p_sub p) = Some sub /\ u_stop sub = u_stop (p_sub p) /\
    z_blockChan (u_sub sub) = [b] /\ pending SBlock (u_sub sub) = false).
  { unfold Stream.gstep. rewrite (ti_crashed _ I). rewrite (proj2 (at_phase_true SBlock GSending (p_sub p)) Hph).
    unfold send_step. rewrite bool_decide_false by (by rewrite Hk). unfold Stream.step_sub. cbn [send_label Zmq.zstep].
    rewrite Epb, Hb. cbn. eexists. split; [done|]. by cbn. }
  destruct E as (sub & E & Hs & Hc & Hn).
  exists (mkPipeline sub (p_world p) (p_loop p)). split_and!.
  - unfold Pipeline.pstep. cbn [is_take]. by rewrite E.
  - exact (so_inv _ _ _ _ _ _ _ (step_all _ _ _ _ _ _ _ I E)).
  - done.
  - unfold backlog. cbn [p_sub]. rewrite Hc, Hn, Hb. cbn [pending]. by rewrite Epb.
  - done.
Qed.

Lemma drained k : forall p, stream_inv (p_sub p) -> u_stop (p_sub p) = GRunning -> (backlog p <= k)%nat ->
  exists ls p', prun ls p = Some p' /\ Forall drains ls /\ (length ls <= k)%nat /\
    (p_loop p' <> Ok continue \/ z_blockChan (z_of p') = [] /\ z_pending_block (z_of p') = None).
Proof.
  induction k as [|k IH]; intros p I Hk Hb;
    (destruct (decide (p_loop p = Ok continue)) as [Hc|Hc];
     [|exists [], p; split; [done|]; split; [apply Forall_nil_2|]; split; [cbn; lia|by left]]).
  - exists [], p. split; [done|]. split; [apply Forall_nil_2|]. split; [done|]. right. unfold backlog in Hb.
    destruct (z_blockChan (z_of p)); cbn [pending length] in Hb; [|lia]. by destruct (z_pending_block (z_of p)); [cbn in Hb; lia|].
  - destruct (z_blockChan (z_of p)) as [|b bs] eqn:Eb; [destruct (pending SBlock (z_of p)) eqn:Ep|].
    + destruct (send_block p I Hk Eb Ep) as (p1 & E & I1 & Hs & Hl & _).
      destruct (IH p1 I1 ltac:(by rewrite Hs) ltac:(lia)) as (ls & p' & R & F & Hlen & He).
      exists (PSub (GSend SBlock) :: ls), p'. cbn [Pipeline.prun]. rewrite E.
      split; [done|]. split; [constructor; [by right|done]|]. split; [cbn; lia|done].
    + exists [], p. split; [done|]. split; [apply Forall_nil_2|]. split; [cbn; lia|]. right. split; [done|].
      cbn in Ep. by destruct (z_pending_block (z_of p)).
    + destruct (take_block p b bs I Hc Eb) as (p1 & E & I1 & Hs & Hl).
      destruct (IH p1 I1 ltac:(by rewrite Hs) ltac:(lia)) as (ls & p' & R & F & Hlen & He).
      exists (PBlock :: ls), p'. cbn [Pipeline.prun]. rewrite E.
      split; [done|]. split; [constructor; [by left|done]|]. split; [cbn; lia|done].
Qed.

(** C18: from the sockets to the index: in every run of the subscriber beside the
    main loop, the loop's state is what [main_loop] makes of the events it has
    handled; until [Stop] the blocks and transactions among them, with those still
    in the channels or waiting to be sent, are exactly the well-formed ones that
    arrived, in order, each once, however the goroutines interleave and however
    often the sockets fail; and at any time twelve steps of the loop and of the
    sending goroutine are enough for the loop to have handled every block that
    has arrived, unless it ends before. *)
Theorem pipeline_exact (ls : list plabel) (w : mworld) (p : pipeline) (Hrun : prun ls (start_pipeline w) = Some p) :
  exists evs, main_loop evs w = (p_loop p, p_world p) /\
    (u_stop (p_sub p) = GRunning ->
       omap arrived_block ls = omap block_in evs ++ z_blockChan (z_of p) ++ option_list (z_pending_block (z_of p)) /\
       omap arrived_tx ls = omap tx_in evs ++ z_txChan (z_of p) ++ option_list (z_pending_tx (z_of p)) /\
       exists ls' p', prun ls' p = Some p' /\ Forall drains ls' /\ (length ls' <= 12)%nat /\
         (p_loop p' <> Ok continue \/ z_blockChan (z_of p') = [] /\ z_pending_block (z_of p') = None)).
Proof.
  pose proof (prun_sub ls _ _ Hrun) as Hs. cbn [start_pipeline p_sub] in Hs.
  destruct (run_all _ _ _ _ _ _ _ new_inv Hs) as (I & _ & _).
  exists (handled ls (start_pipeline w)). split; [by apply (prun_main ls (start_pipeline w) p eq_refl)|].
  intros Hk. destruct (run_streams _ _ _ _ _ _ Hs Hk) as (H1 & H2 & _ & _ & Hcap & _).
  destruct (prun_arrived ls _ _ Hrun) as [A1 A2]. destruct (prun_taken ls (start_pipeline w) p new_inv Hrun) as [T1 T2].
  cbn [start_pipeline p_sub u_sub new_Subscriber] in T1, T2.
  rewrite A1, T1 in H1. rewrite A2, T2 in H2. split; [done|]. split; [done|].
  apply drained; [done|done|].
  unfold backlog. cbn in Hcap. destruct (pending SBlock (z_of p)); cbn; lia.
Qed.

End Props.

(** ** Witness: the second block of the sample chain comes over the socket *)

Definition one_block (bs : bytes) : result (@MsgBlock ModelBtcd) :=
  match bs with [] => Err (ENew "EOF") | _ => Ok block2 end.

Definition sample_feed : list plabel :=
  [PSub GStart; PSub (GLoop SBlock); PSub (GOpen SBlock good_answers); PSub (GPoll SBlock);
   PSub (GRecv SBlock (Ok [topic; [x01]; le_encode 4 1])); PTick EvStatsTick; PSub (GSend SBlock); PBlock;
   PSub (GPoll SBlock); PSub (GRecv SBlock (Ok [topic; []; le_encode 4 2]))].

#[local] Notation sample_prun ls :=
  (prun sample_node sample_pool merge_sorter id_order ConfigProps.sample_config sample_clock 2 one_block
     sample_decode_tx sample_AsErrno ls (start_pipeline sample_main)).

Definition feed_end : @pipeline MemPebble ModelBtcd := default (start_pipeline sample_main) (sample_prun sample_feed).

Lemma sample_feed_run : sample_prun sample_feed = Some feed_end.
Proof. apply Some_default, (bool_decide_eq_true_1 _). vm_compute. reflexivity. Qed.

Lemma pipeline_exact_witness :
  (exists evs, omap (arrived_block one_block) sample_feed = omap block_in evs ++ z_blockChan (u_sub (p_sub feed_end)) ++
     option_list (z_pending_block (u_sub (p_sub feed_end)))) /\
  currentHeight (ww_cm (mw_writer (p_world feed_end))) = 2.
Proof.
  split; [|vm_compute; reflexivity].
  destruct (pipeline_exact sample_node sample_pool merge_sorter id_order ConfigProps.sample_config sample_clock 2 one_block
    sample_decode_tx sample_AsErrno sample_feed sample_main feed_end sample_feed_run) as (evs & _ & H).
  exists evs. refine (proj1 (H _)). vm_compute. reflexivity.
Defined.
