(* ===== verification/ServeProps.v ===== *)
(** * Connections: properties

    The slots, the counters and the subscriptions agree with the phases of the
    connections in every reachable state; what [Stop] waits for. *)

From Stdlib Require Import Strings.Byte.
From S2P Require Import Prelude Bytes Hex Keys Values Json Checkpoint Pebble Store Sha256 Types Mempool MempoolFacts MempoolProps Block BlockFacts BlockOps BlockProps Reorg Query QueryFacts QueryProps Server ServerProps Typed Total Steps Chain Follow Gaps Writer WriterProps GoFloat Rpc RpcProps Config Live LiveFacts Requests Serve.

(** ** Counting phases *)

Definition phases (f : cphase -> bool) (m : gmap conn cphase) : nat := size (filter (fun kv => f kv.2 = true) m).

Lemma phases_empty f : phases f ∅ = 0%nat.
Proof. unfold phases. by rewrite map_filter_empty, map_size_empty. Qed.

Lemma phases_fresh f m c p : m !! c = None -> phases f (<[c := p]> m) = (phases f m + Nat.b2n (f p))%nat.
Proof.
  intros Hc. unfold phases. rewrite map_filter_insert. cbn [snd]. destruct (f p) eqn:E; cbn [Nat.b2n].
  - rewrite decide_True by done. rewrite map_size_insert_None; [lia|].
    apply map_lookup_filter_None. by left.
  - rewrite decide_False by done. rewrite delete_id by done. lia.
Qed.

Lemma phases_move f m c p q : m !! c = Some p ->
  (phases f (<[c := q]> m) + Nat.b2n (f p) = phases f m + Nat.b2n (f q))%nat.
Proof.
  intros Hc. assert (Hd : delete c m !! c = None) by apply lookup_delete_eq.
  assert (E : m = <[c := p]> (delete c m)) by (by rewrite insert_delete_id).
  rewrite E, insert_insert_eq, !phases_fresh by done. lia.
Qed.

Lemma phases_zero f m : phases f m = 0%nat <-> map_Forall (fun _ p => f p = false) m.
Proof.
  induction m as [|c p m Hc IH] using map_ind.
  { rewrite phases_empty. split; [intros _; apply map_Forall_empty|done]. }
  rewrite phases_fresh, map_Forall_insert by done. rewrite <- IH. destruct (f p); cbn.
  - split; [lia|]. by intros [? _].
  - rewrite Nat.add_0_r. split; [by split|]. by intros [_ ?].
Qed.

Lemma phases_le f g m : (forall p, f p = true -> g p = true) -> (phases f m <= phases g m)%nat.
Proof.
  intros H. induction m as [|c p m Hc IH] using map_ind; [by rewrite !phases_empty|].
  rewrite !phases_fresh by done. specialize (H p). destruct (f p), (g p); cbn; lia || by specialize (H eq_refl).
Qed.

#[local] Arguments phases : simpl never.

(** Holding a slot, counted as active, begun, not yet unsubscribed. *)
Definition holds_slot (p : cphase) : bool :=
  match p with CStarting | CLooping | CReading | CEnding => true | _ => false end.
Definition active (p : cphase) : bool :=
  match p with CLooping | CReading | CEnding | CReleased | CUnsubscribed | CWriterClosed | CConnClosed => true | _ => false end.
Definition begun (p : cphase) : bool := match p with CStarting => false | _ => true end.
Definition may_subscribe (p : cphase) : bool :=
  match p with CLooping | CReading | CEnding | CReleased => true | _ => false end.

Section Props.
Context {P : Pebble} {PL : PebbleLaws P} {PH : PebbleHealthy P PL} {B : Btcd} {BL : BtcdLaws B} {T : BtcdTx} {Zs : Zstd}.
Context (N : rpc_node B) (C : platform) (sorter : slice_sort) (ord : range_order).
Context (StringWidth : string -> Z) (config_StartHeight : Z) (MaxConnections : nat).

Notation sstep := (sstep N C sorter ord StringWidth config_StartHeight MaxConnections).
Notation srun := (srun N C sorter ord StringWidth config_StartHeight MaxConnections).

(** ** What a line does to the subscriptions *)

(** The maps stay one relation, and only the connection's own part changes. *)
Definition subs_kept (writer : conn) (w w' : sworld) : Prop :=
  (subs_wf (sv_subs w) -> subs_wf (sv_subs w')) /\
  forall other, other <> writer ->
    (forall sh, subscribed (sv_subs w') other sh <-> subscribed (sv_subs w) other sh) /\
    (other ∈ headerSubs (sv_subs w') <-> other ∈ headerSubs (sv_subs w)).

#[export] Instance subs_kept_preorder writer : PreOrder (subs_kept writer).
Proof.
  split; [by split|]. intros a b c [H1 H2] [E1 E2]. split; [auto|]. intros o Ho.
  destruct (H2 o Ho) as [F1 F2], (E2 o Ho) as [G1 G2]. split; [|by rewrite G2]. intros sh. by rewrite G1.
Qed.

Lemma subs_kept_same writer w w' : sv_subs w' = sv_subs w -> subs_kept writer w w'.
Proof. intros E. unfold subs_kept. by rewrite E. Qed.

#[export] Instance subs_kept_rel writer : RequestRel sorter ord (subs_kept writer) writer.
Proof.
  assert (Hsdb : forall A (m : st pdb A), st_rel (subs_kept writer) (sdb m)).
  { intros A m w. apply subs_kept_same. unfold sdb, in_db. by destruct (m _). }
  split.
  - apply _.
  - intros A m _ _. apply Hsdb.
  - intros A f w. by apply subs_kept_same.
  - intros sh w. split; [intros Hw; by eapply subs_step_wf; [|constructor]|]. apply (rel_subscribe writer sh w).
  - intros sh w. split; [intros Hw; by eapply subs_step_wf; [|constructor]|]. apply (rel_unsubscribe writer sh w).
  - intros w. split; [intros Hw; by eapply subs_step_wf; [|constructor]|]. apply (rel_subscribe_headers writer w).
  - intros sh. unfold ComputeScripthashStatusHex.
    repeat first [progress solve_rel | apply Hsdb | match goal with |- st_rel _ (on_cache _) => intros w; by apply subs_kept_same end
      | match goal with |- st_rel _ mempool => intros w; by apply subs_kept_same end].
Qed.

(** ** The invariant *)

(** The connection the accept loop holds, and whether it has a slot for it. *)
Definition held_conn (a : acceptor) : option conn :=
  match a with AAccepted c | ASlot c | AAdded c => Some c | _ => None end.
Definition slot_pending (a : acceptor) : nat := match a with ASlot _ | AAdded _ => 1 | _ => 0 end.

Record serve_inv (s : Server) : Prop := {
  si_slots : s_connLimiter s = (phases holds_slot (s_conns s) + slot_pending (s_acceptor s))%nat;
  si_max : (s_connLimiter s <= MaxConnections)%nat;
  si_count : s_connCount s = i64 (Z.of_nat (phases begun (s_conns s)));
  si_active : s_activeConnCount s = i64 (Z.of_nat (phases active (s_conns s)));
  si_subs : subs_wf (sv_subs (s_state s));
  si_owner c : (exists sh, subscribed (sv_subs (s_state s)) c sh) \/ c ∈ headerSubs (sv_subs (s_state s)) ->
    exists p, s_conns s !! c = Some p /\ may_subscribe p = true;
  si_held c : held_conn (s_acceptor s) = Some c -> s_conns s !! c = None;
}.

Lemma goes_Some c p q s s' : goes c p q s = Some s' <-> s_conns s !! c = Some p /\ s' = with_phase c q s.
Proof. unfold goes. case_decide; naive_solver. Qed.

(** A counter that stays. *)
Lemma count_same z k b b' : z = i64 k -> b = b' -> z = i64 (z + (Z.b2z b - Z.b2z b')).
Proof. intros -> ->. rewrite Z.sub_diag, Z.add_0_r. symmetry. apply i64_id, i64_range. Qed.


(** A goroutine that moves on, with the counters and the subscriptions. *)
Lemma inv_goes c p q s w' limiter' count' active' : serve_inv s -> s_conns s !! c = Some p ->
  (limiter' + Nat.b2n (holds_slot p) = s_connLimiter s + Nat.b2n (holds_slot q))%nat ->
  (Nat.b2n (holds_slot q) <= Nat.b2n (holds_slot p))%nat ->
  count' = i64 (s_connCount s + (Z.b2z (begun q) - Z.b2z (begun p))) ->
  active' = i64 (s_activeConnCount s + (Z.b2z (active q) - Z.b2z (active p))) ->
  subs_wf (sv_subs w') ->
  (forall o, o <> c -> (exists sh, subscribed (sv_subs w') o sh) \/ o ∈ headerSubs (sv_subs w') ->
     (exists sh, subscribed (sv_subs (s_state s)) o sh) \/ o ∈ headerSubs (sv_subs (s_state s))) ->
  ((exists sh, subscribed (sv_subs w') c sh) \/ c ∈ headerSubs (sv_subs w') -> may_subscribe q = true) ->
  forall s', s_state s' = w' -> s_conns s' = <[c := q]> (s_conns s) -> s_connLimiter s' = limiter' ->
  s_connCount s' = count' -> s_activeConnCount s' = active' -> s_acceptor s' = s_acceptor s -> serve_inv s'.
Proof.
  intros [I1 I2 I3 I4 I5 I6 I7] Hc Hl Hle Hn Ha Hwf Ho Hq s' <- Ec <- <- <- Eacc.
  pose proof (phases_move holds_slot _ c p q Hc). pose proof (phases_move begun _ c p q Hc).
  pose proof (phases_move active _ c p q Hc).
  split; rewrite ?Ec, ?Eacc; [lia|lia| | |done| |].
  - rewrite Hn, I3, i64_add_l. f_equal. destruct (begun p), (begun q); cbn in *; lia.
  - rewrite Ha, I4, i64_add_l. f_equal. destruct (active p), (active q); cbn in *; lia.
  - intros o Hsub. destruct (decide (o = c)) as [->|Hne].
    + exists q. split; [apply lookup_insert_eq|by apply Hq].
    + destruct (I6 o (Ho o Hne Hsub)) as (p' & Hp' & Hm). exists p'. by rewrite lookup_insert_ne.
  - intros o Hheld. pose proof (I7 o Hheld) as Hn'. rewrite lookup_insert_ne; [done|]. congruence.
Qed.

(** Nothing moves. *)
Lemma inv_stop s a b k : serve_inv s -> serve_inv (stop_step a b k s).
Proof. by intros [I1 I2 I3 I4 I5 I6 I7]. Qed.

Lemma inv_acceptor s a : serve_inv s -> slot_pending a = slot_pending (s_acceptor s) ->
  (forall c, held_conn a = Some c -> s_conns s !! c = None) -> serve_inv (with_acceptor a s).
Proof. intros [I1 I2 I3 I4 I5 I6 I7] E H. split; try done. cbn. by rewrite E. Qed.

Lemma inv_plain c p q s s' : serve_inv s -> goes c p q s = Some s' ->
  holds_slot p = holds_slot q -> begun p = begun q -> active p = active q ->
  (may_subscribe p = true -> may_subscribe q = true) -> serve_inv s'.
Proof.
  intros I [Hc ->]%goes_Some H1 H2 H3 H4.
  eapply (inv_goes c p q s (s_state s)); [done|done|by rewrite H1|by rewrite H1| | |apply I|done| |done..].
  - by eapply count_same; [apply I|].
  - by eapply count_same; [apply I|].
  - intros Hs. apply H4. destruct (si_owner _ I c Hs) as (p' & Hp' & Hm). congruence.
Qed.

Lemma inv_slot c s : serve_inv s -> s_acceptor s = AAccepted c -> serve_inv (take_slot MaxConnections c s).
Proof.
  intros I Ea. unfold take_slot. destruct (Nat.ltb_spec (s_connLimiter s) MaxConnections) as [Hl|].
  - destruct I as [I1 I2 I3 I4 I5 I6 I7]. rewrite Ea in I1, I7. split; cbn in *; [lia|lia|done..].
  - apply inv_acceptor; [done|by rewrite Ea|done].
Qed.

Lemma inv_go c s : serve_inv s -> s_acceptor s = AAdded c ->
  serve_inv (with_phase c CStarting (with_acceptor AAccepting s)).
Proof.
  intros [I1 I2 I3 I4 I5 I6 I7] Ea. rewrite Ea in I1, I7. specialize (I7 c eq_refl).
  split; cbn in *; rewrite ?phases_fresh by done; cbn [Nat.b2n holds_slot active begun]; [lia|lia| | |done| |done].
  - rewrite I3. f_equal. lia.
  - rewrite I4. f_equal. lia.
  - intros o Ho. destruct (I6 o Ho) as (p & Hp & Hm). exists p. rewrite lookup_insert_ne; [done|]. congruence.
Qed.

Lemma inv_line c line s : serve_inv s -> s_conns s !! c = Some CReading ->
  serve_inv (handle_line N C sorter ord StringWidth config_StartHeight c line (with_phase c CLooping s)).
Proof.
  intros I Hc. unfold handle_line. cbn [with_phase s_state].
  pose proof (request_rel sorter ord (subs_kept c) c N C StringWidth config_StartHeight line (s_state s)) as [H1 H2].
  destruct (serve_line _ _ _ _ _ _ _ _ (s_state s)) as [r w']. cbn [snd] in *.
  assert (Hall : forall out crashed, serve_inv (with_state w' out crashed (with_phase c CLooping s))).
  { intros out crashed.
    eapply (inv_goes c CReading CLooping s w'); [done|done|done|done| | |apply H1, I| |done|done..].
    - by eapply count_same; [apply I|].
    - by eapply count_same; [apply I|].
    - intros o Ho. destruct (H2 o Ho) as [E1 E2]. setoid_rewrite E1. by rewrite E2. }
  destruct r as [[v|]|e]; apply Hall.
Qed.

Lemma header_subs_drop c o sm : o ∈ headerSubs (Unsubscribe ord c sm) <-> o ∈ headerSubs sm /\ o <> c.
Proof. unfold Unsubscribe. destruct (connScripthash sm !! c); cbn; set_solver. Qed.

Lemma inv_unsubscribe c s : serve_inv s -> s_conns s !! c = Some CReleased ->
  serve_inv (unsubscribe ord c (with_phase c CUnsubscribed s)).
Proof.
  intros I Hc. unfold unsubscribe.
  eapply (inv_goes c CReleased CUnsubscribed s); [done|done|done|done| | | | | |done..].
  - by eapply count_same; [apply I|].
  - by eapply count_same; [apply I|].
  - eapply subs_step_wf; [apply I|]. apply (sstep_drop _ ord c).
  - intros o Ho [[sh Hs]|Hs].
    + left. exists sh. by apply (subscribed_drop ord c _ o sh (si_subs _ I)) in Hs as [? _].
    + right. by apply (header_subs_drop c o (sv_subs (s_state s))) in Hs as [? _].
  - intros [[sh Hs]|Hs].
    + by apply (subscribed_drop ord c _ c sh (si_subs _ I)) in Hs as [_ ?].
    + by apply (header_subs_drop c c (sv_subs (s_state s))) in Hs as [_ ?].
Qed.

Lemma sstep_inv l s s' : serve_inv s -> sstep l s = Some s' -> serve_inv s'.
Proof.
  intros I. unfold Serve.sstep. destruct (s_crashed s); [done|].
  destruct l as [c| | | | |c|c|c line|c|c|c|c|c|c|c| | | | |].
  - destruct (s_acceptor s) eqn:Ea; try done. destruct (_ && _) eqn:E; [|done]. intros [= <-].
    apply andb_true_iff in E as [_ E]. apply bool_decide_eq_true in E.
    apply inv_acceptor; [done|by rewrite Ea|]. by intros c' [= <-].
  - destruct (s_acceptor s) eqn:Ea; try done. intros [= <-].
    apply inv_acceptor; [done| |]; rewrite ?Ea; by destruct (s_cancelled s).
  - destruct (s_acceptor s) eqn:Ea; try done. intros [= <-]. by apply inv_slot.
  - destruct (s_acceptor s) as [|?|o|?|] eqn:Ea; try done. intros [= <-].
    apply inv_acceptor; [done|by rewrite Ea|]. intros c' [= <-]. apply (si_held _ I). by rewrite Ea.
  - destruct (s_acceptor s) eqn:Ea; try done. intros [= <-]. by apply inv_go.
  - intros (s1 & [Hc ->]%goes_Some & ->)%fmap_Some.
    eapply (inv_goes c CStarting CLooping s (s_state s)); [done|done|done|done|done|done|apply I|done|done|done..].
  - intros E. destruct (s_cancelled s); by eapply inv_plain.
  - destruct (scannable line); [|done]. intros (s1 & [Hc ->]%goes_Some & ->)%fmap_Some. by apply inv_line.
  - intros E. by eapply inv_plain.
  - intros (s1 & [Hc ->]%goes_Some & ->)%fmap_Some. pose proof (phases_move holds_slot _ c _ CReleased Hc) as Hn.
    pose proof (si_slots _ I). cbn in Hn.
    eapply (inv_goes c CEnding CReleased s (s_state s) (pred (s_connLimiter s))); [done|done|cbn; lia|cbn; lia| | |apply I|done|done|done..].
    + by eapply count_same; [apply I|].
    + by eapply count_same; [apply I|].
  - intros (s1 & [Hc ->]%goes_Some & ->)%fmap_Some. by apply inv_unsubscribe.
  - intros E. by eapply inv_plain.
  - intros E. by eapply inv_plain.
  - intros (s1 & [Hc ->]%goes_Some & ->)%fmap_Some.
    eapply (inv_goes c CConnClosed CUncounted s (s_state s)); [done|done|done|done| |done|apply I|done| |done..].
    + by eapply count_same; [apply I|].
    + intros Hs. destruct (si_owner _ I c Hs) as (p & Hp & Hm). rewrite Hc in Hp. by injection Hp as <-.
  - intros E. by eapply inv_plain.
  - destruct (s_stop s); try done. intros [= <-]. by apply inv_stop.
  - destruct (s_stop s); try done. intros [= <-]. by apply inv_stop.
  - destruct (s_stop s); try done. destruct (_ && _); [|done]. intros [= <-]. by apply inv_stop.
  - destruct (s_stop s); try done. intros [= <-]. by apply inv_stop.
  - destruct (s_stop s); try done; (destruct (negb _); [|done]); intros [= <-]; by apply inv_stop.
Qed.

Lemma srun_inv ls s s' : serve_inv s -> srun ls s = Some s' -> serve_inv s'.
Proof.
  revert s; induction ls as [|l ls IH]; intros s I; cbn [Serve.srun]; [by intros [= <-]|].
  intros (s1 & E1 & E2)%bind_Some. eapply IH; [|exact E2]. by eapply sstep_inv.
Qed.

Lemma NewServer_inv w : sv_subs w = NewSubscriptionManager -> serve_inv (NewServer w).
Proof.
  intros E. split; cbn; rewrite ?phases_empty, ?E; [done|lia|done|done| | |done].
  - split; [intros c sh; cbn; rewrite !lookup_empty; set_solver|intros c sh H; cbn in H; by rewrite lookup_empty in H..].
  - intros c [[sh Hs]|Hs]; [|set_solver]. unfold subscribed in Hs. cbn in Hs. rewrite lookup_empty in Hs. set_solver.
Qed.

(** ** The end *)

Definition unsubscribed (s : Server) : Prop :=
  forall c, c ∉ headerSubs (sv_subs (s_state s)) /\ forall sh, ~ subscribed (sv_subs (s_state s)) c sh.

Definition nothing_left (s : Server) : Prop :=
  s_connLimiter s = 0%nat /\ s_activeConnCount s = 0 /\ unsubscribed s.

(** The goroutines that have not ended, with the connection that the accept loop
    holds. *)
Definition holding (a : acceptor) : nat := match held_conn a with Some _ => 1 | None => 0 end.
Definition left_over (s : Server) : nat := phases waited_for (s_conns s) + holding (s_acceptor s).

Lemma finished f s : phases waited_for (s_conns s) = 0%nat -> f CFinished = false -> phases f (s_conns s) = 0%nat.
Proof.
  intros Hz E. apply phases_zero. intros c p Hp. apply phases_zero in Hz. specialize (Hz c p Hp).
  unfold waited_for in Hz. apply negb_false_iff, bool_decide_eq_true in Hz. by subst p.
Qed.

Lemma finished_unsubscribed s : serve_inv s -> phases waited_for (s_conns s) = 0%nat -> unsubscribed s.
Proof.
  intros I Hz. pose proof (finished may_subscribe s Hz eq_refl) as Hm.
  assert (Ho : forall c, ~ ((exists sh, subscribed (sv_subs (s_state s)) c sh) \/ c ∈ headerSubs (sv_subs (s_state s)))).
  { intros c (p & Hp & Hs)%(si_owner _ I). apply phases_zero in Hm. specialize (Hm c p Hp). cbn in Hm. congruence. }
  intros c. specialize (Ho c). split; [tauto|]. intros sh Hs. apply Ho. left. by exists sh.
Qed.

Lemma nothing_left_over s : serve_inv s -> left_over s = 0%nat -> nothing_left s.
Proof.
  intros I Hl. unfold left_over in Hl. assert (Hz : phases waited_for (s_conns s) = 0%nat) by lia.
  split_and!; [| |by apply finished_unsubscribed].
  - rewrite (si_slots _ I), (finished holds_slot s Hz eq_refl).
    destruct (s_acceptor s); unfold holding in Hl; cbn in *; lia.
  - by rewrite (si_active _ I), (finished active s Hz eq_refl).
Qed.

Lemma left_goes c p q s s' : goes c p q s = Some s' -> p <> CFinished -> (left_over s' <= left_over s)%nat.
Proof.
  intros [Hc ->]%goes_Some Hp. unfold left_over. cbn. pose proof (phases_move waited_for _ c p q Hc) as Hm.
  assert (E : waited_for p = true) by (unfold waited_for; by rewrite bool_decide_eq_false_2).
  rewrite E in Hm. destruct (waited_for q); cbn in Hm; lia.
Qed.

Lemma left_line c line s s1 : goes c CReading CLooping s = Some s1 ->
  (left_over (handle_line N C sorter ord StringWidth config_StartHeight c line s1) <= left_over s)%nat /\
  s_listening (handle_line N C sorter ord StringWidth config_StartHeight c line s1) = s_listening s.
Proof.
  intros E. pose proof (left_goes _ _ _ _ _ E ltac:(done)) as H. apply goes_Some in E as [_ ->].
  unfold handle_line. destruct (serve_line _ _ _ _ _ _ _ _ _) as [[[v|]|e] w']; done.
Qed.

(** Once the listener is closed, no connection is added. *)
Lemma left_step l s s' : serve_inv s -> s_listening s = false -> sstep l s = Some s' ->
  (left_over s' <= left_over s)%nat /\ s_listening s' = false.
Proof.
  intros I Hl. unfold Serve.sstep. destruct (s_crashed s); [done|].
  assert (Hg : forall c p q x, goes c p q s = Some x -> p <> CFinished -> (left_over x <= left_over s)%nat /\ s_listening x = false).
  { intros c p q x E Hp. split; [by eapply left_goes|]. by apply goes_Some in E as [_ ->]. }
  destruct l as [c| | | | |c|c|c line|c|c|c|c|c|c|c| | | | |].
  - rewrite Hl. by destruct (s_acceptor s).
  - unfold left_over. destruct (s_acceptor s) eqn:Ea; try done. intros [= <-]. cbn. by destruct (s_cancelled s).
  - unfold left_over. destruct (s_acceptor s) eqn:Ea; try done. intros [= <-]. unfold take_slot.
    destruct (_ <? _)%nat; cbn; (split; [lia|done]).
  - unfold left_over. destruct (s_acceptor s) eqn:Ea; try done. intros [= <-]. by cbn.
  - unfold left_over. destruct (s_acceptor s) eqn:Ea; try done. intros [= <-]. cbn.
    rewrite phases_fresh by (apply (si_held _ I); by rewrite Ea).
    change (Nat.b2n (waited_for CStarting)) with 1%nat. cbn. split; [lia|done].
  - intros (s1 & E & ->)%fmap_Some. by apply (Hg _ _ _ _ E).
  - intros E. by apply (Hg _ _ _ _ E).
  - destruct (scannable line); [|done]. intros (s1 & E & ->)%fmap_Some.
    pose proof (left_line c line s s1 E) as [H1 H2]. by rewrite H2.
  - intros E. by apply (Hg _ _ _ _ E).
  - intros (s1 & E & ->)%fmap_Some. by apply (Hg _ _ _ _ E).
  - intros (s1 & E & ->)%fmap_Some. by apply (Hg _ _ _ _ E).
  - intros E. by apply (Hg _ _ _ _ E).
  - intros E. by apply (Hg _ _ _ _ E).
  - intros (s1 & E & ->)%fmap_Some. by apply (Hg _ _ _ _ E).
  - intros E. by apply (Hg _ _ _ _ E).
  - destruct (s_stop s); try done. by intros [= <-].
  - destruct (s_stop s); try done. by intros [= <-].
  - destruct (s_stop s); try done. destruct (_ && _); [|done]. by intros [= <-].
  - destruct (s_stop s); try done. by intros [= <-].
  - destruct (s_stop s); try done; (destruct (negb _); [|done]); by intros [= <-].
Qed.

Lemma left_run ls s s' : serve_inv s -> s_listening s = false -> srun ls s = Some s' ->
  (left_over s' <= left_over s)%nat.
Proof.
  revert s; induction ls as [|l ls IH]; intros s I Hl; cbn [Serve.srun]; [by intros [= <-]|].
  intros (s1 & E1 & E2)%bind_Some. destruct (left_step l s s1 I Hl E1) as [H1 H2].
  specialize (IH s1 (sstep_inv _ _ _ I E1) H2 E2). lia.
Qed.

(** After [wg.Wait()] has returned: at most the connection that the accept loop
    held is left, and no line is read. *)
Record after_wait (s : Server) : Prop := {
  aw_listening : s_listening s = false;
  aw_left : (left_over s <= 1)%nat;
  aw_reading c : s_conns s !! c <> Some CReading;
  aw_unsubscribed : unsubscribed s;
}.

Record stop_inv (s : Server) : Prop := {
  st_cancelled : s_stop s <> NotStopped -> s_cancelled s = true;
  st_done : s_stop s = StopDone \/ s_stop s = StopAll -> after_wait s;
}.

(** What an action can change of this, by the phase a goroutine comes to. *)
Lemma after_wait_moves s s' : s_listening s' = false -> (left_over s' <= left_over s)%nat ->
  (forall c, s_conns s' !! c = Some CReading -> s_conns s !! c = Some CReading) ->
  (unsubscribed s -> unsubscribed s') -> after_wait s -> after_wait s'.
Proof. intros H1 H2 H3 H4 [A1 A2 A3 A4]. split; [done|lia| |auto]. intros c Hc. by eapply A3, H3. Qed.

Lemma goes_reading c p q s s' : goes c p q s = Some s' -> q <> CReading ->
  forall o, s_conns s' !! o = Some CReading -> s_conns s !! o = Some CReading.
Proof.
  intros [Hc ->]%goes_Some Hq o. cbn. destruct (decide (c = o)) as [->|Hne]; [|by rewrite lookup_insert_ne].
  rewrite lookup_insert_eq. congruence.
Qed.

Lemma unsubscribe_none c s : serve_inv s -> unsubscribed s -> unsubscribed (unsubscribe ord c s).
Proof.
  intros I H o. destruct (H o) as [H1 H2]. split.
  - by intros [? _]%(header_subs_drop c o (sv_subs (s_state s))).
  - intros sh Hs. apply (subscribed_drop ord c _ o sh (si_subs _ I)) in Hs as [Hs _]. by apply (H2 sh).
Qed.

Lemma after_wait_step l s s' : serve_inv s -> s_cancelled s = true -> after_wait s -> sstep l s = Some s' -> after_wait s'.
Proof.
  intros I Hcan A E. destruct (left_step l s s' I (aw_listening _ A) E) as [Hleft Hlis].
  assert (Hg : forall c p q x, goes c p q s = Some x -> q <> CReading -> s_conns s' = s_conns x ->
    (unsubscribed s -> unsubscribed s') -> after_wait s').
  { intros c p q x Ex Hq Ey Hu. eapply after_wait_moves; [done|done| |exact Hu|done].
    intros o. rewrite Ey. by eapply goes_reading. }
  unfold Serve.sstep in E. destruct (s_crashed s); [done|].
  destruct l as [c| | | | |c|c|c line|c|c|c|c|c|c|c| | | | |].
  - destruct (s_acceptor s); try done. destruct (_ && _); [|done]. injection E as <-. by apply (after_wait_moves s).
  - destruct (s_acceptor s); try done. injection E as <-. by apply (after_wait_moves s).
  - destruct (s_acceptor s); try done. injection E as <-. apply (after_wait_moves s); try done;
      unfold take_slot; by destruct (_ <? _)%nat.
  - destruct (s_acceptor s); try done. injection E as <-. by apply (after_wait_moves s).
  - destruct (s_acceptor s) as [| | |c|] eqn:Ea; try done. injection E as <-. apply (after_wait_moves s); try done.
    intros o. cbn. destruct (decide (c = o)) as [->|Hne]; [by rewrite lookup_insert_eq|by rewrite lookup_insert_ne].
  - apply fmap_Some in E as (x & E & ->). apply (Hg _ _ _ _ E); [done..|]. by apply goes_Some in E as [_ ->].
  - rewrite Hcan in E. apply (Hg _ _ _ _ E); [done..|]. by apply goes_Some in E as [_ ->].
  - destruct (scannable line); [|done]. apply fmap_Some in E as (x & [Hc _]%goes_Some & _). by apply (aw_reading _ A) in Hc.
  - apply goes_Some in E as [Hc _]. by apply (aw_reading _ A) in Hc.
  - apply fmap_Some in E as (x & E & ->). apply (Hg _ _ _ _ E); [done..|]. by apply goes_Some in E as [_ ->].
  - apply fmap_Some in E as (x & E & ->). apply (Hg _ _ _ _ E); [done..|]. apply goes_Some in E as [_ ->].
    by apply (unsubscribe_none c s).
  - apply (Hg _ _ _ _ E); [done..|]. by apply goes_Some in E as [_ ->].
  - apply (Hg _ _ _ _ E); [done..|]. by apply goes_Some in E as [_ ->].
  - apply fmap_Some in E as (x & E & ->). apply (Hg _ _ _ _ E); [done..|]. by apply goes_Some in E as [_ ->].
  - apply (Hg _ _ _ _ E); [done..|]. by apply goes_Some in E as [_ ->].
  - destruct (s_stop s); try done. injection E as <-. by apply (after_wait_moves s).
  - destruct (s_stop s); try done. injection E as <-. by apply (after_wait_moves s).
  - destruct (s_stop s); try done. destruct (_ && _); [|done]. injection E as <-. by apply (after_wait_moves s).
  - destruct (s_stop s); try done. injection E as <-. by apply (after_wait_moves s).
  - destruct (s_stop s); try done; (destruct (negb _); [|done]); injection E as <-; by apply (after_wait_moves s).
Qed.

(** What an action does to [Stop]. *)
Lemma stop_moves l s s' : sstep l s = Some s' ->
  (s_stop s' = s_stop s /\ s_cancelled s' = s_cancelled s) \/
  (s_stop s = NotStopped /\ s_stop s' = StopWaiting /\ s_cancelled s' = true) \/
  (s_stop s = StopWaiting /\ s_stop s' = StopDone /\ s_cancelled s' = s_cancelled s /\ s_listening s = false /\
     group_done s = true /\ s' = stop_step (s_cancelled s) false StopDone s) \/
  (s_stop s = StopDone /\ s_stop s' = StopAll /\ s_cancelled s' = s_cancelled s) \/
  (s_stop s <> NotStopped /\ s_stop s' = StopTimeout /\ s_cancelled s' = s_cancelled s).
Proof.
  unfold Serve.sstep. destruct (s_crashed s); [done|].
  assert (Hg : forall c p q x, goes c p q s = Some x -> s_stop x = s_stop s /\ s_cancelled x = s_cancelled s)
    by (by intros c p q x [_ ->]%goes_Some).
  destruct l as [c| | | | |c|c|c line|c|c|c|c|c|c|c| | | | |].
  1-5: destruct (s_acceptor s) eqn:Ea; try done.
  1: destruct (_ && _); [|done].
  1-5: intros [= <-]; left; unfold take_slot; try (destruct (_ <? _)%nat); done.
  3: destruct (scannable line); [|done].
  11-15: destruct (s_stop s) eqn:Es; try done.
  11: intros [= <-]; right; left; by split_and!.
  11: intros [= <-]; left; by split.
  11: { destruct (negb _ && _) eqn:E; [|done]. intros [= <-]. apply andb_true_iff in E as [E1 E2].
        apply negb_true_iff in E1. do 2 right. left. by split_and!. }
  11: intros [= <-]; do 3 right; left; by split_and!.
  11-12: destruct (negb _); [|done]; intros [= <-]; do 4 right; by split_and!.
  all: intros E; left; try (by apply (Hg _ _ _ _ E)); apply fmap_Some in E as (x & E & ->);
    pose proof (Hg _ _ _ _ E) as [<- <-]; try done.
  unfold handle_line. destruct (serve_line _ _ _ _ _ _ _ _ _) as [[[v|]|e] w']; done.
Qed.

Lemma sstep_stop_inv l s s' : serve_inv s -> stop_inv s -> sstep l s = Some s' -> stop_inv s'.
Proof.
  intros I [S1 S2] E.
  destruct (stop_moves l s s' E) as [[E1 E2]|[(E1 & E2 & E3)|[(E1 & E2 & E3 & E4 & E5 & E6)|[(E1 & E2 & E3)|(E1 & E2 & E3)]]]].
  - split; [by rewrite E1, E2|]. rewrite E1. intros Hs. eapply after_wait_step; [done| |by apply S2|done].
    apply S1. destruct Hs as [-> | ->]; done.
  - split; [done|]. rewrite E2. by intros [].
  - assert (Hc : s_cancelled s = true) by (apply S1; by rewrite E1). split; [by rewrite E3|]. intros _.
    unfold group_done in E5. apply andb_true_iff in E5 as [E5%bool_decide_eq_true E5'].
    pose proof (proj2 (phases_zero waited_for (s_conns s)) E5) as Hz. rewrite E6. split; cbn.
    + done.
    + unfold left_over. cbn. rewrite Hz. unfold holding. destruct (held_conn _); cbn; lia.
    + intros c Hr. by specialize (E5 c _ Hr).
    + by apply (finished_unsubscribed s).
  - assert (Hc : s_cancelled s = true) by (apply S1; by rewrite E1). split; [by rewrite E3|]. intros _.
    eapply after_wait_step; [done|done| |done]. apply S2. by left.
  - assert (Hc : s_cancelled s = true) by (by apply S1). split; [by rewrite E3|]. rewrite E2. by intros [].
Qed.

Lemma srun_stop_inv ls s s' : serve_inv s -> stop_inv s -> srun ls s = Some s' -> stop_inv s'.
Proof.
  revert s; induction ls as [|l ls IH]; intros s I Hs; cbn [Serve.srun]; [by intros [= <-]|].
  intros (s1 & E1 & E2)%bind_Some. eapply IH; [| |exact E2]; [by eapply sstep_inv|by eapply sstep_stop_inv].
Qed.

(** *** Every goroutine can end *)

(** The actions a goroutine still has, when no line comes. *)
Definition remaining (p : cphase) : nat :=
  match p with
  | CStarting => 8 | CLooping | CReading => 7 | CEnding => 6 | CReleased => 5 | CUnsubscribed => 4
  | CWriterClosed => 3 | CConnClosed => 2 | CUncounted => 1 | CFinished => 0
  end.

Definition no_line (l : slabel) : Prop := forall c line, l <> SLine c line.

(** The server is on its way down, and nothing crashed. *)
Record stopping_now (s : Server) : Prop := {
  sn_stop : s_stop s = StopWaiting;
  sn_cancelled : s_cancelled s = true;
  sn_listening : s_listening s = false;
  sn_crashed : s_crashed s = false;
}.

Lemma goroutine_step c p s : stopping_now s -> s_conns s !! c = Some p -> p <> CFinished ->
  exists l q s', sstep l s = Some s' /\ no_line l /\ (remaining q < remaining p)%nat /\
    s_conns s' = <[c := q]> (s_conns s) /\ s_acceptor s' = s_acceptor s /\ stopping_now s'.
Proof.
  intros [H1 H2 H3 H4] Hc Hp.
  assert (G : forall q, goes c p q s = Some (with_phase c q s)) by (intros q; by apply goes_Some).
  assert (K : forall l q s', sstep l s = Some s' -> no_line l -> (remaining q < remaining p)%nat ->
    s_conns s' = <[c := q]> (s_conns s) -> s_stop s' = s_stop s -> s_cancelled s' = s_cancelled s ->
    s_listening s' = s_listening s -> s_crashed s' = s_crashed s -> s_acceptor s' = s_acceptor s ->
    exists l q s', sstep l s = Some s' /\ no_line l /\
    (remaining q < remaining p)%nat /\ s_conns s' = <[c := q]> (s_conns s) /\ s_acceptor s' = s_acceptor s /\
    stopping_now s').
  { intros l q s' E1 E2 E3 E4 E5 E6 E7 E8 E9. exists l, q, s'. split_and!; try done. split; congruence. }
  destruct p; [| | | | | | | | |done].
  - eapply (K (SBegin c) CLooping); [unfold Serve.sstep; by rewrite H4, G|done|cbn; lia|done..].
  - eapply (K (SLoop c) CEnding); [unfold Serve.sstep; by rewrite H4, H2, G|done|cbn; lia|done..].
  - eapply (K (SScanEnd c) CEnding); [unfold Serve.sstep; by rewrite H4, G|done|cbn; lia|done..].
  - eapply (K (SRelease c) CReleased); [unfold Serve.sstep; by rewrite H4, G|done|cbn; lia|done..].
  - eapply (K (SUnsubscribe c) CUnsubscribed); [unfold Serve.sstep; by rewrite H4, G|done|cbn; lia|done..].
  - eapply (K (SCloseWriter c) CWriterClosed); [unfold Serve.sstep; by rewrite H4, G|done|cbn; lia|done..].
  - eapply (K (SCloseConn c) CConnClosed); [unfold Serve.sstep; by rewrite H4, G|done|cbn; lia|done..].
  - eapply (K (SUncount c) CUncounted); [unfold Serve.sstep; by rewrite H4, G|done|cbn; lia|done..].
  - eapply (K (SFinish c) CFinished); [unfold Serve.sstep; by rewrite H4, G|done|cbn; lia|done..].
Qed.

Lemma srun_app ls1 ls2 s : srun (ls1 ++ ls2) s = srun ls1 s ≫= srun ls2.
Proof.
  revert s; induction ls1 as [|l ls1 IH]; intros s; [done|]. cbn [app Serve.srun].
  destruct (sstep l s) as [s1|]; [apply IH|done].
Qed.

Lemma goroutine_ends n c p s : (remaining p <= n)%nat -> stopping_now s -> s_conns s !! c = Some p ->
  exists ls s', srun ls s = Some s' /\ (length ls <= n)%nat /\ Forall no_line ls /\
    s_conns s' = <[c := CFinished]> (s_conns s) /\ s_acceptor s' = s_acceptor s /\ stopping_now s'.
Proof.
  revert p s; induction n as [|n IH]; intros p s Hn Hs Hc.
  - exists [], s. split_and!; [done|done|constructor| |done|done]. destruct p; cbn in Hn; try lia. by rewrite insert_id.
  - destruct (decide (p = CFinished)) as [->|Hp].
    { exists [], s. split_and!; [done|cbn; lia|constructor| |done|done]. by rewrite insert_id. }
    destruct (goroutine_step c p s Hs Hc Hp) as (l & q & s1 & E1 & Hl & Hq & Hc1 & Ha1 & Hs1).
    destruct (IH q s1) as (ls & s' & E2 & Hlen & Hls & Hc2 & Ha2 & Hs2);
      [lia|done|rewrite Hc1; apply lookup_insert_eq|].
    exists (l :: ls), s'. split_and!; [cbn [Serve.srun]; by rewrite E1|cbn; lia|by constructor| |by rewrite Ha2|done].
    by rewrite Hc2, Hc1, insert_insert_eq.
Qed.

Lemma all_end n s : phases waited_for (s_conns s) = n -> stopping_now s ->
  exists ls s', srun ls s = Some s' /\ (length ls <= 8 * n)%nat /\ Forall no_line ls /\
    phases waited_for (s_conns s') = 0%nat /\ s_acceptor s' = s_acceptor s /\ stopping_now s'.
Proof.
  revert s; induction n as [|n IH]; intros s Hn Hs.
  - exists [], s. split_and!; [done|done|constructor|done..].
  - destruct (decide (map_Forall (fun _ p => waited_for p = false) (s_conns s))) as [Hf|Hf].
    { apply phases_zero in Hf. lia. }
    apply map_not_Forall in Hf as (c & p & Hc & Hp); [|intros ? ?; apply _].
    destruct (goroutine_ends 8 c p s) as (ls & s1 & E1 & Hlen & Hls & Hc1 & Ha1 & Hs1); [destruct p; cbn; lia|done|done|].
    destruct (IH s1) as (ls2 & s2 & E2 & Hlen2 & Hls2 & Hf2 & Ha2 & Hs2); [|done|].
    { pose proof (phases_move waited_for _ c p CFinished Hc) as Hm. rewrite <- Hc1 in Hm.
      change (waited_for CFinished) with false in Hm. destruct (waited_for p); [|done]. cbn in Hm. lia. }
    exists (ls ++ ls2), s2. split_and!; [by rewrite srun_app, E1|rewrite length_app; lia| |done|by rewrite Ha2|done].
    by apply Forall_app.
Qed.

(** The counter of the wait group. *)
Definition group (s : Server) : nat := phases waited_for (s_conns s) + Nat.b2n (added (s_acceptor s)).

(** The accept loop starts the goroutine it has added to the group. *)
Lemma start_added s : serve_inv s -> stopping_now s ->
  exists ls s1, srun ls s = Some s1 /\ (length ls + 8 * phases waited_for (s_conns s1) <= 9 * group s)%nat /\
    Forall no_line ls /\ added (s_acceptor s1) = false /\ stopping_now s1.
Proof.
  intros I Hs. unfold group. destruct (added (s_acceptor s)) eqn:Ea.
  2:{ exists [], s. split_and!; [done|cbn; lia|constructor|done..]. }
  destruct (s_acceptor s) as [| | |c|] eqn:Ec; try done. destruct Hs as [H1 H2 H3 H4].
  exists [SGo], (with_phase c CStarting (with_acceptor AAccepting s)). split_and!.
  - cbn [Serve.srun]. unfold Serve.sstep. by rewrite H4, Ec.
  - cbn. rewrite phases_fresh by (apply (si_held _ I); by rewrite Ec).
    change (Nat.b2n (waited_for CStarting)) with 1%nat. lia.
  - by repeat constructor.
  - done.
  - by split.
Qed.

Lemma stop_completes s : serve_inv s -> stopping_now s -> exists ls s', srun ls s = Some s' /\ Forall no_line ls /\
  (length ls <= 9 * group s + 2)%nat /\ s_stop s' = StopAll.
Proof.
  intros I Hs. destruct (start_added s I Hs) as (ls1 & s1 & E1 & L1 & F1 & Ha & Hs1).
  destruct (all_end _ s1 eq_refl Hs1) as (ls2 & s2 & E2 & L2 & F2 & Hz & Ha2 & [H1 H2 H3 H4]).
  set (s3 := stop_step (s_cancelled s2) false StopDone s2).
  set (s4 := stop_step (s_cancelled s3) (s_listening s3) StopAll s3).
  assert (E3 : sstep SWaited s2 = Some s3).
  { unfold Serve.sstep, group_done. rewrite H4, H1, H3, Ha2, Ha. by rewrite bool_decide_eq_true_2 by (by apply phases_zero). }
  assert (E4 : sstep SAllDone s3 = Some s4).
  { unfold Serve.sstep. change (s_crashed s3) with (s_crashed s2). by rewrite H4. }
  exists (ls1 ++ ls2 ++ [SWaited; SAllDone]), s4. split_and!.
  - rewrite srun_app, E1. cbn [mbind option_bind]. rewrite srun_app, E2. cbn [mbind option_bind Serve.srun].
    rewrite E3. cbn [mbind option_bind]. by rewrite E4.
  - rewrite !Forall_app. split_and!; [done|done|by repeat constructor].
  - rewrite !length_app. cbn. lia.
  - done.
Qed.

(** A goroutine in the scanner stays there. *)
Lemma reading_stays c ls s s' : serve_inv s -> srun ls s = Some s' -> s_conns s !! c = Some CReading ->
  SScanEnd c ∉ ls -> (forall line, SLine c line ∉ ls) -> s_conns s' !! c = Some CReading.
Proof.
  revert s; induction ls as [|l ls IH]; intros s I; cbn [Serve.srun]; [by intros [= <-]|].
  intros (s1 & E1 & E2)%bind_Some Hc H1 H2. apply (IH s1); [by eapply sstep_inv|done| |set_solver|set_solver].
  assert (Hg : forall o p q x, goes o p q s = Some x -> (o = c -> p <> CReading) -> s_conns x !! c = Some CReading).
  { intros o p q x [Ho ->]%goes_Some Hne. cbn. destruct (decide (o = c)) as [->|]; [|by rewrite lookup_insert_ne].
    exfalso. rewrite Hc in Ho. injection Ho as <-. by apply Hne. }
  unfold Serve.sstep in E1. destruct (s_crashed s); [done|].
  destruct l as [o| | | | |o|o|o line|o|o|o|o|o|o|o| | | | |].
  - destruct (s_acceptor s); try done. destruct (_ && _); [|done]. by injection E1 as <-.
  - destruct (s_acceptor s); try done. by injection E1 as <-.
  - destruct (s_acceptor s); try done. injection E1 as <-. unfold take_slot. by destruct (_ <? _)%nat.
  - destruct (s_acceptor s); try done. by injection E1 as <-.
  - destruct (s_acceptor s) as [| | |o|] eqn:Ea; try done. injection E1 as <-. cbn.
    rewrite lookup_insert_ne; [done|]. intros ->. rewrite (si_held _ I) in Hc; [done|by rewrite Ea].
  - apply fmap_Some in E1 as (x & E1 & ->). by eapply (Hg _ _ _ _ E1).
  - by eapply (Hg _ _ _ _ E1).
  - destruct (scannable line); [|done]. apply fmap_Some in E1 as (x & E1 & ->).
    assert (Hx : s_conns x !! c = Some CReading) by (eapply (Hg _ _ _ _ E1); intros ->; specialize (H2 line); set_solver).
    unfold handle_line. destruct (serve_line _ _ _ _ _ _ _ _ _) as [[[v|]|e] w']; done.
  - eapply (Hg _ _ _ _ E1). intros ->. set_solver.
  - apply fmap_Some in E1 as (x & E1 & ->). by eapply (Hg _ _ _ _ E1).
  - apply fmap_Some in E1 as (x & E1 & ->). by eapply (Hg _ _ _ _ E1).
  - by eapply (Hg _ _ _ _ E1).
  - by eapply (Hg _ _ _ _ E1).
  - apply fmap_Some in E1 as (x & E1 & ->). by eapply (Hg _ _ _ _ E1).
  - by eapply (Hg _ _ _ _ E1).
  - destruct (s_stop s); try done. by injection E1 as <-.
  - destruct (s_stop s); try done. by injection E1 as <-.
  - destruct (s_stop s); try done. destruct (_ && _); [|done]. by injection E1 as <-.
  - destruct (s_stop s); try done. by injection E1 as <-.
  - destruct (s_stop s); try done; (destruct (negb _); [|done]); by injection E1 as <-.
Qed.

(** C27: the connections are accounted for: whatever connects, sends and leaves,
    the slots taken are the connections from the moment the accept loop takes one
    until their deferred function releases it, at most [MaxConnections]; a
    connection is turned away only when that many hold a slot, and any other gets
    a goroutine; the two counters count the connections begun and those not yet
    counted off; and every subscription belongs to a connection that is begun and
    has not been unsubscribed. *)
Theorem connections_accounted (w : sworld) (ls : list slabel) (s : Server)
    (Hfresh : sv_subs w = NewSubscriptionManager) (Hrun : srun ls (NewServer w) = Some s) :
  s_connLimiter s = (phases holds_slot (s_conns s) + slot_pending (s_acceptor s))%nat /\
  (s_connLimiter s <= MaxConnections)%nat /\
  s_connCount s = i64 (Z.of_nat (phases begun (s_conns s))) /\
  s_activeConnCount s = i64 (Z.of_nat (phases active (s_conns s))) /\
  (forall c, (exists sh, subscribed (sv_subs (s_state s)) c sh) \/ c ∈ headerSubs (sv_subs (s_state s)) ->
     exists p, s_conns s !! c = Some p /\ may_subscribe p = true) /\
  (forall c s', s_acceptor s = AAccepted c -> sstep SSelect s = Some s' ->
     s_acceptor s' = (if (phases holds_slot (s_conns s) <? MaxConnections)%nat then ASlot c else AAccepting) /\
     s_conns s' !! c = None) /\
  (forall c, s_acceptor s = ASlot c -> s_crashed s = false ->
     exists s', srun [SAdd; SGo] s = Some s' /\ s_conns s' !! c = Some CStarting).
Proof.
  pose proof (srun_inv ls _ s (NewServer_inv w Hfresh) Hrun) as I.
  split_and!; [apply I|apply I|apply I|apply I|apply I| |].
  - intros c s' Ea. pose proof (si_slots _ I) as Hs. pose proof (si_held _ I c) as Hh. rewrite Ea in Hs, Hh.
    rewrite Nat.add_0_r in Hs. rewrite <- Hs.
    unfold Serve.sstep. destruct (s_crashed s); [done|]. rewrite Ea. intros [= <-].
    unfold take_slot. destruct (_ <? _)%nat; (split; [done|by apply Hh]).
  - intros c Ea Hc. exists (with_phase c CStarting (with_acceptor AAccepting s)). split; [|apply lookup_insert_eq].
    assert (E1 : sstep SAdd s = Some (with_acceptor (AAdded c) s)) by (unfold Serve.sstep; by rewrite Hc, Ea).
    assert (E2 : sstep SGo (with_acceptor (AAdded c) s) = Some (with_phase c CStarting (with_acceptor AAccepting s)))
      by (unfold Serve.sstep; cbn; by rewrite Hc).
    cbn [Serve.srun]. rewrite E1. cbn [mbind option_bind]. by rewrite E2.
Qed.

(** C28: what [Stop] waits for: once it has cancelled and closed the listener, the
    goroutines in the wait group can all end, with the one that the accept loop has
    added but not started, in nine actions each and without another line being
    read, and then [Stop] sees it.  Since the accept loop adds to the group after
    [Accept] has returned, [Stop] can see the group empty while the loop still holds
    one connection: then, and from then on, at most that one is left, it reads no
    line, and nobody is subscribed; if none is left, no slot and no active
    connection is either, and none comes.  [Stop] does not close the clients'
    connections: a goroutine that was reading has had a line, an end or a deadline
    by then. *)
Theorem server_stop_complete (w : sworld) (ls : list slabel) (s : Server)
    (Hfresh : sv_subs w = NewSubscriptionManager) (Hrun : srun ls (NewServer w) = Some s) :
  (stopping_now s -> exists ls' s', srun ls' s = Some s' /\ Forall no_line ls' /\
     (length ls' <= 9 * group s + 2)%nat /\ s_stop s' = StopAll) /\
  (s_stop s = StopAll ->
     (left_over s <= 1)%nat /\ (s_connLimiter s <= 1)%nat /\ unsubscribed s /\
     (forall c, s_conns s !! c <> Some CReading) /\
     (left_over s = 0%nat -> nothing_left s) /\
     (forall ls' s', srun ls' s = Some s' -> (left_over s' <= left_over s)%nat)) /\
  (forall c ls' s', s_conns s !! c = Some CReading -> srun ls' s = Some s' -> s_stop s' = StopAll ->
     SScanEnd c ∈ ls' \/ exists line, SLine c line ∈ ls').
Proof.
  pose proof (srun_inv ls _ s (NewServer_inv w Hfresh) Hrun) as I.
  assert (Hok : stop_inv s).
  { eapply srun_stop_inv; [by apply NewServer_inv| |exact Hrun]. split; [done|]. by intros []. }
  split_and!.
  - by apply stop_completes.
  - intros Hstop. destruct (st_done _ Hok (or_intror Hstop)) as [H1 H2 H3 H4]. split_and!; try done.
    + rewrite (si_slots _ I). pose proof (phases_le holds_slot waited_for (s_conns s)) as Hle.
      unfold left_over, holding in H2. specialize (Hle ltac:(by intros [])). destruct (s_acceptor s); cbn in *; lia.
    + by apply nothing_left_over.
    + intros ls' s'. by apply left_run.
  - intros c ls' s' Hc E Hstop. destruct (decide (SScanEnd c ∈ ls')) as [?|Hn]; [by left|]. right.
    set (is_line := fun l => match l with SLine o _ => o = c | _ => False end).
    assert (Hdec : forall l, Decision (is_line l)) by (intros []; cbn; apply _).
    destruct (decide (Exists is_line ls')) as [He|He].
    { apply Exists_exists in He as ([] & Hl & He); try done. cbn in He. subst. by eexists. }
    exfalso. assert (Hr : s_conns s' !! c = Some CReading).
    { eapply reading_stays; [done..|]. intros line Hl. apply He, Exists_exists. by exists (SLine c line). }
    pose proof (srun_stop_inv ls' s s' I Hok E) as Hok'. by apply (aw_reading _ (st_done _ Hok' (or_intror Hstop)) c).
Qed.

End Props.

(** ** Witnesses *)

#[local] Notation sample_srun MaxConnections ls :=
  (srun sample_rpc_node amd64 merge_sorter id_order (fun s => Z.of_nat (slen s)) 0 MaxConnections ls
    (NewServer sample_server)).

Definition visit_end (MaxConnections : nat) (ls : list slabel) : @Server MemPebble ModelBtcd :=
  default (NewServer sample_server) (sample_srun MaxConnections ls).

(** A client subscribes to the headers and is waited for when the server stops;
    another comes while the only slot is taken. *)
Definition sample_visit : list slabel :=
  [SAccept 1%positive; SSelect; SAdd; SGo; SBegin 1%positive; SLoop 1%positive;
   SLine 1%positive (text "{'id':1,'method':'blockchain.headers.subscribe','params':[]}");
   SAccept 2%positive; SSelect; SLoop 1%positive; SCancel; SCloseListener].

Lemma sample_visit_run : sample_srun 1 sample_visit = Some (visit_end 1 sample_visit).
Proof. unfold visit_end. apply Some_default. apply (bool_decide_eq_true_1 _). vm_compute. reflexivity. Qed.

Lemma connections_accounted_witness : (s_connLimiter (visit_end 1 sample_visit) <= 1)%nat.
Proof.
  exact (proj1 (proj2 (connections_accounted sample_rpc_node amd64 merge_sorter id_order (fun s => Z.of_nat (slen s)) 0 1
    sample_server sample_visit (visit_end 1 sample_visit) eq_refl sample_visit_run))).
Defined.

Lemma server_stop_complete_witness :
  exists ls' s', srun sample_rpc_node amd64 merge_sorter id_order (fun s => Z.of_nat (slen s)) 0 1 ls'
    (visit_end 1 sample_visit) = Some s' /\ s_stop s' = StopAll.
Proof.
  destruct (proj1 (server_stop_complete sample_rpc_node amd64 merge_sorter id_order (fun s => Z.of_nat (slen s)) 0 1
    sample_server sample_visit (visit_end 1 sample_visit) eq_refl sample_visit_run)) as (ls' & s' & H1 & _ & _ & H2).
  - split; vm_compute; reflexivity.
  - exists ls', s'. split; [exact H1|exact H2].
Defined.

(** The slot is free before the connection is closed and counted off: with a
    limit of one connection, two are open and counted. *)
Lemma active_exceeds_limit :
  s_activeConnCount (visit_end 1 [SAccept 1%positive; SSelect; SAdd; SGo; SBegin 1%positive; SLoop 1%positive;
    SScanEnd 1%positive; SRelease 1%positive; SAccept 2%positive; SSelect; SAdd; SGo; SBegin 2%positive]) = 2.
Proof. vm_compute. reflexivity. Qed.

(** A connection that starts after [Stop] has seen all of them end: the listener
    had given it to the accept loop, which had not added it to the group. *)
Definition late_conn : list slabel :=
  [SAccept 1%positive; SCancel; SCloseListener; SWaited; SAllDone; SSelect; SAdd; SGo; SBegin 1%positive].

Lemma starts_after_stop :
  s_stop (visit_end 1 late_conn) = StopAll /\ s_conns (visit_end 1 late_conn) !! 1%positive = Some CLooping /\
  s_connLimiter (visit_end 1 late_conn) = 1%nat /\ s_activeConnCount (visit_end 1 late_conn) = 1.
Proof. vm_compute. split_and!; reflexivity. Qed.
