(* ===== verification/Subscribe.v ===== *)
(** * Subscriptions and their notifications

    A client that subscribes to a scripthash, and what the server does from then
    on, whoever asks for it: the status it was given stays the one of every
    notification until the scripthash is marked dirty. *)

From Stdlib Require Import Strings.Byte.
From S2P Require Import Prelude Bytes Hex Keys Values Json Checkpoint Pebble Store Sha256 Types Mempool MempoolFacts MempoolProps Block BlockFacts BlockOps BlockProps Reorg Query QueryFacts QueryProps Server ServerProps Typed Total Steps Chain Follow Gaps Writer WriterProps GoFloat Rpc RpcProps Config Live LiveFacts Requests Serve ServeProps.

Section Subscribe.
Context {P : Pebble} {PL : PebbleLaws P} {PH : PebbleHealthy P PL} {B : Btcd} {BL : BtcdLaws B} {T : BtcdTx} {Zs : Zstd}.
Context (N : rpc_node B) (C : platform) (sorter : slice_sort) (ord : range_order).
Context (StringWidth : string -> Z) (config_StartHeight : Z).

(** What the program does with the server while [shHex] is not marked dirty: a
    line or the end of a connection of [who], a notification of any scripthash,
    other scripthashes marked dirty, and any change of the database and the
    overlay. *)
Inductive server_step (who : conn -> Prop) (shHex : string) : relation sworld :=
| sv_line c line w : who c ->
    server_step who shHex w (serve_line N C sorter ord StringWidth config_StartHeight c line w).2
| sv_leave c w : who c -> server_step who shHex w (on_subs (Unsubscribe ord c) w).2
| sv_notify x w : server_step who shHex w (NotifyScripthashStatusHex sorter ord x w).2
| sv_dirty l w : shHex ∉ l -> server_step who shHex w (MarkScripthashDirtyMany l w).2
| sv_data data calls w : server_step who shHex w (mkSWorld data (sv_subs w) (sv_cache w) calls).

(** ** The cached status *)

Definition keeps_status (shHex status : string) (w w' : sworld) : Prop :=
  GetIfClean shHex (sv_cache w) = Some status -> GetIfClean shHex (sv_cache w') = Some status.

#[export] Instance keeps_status_preorder shHex status : PreOrder (keeps_status shHex status).
Proof. split; [by intros w H|]. intros a b c H1 H2 H. by apply H2, H1. Qed.

Lemma keeps_same shHex status w w' : sv_cache w' = sv_cache w -> keeps_status shHex status w w'.
Proof. intros E H. by rewrite E. Qed.

Lemma GetIfClean_other shHex x status c : x <> shHex -> GetIfClean shHex (SetClean x status c) = GetIfClean shHex c.
Proof.
  intros Hne. unfold GetIfClean, SetClean. cbn. rewrite lookup_insert_ne by done.
  repeat case_decide; [done| | |done]; set_solver.
Qed.

Lemma GetIfClean_marked shHex l c : shHex ∉ l -> GetIfClean shHex (MarkDirtyMany l c) = GetIfClean shHex c.
Proof.
  intros Hn. unfold GetIfClean, MarkDirtyMany. cbn. repeat case_decide; [done| | |done]; set_solver.
Qed.

Lemma keeps_sdb shHex status {A} (m : st pdb A) : st_rel (keeps_status shHex status) (sdb m).
Proof. intros w. apply keeps_same. unfold sdb, in_db. by destruct (m _). Qed.

(** Computing a status stores it only when none was cached. *)
Lemma keeps_compute shHex status x : st_rel (keeps_status shHex status) (ComputeScripthashStatusHex sorter ord x).
Proof.
  intros w. unfold ComputeScripthashStatusHex.
  rewrite (st_bind_run (st_gets _) _ w (GetIfClean x (sv_cache w)) w) by done.
  destruct (GetIfClean x (sv_cache w)) as [y|] eqn:Ex; [done|]. intros H.
  assert (Hne : x <> shHex) by congruence. revert w Ex H.
  match goal with |- forall w, _ -> _ -> GetIfClean _ (sv_cache (?m w).2) = _ =>
    assert (Hm : st_rel (keeps_status shHex status) m); [|intros w _; apply Hm] end.
  pose proof (@keeps_sdb shHex status) as Hsdb.
  apply st_rel_bind; [apply _|apply st_rel_lift; apply _|intros sh].
  apply st_rel_bind; [apply _|by intros w; apply keeps_same|intros m].
  apply st_rel_bind; [apply _|apply Hsdb|intros st].
  apply st_rel_bind; [apply _| |intros _; by apply st_rel_ret; apply _].
  intros w Hc. cbn. by rewrite GetIfClean_other.
Qed.

#[export] Instance keeps_status_rel shHex status writer : RequestRel sorter ord (keeps_status shHex status) writer.
Proof.
  split.
  - apply _.
  - intros A m _ _. apply keeps_sdb.
  - intros A f w. by apply keeps_same.
  - intros x w. by apply keeps_same.
  - intros x w. by apply keeps_same.
  - intros w. by apply keeps_same.
  - intros x. apply keeps_compute.
Qed.

Lemma server_step_status who shHex status w w' : server_step who shHex w w' -> keeps_status shHex status w w'.
Proof.
  intros [c line w0 _|c w0 _|x w0|l w0 Hn|data calls w0].
  - apply (request_rel sorter ord (keeps_status shHex status) c).
  - by apply keeps_same.
  - unfold NotifyScripthashStatusHex. pose proof (keeps_compute shHex status x w0) as H. unfold mbind, st_bind.
    by destruct (ComputeScripthashStatusHex _ _ _ w0) as [[st|e] w1].
  - intros H. cbn. by rewrite GetIfClean_marked.
  - by apply keeps_same.
Qed.

(** ** The subscription *)

(** The maps stay mirrors of each other, and the subscription stays. *)
Definition keeps_subscribed (writer : conn) (shHex : string) (w w' : sworld) : Prop :=
  subs_wf (sv_subs w) /\ subscribed (sv_subs w) writer shHex -> subs_wf (sv_subs w') /\ subscribed (sv_subs w') writer shHex.

#[export] Instance keeps_subscribed_preorder writer shHex : PreOrder (keeps_subscribed writer shHex).
Proof. split; [by intros w H|]. intros a b c H1 H2 H. by apply H2, H1. Qed.

Lemma kept_subscribed c writer shHex w w' : c <> writer -> subs_kept c w w' -> keeps_subscribed writer shHex w w'.
Proof.
  intros Hne [K1 K2] [H1 H2]. split; [auto|]. destruct (K2 writer) as [K _]; [done|]. by apply K.
Qed.

Lemma compute_subs x : st_rel (fun w w' => sv_subs w' = sv_subs w) (ComputeScripthashStatusHex sorter ord x).
Proof.
  assert (HP : PreOrder (fun w w' : sworld => sv_subs w' = sv_subs w)) by (split; [done|intros a b c E1 E2; by rewrite E2]).
  assert (Hsdb : forall A (m : st pdb A), st_rel (fun w w' => sv_subs w' = sv_subs w) (sdb m)).
  { intros A m w. unfold sdb, in_db. by destruct (m _). }
  unfold ComputeScripthashStatusHex.
  repeat first [progress solve_rel | apply Hsdb | match goal with |- st_rel _ (on_cache _) => by intros w end
    | match goal with |- st_rel _ mempool => by intros w end].
Qed.

Lemma server_step_subscribed writer shHex w w' :
  server_step (fun c => c <> writer) shHex w w' -> keeps_subscribed writer shHex w w'.
Proof.
  assert (Hsame : forall w1 w2 : sworld, sv_subs w2 = sv_subs w1 -> keeps_subscribed writer shHex w1 w2)
    by (intros w1 w2 E; unfold keeps_subscribed; by rewrite E).
  intros [c line w0 Hc|c w0 Hc|x w0|l w0 Hn|data calls w0]; try (by apply Hsame).
  - apply (kept_subscribed c); [done|]. apply (request_rel sorter ord (subs_kept c) c).
  - intros [H1 H2]. split; [eapply subs_step_wf; [exact H1|]; apply (sstep_drop _ ord c)|].
    apply (subscribed_drop ord c _ writer shHex H1). split; [done|]. by intros ->.
  - apply Hsame. unfold NotifyScripthashStatusHex. pose proof (compute_subs x w0) as H. unfold mbind, st_bind.
    by destruct (ComputeScripthashStatusHex _ _ _ w0) as [[st|e] w1].
Qed.

(** ** The life of a subscription *)

Lemma steps_status who shHex status w w' : rtc (server_step who shHex) w w' -> keeps_status shHex status w w'.
Proof. induction 1 as [w|w w1 w' Hs _ IH]; [done|]. etrans; [by eapply server_step_status|done]. Qed.

Lemma steps_subscribed writer shHex w w' :
  rtc (server_step (fun c => c <> writer) shHex) w w' -> keeps_subscribed writer shHex w w'.
Proof. induction 1 as [w|w w1 w' Hs _ IH]; [done|]. etrans; [by apply server_step_subscribed|done]. Qed.

Lemma notify_cached shHex status w : GetIfClean shHex (sv_cache w) = Some status ->
  NotifyScripthashStatusHex sorter ord shHex w = (Ok (NotifyScripthash shHex status (sv_subs w)), w).
Proof.
  intros E. unfold NotifyScripthashStatusHex, ComputeScripthashStatusHex, mbind, st_bind, st_gets. by rewrite E.
Qed.

(** C26: subscribing answers with the status and takes effect: for a scripthash
    whose status is not cached, the answer is the hash of its history's text, or
    nil when it has none.  From then on, after whatever lines any clients send,
    connections that end, statuses computed and notified, other scripthashes marked
    dirty and changes of the data, one at a time, a notification of the scripthash
    carries that same status and touches nothing; and it goes to the connection as
    long as that one has neither sent a line nor ended.  Once the scripthash is
    marked dirty, its status is computed anew from the history of that moment. *)
Theorem subscribe_answers_status (writer : conn) (sh : bytes) (w : sworld)
    (Hd : healthy (w_db (sv_world w))) (Hl : length sh = 32%nat)
    (Hdirty : GetIfClean (EncodeToString sh) (sv_cache w) = None) (Hwf : subs_wf (sv_subs w)) :
  exists history w1, reads (GetScripthashHistory sorter ord (w_mp (sv_world w)) sh) (w_db (sv_world w)) history /\
    handleScripthashSubscribe sorter ord writer (Some (scripthash_param sh)) w =
      (Ok (if decide (history = []) then VNil else VStr (status_of history)), w1) /\
    (forall w2, rtc (server_step (fun _ => True) (EncodeToString sh)) w1 w2 ->
       exists conns, NotifyScripthashStatusHex sorter ord (EncodeToString sh) w2 =
           (Ok (conns, (EncodeToString sh, if decide (history = []) then None else Some (status_of history))), w2) /\
         (rtc (server_step (fun c => c <> writer) (EncodeToString sh)) w1 w2 -> writer ∈ conns)) /\
    forall w2, healthy (w_db (sv_world w2)) ->
      exists history' w3, reads (GetScripthashHistory sorter ord (w_mp (sv_world w2)) sh) (w_db (sv_world w2)) history' /\
        (MarkScripthashDirtyMany [EncodeToString sh] ≫= fun _ => ComputeScripthashStatusHex sorter ord (EncodeToString sh)) w2 =
          (Ok (status_of history'), w3).
Proof.
  destruct (subscribe_run sorter ord writer sh w Hd Hl Hdirty) as (history & d & Hr & E).
  set (hx := EncodeToString sh) in *. set (w1 := mkSWorld _ _ _ _) in E. exists history, w1.
  split; [exact Hr|]. split; [exact E|]. split; [|intros w2 Hd2; by apply dirty_run]. intros w2 Hsteps.
  assert (Hc : GetIfClean hx (sv_cache w2) = Some (status_of history))
    by (apply (steps_status _ _ _ _ _ Hsteps), GetIfClean_SetClean).
  exists (default ∅ (scripthashSubs (sv_subs w2) !! hx)). split.
  - rewrite (notify_cached _ _ _ Hc). unfold NotifyScripthash. do 4 f_equal.
    pose proof (status_of_empty history). repeat case_decide; try done; tauto.
  - intros Hown. apply (steps_subscribed _ _ _ _ Hown). split; [eapply subs_step_wf; [exact Hwf|constructor]|].
    unfold subscribed. cbn. rewrite elem_set_insert. by right.
Qed.

End Subscribe.

(** ** Witness *)

Lemma subscribe_answers_status_witness : exists history w1,
  handleScripthashSubscribe merge_sorter id_order 1%positive (Some (scripthash_param (ComputeScripthash sample_script))) sample_server =
    (Ok (if decide (history = []) then VNil else VStr (status_of history)), w1) /\
  forall l, EncodeToString (ComputeScripthash sample_script) ∉ l -> exists conns,
    NotifyScripthashStatusHex merge_sorter id_order (EncodeToString (ComputeScripthash sample_script)) (MarkScripthashDirtyMany l w1).2 =
      (Ok (conns, (EncodeToString (ComputeScripthash sample_script), if decide (history = []) then None else Some (status_of history))),
       (MarkScripthashDirtyMany l w1).2) /\ 1%positive ∈ conns.
Proof.
  destruct (subscribe_answers_status sample_rpc_node amd64 merge_sorter id_order (fun s => Z.of_nat (slen s)) 0 1%positive
    (ComputeScripthash sample_script) sample_server indexed2_healthy (length_ComputeScripthash _) eq_refl)
    as (history & w1 & _ & H1 & H2 & _).
  { split; [intros c sh; cbn; rewrite !lookup_empty; set_solver|intros c sh H; cbn in H; by rewrite lookup_empty in H..]. }
  exists history, w1. split; [exact H1|]. intros l Hl.
  destruct (H2 (MarkScripthashDirtyMany l w1).2) as (conns & E & Hin).
  - apply rtc_once, sv_dirty, Hl.
  - exists conns. split; [exact E|]. apply Hin, rtc_once, sv_dirty, Hl.
Defined.
